(* ===== verification/_CoqProject ===== *)
-Q . S2P
Prelude.v
PyStr.v
PyTime.v
Binary64.v
Json.v
PyDict.v
Fnmatch.v
Contracts.v
JobRepository.v
JobInvariant.v
JobEffects.v
JobTheorems.v
JobProtocol.v
JobQueue.v
JobSubmit.v
Worker.v
Artifacts.v
ReviewQueue.v
Completion.v
Substitution.v
GoalStore.v
Coordinator.v
CoordinatorTheorems.v
CoordinatorProps.v
GoalRunner.v
Policy.v
Registry.v
Nebula.v
RoutingState.v
TaskLog.v
Orchestrator.v
OrchestratorProps.v
Route.v
Planner.v
PlanProgress.v
A2A.v
A2AServer.v
A2AIsolation.v
A2AStream.v
Security.v
Lessons.v
Confidence.v
ArtifactScan.v
Wormhole.v
Limiter.v
Provider.v
Feedback.v
Dataset.v
Curation.v
Signals.v
Ingestion.v
Heuristics.v
Repositories.v
GoalService.v
FineTuning.v
Workspace.v
TaskText.v
RigelExecution.v
Rigel.v
TaskService.v
VegaStages.v
Vega.v
Base64.v
Scorecards.v
Secrets.v
GitHub.v
Catalog.v
PostgresJobs.v
PostgresGoals.v
PostgresShared.v
AgentLoader.v
Lifecycle.v
Migrations.v
Mcp.v
Forge.v
Evaluation.v
Access.v
Training.v
OrionService.v
GitWorkspace.v
