(* ===== verification/Prelude.v ===== *)
(** * Galaxz, verified

    Galaxz routes the tasks of software goals to agents: a planner splits an
    objective into tasks, a coordinator submits the ready ones as durable jobs,
    workers execute them by routing each to an agent that offers its skill, and
    committed results are published to an artifact store or, when the agent was
    not sure enough, to a queue of human reviews. This library models that path
    as executable functions over explicit state and proves what keeps it correct.

    ** Conventions

    - A store (a SQLite file) is a record of its tables; a method is a function
      [M state result] (below) that returns or raises and says what it leaves
      behind on either path. [transaction] rolls back, a plain sequence does not.
    - Exceptions are the classes of [exn]. A pydantic model is a record with the
      function that validates it; its [ValidationError] is a [ValueError].
    - Identifiers drawn by [uuid4] and readings of the clock are arguments, so an
      interleaving of processes is a sequence of calls with their arguments. Every
      store method takes the lock or a [BEGIN IMMEDIATE] transaction for its whole
      body, which is why a call is one step.
    - Times are UTC microseconds ([PyTime]), text has code points below 256
      ([PyStr]), JSON is the tree it denotes ([Json]), floats are rationals. Where sums
      and means of floats are what a part is about, in the calibration of [Evaluation],
      every operation rounds as [Binary64] says; elsewhere floats are compared, or
      combined exactly. NaN and the infinities are not represented.
    - Code that is not in the repository is an argument: language models, agents
      as the router sees them, SHA-256, the YAML and JSON readers, S3.

    ** Files, by part of the program

    Foundations:

    - [Prelude]: results, the state monad, automation, stable sorting, counting.
    - [PyStr], [PyTime], [Binary64], [Json], [Fnmatch], [PyDict], [Base64]: the standard
      library the code uses.
    - [Contracts]: core/contracts, the data of jobs, tasks, skills and goals.

    Jobs and results:

    - [JobRepository]: core/jobs/repository.py, the durable job store, method by
      method. [JobInvariant] states what its tables always satisfy, [JobEffects]
      what each call does, [JobTheorems] and [JobQueue], [JobSubmit] its guarantees,
      and [JobProtocol] the small lease protocol it refines.
    - [Worker]: core/jobs/worker.py, execution, heartbeats and the claim cycle.
    - [Artifacts]: core/artifacts, versioned artifacts over the class
      [ObjectStorage]; its clients are proved against [ObjectStorageLaws], which the
      local backend is proved to satisfy.
    - [ReviewQueue], [Completion]: agents/andromeda/review_queue.py and
      core/jobs/completion.py, publishing committed results.
    - [PostgresJobs], [PostgresGoals], [PostgresShared]: the same
      stores on PostgreSQL, related to the SQLite ones.
    - [Migrations], [Lifecycle]: core/jobs/migrations.py, the
      schema of the job tables, and core/storage/lifecycle.py, retention and export.

    Goals and routing:

    - [Substitution], [GoalStore], [Coordinator] with [CoordinatorTheorems] and
      [CoordinatorProps], [GoalRunner]: core/goals and goal_runner.py, driving a
      goal's tasks through the job store or in one thread.
    - [Policy], [Registry], [Nebula], [RoutingState], [TaskLog]: core/policy,
      core/pulsar, core/nebula, state.py and task_log.py.
    - [Orchestrator], [OrchestratorProps], [Route]: orchestrator.py and nodes.py,
      the routing graph node by node and edge by edge, and [route] around it.
    - [Planner], [PlanProgress]: planner.py, and why a plan it accepts never stalls.
    - [Provider], [Limiter]: core/llm, its configuration and the limit on calls.

    Agents:

    - [Confidence], [RigelExecution], [Rigel]: agents/rigel, its
      confidence, its sandboxed runs and its skills.
    - [VegaStages], [Vega]: agents/vega, three stages, their
      lifecycle and the pipeline around them.
    - [AgentLoader]: core/agent_loader.py and the table of boot.py, agents in YAML.
    - [Mcp]: core/quasar, the client of tool servers and its agent.
    - [A2A], [A2AServer], [A2AIsolation], [A2AStream], [Wormhole]: core/a2a, the server
      over the job store, what one caller can see of another, and the client.
    - [Catalog], [Forge]: core/constellation and core/scaffolder.py, agents installed and
      generated.

    Learning:

    - [Feedback], [Ingestion], [Dataset], [Curation], [Training]:
      orion's event log, the stream that feeds it, the training files and what fills them.
    - [Signals], [Heuristics], [FineTuning]: orion/pipeline, from the
      events of a window to trends, weights and candidates for training.
    - [OrionService]: orion/__init__.py, the cycle over these parts and its loop, and the
      same parts as steps of tasks that interleave ([task_step]), with the training endpoint.
    - [Lessons]: orion/core/lesson_store.py and lesson_proposal.py.
    - [Scorecards], [Evaluation]: core/scorecards, core/evaluation
      and core/platform.py.

    The service and its safeguards:

    - [TaskText], [Workspace], [TaskService]: submitting tasks,
      session context, the scan and the files of services/andromeda_service.py. Agents
      write to the same files: the service is proved against the class [GuardedAgents],
      which Rigel is proved to satisfy.
    - [Repositories], [GoalService]: goals and reviews over HTTP.
    - [GitWorkspace]: workspace/git_workspace.py and git_changes.py, a worktree for each
      goal and the commit of its artifacts.
    - [Access]: agents/andromeda/middleware/auth.py, and reading, configuring and health.
    - [ArtifactScan], [Security], [Secrets], [GitHub]: the scan of
      artifacts with its regular expressions, the audit chain, execution policy, secrets
      and service identities, and core/github.

    ** What the theorems show

    - Jobs: every reachable database satisfies the invariant; each call is a step
      of the lease protocol; a lease has one holder, a stale one changes nothing,
      and a job is completed once; claims follow priority; failures are retried as
      the policy says with capped doubling; lost work is recovered; a call that
      raises changes nothing. PostgreSQL agrees, and where it does not is stated.
    - Workers and results: a result that arrives after the lease was lost is
      discarded; publication can be repeated; evidence precedes acknowledgement.
    - Goals: statuses follow the state machine, limits on concurrency hold,
      blocking is reachability from the failed tasks, a cancelled goal leaves
      nothing to run, a claimed goal comes to rest, and an accepted plan, being
      acyclic by the planner's search, always has a task that can start.
    - Routing: every run ends after at most twelve nodes with a typed answer, no
      agent runs without the permission of the policy, a completed task was served
      by an agent able to serve it with the confidence it asked for, every answer
      is logged, an escalation is queued, an uncommitted attempt exposes nothing.
    - Stores: artifacts are append-only and recorded atomically, retention keeps
      the latest, the registry survives a restart, approvals are single use, recall
      returns the best matches, an export verifies until it is changed, migrations
      go up and down.
    - Agents: coverage is computed and not believed, stages follow their lifecycle,
      changes to a workspace are guarded, an answer of a tool server is taken from the
      output of the process that was asked and belongs to the request, never more calls of a
      provider run than its cap, a forged agent overwrites nothing.
    - Callers: one caller of the A2A server sees and touches nothing of another's, a
      token is sent to its own host only, nothing but the exempt routes answers
      without the key, differences and reports stay in their scope.
    - Learning: however the tasks of Orion interleave, every example was made of an event
      intake accepted, a migrated line or a confident feedback event; suggested weights are
      shares, messages are read or kept aside, a lesson that is shown was reviewed or was
      posted under the name of the skill, files of examples are append-only, a calibration
      counts every record once, and repeated cycles only add, whatever fails in them.
    - Safeguards: known kinds of keys are found wherever they stand in a text, the audit
      chain shows tampering, secrets stay in their scope.

    Where the code departs from what it means to do, an [Example] computes it.

    ** Bounds and fuel

    - [run_graph] has the 25 nodes of the graph library's own limit; twelve are
      proved to be enough. [drive_loop] has one step more than there are pending
      tasks, [block_loop] one more than there are tasks, each proved to be enough.
    - [visit] has as many levels as the graph has nodes; [has_cycle_correct] would
      be false if it could run out. Python's own limit on recursion, which a plan of
      about a thousand chained tasks would reach, is not represented.
    - A process of a tool server is the finite part of its output that a call comes to see.
      The program sets no bound on the messages it skips or the pages it asks for;
      [list_pages] has the pages it is given, and gives no answer when there are more.
    - Loops over text have its length as fuel.

    ** Not modelled

    The Alembic migrations of PostgreSQL, observability, the client of Redis, the
    threads of heartbeats and schedulers, the command line and the services beside
    Andromeda's are glue around input and output, as are the endpoints that only summarize
    tables for display. evals/run_evals.py is a test harness that patches the program and
    asserts on it. Opening of files and databases, locks and threads are represented only
    by the order of calls. *)

From stdpp Require Export base tactics list gmap strings sorting.
From Stdlib Require Export ZArith QArith_base Lia ZifyN ZifyNat ZifyBool.
Close Scope Q_scope.
#[export] Set Warnings "-clear-no-such-hyp,-register-all".

(** ** Exceptions and fallible computations

    One constructor per exception class the modelled code raises.
    pydantic's [ValidationError] is a subclass of [ValueError] and is
    represented by it. *)
Inductive exn :=
  | ValueError | KeyError | TypeError | AttributeError | OverflowError | RuntimeError
  | IndexError | AssertionError | IntegrityError | InterfaceError
  | PermissionError | OSError | ObjectStorageError
  | InvalidJobState | LeaseConflict | JobCancelled
  | PayloadResolutionError | PlanValidationError | PolicyConfigError
  | A2AError (code : Z) (message : string) (reason : option string)
  | HTTPException (status_code : Z)
  | A2AClientError (message : string)
  | ExecutionSandboxUnavailable
  | McpError (message : string)
  | DataError | ProgrammingError | OperationalError | NotImplementedError | HTTPStatusError | CatalogError | CatalogConflict | CatalogNotFound | ForgeConflictError
  | WorkspaceError | CalledProcessError.

#[export] Instance exn_eq_dec : EqDecision exn.
Proof. solve_decision. Defined.

Inductive result (A : Type) :=
  | Ok (a : A)
  | Raise (e : exn).
Arguments Ok {A} a.
Arguments Raise {A} e.

#[export] Instance result_eq_dec {A} `{EqDecision A} : EqDecision (result A).
Proof. solve_decision. Defined.

#[export] Instance rbind : MBind result := λ A B k m,
  match m with Ok a => k a | Raise e => Raise e end.

Definition rguard (b : bool) (e : exn) : result unit :=
  if b then Ok tt else Raise e.

Definition is_ok {A} (r : result A) : Prop := ∃ a, r = Ok a.

Definition of_option {A} (e : exn) (o : option A) : result A :=
  match o with Some a => Ok a | None => Raise e end.

Fixpoint rmap {A B} (f : A → result B) (l : list A) : result (list B) :=
  match l with
  | [] => Ok []
  | a :: l => b ← f a; bs ← rmap f l; Ok (b :: bs)
  end.

(** ** Stateful computations that may raise

    A method that mutates a store is a function from the store to an
    outcome and the store it leaves behind; the store is returned on the
    exceptional path too, since a Python method may raise after a commit. *)
Definition M (S A : Type) : Type := S → result A * S.

#[export] Instance M_ret S : MRet (M S) := λ A a s, (Ok a, s).
Definition mraise {S A} (e : exn) : M S A := λ s, (Raise e, s).
#[export] Instance M_bind S : MBind (M S) := λ A B k m s,
       match m s with
       | (Ok a, s') => k a s'
       | (Raise e, s') => (Raise e, s')
       end.
Definition mget {S} : M S S := λ s, (Ok s, s).
Definition mput {S} (s : S) : M S unit := λ _, (Ok tt, s).
Definition mmodify {S} (f : S → S) : M S unit := λ s, (Ok tt, f s).
Definition mlift {S A} (r : result A) : M S A := λ s, (r, s).
Definition mguard {S} (b : bool) (e : exn) : M S unit := mlift (rguard b e).
Definition mread {S A} (f : S → result A) : M S A := λ s, (f s, s).

(** [BEGIN IMMEDIATE ... commit], with [except Exception: rollback; raise]. *)
Definition transaction {S A} (m : M S A) : M S A :=
  λ s, match m s with
       | (Ok a, s') => (Ok a, s')
       | (Raise e, _) => (Raise e, s)
       end.

Fixpoint miter {S A} (f : A → M S unit) (l : list A) : M S unit :=
  match l with
  | [] => mret tt
  | a :: l => f a;; miter f l
  end.

(** [\[f(x) for x in l\]] with a stateful [f]. *)
Fixpoint mmapM {S A B} (f : A → M S B) (l : list A) : M S (list B) :=
  match l with
  | [] => mret []
  | a :: l => b ← f a; bs ← mmapM f l; mret (b :: bs)
  end.

Lemma transaction_raise {S A} (m : M S A) s e s' :
  transaction m s = (Raise e, s') → s' = s.
Proof. unfold transaction. destruct (m s) as [[]?]; congruence. Qed.

Lemma transaction_ok {S A} (m : M S A) s a s' :
  transaction m s = (Ok a, s') ↔ m s = (Ok a, s').
Proof. unfold transaction. destruct (m s) as [[]?]; split; congruence. Qed.

Lemma mbind_ok {S A B} (m : M S A) (k : A → M S B) s b s' :
  (m ≫= k) s = (Ok b, s') ↔ ∃ a s1, m s = (Ok a, s1) ∧ k a s1 = (Ok b, s').
Proof.
  unfold mbind, M_bind. destruct (m s) as [[a|e] s1] eqn:E; split.
  - eauto.
  - intros (a' & s2 & [= <- <-] & H). exact H.
  - discriminate.
  - intros (a' & s2 & [=] & _).
Qed.

Lemma mbind_raise {S A B} (m : M S A) (k : A → M S B) s e s' :
  (m ≫= k) s = (Raise e, s') ↔
  m s = (Raise e, s') ∨ ∃ a s1, m s = (Ok a, s1) ∧ k a s1 = (Raise e, s').
Proof. unfold mbind, M_bind. destruct (m s) as [[a|e'] s1] eqn:E; naive_solver. Qed.

(** A computation that leaves the part [f] of the state alone, however it ends. *)
Definition keeps {S A T} (f : S → T) (m : M S A) : Prop := ∀ s, f (m s).2 = f s.

Lemma keeps_bind {S A B T} (f : S → T) (m : M S A) (k : A → M S B) :
  keeps f m → (∀ a, keeps f (k a)) → keeps f (m ≫= k).
Proof.
  intros Hm Hk s. unfold mbind, M_bind. specialize (Hm s). destruct (m s) as [[a|e] s1]; simpl in *;
    [by rewrite Hk|done].
Qed.

Lemma keeps_lift {S A B T} (f : S → T) (r : result A) (k : A → M S B) :
  (∀ a, r = Ok a → keeps f (k a)) → keeps f (mlift r ≫= k).
Proof. intros Hk s. unfold mbind, M_bind, mlift. destruct r; [by apply Hk|done]. Qed.

Lemma keeps_pure {S A T} (f : S → T) (r : S → result A) : keeps f (λ s, (r s, s)).
Proof. by intros s. Qed.

Lemma keeps_mmapM {S A B T} (f : S → T) (g : A → M S B) l :
  (∀ a, keeps f (g a)) → keeps f (mmapM g l).
Proof.
  intros Hg. induction l as [|a l IH]; [apply keeps_pure|].
  apply keeps_bind; [done|]. intros b. apply keeps_bind; [done|]. intros bs. apply keeps_pure.
Qed.

Lemma keeps_result {S A T} (f : S → T) (m : M S A) s x s' : keeps f m → m s = (x, s') → f s' = f s.
Proof. intros Hk H. specialize (Hk s). by rewrite H in Hk. Qed.

Lemma mmapM_length {S A B} (f : A → M S B) l : ∀ s bs s', mmapM f l s = (Ok bs, s') →
  length bs = length l.
Proof.
  induction l as [|a l IH]; intros s bs s' H; [unfold mmapM, mret, M_ret in H; by simplify_eq|].
  simpl in H. apply mbind_ok in H as (b & s1 & _ & (bs' & s2 & H2 & H3)%mbind_ok).
  unfold mret, M_ret in H3. simplify_eq. simpl. f_equal. by eapply IH.
Qed.

(** How a composed computation ended: in its first part, or in what follows. *)
Lemma mbind_cases {S A B} (m : M S A) (k : A → M S B) s x s' : (m ≫= k) s = (x, s') →
  (∃ e, m s = (Raise e, s') ∧ x = Raise e) ∨ ∃ a s1, m s = (Ok a, s1) ∧ k a s1 = (x, s').
Proof. unfold mbind, M_bind. destruct (m s) as [[a|e] s1]; naive_solver. Qed.

Lemma mlift_cases {S A B} (r : result A) (k : A → M S B) s x s' : (mlift r ≫= k) s = (x, s') →
  s' = s ∨ ∃ a, r = Ok a ∧ k a s = (x, s').
Proof. unfold mlift, mbind, M_bind. destruct r; naive_solver. Qed.

(** Run one step of a computation whose outcome is known. *)
Lemma mbind_step {S A B} (m : M S A) (k : A → M S B) s a s' :
  m s = (Ok a, s') → (m ≫= k) s = k a s'.
Proof. intros H. unfold mbind, M_bind. by rewrite H. Qed.

Lemma mguard_true {S} b e (s : S) : b = true → mguard b e s = (Ok tt, s).
Proof. by intros ->. Qed.

Lemma rbind_ok {A B} (m : result A) (k : A → result B) b :
  m ≫= k = Ok b ↔ ∃ a, m = Ok a ∧ k a = Ok b.
Proof. unfold mbind, rbind. destruct m; naive_solver. Qed.

Lemma rbind_raise {A B} (m : result A) (k : A → result B) e :
  m ≫= k = Raise e → m = Raise e ∨ ∃ a, m = Ok a ∧ k a = Raise e.
Proof. unfold mbind, rbind. destruct m; naive_solver. Qed.

Lemma rguard_raise b e e' : rguard b e = Raise e' → b = false ∧ e' = e.
Proof. unfold rguard. destruct b; naive_solver. Qed.

Lemma rguard_ok b e u : rguard b e = Ok u ↔ b = true.
Proof. unfold rguard. destruct b, u; naive_solver. Qed.

Lemma rmap_total {A B} (f : A → result B) (g : A → B) l :
  (∀ a, f a = Ok (g a)) → rmap f l = Ok (map g l).
Proof.
  intros Hf. induction l as [|a l IH]; simpl; [done|].
  rewrite Hf. unfold mbind, rbind at 1. by rewrite IH.
Qed.

(** ** Automation *)

(** Distinctness of a concrete list, decided by evaluation. *)
Ltac solve_nodup := apply (bool_decide_unpack _); vm_compute; exact I.

(** Invert a successful [result] computation into its steps. *)
Ltac rok :=
  repeat match goal with
  | H : @mbind result _ _ _ _ _ = Ok _ |- _ => apply rbind_ok in H as (? & ? & H)
  | H : rguard _ _ = Ok _ |- _ => apply rguard_ok in H
  | H : Ok _ = Ok _ |- _ => injection H as H; try subst
  | H : Raise _ = Ok _ |- _ => discriminate H
  end.

(** Split a raising [result] computation on the step that raised. *)
Ltac rraise :=
  repeat match goal with
  | H : @mbind result _ _ _ _ _ = Raise _ |- _ => apply rbind_raise in H as [H|(? & ? & H)]
  | H : rguard _ _ = Raise _ |- _ => apply rguard_raise in H as [? H]; try subst
  | H : Ok _ = Raise _ |- _ => discriminate H
  end.

Create HintDb galaxz.

(** Unfold the monad in hypotheses and goal and split every match on the way. *)
Ltac munfold := unfold mbind, M_bind, rbind, mret, M_ret, mraise, mget, mput, mmodify, mlift, mguard,
  mread, rguard, transaction in *.
Ltac crunch_match :=
  repeat (simplify_eq/=;
    match goal with
    | H : context [match ?x with _ => _ end] |- _ =>
        lazymatch x with
        | context [match _ with _ => _ end] => fail
        | _ => let E := fresh "E" in destruct x eqn:E
        end
    | |- context [match ?x with _ => _ end] =>
        lazymatch x with
        | context [match _ with _ => _ end] => fail
        | _ => let E := fresh "E" in destruct x eqn:E
        end
    end); simplify_eq/=.
Ltac mcrunch := munfold; crunch_match.

(** A computation whose every end stands in a relation to its beginning. *)
Definition within {S A} (R : S → S → Prop) (m : M S A) : Prop := ∀ s, R s (m s).2.

Section Within.
Context {S : Type} (R : S → S → Prop) `{!PreOrder R}.

Lemma within_lift {A} (r : result A) : within R (mlift r).
Proof. by intros s. Qed.
Lemma within_ret {A} (a : A) : within R (mret a).
Proof. by intros s. Qed.
Lemma within_get : within R mget.
Proof. by intros s. Qed.

Lemma within_bind {A B} (m : M S A) (k : A → M S B) : within R m → (∀ a, within R (k a)) → within R (m ≫= k).
Proof.
  intros Hm Hk s. unfold mbind, M_bind. specialize (Hm s). destruct (m s) as [[a|e] s1]; simpl in *; [|done].
  etrans; [exact Hm|apply Hk].
Qed.

Lemma within_iter {A} (f : A → M S unit) l : (∀ a, within R (f a)) → within R (miter f l).
Proof. intros Hf. induction l as [|a l IH]; [apply within_ret|]. by apply within_bind. Qed.

Lemma within_get_bind {A} (k : S → M S A) : (∀ s, within R (k s)) → within R (mget ≫= k).
Proof. intros H s. apply H. Qed.
End Within.

Ltac go_within := repeat lazymatch goal with
  | |- within _ (mget ≫= _) => apply within_get_bind; intros ?
  | |- within _ (_ ≫= _) => apply within_bind; [apply _| |intros ?]
  | |- within _ (mlift _) => apply within_lift; apply _
  | |- within _ (mguard _ _) => apply within_lift; apply _
  | |- within _ (mret _) => apply within_ret; apply _
  | |- within _ mget => apply within_get; apply _
  | |- within _ (miter _ _) => apply within_iter; [apply _|intros ?]
  | |- within _ (match ?x with _ => _ end) => destruct x
  end.

(** Turn boolean tests in the context into propositions. *)
Ltac reflect :=
  repeat match goal with
  | H : bool_decide _ = true |- _ => apply bool_decide_eq_true in H
  | H : bool_decide _ = false |- _ => apply bool_decide_eq_false in H
  | H : (_ && _) = true |- _ => apply andb_true_iff in H as [? ?]
  | H : (_ || _) = false |- _ => apply orb_false_iff in H as [? ?]
  | H : (_ && _) = false |- _ => apply andb_false_iff in H
  | H : (_ || _) = true |- _ => apply orb_true_iff in H
  | H : negb _ = true |- _ => apply negb_true_iff in H
  | H : negb _ = false |- _ => apply negb_false_iff in H
  | H : (_ <=? _)%Z = true |- _ => apply Z.leb_le in H
  | H : (_ <=? _)%Z = false |- _ => apply Z.leb_gt in H
  | H : (_ <? _)%Z = true |- _ => apply Z.ltb_lt in H
  | H : (_ <? _)%Z = false |- _ => apply Z.ltb_ge in H
  | H : (_ =? _)%Z = true |- _ => apply Z.eqb_eq in H
  | H : (_ =? _)%Z = false |- _ => apply Z.eqb_neq in H
  end.

(** ** Python's [or], and tests on optional values *)

Definition or_else {A} (o : option A) (d : A) : A :=
  match o with Some a => a | None => d end.

Definition Qltb (a b : Q) : bool := negb (Qle_bool b a).

Lemma Qltb_lt a b : Qltb a b = true ↔ Qlt a b.
Proof.
  unfold Qltb. rewrite negb_true_iff. split; intros H.
  - destruct (Qlt_le_dec a b) as [|H']; [done|].
    apply Qle_bool_iff in H'. congruence.
  - destruct (Qle_bool b a) eqn:E; [|done].
    apply Qle_bool_iff in E. exfalso. by apply (Qlt_not_le a b).
Qed.

(** ** Python's [sorted]: a stable insertion sort by a boolean order

    [sorted(xs, key=..)] and SQL's [ORDER BY] are both this function at a
    suitable order; where the order is not total on the rows, the result
    keeps the input order of ties (Python's documented stability). *)
Section Sorted.
Context {A : Type} (leb : A → A → bool).

Fixpoint insert_sorted (x : A) (l : list A) : list A :=
  match l with
  | [] => [x]
  | y :: l' => if leb x y then x :: l else y :: insert_sorted x l'
  end.

Fixpoint py_sorted (l : list A) : list A :=
  match l with
  | [] => []
  | x :: l => insert_sorted x (py_sorted l)
  end.

Lemma insert_sorted_perm x l : insert_sorted x l ≡ₚ x :: l.
Proof.
  induction l as [|y l IH]; simpl; [done|].
  destruct (leb x y); [done|]. rewrite IH. apply perm_swap.
Qed.

Lemma py_sorted_perm l : py_sorted l ≡ₚ l.
Proof.
  induction l as [|x l IH]; simpl; [done|].
  by rewrite insert_sorted_perm, IH.
Qed.

Lemma elem_of_py_sorted x l : x ∈ py_sorted l ↔ x ∈ l.
Proof. by rewrite py_sorted_perm. Qed.

Context (leb_total : ∀ x y, leb x y = true ∨ leb y x = true)
        (leb_trans : ∀ x y z, leb x y = true → leb y z = true → leb x z = true).

Lemma insert_sorted_sorted x l :
  StronglySorted (λ a b, leb a b = true) l →
  StronglySorted (λ a b, leb a b = true) (insert_sorted x l).
Proof.
  induction 1 as [|y l Hs IH Hy]; simpl; [repeat constructor|].
  destruct (leb x y) eqn:E.
  - constructor; [by constructor|]. constructor; [done|].
    eapply Forall_impl; [exact Hy|]. eauto.
  - constructor; [done|]. rewrite Forall_forall. intros z.
    rewrite insert_sorted_perm, elem_of_cons. intros [->|Hz].
    + destruct (leb_total x y); congruence.
    + by eapply Forall_forall in Hy.
Qed.

Lemma py_sorted_sorted l : StronglySorted (λ a b, leb a b = true) (py_sorted l).
Proof. induction l; simpl; [constructor|]. by apply insert_sorted_sorted. Qed.

(** The head of a sorted list is a least element of the input. *)
Lemma py_sorted_head x l l' :
  py_sorted l = x :: l' → x ∈ l ∧ ∀ y, y ∈ l → leb x y = true.
Proof.
  intros E. pose proof (py_sorted_sorted l) as Hs. rewrite E in Hs.
  split; [rewrite <-elem_of_py_sorted, E; by left|].
  intros y. rewrite <-elem_of_py_sorted, E, elem_of_cons.
  inversion Hs as [|? ? _ Hall]; subst. intros [->|Hy].
  - destruct (leb_total x x); done.
  - by eapply Forall_forall in Hall.
Qed.

(** A list that is already sorted is returned unchanged. *)
Lemma py_sorted_id l :
  StronglySorted (λ a b, leb a b = true) l → py_sorted l = l.
Proof.
  induction 1 as [|x l Hs IH Hx]; simpl; [done|]. rewrite IH.
  destruct l as [|y l]; simpl; [done|].
  inversion Hx; subst. by rewrite H1.
Qed.
End Sorted.

(** Orders that tell all rows apart by a key have one result, whatever the order of the
    rows before. *)
Lemma py_sorted_once {A K} (key : A → K) (Q : A → A → Prop) (R R' : A → A → bool) l l' :
  NoDup (key <$> l) → l' ≡ₚ l →
  (∀ x y, R x y = true → Q x y) → (∀ x y, R' x y = true → Q x y) → (∀ x y, Q x y → Q y x → key x = key y) →
  (∀ x y, R x y = true ∨ R y x = true) → (∀ x y z, R x y = true → R y z = true → R x z = true) →
  (∀ x y, R' x y = true ∨ R' y x = true) → (∀ x y z, R' x y = true → R' y z = true → R' x z = true) →
  py_sorted R' l' = py_sorted R l.
Proof.
  intros Hn Hp HR HR' HQ Ht Htr Ht' Htr'.
  assert (Hsub : ∀ T : A → A → bool, (∀ x y, T x y = true → Q x y) → (∀ x y, T x y = true ∨ T y x = true) →
    (∀ x y z, T x y = true → T y z = true → T x z = true) → ∀ k, StronglySorted Q (py_sorted T k)).
  { intros T HT Hto Htn k. pose proof (py_sorted_sorted T Hto Htn k) as Hs.
    induction Hs as [|x l0 Hs IH Hx]; constructor; [done|]. eapply Forall_impl; [exact Hx|]. simpl. apply HT. }
  apply (StronglySorted_unique_strong Q); [|by apply Hsub..|by rewrite !py_sorted_perm].
  intros x1 x2 H1%elem_of_py_sorted H2%elem_of_py_sorted H12 H21. rewrite Hp in H1.
  apply list_elem_of_lookup in H1 as [i Hi]. apply list_elem_of_lookup in H2 as [j Hj].
  assert (i = j) as ->; [|congruence].
  eapply NoDup_lookup; [exact Hn| |]; rewrite list_lookup_fmap; [by rewrite Hi|].
  rewrite Hj. simpl. f_equal. symmetry. by apply HQ.
Qed.

Lemma py_sorted_nil {A} (leb : A → A → bool) l : py_sorted leb l = [] ↔ l = [].
Proof.
  split; [|by intros ->]. intros H.
  apply Permutation_nil. rewrite <-H. apply py_sorted_perm.
Qed.

(** ** Maps *)

Lemma alter_as_insert {K A} `{Countable K} (f : A → A) (i : K) (m : gmap K A) x :
  m !! i = Some x → alter f i m = <[i := f x]> m.
Proof.
  intros Hx. apply map_eq. intros k. destruct (decide (i = k)) as [->|].
  - by rewrite lookup_alter_eq, lookup_insert_eq, Hx.
  - by rewrite lookup_alter_ne, lookup_insert_ne.
Qed.

Lemma alter_absent {K A} `{Countable K} (f : A → A) (i : K) (m : gmap K A) :
  m !! i = None → alter f i m = m.
Proof.
  intros Hx. apply map_eq. intros k. destruct (decide (i = k)) as [->|].
  - by rewrite lookup_alter_eq, Hx.
  - by rewrite lookup_alter_ne.
Qed.

(** Split a lookup in an updated map on whether the key is the updated one. *)
Ltac split_lookup :=
  repeat match goal with
  | H : context [<[?i := _]> _ !! ?j] |- _ =>
      destruct (decide (i = j)); [subst; rewrite lookup_insert_eq in H; simplify_eq/=
                                 |rewrite lookup_insert_ne in H by done]
  | |- context [<[?i := _]> _ !! ?j] =>
      destruct (decide (i = j)); [subst; rewrite lookup_insert_eq; simplify_eq/=
                                 |rewrite lookup_insert_ne by done]
  end.

Lemma forallb_false_ex {A} (p : A → bool) l : forallb p l = false → ∃ a, a ∈ l ∧ p a = false.
Proof.
  induction l as [|a l IH]; simpl; [done|]. destruct (p a) eqn:E; simpl.
  - intros (b & ? & ?)%IH. exists b. split; [by right|done].
  - intros _. exists a. split; [by left|done].
Qed.

Lemma existsb_false_iff {A} (f : A → bool) l :
  existsb f l = false ↔ ∀ x, x ∈ l → f x = false.
Proof.
  induction l as [|y l IH]; simpl; [by split; [intros _ x Hx%elem_of_nil|]|].
  rewrite orb_false_iff, IH. split.
  - intros [H1 H2] x [->|]%elem_of_cons; auto.
  - intros H. split; [apply H; by left|]. intros x Hx. apply H. by right.
Qed.

(** Read a field of a row found by a concrete lookup. *)
Lemma some_field {A B} (f : A → B) (o : option A) x v :
  o = Some x → f <$> o = Some v → f x = v.
Proof. intros -> [= <-]. done. Qed.

(** A test that holds on the content of a concrete lookup. *)
Lemma some_test {A} (f : A → bool) (o : option A) x :
  o = Some x → from_option f true o = true → f x = true.
Proof. by intros ->. Qed.

(** Counting with boolean filters. *)
Lemma filter_length_le {A} (f g : A → bool) l :
  (∀ x, x ∈ l → f x = true → g x = true) →
  (length (List.filter f l) ≤ length (List.filter g l))%nat.
Proof.
  induction l as [|x l IH]; intros H; simpl; [done|].
  assert (IH' : (length (List.filter f l) ≤ length (List.filter g l))%nat)
    by (apply IH; intros; apply H; [by right|done]).
  destruct (f x) eqn:E; [rewrite (H x ltac:(by left) E)|destruct (g x)]; simpl; lia.
Qed.

Lemma filter_length_lt {A} (f g : A → bool) l x :
  (∀ y, y ∈ l → f y = true → g y = true) → x ∈ l → f x = false → g x = true →
  (length (List.filter f l) < length (List.filter g l))%nat.
Proof.
  induction l as [|y l IH]; intros H Hx Hf Hg; [by apply elem_of_nil in Hx|].
  assert (H' : ∀ y, y ∈ l → f y = true → g y = true) by (intros; apply H; [by right|done]).
  simpl. apply elem_of_cons in Hx as [<-|Hx].
  - rewrite Hf, Hg. simpl. pose proof (filter_length_le f g l H'). lia.
  - pose proof (IH H' Hx Hf Hg). destruct (f y) eqn:E.
    + rewrite (H y ltac:(by left) E). simpl. lia.
    + destruct (g y); simpl; lia.
Qed.

(** Counting is insensitive to order and bounded over a filter's refinement. *)
Lemma filter_perm {A} (f : A → bool) l l' : l ≡ₚ l' → List.filter f l ≡ₚ List.filter f l'.
Proof.
  induction 1; simpl; try done; repeat match goal with |- context [if ?b then _ else _] => destruct b end;
    try done; try by constructor. by etrans.
Qed.

Lemma StronglySorted_weaken {A} (R S : A → A → Prop) l :
  (∀ a b, R a b → S a b) → StronglySorted R l → StronglySorted S l.
Proof.
  intros H. induction 1 as [|a l _ IH Ha]; constructor; [done|].
  eapply Forall_impl; [exact Ha|]. auto.
Qed.
