(* ===== verification/PyStr.v ===== *)
(** Python strings and UUIDs: [str.strip], [str.split], ordering, decimal and
    hexadecimal rendering, and the injectivity of [str(UUID)].

    A Rocq [string] stands for a Python [str] whose code points are below
    256, one [ascii] per code point. *)

From S2P Require Import Prelude.
From stdpp Require Import pretty.
From Stdlib Require Import Ascii.

Definition str_leb (a b : string) : bool := String.leb a b.

Lemma str_leb_total a b : str_leb a b = true ∨ str_leb b a = true.
Proof. apply String.leb_total. Qed.

Lemma str_leb_trans a b c :
  str_leb a b = true → str_leb b c = true → str_leb a c = true.
Proof.
  unfold str_leb. intros H1%Is_true_true H2%Is_true_true. apply Is_true_true.
  eapply (transitivity (R := String.le)); eassumption.
Qed.

(** [str.isspace] on one code point below 256. *)
Definition is_space (c : ascii) : bool :=
  let n := nat_of_ascii c in
  ((9 <=? n) && (n <=? 13) || (28 <=? n) && (n <=? 32) || (n =? 133) || (n =? 160))%nat.

Fixpoint drop_space (l : list ascii) : list ascii :=
  match l with
  | [] => []
  | c :: l' => if is_space c then drop_space l' else l
  end.

Definition to_list (s : string) : list ascii := String.list_ascii_of_string s.
Definition of_list (l : list ascii) : string := String.string_of_list_ascii l.

Definition strip (s : string) : string :=
  of_list (rev (drop_space (rev (drop_space (to_list s))))).

(** [s.split(sep)] for a one-character separator. *)
Fixpoint split_on (sep : ascii) (cur : list ascii) (l : list ascii) : list string :=
  match l with
  | [] => [of_list (rev cur)]
  | c :: l' => if Ascii.eqb c sep then of_list (rev cur) :: split_on sep [] l'
               else split_on sep (c :: cur) l'
  end.
Definition split (sep : ascii) (s : string) : list string := split_on sep [] (to_list s).

Definition startswith (s p : string) : bool := String.prefix p s.

(** [s.removeprefix(p)]. *)
Definition removeprefix (s p : string) : string :=
  if startswith s p
  then String.substring (String.length p) (String.length s - String.length p) s
  else s.

(** [str] of an int. *)
Definition py_int (z : Z) : string := pretty z.

Definition truthy_str (s : string) : bool := negb (String.eqb s "").

(** ** Decimal and hexadecimal digits *)

Definition digit_char (d : N) : ascii :=
  ascii_of_N (if (d <? 10)%N then 48 + d else 87 + d).

(** [n] in base [b] on exactly [w] digits. *)
Fixpoint digits (b : N) (w : nat) (n : N) : list ascii :=
  match w with
  | O => []
  | S w' => digits b w' (n / b) ++ [digit_char (n mod b)]
  end.

Definition pad (w : nat) (n : N) : string := of_list (digits 10 w n).

(** [str(UUID)]: the 128-bit integer as 8-4-4-4-12 lower-case hex digits. *)
Definition hyphenate (l : list ascii) : list ascii :=
  take 8 l ++ ["-"%char] ++ take 4 (drop 8 l) ++ ["-"%char] ++ take 4 (drop 12 l)
  ++ ["-"%char] ++ take 4 (drop 16 l) ++ ["-"%char] ++ drop 20 l.
Definition uuid_str (u : N) : string := of_list (hyphenate (digits 16 32 u)).

Definition uuid_ok (u : N) : Prop := (u < 2 ^ 128)%N.

(** ** Lemmas *)

Lemma to_of_list l : to_list (of_list l) = l.
Proof. apply String.list_ascii_of_string_of_list_ascii. Qed.

Lemma of_to_list s : of_list (to_list s) = s.
Proof. apply String.string_of_list_ascii_of_string. Qed.

#[export] Instance of_list_inj : Inj (=) (=) of_list.
Proof. intros a b H. rewrite <-(to_of_list a), <-(to_of_list b). by f_equal. Qed.

Lemma to_list_app a b : to_list (a +:+ b) = to_list a ++ to_list b.
Proof. induction a as [|c a IH]; [done|]. simpl. f_equal. apply IH. Qed.

Lemma of_list_app a b : of_list (a ++ b) = of_list a +:+ of_list b.
Proof.
  induction a as [|c a IH]; [done|].
  change (of_list ((c :: a) ++ b)) with (String c (of_list (a ++ b))). by rewrite IH.
Qed.

Lemma str_app_assoc (a b c : string) : (a +:+ b) +:+ c = a +:+ (b +:+ c).
Proof.
  induction a as [|x a IH]; [done|].
  change (String x ((a +:+ b) +:+ c) = String x (a +:+ (b +:+ c))). by rewrite IH.
Qed.

Lemma drop_space_head l : match drop_space l with [] => True | c :: _ => is_space c = false end.
Proof. induction l as [|c l IH]; simpl; [done|]. by destruct (is_space c) eqn:E. Qed.

Lemma drop_space_id l :
  match l with [] => True | c :: _ => is_space c = false end → drop_space l = l.
Proof. destruct l as [|c l]; simpl; [done|]. by intros ->. Qed.

Lemma drop_space_suffix l : ∃ p, l = p ++ drop_space l.
Proof.
  induction l as [|c l [p IH]]; simpl; [by exists []|].
  destruct (is_space c); [|by exists []]. exists (c :: p). simpl. by f_equal.
Qed.

(** Stripping twice is stripping once: [validate_idempotency_key] is stable. *)
Lemma strip_idemp s : strip (strip s) = strip s.
Proof.
  unfold strip. rewrite to_of_list. f_equal. set (l := drop_space (to_list s)).
  assert (Hl : match l with [] => True | c :: _ => is_space c = false end)
    by apply drop_space_head.
  destruct (drop_space_suffix (rev l)) as [p Hp]. set (m := drop_space (rev l)) in *.
  assert (Hm : drop_space (rev m) = rev m).
  { apply drop_space_id. destruct (rev m) as [|c r] eqn:Er; [done|].
    assert (Hrl : l = rev m ++ rev p) by (by rewrite <-rev_app_distr, <-Hp, rev_involutive).
    rewrite Er in Hrl. by rewrite Hrl in Hl. }
  rewrite Hm, rev_involutive. f_equal. apply drop_space_id. apply drop_space_head.
Qed.

Lemma drop_space_snoc l c : is_space c = false → drop_space (l ++ [c]) = drop_space l ++ [c].
Proof.
  intros Hc. induction l as [|x l IH]; simpl; [by rewrite Hc|]. by destruct (is_space x).
Qed.

(** A string that starts with a visible character is not blank. *)
Lemma strip_visible c s : is_space c = false → truthy_str (strip (String c s)) = true.
Proof.
  intros Hc. unfold strip. simpl. rewrite Hc. change (rev (c :: to_list s)) with
    (rev (to_list s) ++ [c]). rewrite drop_space_snoc, rev_app_distr by done. done.
Qed.

Lemma length_digits b w n : length (digits b w n) = w.
Proof. revert n. induction w; intros n; simpl; [done|]. rewrite length_app, IHw. simpl. lia. Qed.

Lemma digit_char_inj a b : (a < 16 → b < 16 → digit_char a = digit_char b → a = b)%N.
Proof.
  unfold digit_char. intros Ha Hb H. apply (f_equal N_of_ascii) in H.
  destruct (N.ltb_spec a 10), (N.ltb_spec b 10);
    rewrite !N_ascii_embedding in H by lia; lia.
Qed.

Lemma digits_inj b w m n :
  (1 < b ≤ 16 → m < b ^ N.of_nat w → n < b ^ N.of_nat w →
   digits b w m = digits b w n → m = n)%N.
Proof.
  intros Hb. revert m n. induction w as [|w IH]; intros m n Hm Hn H; simpl in *; [lia|].
  apply app_inj_2 in H as [H1 [= H2]]; [|done].
  assert (Hp : (b ^ N.of_nat (S w) = b * b ^ N.of_nat w)%N).
  { rewrite <-N.pow_succ_r'. f_equal. lia. }
  change (N.pos (Pos.of_succ_nat w)) with (N.of_nat (S w)) in *.
  rewrite Hp in Hm, Hn.
  apply IH in H1; [|by apply N.Div0.div_lt_upper_bound..].
  assert (Hb0 : (b ≠ 0)%N) by lia.
  apply digit_char_inj in H2;
    [|pose proof (N.mod_lt m b Hb0); lia|pose proof (N.mod_lt n b Hb0); lia].
  rewrite (N.div_mod' m b), (N.div_mod' n b). congruence.
Qed.

Lemma hyphenate_inj l1 l2 :
  length l1 = 32 → length l2 = 32 → hyphenate l1 = hyphenate l2 → l1 = l2.
Proof.
  intros H1 H2 H.
  do 32 (destruct l1 as [|? l1]; [discriminate|]).
  do 32 (destruct l2 as [|? l2]; [discriminate|]).
  destruct l1; [|discriminate]. destruct l2; [|discriminate].
  unfold hyphenate in H. simpl in H. by simplify_eq.
Qed.

Lemma uuid_str_inj a b : uuid_ok a → uuid_ok b → uuid_str a = uuid_str b → a = b.
Proof.
  unfold uuid_ok, uuid_str. intros Ha Hb H%(inj of_list).
  apply hyphenate_inj in H; [|apply length_digits..].
  apply digits_inj in H; [done|lia|exact Ha|exact Hb].
Qed.

Lemma length_uuid_str u : length (to_list (uuid_str u)) = 36.
Proof.
  unfold uuid_str, hyphenate. rewrite to_of_list.
  rewrite !length_app, !length_take, !length_drop, length_digits. simpl. lia.
Qed.

Example uuid_str_ex :
  uuid_str 0x12345678_9abc_def0_0123_456789abcdef%N = "12345678-9abc-def0-0123-456789abcdef".
Proof. vm_compute. reflexivity. Qed.

Example strip_ex : strip "  a b
 " = "a b".
Proof. reflexivity. Qed.

(** ** Words, for code points below 256 *)

(** [\w]: alphanumeric or an underscore. *)
Definition is_word (c : ascii) : bool :=
  let n := nat_of_ascii c in
  ((48 <=? n) && (n <=? 57) || (65 <=? n) && (n <=? 90) || (97 <=? n) && (n <=? 122) || (n =? 95)
   || (n =? 170) || (n =? 178) || (n =? 179) || (n =? 181) || (n =? 185) || (n =? 186)
   || (188 <=? n) && (n <=? 190) || (192 <=? n) && (n <=? 214) || (216 <=? n) && (n <=? 246)
   || (248 <=? n) && (n <=? 255))%nat.

(** [str.lower] on one code point. *)
Definition lower_char (c : ascii) : ascii :=
  let n := nat_of_ascii c in
  if ((65 <=? n) && (n <=? 90) || (192 <=? n) && (n <=? 222) && negb (n =? 215))%nat
  then ascii_of_nat (n + 32) else c.

Definition lower (s : string) : string := of_list (map lower_char (to_list s)).

(** [re.findall(r"\w+", s)]. *)
Fixpoint words_from (cur : list ascii) (l : list ascii) : list string :=
  match l with
  | [] => match cur with [] => [] | _ => [of_list (rev cur)] end
  | c :: l => if is_word c then words_from (c :: cur) l
              else match cur with [] => words_from [] l | _ => of_list (rev cur) :: words_from [] l end
  end.
Definition words (s : string) : list string := words_from [] (to_list s).

Example words_ex : words (lower "Fix the API_v2, now") = ["fix"; "the"; "api_v2"; "now"].
Proof. reflexivity. Qed.
