(* ===== verification/PyTime.v ===== *)
(** Timestamps: UTC datetimes, their ISO-8601 serialisation
    ([_serialize] of core/jobs/repository.py) and [timedelta] arithmetic.

    A timestamp is the number of microseconds since 0001-01-01T00:00:00Z;
    [to_us] maps calendar fields to it by the proleptic Gregorian rules of the
    standard library. The SQL of the job store compares timestamps as TEXT;
    [iso_compare] (below) justifies comparing the numbers instead. *)

From S2P Require Import Prelude.
From S2P Require Import PyStr.
From Stdlib Require Import Ascii.
Open Scope Z_scope.

Abbreviation time := Z (only parsing).

(** [datetime.max] in microseconds: 9999-12-31T23:59:59.999999. *)
Definition dt_max : Z := 3652059 * 86400000000 - 1.

(** [t + timedelta(...)]: raises outside [datetime.min, datetime.max]. *)
Definition dt_add (t us : Z) : result Z :=
  if (0 <=? t + us) && (t + us <=? dt_max) then Ok (t + us) else Raise OverflowError.

(** Rounding half to even of a fraction with denominator [d > 0]. *)
Definition round_div (n d : Z) : Z :=
  let f := n / d in
  let r := n mod d in
  if 2 * r <? d then f else if d <? 2 * r then f + 1
  else if Z.even f then f else f + 1.

Lemma round_div_mono n1 d1 n2 d2 :
  0 < d1 → 0 < d2 → n1 * d2 <= n2 * d1 → round_div n1 d1 <= round_div n2 d2.
Proof.
  intros Hd1 Hd2 Hn. unfold round_div. cbv zeta.
  pose proof (Z.div_mod n1 d1 ltac:(lia)) as E1. pose proof (Z.mod_pos_bound n1 d1 Hd1) as B1.
  pose proof (Z.div_mod n2 d2 ltac:(lia)) as E2. pose proof (Z.mod_pos_bound n2 d2 Hd2) as B2.
  set (f1 := n1 / d1) in *. set (r1 := n1 mod d1) in *.
  set (f2 := n2 / d2) in *. set (r2 := n2 mod d2) in *.
  clearbody f1 r1 f2 r2.
  assert (Hf : f1 < f2 ∨ f1 = f2 ∧ r1 * d2 <= r2 * d1).
  { destruct (Z.lt_trichotomy f1 f2) as [|[->|Hlt]]; [by left|right; split; [done|nia]|].
    exfalso. assert (d1 * d2 * (f2 + 1) <= d1 * d2 * f1) by (apply Z.mul_le_mono_nonneg_l; nia).
    nia. }
  destruct Hf as [|[<- Hr]]; [repeat case_match; lia|].
  destruct (Z.ltb_spec (2 * r1) d1); [repeat case_match; lia|].
  assert (d2 <= 2 * r2) by nia.
  destruct (Z.ltb_spec (2 * r2) d2); [lia|].
  destruct (Z.ltb_spec d1 (2 * r1)).
  - assert (d2 < 2 * r2) by nia. destruct (Z.ltb_spec d2 (2 * r2)); lia.
  - destruct (Z.ltb_spec d2 (2 * r2)), (Z.even f1); lia.
Qed.

(** [timedelta(seconds=q)]: whole microseconds, round-half-to-even. *)
Definition td_us (q : Q) : Z := round_div (Qnum q * 1000000) (Zpos (Qden q)).

Lemma td_us_mono p q : (p <= q)%Q → td_us p <= td_us q.
Proof. unfold Qle. intros H. apply round_div_mono; lia. Qed.

Lemma td_us_nonneg q : (0 <= q)%Q → 0 <= td_us q.
Proof. intros H. apply (td_us_mono 0 q) in H. exact H. Qed.

Lemma dt_add_ok t us t' : dt_add t us = Ok t' → t' = t + us ∧ 0 <= t' <= dt_max.
Proof. unfold dt_add. intros. case_match; simplify_eq; reflect; lia. Qed.

Lemma dt_add_raise t us e : dt_add t us = Raise e → e = OverflowError.
Proof. unfold dt_add. intros. by case_match; simplify_eq. Qed.

(** ** Calendar fields and [datetime.isoformat] *)

Record datetime := mk_dt {
  dt_year : Z; dt_month : Z; dt_day : Z;
  dt_hour : Z; dt_minute : Z; dt_second : Z; dt_micro : Z }.

Definition is_leap (y : Z) : bool :=
  (y mod 4 =? 0) && (negb (y mod 100 =? 0) || (y mod 400 =? 0)).

Definition days_in_month (y m : Z) : Z :=
  match m with
  | 2 => if is_leap y then 29 else 28
  | 4 | 6 | 9 | 11 => 30
  | _ => 31
  end.

Definition days_before_month (y m : Z) : Z :=
  let l := if is_leap y then 1 else 0 in
  match m with
  | 1 => 0 | 2 => 31 | 3 => 59 + l | 4 => 90 + l | 5 => 120 + l | 6 => 151 + l
  | 7 => 181 + l | 8 => 212 + l | 9 => 243 + l | 10 => 273 + l | 11 => 304 + l
  | _ => 334 + l
  end.

Definition days_before_year (y : Z) : Z :=
  let y' := y - 1 in y' * 365 + y' / 4 - y' / 100 + y' / 400.

Definition dt_valid (d : datetime) : Prop :=
  1 <= dt_year d <= 9999 ∧ 1 <= dt_month d <= 12 ∧
  1 <= dt_day d <= days_in_month (dt_year d) (dt_month d) ∧
  0 <= dt_hour d <= 23 ∧ 0 <= dt_minute d <= 59 ∧ 0 <= dt_second d <= 59 ∧
  0 <= dt_micro d <= 999999.

Definition to_us (d : datetime) : Z :=
  ((((days_before_year (dt_year d) + days_before_month (dt_year d) (dt_month d)
      + (dt_day d - 1)) * 24 + dt_hour d) * 60 + dt_minute d) * 60 + dt_second d)
  * 1000000 + dt_micro d.

(** [d.isoformat()] of an aware UTC datetime: the microseconds are printed
    only when they are not zero. *)
Definition isoformat (d : datetime) : string :=
  let p w z := pad w (Z.to_N z) in
  p 4%nat (dt_year d) +:+ "-" +:+ p 2%nat (dt_month d) +:+ "-" +:+ p 2%nat (dt_day d)
  +:+ "T" +:+ p 2%nat (dt_hour d) +:+ ":" +:+ p 2%nat (dt_minute d) +:+ ":"
  +:+ p 2%nat (dt_second d)
  +:+ (if dt_micro d =? 0 then "" else "." +:+ p 6%nat (dt_micro d)) +:+ "+00:00".

Example isoformat_ex :
  isoformat (mk_dt 2026 1 2 3 4 5 0) = "2026-01-02T03:04:05+00:00"
  ∧ isoformat (mk_dt 2026 1 2 3 4 5 60) = "2026-01-02T03:04:05.000060+00:00".
Proof. by vm_compute. Qed.

Example to_us_max : to_us (mk_dt 9999 12 31 23 59 59 999999) = dt_max.
Proof. reflexivity. Qed.

(** ** Text order of ISO timestamps is time order *)

Definition lex (c d : comparison) : comparison :=
  match c with Eq => d | _ => c end.

Lemma compare_app a b x y :
  String.length a = String.length b →
  String.compare (a +:+ x) (b +:+ y) = lex (String.compare a b) (String.compare x y).
Proof.
  revert b. induction a as [|c a IH]; intros [|c' b] H; try discriminate; [done|].
  change (String c a +:+ x) with (String c (a +:+ x)).
  change (String c' b +:+ y) with (String c' (b +:+ y)). simpl.
  rewrite IH by (simpl in H; lia). by destruct (Ascii.compare c c').
Qed.

Lemma compare_refl s : String.compare s s = Eq.
Proof. pose proof (String.compare_antisym s s). by destruct (String.compare s s). Qed.

Lemma length_of_list l : String.length (of_list l) = length l.
Proof. induction l as [|c l IH]; [done|]. simpl. f_equal. apply IH. Qed.

Lemma length_pad w n : String.length (pad w n) = w.
Proof. unfold pad. by rewrite length_of_list, length_digits. Qed.

Lemma digit_compare a b : (a < 10 → b < 10 →
  String.compare (of_list [digit_char a]) (of_list [digit_char b]) = (a ?= b))%N.
Proof.
  intros Ha Hb.
  transitivity (lex (Ascii.compare (digit_char a) (digit_char b)) Eq).
  { unfold of_list. simpl. by destruct (Ascii.compare (digit_char a) (digit_char b)). }
  unfold Ascii.compare, digit_char.
  destruct (N.ltb_spec a 10), (N.ltb_spec b 10); try lia.
  rewrite !N_ascii_embedding by lia.
  rewrite <-!N2Z.inj_compare, !N2Z.inj_add, Z.add_compare_mono_l;
    by destruct (Z.of_N a ?= Z.of_N b)%Z.
Qed.

(** Comparing [x*K+y] with [x'*K+y'] is lexicographic when the low parts are below [K]. *)
Lemma lex_Z K x y x' y' : 0 <= y < K → 0 <= y' < K →
  (x * K + y ?= x' * K + y') = lex (x ?= x') (y ?= y').
Proof.
  intros Hy Hy'. destruct (Z.compare_spec x x') as [->|Hlt|Hgt]; simpl.
  - apply Z.add_compare_mono_l.
  - apply Z.compare_lt_iff. nia.
  - apply Z.compare_gt_iff. nia.
Qed.

Lemma pad_compare w m n :
  (m < 10 ^ N.of_nat w → n < 10 ^ N.of_nat w →
   String.compare (pad w m) (pad w n) = (m ?= n))%N.
Proof.
  revert m n. induction w as [|w IH]; intros m n Hm Hn; simpl in Hm, Hn.
  { assert (m = 0)%N as -> by lia. assert (n = 0)%N as -> by lia. done. }
  change (N.pos (Pos.of_succ_nat w)) with (N.of_nat (S w)) in *.
  assert (Hp : (10 ^ N.of_nat (S w) = 10 * 10 ^ N.of_nat w)%N).
  { rewrite <-N.pow_succ_r'. f_equal. lia. }
  rewrite Hp in Hm, Hn. unfold pad. simpl. rewrite !of_list_app.
  assert (H10 : (10 ≠ 0)%N) by lia.
  rewrite compare_app by (by rewrite !length_of_list, !length_digits).
  change (of_list (digits 10 w (m / 10))) with (pad w (m / 10)).
  change (of_list (digits 10 w (n / 10))) with (pad w (n / 10)).
  rewrite IH by (by apply N.Div0.div_lt_upper_bound).
  rewrite digit_compare by (by apply N.mod_lt).
  pose proof (N.mod_lt m 10 H10). pose proof (N.mod_lt n 10 H10).
  pose proof (lex_Z 10 (Z.of_N (m / 10)) (Z.of_N (m mod 10))
    (Z.of_N (n / 10)) (Z.of_N (n mod 10)) ltac:(lia) ltac:(lia)) as Hl.
  rewrite !N2Z.inj_compare in Hl. rewrite <-Hl, <-N2Z.inj_compare. f_equal.
  - rewrite (N.div_mod' m 10) at 3. lia.
  - rewrite (N.div_mod' n 10) at 3. lia.
Qed.

Lemma pad_compare_Z w x y : 0 <= x < 10 ^ Z.of_nat w → 0 <= y < 10 ^ Z.of_nat w →
  String.compare (pad w (Z.to_N x)) (pad w (Z.to_N y)) = (x ?= y).
Proof.
  intros Hx Hy.
  assert (E : Z.of_N (10 ^ N.of_nat w) = 10 ^ Z.of_nat w) by (rewrite N2Z.inj_pow; f_equal; lia).
  rewrite pad_compare by lia.
  rewrite <-N2Z.inj_compare, !Z2N.id; [done|lia..].
Qed.

(** The optional microsecond field keeps the order: '+' sorts before '.'. *)
Lemma micro_compare u v : 0 <= u <= 999999 → 0 <= v <= 999999 →
  String.compare
    ((if u =? 0 then "" else "." +:+ pad 6 (Z.to_N u)) +:+ "+00:00")
    ((if v =? 0 then "" else "." +:+ pad 6 (Z.to_N v)) +:+ "+00:00") = (u ?= v).
Proof.
  intros Hu Hv. destruct (Z.eqb_spec u 0) as [->|], (Z.eqb_spec v 0) as [->|].
  - done.
  - transitivity Lt; [done|]. symmetry. apply Z.compare_lt_iff. lia.
  - transitivity Gt; [done|]. symmetry. apply Z.compare_gt_iff. lia.
  - rewrite compare_app by (unfold String.length, String.append; fold String.append;
      fold String.length; by rewrite !length_pad).
    rewrite compare_app, !compare_refl, pad_compare_Z by (done || lia). unfold lex. by destruct (u ?= v).
Qed.

Lemma days_before_month_step y m d m' d' :
  1 <= m <= 12 → 1 <= m' <= 12 → m < m' →
  d <= days_in_month y m → 1 <= d' →
  days_before_month y m + d < days_before_month y m' + d'.
Proof.
  intros Hm Hm' Hlt Hd Hd'.
  assert (Hc : m = 1 ∨ m = 2 ∨ m = 3 ∨ m = 4 ∨ m = 5 ∨ m = 6 ∨ m = 7 ∨ m = 8 ∨ m = 9
    ∨ m = 10 ∨ m = 11) by lia.
  assert (Hc' : m' = 2 ∨ m' = 3 ∨ m' = 4 ∨ m' = 5 ∨ m' = 6 ∨ m' = 7 ∨ m' = 8 ∨ m' = 9
    ∨ m' = 10 ∨ m' = 11 ∨ m' = 12) by lia.
  unfold days_in_month, days_before_month in *. destruct (is_leap y);
    (destruct Hc as [->|[->|[->|[->|[->|[->|[->|[->|[->|[->| ->]]]]]]]]]];
     destruct Hc' as [->|[->|[->|[->|[->|[->|[->|[->|[->|[->| ->]]]]]]]]]]; lia).
Qed.

Lemma days_of_year_bound y m d :
  1 <= m <= 12 → 1 <= d <= days_in_month y m →
  0 <= days_before_month y m + (d - 1) < 365 + (if is_leap y then 1 else 0).
Proof.
  intros Hm Hd.
  assert (Hc : m = 1 ∨ m = 2 ∨ m = 3 ∨ m = 4 ∨ m = 5 ∨ m = 6 ∨ m = 7 ∨ m = 8 ∨ m = 9
    ∨ m = 10 ∨ m = 11 ∨ m = 12) by lia.
  unfold days_in_month, days_before_month in *. destruct (is_leap y);
    (destruct Hc as [->|[->|[->|[->|[->|[->|[->|[->|[->|[->|[->| ->]]]]]]]]]]]; lia).
Qed.

Lemma days_before_year_step y y' : 1 <= y → y < y' →
  days_before_year y + 365 + (if is_leap y then 1 else 0) <= days_before_year y'.
Proof.
  intros Hy Hlt. unfold days_before_year, is_leap.
  assert (Hmono : ∀ k, 0 < k → y / k <= (y' - 1) / k) by (intros; apply Z.div_le_mono; lia).
  assert (H1 : y * 365 + y / 4 - y / 100 + y / 400
               <= (y' - 1) * 365 + (y' - 1) / 4 - (y' - 1) / 100 + (y' - 1) / 400).
  { Z.div_mod_to_equations. lia. }
  enough ((y - 1) * 365 + (y - 1) / 4 - (y - 1) / 100 + (y - 1) / 400 + 365
    + (if (y mod 4 =? 0) && (negb (y mod 100 =? 0) || (y mod 400 =? 0)) then 1 else 0)
    <= y * 365 + y / 4 - y / 100 + y / 400) by lia.
  clear. destruct (Z.eqb_spec (y mod 4) 0), (Z.eqb_spec (y mod 100) 0),
    (Z.eqb_spec (y mod 400) 0); simpl; Z.div_mod_to_equations; lia.
Qed.

Definition ordinal (d : datetime) : Z :=
  days_before_year (dt_year d) + days_before_month (dt_year d) (dt_month d) + (dt_day d - 1).

Lemma ordinal_compare a b : dt_valid a → dt_valid b →
  (ordinal a ?= ordinal b)
  = lex (dt_year a ?= dt_year b) (lex (dt_month a ?= dt_month b) (dt_day a ?= dt_day b)).
Proof.
  destruct a as [y m d ? ? ? ?], b as [y' m' d' ? ? ? ?]. unfold dt_valid, ordinal. simpl.
  intros (Hy & Hm & Hd & _) (Hy' & Hm' & Hd' & _).
  pose proof (days_of_year_bound y m d Hm Hd).
  pose proof (days_of_year_bound y' m' d' Hm' Hd').
  destruct (Z.compare_spec y y') as [<-|Hlt|Hgt]; simpl.
  - destruct (Z.compare_spec m m') as [<-|Hlt|Hgt]; simpl.
    + rewrite Z.add_compare_mono_l. unfold Z.sub. by rewrite !(Z.add_comm _ (- (1))), Z.add_compare_mono_l.
    + apply Z.compare_lt_iff.
      pose proof (days_before_month_step y m d m' d' Hm Hm' Hlt). lia.
    + apply Z.compare_gt_iff.
      pose proof (days_before_month_step y m' d' m d Hm' Hm Hgt). lia.
  - apply Z.compare_lt_iff. pose proof (days_before_year_step y y' ltac:(lia) Hlt).
    destruct (is_leap y); lia.
  - apply Z.compare_gt_iff. pose proof (days_before_year_step y' y ltac:(lia) Hgt).
    destruct (is_leap y'); lia.
Qed.

Lemma lex_assoc a b c : lex (lex a b) c = lex a (lex b c).
Proof. by destruct a. Qed.

Lemma to_us_compare a b : dt_valid a → dt_valid b →
  (to_us a ?= to_us b)
  = lex (dt_year a ?= dt_year b) (lex (dt_month a ?= dt_month b) (lex (dt_day a ?= dt_day b)
    (lex (dt_hour a ?= dt_hour b) (lex (dt_minute a ?= dt_minute b)
    (lex (dt_second a ?= dt_second b) (dt_micro a ?= dt_micro b)))))).
Proof.
  intros Ha Hb. pose proof (ordinal_compare a b Ha Hb) as Ho.
  destruct Ha as (_ & _ & _ & Hh & Hm & Hs & Hu), Hb as (_ & _ & _ & Hh' & Hm' & Hs' & Hu').
  unfold to_us. fold (ordinal a) (ordinal b).
  rewrite !lex_Z by lia. rewrite Ho, !lex_assoc. done.
Qed.

Lemma iso_compare a b : dt_valid a → dt_valid b →
  String.compare (isoformat a) (isoformat b) = (to_us a ?= to_us b).
Proof.
  intros Ha Hb. rewrite to_us_compare by done.
  assert (Hda : dt_day a <= 31) by
    (destruct Ha as (_ & _ & [_ H] & _); revert H; unfold days_in_month; repeat case_match; lia).
  assert (Hdb : dt_day b <= 31) by
    (destruct Hb as (_ & _ & [_ H] & _); revert H; unfold days_in_month; repeat case_match; lia).
  destruct Ha as (? & ? & ? & ? & ? & ? & ?), Hb as (? & ? & ? & ? & ? & ? & ?).
  unfold isoformat. cbv zeta.
  repeat first [ rewrite compare_app by (by rewrite ?length_pad)
               | rewrite compare_refl | rewrite pad_compare_Z by lia ].
  rewrite micro_compare by done. reflexivity.
Qed.

(** ** From a count of microseconds to calendar fields *)

(** [datetime.fromordinal], for [n] days after 0001-01-01. *)
Definition ymd (n : Z) : Z * Z * Z :=
  let n400 := n / 146097 in let n := n mod 146097 in
  let n100 := n / 36524 in let n := n mod 36524 in
  let n4 := n / 1461 in let n := n mod 1461 in
  let n1 := n / 365 in let n := n mod 365 in
  let year := n400 * 400 + 1 + n100 * 100 + n4 * 4 + n1 in
  if (n1 =? 4) || (n100 =? 4) then (year - 1, 12, 31)
  else
    let month := (n + 50) / 32 in
    let month := if n <? days_before_month year month then month - 1 else month in
    (year, month, n - days_before_month year month + 1).

(** The datetime [t] microseconds after the start of year 1. *)
Definition of_us (t : Z) : datetime :=
  let '(y, m, d) := ymd (t / 86400000000) in
  let r := t mod 86400000000 in
  mk_dt y m d (r / 3600000000) (r / 60000000 mod 60) (r / 1000000 mod 60) (r mod 1000000).

(** [t.isoformat()], the text every timestamp is stored as. *)
Definition iso (t : Z) : string := isoformat (of_us t).

(** A check of every integer in [lo, lo + 2^k). *)
Fixpoint check_range (f : Z → bool) (k : nat) (lo : Z) : bool :=
  match k with
  | O => f lo
  | S k => check_range f k lo && check_range f k (lo + 2 ^ Z.of_nat k)
  end.

Lemma check_range_ok f k : ∀ lo n, check_range f k lo = true → lo <= n < lo + 2 ^ Z.of_nat k →
  f n = true.
Proof.
  induction k as [|k IH]; intros lo n H Hn.
  - assert (n = lo) as -> by (change (2 ^ Z.of_nat 0) with 1 in Hn; lia). exact H.
  - cbn [check_range] in H. apply andb_true_iff in H as [H1 H2].
    rewrite Nat2Z.inj_succ, Z.pow_succ_r in Hn by lia.
    destruct (Z.lt_ge_cases n (lo + 2 ^ Z.of_nat k)); [apply (IH lo)|apply (IH (lo + 2 ^ Z.of_nat k))];
      lia || done.
Qed.

(** The month table, for every day index of a year but a leap year's last. *)
Definition month_good (leap : bool) (n : Z) : bool :=
  let y := if leap then 4 else 1 in
  (365 <=? n) ||
  let month := (n + 50) / 32 in
  let month := if n <? days_before_month y month then month - 1 else month in
  (1 <=? month) && (month <=? 12) && (days_before_month y month <=? n)
  && (n - days_before_month y month + 1 <=? days_in_month y month).

Lemma month_good_all leap n : 0 <= n < 365 → month_good leap n = true.
Proof.
  intros Hn. apply (check_range_ok (month_good leap) 9 0).
  - destruct leap; vm_compute; reflexivity.
  - change (2 ^ Z.of_nat 9) with 512. lia.
Qed.

Lemma month_of_day y n : 0 <= n < 365 →
  let month := (n + 50) / 32 in
  let month := if n <? days_before_month y month then month - 1 else month in
  1 <= month <= 12 ∧ 1 <= n - days_before_month y month + 1 <= days_in_month y month.
Proof.
  intros Hn. pose proof (month_good_all (is_leap y) n Hn) as H. unfold month_good in H.
  assert (E1 : ∀ m, days_before_month (if is_leap y then 4 else 1) m = days_before_month y m)
    by (intros m; unfold days_before_month; by destruct (is_leap y)).
  assert (E2 : ∀ m, days_in_month (if is_leap y then 4 else 1) m = days_in_month y m)
    by (intros m; unfold days_in_month; by destruct (is_leap y)).
  rewrite !E1, E2 in H. cbv zeta in *. lia.
Qed.

(** Years in their 400-, 100- and 4-year cycles. *)
Lemma days_before_year_cycles a b c d : 0 <= a → 0 <= b <= 3 → 0 <= c <= 24 → 0 <= d <= 3 →
  days_before_year (a * 400 + 1 + b * 100 + c * 4 + d) = a * 146097 + b * 36524 + c * 1461 + d * 365.
Proof.
  intros. unfold days_before_year. cbv zeta.
  replace (a * 400 + 1 + b * 100 + c * 4 + d - 1) with (a * 400 + b * 100 + c * 4 + d) by lia.
  rewrite <-(Z.div_unique (a * 400 + b * 100 + c * 4 + d) 4 (a * 100 + b * 25 + c) d) by lia.
  rewrite <-(Z.div_unique (a * 400 + b * 100 + c * 4 + d) 100 (a * 4 + b) (c * 4 + d)) by lia.
  rewrite <-(Z.div_unique (a * 400 + b * 100 + c * 4 + d) 400 a (b * 100 + c * 4 + d)) by lia.
  lia.
Qed.

Lemma is_leap_cycles a b c d : 0 <= b <= 3 → 0 <= c <= 24 → 0 <= d <= 3 →
  (d = 3 ∧ c ≠ 24 ∨ d = 3 ∧ b = 3) → is_leap (a * 400 + 1 + b * 100 + c * 4 + d) = true.
Proof.
  intros Hb Hc Hd Hl. unfold is_leap.
  assert (d = 3) as -> by lia.
  assert (E4 : (a * 400 + 1 + b * 100 + c * 4 + 3) mod 4 = 0)
    by (symmetry; apply Z.mod_unique with (q := a * 100 + b * 25 + c + 1); lia).
  rewrite E4. simpl. apply orb_true_iff. rewrite negb_true_iff, Z.eqb_neq, Z.eqb_eq.
  destruct (Z.eq_dec c 24) as [->|]; [right|left].
  - assert (b = 3) as -> by lia. symmetry. apply Z.mod_unique with (q := a + 1); lia.
  - assert (E : (a * 400 + 1 + b * 100 + c * 4 + 3) mod 100 = c * 4 + 4)
      by (symmetry; apply Z.mod_unique with (q := a * 4 + b); lia).
    rewrite E. lia.
Qed.

Lemma ymd_ok n : 0 <= n → let '(y, m, d) := ymd n in
  days_before_year y + days_before_month y m + (d - 1) = n
  ∧ 1 <= y ∧ 1 <= m <= 12 ∧ 1 <= d <= days_in_month y m.
Proof.
  intros Hn. unfold ymd. cbv zeta.
  pose proof (Z.div_mod n 146097 ltac:(lia)) as E1.
  pose proof (Z.mod_pos_bound n 146097 ltac:(lia)) as B1.
  set (a := n / 146097) in *. set (n1 := n mod 146097) in *.
  assert (Ha : 0 <= a) by (by apply Z.div_pos).
  pose proof (Z.div_mod n1 36524 ltac:(lia)) as E2.
  pose proof (Z.mod_pos_bound n1 36524 ltac:(lia)) as B2.
  set (b := n1 / 36524) in *. set (n2 := n1 mod 36524) in *.
  pose proof (Z.div_mod n2 1461 ltac:(lia)) as E3.
  pose proof (Z.mod_pos_bound n2 1461 ltac:(lia)) as B3.
  set (c := n2 / 1461) in *. set (n3 := n2 mod 1461) in *.
  pose proof (Z.div_mod n3 365 ltac:(lia)) as E4.
  pose proof (Z.mod_pos_bound n3 365 ltac:(lia)) as B4.
  set (d := n3 / 365) in *. set (n4 := n3 mod 365) in *.
  assert (0 <= b <= 4 ∧ 0 <= c <= 24 ∧ 0 <= d <= 4) as (Hb & Hc & Hd) by lia.
  clearbody a b c d n1 n2 n3 n4.
  destruct ((d =? 4) || (b =? 4)) eqn:Es.
  - (* the last day of a leap year *)
    assert (Hcase : (b = 4 ∧ c = 0 ∧ d = 0 ∧ n4 = 0) ∨ (b <= 3 ∧ d = 4 ∧ c <= 23 ∧ n4 = 0)) by lia.
    assert (∃ b' c', 0 <= b' <= 3 ∧ 0 <= c' <= 24 ∧ (c' ≠ 24 ∨ b' = 3)
      ∧ a * 400 + 1 + b * 100 + c * 4 + d - 1 = a * 400 + 1 + b' * 100 + c' * 4 + 3
      ∧ n = a * 146097 + b' * 36524 + c' * 1461 + 3 * 365 + 365)
      as (b' & c' & Hb' & Hc' & Hl & -> & En).
    { destruct Hcase as [(-> & -> & -> & ->)|(? & -> & ? & ->)];
        [exists 3, 24|exists b, c]; lia. }
    rewrite days_before_year_cycles by lia.
    assert (Hleap : is_leap (a * 400 + 1 + b' * 100 + c' * 4 + 3) = true)
      by (apply is_leap_cycles; lia).
    unfold days_before_month. rewrite Hleap. unfold days_in_month. lia.
  - assert (b <= 3 ∧ d <= 3) by lia.
    pose proof (month_of_day (a * 400 + 1 + b * 100 + c * 4 + d) n4 ltac:(lia)) as [Hm Hday].
    cbv zeta in Hm, Hday. rewrite days_before_year_cycles by lia. lia.
Qed.

(** Hours, minutes and seconds of a day. *)
Lemma clock_fields r : 0 <= r < 86400000000 →
  ((r / 3600000000 * 60 + r / 60000000 mod 60) * 60 + r / 1000000 mod 60) * 1000000
    + r mod 1000000 = r
  ∧ 0 <= r / 3600000000 <= 23 ∧ 0 <= r / 60000000 mod 60 <= 59
  ∧ 0 <= r / 1000000 mod 60 <= 59 ∧ 0 <= r mod 1000000 <= 999999.
Proof.
  intros Hr. replace (r / 60000000) with (r / 1000000 / 60) by (rewrite Z.div_div by lia; done).
  replace (r / 3600000000) with (r / 1000000 / 60 / 60)
    by (rewrite !Z.div_div by lia; done).
  assert (0 <= r / 1000000 < 86400) by (split; [apply Z.div_pos|apply Z.div_lt_upper_bound]; lia).
  pose proof (Z.div_mod r 1000000 ltac:(lia)). pose proof (Z.mod_pos_bound r 1000000 ltac:(lia)).
  set (s := r / 1000000) in *. set (u := r mod 1000000) in *. clearbody s u. lia.
Qed.

Lemma year_bound y m d : 1 <= y → 1 <= m <= 12 → 1 <= d →
  days_before_year y + days_before_month y m + (d - 1) < 3652059 → y <= 9999.
Proof.
  intros Hy Hm Hd H. destruct (Z.le_gt_cases y 9999) as [|Hbig]; [done|exfalso].
  assert (Hmono : 3652059 <= days_before_year y) by (unfold days_before_year; lia).
  assert (0 <= days_before_month y m) by (unfold days_before_month; repeat case_match; lia).
  lia.
Qed.

Definition at_clock (y m d r : Z) : datetime :=
  mk_dt y m d (r / 3600000000) (r / 60000000 mod 60) (r / 1000000 mod 60) (r mod 1000000).

Lemma of_us_eq t y m d : ymd (t / 86400000000) = (y, m, d) →
  of_us t = at_clock y m d (t mod 86400000000).
Proof. unfold of_us. intros ->. reflexivity. Qed.

Lemma at_clock_ok y m d r : 0 <= r < 86400000000 → 1 <= y <= 9999 → 1 <= m <= 12 →
  1 <= d <= days_in_month y m → dt_valid (at_clock y m d r) ∧
  to_us (at_clock y m d r)
    = (days_before_year y + days_before_month y m + (d - 1)) * 86400000000 + r.
Proof.
  intros Hr Hy Hm Hd. pose proof (clock_fields r Hr) as (E & Hh & Hmi & Hs & Hu).
  unfold at_clock, dt_valid, to_us.
  cbn [dt_year dt_month dt_day dt_hour dt_minute dt_second dt_micro]. split; [done|].
  set (o := days_before_year y + days_before_month y m + (d - 1)).
  set (h := r / 3600000000) in *. set (mi := r / 60000000 mod 60) in *.
  set (se := r / 1000000 mod 60) in *. set (u := r mod 1000000) in *. clearbody o h mi se u. lia.
Qed.

(** [of_us] inverts [to_us] over the whole range of datetime. *)
Lemma dt_max_eq : dt_max = 315537897599999999.
Proof. reflexivity. Qed.

Lemma to_of_us t : 0 <= t <= dt_max → dt_valid (of_us t) ∧ to_us (of_us t) = t.
Proof.
  rewrite dt_max_eq. intros Ht.
  assert (Hn : 0 <= t / 86400000000 < 3652059)
    by (split; [apply Z.div_pos; lia|apply Z.div_lt_upper_bound; lia]).
  pose proof (ymd_ok (t / 86400000000) (proj1 Hn)) as Hymd.
  destruct (ymd (t / 86400000000)) as [[y m] d] eqn:E. rewrite (of_us_eq _ _ _ _ E).
  destruct Hymd as (Hord & Hy & Hm & Hd).
  pose proof (year_bound y m d Hy Hm (proj1 Hd) ltac:(rewrite Hord; apply Hn)).
  destruct (at_clock_ok y m d (t mod 86400000000)) as [Hv Hto]; try done.
  { apply Z.mod_pos_bound. lia. }
  split; [exact Hv|]. rewrite Hto, Hord. symmetry. rewrite Z.mul_comm. apply Z.div_mod. lia.
Qed.

(** Comparing stored timestamps as text is comparing them as times. The
    store keeps every timestamp as its ISO text and filters and orders with SQL's
    [<=] on that column; over datetime's whole range this is the order of the
    instants, although the text omits the microseconds when they are zero. *)
Theorem timestamps_sort_as_text t u : 0 <= t <= dt_max → 0 <= u <= dt_max →
  str_leb (iso t) (iso u) = (t <=? u).
Proof.
  intros [Vt Et]%to_of_us [Vu Eu]%to_of_us. unfold str_leb, String.leb, iso.
  rewrite iso_compare by done. rewrite Et, Eu. done.
Qed.

Lemma timestamps_sort_as_text_witness : str_leb (iso 63900000000000000) (iso 63900000000000001) = true.
Proof.
  rewrite (timestamps_sort_as_text 63900000000000000 63900000000000001);
    [reflexivity|rewrite dt_max_eq; lia..].
Defined.
