(* ===== verification/Binary64.v ===== *)
(** Python's floats: binary64 arithmetic, rounded to nearest with ties to even.

    A finite float is the rational it stands for. An operation is the exact operation on
    rationals followed by [fl], which keeps 53 significant bits, and fewer below the least
    normal number. Infinities and NaN are left out: nothing that uses this file comes near
    the greatest float. The laws the clients need are that rounding is monotone, keeps
    signs, and keeps every integer below 2^53. *)

From S2P Require Import Prelude.
From S2P Require Import PyTime.
From Stdlib Require Import QArith Qabs Qround Qpower Lqa.
Close Scope Q_scope.
Open Scope Z_scope.

Definition pow2 (e : Z) : Q := Qpower 2 e.

(** The greatest [k] with [2 ^ k <= q]. *)
Definition flog2 (q : Q) : Z :=
  let k := Z.log2 (Qnum q) - Z.log2 (Zpos (Qden q)) in
  if Qle_bool (pow2 k) q then k else k - 1.

(** The exponent of the last bit kept of a positive number. *)
Definition last_bit (q : Q) : Z := Z.max (-1074) (flog2 q - 52).

(** The nearest integer, the even one of two. *)
Definition near (q : Q) : Z := round_div (Qnum q) (Zpos (Qden q)).

Definition fl_pos (q : Q) : Q := Qred (inject_Z (near (q / pow2 (last_bit q))) * pow2 (last_bit q)).

Definition fl (q : Q) : Q :=
  match Qnum q with
  | Z0 => 0%Q
  | Zpos _ => fl_pos q
  | Zneg _ => (- fl_pos (- q))%Q
  end.

Definition fadd (x y : Q) : Q := fl (x + y).
Definition fsub (x y : Q) : Q := fl (x - y).
Definition fmul (x y : Q) : Q := fl (x * y).
Definition fdiv (x y : Q) : Q := fl (x / y).

(** [sum(l)], from the left, and [sum(l) / len(l)]. *)
Definition fsum (l : list Q) : Q := foldl fadd 0%Q l.
Definition fmean (l : list Q) : Q := fdiv (fsum l) (inject_Z (Z.of_nat (length l))).

(** Integers below this bound are floats. *)
Definition exact_bound : Z := 2 ^ 53.

(** ** Powers of two *)

Lemma pow2_pos e : (0 < pow2 e)%Q.
Proof. by apply Qpower_0_lt. Qed.

Lemma pow2_add a b : (pow2 (a + b) == pow2 a * pow2 b)%Q.
Proof. by apply Qpower_plus. Qed.

Lemma pow2_int a : 0 <= a → (pow2 a == inject_Z (2 ^ a))%Q.
Proof. intros. unfold pow2. by rewrite Zpower_Qpower. Qed.

Lemma pow2_le a b : a <= b → (pow2 a <= pow2 b)%Q.
Proof. intros. by apply Qpower_le_compat_l. Qed.

Lemma pow2_lt_inv a b : (pow2 a < pow2 b)%Q → a < b.
Proof. intros H. destruct (Z.lt_ge_cases a b) as [|Hle%pow2_le]; [done|]. by apply Qle_not_lt in Hle. Qed.

Lemma pow2_split q e : (q / pow2 e * pow2 e == q)%Q.
Proof. field. pose proof (pow2_pos e). lra. Qed.

Lemma log2_bounds n : 0 < n → (pow2 (Z.log2 n) <= inject_Z n < pow2 (Z.log2 n + 1))%Q.
Proof.
  intros Hn. pose proof (Z.log2_nonneg n). pose proof (Z.log2_spec n Hn) as [].
  rewrite !pow2_int, <-Zle_Qle, <-Zlt_Qlt by lia. by rewrite Z.add_1_r.
Qed.

Lemma flog2_spec q : (0 < q)%Q → (pow2 (flog2 q) <= q < pow2 (flog2 q + 1))%Q.
Proof.
  intros Hq. assert (0 < Qnum q) as Hn by (unfold Qlt in Hq; simpl in Hq; lia).
  pose proof (log2_bounds _ Hn) as [N1 N2]. pose proof (log2_bounds (Zpos (Qden q)) ltac:(lia)) as [D1 D2].
  assert (q * inject_Z (Zpos (Qden q)) == inject_Z (Qnum q))%Q as Hqd.
  { destruct q as [n d]. unfold Qeq. simpl. lia. }
  unfold flog2. set (a := Z.log2 _) in *. set (b := Z.log2 (Zpos _)) in *.
  pose proof (pow2_pos (a - b)). pose proof (pow2_pos b). pose proof (pow2_add (a - b) b) as E1.
  replace (a - b + b) with a in E1 by lia. pose proof (pow2_add (a - b - 1) 1) as E2.
  replace (a - b - 1 + 1) with (a - b) in E2 by lia. pose proof (pow2_add (a - b) 1) as E3.
  pose proof (pow2_add a 1) as E4. pose proof (pow2_add b 1) as E5. change (pow2 1) with 2%Q in *.
  rewrite E4 in N2. rewrite E5 in D2. rewrite E1 in N1, N2.
  destruct (Qle_bool (pow2 (a - b)) q) eqn:E; [apply Qle_bool_iff in E|].
  - split; [done|]. rewrite E3. set (d := inject_Z (Zpos _)) in *. nra.
  - assert (q < pow2 (a - b))%Q by (apply Qnot_le_lt; intros Hle%Qle_bool_iff; congruence).
    replace (a - b - 1 + 1) with (a - b) by lia. split; [|done]. set (d := inject_Z (Zpos _)) in *. nra.
Qed.

Lemma flog2_mono p q : (0 < p)%Q → (p <= q)%Q → flog2 p <= flog2 q.
Proof.
  intros Hp Hpq. pose proof (flog2_spec p Hp) as [H1 _]. pose proof (flog2_spec q ltac:(lra)) as [_ H2].
  assert (flog2 p < flog2 q + 1); [apply pow2_lt_inv; lra|lia].
Qed.

(** ** Rounding *)

Lemma near_mono p q : (p <= q)%Q → near p <= near q.
Proof. unfold Qle, near. intros. apply round_div_mono; lia. Qed.

Lemma near_int z : near (inject_Z z) = z.
Proof. unfold near, round_div. simpl. rewrite Z.div_1_r, Z.mod_1_r. done. Qed.

Lemma near_ge z q : (inject_Z z <= q)%Q → z <= near q.
Proof. intros H%near_mono. by rewrite near_int in H. Qed.

Lemma near_le z q : (q <= inject_Z z)%Q → near q <= z.
Proof. intros H%near_mono. by rewrite near_int in H. Qed.

Lemma fl_pos_eq q : (fl_pos q == inject_Z (near (q / pow2 (last_bit q))) * pow2 (last_bit q))%Q.
Proof. apply Qred_correct. Qed.

(** What lies above (below) an integer multiple of the last bit is rounded to no less (no more). *)
Lemma fl_pos_ge z q : (inject_Z z * pow2 (last_bit q) <= q)%Q → (inject_Z z * pow2 (last_bit q) <= fl_pos q)%Q.
Proof.
  intros H. rewrite fl_pos_eq. pose proof (pow2_pos (last_bit q)). apply Qmult_le_compat_r; [|lra].
  rewrite <-Zle_Qle. apply near_ge. by apply Qle_shift_div_l.
Qed.

Lemma fl_pos_le z q : (q <= inject_Z z * pow2 (last_bit q))%Q → (fl_pos q <= inject_Z z * pow2 (last_bit q))%Q.
Proof.
  intros H. rewrite fl_pos_eq. pose proof (pow2_pos (last_bit q)). apply Qmult_le_compat_r; [|lra].
  rewrite <-Zle_Qle. apply near_le. by apply Qle_shift_div_r.
Qed.

Lemma pow2_shift k e : 0 <= k → (inject_Z (2 ^ k) * pow2 e == pow2 (e + k))%Q.
Proof. intros. rewrite <-pow2_int, Z.add_comm by done. symmetry. apply pow2_add. Qed.

Lemma fl_pos_mono p q : (0 < p)%Q → (p <= q)%Q → (fl_pos p <= fl_pos q)%Q.
Proof.
  intros Hp Hpq. pose proof (flog2_mono p q Hp Hpq) as Hk.
  destruct (Z.eq_dec (last_bit p) (last_bit q)) as [E|E].
  - rewrite !fl_pos_eq, E. pose proof (pow2_pos (last_bit q)). apply Qmult_le_compat_r; [|lra].
    rewrite <-Zle_Qle. apply near_mono. apply Qmult_le_compat_r; [done|]. apply Qlt_le_weak, Qinv_lt_0_compat, pow2_pos.
  - pose proof (flog2_spec p Hp) as [_ H1]. pose proof (flog2_spec q ltac:(lra)) as [H2 _]. unfold last_bit in E.
    assert (pow2 (flog2 p + 1) <= pow2 (last_bit p + 53))%Q by (apply pow2_le; unfold last_bit; lia).
    assert (pow2 (last_bit p + 53) <= pow2 (last_bit q + 52))%Q by (apply pow2_le; unfold last_bit; lia).
    assert (pow2 (last_bit q + 52) <= pow2 (flog2 q))%Q by (apply pow2_le; unfold last_bit; lia).
    pose proof (pow2_shift 53 (last_bit p) ltac:(lia)) as S1. pose proof (pow2_shift 52 (last_bit q) ltac:(lia)) as S2.
    pose proof (fl_pos_le (2 ^ 53) p ltac:(lra)). pose proof (fl_pos_ge (2 ^ 52) q ltac:(lra)). lra.
Qed.

Lemma fl_pos_int z : 0 < z < exact_bound → (fl_pos (inject_Z z) == inject_Z z)%Q.
Proof.
  intros [Hz Hb]. set (q := inject_Z z). assert (0 < q)%Q as Hq by (unfold q, Qlt; simpl; lia).
  assert (last_bit q <= 0) as He.
  { pose proof (flog2_spec q Hq) as [H _]. assert (q < pow2 53)%Q as H' by (rewrite (pow2_int 53) by lia; unfold q; by rewrite <-Zlt_Qlt).
    assert (flog2 q < 53) by (apply pow2_lt_inv; lra). unfold last_bit. lia. }
  set (m := z * 2 ^ (- last_bit q)).
  assert (inject_Z m * pow2 (last_bit q) == q)%Q as Hm.
  { unfold m. rewrite inject_Z_mult, <-Qmult_assoc, pow2_shift by lia. replace (last_bit q + - last_bit q) with 0 by lia.
    change (pow2 0) with 1%Q. apply Qmult_1_r. }
  pose proof (fl_pos_le m q ltac:(lra)). pose proof (fl_pos_ge m q ltac:(lra)). lra.
Qed.

Lemma fl_pos_nonneg q : (0 < q)%Q → (0 <= fl_pos q)%Q.
Proof. intros. pose proof (fl_pos_ge 0 q) as H1. change (inject_Z 0) with 0%Q in H1. lra. Qed.

Lemma fl_of_pos q : (0 < q)%Q → fl q = fl_pos q.
Proof. unfold fl, Qlt. simpl. intros. destruct (Qnum q); [lia|done|lia]. Qed.

Lemma fl_of_zero q : (q == 0)%Q → fl q = 0%Q.
Proof. unfold fl, Qeq. simpl. intros. destruct (Qnum q); [done|lia|lia]. Qed.

Lemma fl_opp q : (fl (- q) == - fl q)%Q.
Proof. destruct q as [[|n|n] d]; unfold fl; simpl; [done|done|]. by rewrite Qopp_involutive. Qed.

Lemma fl_nonneg q : (0 <= q)%Q → (0 <= fl q)%Q.
Proof.
  intros [Hq|Hq]%Qle_lt_or_eq; [rewrite fl_of_pos by done; by apply fl_pos_nonneg|].
  rewrite fl_of_zero by by symmetry. lra.
Qed.

Lemma fl_mono_nonneg p q : (0 <= p)%Q → (p <= q)%Q → (fl p <= fl q)%Q.
Proof.
  intros [Hp|Hp]%Qle_lt_or_eq Hpq.
  - rewrite !fl_of_pos by lra. by apply fl_pos_mono.
  - rewrite (fl_of_zero p) by by symmetry. apply fl_nonneg. lra.
Qed.

(** Rounding is monotone. *)
Lemma fl_mono p q : (p <= q)%Q → (fl p <= fl q)%Q.
Proof.
  intros H. destruct (Qlt_le_dec p 0) as [Hp|Hp]; [|by apply fl_mono_nonneg].
  pose proof (fl_opp p). pose proof (fl_nonneg (- p) ltac:(lra)). destruct (Qlt_le_dec q 0) as [Hq|Hq].
  - pose proof (fl_opp q). pose proof (fl_mono_nonneg (- q) (- p) ltac:(lra) ltac:(lra)). lra.
  - pose proof (fl_nonneg q Hq). lra.
Qed.

Lemma fl_int z : 0 <= z < exact_bound → (fl (inject_Z z) == inject_Z z)%Q.
Proof.
  intros [Hz Hb]. destruct (Z.eq_dec z 0) as [->|]; [done|]. rewrite fl_of_pos by (unfold Qlt; simpl; lia).
  apply fl_pos_int. lia.
Qed.

(** What lies between zero and such an integer stays there. *)
Lemma fl_range z q : 0 <= z < exact_bound → (0 <= q <= inject_Z z)%Q → (0 <= fl q <= inject_Z z)%Q.
Proof. intros Hz [H1 H2]. split; [by apply fl_nonneg|]. rewrite <-(fl_int z Hz). by apply fl_mono. Qed.

Lemma fl_unit q : (0 <= q <= 1)%Q → (0 <= fl q <= 1)%Q.
Proof. apply (fl_range 1). done. Qed.

Lemma fl_abs_unit q : (-1 <= q <= 1)%Q → (0 <= Qabs (fl q) <= 1)%Q.
Proof.
  intros [H1 H2]. split; [apply Qabs_nonneg|]. apply Qabs_Qle_condition. pose proof (fl_opp q).
  destruct (Qlt_le_dec q 0).
  - pose proof (fl_unit (- q) ltac:(lra)) as []. lra.
  - pose proof (fl_unit q ltac:(lra)) as []. lra.
Qed.

(** ** Sums *)

Lemma fsum_snoc l x : fsum (l ++ [x]) = fadd (fsum l) x.
Proof. unfold fsum. by rewrite foldl_app. Qed.

Lemma fsum_unit l : Z.of_nat (length l) < exact_bound → Forall (λ x, (0 <= x <= 1)%Q) l →
  (0 <= fsum l <= inject_Z (Z.of_nat (length l)))%Q.
Proof.
  induction l as [|x l IH] using rev_ind; intros Hn H; [by split|]. rewrite length_app in *. simpl in *.
  apply Forall_app in H as [Hl [Hx _]%Forall_cons_1]. destruct IH as [H1 H2]; [lia|done|].
  rewrite fsum_snoc. apply fl_range; [lia|]. rewrite Nat2Z.inj_add, inject_Z_plus. change (inject_Z (Z.of_nat 1)) with 1%Q. lra.
Qed.

Lemma fdiv_unit x n : 0 < n → (0 <= x <= inject_Z n)%Q → (0 <= fdiv x (inject_Z n) <= 1)%Q.
Proof.
  intros Hn [H1 H2]. assert (0 < inject_Z n)%Q by (unfold Qlt; simpl; lia). apply fl_unit.
  split; [apply Qle_shift_div_l|apply Qle_shift_div_r]; try done; lra.
Qed.

Lemma fmean_unit l : l ≠ [] → Z.of_nat (length l) < exact_bound → Forall (λ x, (0 <= x <= 1)%Q) l → (0 <= fmean l <= 1)%Q.
Proof. intros. apply fdiv_unit; [destruct l; [done|simpl; lia]|]. by apply fsum_unit. Qed.

(** ** Examples *)

(** [0.1 + 0.2 == 0.30000000000000004], and three times [0.7] has the mean [0.6999999999999998]. *)
Example one_tenth_and_two : fadd (fl (1 # 10)) (fl (2 # 10)) = fl (30000000000000004 # 100000000000000000).
Proof. vm_compute. reflexivity. Qed.
Example mean_of_three : fmean [fl (7 # 10); fl (7 # 10); fl (7 # 10)] = fl (6999999999999998 # 10000000000000000).
Proof. vm_compute. reflexivity. Qed.
