(* ===== verification/Json.v ===== *)
(** JSON values: Python's [dict]/[list]/[str]/[int]/[float]/[bool]/[None] trees.

    A [dict] is an association list in insertion order with distinct keys
    ([json_wf]); a float is the exact rational it denotes, in lowest terms
    (NaN and the infinities are not represented). *)

From S2P Require Import Prelude.
From S2P Require Import PyStr.
From Stdlib Require Import Ascii.

Inductive json :=
  | JNull
  | JBool (b : bool)
  | JInt (z : Z)
  | JFloat (q : Q)
  | JStr (s : string)
  | JArr (l : list json)
  | JObj (kvs : list (string * json)).

Abbreviation jdict := (list (string * json)) (only parsing).

Section json_ind.
Context (P : json → Prop)
  (Hnull : P JNull) (Hbool : ∀ b, P (JBool b)) (Hint : ∀ z, P (JInt z))
  (Hfloat : ∀ q, P (JFloat q)) (Hstr : ∀ s, P (JStr s))
  (Harr : ∀ l, Forall P l → P (JArr l))
  (Hobj : ∀ kvs, Forall (λ kv, P kv.2) kvs → P (JObj kvs)).

Fixpoint json_rect' (v : json) : P v :=
  match v with
  | JNull => Hnull | JBool b => Hbool b | JInt z => Hint z
  | JFloat q => Hfloat q | JStr s => Hstr s
  | JArr l => Harr l ((fix go l : Forall P l := match l with
      | [] => List.Forall_nil P
      | x :: l => List.Forall_cons P x l (json_rect' x) (go l) end) l)
  | JObj kvs => Hobj kvs ((fix go l : Forall (λ kv, P kv.2) l := match l with
      | [] => List.Forall_nil _
      | (k, x) :: l => List.Forall_cons _ (k, x) l (json_rect' x) (go l) end) kvs)
  end.
End json_ind.

#[export] Instance Q_eq_dec : EqDecision Q.
Proof. solve_decision. Defined.

#[export] Instance json_eq_dec : EqDecision json.
Proof.
  refine (fix go (x y : json) : {x = y} + {x ≠ y} := _).
  destruct x as [|b|z|q|s|l|kvs], y as [|b'|z'|q'|s'|l'|kvs']; try (right; discriminate).
  - by left.
  - destruct (decide (b = b')); [left|right]; congruence.
  - destruct (decide (z = z')); [left|right]; congruence.
  - destruct (decide (q = q')); [left|right]; congruence.
  - destruct (decide (s = s')); [left|right]; congruence.
  - assert ({l = l'} + {l ≠ l'}) as [|].
    { revert l'. induction l as [|x l IH]; intros [|y l']; try (right; discriminate); [by left|].
      destruct (go x y), (IH l'); [left|right..]; congruence. }
    + left; congruence.
    + right; congruence.
  - assert ({kvs = kvs'} + {kvs ≠ kvs'}) as [|].
    { revert kvs'. induction kvs as [|[k x] l IH]; intros [|[k' y] l'];
        try (right; discriminate); [by left|].
      destruct (decide (k = k')), (go x y), (IH l'); [left|right..]; congruence. }
    + left; congruence.
    + right; congruence.
Defined.

(** ** Dictionaries *)

(** [d.get(k)]: [None] when the key is absent. *)
Fixpoint obj_get (k : string) (d : jdict) : option json :=
  match d with
  | [] => None
  | (k', v) :: d => if String.eqb k k' then Some v else obj_get k d
  end.

(** [d.get(k)] where Python does not tell an absent key from a [null] value. *)
Definition obj_field (k : string) (d : jdict) : json :=
  match obj_get k d with Some v => v | None => JNull end.

(** [d.get(k, default)]. *)
Definition obj_default (k : string) (dflt : json) (d : jdict) : json :=
  match obj_get k d with Some v => v | None => dflt end.

Definition obj_has (k : string) (d : jdict) : bool := bool_decide (is_Some (obj_get k d)).

(** [{**d, k: v}]. *)
Fixpoint obj_set (k : string) (v : json) (d : jdict) : jdict :=
  match d with
  | [] => [(k, v)]
  | (k', v') :: d => if String.eqb k k' then (k, v) :: d else (k', v') :: obj_set k v d
  end.

(** [{**a, **b}]. *)
Definition dict_merge (a b : jdict) : jdict := foldl (λ d kv, obj_set kv.1 kv.2 d) a b.

Definition as_dict (v : json) : option jdict :=
  match v with JObj d => Some d | _ => None end.

(** Python truthiness. *)
Definition truthy (v : json) : bool :=
  match v with
  | JNull => false
  | JBool b => b
  | JInt z => negb (z =? 0)%Z
  | JFloat q => negb (Qnum q =? 0)%Z
  | JStr s => truthy_str s
  | JArr l => match l with [] => false | _ => true end
  | JObj d => match d with [] => false | _ => true end
  end.

(** [v or d]. *)
Definition jor (v d : json) : json := if truthy v then v else d.

Definition is_str (v : json) (s : string) : bool :=
  match v with JStr t => String.eqb t s | _ => false end.

(** The number an operand of a comparison stands for; other types raise [TypeError]. *)
Definition jnum (v : json) : result Q :=
  match v with
  | JInt z => Ok (inject_Z z)
  | JFloat q => Ok q
  | JBool b => Ok (if b then 1%Q else 0%Q)
  | _ => Raise TypeError
  end.

(** Keys of every object are distinct. *)
Fixpoint json_wf (v : json) : bool :=
  match v with
  | JArr l => forallb json_wf l
  | JObj d => bool_decide (NoDup d.*1) && forallb (λ kv, json_wf (snd kv)) d
  | _ => true
  end.

(** ** [json.dumps(v, sort_keys=True)] up to the text

    The persisted text is represented by the tree it denotes with the keys of
    every object sorted: two results have the same text exactly when they have
    the same canonical tree. *)
Definition key_leb {A} (a b : string * A) : bool := str_leb a.1 b.1.

Fixpoint canon (v : json) : json :=
  match v with
  | JArr l => JArr (map canon l)
  | JObj d => JObj (py_sorted key_leb (map (λ kv, (fst kv, canon (snd kv))) d))
  | _ => v
  end.

Lemma key_leb_total {A} (a b : string * A) : key_leb a b = true ∨ key_leb b a = true.
Proof. apply str_leb_total. Qed.
Lemma key_leb_trans {A} (a b c : string * A) :
  key_leb a b = true → key_leb b c = true → key_leb a c = true.
Proof. apply str_leb_trans. Qed.

Lemma canon_idemp v : canon (canon v) = canon v.
Proof.
  induction v as [| | | | |l IH|kvs IH] using json_rect'; simpl; try done.
  - f_equal. rewrite map_map. apply map_ext_Forall. exact IH.
  - f_equal. set (kvs' := map _ kvs).
    assert (E : map (λ kv, (kv.1, canon kv.2)) (py_sorted key_leb kvs') = py_sorted key_leb kvs').
    { rewrite <-(map_id (py_sorted key_leb kvs')) at 2. apply map_ext_Forall.
      rewrite py_sorted_perm. unfold kvs'. clear kvs'. rewrite List.Forall_map.
      eapply List.Forall_impl; [|exact IH]. intros [k x]. simpl. congruence. }
    rewrite E. apply py_sorted_id, py_sorted_sorted; [apply key_leb_total|apply key_leb_trans].
Qed.

#[global] Arguments canon : simpl never.

Lemma obj_get_set k v d k' :
  obj_get k' (obj_set k v d) = if String.eqb k' k then Some v else obj_get k' d.
Proof.
  induction d as [|[k1 v1] d IH]; simpl; [done|].
  destruct (String.eqb_spec k k1) as [->|Hne]; simpl.
  - by destruct (String.eqb_spec k' k1).
  - rewrite IH. destruct (String.eqb_spec k' k1) as [->|]; [|done].
    destruct (String.eqb_spec k1 k); congruence.
Qed.

(** ** [json.dumps(v, separators=(",", ":"))]

    [float_repr] is CPython's shortest round-trip float rendering. *)
Section Dumps.
Context (float_repr : Q → string).

(** [ensure_ascii]: what [json.encoder] writes for one code point below 256. *)
Definition escape (c : ascii) : string :=
  let n := nat_of_ascii c in
  if (n =? 34)%nat then of_list [ascii_of_nat 92; ascii_of_nat 34]
  else if (n =? 92)%nat then of_list [ascii_of_nat 92; ascii_of_nat 92]
  else if (n =? 10)%nat then "\n"
  else if (n =? 13)%nat then "\r"
  else if (n =? 9)%nat then "\t"
  else if (n =? 12)%nat then "\f"
  else if (n =? 8)%nat then "\b"
  else if ((32 <=? n) && (n <=? 126))%nat then String c EmptyString
  else "\u" +:+ of_list (digits 16 4 (N_of_ascii c)).

Definition quote : string := String (ascii_of_nat 34) EmptyString.

Fixpoint escape_all (l : list ascii) : string :=
  match l with
  | [] => ""
  | c :: l => escape c +:+ escape_all l
  end.

Definition dump_str (s : string) : string :=
  quote +:+ escape_all (to_list s) +:+ quote.

Fixpoint join (sep : string) (l : list string) : string :=
  match l with
  | [] => ""
  | [x] => x
  | x :: l => x +:+ sep +:+ join sep l
  end.

Fixpoint dumps (v : json) : string :=
  match v with
  | JNull => "null"
  | JBool true => "true"
  | JBool false => "false"
  | JInt z => py_int z
  | JFloat q => float_repr q
  | JStr s => dump_str s
  | JArr l => "[" +:+ join "," (map dumps l) +:+ "]"
  | JObj d => "{" +:+ join "," (map (λ kv, dump_str (fst kv) +:+ ":" +:+ dumps (snd kv)) d) +:+ "}"
  end.

(** [json.dumps(v)] with its default separators. *)
Fixpoint dumps_default (v : json) : string :=
  match v with
  | JArr l => "[" +:+ join ", " (map dumps_default l) +:+ "]"
  | JObj d => "{" +:+ join ", " (map (λ kv, dump_str (fst kv) +:+ ": " +:+ dumps_default (snd kv)) d) +:+ "}"
  | v => dumps v
  end.
End Dumps.

Example dumps_ex :
  dumps (λ _, "0.5")
    (JObj [("a", JArr [JInt (-12); JFloat (1#2); JNull]); ("b", JStr "x/y")])
  = "{" +:+ quote +:+ "a" +:+ quote +:+ ":[-12,0.5,null]," +:+ quote +:+ "b" +:+ quote +:+ ":"
    +:+ quote +:+ "x/y" +:+ quote +:+ "}".
Proof. vm_compute. reflexivity. Qed.
