(* ===== verification/PyDict.v ===== *)
(** Python dictionaries keyed by text, in insertion order: assigning to a key that is
    there keeps its place. *)

From S2P Require Import Prelude.

Section Dict.
Context {V : Type}.
Implicit Types (d : list (string * V)) (k : string) (v : V).

Fixpoint assoc_get k d : option V :=
  match d with
  | [] => None
  | (k', v) :: d => if String.eqb k k' then Some v else assoc_get k d
  end.

Fixpoint assoc_set k v d : list (string * V) :=
  match d with
  | [] => [(k, v)]
  | (k', v') :: d => if String.eqb k k' then (k, v) :: d else (k', v') :: assoc_set k v d
  end.

Lemma assoc_get_set k v d k' :
  assoc_get k' (assoc_set k v d) = if String.eqb k' k then Some v else assoc_get k' d.
Proof.
  induction d as [|[k1 v1] d IH]; simpl; [done|].
  destruct (String.eqb_spec k k1) as [->|Hne]; simpl.
  - by destruct (String.eqb_spec k' k1).
  - rewrite IH. destruct (String.eqb_spec k' k1) as [->|]; [|done].
    destruct (String.eqb_spec k1 k); congruence.
Qed.

Lemma assoc_set_keys k v d :
  map fst (assoc_set k v d) = if bool_decide (k ∈ map fst d) then map fst d else map fst d ++ [k].
Proof.
  induction d as [|[k1 v1] d IH]; simpl; [done|].
  destruct (String.eqb_spec k k1) as [->|Hne]; simpl.
  - rewrite bool_decide_eq_true_2; [done|]. by left.
  - rewrite IH. repeat case_bool_decide; try done; exfalso; set_solver.
Qed.

Lemma assoc_set_nodup k v d : NoDup (map fst d) → NoDup (map fst (assoc_set k v d)).
Proof.
  intros Hd. rewrite assoc_set_keys. case_bool_decide as Hk; [done|].
  apply NoDup_app. split_and!; [done| |apply NoDup_singleton]. by intros x Hx ->%list_elem_of_singleton.
Qed.

Lemma assoc_get_in k v d : assoc_get k d = Some v → (k, v) ∈ d.
Proof.
  induction d as [|[k1 v1] d IH]; simpl; [done|].
  destruct (String.eqb_spec k k1) as [->|]; [intros [= ->]; by left|]. intros H. right. by apply IH.
Qed.

Lemma assoc_get_iff k v d : NoDup (map fst d) → assoc_get k d = Some v ↔ (k, v) ∈ d.
Proof.
  intros Hd. split; [apply assoc_get_in|]. induction d as [|[k1 v1] d IH]; [by intros ?%elem_of_nil|].
  apply NoDup_cons in Hd as [Hn Hd]. simpl. intros [[= -> ->]|Hin]%elem_of_cons; [by rewrite String.eqb_refl|].
  destruct (String.eqb_spec k k1) as [->|]; [|by apply IH]. destruct Hn. by apply (list_elem_of_fmap_2 fst) in Hin.
Qed.

Lemma assoc_get_none k d : assoc_get k d = None ↔ k ∉ map fst d.
Proof.
  induction d as [|[k1 v1] d IH]; simpl; [split; [by intros _ ?%elem_of_nil|done]|].
  rewrite not_elem_of_cons, <-IH. destruct (String.eqb_spec k k1) as [->|]; [|naive_solver].
  split; [done|]. by intros [? _].
Qed.
End Dict.
