(* ===== verification/Fnmatch.v ===== *)
(** [fnmatch.fnmatchcase], the glob matcher behind [SkillDefinition.permits]
    and [PolicyRule.matches]: ["*"], ["?"], ["[seq]"] and ["[!seq]"]. *)

From S2P Require Import Prelude.
From S2P Require Import PyStr.
From Stdlib Require Import Ascii.

Inductive set_item :=
  | One (c : ascii)
  | Range (lo hi : ascii).

Inductive token :=
  | Star
  | AnyChar
  | Lit (c : ascii)
  | CharSet (neg : bool) (items : list set_item).

Definition cle (a b : ascii) : bool := (nat_of_ascii a <=? nat_of_ascii b)%nat.

Definition item_matches (c : ascii) (i : set_item) : bool :=
  match i with
  | One d => Ascii.eqb c d
  | Range lo hi => cle lo c && cle c hi
  end.

Definition set_matches (neg : bool) (items : list set_item) (c : ascii) : bool :=
  xorb neg (existsb (item_matches c) items).

(** The body of a bracket expression: [a-b] is a range, a hyphen at either end
    or right after a range is itself. *)
Fixpoint set_items (l : list ascii) : list set_item :=
  match l with
  | a :: ((h :: (b :: l'') as t2) as t1) =>
      if Ascii.eqb h "-" then Range a b :: set_items l'' else One a :: set_items t1
  | a :: t1 => One a :: set_items t1
  | [] => []
  end.

(** Split at the first [']'] of a bracket body, if there is one. *)
Fixpoint until_close (acc l : list ascii) : option (list ascii * list ascii) :=
  match l with
  | [] => None
  | c :: l' => if Ascii.eqb c "]" then Some (rev acc, l') else until_close (c :: acc) l'
  end.

(** The text after ['['] : an optional ['!'], then a body whose first character
    may be [']']. [None] when the bracket is never closed. *)
Definition bracket (l : list ascii) : option (bool * list ascii * list ascii) :=
  let '(neg, l1) := match l with
    | c :: l' => if Ascii.eqb c "!" then (true, l') else (false, l)
    | [] => (false, l)
    end in
  let '(acc, l2) := match l1 with
    | c :: l' => if Ascii.eqb c "]" then ([c], l') else ([], l1)
    | [] => ([], l1)
    end in
  match until_close acc l2 with
  | Some (body, rest) => Some (neg, body, rest)
  | None => None
  end.

(** [fnmatch.translate], to tokens rather than to a regular expression; [fuel]
    is the length of the pattern. *)
Fixpoint tokens (fuel : nat) (l : list ascii) : list token :=
  match fuel, l with
  | O, _ | _, [] => []
  | S fuel, c :: l' =>
      if Ascii.eqb c "*" then Star :: tokens fuel l'
      else if Ascii.eqb c "?" then AnyChar :: tokens fuel l'
      else if Ascii.eqb c "[" then
        match bracket l' with
        | Some (neg, body, rest) => CharSet neg (set_items body) :: tokens fuel rest
        | None => Lit c :: tokens fuel l'
        end
      else Lit c :: tokens fuel l'
  end.

Definition token_matches (t : token) (c : ascii) : bool :=
  match t with
  | Star => false
  | AnyChar => true
  | Lit d => Ascii.eqb c d
  | CharSet neg items => set_matches neg items c
  end.

Fixpoint glob (p : list token) : list ascii → bool :=
  match p with
  | [] => λ s, match s with [] => true | _ => false end
  | Star :: p' =>
      fix star s := glob p' s || match s with [] => false | _ :: s' => star s' end
  | t :: p' => λ s, match s with
      | [] => false
      | c :: s' => token_matches t c && glob p' s'
      end
  end.

Definition compile (pat : string) : list token :=
  tokens (length (to_list pat)) (to_list pat).

(** [fnmatchcase(name, pat)]. *)
Definition fnmatchcase (name pat : string) : bool := glob (compile pat) (to_list name).

Example fn1 : fnmatchcase "goal:42" "goal:*" = true. Proof. reflexivity. Qed.
Example fn2 : fnmatchcase "a2a:x" "goal:*" = false. Proof. reflexivity. Qed.
Example fn3 : fnmatchcase "b7-]" "[a-c][!a-z][-x][]]" = true. Proof. reflexivity. Qed.
Example fn4 : fnmatchcase "[x" "[x" = true. Proof. reflexivity. Qed.

(** ** What the patterns in use mean *)

(** No ['*'], ['?'] or ['['] : every character stands for itself. *)
Definition plain_char (c : ascii) : bool :=
  negb (Ascii.eqb c "*") && negb (Ascii.eqb c "?") && negb (Ascii.eqb c "[").
Definition plain (s : string) : bool := forallb plain_char (to_list s).

Lemma tokens_plain l fuel p :
  forallb plain_char l = true →
  tokens (length l + fuel) (l ++ p) = map Lit l ++ tokens fuel p.
Proof.
  induction l as [|c l IH]; [done|]. simpl. unfold plain_char at 1.
  destruct (Ascii.eqb c "*"), (Ascii.eqb c "?"), (Ascii.eqb c "["); try done.
  simpl. intros. by rewrite IH.
Qed.

Lemma glob_lits l p s :
  glob (map Lit l ++ p) s = true ↔ ∃ s', s = l ++ s' ∧ glob p s' = true.
Proof.
  revert s. induction l as [|c l IH]; intros s; simpl.
  { split; [eauto|]. by intros (s' & -> & ?). }
  destruct s as [|d s].
  { split; [done|]. by intros (s' & [=] & _). }
  rewrite andb_true_iff, Ascii.eqb_eq, IH. split.
  - intros [-> (s' & -> & H)]. by exists s'.
  - intros (s' & [= -> ->] & H). eauto.
Qed.

Lemma glob_star_nil s : glob [Star] s = true.
Proof. induction s as [|c s IH]; [done|]. simpl in *. by rewrite IH. Qed.

Lemma fnmatch_plain s p : plain p = true → fnmatchcase s p = true ↔ s = p.
Proof.
  intros Hp. unfold fnmatchcase, compile.
  pose proof (tokens_plain (to_list p) 0 [] Hp) as E.
  rewrite app_nil_r, Nat.add_0_r in E. rewrite E, glob_lits. split.
  - intros (s' & H & Hs'). destruct s'; [|done]. rewrite app_nil_r in H.
    by rewrite <-(of_to_list s), <-(of_to_list p), H.
  - intros ->. exists []. by rewrite app_nil_r.
Qed.

(** A pattern [p*] with [p] plain matches exactly the strings that start with [p]. *)
Lemma fnmatch_prefix s p :
  plain p = true → fnmatchcase s (p +:+ "*") = true ↔ ∃ t, s = p +:+ t.
Proof.
  intros Hp. unfold fnmatchcase, compile. rewrite to_list_app, length_app.
  rewrite tokens_plain by done. simpl. rewrite glob_lits. split.
  - intros (t & H & _). exists (of_list t).
    by rewrite <-(of_to_list s), H, of_list_app, of_to_list.
  - intros (t & ->). exists (to_list t). rewrite to_list_app. split; [done|].
    apply glob_star_nil.
Qed.

Lemma fnmatch_star s : fnmatchcase s "*" = true.
Proof. apply (fnmatch_prefix s "" eq_refl). by exists s. Qed.
