(* ===== verification/Contracts.v ===== *)
(** The data contracts of core/contracts: jobs, attempts, retry policies, the
    job state machine, tasks, skills, manifests, goals and planned tasks.

    A pydantic model is a record together with the function that validates its
    fields and returns it or raises [ValueError]. Identifiers are 128-bit
    [N]s, timestamps are aware UTC ([PyTime]), floats are exact rationals. *)

From S2P Require Import Prelude.
From S2P Require Import PyStr.
From S2P Require Import PyTime.
From S2P Require Import Json.
From S2P Require Import Fnmatch.
Open Scope Z_scope.

Abbreviation uuid := N (only parsing).

(** ** core/contracts/jobs.py *)

Inductive JobStatus := queued | running | completed | failed | cancelled.
Inductive AttemptOutcome := o_completed | o_failed | o_lease_expired | o_cancelled.

#[export] Instance JobStatus_eq_dec : EqDecision JobStatus.
Proof. solve_decision. Defined.
#[export] Instance AttemptOutcome_eq_dec : EqDecision AttemptOutcome.
Proof. solve_decision. Defined.

Record RetryPolicy := mk_RetryPolicy {
  max_attempts : Z;
  backoff_seconds : Q;
  max_backoff_seconds : Q;
  retryable_outcomes : list string }.

Definition default_retry_policy : RetryPolicy :=
  mk_RetryPolicy 3 1 60 ["timeout"; "transient"; "worker_lost"].

(** Field constraints and [validate_backoff]. *)
Definition validate_backoff (p : RetryPolicy) : result RetryPolicy :=
  rguard (1 <=? max_attempts p) ValueError;;
  rguard (Qle_bool 0 (backoff_seconds p)) ValueError;;
  rguard (Qle_bool 0 (max_backoff_seconds p)) ValueError;;
  rguard (negb (Qltb (max_backoff_seconds p) (backoff_seconds p))) ValueError;;
  Ok p.

Record Job := mk_Job {
  job_id : uuid;
  task_id : uuid;
  status : JobStatus;
  priority : Z;
  idempotency_key : string;
  retry_policy : RetryPolicy;
  created_at : time;
  updated_at : time;
  available_at : time;
  cancellation_requested_at : option time;
  cancelled_at : option time }.

Definition validate_idempotency_key (value : string) : result string :=
  let value := strip value in
  if truthy_str value then Ok value else Raise ValueError.

Definition validate_cancellation (j : Job) : result Job :=
  rguard (negb (bool_decide (is_Some (cancelled_at j))
                    && bool_decide (status j ≠ cancelled))) ValueError;;
  rguard (negb (bool_decide (status j = cancelled)
                    && bool_decide (cancelled_at j = None))) ValueError;;
  Ok j.

(** [Job(...)]: the constructor with all its validators. *)
Definition validate_job (j : Job) : result Job :=
  rguard ((-100 <=? priority j) && (priority j <=? 100)) ValueError;;
  key ← validate_idempotency_key (idempotency_key j);
  p ← validate_backoff (retry_policy j);
  validate_cancellation
    (mk_Job (job_id j) (task_id j) (status j) (priority j) key p (created_at j)
       (updated_at j) (available_at j) (cancellation_requested_at j) (cancelled_at j)).

Record ExecutionAttempt := mk_Attempt {
  attempt_id : uuid;
  at_job_id : uuid;
  attempt_number : Z;
  worker_id : string;
  input_ref : string;
  lease_token : uuid;
  lease_expires_at : time;
  started_at : time;
  ended_at : option time;
  outcome : option AttemptOutcome;
  failure_kind : option string;
  error_code : option string;
  error : option string;
  output_ref : option string }.

Definition validate_worker_id (value : string) : result string :=
  let value := strip value in
  if truthy_str value then Ok value else Raise ValueError.

Definition valid_failure_kind (k : option string) : bool :=
  match k with
  | None => true
  | Some k => String.eqb k "execution" || String.eqb k "confidence"
  end.

Definition validate_terminal_fields (a : ExecutionAttempt) : result ExecutionAttempt :=
  rguard (Bool.eqb (bool_decide (ended_at a = None)) (bool_decide (outcome a = None))) ValueError;;
  rguard (negb (bool_decide (is_Some (error a))
                    && bool_decide (outcome a ≠ Some o_failed))) ValueError;;
  rguard (negb ((bool_decide (is_Some (failure_kind a)) || bool_decide (is_Some (error_code a)))
                    && bool_decide (outcome a ≠ Some o_failed))) ValueError;;
  rguard (negb (bool_decide (is_Some (output_ref a))
                    && bool_decide (outcome a ≠ Some o_completed))) ValueError;;
  rguard (started_at a <? lease_expires_at a) ValueError;;
  rguard (match ended_at a with Some e => started_at a <=? e | None => true end) ValueError;;
  Ok a.

(** [ExecutionAttempt(...)]: the constructor with all its validators. *)
Definition validate_attempt (a : ExecutionAttempt) : result ExecutionAttempt :=
  rguard (1 <=? attempt_number a) ValueError;;
  rguard (valid_failure_kind (failure_kind a)) ValueError;;
  w ← validate_worker_id (worker_id a);
  i ← validate_worker_id (input_ref a);
  validate_terminal_fields
    (mk_Attempt (attempt_id a) (at_job_id a) (attempt_number a) w i (lease_token a)
       (lease_expires_at a) (started_at a) (ended_at a) (outcome a) (failure_kind a)
       (error_code a) (error a) (output_ref a)).

Definition VALID_JOB_TRANSITIONS (current : JobStatus) : list JobStatus :=
  match current with
  | queued => [running; cancelled]
  | running => [queued; completed; failed; cancelled]
  | completed => []
  | failed => []
  | cancelled => []
  end.

Definition validate_job_transition (current target : JobStatus) : result unit :=
  rguard (bool_decide (target ∈ VALID_JOB_TRANSITIONS current)) ValueError.

Definition terminal (s : JobStatus) : bool :=
  match VALID_JOB_TRANSITIONS s with [] => true | _ => false end.

(** ** core/contracts/contracts.py *)

Record TaskContract := mk_Task {
  t_task_id : uuid;
  origin : string;
  skill : string;
  payload : jdict;
  confidence_threshold : Q;
  deadline_ms : option Z;
  workspace_root : option string;
  output_path : option string;
  execution_attempt_id : option uuid;
  t_created_at : time }.

Definition validate_non_empty_str (value : string) : result string :=
  let value := strip value in
  if truthy_str value then Ok value else Raise ValueError.

Definition unit_interval (q : Q) : bool := Qle_bool 0 q && Qle_bool q 1.

(** [TaskContract(...)]. *)
Definition validate_task (t : TaskContract) : result TaskContract :=
  o ← validate_non_empty_str (origin t);
  s ← validate_non_empty_str (skill t);
  rguard (unit_interval (confidence_threshold t)) ValueError;;
  rguard (match deadline_ms t with Some d => 0 <=? d | None => true end) ValueError;;
  Ok (mk_Task (t_task_id t) o s (payload t) (confidence_threshold t) (deadline_ms t)
        (workspace_root t) (output_path t) (execution_attempt_id t) (t_created_at t)).

Record SkillDefinition := mk_Skill {
  skill_id : string;
  description : string;
  input_schema : jdict;
  output_schema : jdict;
  avg_confidence : Q;
  avg_latency_ms : Z;
  allowed_origins : option (list string) }.

(** [SkillDefinition.permits]. *)
Definition permits (s : SkillDefinition) (o : string) : bool :=
  match allowed_origins s with
  | None => true
  | Some pats => existsb (fnmatchcase o) pats
  end.

Record SkillManifest := mk_Manifest {
  agent_id : string;
  agent_name : string;
  version : string;
  skills : list SkillDefinition;
  health_endpoint : string;
  registered_at : time;
  heartbeat_interval_s : Z }.

Inductive GoalStatus :=
  | g_planning | g_ready | g_running | g_paused | g_complete | g_failed | g_cancelled.
Inductive TaskStatus :=
  | t_pending | t_running | t_complete | t_failed | t_escalated | t_blocked | t_cancelled.

#[export] Instance GoalStatus_eq_dec : EqDecision GoalStatus.
Proof. solve_decision. Defined.
#[export] Instance TaskStatus_eq_dec : EqDecision TaskStatus.
Proof. solve_decision. Defined.

Record GoalContract := mk_Goal {
  goal_id : uuid;
  g_origin : string;
  objective : string;
  g_workspace_root : option string;
  g_threshold : Q;
  g_status : GoalStatus;
  plan_confidence : option Q;
  g_created_at : time }.

(** [GoalContract(...)]. *)
Definition validate_goal (g : GoalContract) : result GoalContract :=
  o ← validate_non_empty_str (g_origin g);
  obj ← validate_non_empty_str (objective g);
  rguard (unit_interval (g_threshold g)) ValueError;;
  rguard (match plan_confidence g with Some q => unit_interval q | None => true end) ValueError;;
  Ok (mk_Goal (goal_id g) o obj (g_workspace_root g) (g_threshold g) (g_status g)
        (plan_confidence g) (g_created_at g)).

Record ProjectNode := mk_Project {
  project_id : uuid;
  p_goal_id : uuid;
  title : string;
  p_description : string }.

Record PlannedTask := mk_Planned {
  pt_id : uuid;
  pt_project : uuid;
  pt_goal : uuid;
  pt_skill : string;
  pt_payload : jdict;
  depends_on : list uuid;
  pt_status : TaskStatus;
  pt_confidence : json;
  pt_result : option jdict;
  pt_error : option string }.

(** ** Properties of the contracts *)

Lemma transition_ok s t :
  validate_job_transition s t = Ok tt ↔ t ∈ VALID_JOB_TRANSITIONS s.
Proof. unfold validate_job_transition, rguard. case_bool_decide; naive_solver. Qed.

Lemma terminal_iff s : terminal s = true ↔ s = completed ∨ s = failed ∨ s = cancelled.
Proof. destruct s; unfold terminal; simpl; naive_solver. Qed.

Lemma validate_backoff_ok p p' :
  validate_backoff p = Ok p' →
  p' = p ∧ 1 <= max_attempts p ∧ (0 <= backoff_seconds p)%Q
  ∧ (backoff_seconds p <= max_backoff_seconds p)%Q.
Proof.
  unfold validate_backoff. intros. rok. reflect.
  repeat split; try lia; try (by apply Qle_bool_iff).
  apply Qnot_lt_le. rewrite <-Qltb_lt. congruence.
Qed.

Lemma validate_backoff_complete p :
  1 <= max_attempts p → (0 <= backoff_seconds p)%Q →
  (backoff_seconds p <= max_backoff_seconds p)%Q → validate_backoff p = Ok p.
Proof.
  intros H1 H2 H3. unfold validate_backoff, mbind, rbind, rguard.
  rewrite (proj2 (Z.leb_le _ _) H1), (proj2 (Qle_bool_iff _ _) H2).
  rewrite (proj2 (Qle_bool_iff 0 (max_backoff_seconds p))) by (by eapply Qle_trans).
  unfold Qltb. by rewrite (proj2 (Qle_bool_iff _ _) H3).
Qed.

Lemma validate_key_ok k k' :
  validate_idempotency_key k = Ok k' → k' = strip k ∧ truthy_str k' = true.
Proof. unfold validate_idempotency_key. intros. by case_match; simplify_eq. Qed.

(** [validate_job] keeps every field but the key, which it strips. *)
Lemma validate_job_ok j j' :
  validate_job j = Ok j' →
  -100 <= priority j <= 100 ∧ truthy_str (strip (idempotency_key j)) = true ∧
  validate_backoff (retry_policy j) = Ok (retry_policy j) ∧
  (is_Some (cancelled_at j) ↔ status j = cancelled) ∧
  j' = mk_Job (job_id j) (task_id j) (status j) (priority j) (strip (idempotency_key j))
       (retry_policy j) (created_at j) (updated_at j) (available_at j)
       (cancellation_requested_at j) (cancelled_at j).
Proof.
  unfold validate_job, validate_cancellation. intros H. rok. simpl in *.
  match goal with H : validate_idempotency_key _ = _ |- _ => apply validate_key_ok in H as [-> ?] end.
  match goal with H : validate_backoff _ = Ok _ |- _ =>
    pose proof H; apply validate_backoff_ok in H as [-> _] end.
  destruct j as [??? ? ? ? ? ? ? ? c]. simpl in *. reflect.
  split_and!; try done; try lia.
  destruct c, status0; split; intros Hc; try done; try (by destruct Hc); try (by eauto);
    by repeat match goal with H : _ ∨ _ |- _ => destruct H end.
Qed.

Lemma validate_job_complete j :
  -100 <= priority j <= 100 → truthy_str (idempotency_key j) = true →
  strip (idempotency_key j) = idempotency_key j →
  validate_backoff (retry_policy j) = Ok (retry_policy j) →
  (is_Some (cancelled_at j) ↔ status j = cancelled) →
  validate_job j = Ok j.
Proof.
  intros Hp Hk Hs Hb Hc. unfold validate_job, rguard, mbind, rbind.
  rewrite (proj2 (andb_true_iff _ _)) by (rewrite !Z.leb_le; lia).
  unfold validate_idempotency_key. rewrite Hs, Hk, Hb.
  unfold validate_cancellation, mbind, rbind, rguard. simpl. destruct j as [??? ? ? ? ? ? ? ? c].
  simpl in *. destruct c; simpl.
  - by rewrite (proj1 Hc) by eauto.
  - destruct (decide (status0 = cancelled)) as [->|]; [destruct (proj2 Hc eq_refl); done|].
    by rewrite (bool_decide_eq_false_2 (status0 = cancelled)).
Qed.

(** Validation raises nothing but [ValueError]. *)
Lemma validate_worker_raise w e : validate_worker_id w = Raise e → e = ValueError.
Proof. unfold validate_worker_id. intros. by case_match; simplify_eq. Qed.

Lemma validate_attempt_raise a e : validate_attempt a = Raise e → e = ValueError.
Proof.
  unfold validate_attempt, validate_terminal_fields. intros H.
  rraise; first [done | by eapply validate_worker_raise].
Qed.
