(* ===== verification/JobRepository.v ===== *)
(** core/jobs/repository.py: the transactional job store.

    The SQLite database is a record of tables ([db]); a method is a
    computation in [M db], whose statements run inside [transaction] exactly
    where the code runs them between BEGIN IMMEDIATE and commit. SQLite is not
    under src/: an INSERT checks the PRIMARY KEY, UNIQUE and FOREIGN KEY
    constraints of the schema in core/jobs/migrations.py and raises
    [IntegrityError] when one fails, an UPDATE changes the rows its WHERE
    clause selects. Identifiers drawn by [uuid4()] and the clock are
    arguments. *)

From S2P Require Import Prelude.
From S2P Require Import PyStr.
From S2P Require Import PyTime.
From S2P Require Import Json.
From S2P Require Import Contracts.
Open Scope Z_scope.

(** ** Tables *)

Record job_row := mk_row {
  jr_id : uuid;
  jr_task : uuid;
  jr_status : JobStatus;
  jr_priority : Z;
  jr_policy : RetryPolicy;
  jr_attempt_count : Z;
  jr_active : option uuid;
  jr_created : time;
  jr_updated : time;
  jr_available : time;
  jr_cancel_requested : option time;
  jr_cancelled : option time }.

Record transition_row := mk_transition {
  tr_job : uuid;
  tr_from : option JobStatus;
  tr_to : JobStatus;
  tr_reason : string;
  tr_at : time }.

Record outbox_row := mk_outbox {
  ob_attempt : uuid;
  ob_created : time;
  ob_published : option time }.

Record db := mk_db {
  jobs : gmap uuid job_row;
  idem : gmap string (uuid * time);
  job_tasks : gmap uuid TaskContract;
  outputs : gmap uuid (json * time);
  attempts : gmap uuid ExecutionAttempt;
  transitions : list transition_row;
  outbox : gmap uuid outbox_row }.

Definition empty_db : db := mk_db ∅ ∅ ∅ ∅ ∅ [] ∅.

Definition set_jobs (f : gmap uuid job_row → gmap uuid job_row) (d : db) : db :=
  mk_db (f (jobs d)) (idem d) (job_tasks d) (outputs d) (attempts d) (transitions d) (outbox d).
Definition set_idem (f : gmap string (uuid * time) → gmap string (uuid * time)) (d : db) : db :=
  mk_db (jobs d) (f (idem d)) (job_tasks d) (outputs d) (attempts d) (transitions d) (outbox d).
Definition set_job_tasks (f : gmap uuid TaskContract → gmap uuid TaskContract) (d : db) : db :=
  mk_db (jobs d) (idem d) (f (job_tasks d)) (outputs d) (attempts d) (transitions d) (outbox d).
Definition set_outputs (f : gmap uuid (json * time) → gmap uuid (json * time)) (d : db) : db :=
  mk_db (jobs d) (idem d) (job_tasks d) (f (outputs d)) (attempts d) (transitions d) (outbox d).
Definition set_attempts (f : gmap uuid ExecutionAttempt → gmap uuid ExecutionAttempt) (d : db) : db :=
  mk_db (jobs d) (idem d) (job_tasks d) (outputs d) (f (attempts d)) (transitions d) (outbox d).
Definition set_transitions (f : list transition_row → list transition_row) (d : db) : db :=
  mk_db (jobs d) (idem d) (job_tasks d) (outputs d) (attempts d) (f (transitions d)) (outbox d).
Definition set_outbox (f : gmap uuid outbox_row → gmap uuid outbox_row) (d : db) : db :=
  mk_db (jobs d) (idem d) (job_tasks d) (outputs d) (attempts d) (transitions d) (f (outbox d)).

(** ** Row updates: the SET lists of the UPDATE statements *)

(** SET status, attempt_count + 1, active_attempt_id, updated_at (claim). *)
Definition row_claim (a : uuid) (now : time) (r : job_row) : job_row :=
  mk_row (jr_id r) (jr_task r) running (jr_priority r) (jr_policy r) (jr_attempt_count r + 1)
    (Some a) (jr_created r) now (jr_available r) (jr_cancel_requested r) (jr_cancelled r).

(** SET status, active_attempt_id = NULL, updated_at, available_at. *)
Definition row_release (s : JobStatus) (now avail : time) (r : job_row) : job_row :=
  mk_row (jr_id r) (jr_task r) s (jr_priority r) (jr_policy r) (jr_attempt_count r)
    None (jr_created r) now avail (jr_cancel_requested r) (jr_cancelled r).

(** SET status, active_attempt_id = NULL, updated_at, cancellation_requested_at, cancelled_at. *)
Definition row_cancel (now : time) (r : job_row) : job_row :=
  mk_row (jr_id r) (jr_task r) cancelled (jr_priority r) (jr_policy r) (jr_attempt_count r)
    None (jr_created r) now (jr_available r) (Some now) (Some now).

(** SET updated_at (heartbeat). *)
Definition row_touch (now : time) (r : job_row) : job_row :=
  mk_row (jr_id r) (jr_task r) (jr_status r) (jr_priority r) (jr_policy r) (jr_attempt_count r)
    (jr_active r) (jr_created r) now (jr_available r) (jr_cancel_requested r) (jr_cancelled r).

(** SET lease_expires_at. *)
Definition attempt_extend (expiry : time) (a : ExecutionAttempt) : ExecutionAttempt :=
  mk_Attempt (attempt_id a) (at_job_id a) (attempt_number a) (worker_id a) (input_ref a)
    (lease_token a) expiry (started_at a) (ended_at a) (outcome a) (failure_kind a)
    (error_code a) (error a) (output_ref a).

(** SET ended_at, outcome, failure_kind, error_code, error, output_ref
    WHERE ended_at IS NULL; a column the statement does not name keeps its value. *)
Definition attempt_close (now : time) (o : AttemptOutcome) (kind code err out : option string)
    (a : ExecutionAttempt) : ExecutionAttempt :=
  if bool_decide (ended_at a = None) then
    mk_Attempt (attempt_id a) (at_job_id a) (attempt_number a) (worker_id a) (input_ref a)
      (lease_token a) (lease_expires_at a) (started_at a) (Some now) (Some o) kind code err out
  else a.

(** ** Statements shared by the methods *)

(** [_record_transition]. *)
Definition record_transition (j : uuid) (current : option JobStatus) (target : JobStatus)
    (reason : string) (now : time) : M db unit :=
  mmodify (set_transitions (λ l, l ++ [mk_transition j current target reason now])).

(** [_insert_attempt]: PRIMARY KEY, UNIQUE(lease_token), UNIQUE(job_id, attempt_number)
    and REFERENCES jobs(job_id). *)
Definition attempt_conflict (a b : ExecutionAttempt) : bool :=
  bool_decide (lease_token a = lease_token b)
  || bool_decide (at_job_id a = at_job_id b) && bool_decide (attempt_number a = attempt_number b).

Definition insert_attempt (a : ExecutionAttempt) : M db unit :=
  d ← mget;
  mguard (bool_decide (attempts d !! attempt_id a = None)
          && negb (existsb (λ kv, attempt_conflict a (snd kv)) (map_to_list (attempts d)))
          && bool_decide (is_Some (jobs d !! at_job_id a))) IntegrityError;;
  mmodify (set_attempts <[attempt_id a := a]>).

(** The idempotency key a JOIN with job_idempotency USING(job_id) attaches to a job. *)
Definition key_of (d : db) (j : uuid) : option string :=
  fst <$> head (filter (λ kv, kv.2.1 = j) (map_to_list (idem d))).

(** [_job_from_row]. *)
Definition job_from_row (key : string) (r : job_row) : result Job :=
  validate_job (mk_Job (jr_id r) (jr_task r) (jr_status r) (jr_priority r) key (jr_policy r)
    (jr_created r) (jr_updated r) (jr_available r) (jr_cancel_requested r) (jr_cancelled r)).

(** [_attempt_from_row]. *)
Definition attempt_from_row (a : ExecutionAttempt) : result ExecutionAttempt := validate_attempt a.

(** [_active_attempt]. *)
Definition active_attempt (d : db) (j token : uuid) : option ExecutionAttempt :=
  r ← jobs d !! j;
  a ← jr_active r;
  at_ ← attempts d !! a;
  if bool_decide (jr_status r = running) && bool_decide (lease_token at_ = token)
     && bool_decide (ended_at at_ = None)
  then Some at_ else None.

(** [get_job]. *)
Definition get_job (j : uuid) (d : db) : result (option Job) :=
  match jobs d !! j, key_of d j with
  | Some r, Some k => job ← job_from_row k r; Ok (Some job)
  | _, _ => Ok None
  end.

(** [job = self.get_job(job_id); assert job is not None; return job]. *)
Definition return_job (j : uuid) : M db Job :=
  o ← mread (get_job j);
  mlift (of_option AssertionError o).

(** [get_job_by_idempotency_key]. *)
Definition get_job_by_idempotency_key (key : string) (d : db) : result (option Job) :=
  match idem d !! key with
  | Some (j, _) =>
      match jobs d !! j with
      | Some r => job ← job_from_row key r; Ok (Some job)
      | None => Ok None
      end
  | None => Ok None
  end.

(** [get_task] and [get_result]. *)
Definition get_task (j : uuid) (d : db) : option TaskContract := job_tasks d !! j.
Definition get_result (j : uuid) (d : db) : option json := fst <$> outputs d !! j.

(** The rows of [jobs JOIN job_idempotency]. *)
Definition joined_rows (d : db) : list (string * job_row) :=
  omap (λ kv, k ← key_of d kv.1; Some (k, kv.2)) (map_to_list (jobs d)).

(** ORDER BY created_at DESC, job_id DESC. *)
Definition newest_leb (a b : string * job_row) : bool :=
  (jr_created b.2 <? jr_created a.2)
  || (jr_created a.2 =? jr_created b.2) && (jr_id b.2 <=? jr_id a.2)%N.

(** [list_jobs]. *)
Definition list_jobs (limit : Z) (d : db) : result (list Job) :=
  rguard ((1 <=? limit) && (limit <=? 500)) ValueError;;
  rmap (λ kr, job_from_row kr.1 kr.2)
    (take (Z.to_nat limit) (py_sorted newest_leb (joined_rows d))).

(** ** enqueue *)

Definition insert_job (r : job_row) : M db unit :=
  d ← mget;
  mguard (bool_decide (jobs d !! jr_id r = None)) IntegrityError;;
  mmodify (set_jobs <[jr_id r := r]>).

(** idempotency_key PRIMARY KEY, job_id UNIQUE REFERENCES jobs. *)
Definition insert_idem (key : string) (j : uuid) (now : time) : M db unit :=
  d ← mget;
  mguard (bool_decide (idem d !! key = None) && bool_decide (key_of d j = None)
          && bool_decide (is_Some (jobs d !! j))) IntegrityError;;
  mmodify (set_idem <[key := (j, now)]>).

Definition insert_task (j : uuid) (t : TaskContract) : M db unit :=
  d ← mget;
  mguard (bool_decide (job_tasks d !! j = None) && bool_decide (is_Some (jobs d !! j)))
    IntegrityError;;
  mmodify (set_job_tasks <[j := t]>).

(** The row INSERT INTO jobs writes for a candidate. *)
Definition row_of (c : Job) (p : RetryPolicy) (now : time) : job_row :=
  mk_row (job_id c) (task_id c) (status c) (priority c)
    (mk_RetryPolicy (max_attempts p) (backoff_seconds p) (max_backoff_seconds p)
       (py_sorted str_leb (retryable_outcomes p)))
    0 None now now now None None.

Definition enqueue (fresh tid : uuid) (task : option TaskContract) (key : string)
    (prio : Z) (policy : option RetryPolicy) (now : time) : M db Job :=
  let policy := or_else policy default_retry_policy in
  mguard (match task with Some t => bool_decide (t_task_id t = tid) | None => true end) ValueError;;
  candidate ← mlift (validate_job (mk_Job fresh tid queued prio key policy now now now None None));
  transaction (
    d ← mget;
    match idem d !! idempotency_key candidate with
    | Some (j, _) =>
        match jobs d !! j with
        | Some r => mlift (job_from_row (idempotency_key candidate) r)
        | None => mraise IntegrityError
        end
    | None =>
        insert_job (row_of candidate policy now);;
        insert_idem (idempotency_key candidate) (job_id candidate) now;;
        match task with Some t => insert_task (job_id candidate) t | None => mret tt end;;
        record_transition (job_id candidate) None queued "enqueue" now;;
        mret candidate
    end).

(** ** claim *)

(** WHERE status = 'queued' AND available_at <= now AND attempt_count < max_attempts. *)
Definition claimable (now : time) (r : job_row) : bool :=
  bool_decide (jr_status r = queued) && (jr_available r <=? now)
  && (jr_attempt_count r <? max_attempts (jr_policy r)).

(** ORDER BY priority DESC, created_at, job_id. *)
Definition claim_leb (a b : job_row) : bool :=
  (jr_priority b <? jr_priority a)
  || (jr_priority a =? jr_priority b)
     && ((jr_created a <? jr_created b)
         || (jr_created a =? jr_created b) && (jr_id a <=? jr_id b)%N).

Definition claim_candidate (now : time) (d : db) : option job_row :=
  head (py_sorted claim_leb (filter (λ r, claimable now r = true) (snd <$> joined_rows d))).

(** f"task:{task_id}". *)
Definition task_ref (t : uuid) : string := "task:" +:+ uuid_str t.

(** The statements between BEGIN IMMEDIATE and commit. *)
Definition claim_tx (fresh_attempt fresh_token : uuid) (worker : string) (lease_seconds : Q)
    (now : time) : M db (option ExecutionAttempt) :=
  d ← mget;
  match claim_candidate now d with
  | None => mret None
  | Some r =>
      mlift (validate_job_transition queued running);;
      expiry ← mlift (dt_add now (td_us lease_seconds));
      att ← mlift (validate_attempt (mk_Attempt fresh_attempt (jr_id r)
        (jr_attempt_count r + 1) worker (task_ref (jr_task r)) fresh_token expiry now
        None None None None None None));
      (* UPDATE jobs ... WHERE job_id = ? AND status = 'queued'; rowcount <> 1 rolls back *)
      match jobs d !! jr_id r with
      | Some r' =>
          if bool_decide (jr_status r' = queued) then
            mmodify (set_jobs <[jr_id r := row_claim (attempt_id att) now r']>);;
            insert_attempt att;;
            record_transition (jr_id r) (Some queued) running "claim" now;;
            mret (Some att)
          else mret None
      | None => mret None
      end
  end.

Definition claim (fresh_attempt fresh_token : uuid) (worker : string) (lease_seconds : Q)
    (now : time) : M db (option (Job * ExecutionAttempt)) :=
  mguard (negb (Qle_bool lease_seconds 0)) ValueError;;
  claimed ← transaction (claim_tx fresh_attempt fresh_token worker lease_seconds now);
  match claimed with
  | None => mret None
  | Some att =>
      job ← return_job (at_job_id att);
      mret (Some (job, att))
  end.

(** ** heartbeat *)

Definition heartbeat_tx (j token : uuid) (lease_seconds : Q) (now : time) :
    M db ExecutionAttempt :=
  d ← mget;
  match active_attempt d j token with
  | None => mraise LeaseConflict
  | Some att =>
      mguard (negb (lease_expires_at att <=? now)) LeaseConflict;;
      expiry ← mlift (dt_add now (td_us lease_seconds));
      mmodify (set_attempts (alter (attempt_extend expiry) (attempt_id att)));;
      mmodify (set_jobs (alter (row_touch now) j));;
      mret (attempt_extend expiry att)
  end.

(** The row is read back, and validated, after the commit. *)
Definition heartbeat (j token : uuid) (lease_seconds : Q) (now : time) : M db ExecutionAttempt :=
  mguard (negb (Qle_bool lease_seconds 0)) ValueError;;
  extended ← transaction (heartbeat_tx j token lease_seconds now);
  mlift (attempt_from_row extended).

(** ** complete *)

(** result.get("artifacts") or result.get("status") == "escalated". *)
Definition needs_evidence (res : jdict) : bool :=
  truthy (obj_field "artifacts" res) || is_str (obj_field "status" res) "escalated".

(** job_id PRIMARY KEY, attempt_id UNIQUE, both REFERENCES. *)
Definition insert_outbox (j a : uuid) (now : time) : M db unit :=
  d ← mget;
  mguard (bool_decide (outbox d !! j = None)
          && negb (existsb (λ kv, bool_decide (ob_attempt (snd kv) = a)) (map_to_list (outbox d)))
          && bool_decide (is_Some (jobs d !! j)) && bool_decide (is_Some (attempts d !! a)))
    IntegrityError;;
  mmodify (set_outbox <[j := mk_outbox a now None]>).

Definition outcome_reason (o : AttemptOutcome) : string :=
  match o with
  | o_completed => "completed" | o_failed => "failed"
  | o_lease_expired => "lease_expired" | o_cancelled => "cancelled"
  end.

(** SELECT output_ref ... WHERE job_id AND lease_token AND outcome = 'completed'. *)
Definition prior_completion (d : db) (j token : uuid) : option ExecutionAttempt :=
  snd <$> head (filter (λ kv, at_job_id kv.2 = j ∧ lease_token kv.2 = token
    ∧ outcome kv.2 = Some o_completed) (map_to_list (attempts d))).

(** Persist [result], and the outbox row when there is evidence to publish. *)
Definition persist_result (j a : uuid) (res : option jdict) (now : time) : M db unit :=
  match res with
  | None => mret tt
  | Some res =>
      let serialized := canon (JObj res) in
      d ← mget;
      mguard (match outputs d !! j with
              | Some (prior, _) => bool_decide (prior = serialized)
              | None => true end) InvalidJobState;;
      mmodify (set_outputs (λ o, match o !! j with
        | Some _ => o | None => <[j := (serialized, now)]> o end));;
      if needs_evidence res then
        d ← mget;
        mguard (bool_decide (is_Some (job_tasks d !! j))) InvalidJobState;;
        insert_outbox j a now
      else mret tt
  end.

(** The branch for a job already completed under the same lease and output. *)
Definition is_replay (d : db) (j token : uuid) (out : option string) : bool :=
  match prior_completion d j token with
  | Some att => bool_decide (output_ref att = out)
  | None => false
  end.

Definition finish_tx (j token : uuid) (target : JobStatus) (o : AttemptOutcome)
    (out err : option string) (res : option jdict) (now : time) : M db unit :=
    d ← mget;
    match jobs d !! j with
    | None => mraise KeyError
    | Some r =>
        let current := jr_status r in
        if bool_decide (current = completed) && bool_decide (target = completed)
           && is_replay d j token out
        then
          mguard (match res with
                  | Some res => match outputs d !! j with
                    | Some (prior, _) => bool_decide (prior = canon (JObj res))
                    | None => false end
                  | None => true end) InvalidJobState
        else
          mguard (bool_decide (current = running)) InvalidJobState;;
          match active_attempt d j token with
          | None => mraise LeaseConflict
          | Some att =>
              mguard (negb (lease_expires_at att <=? now)) LeaseConflict;;
              mlift (validate_job_transition current target);;
              mmodify (set_attempts
                (alter (attempt_close now o (failure_kind att) (error_code att) err out)
                   (attempt_id att)));;
              persist_result j (attempt_id att) res now;;
              mmodify (set_jobs (alter (λ r, if bool_decide (jr_status r = running)
                then row_release target now (jr_available r) r else r) j));;
              record_transition j (Some current) target (outcome_reason o) now
          end
    end.

(** [_finish]. *)
Definition finish (j token : uuid) (target : JobStatus) (o : AttemptOutcome)
    (out err : option string) (res : option jdict) (now : time) : M db Job :=
  transaction (finish_tx j token target o out err res now);;
  return_job j.

Definition complete (j token : uuid) (out : string) (res : option jdict) (now : time) : M db Job :=
  finish j token completed o_completed (Some out) None res now.

(** ** record_failure *)

(** backoff_seconds * (2 ** max(attempt_count - 1, 0)), capped by
    max_backoff_seconds. Converting the power to a float raises
    OverflowError from 2**1024 on. *)
Definition backoff (p : RetryPolicy) (attempt_count : Z) : result Q :=
  let k := Z.max (attempt_count - 1) 0 in
  rguard (k <? 1024) OverflowError;;
  let product := Qmult (backoff_seconds p) (inject_Z (2 ^ k)) in
  Ok (if Qltb (max_backoff_seconds p) product then max_backoff_seconds p else product).

Definition record_failure_tx (j token : uuid) (err code kind : string) (retryable : bool)
    (now : time) : M db unit :=
    d ← mget;
    match jobs d !! j with
    | None => mraise KeyError
    | Some r =>
        mguard (bool_decide (jr_status r = running)) InvalidJobState;;
        match active_attempt d j token with
        | None => mraise LeaseConflict
        | Some att =>
            mguard (negb (lease_expires_at att <=? now)) LeaseConflict;;
            let should_retry := retryable
              && bool_decide (code ∈ retryable_outcomes (jr_policy r))
              && (jr_attempt_count r <? max_attempts (jr_policy r)) in
            let target := if should_retry then queued else failed in
            mlift (validate_job_transition running target);;
            mmodify (set_attempts (alter
              (attempt_close now o_failed (Some kind) (Some code) (Some err) (output_ref att))
              (attempt_id att)));;
            delay ← mlift (backoff (jr_policy r) (jr_attempt_count r));
            avail ← mlift (if should_retry then dt_add now (td_us delay) else Ok now);
            mmodify (set_jobs (alter (λ r, if bool_decide (jr_status r = running)
              then row_release target now avail r else r) j));;
            record_transition j (Some running) target
              ((if should_retry then "retry:" else "failed:") +:+ code) now
        end
    end.

Definition record_failure (j token : uuid) (err code kind : string) (retryable : bool)
    (now : time) : M db Job :=
  transaction (record_failure_tx j token err code kind retryable now);;
  return_job j.

Definition fail (j token : uuid) (err code kind : string) (now : time) : M db Job :=
  record_failure j token err code kind false now.

(** ** cancel *)

Definition close_by_id (a : option uuid) (now : time) (o : AttemptOutcome) : M db unit :=
  match a with
  | None => mret tt
  | Some a => mmodify (set_attempts (alter
      (λ att, attempt_close now o (failure_kind att) (error_code att) (error att)
                (output_ref att) att) a))
  end.

Definition cancel_tx (j : uuid) (now : time) : M db unit :=
    d ← mget;
    match jobs d !! j with
    | None => mraise KeyError
    | Some r =>
        let current := jr_status r in
        if bool_decide (current = cancelled) then mret tt
        else
          mlift (validate_job_transition current cancelled);;
          (if bool_decide (current = running) then close_by_id (jr_active r) now o_cancelled
           else mret tt);;
          mmodify (set_jobs (alter (row_cancel now) j));;
          record_transition j (Some current) cancelled "cancel" now
    end.

Definition cancel (j : uuid) (now : time) : M db Job :=
  transaction (cancel_tx j now);;
  return_job j.

(** ** reclaim_expired *)

(** WHERE jobs.status = 'running' AND ended_at IS NULL AND lease_expires_at <= now. *)
Definition lease_expired (now : time) (d : db) (r : job_row) : bool :=
  bool_decide (jr_status r = running) &&
  match jr_active r ≫= (λ a, attempts d !! a) with
  | Some att => bool_decide (ended_at att = None) && (lease_expires_at att <=? now)
  | None => false
  end.

Definition expired_rows (now : time) (d : db) : list job_row :=
  filter (λ r, lease_expired now d r = true) (snd <$> map_to_list (jobs d)).

Definition reclaim_one (now : time) (r : job_row) : M db unit :=
  let is_terminal := max_attempts (jr_policy r) <=? jr_attempt_count r in
  let target := if is_terminal then failed else queued in
  mlift (validate_job_transition running target);;
  close_by_id (jr_active r) now o_lease_expired;;
  delay ← mlift (backoff (jr_policy r) (jr_attempt_count r));
  avail ← mlift (if is_terminal then Ok now else dt_add now (td_us delay));
  mmodify (set_jobs (alter (row_release target now avail) (jr_id r)));;
  record_transition (jr_id r) (Some running) target "lease_expired" now.

Definition reclaim_tx (now : time) : M db (list uuid) :=
  d ← mget;
  let rows := expired_rows now d in
  miter (reclaim_one now) rows;;
  mret (jr_id <$> rows).

(** The jobs are read back one by one after the commit; a missing one is skipped. *)
Definition reclaim_expired (now : time) : M db (list Job) :=
  ids ← transaction (reclaim_tx now);
  found ← mread (λ d, rmap (λ j, get_job j d) ids);
  mret (omap id found).

(** ** Outbox *)

(** ORDER BY created_at over the unpublished rows. *)
Definition pending_completions (limit : nat) (d : db) : list (uuid * outbox_row) :=
  take limit (py_sorted (λ a b, ob_created a.2 <=? ob_created b.2)
    (filter (λ kv, ob_published kv.2 = None) (map_to_list (outbox d)))).

Definition acknowledge_completion (j : uuid) (now : time) : M db unit :=
  mmodify (set_outbox (alter (λ o, match ob_published o with
    | None => mk_outbox (ob_attempt o) (ob_created o) (Some now)
    | Some _ => o end) j)).

(** ** Histories *)

(** [transitions(job_id)], in transition_id order. *)
Definition job_transitions (j : uuid) (d : db) : list transition_row :=
  filter (λ t, tr_job t = j) (transitions d).

(** [attempts(job_id)], in attempt_number order. *)
Definition job_attempts (j : uuid) (d : db) : result (list ExecutionAttempt) :=
  rmap attempt_from_row (py_sorted (λ a b, attempt_number a <=? attempt_number b)
    (filter (λ a, at_job_id a = j) (snd <$> map_to_list (attempts d)))).
