(* ===== verification/JobInvariant.v ===== *)
(** The job store's integrity invariant and its preservation.

    [Inv] says what the tables mean together: which job is running under which
    attempt, that attempt numbers are bounded by the retry policy, that keys
    and jobs are in bijection, that a job's audit trail is a walk of the state
    machine ending in its status, and that results and outbox rows belong to
    completed jobs. Every public method preserves it, on its error paths too. *)

From S2P Require Import Prelude.
From S2P Require Import PyStr.
From S2P Require Import PyTime.
From S2P Require Import Json.
From S2P Require Import Contracts.
From S2P Require Import JobRepository.
Open Scope Z_scope.

(** ** The audit trail *)

Definition legal_step (from : option JobStatus) (to : JobStatus) : bool :=
  match from with
  | None => bool_decide (to = queued)
  | Some s => bool_decide (to ∈ VALID_JOB_TRANSITIONS s)
  end.

(** Follow a list of transitions from [s]; [None] if one does not start where
    the previous one ended or is not an edge of the state machine. *)
Fixpoint replay (s : option JobStatus) (l : list transition_row) : option (option JobStatus) :=
  match l with
  | [] => Some s
  | t :: l =>
      if bool_decide (tr_from t = s) && legal_step s (tr_to t)
      then replay (Some (tr_to t)) l else None
  end.

Lemma replay_app s l1 l2 : replay s (l1 ++ l2) = (replay s l1 ≫= λ s', replay s' l2).
Proof.
  revert s. induction l1 as [|t l1 IH]; intros s; simpl; [done|].
  destruct (bool_decide _ && _); [apply IH|done].
Qed.

Definition history (j : uuid) (d : db) : list transition_row := job_transitions j d.

(** ** The invariant *)

Definition policy_ok (p : RetryPolicy) : Prop :=
  1 <= max_attempts p ∧ (0 <= backoff_seconds p)%Q ∧ (backoff_seconds p <= max_backoff_seconds p)%Q.

Record job_ok (d : db) (j : uuid) (r : job_row) : Prop := {
  jo_id : jr_id r = j;
  jo_policy : policy_ok (jr_policy r);
  jo_priority : -100 <= jr_priority r <= 100;
  jo_count : 0 <= jr_attempt_count r <= max_attempts (jr_policy r);
  jo_cancel : is_Some (jr_cancelled r) ↔ jr_status r = cancelled;
  jo_key : ∃ k t, idem d !! k = Some (j, t);
  jo_idle : jr_status r ≠ running → jr_active r = None;
  jo_live : jr_status r = running → ∃ a att, jr_active r = Some a ∧ attempts d !! a = Some att
    ∧ at_job_id att = j ∧ ended_at att = None ∧ attempt_number att = jr_attempt_count r;
  jo_attempts : ∀ n, 1 <= n <= jr_attempt_count r →
    ∃ a att, attempts d !! a = Some att ∧ at_job_id att = j ∧ attempt_number att = n;
  jo_history : replay None (history j d) = Some (Some (jr_status r)) }.

Record attempt_ok (d : db) (a : uuid) (att : ExecutionAttempt) : Prop := {
  ao_id : attempt_id att = a;
  ao_outcome : ended_at att = None ↔ outcome att = None;
  ao_job : ∃ r, jobs d !! at_job_id att = Some r ∧ 1 <= attempt_number att <= jr_attempt_count r
    ∧ (ended_at att = None → jr_status r = running ∧ jr_active r = Some a)
    ∧ (outcome att = Some o_completed →
         jr_status r = completed ∧ attempt_number att = jr_attempt_count r) }.

Record key_ok (d : db) (k : string) (j : uuid) : Prop := {
  ko_text : strip k = k ∧ truthy_str k = true;
  ko_job : is_Some (jobs d !! j);
  ko_unique : ∀ k' t, idem d !! k' = Some (j, t) → k' = k }.

Record Inv (d : db) : Prop := {
  inv_job : ∀ j r, jobs d !! j = Some r → job_ok d j r;
  inv_attempt : ∀ a att, attempts d !! a = Some att → attempt_ok d a att;
  inv_unique : ∀ a b x y, attempts d !! a = Some x → attempts d !! b = Some y →
    attempt_conflict x y = true → a = b;
  inv_key : ∀ k j t, idem d !! k = Some (j, t) → key_ok d k j;
  inv_output : ∀ j o, outputs d !! j = Some o →
    ∃ r, jobs d !! j = Some r ∧ jr_status r = completed;
  inv_outbox : ∀ j o, outbox d !! j = Some o →
    is_Some (outputs d !! j) ∧ is_Some (job_tasks d !! j) ∧
    ∃ att, attempts d !! ob_attempt o = Some att ∧ at_job_id att = j
      ∧ outcome att = Some o_completed;
  inv_no_history : ∀ j, jobs d !! j = None → history j d = [] }.

Lemma Inv_empty : Inv empty_db.
Proof. split; intros *; simpl; rewrite ?lookup_empty; done. Qed.

(** ** Lemmas on the shared queries *)

Lemma key_of_Some d j k : key_of d j = Some k → ∃ t, idem d !! k = Some (j, t).
Proof.
  unfold key_of. intros H.
  destruct (filter _ _) as [|[k' [j' t]] l] eqn:E; simplify_eq/=.
  assert (Hin : (k, (j', t)) ∈ filter (λ kv : string * (N * Z), kv.2.1 = j) (map_to_list (idem d)))
    by (rewrite E; by left).
  apply list_elem_of_filter in Hin as [Hj Hin]. simpl in Hj. subst.
  apply elem_of_map_to_list in Hin. eauto.
Qed.

Lemma key_of_None d j : key_of d j = None → ∀ k t, idem d !! k ≠ Some (j, t).
Proof.
  unfold key_of. intros H k t Hk.
  destruct (filter _ _) as [|x l] eqn:E; [|done].
  assert (Hin : (k, (j, t)) ∈ filter (λ kv : string * (N * Z), kv.2.1 = j) (map_to_list (idem d))).
  { apply list_elem_of_filter. split; [done|]. by apply elem_of_map_to_list. }
  rewrite E in Hin. by apply elem_of_nil in Hin.
Qed.

Lemma key_of_job d j r : Inv d → jobs d !! j = Some r →
  ∃ k t, key_of d j = Some k ∧ idem d !! k = Some (j, t) ∧ strip k = k ∧ truthy_str k = true.
Proof.
  intros HI Hj. destruct (jo_key _ _ _ (inv_job _ HI _ _ Hj)) as (k & t & Hk).
  destruct (key_of d j) as [k'|] eqn:E.
  - pose proof E as E'. apply key_of_Some in E' as [t' Hk'].
    destruct (ko_text _ _ _ (inv_key _ HI _ _ _ Hk')). eauto 10.
  - by apply (key_of_None _ _ E) in Hk.
Qed.

Lemma key_of_eq d k j t : Inv d → idem d !! k = Some (j, t) → key_of d j = Some k.
Proof.
  intros HI Hk. destruct (ko_job _ _ _ (inv_key _ HI _ _ _ Hk)) as [r Hr].
  destruct (key_of_job _ _ _ HI Hr) as (k' & t' & -> & Hk' & _).
  f_equal. by apply (ko_unique _ _ _ (inv_key _ HI _ _ _ Hk) k' t').
Qed.

(** The job a row stands for. *)
Definition job_of (k : string) (r : job_row) : Job :=
  mk_Job (jr_id r) (jr_task r) (jr_status r) (jr_priority r) k (jr_policy r)
    (jr_created r) (jr_updated r) (jr_available r) (jr_cancel_requested r) (jr_cancelled r).

Lemma job_from_row_ok d j r k : job_ok d j r → strip k = k → truthy_str k = true →
  job_from_row k r = Ok (job_of k r).
Proof.
  intros H Hs Hk. unfold job_from_row. apply validate_job_complete; simpl; try done.
  - apply H.
  - destruct (jo_policy _ _ _ H) as (? & ? & ?). by apply validate_backoff_complete.
  - apply H.
Qed.

(** Reading a job back never raises, and finds exactly the jobs that exist. *)
Lemma get_job_ok d j : Inv d →
  get_job j d = Ok (match jobs d !! j, key_of d j with
                    | Some r, Some k => Some (job_of k r) | _, _ => None end).
Proof.
  intros HI. unfold get_job. destruct (jobs d !! j) as [r|] eqn:Hr; [|done].
  destruct (key_of_job _ _ _ HI Hr) as (k & t & -> & _ & Hs & Hk).
  by rewrite (job_from_row_ok _ _ _ _ (inv_job _ HI _ _ Hr) Hs Hk).
Qed.

(** [get_job] as a total function. *)
Definition found_job (d : db) (j : uuid) : option Job :=
  match jobs d !! j, key_of d j with
  | Some r, Some k => Some (job_of k r) | _, _ => None end.

Lemma get_job_total d : Inv d → ∀ j, get_job j d = Ok (found_job d j).
Proof. intros HI j. by apply get_job_ok. Qed.

Lemma return_job_ok d j r : Inv d → jobs d !! j = Some r →
  ∃ k, key_of d j = Some k ∧ return_job j d = (Ok (job_of k r), d).
Proof.
  intros HI Hr. destruct (key_of_job _ _ _ HI Hr) as (k & t & Hk & _).
  exists k. split; [done|]. unfold return_job, mread, mlift, mbind, M_bind.
  by rewrite (get_job_ok _ _ HI), Hr, Hk.
Qed.

Lemma active_attempt_Some d j token att :
  active_attempt d j token = Some att → ∃ r a,
    jobs d !! j = Some r ∧ jr_active r = Some a ∧ attempts d !! a = Some att
    ∧ jr_status r = running ∧ lease_token att = token ∧ ended_at att = None.
Proof.
  unfold active_attempt. destruct (jobs d !! j) as [r|] eqn:Hr; [|done]. simpl.
  destruct (jr_active r) as [a|] eqn:Ha; [|done]. simpl.
  destruct (attempts d !! a) as [x|] eqn:Hx; [|done]. simpl. intros H. case_match; [|done].
  simplify_eq. reflect. exists r, a. by split_and!.
Qed.

Lemma history_app d j t :
  history j (set_transitions (λ l, l ++ [t]) d)
  = history j d ++ (if decide (tr_job t = j) then [t] else []).
Proof.
  unfold history, job_transitions, set_transitions. simpl. rewrite filter_app. f_equal.
Qed.

Lemma attempt_conflict_sym x y : attempt_conflict x y = attempt_conflict y x.
Proof. unfold attempt_conflict. repeat case_bool_decide; congruence. Qed.

(** ** The shapes of change *)

Definition add_history (j : uuid) (from : option JobStatus) (to : JobStatus) (why : string)
    (now : time) : db → db :=
  set_transitions (λ l, l ++ [mk_transition j from to why now]).

(** A job leaves the running state (or is cancelled before it ran): its row becomes
    [r'], its attempt, if it has one, is ended, and the audit trail grows. *)
Definition settle (j : uuid) (from : JobStatus) (r' : job_row) (a : option uuid)
    (close : ExecutionAttempt → ExecutionAttempt) (why : string) (now : time) (d : db) : db :=
  add_history j (Some from) (jr_status r') why now
    (set_jobs <[j := r']>
      (set_attempts (λ m, match a with Some a => alter close a m | None => m end) d)).

(** What [settle] needs of the new row and of the way an attempt is ended. *)
Record settles (r r' : job_row) : Prop := {
  se_edge : jr_status r' ∈ VALID_JOB_TRANSITIONS (jr_status r);
  se_not_running : jr_status r' ≠ running;
  se_id : jr_id r' = jr_id r;
  se_policy : jr_policy r' = jr_policy r;
  se_priority : jr_priority r' = jr_priority r;
  se_count : jr_attempt_count r' = jr_attempt_count r;
  se_idle : jr_active r' = None;
  se_cancel : is_Some (jr_cancelled r') ↔ jr_status r' = cancelled }.

Record closes (f : ExecutionAttempt → ExecutionAttempt) : Prop := {
  cl_id : ∀ x, attempt_id (f x) = attempt_id x;
  cl_job : ∀ x, at_job_id (f x) = at_job_id x;
  cl_number : ∀ x, attempt_number (f x) = attempt_number x;
  cl_token : ∀ x, lease_token (f x) = lease_token x;
  cl_ended : ∀ x, is_Some (ended_at (f x));
  cl_outcome : ∀ x, (ended_at x = None ↔ outcome x = None) → is_Some (outcome (f x)) }.

Lemma attempt_close_closes now o k c e u :
  closes (λ x, attempt_close now o (k x) (c x) (e x) (u x) x).
Proof.
  split; intros x; unfold attempt_close; case_bool_decide; simpl; try done; eauto.
  all: destruct (ended_at x), (outcome x); naive_solver.
Qed.

Lemma conflict_closes f x y : closes f →
  attempt_conflict (f x) (f y) = attempt_conflict x y
  ∧ attempt_conflict (f x) y = attempt_conflict x y
  ∧ attempt_conflict x (f y) = attempt_conflict x y.
Proof.
  intros [? Hj Hn Ht ? ?]. unfold attempt_conflict. by rewrite !Hj, !Hn, !Ht.
Qed.

Section Settle.
Context (d : db) (HI : Inv d) (j : uuid) (r r' : job_row) (Hr : jobs d !! j = Some r)
  (Hs : settles r r') (f : ExecutionAttempt → ExecutionAttempt) (Hf : closes f)
  (Hdone : ∀ x, ended_at x = None → outcome (f x) = Some o_completed → jr_status r' = completed)
  (why : string) (now : time).

Local Abbreviation d' := (settle j (jr_status r) r' (jr_active r) f why now d).

Lemma settle_attempts b : attempts d' !! b =
  if decide (jr_active r = Some b) then f <$> attempts d !! b else attempts d !! b.
Proof.
  unfold settle, add_history, set_transitions, set_jobs, set_attempts. simpl.
  destruct (jr_active r) as [a|]; [|done].
  case_decide; simplify_eq; [by rewrite lookup_alter_eq|]. apply lookup_alter_ne. congruence.
Qed.

Lemma active_job a att : jr_active r = Some a → attempts d !! a = Some att → at_job_id att = j.
Proof.
  intros Ha Hatt. pose proof (inv_job _ HI _ _ Hr) as Hj.
  destruct (decide (jr_status r = running)) as [Hrun|Hn].
  - destruct (jo_live _ _ _ Hj Hrun) as (a' & att' & ? & ? & ? & _). by simplify_eq.
  - apply (jo_idle _ _ _ Hj) in Hn. congruence.
Qed.

Lemma settle_attempt_other b att : attempts d !! b = Some att → at_job_id att ≠ j →
  attempts d' !! b = Some att.
Proof.
  intros Hb Hj. rewrite settle_attempts. case_decide as Ha; [|done].
  by destruct Hj; eapply active_job.
Qed.

Lemma settle_attempt_inv b att' : attempts d' !! b = Some att' → ∃ att,
  attempts d !! b = Some att ∧ (att' = att ∧ jr_active r ≠ Some b ∨ att' = f att ∧ jr_active r = Some b).
Proof.
  rewrite settle_attempts. case_decide; intros Hb.
  - apply fmap_Some in Hb as (att & ? & ->). eauto.
  - eauto.
Qed.

Lemma settle_history j' : history j' d' =
  history j' d ++ (if decide (j = j') then
    [mk_transition j (Some (jr_status r)) (jr_status r') why now] else []).
Proof. unfold settle, add_history. by rewrite history_app. Qed.

Lemma settle_old_job j' r0 : j' ≠ j → job_ok d j' r0 → job_ok d' j' r0.
Proof.
  intros Hne [Hid Hpol Hprio Hcnt Hcan Hkey Hidle Hlive Hatts Hhist].
  split; try done.
  - intros (a & att & Ha & Hatt & <- & He & Hn)%Hlive. exists a, att.
    split_and!; try done. by apply settle_attempt_other.
  - intros n (a & att & Hatt & <- & Hn)%Hatts. exists a, att. split_and!; try done.
    by apply settle_attempt_other.
  - rewrite settle_history. case_decide; [congruence|]. by rewrite app_nil_r.
Qed.

Lemma settle_new_job : job_ok d' j r'.
Proof.
  destruct (inv_job _ HI _ _ Hr) as [Hid Hpol Hprio Hcnt Hcan Hkey Hidle Hlive Hatts Hhist].
  destruct Hs as [Hedge Hrun Hid' Hpol' Hprio' Hcnt' Hidle' Hcan'].
  split; rewrite ?Hid', ?Hpol', ?Hprio', ?Hcnt'; try done.
  - intros n (a & att & Hatt & Hj & Hn)%Hatts.
    exists a. rewrite settle_attempts, Hatt. case_decide; [|by exists att].
    exists (f att). simpl. by rewrite (cl_job _ Hf), (cl_number _ Hf).
  - rewrite settle_history, replay_app, Hhist. simpl. case_decide; [|done]. simpl.
    rewrite !bool_decide_eq_true_2 by done. done.
Qed.

Lemma settle_attempt_ok b att' : attempts d' !! b = Some att' → attempt_ok d' b att'.
Proof.
  intros (att & Hatt & Hcase)%settle_attempt_inv.
  destruct (inv_attempt _ HI _ _ Hatt) as [Hid Hout (r0 & Hr0 & Hn & Hlive & Hcmp)].
  assert (at_job_id att' = at_job_id att ∧ attempt_number att' = attempt_number att
    ∧ attempt_id att' = attempt_id att ∧ (ended_at att' = None ↔ outcome att' = None)
    ∧ (ended_at att' = None → ended_at att = None ∧ jr_active r ≠ Some b)) as (Ej & En & Ei & Eo & Ee).
  { destruct Hcase as [[-> Ha]|[-> Ha]]; [done|].
    rewrite (cl_job _ Hf), (cl_number _ Hf), (cl_id _ Hf). split_and!; try done.
    - destruct (cl_ended _ Hf att) as [? ->], (cl_outcome _ Hf att Hout) as [? ->]. done.
    - by destruct (cl_ended _ Hf att) as [? ->]. }
  split; [congruence|done|]. rewrite Ej, En.
  change (jobs d') with (<[j := r']> (jobs d)).
  destruct (decide (j = at_job_id att)) as [E|E].
  - exists r'. rewrite <-E in *. rewrite lookup_insert_eq, (se_count _ _ Hs).
    assert (r0 = r) as -> by congruence. split; [done|]. split; [done|].
    split; [by intros [[]%Hlive ?]%Ee|]. intros Hc.
    destruct Hcase as [[-> Ha]|[-> Ha]].
    + apply Hcmp in Hc as [Hc _]. pose proof (se_edge _ _ Hs) as He. rewrite Hc in He.
      by apply elem_of_nil in He.
    + pose proof (inv_job _ HI _ _ Hr) as Hj.
      destruct (decide (jr_status r = running)) as [Hrun|Hno];
        [|by rewrite (jo_idle _ _ _ Hj Hno) in Ha].
      destruct (jo_live _ _ _ Hj Hrun) as (b' & att' & Hb & Hatt' & _ & Hopen & Hnum).
      simplify_eq. eauto.
  - exists r0. rewrite lookup_insert_ne by done. split; [done|]. split; [done|].
    assert (Heq : att' = att).
    { destruct Hcase as [[-> _]|[-> Ha]]; [done|]. destruct E. symmetry. by eapply active_job. }
    rewrite Heq. done.
Qed.

(** A job that still has an edge to take has no result yet. *)
Lemma settled_output j' o : outputs d !! j' = Some o → j ≠ j'.
Proof.
  intros Ho <-. destruct (inv_output _ HI _ _ Ho) as (r0 & Hr0 & Hc). simplify_eq.
  pose proof (se_edge _ _ Hs) as He. rewrite Hc in He. by apply elem_of_nil in He.
Qed.

Lemma settle_inv : Inv d'.
Proof.
  split.
  - intros j' r0. change (jobs d') with (<[j := r']> (jobs d)). intros H.
    rewrite lookup_insert in H. case_decide as Hj.
    + injection H as <-. rewrite <-Hj. apply settle_new_job.
    + apply settle_old_job; [done|]. by apply HI.
  - apply settle_attempt_ok.
  - intros a b x y Hx Hy. apply settle_attempt_inv in Hx as (x0 & Hx0 & Hx).
    apply settle_attempt_inv in Hy as (y0 & Hy0 & Hy). intros Hc.
    apply (inv_unique _ HI a b x0 y0 Hx0 Hy0). revert Hc.
    destruct (conflict_closes f x0 y0 Hf) as (E1 & E2 & E3).
    destruct Hx as [[-> _]|[-> _]], Hy as [[-> _]|[-> _]]; congruence.
  - intros k j' t Hk. destruct (inv_key _ HI _ _ _ Hk) as [Ht Hj Hu]. split; [done| |done].
    change (jobs d') with (<[j := r']> (jobs d)). rewrite lookup_insert.
    case_decide; [by eexists|done].
  - intros j' o Ho. destruct (inv_output _ HI _ _ Ho) as (r0 & Hr0 & Hc).
    pose proof (settled_output _ _ Ho). exists r0.
    change (jobs d') with (<[j := r']> (jobs d)). by rewrite lookup_insert_ne.
  - intros j' o Ho. destruct (inv_outbox _ HI _ _ Ho) as ([p Hp] & Ht & att & Hatt & Hj & Hc).
    pose proof (settled_output _ _ Hp). split_and!; [by eexists|done|].
    exists att. split_and!; try done. apply settle_attempt_other; congruence.
  - intros j'. change (jobs d') with (<[j := r']> (jobs d)). rewrite lookup_insert.
    rewrite settle_history. case_decide; [done|]. intros Hnone. rewrite app_nil_r. by apply HI.
Qed.
End Settle.

(** ** Starting, creating, touching *)

Section Start.
Context (d : db) (HI : Inv d) (r : job_row) (att : ExecutionAttempt)
  (Hr : jobs d !! jr_id r = Some r) (Hq : jr_status r = queued)
  (Hmax : jr_attempt_count r < max_attempts (jr_policy r))
  (Hfresh : attempts d !! attempt_id att = None)
  (Hjob : at_job_id att = jr_id r) (Hnum : attempt_number att = jr_attempt_count r + 1)
  (Hopen : ended_at att = None ∧ outcome att = None)
  (Huniq : ∀ b x, attempts d !! b = Some x → attempt_conflict att x = false) (now : time).

Local Abbreviation j := (jr_id r).
Local Abbreviation d' := (add_history j (Some queued) running "claim" now
  (set_attempts <[attempt_id att := att]>
    (set_jobs <[j := row_claim (attempt_id att) now r]> d))).

Lemma start_attempt b x : attempts d !! b = Some x → attempts d' !! b = Some x.
Proof.
  intros Hb. change (attempts d') with (<[attempt_id att := att]> (attempts d)).
  rewrite lookup_insert_ne by congruence. done.
Qed.

Lemma start_attempt_inv b x : attempts d' !! b = Some x →
  (b = attempt_id att ∧ x = att) ∨ attempts d !! b = Some x.
Proof.
  change (attempts d') with (<[attempt_id att := att]> (attempts d)).
  rewrite lookup_insert. case_decide; [|by right]. intros. simplify_eq. by left.
Qed.

Lemma start_history j' : history j' d' = history j' d ++
  (if decide (j = j') then [mk_transition j (Some queued) running "claim" now] else []).
Proof. unfold add_history. by rewrite history_app. Qed.

Lemma start_new_job : job_ok d' j (row_claim (attempt_id att) now r).
Proof.
  destruct (inv_job _ HI _ _ Hr) as [Hid Hpol Hprio Hcnt Hcan Hkey Hidle Hlive Hatts Hhist].
  split; simpl; try done; try lia.
  - rewrite Hcan, Hq. done.
  - intros _. exists (attempt_id att), att. destruct Hopen.
    split_and!; try done. by rewrite lookup_insert_eq.
  - intros n Hn. destruct (decide (n = jr_attempt_count r + 1)) as [->|].
    + exists (attempt_id att), att. by rewrite lookup_insert_eq.
    + destruct (Hatts n) as (a & x & Ha & Hx & Hxn); [lia|].
      exists a, x. by rewrite lookup_insert_ne by congruence.
  - rewrite start_history, replay_app, Hhist, Hq. simpl. by case_decide.
Qed.

Lemma start_inv : Inv d'.
Proof.
  split.
  - intros j' r0. change (jobs d') with (<[j := row_claim (attempt_id att) now r]> (jobs d)).
    rewrite lookup_insert. case_decide as Hj.
    + intros [= <-]. rewrite <-Hj. apply start_new_job.
    + intros [Hid Hpol Hprio Hcnt Hcan Hkey Hidle Hlive Hatts Hhist]%(inv_job _ HI).
      split; try done.
      * intros (a & x & ? & ? & ?)%Hlive. exists a, x. split_and!; try apply start_attempt; tauto.
      * intros n (a & x & ? & ?)%Hatts. exists a, x. split; [by apply start_attempt|done].
      * rewrite start_history. case_decide; [done|]. by rewrite app_nil_r.
  - intros b x [[-> ->]|Hx]%start_attempt_inv.
    + split; [done|by destruct Hopen as [-> ->]|].
      exists (row_claim (attempt_id att) now r). rewrite Hjob, Hnum.
      change (jobs d') with (<[j := row_claim (attempt_id att) now r]> (jobs d)).
      rewrite lookup_insert_eq. pose proof (jo_count _ _ _ (inv_job _ HI _ _ Hr)).
      simpl. destruct Hopen as [_ ->]. split_and!; try done; lia.
    + destruct (inv_attempt _ HI _ _ Hx) as [Hid Hout (r0 & Hr0 & Hn & Hl & Hcmp)].
      split; [done|done|]. change (jobs d') with (<[j := row_claim (attempt_id att) now r]> (jobs d)).
      destruct (decide (j = at_job_id x)) as [E|].
      * rewrite <-E in *. assert (r0 = r) as -> by congruence. rewrite lookup_insert_eq.
        eexists; split; [done|]. simpl. split; [lia|].
        split; [intros [Hrun _]%Hl|intros [Hrun _]%Hcmp]; congruence.
      * exists r0. by rewrite lookup_insert_ne.
  - intros a b x y Hx Hy. apply start_attempt_inv in Hx as [[-> ->]|Hx], Hy as [[-> ->]|Hy];
      intros Hc; [done| | |by eapply inv_unique].
    + by rewrite (Huniq _ _ Hy) in Hc.
    + rewrite attempt_conflict_sym, (Huniq _ _ Hx) in Hc. done.
  - intros k j' t Hk. destruct (inv_key _ HI _ _ _ Hk) as [Ht Hj Hu]. split; [done| |done].
    change (jobs d') with (<[j := row_claim (attempt_id att) now r]> (jobs d)).
    rewrite lookup_insert. case_decide; [by eexists|done].
  - intros j' o Ho. destruct (inv_output _ HI _ _ Ho) as (r0 & Hr0 & Hc). exists r0.
    change (jobs d') with (<[j := row_claim (attempt_id att) now r]> (jobs d)).
    rewrite lookup_insert_ne; [done|]. congruence.
  - intros j' o Ho. destruct (inv_outbox _ HI _ _ Ho) as (Hp & Ht & x & Hx & Hj & Hc).
    split_and!; [done..|]. exists x. split; [by apply start_attempt|done].
  - intros j'. change (jobs d') with (<[j := row_claim (attempt_id att) now r]> (jobs d)).
    rewrite lookup_insert, start_history. case_decide; [done|]. intros Hnone.
    rewrite app_nil_r. by apply HI.
Qed.
End Start.

Section Create.
Context (d : db) (HI : Inv d) (r : job_row) (key : string) (now : time).
Local Abbreviation j := (jr_id r).
Context (Hfresh : jobs d !! j = None) (Hkey : idem d !! key = None)
  (Htext : strip key = key ∧ truthy_str key = true)
  (Hpol : policy_ok (jr_policy r)) (Hprio : -100 <= jr_priority r <= 100)
  (Hq : jr_status r = queued) (Hcount : jr_attempt_count r = 0)
  (Hidle : jr_active r = None) (Hcan : jr_cancelled r = None)
  (tasks : gmap uuid TaskContract → gmap uuid TaskContract)
  (Htasks : ∀ j', is_Some (job_tasks d !! j') → is_Some (tasks (job_tasks d) !! j')).

Local Abbreviation d' := (add_history j None queued "enqueue" now
  (set_job_tasks tasks (set_idem <[key := (j, now)]> (set_jobs <[j := r]> d)))).

Lemma create_key k j' t : idem d !! k = Some (j', t) → idem d' !! k = Some (j', t).
Proof.
  intros Hk. change (idem d') with (<[key := (j, now)]> (idem d)).
  rewrite lookup_insert_ne by congruence. done.
Qed.

Lemma create_history j' : history j' d' = history j' d ++
  (if decide (j = j') then [mk_transition j None queued "enqueue" now] else []).
Proof. unfold add_history. by rewrite history_app. Qed.

Lemma create_inv : Inv d'.
Proof.
  split.
  - intros j' r0. change (jobs d') with (<[j := r]> (jobs d)). rewrite lookup_insert.
    case_decide as Hj; [intros [= <-]; rewrite <-Hj|intros Hr0].
    + split; try done; rewrite ?Hq, ?Hcan, ?Hcount; try done.
      * destruct Hpol. lia.
      * exists key, now. change (idem d') with (<[key := (j, now)]> (idem d)).
        by rewrite lookup_insert_eq.
      * intros n Hn. lia.
      * rewrite create_history, replay_app, (inv_no_history _ HI _ Hfresh). by case_decide.
    + destruct (inv_job _ HI _ _ Hr0). split; try done.
      * destruct jo_key0 as (k & t & Hk). exists k, t. by apply create_key.
      * rewrite create_history. case_decide; [congruence|]. by rewrite app_nil_r.
  - intros b x Hx. destruct (inv_attempt _ HI _ _ Hx) as [Hid Hout (r0 & Hr0 & Hn)].
    split; [done..|]. exists r0. change (jobs d') with (<[j := r]> (jobs d)).
    rewrite lookup_insert_ne by congruence. done.
  - apply HI.
  - intros k j' t. change (idem d') with (<[key := (j, now)]> (idem d)).
    rewrite lookup_insert. case_decide as Hk; [intros [= <- <-]; rewrite <-Hk|intros Hk'].
    + split; [done| |].
      * change (jobs d') with (<[j := r]> (jobs d)). by rewrite lookup_insert_eq.
      * intros k' t'. change (idem d') with (<[key := (j, now)]> (idem d)).
        rewrite lookup_insert. case_decide; [done|]. intros Hk'.
        destruct (ko_job _ _ _ (inv_key _ HI _ _ _ Hk')). congruence.
    + destruct (inv_key _ HI _ _ _ Hk') as [Ht [r0 Hj] Hu]. split; [done| |].
      * change (jobs d') with (<[j := r]> (jobs d)). rewrite lookup_insert_ne by congruence.
        by eexists.
      * intros k' t'. change (idem d') with (<[key := (j, now)]> (idem d)).
        rewrite lookup_insert. case_decide; [intros [= <- <-]; congruence|apply Hu].
  - intros j' o Ho. destruct (inv_output _ HI _ _ Ho) as (r0 & Hr0 & Hc). exists r0.
    change (jobs d') with (<[j := r]> (jobs d)). rewrite lookup_insert_ne by congruence. done.
  - intros j' o Ho. destruct (inv_outbox _ HI _ _ Ho) as (Hp & Ht & x). 
    split_and!; [done|by apply Htasks|done].
  - intros j'. change (jobs d') with (<[j := r]> (jobs d)).
    rewrite lookup_insert, create_history. case_decide; [done|]. intros Hnone.
    rewrite app_nil_r. by apply HI.
Qed.
End Create.

Section Touch.
Context (d : db) (HI : Inv d) (j : uuid) (r : job_row) (Hr : jobs d !! j = Some r)
  (a : uuid) (expiry now : time).
Local Abbreviation d' := (set_jobs (alter (row_touch now) j)
  (set_attempts (alter (attempt_extend expiry) a) d)).

Lemma touch_attempt b x : attempts d !! b = Some x → ∃ x', attempts d' !! b = Some x' ∧
  at_job_id x' = at_job_id x ∧ attempt_number x' = attempt_number x ∧ ended_at x' = ended_at x
  ∧ outcome x' = outcome x ∧ attempt_id x' = attempt_id x ∧ lease_token x' = lease_token x.
Proof.
  intros Hb. change (attempts d') with (alter (attempt_extend expiry) a (attempts d)).
  rewrite lookup_alter, Hb. case_decide as E; [|by exists x].
  rewrite E, Hb. by exists (attempt_extend expiry x).
Qed.

Lemma touch_attempt_inv b x' : attempts d' !! b = Some x' → ∃ x, attempts d !! b = Some x ∧
  at_job_id x' = at_job_id x ∧ attempt_number x' = attempt_number x ∧ ended_at x' = ended_at x
  ∧ outcome x' = outcome x ∧ attempt_id x' = attempt_id x ∧ lease_token x' = lease_token x.
Proof.
  change (attempts d') with (alter (attempt_extend expiry) a (attempts d)).
  rewrite lookup_alter. case_decide as E; intros Hb; [|by exists x'].
  rewrite E in Hb. apply fmap_Some in Hb as (x & ? & ->). by exists x.
Qed.

Lemma touch_job j' : jobs d' !! j' =
  if decide (j = j') then Some (row_touch now r) else jobs d !! j'.
Proof.
  change (jobs d') with (alter (row_touch now) j (jobs d)). rewrite lookup_alter.
  case_decide as E; [|done]. by rewrite Hr.
Qed.

Lemma touch_job_ok j' r0 r1 : job_ok d j' r0 →
  jr_id r1 = jr_id r0 → jr_policy r1 = jr_policy r0 → jr_priority r1 = jr_priority r0 →
  jr_attempt_count r1 = jr_attempt_count r0 → jr_cancelled r1 = jr_cancelled r0 →
  jr_status r1 = jr_status r0 → jr_active r1 = jr_active r0 → job_ok d' j' r1.
Proof.
  intros [Hid Hpol Hprio Hcnt Hcan Hkey Hidle Hlive Hatts Hhist] E1 E2 E3 E4 E5 E6 E7.
  split; rewrite ?E1, ?E2, ?E3, ?E4, ?E5, ?E6, ?E7; try done.
  - intros (b & x & Hb & Hx & Hj & He & Hn)%Hlive.
    destruct (touch_attempt _ _ Hx) as (x' & Hx' & E8 & E9 & E10 & _).
    exists b, x'. by rewrite E8, E9, E10.
  - intros n (b & x & Hx & Hj & Hn)%Hatts.
    destruct (touch_attempt _ _ Hx) as (x' & Hx' & E8 & E9 & _). exists b, x'. by rewrite E8, E9.
Qed.

Lemma touch_inv : Inv d'.
Proof.
  split.
  - intros j' r0. rewrite touch_job. case_decide as E; [intros [= <-]; rewrite <-E|intros Hr0].
    + by eapply touch_job_ok; [by apply (inv_job _ HI _ _ Hr)|..].
    + by eapply touch_job_ok; [by apply (inv_job _ HI _ _ Hr0)|..].
  - intros b x' (x & Hx & E1 & E2 & E3 & E4 & E5 & E6)%touch_attempt_inv.
    destruct (inv_attempt _ HI _ _ Hx) as [Hid Hout (r0 & Hr0 & Hn)].
    split; rewrite ?E1, ?E2, ?E3, ?E4, ?E5; try done.
    rewrite touch_job. case_decide as E; [|by exists r0].
    rewrite <-E in Hr0. assert (r0 = r) as -> by congruence. by eexists.
  - intros b c x' y' (x & Hx & E1 & E2 & _ & _ & _ & E3)%touch_attempt_inv
      (y & Hy & E4 & E5 & _ & _ & _ & E6)%touch_attempt_inv Hc.
    apply (inv_unique _ HI _ _ _ _ Hx Hy). revert Hc. unfold attempt_conflict.
    by rewrite E1, E2, E3, E4, E5, E6.
  - intros k j' t Hk. destruct (inv_key _ HI _ _ _ Hk) as [Ht Hj Hu]. split; [done| |done].
    rewrite touch_job. case_decide; [by eexists|done].
  - intros j' o Ho. destruct (inv_output _ HI _ _ Ho) as (r0 & Hr0 & Hc).
    rewrite touch_job. case_decide as E; [|by exists r0].
    rewrite <-E in Hr0. assert (r0 = r) as -> by congruence. by eexists.
  - intros j' o Ho. destruct (inv_outbox _ HI _ _ Ho) as (Hp & Ht & x & Hx & Hj & Hc).
    destruct (touch_attempt _ _ Hx) as (x' & Hx' & E1 & _ & _ & E2 & _).
    split_and!; [done..|]. exists x'. by rewrite E1, E2.
  - intros j'. rewrite touch_job. case_decide; [done|]. apply HI.
Qed.
End Touch.

Lemma output_inv d j r v : Inv d → jobs d !! j = Some r → jr_status r = completed →
  Inv (set_outputs <[j := v]> d).
Proof.
  intros HI Hr Hc. destruct HI as [Hj Ha Hu Hk Ho Hb Hn]. split; try done.
  - intros j' r0 []%Hj. by split.
  - intros a att []%Ha. by split.
  - intros k j' t []%Hk. by split.
  - intros j' o. simpl. rewrite lookup_insert. case_decide as E; [|apply Ho].
    intros _. exists r. by rewrite <-E.
  - intros j' o ([p Hp] & ? & ?)%Hb. simpl. rewrite lookup_insert.
    case_decide; split_and!; try done; by eexists.
Qed.

Lemma outbox_inv d j a att t : Inv d →
  is_Some (outputs d !! j) → is_Some (job_tasks d !! j) →
  attempts d !! a = Some att → at_job_id att = j → outcome att = Some o_completed →
  Inv (set_outbox <[j := mk_outbox a t None]> d).
Proof.
  intros [Hj Ha Hu Hk Ho Hb Hn] Hout Ht Hatt Hja Hc. split; try done.
  - intros j' r0 []%Hj. by split.
  - intros x y []%Ha. by split.
  - intros k j' t' []%Hk. by split.
  - intros j' o. simpl. rewrite lookup_insert. case_decide as E; [|apply Hb].
    intros [= <-]. simpl. rewrite <-E. split_and!; [done..|]. by exists att.
Qed.

Lemma acknowledge_inv d j now : Inv d → Inv (acknowledge_completion j now d).2.
Proof.
  intros [Hj Ha Hu Hk Ho Hb Hn]. split; try done.
  - intros j' r0 []%Hj. by split.
  - intros x y []%Ha. by split.
  - intros k j' t' []%Hk. by split.
  - intros j' o. simpl. rewrite lookup_alter. case_decide as E; [|apply Hb].
    rewrite E. intros (o0 & Ho0 & ->)%fmap_Some. apply Hb in Ho0. by destruct (ob_published o0).
Qed.
