(* ===== verification/JobEffects.v ===== *)
(** What each method of the job store does: for every call, the tables it
    leaves and the value or exception it produces. The lemmas here are the
    interface the theorems of [JobTheorems] and the clients of the store
    (worker, coordinator, completion publisher) reason with. *)

From S2P Require Import Prelude.
From S2P Require Import PyStr.
From S2P Require Import PyTime.
From S2P Require Import Json.
From S2P Require Import Contracts.
From S2P Require Import JobRepository.
From S2P Require Import JobInvariant.
Open Scope Z_scope.

(** ** Control flow *)

Lemma return_job_state j d res d' : return_job j d = (res, d') → d' = d.
Proof. unfold return_job. intros. mcrunch; done. Qed.

(** A transaction followed by a read: it either commits, or leaves the tables alone. *)
Lemma commit_or_not {A} (m : M db unit) (k : M db A) d res d' :
  (∀ s r s', k s = (r, s') → s' = s) →
  (transaction m;; k) d = (res, d') →
  (m d = (Ok tt, d') ∧ k d' = (res, d')) ∨ (d' = d ∧ ∃ e, res = Raise e ∧ (m d).1 = Raise e).
Proof.
  intros Hk. unfold mbind, M_bind, transaction.
  destruct (m d) as [[[]|e] d1] eqn:E; intros H; simplify_eq.
  - left. pose proof (Hk _ _ _ H) as ->. done.
  - right. split; [done|]. by eexists.
Qed.

Definition close_own (now : time) (o : AttemptOutcome) (x : ExecutionAttempt) : ExecutionAttempt :=
  attempt_close now o (failure_kind x) (error_code x) (error x) (output_ref x) x.

Lemma close_own_closes now o : closes (close_own now o).
Proof. apply (attempt_close_closes now o failure_kind error_code error output_ref). Qed.

Lemma close_by_id_eq a now o d : close_by_id a now o d =
  (Ok tt, set_attempts (λ m, match a with Some a => alter (close_own now o) a m | None => m end) d).
Proof. by destruct a, d. Qed.

Lemma attempt_close_open now o k c e u x : ended_at x = None →
  attempt_close now o k c e u x =
    mk_Attempt (attempt_id x) (at_job_id x) (attempt_number x) (worker_id x) (input_ref x)
      (lease_token x) (lease_expires_at x) (started_at x) (Some now) (Some o) k c e u.
Proof. intros H. unfold attempt_close. by rewrite bool_decide_eq_true_2. Qed.

Lemma close_not_done now o k c e u x (P : Prop) : o ≠ o_completed → ended_at x = None →
  outcome (attempt_close now o k c e u x) = Some o_completed → P.
Proof. intros Ho Hx. rewrite attempt_close_open by done. simpl. congruence. Qed.

(** Run a successful computation backwards, step by step, keeping the initial
    state's name. *)
Ltac minv :=
  repeat match goal with
  | H : (_ ≫= _) _ = (Ok _, _) |- _ => apply mbind_ok in H as (? & ? & ? & H)
  | H : mguard ?b _ _ = (Ok _, _) |- _ =>
      unfold mguard, mlift, rguard in H; destruct b eqn:?; [|discriminate H];
      first [injection H as <- <- | injection H as <-]
  | H : mlift _ _ = (Ok _, _) |- _ => unfold mlift in H; injection H as H <-
  | H : mget _ = (Ok _, _) |- _ => unfold mget in H; injection H as <- <-
  | H : mmodify _ _ = (Ok _, _) |- _ => unfold mmodify in H;
      first [injection H as <- <- | injection H as <-]
  | H : mret _ _ = (Ok _, _) |- _ => unfold mret, M_ret in H;
      first [injection H as <- <- | injection H as <-]
  | H : record_transition _ _ _ _ _ _ = (Ok _, _) |- _ => unfold record_transition in H
  | H : close_by_id _ _ _ _ = (Ok _, _) |- _ => rewrite close_by_id_eq in H;
      first [injection H as <- <- | injection H as <-]
  | H : mraise _ _ = (Ok _, _) |- _ => discriminate H
  end.

(** ** The claim query *)

Lemma elem_of_joined d k r :
  (k, r) ∈ joined_rows d ↔ ∃ j, jobs d !! j = Some r ∧ key_of d j = Some k.
Proof.
  unfold joined_rows. rewrite list_elem_of_omap. split.
  - intros ([j r0] & Hin & H). apply elem_of_map_to_list in Hin. simpl in H.
    destruct (key_of d j) eqn:E; simplify_eq/=. eauto.
  - intros (j & Hj & Hk). exists (j, r). rewrite elem_of_map_to_list. simpl. by rewrite Hk.
Qed.

Lemma elem_of_joined_rows d r : Inv d →
  r ∈ (snd <$> joined_rows d) ↔ jobs d !! jr_id r = Some r.
Proof.
  intros HI. rewrite list_elem_of_fmap. split.
  - intros ([k r0] & -> & (j & Hj & _)%elem_of_joined). simpl.
    by rewrite (jo_id _ _ _ (inv_job _ HI _ _ Hj)).
  - intros Hr. destruct (key_of_job _ _ _ HI Hr) as (k & t & Hk & _).
    exists (k, r). split; [done|]. apply elem_of_joined. eauto.
Qed.

Lemma claim_leb_total a b : claim_leb a b = true ∨ claim_leb b a = true.
Proof. unfold claim_leb. lia. Qed.

Lemma claim_leb_trans a b c :
  claim_leb a b = true → claim_leb b c = true → claim_leb a c = true.
Proof. unfold claim_leb. lia. Qed.

Lemma claim_candidate_Some now d r : Inv d → claim_candidate now d = Some r →
  jobs d !! jr_id r = Some r ∧ claimable now r = true ∧
  ∀ j r', jobs d !! j = Some r' → claimable now r' = true → claim_leb r r' = true.
Proof.
  intros HI. unfold claim_candidate.
  destruct (py_sorted _ _) as [|r0 l] eqn:E; intros [= ->].
  apply py_sorted_head in E as [Hin Hmin]; [|apply claim_leb_total|apply claim_leb_trans].
  apply list_elem_of_filter in Hin as [Hc Hin]. rewrite elem_of_joined_rows in Hin by done.
  split_and!; [done..|]. intros j r' Hj Hc'. apply Hmin, list_elem_of_filter. split; [done|].
  rewrite elem_of_joined_rows by done. by rewrite (jo_id _ _ _ (inv_job _ HI _ _ Hj)).
Qed.

Lemma claim_candidate_None now d j r : Inv d → claim_candidate now d = None →
  jobs d !! j = Some r → claimable now r = false.
Proof.
  intros HI. unfold claim_candidate. destruct (py_sorted _ _) as [|r0 l] eqn:E; [|done].
  intros _ Hj. apply py_sorted_nil in E. apply not_true_iff_false. intros Hc.
  assert (Hin : r ∈ filter (λ r, claimable now r = true) (snd <$> joined_rows d)).
  { apply list_elem_of_filter. split; [done|]. rewrite elem_of_joined_rows by done.
    by rewrite (jo_id _ _ _ (inv_job _ HI _ _ Hj)). }
  rewrite E in Hin. by apply elem_of_nil in Hin.
Qed.

Lemma claimable_iff now r : claimable now r = true ↔
  jr_status r = queued ∧ jr_available r <= now ∧ jr_attempt_count r < max_attempts (jr_policy r).
Proof. unfold claimable. rewrite !andb_true_iff, bool_decide_eq_true, Z.leb_le, Z.ltb_lt. tauto. Qed.

(** ** claim *)

Lemma insert_attempt_ok a d u d' : insert_attempt a d = (Ok u, d') →
  attempts d !! attempt_id a = None ∧ is_Some (jobs d !! at_job_id a)
  ∧ (∀ b x, attempts d !! b = Some x → attempt_conflict a x = false)
  ∧ d' = set_attempts <[attempt_id a := a]> d.
Proof.
  unfold insert_attempt. intros H. minv. reflect. split_and!; try done.
  intros b y Hy. match goal with H : existsb _ _ = false |- _ =>
    rewrite existsb_false_iff in H; apply (H (b, y)) end.
  by apply elem_of_map_to_list.
Qed.

Lemma validate_worker_ok w w' :
  validate_worker_id w = Ok w' → w' = strip w ∧ truthy_str (strip w) = true.
Proof. unfold validate_worker_id. intros. by case_match; simplify_eq. Qed.

Lemma validate_attempt_ok a a' : validate_attempt a = Ok a' →
  a' = mk_Attempt (attempt_id a) (at_job_id a) (attempt_number a) (strip (worker_id a))
    (strip (input_ref a)) (lease_token a) (lease_expires_at a) (started_at a) (ended_at a)
    (outcome a) (failure_kind a) (error_code a) (error a) (output_ref a)
  ∧ 1 <= attempt_number a ∧ started_at a < lease_expires_at a.
Proof.
  unfold validate_attempt, validate_terminal_fields. intros H. rok. simpl in *.
  repeat match goal with H : validate_worker_id _ = _ |- _ =>
    apply validate_worker_ok in H as [-> _] end.
  split_and!; [done|by apply Z.leb_le|by apply Z.ltb_lt].
Qed.

(** The attempt a successful claim of [r] creates. *)
Definition claim_attempt (a token : uuid) (w : string) (expiry now : time) (r : job_row) :
    ExecutionAttempt :=
  mk_Attempt a (jr_id r) (jr_attempt_count r + 1) (strip w) (strip (task_ref (jr_task r)))
    token expiry now None None None None None None.

(** The tables after a successful claim. *)
Definition claim_effect (r : job_row) (att : ExecutionAttempt) (now : time) (d : db) : db :=
  add_history (jr_id r) (Some queued) running "claim" now
    (set_attempts <[attempt_id att := att]>
      (set_jobs <[jr_id r := row_claim (attempt_id att) now r]> d)).

Lemma claim_tx_ok fa ft w ls now d o d' : Inv d →
  claim_tx fa ft w ls now d = (Ok o, d') →
  (o = None ∧ d' = d ∧ claim_candidate now d = None)
  ∨ ∃ r expiry, let att := claim_attempt fa ft w expiry now r in
      claim_candidate now d = Some r ∧ o = Some att
      ∧ dt_add now (td_us ls) = Ok expiry ∧ now < expiry
      ∧ attempts d !! fa = None
      ∧ (∀ b x, attempts d !! b = Some x → attempt_conflict att x = false)
      ∧ d' = claim_effect r att now d ∧ Inv d'.
Proof.
  intros HI. unfold claim_tx. intros H. minv.
  destruct (claim_candidate now d) as [r|] eqn:Hc; [right|left; by minv].
  destruct (claim_candidate_Some _ _ _ HI Hc) as (Hr & (Hq & Hav & Hmax)%claimable_iff & _).
  minv. rewrite Hr in *. rewrite bool_decide_eq_true_2 in H by done. minv.
  match goal with H : validate_attempt _ = _ |- _ =>
    apply validate_attempt_ok in H as (-> & _ & Hlt) end.
  match goal with H : insert_attempt _ _ = _ |- _ =>
    apply insert_attempt_ok in H as (Hf & _ & Hu & ->) end. simpl in *.
  eexists r, _. split_and!; try done. apply start_inv; try done.
Qed.

Lemma claim_cases fa ft w ls now d res d' : Inv d →
  claim fa ft w ls now d = (res, d') →
  (d' = d ∧ ∃ e, res = Raise e)
  ∨ (d' = d ∧ res = Ok None ∧ claim_candidate now d = None)
  ∨ (∃ r expiry k, let att := claim_attempt fa ft w expiry now r in
      claim_candidate now d = Some r
      ∧ dt_add now (td_us ls) = Ok expiry ∧ now < expiry
      ∧ attempts d !! fa = None
      ∧ (∀ b x, attempts d !! b = Some x → attempt_conflict att x = false)
      ∧ d' = claim_effect r att now d ∧ Inv d' ∧ key_of d' (jr_id r) = Some k
      ∧ res = Ok (Some (job_of k (row_claim fa now r), att))).
Proof.
  intros HI. unfold claim. intros H.
  destruct (negb (Qle_bool ls 0)) eqn:Hls; [|left; mcrunch; eauto].
  unfold mbind, M_bind, transaction, mguard, mlift, rguard in H.
  destruct (claim_tx fa ft w ls now d) as [[o|e] d1] eqn:Htx; [|left; simplify_eq; eauto].
  apply claim_tx_ok in Htx as [(-> & -> & Hc)|(r & ex & Hc & -> & Hex & Hlt & Hf & Hu & -> & HI')];
    [|right; right|done].
  - right; left. unfold mret, M_ret in H. by simplify_eq/=.
  - destruct (return_job_ok (claim_effect r (claim_attempt fa ft w ex now r) now d) (jr_id r)
      (row_claim fa now r)) as (k & Hk & E); [done|by apply lookup_insert_eq|].
    simpl in H. rewrite E in H. unfold mret, M_ret in H. simplify_eq. by exists r, ex, k.
Qed.

(** ** heartbeat *)

Lemma heartbeat_tx_ok j token ls now d att' d' : Inv d →
  heartbeat_tx j token ls now d = (Ok att', d') →
  ∃ att expiry, active_attempt d j token = Some att ∧ now < lease_expires_at att
    ∧ dt_add now (td_us ls) = Ok expiry ∧ att' = attempt_extend expiry att
    ∧ d' = set_jobs (alter (row_touch now) j)
             (set_attempts (alter (attempt_extend expiry) (attempt_id att)) d)
    ∧ Inv d'.
Proof.
  intros HI. unfold heartbeat_tx. intros H. minv.
  destruct (active_attempt d j token) as [att|] eqn:Ha; minv. reflect.
  destruct (active_attempt_Some _ _ _ _ Ha) as (r & a & Hr & _).
  eexists att, _. split_and!; try done. by eapply touch_inv.
Qed.

Lemma heartbeat_cases j token ls now d res d' : Inv d →
  heartbeat j token ls now d = (res, d') →
  (d' = d ∧ ∃ e, res = Raise e)
  ∨ ∃ att expiry, active_attempt d j token = Some att ∧ now < lease_expires_at att
    ∧ dt_add now (td_us ls) = Ok expiry
    ∧ d' = set_jobs (alter (row_touch now) j)
             (set_attempts (alter (attempt_extend expiry) (attempt_id att)) d)
    ∧ Inv d' ∧ res = attempt_from_row (attempt_extend expiry att).
Proof.
  intros HI. unfold heartbeat. intros H.
  destruct (negb (Qle_bool ls 0)) eqn:Hls; [|left; mcrunch; eauto].
  unfold mbind, M_bind, transaction, mguard, mlift, rguard in H.
  destruct (heartbeat_tx j token ls now d) as [[o|e] d1] eqn:Htx; [|left; simplify_eq/=; eauto].
  apply heartbeat_tx_ok in Htx as (att & ex & Ha & Hl & He & -> & -> & HI'); [|done].
  right. exists att, ex. by simplify_eq/=.
Qed.

(** ** Settling a running job *)

Lemma active_attempt_row d j token att : Inv d → active_attempt d j token = Some att →
  ∃ r, jobs d !! j = Some r ∧ jr_status r = running ∧ jr_active r = Some (attempt_id att)
    ∧ attempts d !! attempt_id att = Some att ∧ lease_token att = token
    ∧ at_job_id att = j ∧ ended_at att = None ∧ outcome att = None.
Proof.
  intros HI (r & a & Hr & Ha & Hatt & Hs & Ht & He)%active_attempt_Some.
  destruct (inv_attempt _ HI _ _ Hatt) as [Hid Ho _]. subst a.
  exists r. split_and!; try done; [|tauto].
  destruct (jo_live _ _ _ (inv_job _ HI _ _ Hr) Hs) as (b & y & ? & ? & ? & _). congruence.
Qed.

(** Releasing a running row: a retry, a failure, a completion. *)
Lemma release_settles d j r s now avail : job_ok d j r → jr_status r = running →
  s ∈ [queued; completed; failed] → settles r (row_release s now avail r).
Proof.
  intros H Hr Hs. pose proof (jo_cancel _ _ _ H) as Hc. rewrite Hr in Hc.
  rewrite !elem_of_cons, elem_of_nil in Hs.
  destruct Hs as [->|[->|[->|[]]]]; split; simpl; try done; rewrite ?Hc; try done;
    rewrite Hr; simpl; set_solver.
Qed.

Lemma cancel_settles d j r now : job_ok d j r → jr_status r = queued ∨ jr_status r = running →
  settles r (row_cancel now r).
Proof.
  intros H Hr. split; simpl; try done; [].
  destruct Hr as [-> | ->]; simpl; set_solver.
Qed.

(** [alter] through the status test of the UPDATE's WHERE clause. *)
Lemma guarded_release (m : gmap uuid job_row) j r f :
  m !! j = Some r → jr_status r = running →
  alter (λ r, if bool_decide (jr_status r = running) then f r else r) j m = <[j := f r]> m.
Proof.
  intros Hr Hs. rewrite (alter_as_insert _ _ _ _ Hr). by rewrite bool_decide_eq_true_2.
Qed.

(** ** complete *)

Definition completion_tables (j a : uuid) (res : option jdict) (now : time) (d : db) : db :=
  match res with
  | None => d
  | Some res =>
      (if needs_evidence res then set_outbox <[j := mk_outbox a now None]> else λ d, d)
        (set_outputs <[j := (canon (JObj res), now)]> d)
  end.

Lemma insert_outbox_ok j a now d u d' : insert_outbox j a now d = (Ok u, d') →
  outbox d !! j = None ∧ d' = set_outbox <[j := mk_outbox a now None]> d.
Proof. unfold insert_outbox. intros H. minv. reflect. done. Qed.

Lemma persist_result_ok j a res now d u d' : outputs d !! j = None →
  persist_result j a res now d = (Ok u, d') →
  d' = completion_tables j a res now d
  ∧ (∀ r, res = Some r → needs_evidence r = true → is_Some (job_tasks d !! j)).
Proof.
  intros Ho. unfold persist_result. destruct res as [res|]; intros H; [|by minv].
  minv. rewrite Ho in *. unfold completion_tables.
  assert (E : set_outputs (λ o, match o !! j with
    | Some _ => o | None => <[j := (canon (JObj res), now)]> o end) d
    = set_outputs <[j := (canon (JObj res), now)]> d) by (unfold set_outputs; by rewrite Ho).
  rewrite E in H. destruct (needs_evidence res) eqn:Hn; minv.
  - apply insert_outbox_ok in H as [_ ->]. reflect. split; [done|]. by intros ? [= <-] _.
  - split; [done|]. intros ? [= <-]. congruence.
Qed.

(** The tables after a completion under the lease [att]. *)
Definition complete_effect (j : uuid) (r : job_row) (att : ExecutionAttempt) (out : string)
    (res : option jdict) (now : time) (d : db) : db :=
  completion_tables j (attempt_id att) res now
    (settle j running (row_release completed now (jr_available r) r) (Some (attempt_id att))
      (attempt_close now o_completed (failure_kind att) (error_code att) None (Some out))
      "completed" now d).

Lemma close_now_closes now o k c e u : closes (attempt_close now o k c e u).
Proof. apply (attempt_close_closes now o (λ _, k) (λ _, c) (λ _, e) (λ _, u)). Qed.

Lemma completion_tables_inv j r a att res now d : Inv d →
  jobs d !! j = Some r → jr_status r = completed →
  (∀ x, res = Some x → needs_evidence x = true → is_Some (job_tasks d !! j)) →
  attempts d !! a = Some att → at_job_id att = j → outcome att = Some o_completed →
  Inv (completion_tables j a res now d).
Proof.
  intros HI Hr Hc Ht Ha Hj Ho. unfold completion_tables. destruct res as [res|]; [|done].
  assert (Inv (set_outputs <[j := (canon (JObj res), now)]> d)) as HI' by (by eapply output_inv).
  destruct (needs_evidence res) eqn:Hn; [|done].
  eapply outbox_inv; try done.
  - simpl. rewrite lookup_insert_eq. by eexists.
  - by eapply Ht.
Qed.

Lemma complete_effect_inv d j token r att out res now : Inv d → jobs d !! j = Some r →
  active_attempt d j token = Some att →
  (∀ x, res = Some x → needs_evidence x = true → is_Some (job_tasks d !! j)) →
  Inv (complete_effect j r att out res now d).
Proof.
  intros HI Hr Ha Ht.
  destruct (active_attempt_row _ _ _ _ HI Ha) as (r0 & Hr0 & Hs & Hact & Hatt & _ & Hj & He & _).
  assert (r0 = r) as -> by congruence. pose proof (inv_job _ HI _ _ Hr) as Hjob.
  unfold complete_effect. rewrite <-Hact, <-Hs.
  eapply (completion_tables_inv j (row_release completed now (jr_available r) r));
    [|simpl; by rewrite lookup_insert_eq|done|done| | |].
  - apply settle_inv; [done..| |apply close_now_closes|done].
    eapply release_settles; [done..|]. set_solver.
  - simpl. rewrite Hact. rewrite lookup_alter_eq, Hatt. simpl. by rewrite attempt_close_open.
  - done.
  - done.
Qed.

Lemma complete_tx_ok j token out res now d u d' : Inv d →
  finish_tx j token completed o_completed (Some out) None res now d = (Ok u, d') →
  (d' = d ∧ ∃ r, jobs d !! j = Some r ∧ jr_status r = completed ∧ is_replay d j token (Some out) = true)
  ∨ ∃ r att, jobs d !! j = Some r ∧ active_attempt d j token = Some att
    ∧ now < lease_expires_at att ∧ d' = complete_effect j r att out res now d ∧ Inv d'.
Proof.
  intros HI. unfold finish_tx. intros H. minv.
  destruct (jobs d !! j) as [r|] eqn:Hr; [|by minv].
  destruct (_ && _ && is_replay _ _ _ _) eqn:Hrep.
  { minv. reflect. left. split; [done|]. by exists r. }
  minv. destruct (active_attempt d j token) as [att|] eqn:Ha; minv. reflect. right.
  destruct (active_attempt_row _ _ _ _ HI Ha) as (r0 & Hr0 & Hs & _).
  assert (r0 = r) as -> by congruence.
  match goal with H : persist_result _ _ _ _ _ = _ |- _ =>
    apply persist_result_ok in H as [-> Htask] end.
  2: { simpl. destruct (outputs d !! j) as [o|] eqn:Hout; [|done].
       destruct (inv_output _ HI _ _ Hout) as (r1 & Hr1 & Hc). congruence. }
  exists r, att.
  match goal with |- _ ∧ _ ∧ _ ∧ ?d1 = ?d2 ∧ _ => assert (d1 = d2) as E end.
  { unfold complete_effect, settle, add_history, completion_tables.
    destruct res as [res|]; [destruct (needs_evidence res)|];
      unfold set_transitions, set_jobs, set_outbox, set_outputs, set_attempts; simpl;
      rewrite (guarded_release _ _ _ _ Hr Hs), Hs; done. }
  split_and!; try done. rewrite E. by eapply complete_effect_inv.
Qed.

Lemma complete_cases j token out res now d x d' : Inv d →
  complete j token out res now d = (x, d') →
  (d' = d ∧ ∃ e, x = Raise e
     ∧ (finish_tx j token completed o_completed (Some out) None res now d).1 = Raise e)
  ∨ (d' = d ∧ ∃ r k, jobs d !! j = Some r ∧ jr_status r = completed
       ∧ is_replay d j token (Some out) = true ∧ key_of d j = Some k ∧ x = Ok (job_of k r))
  ∨ ∃ r att k, jobs d !! j = Some r ∧ active_attempt d j token = Some att
    ∧ now < lease_expires_at att ∧ d' = complete_effect j r att out res now d ∧ Inv d'
    ∧ key_of d' j = Some k ∧ x = Ok (job_of k (row_release completed now (jr_available r) r)).
Proof.
  intros HI H. unfold complete, finish in H.
  apply commit_or_not in H as [[Htx Hret]|[-> (e & -> & He)]]; [|left; eauto|apply return_job_state].
  apply complete_tx_ok in Htx as [(-> & r & Hr & Hc & Hrep)|(r & att & Hr & Ha & Hl & -> & HI')];
    [| |done].
  - right; left. destruct (return_job_ok _ _ _ HI Hr) as (k & Hk & E).
    split; [done|]. exists r, k. rewrite E in Hret. by simplify_eq.
  - right; right.
    assert (Hr' : jobs (complete_effect j r att out res now d) !! j
                  = Some (row_release completed now (jr_available r) r)).
    { unfold complete_effect, completion_tables.
      destruct res as [res|]; [destruct (needs_evidence res)|]; simpl; by rewrite lookup_insert_eq. }
    destruct (return_job_ok _ _ _ HI' Hr') as (k & Hk & E).
    exists r, att, k. rewrite E in Hret. by simplify_eq.
Qed.

(** ** record_failure *)

Definition will_retry (code : string) (retryable : bool) (r : job_row) : bool :=
  retryable && bool_decide (code ∈ retryable_outcomes (jr_policy r))
  && (jr_attempt_count r <? max_attempts (jr_policy r)).

Definition failure_effect (j : uuid) (r : job_row) (att : ExecutionAttempt)
    (err code kind : string) (retry : bool) (avail now : time) (d : db) : db :=
  settle j running (row_release (if retry then queued else failed) now avail r)
    (Some (attempt_id att))
    (attempt_close now o_failed (Some kind) (Some code) (Some err) (output_ref att))
    ((if retry then "retry:" else "failed:") +:+ code) now d.

Lemma failure_cases j token err code kind retryable now d x d' : Inv d →
  record_failure j token err code kind retryable now d = (x, d') →
  (d' = d ∧ ∃ e, x = Raise e
     ∧ (record_failure_tx j token err code kind retryable now d).1 = Raise e)
  ∨ ∃ r att delay avail k, let retry := will_retry code retryable r in
    jobs d !! j = Some r ∧ active_attempt d j token = Some att
    ∧ now < lease_expires_at att
    ∧ backoff (jr_policy r) (jr_attempt_count r) = Ok delay
    ∧ (if retry then dt_add now (td_us delay) else Ok now) = Ok avail
    ∧ d' = failure_effect j r att err code kind retry avail now d ∧ Inv d'
    ∧ key_of d' j = Some k
    ∧ x = Ok (job_of k (row_release (if retry then queued else failed) now avail r)).
Proof.
  intros HI H. unfold record_failure in H.
  apply commit_or_not in H as [[Htx Hret]|[-> (e & -> & He)]]; [|left; eauto|apply return_job_state].
  right. unfold record_failure_tx in Htx. minv.
  destruct (jobs d !! j) as [r|] eqn:Hr; minv.
  destruct (active_attempt d j token) as [att|] eqn:Ha; minv. reflect.
  destruct (active_attempt_row _ _ _ _ HI Ha) as (r0 & Hr0 & Hs & Hact & _).
  assert (r0 = r) as -> by congruence. fold (will_retry code retryable r) in *.
  match goal with H : backoff _ _ = Ok ?q |- _ => rename q into delay end.
  match goal with H : _ = Ok ?t |- _ =>
    lazymatch type of t with Z => rename t into avail end end.
  set (retry := will_retry code retryable r) in *.
  match type of Hret with _ ?d1 = _ =>
    assert (E : d1 = failure_effect j r att err code kind retry avail now d) end.
  { unfold failure_effect, settle, add_history, set_transitions, set_jobs, set_attempts. simpl.
    by rewrite (guarded_release _ _ _ _ Hr Hs). }
  rewrite E in *. clear E.
  assert (HI' : Inv (failure_effect j r att err code kind retry avail now d)).
  { unfold failure_effect. rewrite <-Hact, <-Hs.
    apply settle_inv; [done..| |apply close_now_closes|intros y; by apply close_not_done].
    eapply release_settles; [by apply HI|done|]. destruct retry; set_solver. }
  destruct (return_job_ok _ j (row_release (if retry then queued else failed) now avail r) HI')
    as (k & Hk & Eret); [simpl; by rewrite lookup_insert_eq|].
  exists r, att, delay, avail, k. rewrite Eret in Hret. injection Hret as <-. by split_and!.
Qed.

(** ** cancel *)

Definition cancel_effect (j : uuid) (r : job_row) (now : time) (d : db) : db :=
  settle j (jr_status r) (row_cancel now r) (jr_active r) (close_own now o_cancelled)
    "cancel" now d.

Lemma cancel_cases j now d x d' : Inv d → cancel j now d = (x, d') →
  (d' = d ∧ ∃ e, x = Raise e ∧ (cancel_tx j now d).1 = Raise e)
  ∨ (d' = d ∧ ∃ r k, jobs d !! j = Some r ∧ jr_status r = cancelled ∧ x = Ok (job_of k r))
  ∨ ∃ r k, jobs d !! j = Some r ∧ (jr_status r = queued ∨ jr_status r = running)
    ∧ d' = cancel_effect j r now d ∧ Inv d' ∧ key_of d' j = Some k
    ∧ x = Ok (job_of k (row_cancel now r)).
Proof.
  intros HI H. unfold cancel in H.
  apply commit_or_not in H as [[Htx Hret]|[-> (e & -> & He)]]; [|left; eauto|apply return_job_state].
  right. unfold cancel_tx in Htx. minv.
  destruct (jobs d !! j) as [r|] eqn:Hr; [|by minv].
  case_bool_decide as Hc.
  { minv. left. destruct (return_job_ok _ _ _ HI Hr) as (k & _ & E).
    rewrite E in Hret. injection Hret as <-. eauto 10. }
  right. pose proof (inv_job _ HI _ _ Hr) as Hj.
  assert (E : (if bool_decide (jr_status r = running)
               then close_by_id (jr_active r) now o_cancelled else mret tt)
              = close_by_id (jr_active r) now o_cancelled).
  { case_bool_decide as Hrun; [done|]. by rewrite (jo_idle _ _ _ Hj Hrun). }
  rewrite E in Htx. clear E. minv.
  match goal with H : validate_job_transition _ _ = Ok ?u |- _ =>
    destruct u; apply transition_ok in H; rename H into Hedge end.
  assert (Hs : jr_status r = queued ∨ jr_status r = running)
    by (destruct (jr_status r); simpl in *; set_solver).
  match type of Hret with _ ?d1 = _ => assert (E : d1 = cancel_effect j r now d) end.
  { unfold cancel_effect, settle, add_history, set_transitions, set_jobs, set_attempts. simpl.
    by rewrite (alter_as_insert _ _ _ _ Hr). }
  rewrite E in *. clear E.
  assert (HI' : Inv (cancel_effect j r now d)).
  { unfold cancel_effect. apply settle_inv; [done..|by eapply cancel_settles|apply close_own_closes|].
    intros y. by apply close_not_done. }
  destruct (return_job_ok _ j (row_cancel now r) HI') as (k & Hk & Eret);
    [simpl; by rewrite lookup_insert_eq|].
  exists r, k. rewrite Eret in Hret. injection Hret as <-. by split_and!.
Qed.

(** ** reclaim_expired *)

(** The row a reclaimed job gets. *)
Definition reclaimed_row (now : time) (r : job_row) : result job_row :=
  let is_terminal := max_attempts (jr_policy r) <=? jr_attempt_count r in
  delay ← backoff (jr_policy r) (jr_attempt_count r);
  avail ← (if is_terminal then Ok now else dt_add now (td_us delay));
  Ok (row_release (if is_terminal then failed else queued) now avail r).

Lemma reclaimed_row_ok now r r' : reclaimed_row now r = Ok r' → ∃ avail,
  r' = row_release (if max_attempts (jr_policy r) <=? jr_attempt_count r then failed else queued)
         now avail r.
Proof. unfold reclaimed_row. intros H. rok. eauto. Qed.

Definition reclaim_effect (r r' : job_row) (now : time) (d : db) : db :=
  settle (jr_id r) (jr_status r) r' (jr_active r) (close_own now o_lease_expired)
    "lease_expired" now d.

Lemma reclaim_one_ok now r d u d' : Inv d → jobs d !! jr_id r = Some r → jr_status r = running →
  reclaim_one now r d = (Ok u, d') →
  ∃ r', reclaimed_row now r = Ok r' ∧ d' = reclaim_effect r r' now d ∧ Inv d'.
Proof.
  intros HI Hr Hs. unfold reclaim_one. intros H. minv.
  set (tgt := if max_attempts (jr_policy r) <=? jr_attempt_count r then failed else queued) in *.
  match goal with H : backoff _ _ = Ok _ |- _ => rename H into Hb end.
  match goal with H : (if _ <=? _ then _ else _) = Ok ?t |- _ =>
    rename H into Hav; rename t into avail end.
  exists (row_release tgt now avail r). split_and!.
  - unfold reclaimed_row. rewrite Hb. unfold mbind, rbind. by rewrite Hav.
  - unfold reclaim_effect, settle, add_history, set_transitions, set_jobs, set_attempts. simpl.
    by rewrite (alter_as_insert _ _ _ _ Hr), Hs.
  - match goal with |- Inv ?d1 => assert (E : d1 = reclaim_effect r
      (row_release tgt now avail r) now d) end.
    { unfold reclaim_effect, settle, add_history, set_transitions, set_jobs, set_attempts. simpl.
      by rewrite (alter_as_insert _ _ _ _ Hr), Hs. }
    rewrite E. unfold reclaim_effect. apply settle_inv; [done..| |apply close_own_closes|intros y; by apply close_not_done].
    eapply release_settles; [by apply HI|done|]. unfold tgt. destruct (_ <=? _); set_solver.
Qed.

(** The rest of a pass over distinct running rows: each is reclaimed, nothing else moves. *)
Lemma reclaim_all_ok now rows : ∀ d u d', Inv d →
  NoDup (jr_id <$> rows) →
  (∀ r, r ∈ rows → jobs d !! jr_id r = Some r ∧ jr_status r = running) →
  miter (reclaim_one now) rows d = (Ok u, d') →
  Inv d' ∧ idem d' = idem d ∧ outputs d' = outputs d ∧ job_tasks d' = job_tasks d
  ∧ outbox d' = outbox d
  ∧ (∀ r, r ∈ rows → ∃ r', reclaimed_row now r = Ok r' ∧ jobs d' !! jr_id r = Some r')
  ∧ (∀ j, j ∉ jr_id <$> rows → jobs d' !! j = jobs d !! j)
  ∧ (∀ a, (∀ r, r ∈ rows → jr_active r ≠ Some a) → attempts d' !! a = attempts d !! a).
Proof.
  induction rows as [|r rows IH]; intros d u d' HI Hnd Hrows H; simpl in H.
  { minv. split_and!; try done. intros r Hr. by apply elem_of_nil in Hr. }
  minv. destruct (Hrows r) as [Hr Hs]; [by left|]. simpl in Hnd.
  apply NoDup_cons in Hnd as [Hnin Hnd].
  match goal with H : reclaim_one _ _ _ = _ |- _ =>
    apply reclaim_one_ok in H as (r' & Hr' & -> & HI'); [|done..] end.
  apply IH in H as (HId' & Ek & Eo & Et & Eb & Hdone & Hrest & Hatt); [|done|done|].
  - split_and!; try done.
    + intros r0 [->|Hr0]%elem_of_cons; [|by apply Hdone]. exists r'. split; [done|].
      rewrite Hrest by done. simpl. by rewrite lookup_insert_eq.
    + intros j. rewrite fmap_cons, not_elem_of_cons. intros [Hne Hj]. rewrite Hrest by done.
      simpl. by rewrite lookup_insert_ne.
    + intros a Ha. rewrite Hatt by (intros; apply Ha; by right). simpl.
      destruct (jr_active r) as [b|] eqn:Eb'; [|done].
      rewrite lookup_alter_ne; [done|]. intros ->. apply (Ha r); [by left|done].
  - intros r0 Hr0. destruct (Hrows r0) as [Hj0 Hs0]; [by right|]. split; [|done].
    simpl. rewrite lookup_insert_ne; [done|]. intros E. apply Hnin.
    rewrite E. by apply list_elem_of_fmap_2.
Qed.

Lemma elem_of_expired now d r : Inv d →
  r ∈ expired_rows now d ↔ jobs d !! jr_id r = Some r ∧ lease_expired now d r = true.
Proof.
  intros HI. unfold expired_rows. rewrite list_elem_of_filter, list_elem_of_fmap. split.
  - intros (He & [j r0] & -> & Hin%elem_of_map_to_list). simpl in *.
    by rewrite (jo_id _ _ _ (inv_job _ HI _ _ Hin)).
  - intros [Hr He]. split; [done|]. exists (jr_id r, r). by rewrite elem_of_map_to_list.
Qed.

Lemma expired_rows_NoDup now d : Inv d → NoDup (jr_id <$> expired_rows now d).
Proof.
  intros HI. unfold expired_rows.
  assert (E : jr_id <$> (snd <$> map_to_list (jobs d)) = fst <$> map_to_list (jobs d)).
  { rewrite <-list_fmap_compose. apply list_fmap_ext. intros i [j r] Hin.
    simpl. apply list_elem_of_lookup_2, elem_of_map_to_list in Hin.
    apply (jo_id _ _ _ (inv_job _ HI _ _ Hin)). }
  apply (sublist_NoDup _ (jr_id <$> (snd <$> map_to_list (jobs d)))).
  - rewrite E. apply NoDup_fst_map_to_list.
  - apply fmap_sublist, sublist_filter.
Qed.

Lemma lease_expired_running now d r : lease_expired now d r = true → jr_status r = running.
Proof. unfold lease_expired. intros. reflect. done. Qed.

Lemma reclaim_cases now d x d' : Inv d → reclaim_expired now d = (x, d') →
  (d' = d ∧ ∃ e, x = Raise e)
  ∨ (Inv d' ∧ idem d' = idem d ∧ outputs d' = outputs d ∧ job_tasks d' = job_tasks d
     ∧ outbox d' = outbox d ∧ is_ok x
     ∧ (∀ j r, jobs d !! j = Some r → lease_expired now d r = true →
          ∃ r', reclaimed_row now r = Ok r' ∧ jobs d' !! j = Some r')
     ∧ (∀ j, (∀ r, jobs d !! j = Some r → lease_expired now d r = false) →
          jobs d' !! j = jobs d !! j)
     ∧ (∀ a, (∀ r j, jobs d !! j = Some r → lease_expired now d r = true →
                jr_active r ≠ Some a) → attempts d' !! a = attempts d !! a)).
Proof.
  intros HI. unfold reclaim_expired. intros H.
  unfold mbind at 1, M_bind at 1, transaction in H.
  destruct (reclaim_tx now d) as [[ids|e] d1] eqn:Htx; [right|left; simplify_eq; eauto].
  unfold reclaim_tx in Htx. minv.
  match goal with H : miter _ _ _ = _ |- _ => rename H into Hit end.
  apply reclaim_all_ok in Hit as (HI' & Ek & Eo & Et & Eb & Hdone & Hrest & Hatt);
    [|done|by apply expired_rows_NoDup|].
  2: { intros r [Hr He]%elem_of_expired; [|done]. split; [done|]. by eapply lease_expired_running. }
  unfold mbind, M_bind, mread, mret, M_ret in H.
  rewrite (rmap_total _ _ _ (get_job_total _ HI')) in H. simplify_eq.
  split_and!; try done; [by eexists| | |].
  - intros j r Hr He. pose proof (jo_id _ _ _ (inv_job _ HI _ _ Hr)) as <-.
    apply Hdone, elem_of_expired; done.
  - intros j Hj. apply Hrest. rewrite list_elem_of_fmap. intros (r & -> & Hin).
    apply elem_of_expired in Hin as [Hr He]; [|done]. by rewrite (Hj _ Hr) in He.
  - intros a Ha. apply Hatt. intros r [Hr He]%elem_of_expired; [|done]. by eapply Ha.
Qed.

(** ** enqueue *)

Definition create_effect (r : job_row) (key : string) (task : option TaskContract) (now : time)
    (d : db) : db :=
  add_history (jr_id r) None queued "enqueue" now
    (set_job_tasks (λ m, match task with Some t => <[jr_id r := t]> m | None => m end)
      (set_idem <[key := (jr_id r, now)]> (set_jobs <[jr_id r := r]> d))).

Definition enqueued_row (fresh tid : uuid) (prio : Z) (p : RetryPolicy) (now : time) : job_row :=
  mk_row fresh tid queued prio
    (mk_RetryPolicy (max_attempts p) (backoff_seconds p) (max_backoff_seconds p)
       (py_sorted str_leb (retryable_outcomes p))) 0 None now now now None None.

Lemma insert_job_ok r d u d' : insert_job r d = (Ok u, d') →
  jobs d !! jr_id r = None ∧ d' = set_jobs <[jr_id r := r]> d.
Proof. unfold insert_job. intros H. minv. reflect. done. Qed.

Lemma insert_idem_ok k j now d u d' : insert_idem k j now d = (Ok u, d') →
  idem d !! k = None ∧ d' = set_idem <[k := (j, now)]> d.
Proof. unfold insert_idem. intros H. minv. reflect. done. Qed.

Lemma insert_task_ok j t d u d' : insert_task j t d = (Ok u, d') →
  job_tasks d !! j = None ∧ d' = set_job_tasks <[j := t]> d.
Proof. unfold insert_task. intros H. minv. reflect. done. Qed.

Definition candidate_job (fresh tid : uuid) (key : string) (prio : Z) (p : RetryPolicy)
    (now : time) : Job :=
  mk_Job fresh tid queued prio key p now now now None None.

Lemma create_effect_inv d r key task now : Inv d →
  jobs d !! jr_id r = None → idem d !! key = None → strip key = key ∧ truthy_str key = true →
  policy_ok (jr_policy r) → -100 <= jr_priority r <= 100 → jr_status r = queued →
  jr_attempt_count r = 0 → jr_active r = None → jr_cancelled r = None →
  Inv (create_effect r key task now d).
Proof.
  intros. unfold create_effect. apply create_inv; try done.
  intros j Hj. destruct task; [|done]. rewrite lookup_insert. case_decide; [by eexists|done].
Qed.

Lemma enqueue_cases fresh tid task key prio policy now d x d' : Inv d →
  enqueue fresh tid task key prio policy now d = (x, d') →
  let p := or_else policy default_retry_policy in
  (d' = d ∧ ∃ e, x = Raise e)
  ∨ (d' = d ∧ ∃ j t r, idem d !! strip key = Some (j, t) ∧ jobs d !! j = Some r
       ∧ x = Ok (job_of (strip key) r))
  ∨ (idem d !! strip key = None ∧ jobs d !! fresh = None
     ∧ validate_backoff p = Ok p ∧ -100 <= prio <= 100 ∧ truthy_str (strip key) = true
     ∧ match task with Some t => t_task_id t = tid | None => True end
     ∧ d' = create_effect (enqueued_row fresh tid prio p now) (strip key) task now d ∧ Inv d'
     ∧ x = Ok (candidate_job fresh tid (strip key) prio p now)).
Proof.
  intros HI H p. unfold enqueue in H. fold p in H.
  unfold mbind at 1, M_bind at 1, mguard, mlift, rguard in H.
  destruct (match task with Some t => bool_decide (t_task_id t = tid) | None => true end) eqn:Ht;
    [|left; simplify_eq; eauto].
  unfold mbind at 1, M_bind at 1 in H.
  destruct (validate_job _) as [c|e] eqn:Hc; [|left; simplify_eq; eauto].
  apply validate_job_ok in Hc as (Hprio & Hkey & Hpol & _ & ->). simpl in *.
  unfold transaction in H.
  match type of H with (match ?t with _ => _ end) = _ => destruct t as [[j|e] d1] eqn:Htx end;
    [right|left; simplify_eq; eauto]. simplify_eq.
  unfold mbind at 1, M_bind at 1, mget in Htx. simpl in Htx.
  destruct (idem d !! strip key) as [[j0 t]|] eqn:Hk.
  - left. destruct (inv_key _ HI _ _ _ Hk) as [[Hs Htk] [r Hr] _].
    rewrite Hr, (job_from_row_ok _ _ _ _ (inv_job _ HI _ _ Hr) Hs Htk) in Htx.
    unfold mlift in Htx. simplify_eq. split; [done|]. by exists j0, t, r.
  - right. minv.
    match goal with H : insert_job _ _ = _ |- _ => apply insert_job_ok in H as [Hj ->] end.
    match goal with H : insert_idem _ _ _ _ = _ |- _ => apply insert_idem_ok in H as [_ ->] end.
    match goal with |- context [?d1 = create_effect ?r ?k ?t ?n ?d0] =>
      assert (E : d1 = create_effect r k t n d0) end.
    { destruct task as [t|]; [|by minv].
      match goal with H : insert_task _ _ _ = _ |- _ => apply insert_task_ok in H as [_ ->] end.
      done. }
    assert (Ht' : match task with Some t => t_task_id t = tid | None => True end)
      by (destruct task; [by apply bool_decide_eq_true in Ht|done]).
    split; [done|]. split; [done|]. split; [done|]. split; [done|]. split; [done|].
    split; [done|]. split; [done|]. split; [|done].
    + rewrite E. apply validate_backoff_ok in Hpol as (_ & ? & ? & ?).
      apply create_effect_inv; try done. split; [apply strip_idemp|done].
Qed.
