(* ===== verification/JobTheorems.v ===== *)
(** The guarantees of the durable job store: what every reachable database
    satisfies, that leases are exclusive and stale workers inert, that claims
    follow priority, that retries are bounded and backed off, and that
    enqueueing and completing are idempotent. *)

From S2P Require Import Prelude.
From S2P Require Import PyStr.
From S2P Require Import PyTime.
From S2P Require Import Json.
From S2P Require Import Contracts.
From S2P Require Import JobRepository.
From S2P Require Import JobInvariant.
From S2P Require Import JobEffects.
Open Scope Z_scope.

(** ** Reachable databases *)

(** One call of a public method that writes; identifiers are what uuid4() drew. *)
Inductive op :=
  | Enqueue (fresh tid : uuid) (task : option TaskContract) (key : string) (prio : Z)
      (policy : option RetryPolicy)
  | Claim (fresh_attempt fresh_token : uuid) (worker : string) (lease_seconds : Q)
  | Heartbeat (j token : uuid) (lease_seconds : Q)
  | Complete (j token : uuid) (out : string) (res : option jdict)
  | RecordFailure (j token : uuid) (err code kind : string) (retryable : bool)
  | Cancel (j : uuid)
  | ReclaimExpired
  | Acknowledge (j : uuid).

Definition discard {A} (r : result A * db) : result unit * db :=
  (match r.1 with Ok _ => Ok tt | Raise e => Raise e end, r.2).

(** The outcome of a call at time [now], its return value dropped. *)
Definition exec (o : op) (now : time) (d : db) : result unit * db :=
  match o with
  | Enqueue f t task k p pol => discard (enqueue f t task k p pol now d)
  | Claim fa ft w ls => discard (claim fa ft w ls now d)
  | Heartbeat j tok ls => discard (heartbeat j tok ls now d)
  | Complete j tok out res => discard (complete j tok out res now d)
  | RecordFailure j tok e c k b => discard (record_failure j tok e c k b now d)
  | Cancel j => discard (cancel j now d)
  | ReclaimExpired => discard (reclaim_expired now d)
  | Acknowledge j => discard (acknowledge_completion j now d)
  end.

Definition run (o : op) (now : time) (d : db) : db := (exec o now d).2.

Inductive reachable : db → Prop :=
  | reach_empty : reachable empty_db
  | reach_step d o now : reachable d → reachable (run o now d).

(** Any later database. *)
Inductive later : db → db → Prop :=
  | later_refl d : later d d
  | later_step d d' o now : later d d' → later d (run o now d').

(** The primitive changes calls are made of, whatever their arguments. *)
Inductive change (d : db) : db → Prop :=
  | ch_create r key task now : jobs d !! jr_id r = None → jr_status r = queued →
      idem d !! key = None → change d (create_effect r key task now d)
  | ch_claim r att now : jobs d !! jr_id r = Some r → jr_status r = queued →
      attempts d !! attempt_id att = None → change d (claim_effect r att now d)
  | ch_touch j token att expiry now : active_attempt d j token = Some att →
      change d (set_jobs (alter (row_touch now) j)
        (set_attempts (alter (attempt_extend expiry) (attempt_id att)) d))
  | ch_settle j r r' f why now : jobs d !! j = Some r → settles r r' →
      closes f → (∀ x, is_Some (ended_at x) → f x = x) →
      change d (settle j (jr_status r) r' (jr_active r) f why now d)
  | ch_publish j r a res now : jobs d !! j = Some r → jr_status r = completed →
      outputs d !! j = None → change d (completion_tables j a res now d)
  | ch_ack j now : change d (acknowledge_completion j now d).2.

(** A change between databases that both satisfy the invariant. *)
Definition good_change (d d' : db) : Prop := Inv d ∧ change d d' ∧ Inv d'.

Lemma attempt_close_ended now o k c e u x :
  is_Some (ended_at x) → attempt_close now o k c e u x = x.
Proof. intros [t Ht]. unfold attempt_close. by rewrite Ht. Qed.

Lemma reclaim_all_changes now rows : ∀ d u d', Inv d →
  NoDup (jr_id <$> rows) →
  (∀ r, r ∈ rows → jobs d !! jr_id r = Some r ∧ jr_status r = running) →
  miter (reclaim_one now) rows d = (Ok u, d') → rtc good_change d d'.
Proof.
  induction rows as [|r rows IH]; intros d u d' HI Hnd Hrows H; simpl in H; minv; [done|].
  destruct (Hrows r) as [Hr Hs]; [by left|]. simpl in Hnd.
  apply NoDup_cons in Hnd as [Hnin Hnd].
  match goal with H : reclaim_one _ _ _ = _ |- _ =>
    apply reclaim_one_ok in H as (r' & Hr' & -> & HI'); [|done..] end.
  eapply rtc_l; [|eapply IH; [done|done| |done]].
  - split_and!; [done| |done]. apply reclaimed_row_ok in Hr' as [avail ->].
    apply ch_settle; [done| |apply close_own_closes|].
    + eapply release_settles; [by apply HI|done|]. destruct (_ <=? _); set_solver.
    + intros y. apply attempt_close_ended.
  - intros r0 Hr0. destruct (Hrows r0) as [Hj0 Hs0]; [by right|]. split; [|done].
    simpl. rewrite lookup_insert_ne; [done|]. intros E. apply Hnin.
    rewrite E. by apply list_elem_of_fmap_2.
Qed.

Lemma reclaim_changes now d x d' : Inv d → reclaim_expired now d = (x, d') → rtc good_change d d'.
Proof.
  intros HI. unfold reclaim_expired, mbind at 1, M_bind at 1, transaction.
  destruct (reclaim_tx now d) as [[ids|e] d1] eqn:Htx; [|by intros [= _ <-]].
  unfold mbind, M_bind, mread, mret, M_ret. intros H.
  assert (d' = d1) as -> by (destruct (rmap _ _); by simplify_eq).
  unfold reclaim_tx in Htx. minv. eapply reclaim_all_changes; [done| | |done].
  - by apply expired_rows_NoDup.
  - intros r [Hr He]%elem_of_expired; [|done]. split; [done|]. by eapply lease_expired_running.
Qed.

Lemma complete_changes d j token r att out res now : Inv d → jobs d !! j = Some r →
  active_attempt d j token = Some att → Inv (complete_effect j r att out res now d) →
  rtc good_change d (complete_effect j r att out res now d).
Proof.
  intros HI Hr Ha HI'.
  destruct (active_attempt_row _ _ _ _ HI Ha) as (r0 & Hr0 & Hs & Hact & _).
  assert (r0 = r) as -> by congruence. unfold complete_effect in *. rewrite <-Hact, <-Hs in *.
  assert (Hset : settles r (row_release completed now (jr_available r) r))
    by (eapply release_settles; [by apply HI|done|set_solver]).
  set (f := attempt_close now o_completed (failure_kind att) (error_code att) None (Some out)) in *.
  assert (Hf : closes f) by apply close_now_closes.
  assert (HIm : Inv (settle j (jr_status r) (row_release completed now (jr_available r) r)
    (jr_active r) f "completed" now d)) by (by apply settle_inv).
  eapply rtc_l; [|eapply rtc_once].
  - split_and!; [done| |exact HIm]. apply ch_settle; try done. intros x. apply attempt_close_ended.
  - split_and!; [done| |done]. eapply ch_publish; [simpl; by rewrite lookup_insert_eq|done|].
    simpl. destruct (outputs d !! j) eqn:Ho; [|done].
    destruct (inv_output _ HI _ _ Ho) as (? & ? & ?). congruence.
Qed.

(** Every call, successful or not, is a sequence of primitive changes. *)
Lemma exec_changes o now d : Inv d → rtc good_change d (run o now d).
Proof.
  intros HI. unfold run, exec, discard. destruct o; cbn [snd];
    match goal with |- rtc _ _ (snd ?p) => destruct p as [x d'] eqn:H end; cbn [snd].
  - apply enqueue_cases in H as [[-> _]|[[-> _]|(Hk & Hj & _ & _ & _ & _ & E & HI' & _)]]; try done.
    apply rtc_once. split_and!; [done| |done]. rewrite E. by apply ch_create.
  - apply claim_cases in H as [[-> _]|[[-> _]|(r & ex & k & Hc & _ & _ & Hf & _ & -> & HI' & _)]];
      try done.
    apply rtc_once. apply claim_candidate_Some in Hc as (Hr & (Hq & _)%claimable_iff & _); [|done].
    split_and!; [done| |done]. by apply ch_claim.
  - apply heartbeat_cases in H as [[-> _]|(att & ex & Ha & _ & _ & -> & HI' & _)]; try done.
    apply rtc_once. split_and!; [done| |done]. by eapply ch_touch.
  - apply complete_cases in H as [[-> _]|[[-> _]|(r & att & k & Hr & Ha & _ & -> & HI' & _)]];
      try done. by eapply complete_changes.
  - apply failure_cases in H as [[-> _]|(r & att & dl & av & k & Hr & Ha & _ & _ & _ & -> & HI' & _)];
      try done. apply rtc_once. split_and!; [done| |done].
    destruct (active_attempt_row _ _ _ _ HI Ha) as (r0 & Hr0 & Hs & Hact & _).
    assert (r0 = r) as -> by congruence. unfold failure_effect. rewrite <-Hact, <-Hs.
    apply ch_settle; [done| |apply close_now_closes|intros y; apply attempt_close_ended].
    eapply release_settles; [by apply HI|done|]. destruct (will_retry _ _ _); set_solver.
  - apply cancel_cases in H as [[-> _]|[[-> _]|(r & k & Hr & Hs & -> & HI' & _)]]; try done.
    apply rtc_once. split_and!; [done| |done]. unfold cancel_effect.
    apply ch_settle; [done| |apply close_own_closes|intros y; apply attempt_close_ended].
    eapply cancel_settles; [by apply HI|done].
  - by eapply reclaim_changes.
  - assert (E : d' = (acknowledge_completion j now d).2) by (by rewrite H).
    rewrite E. apply rtc_once. split_and!; [done|apply ch_ack|by apply acknowledge_inv].
Qed.

Lemma good_changes_inv d d' : Inv d → rtc good_change d d' → Inv d'.
Proof. intros HI. induction 1 as [|x y z (_ & _ & HI') _ IH]; auto. Qed.

Lemma run_inv o now d : Inv d → Inv (run o now d).
Proof. intros HI. eapply good_changes_inv; [done|by apply exec_changes]. Qed.

Lemma reachable_inv d : reachable d → Inv d.
Proof. induction 1; [apply Inv_empty|by apply run_inv]. Qed.

Lemma later_inv d d' : Inv d → later d d' → Inv d'.
Proof. intros HI. induction 1; [done|]. apply run_inv. auto. Qed.

Lemma later_changes d d' : Inv d → later d d' → rtc good_change d d'.
Proof.
  intros HI. induction 1 as [|d d' o now Hl IH]; [done|].
  etrans; [by apply IH|]. apply exec_changes. by eapply later_inv.
Qed.

(** ** What no call can undo *)

Lemma terminal_no_edge s t : terminal s = true → t ∉ VALID_JOB_TRANSITIONS s.
Proof. destruct s; simpl; try done; intros _; apply not_elem_of_nil. Qed.

Lemma completion_tables_jobs j a res now d :
  jobs (completion_tables j a res now d) = jobs d
  ∧ attempts (completion_tables j a res now d) = attempts d
  ∧ idem (completion_tables j a res now d) = idem d
  ∧ job_tasks (completion_tables j a res now d) = job_tasks d.
Proof. unfold completion_tables. by repeat case_match. Qed.

Lemma change_terminal d d' j r : good_change d d' → jobs d !! j = Some r →
  terminal (jr_status r) = true → jobs d' !! j = Some r.
Proof.
  intros (HI & Hc & _) Hr Ht. destruct Hc; simpl.
  - rewrite lookup_insert_ne; congruence.
  - rewrite lookup_insert_ne; [done|]. intros <-. simplify_eq.
    rewrite H0 in Ht. discriminate.
  - destruct (active_attempt_row _ _ _ _ HI H) as (r0 & Hr0 & Hs & _).
    rewrite lookup_alter_ne; [done|]. intros ->. simplify_eq. rewrite Hs in Ht. discriminate.
  - rewrite lookup_insert_ne; [done|]. intros ->. simplify_eq.
    by apply (terminal_no_edge _ (jr_status r') Ht), (se_edge _ _ H0).
  - by destruct (completion_tables_jobs j0 a res now d) as [-> _].
  - done.
Qed.

Lemma change_closed d d' a att : good_change d d' → attempts d !! a = Some att →
  is_Some (ended_at att) → attempts d' !! a = Some att.
Proof.
  intros (HI & Hc & _) Ha He. destruct Hc; simpl.
  - done.
  - rewrite lookup_insert_ne; [done|]. congruence.
  - destruct (active_attempt_row _ _ _ _ HI H) as (r0 & _ & _ & _ & Hatt & _ & _ & Hopen & _).
    rewrite lookup_alter_ne; [done|]. intros <-. simplify_eq.
    rewrite Hopen in He. by destruct He.
  - destruct (jr_active r) as [b|]; [|done].
    destruct (decide (b = a)) as [->|]; [|by rewrite lookup_alter_ne].
    rewrite lookup_alter_eq, Ha. simpl. by rewrite H2.
  - by destruct (completion_tables_jobs j a0 res now d) as (_ & -> & _).
  - done.
Qed.

Lemma change_output d d' j o : good_change d d' → outputs d !! j = Some o →
  outputs d' !! j = Some o.
Proof.
  intros (HI & Hc & _) Ho. destruct Hc; simpl; try done.
  unfold completion_tables. destruct res as [res|]; [|done].
  destruct (needs_evidence res); simpl; rewrite lookup_insert_ne; congruence.
Qed.

Lemma change_key d d' k v : good_change d d' → idem d !! k = Some v → idem d' !! k = Some v.
Proof.
  intros (HI & Hc & _) Hk. destruct Hc; simpl; try done.
  - rewrite lookup_insert_ne; congruence.
  - by destruct (completion_tables_jobs j a res now d) as (_ & _ & -> & _).
Qed.

(** A property of good databases that every change keeps is kept for ever. *)
Lemma later_keeps (P : db → Prop) d d' : Inv d → later d d' →
  (∀ d1 d2, good_change d1 d2 → P d1 → P d2) → P d → P d'.
Proof.
  intros HI Hl HP. apply (later_changes _ _ HI) in Hl.
  induction Hl as [|x y z Hxy Hyz IH]; [done|]. intros Hx. apply IH; [apply Hxy|by eapply HP].
Qed.

Lemma later_terminal d d' j r : Inv d → later d d' → jobs d !! j = Some r →
  terminal (jr_status r) = true → jobs d' !! j = Some r.
Proof.
  intros HI Hl Hr Ht. eapply (later_keeps (λ d, jobs d !! j = Some r)); try done.
  intros. by eapply change_terminal.
Qed.

Lemma later_closed d d' a att : Inv d → later d d' → attempts d !! a = Some att →
  is_Some (ended_at att) → attempts d' !! a = Some att.
Proof.
  intros HI Hl Ha He. eapply (later_keeps (λ d, attempts d !! a = Some att)); try done.
  intros. by eapply change_closed.
Qed.

Lemma later_key d d' k v : Inv d → later d d' → idem d !! k = Some v → idem d' !! k = Some v.
Proof.
  intros HI Hl Hk. eapply (later_keeps (λ d, idem d !! k = Some v)); try done.
  intros. by eapply change_key.
Qed.

Lemma later_output d d' j o : Inv d → later d d' → outputs d !! j = Some o →
  outputs d' !! j = Some o.
Proof.
  intros HI Hl Ho. eapply (later_keeps (λ d, outputs d !! j = Some o)); try done.
  intros. by eapply change_output.
Qed.

(** ** Leases *)

Lemma prior_completion_Some d j token att : prior_completion d j token = Some att →
  ∃ a, attempts d !! a = Some att ∧ at_job_id att = j ∧ lease_token att = token
    ∧ outcome att = Some o_completed.
Proof.
  unfold prior_completion. intros H.
  match type of H with snd <$> head ?l = _ => destruct l as [|[a x] l'] eqn:E end; simplify_eq/=.
  match type of E with ?l = _ => assert (Hin : (a, att) ∈ l) by (rewrite E; by left) end.
  apply list_elem_of_filter in Hin as [(H1 & H2 & H3) Hin]. apply elem_of_map_to_list in Hin.
  simpl in *. eauto.
Qed.

Lemma prior_completion_is d j a att : Inv d → attempts d !! a = Some att →
  at_job_id att = j → outcome att = Some o_completed →
  prior_completion d j (lease_token att) = Some att.
Proof.
  intros HI Ha Hj Ho. destruct (prior_completion d j (lease_token att)) as [x|] eqn:E.
  - apply prior_completion_Some in E as (b & Hb & _ & Ht & _).
    assert (b = a) as ->; [|congruence]. eapply inv_unique; [done..|].
    unfold attempt_conflict. by rewrite bool_decide_eq_true_2.
  - unfold prior_completion in E.
    match type of E with snd <$> head ?l = _ => destruct l as [|? ?] eqn:El end; [|done].
    match type of El with ?l = _ => assert (Hin : (a, att) ∈ l) end.
    { apply list_elem_of_filter. split; [done|]. by apply elem_of_map_to_list. }
    rewrite El in Hin. by apply elem_of_nil in Hin.
Qed.

(** A job has at most one completed attempt. *)
Lemma completed_attempt_unique d a b x y : Inv d →
  attempts d !! a = Some x → attempts d !! b = Some y → at_job_id x = at_job_id y →
  outcome x = Some o_completed → outcome y = Some o_completed → x = y.
Proof.
  intros HI Ha Hb Hj Hx Hy.
  destruct (inv_attempt _ HI _ _ Ha) as [_ _ (r & Hr & _ & _ & Hcx)].
  destruct (inv_attempt _ HI _ _ Hb) as [_ _ (r' & Hr' & _ & _ & Hcy)].
  rewrite Hj in Hr. simplify_eq. apply Hcx in Hx as [_ Hx]. apply Hcy in Hy as [_ Hy].
  assert (a = b) as ->; [|congruence]. eapply inv_unique; [done..|].
  unfold attempt_conflict. apply orb_true_iff. right.
  apply andb_true_iff. split; apply bool_decide_eq_true_2; congruence.
Qed.

(** An attempt that has ended is nobody's active attempt. *)
Lemma ended_not_active d a att j : Inv d → attempts d !! a = Some att →
  is_Some (ended_at att) → active_attempt d j (lease_token att) = None.
Proof.
  intros HI Ha [t He]. destruct (active_attempt d j (lease_token att)) as [x|] eqn:E; [|done].
  destruct (active_attempt_row _ _ _ _ HI E) as (r & _ & _ & _ & Hx & Ht & _ & Hopen & _).
  assert (attempt_id x = a) as Hid.
  { eapply inv_unique; [done..|]. unfold attempt_conflict. by rewrite bool_decide_eq_true_2. }
  rewrite Hid in Hx. congruence.
Qed.

(** A successful [complete] leaves the job completed by an attempt that carries
    the caller's lease and output reference. *)
Lemma complete_ok_attempt d j tok out res now x d1 :
  Inv d → complete j tok out res now d = (Ok x, d1) →
  ∃ r k t a att, Inv d1 ∧ jobs d1 !! j = Some r ∧ jr_status r = completed
    ∧ x = job_of k r ∧ idem d1 !! k = Some (j, t)
    ∧ attempts d1 !! a = Some att ∧ at_job_id att = j ∧ outcome att = Some o_completed
    ∧ lease_token att = tok ∧ output_ref att = Some out.
Proof.
  intros HI H. apply complete_cases in H as [(_ & e & ? & _)|[(-> & r & k & Hr & Hc & Hrep & Hk & Hx)|
    (r & att & k & Hr & Ha & Hlt & -> & HI1 & Hk & Hx)]]; [done| | |done].
  - unfold is_replay in Hrep. destruct (prior_completion d j tok) as [att|] eqn:Hp; [|done].
    reflect. apply prior_completion_Some in Hp as (a & Ha & Hja & Ht & Ho).
    apply key_of_Some in Hk as [t Hk]. exists r, k, t, a, att. split_and!; naive_solver.
  - apply key_of_Some in Hk as [t Hk]. destruct (active_attempt_row _ _ _ _ HI Ha)
      as (r0 & _ & _ & _ & Hatt & Htok & Hja & Hop & _).
    exists (row_release completed now (jr_available r) r), k, t, (attempt_id att),
      (attempt_close now o_completed (failure_kind att) (error_code att) None (Some out) att).
    destruct (completion_tables_jobs j (attempt_id att) res now (settle j running
      (row_release completed now (jr_available r) r) (Some (attempt_id att))
      (attempt_close now o_completed (failure_kind att) (error_code att) None (Some out))
      "completed" now d)) as (Ej & Ea & Ek & _).
    unfold complete_effect. rewrite Ej, Ea, attempt_close_open by done. simpl.
    rewrite lookup_insert_eq, lookup_alter_eq, Hatt. simpl.
    rewrite attempt_close_open by done. split_and!; try done. by simplify_eq.
Qed.

(** ** A concrete history, for the witnesses

    Two jobs are enqueued; the urgent one is claimed at time 20 with a
    thirty-second lease. *)
Section Demo.
Definition demo_task : TaskContract :=
  mk_Task 10 "goal:7" "rigel.skill.scaffold" [] (1#2) None None None None 0.
Definition demo_enqueued : db :=
  run (Enqueue 2 11 None "second" 9 None) 10
    (run (Enqueue 1 10 (Some demo_task) " first " 0 None) 10 empty_db).
Definition demo_running : db := run (Claim 100 200 "w1" 30) 20 demo_enqueued.
Definition demo_result : jdict := [("status", JStr "complete"); ("artifacts", JArr [])].
Definition demo_done : db :=
  run (Complete 2 200 "job-output" (Some demo_result)) 40 demo_running.
Definition demo_expired_at : time := 20 + 30 * 1000000.
Definition demo_lost : db := run ReclaimExpired demo_expired_at demo_running.
End Demo.

Lemma demo_running_reachable : reachable demo_running.
Proof. unfold demo_running, demo_enqueued. repeat apply reach_step. apply reach_empty. Qed.
Lemma demo_done_reachable : reachable demo_done.
Proof. apply reach_step, demo_running_reachable. Qed.
Lemma demo_lost_reachable : reachable demo_lost.
Proof. apply reach_step, demo_running_reachable. Qed.

(** ** The theorems *)

(** C1: every database the job store can reach satisfies the integrity
    invariant: the running jobs are exactly those with one open attempt, attempt
    counts never exceed the retry policy, keys and jobs correspond, a job's audit
    trail is a walk of the state machine from creation to its present status, and
    results and outbox rows belong to completed jobs. *)
Theorem job_store_invariant d : reachable d → Inv d.
Proof. exact (reachable_inv d). Qed.

Lemma job_store_invariant_witness : Inv demo_done.
Proof. apply job_store_invariant, demo_done_reachable. Defined.

(** C2: a job that has completed, failed or been cancelled never changes again:
    no later sequence of calls, with any arguments and clock readings, alters its
    row or its persisted result. *)
Theorem terminal_jobs_are_final d d' j r :
  reachable d → later d d' → jobs d !! j = Some r → terminal (jr_status r) = true →
  jobs d' !! j = Some r ∧ ∀ o, outputs d !! j = Some o → outputs d' !! j = Some o.
Proof.
  intros HI%reachable_inv Hl Hr Ht. split; [by eapply later_terminal|].
  intros o. by apply later_output.
Qed.

Lemma terminal_jobs_are_final_witness :
  is_Some (jobs (run (Cancel 2) 50 demo_done) !! 2%N).
Proof.
  destruct (jobs demo_done !! 2%N) as [r|] eqn:Hr; [|by vm_compute in Hr].
  eexists. refine (proj1 (terminal_jobs_are_final demo_done _ 2 r demo_done_reachable _ Hr _)).
  - apply later_step, later_refl.
  - vm_compute in Hr. by injection Hr as <-.
Defined.

(** C6: at most one completion is ever recorded for a job. Once a call to
    [complete] has succeeded, a later [complete] of the same job can only succeed
    as a replay: same lease, same output reference, same job returned, nothing
    written. *)
Theorem single_completion d j tok out res now x d1 d2 tok' out' res' now' y d3 :
  reachable d → complete j tok out res now d = (Ok x, d1) → later d1 d2 →
  complete j tok' out' res' now' d2 = (Ok y, d3) →
  tok' = tok ∧ out' = out ∧ d3 = d2 ∧ y = x.
Proof.
  intros HI%reachable_inv H Hl H'.
  destruct (complete_ok_attempt _ _ _ _ _ _ _ _ HI H)
    as (r & k & t & a & att & HI1 & Hr & Hc & Hx & Hk & Ha & Hj & Ho & Ht & Hout).
  assert (HI2 : Inv d2) by (by apply (later_inv d1)).
  assert (Hterm : terminal (jr_status r) = true) by (by rewrite Hc).
  assert (Hr2 : jobs d2 !! j = Some r) by (by apply (later_terminal d1)).
  assert (Ha2 : attempts d2 !! a = Some att).
  { eapply later_closed; [exact HI1|done..|]. destruct (ended_at att) eqn:He; [by eexists|].
    destruct (inv_attempt _ HI1 _ _ Ha) as [_ Hoc _]. by rewrite (proj1 Hoc He) in Ho. }
  apply complete_cases in H' as [(_ & e & ? & _)|[(-> & r' & k' & Hr' & _ & Hrep & Hk' & Hy)|
    (r' & att' & k' & Hr' & Hact & _)]]; [done| | |done].
  - unfold is_replay in Hrep. destruct (prior_completion d2 j tok') as [att'|] eqn:Hp; [|done].
    reflect. apply prior_completion_Some in Hp as (a' & Ha' & Hja' & Ht' & Ho').
    assert (att' = att) as -> by (apply (completed_attempt_unique d2 a' a); congruence).
    assert (k' = k) as ->.
    { eapply later_key in Hk; [|exact HI1|done]. rewrite (key_of_eq _ _ _ _ HI2 Hk) in Hk'. congruence. }
    simplify_eq. by split_and!.
  - apply active_attempt_Some in Hact as (r0 & ? & ? & _ & _ & ? & _). congruence.
Qed.

Lemma single_completion_witness :
  (complete 2 200 "job-output" (Some demo_result) 40 demo_running).1
  = (complete 2 200 "job-output" (Some demo_result) 99 demo_done).1.
Proof.
  destruct (complete 2 200 "job-output" (Some demo_result) 40 demo_running) as [[x|] d1] eqn:E;
    [|by vm_compute in E].
  destruct (complete 2 200 "job-output" (Some demo_result) 99 demo_done) as [[y|] d3] eqn:E';
    [|by vm_compute in E'].
  assert (Hd : demo_done = d1) by (unfold demo_done, run, exec, discard; by rewrite E).
  assert (Hl : later d1 demo_done) by (rewrite Hd; apply later_refl).
  destruct (single_completion _ _ _ _ _ _ _ _ _ _ _ _ _ _ _ demo_running_reachable E Hl E')
    as (_ & _ & _ & ->). reflexivity.
Defined.

(** The lease a call presents. *)
Definition lease_of (o : op) : option uuid :=
  match o with
  | Heartbeat _ tok _ | Complete _ tok _ _ | RecordFailure _ tok _ _ _ _ => Some tok
  | _ => None
  end.

(** A lease token whose attempt ended without completing never replays. *)
Lemma lost_lease_no_replay d a att j out : Inv d → attempts d !! a = Some att →
  outcome att ≠ Some o_completed → is_replay d j (lease_token att) out = false.
Proof.
  intros HI Ha Hn. unfold is_replay.
  destruct (prior_completion d j (lease_token att)) as [x|] eqn:E; [|done].
  apply prior_completion_Some in E as (b & Hb & _ & Ht & Ho).
  assert (b = a) as ->; [|congruence]. eapply inv_unique; [done..|].
  unfold attempt_conflict. by rewrite bool_decide_eq_true_2.
Qed.

(** C5: a worker whose lease has ended is inert for ever. Once its attempt is
    closed without having completed the job (the lease expired, the job was
    cancelled or retried), no later call with that lease token, on any job, can
    heartbeat, complete or fail: it raises and the tables are untouched. *)
Theorem stale_lease_is_inert d d' a att o now :
  reachable d → attempts d !! a = Some att → is_Some (ended_at att) →
  outcome att ≠ Some o_completed → later d d' → lease_of o = Some (lease_token att) →
  ∃ e, exec o now d' = (Raise e, d').
Proof.
  intros HI%reachable_inv Ha He Hn Hl Ho.
  assert (HI' : Inv d') by (by apply (later_inv d)).
  assert (Ha' : attempts d' !! a = Some att) by (by apply (later_closed d)).
  assert (Hna : ∀ j, active_attempt d' j (lease_token att) = None)
    by (intros; by apply (ended_not_active d' a)).
  destruct o; simplify_eq/=; unfold discard.
  - destruct (heartbeat _ _ _ _ _) as [x d1] eqn:H.
    apply heartbeat_cases in H as [(-> & e & ->)|(att' & ex & Hact & _)]; [eauto| |done].
    by rewrite Hna in Hact.
  - destruct (complete _ _ _ _ _ _) as [x d1] eqn:H.
    apply complete_cases in H as [(-> & e & -> & _)|[(-> & r & k & _ & _ & Hrep & _)|
      (r & att' & k & _ & Hact & _)]]; [eauto| | |done].
    + by rewrite (lost_lease_no_replay _ a) in Hrep.
    + by rewrite Hna in Hact.
  - destruct (record_failure _ _ _ _ _ _ _ _) as [x d1] eqn:H.
    apply failure_cases in H as [(-> & e & -> & _)|(r & att' & dl & av & k & _ & Hact & _)];
      [eauto| |done].
    by rewrite Hna in Hact.
Qed.

Lemma stale_lease_is_inert_witness :
  ∃ e, exec (Complete 2 200 "late" None) 40000000 demo_lost = (Raise e, demo_lost).
Proof.
  destruct (attempts demo_lost !! 100%N) as [att|] eqn:Ha; [|by vm_compute in Ha].
  assert (Htok : lease_token att = 200%N) by (vm_compute in Ha; by injection Ha as <-).
  refine (stale_lease_is_inert demo_lost _ 100 att _ _ demo_lost_reachable Ha _ _ (later_refl _) _).
  - vm_compute in Ha. injection Ha as <-. by eexists.
  - vm_compute in Ha. by injection Ha as <-.
  - simpl. by rewrite Htok.
Defined.
