(* ===== verification/JobProtocol.v ===== *)
(** The lease protocol the job store implements, as a small transition system, and
    the proof that every call of the repository is a step of it. *)

From S2P Require Import Prelude.
From S2P Require Import PyStr.
From S2P Require Import PyTime.
From S2P Require Import Json.
From S2P Require Import Contracts.
From S2P Require Import JobRepository.
From S2P Require Import JobInvariant.
From S2P Require Import JobEffects.
From S2P Require Import JobTheorems.
Open Scope Z_scope.

(** ** The specification *)

Inductive phase :=
  | Waiting
  | Leased (attempt : uuid)
  | Ended (s : JobStatus).

(** Where every job stands, and the attempts that were ever made. *)
Record protocol := mk_protocol { ph : gmap uuid phase; used : gset uuid }.

Definition put (j : uuid) (p : phase) (s : protocol) : protocol := mk_protocol (<[j := p]> (ph s)) (used s).
Definition lease (j a : uuid) (s : protocol) : protocol := mk_protocol (<[j := Leased a]> (ph s)) ({[a]} ∪ used s).

(** What an expired lease may leave behind. *)
Definition expired_to (before after : option phase) : Prop :=
  after = before ∨ ∃ a, before = Some (Leased a) ∧ (after = Some Waiting ∨ after = Some (Ended failed)).

(** A call may always do nothing; otherwise it does this. *)
Inductive protocol_step : op → protocol → protocol → Prop :=
  | ps_idle o s : protocol_step o s s
  | ps_submit f t task k p pol s : ph s !! f = None →
      protocol_step (Enqueue f t task k p pol) s (put f Waiting s)
  | ps_lease j a tok w ls s : ph s !! j = Some Waiting → a ∉ used s →
      protocol_step (Claim a tok w ls) s (lease j a s)
  | ps_complete j tok out res a s : ph s !! j = Some (Leased a) →
      protocol_step (Complete j tok out res) s (put j (Ended completed) s)
  | ps_fail j tok e c k b a s : ph s !! j = Some (Leased a) →
      protocol_step (RecordFailure j tok e c k b) s (put j (Ended failed) s)
  | ps_retry j tok e c k b a s : ph s !! j = Some (Leased a) → b = true →
      protocol_step (RecordFailure j tok e c k b) s (put j Waiting s)
  | ps_cancel j p s : ph s !! j = Some p → (∀ st, p ≠ Ended st) →
      protocol_step (Cancel j) s (put j (Ended cancelled) s)
  | ps_expire s s' : used s' = used s → (∀ j, expired_to (ph s !! j) (ph s' !! j)) →
      protocol_step ReclaimExpired s s'.

(** *** What the protocol alone guarantees *)

(** A lease names an attempt that was made, and no two jobs are leased to one. *)
Definition protocol_ok (s : protocol) : Prop :=
  (∀ j a, ph s !! j = Some (Leased a) → a ∈ used s)
  ∧ ∀ i j a, ph s !! i = Some (Leased a) → ph s !! j = Some (Leased a) → i = j.

Lemma protocol_step_ok o s s' : protocol_step o s s' → protocol_ok s → protocol_ok s'.
Proof.
  assert (Hput : ∀ j p s0, (∀ a, p ≠ Leased a) → protocol_ok s0 → protocol_ok (put j p s0)).
  { intros j p s0 Hp [Hu Hx]. split; simpl.
    - intros i a [[_ E]|[_ H]]%lookup_insert_Some; [by destruct (Hp a)|by eapply Hu].
    - intros i i' a [[_ E]|[_ H]]%lookup_insert_Some [[_ E']|[_ H']]%lookup_insert_Some;
        try (by destruct (Hp a)). by eapply Hx. }
  intros [] Hok; try (by apply Hput); [done| |].
  - destruct Hok as [Hu Hx]. split; simpl.
    + intros i b [[_ [= ->]]|[_ Hi]]%lookup_insert_Some; [set_solver|]. apply Hu in Hi. set_solver.
    + intros i i' b [[<- Ea]|[Hne Hi]]%lookup_insert_Some [[<- Ea']|[Hne' Hi']]%lookup_insert_Some; simplify_eq.
      * done.
      * by apply Hu in Hi'.
      * by apply Hu in Hi.
      * by eapply Hx.
  - destruct Hok as [Hu Hx]. split.
    + intros j a Hj. rewrite H. destruct (H0 j) as [E|(b & _ & [E|E])]; rewrite Hj in E; [by eapply Hu|done..].
    + intros i j a Hi Hj. apply Hx with a.
      * destruct (H0 i) as [E|(b & _ & [E|E])]; congruence.
      * destruct (H0 j) as [E|(b & _ & [E|E])]; congruence.
Qed.

(** ** The repository implements it *)

Definition phase_of (r : job_row) : phase :=
  match jr_status r, jr_active r with
  | queued, _ => Waiting
  | running, Some a => Leased a
  | running, None => Waiting
  | s, _ => Ended s
  end.

Definition abs (d : db) : protocol := mk_protocol (phase_of <$> jobs d) (dom (attempts d)).

Lemma abs_settle j from r' a f why now d :
  abs (settle j from r' a f why now d) = put j (phase_of r') (abs d).
Proof.
  unfold abs, put, settle, add_history, set_transitions, set_jobs, set_attempts. simpl. f_equal.
  - apply fmap_insert.
  - destruct a; [apply dom_alter_L|done].
Qed.

Lemma phase_active d j r tok att : Inv d → jobs d !! j = Some r → active_attempt d j tok = Some att →
  ph (abs d) !! j = Some (Leased (attempt_id att)).
Proof.
  intros HI Hr Ha. destruct (active_attempt_row _ _ _ _ HI Ha) as (r0 & Hr0 & Hs & Hact & _).
  assert (r0 = r) as -> by congruence. simpl. rewrite lookup_fmap, Hr. simpl. unfold phase_of. by rewrite Hs, Hact.
Qed.

Lemma reclaim_used now d x d' : reclaim_expired now d = (x, d') → dom (attempts d') = dom (attempts d).
Proof.
  apply (keeps_result (λ d, dom (attempts d))). unfold reclaim_expired.
  apply keeps_bind; [|intros ids; apply keeps_bind; [by intros s|by intros ? s]].
  assert (Hone : ∀ r, keeps (λ d, dom (attempts d)) (reclaim_one now r)).
  { intros r. unfold reclaim_one. apply keeps_bind; [by intros s|]. intros _. apply keeps_bind.
    - intros s. unfold close_by_id. destruct (jr_active r); [apply dom_alter_L|done].
    - intros _. apply keeps_bind; [by intros s|]. intros dl. apply keeps_bind; [by intros s|]. intros av.
      apply keeps_bind; [by intros s|]. by intros _ s. }
  assert (Hall : ∀ rows, keeps (λ d, dom (attempts d)) (miter (reclaim_one now) rows)).
  { induction rows as [|r rows IH]; [by intros s|]. by apply keeps_bind. }
  intros s. unfold transaction, reclaim_tx, mbind, M_bind, mget. cbn [fst snd].
  specialize (Hall (expired_rows now s) s). by destruct (miter _ _ s) as [[]?].
Qed.

Lemma claim_refines a tok w ls now d x d' : Inv d → claim a tok w ls now d = (x, d') →
  protocol_step (Claim a tok w ls) (abs d) (abs d').
Proof.
  intros HI H.
  apply claim_cases in H as [[-> _]|[[-> _]|(r & ex & k & Hc & _ & _ & Hf & _ & -> & _)]]; [constructor..| |done].
  apply claim_candidate_Some in Hc as (Hr & (Hq & _)%claimable_iff & _); [|done].
  assert (E : abs (claim_effect r (claim_attempt a tok w ex now r) now d)
    = lease (jr_id r) a (abs d)).
  { unfold abs, lease, claim_effect, add_history, set_transitions, set_jobs, set_attempts. simpl.
    by rewrite fmap_insert, dom_insert_L. }
  rewrite E. apply ps_lease; simpl.
  + rewrite lookup_fmap, Hr. simpl. unfold phase_of. by rewrite Hq.
  + by apply not_elem_of_dom.
Qed.

Lemma reclaim_refines now d x d' : Inv d → reclaim_expired now d = (x, d') →
  protocol_step ReclaimExpired (abs d) (abs d').
Proof.
  intros HI H. pose proof (reclaim_used _ _ _ _ H) as Hu.
  apply reclaim_cases in H as [[-> _]|(_ & _ & _ & _ & _ & _ & Hexp & Hrest & _)]; [constructor| |done].
  apply ps_expire; [done|]. intros j. simpl. rewrite !lookup_fmap. destruct (jobs d !! j) as [r|] eqn:Hr.
  + destruct (lease_expired now d r) eqn:He.
    * destruct (Hexp j r Hr He) as (r' & (av & ->)%reclaimed_row_ok & ->). right.
      pose proof (lease_expired_running _ _ _ He) as Hrun.
      destruct (jo_live _ _ _ (inv_job _ HI _ _ Hr) Hrun) as (a & att & Ha & _). exists a. simpl. split.
      -- unfold phase_of. by rewrite Hrun, Ha.
      -- destruct (_ <=? _); [by right|by left].
    * left. rewrite Hrest; [by rewrite Hr|]. intros r0 Hr0. congruence.
  + left. rewrite Hrest; [by rewrite Hr|]. intros r0 Hr0. congruence.
Qed.

Lemma abs_complete_effect j r att out res now d :
  abs (complete_effect j r att out res now d) = put j (Ended completed) (abs d).
Proof.
  unfold complete_effect. match goal with |- abs (completion_tables ?a ?b ?c ?n ?d1) = _ =>
    destruct (completion_tables_jobs a b c n d1) as (Ej & Ea & _) end.
  unfold abs at 1. rewrite Ej, Ea. apply abs_settle.
Qed.

Lemma run_refines o now d : Inv d → protocol_step o (abs d) (abs (run o now d)).
Proof.
  intros HI. unfold run, exec, discard. destruct o; cbn [snd];
    match goal with |- protocol_step _ _ (abs (snd ?p)) => destruct p as [x d'] eqn:H end; cbn [snd].
  - apply enqueue_cases in H as [[-> _]|[[-> _]|(_ & Hj & _ & _ & _ & _ & -> & _)]]; [constructor..| |done].
    assert (E : abs (create_effect (enqueued_row fresh tid prio (or_else policy default_retry_policy) now) (strip key) task now d)
      = put fresh Waiting (abs d)) by (unfold abs, put; simpl; f_equal; apply fmap_insert).
    rewrite E. apply ps_submit. simpl. by rewrite lookup_fmap, Hj.
  - by eapply claim_refines.
  - apply heartbeat_cases in H as [[-> _]|(att & ex & Ha & _ & _ & -> & _)]; [constructor| |done].
    match goal with |- protocol_step _ _ (abs ?d1) => assert (E : abs d1 = abs d) end; [|rewrite E; constructor].
    unfold abs, set_jobs, set_attempts. simpl. f_equal; [|apply dom_alter_L].
    apply map_eq. intros i. rewrite !lookup_fmap, lookup_alter. case_decide; [subst|done].
    by destruct (jobs d !! i).
  - apply complete_cases in H as [[-> _]|[[-> _]|(r & att & k & Hr & Ha & _ & -> & _)]]; [constructor..| |done].
    rewrite abs_complete_effect. eapply ps_complete. by eapply phase_active.
  - apply failure_cases in H as [[-> _]|(r & att & dl & av & k & Hr & Ha & _ & _ & _ & -> & _)]; [constructor| |done].
    unfold failure_effect. rewrite abs_settle. destruct (will_retry code retryable r) eqn:Ew.
    + eapply ps_retry; [by eapply phase_active|]. unfold will_retry in Ew. by apply andb_true_iff in Ew as [[-> _]%andb_true_iff _].
    + eapply ps_fail. by eapply phase_active.
  - apply cancel_cases in H as [[-> _]|[[-> _]|(r & k & Hr & Hs & -> & _)]]; [constructor..| |done].
    unfold cancel_effect. rewrite abs_settle. apply (ps_cancel j (phase_of r)).
    + simpl. by rewrite lookup_fmap, Hr.
    + unfold phase_of. intros st. destruct Hs as [-> | ->]; [done|]. by destruct (jr_active r).
  - by eapply reclaim_refines.
  - replace (abs d') with (abs d); [constructor|]. unfold acknowledge_completion, mmodify in H. by injection H as _ <-.
Qed.

(** What the caller of a successful call can rely on. *)
Definition had_effect (o : op) (s : protocol) : Prop :=
  match o with
  | Complete j _ _ _ => ph s !! j = Some (Ended completed)
  | RecordFailure j _ _ _ _ _ => ph s !! j = Some Waiting ∨ ph s !! j = Some (Ended failed)
  | Cancel j => ph s !! j = Some (Ended cancelled)
  | _ => True
  end.

Lemma ph_put j p s : ph (put j p s) !! j = Some p.
Proof. apply lookup_insert_eq. Qed.

Lemma exec_had_effect o now d : Inv d → is_ok (exec o now d).1 → had_effect o (abs (run o now d)).
Proof.
  intros HI. unfold run, exec, discard, is_ok. destruct o; try done; cbn [fst snd];
    match goal with |- context [fst ?p] => destruct p as [x d'] eqn:H end; cbn [fst snd had_effect]; intros [u Hx].
  - apply complete_cases in H as [(_ & e & -> & _)|[(-> & r & k & Hr & Hs & _)|(r & att & k & _ & _ & _ & -> & _)]];
      [done|..|done].
    + simpl. rewrite lookup_fmap, Hr. simpl. unfold phase_of. by rewrite Hs.
    + rewrite abs_complete_effect. apply ph_put.
  - apply failure_cases in H as [(_ & e & -> & _)|(r & att & dl & av & k & _ & _ & _ & _ & _ & -> & _)]; [done| |done].
    unfold failure_effect. rewrite abs_settle, ph_put. destruct (will_retry _ _ _); auto.
  - apply cancel_cases in H as [(_ & e & -> & _)|[(-> & r & k & Hr & Hs & _)|(r & k & _ & _ & -> & _)]]; [done|..|done].
    + simpl. rewrite lookup_fmap, Hr. simpl. unfold phase_of. by rewrite Hs.
    + unfold cancel_effect. by rewrite abs_settle, ph_put.
Qed.

(** C3: the job store refines the lease protocol. Every call of the repository on a
    reachable database, whether it succeeds or raises, is seen by the protocol as
    doing nothing or as its one step: a submission makes a new job wait, a claim
    leases a waiting one to an attempt never made before, a completion or a failure
    ends or returns the job its lease names, a cancellation ends a job that has not
    ended, and reclaiming only touches leased jobs. A completion, a
    failure or a cancellation that succeeds has taken place, and no two jobs are
    ever leased to the same attempt. *)
Theorem job_store_refines_lease_protocol o now d : reachable d →
  protocol_step o (abs d) (abs (run o now d))
  ∧ (is_ok (exec o now d).1 → had_effect o (abs (run o now d)))
  ∧ protocol_ok (abs d).
Proof.
  intros Hd. split; [by apply run_refines, reachable_inv|]. split; [by apply exec_had_effect, reachable_inv|].
  induction Hd as [|d o' now' Hd IH].
  - split; simpl; [intros j a Hj|intros i j a Hj]; by rewrite fmap_empty, lookup_empty in Hj.
  - eapply protocol_step_ok; [by apply run_refines, reachable_inv|done].
Qed.

Lemma job_store_refines_lease_protocol_witness :
  protocol_step (Claim 100 200 "w1" 30) (abs demo_enqueued) (abs demo_running).
Proof.
  apply (job_store_refines_lease_protocol (Claim 100 200 "w1" 30) 20 demo_enqueued).
  repeat apply reach_step. apply reach_empty.
Defined.
