(* ===== verification/JobQueue.v ===== *)
(** Scheduling guarantees of the durable job store: which job a claim takes,
    that a lease is exclusive, how failures are retried and backed off, what an
    expired lease leads to, and that enqueueing and completing are idempotent. *)

From S2P Require Import Prelude.
From S2P Require Import PyStr.
From S2P Require Import PyTime.
From S2P Require Import Json.
From S2P Require Import Contracts.
From S2P Require Import JobRepository.
From S2P Require Import JobInvariant.
From S2P Require Import JobEffects.
From S2P Require Import JobTheorems.
From Stdlib Require Import Qminmax.
Open Scope Z_scope.

(** ** The shared shape of a successful claim *)

Lemma claim_effect_active r att now d : jobs d !! jr_id r = Some r →
  attempts d !! attempt_id att = None → ended_at att = None → outcome att = None →
  active_attempt (claim_effect r att now d) (jr_id r) (lease_token att) = Some att.
Proof.
  intros Hr Hf He Ho. unfold active_attempt. simpl. rewrite lookup_insert_eq. simpl.
  rewrite lookup_insert_eq. simpl. by rewrite !bool_decide_eq_true_2.
Qed.

Lemma claim_Some_inv fa ft w ls now d job att d' : Inv d →
  claim fa ft w ls now d = (Ok (Some (job, att)), d') →
  ∃ r expiry k, claim_candidate now d = Some r ∧ att = claim_attempt fa ft w expiry now r
    ∧ dt_add now (td_us ls) = Ok expiry ∧ now < expiry ∧ attempts d !! fa = None
    ∧ (∀ b x, attempts d !! b = Some x → attempt_conflict att x = false)
    ∧ d' = claim_effect r att now d ∧ Inv d' ∧ job = job_of k (row_claim fa now r).
Proof.
  intros HI H. apply claim_cases in H as [(_ & e & ?)|[(_ & ? & _)|
    (r & ex & k & Hc & Hex & Hlt & Hf & Hu & -> & HI' & Hk & H)]]; [done..| |done].
  simplify_eq. exists r, ex, k. by split_and!.
Qed.

(** No attempt of a queued job is open. *)
Lemma queued_no_open d j r a x : Inv d → jobs d !! j = Some r → jr_status r = queued →
  attempts d !! a = Some x → at_job_id x = j → is_Some (ended_at x).
Proof.
  intros HI Hr Hq Hx Hj. destruct (inv_attempt _ HI _ _ Hx) as [_ _ (r0 & Hr0 & _ & Hlive & _)].
  destruct (ended_at x) eqn:E; [by eexists|]. destruct (Hlive eq_refl). congruence.
Qed.

(** A claim of a claimable job cannot fail once its arguments are sound. *)
Lemma claim_total fa ft w ls now d r expiry : Inv d → claim_candidate now d = Some r →
  truthy_str (strip w) = true → truthy_str (strip (task_ref (jr_task r))) = true →
  (0 < ls)%Q → dt_add now (td_us ls) = Ok expiry → now < expiry →
  attempts d !! fa = None → (∀ b x, attempts d !! b = Some x → lease_token x ≠ ft) →
  ∃ k, claim fa ft w ls now d =
    (Ok (Some (job_of k (row_claim fa now r), claim_attempt fa ft w expiry now r)),
     claim_effect r (claim_attempt fa ft w expiry now r) now d).
Proof.
  intros HI Hc Hw Hi Hls Hex Hlt Hf Hu.
  destruct (claim_candidate_Some _ _ _ HI Hc) as (Hr & (Hq & _ & Hm)%claimable_iff & _).
  pose proof (jo_count _ _ _ (inv_job _ HI _ _ Hr)) as Hcnt.
  set (att := claim_attempt fa ft w expiry now r).
  assert (Hconf : ∀ b x, attempts d !! b = Some x → attempt_conflict att x = false).
  { intros b x Hx. unfold attempt_conflict. rewrite bool_decide_eq_false_2 by
      (intros E; by apply (Hu _ _ Hx)). simpl.
    apply andb_false_iff. destruct (decide (jr_id r = at_job_id x)) as [E|];
      [right|left; by apply bool_decide_eq_false_2].
    destruct (inv_attempt _ HI _ _ Hx) as [_ _ (r0 & Hr0 & Hn & _)].
    apply bool_decide_eq_false_2. rewrite E in Hr. simplify_eq. simpl. lia. }
  assert (Htx : claim_tx fa ft w ls now d = (Ok (Some att), claim_effect r att now d)).
  { unfold claim_tx, mbind, M_bind, mget. rewrite Hc. unfold mlift. rewrite Hex.
    rewrite (proj2 (transition_ok queued running)) by (simpl; set_solver).
    unfold validate_attempt, validate_terminal_fields, validate_worker_id, mbind, rbind, rguard.
    cbn -[td_us strip task_ref Z.leb Z.ltb]. rewrite Hw, Hi.
    rewrite (proj2 (Z.leb_le 1 _)), (proj2 (Z.ltb_lt now expiry)) by lia.
    cbn -[td_us strip task_ref]. rewrite Hr, bool_decide_eq_true_2 by done.
    unfold mmodify, insert_attempt, mbind, M_bind, mget, mguard, mlift, rguard.
    cbn -[td_us strip task_ref map_to_list].
    rewrite bool_decide_eq_true_2 by done.
    rewrite (proj2 (existsb_false_iff _ _)).
    2: { intros [b x] Hin%elem_of_map_to_list. by eapply Hconf. }
    cbn -[td_us strip task_ref]. rewrite lookup_insert_eq.
    by rewrite bool_decide_eq_true_2 by (by eexists). }
  destruct (claim fa ft w ls now d) as [res d'] eqn:H.
  unfold claim in H. unfold mbind, M_bind, mguard, mlift, rguard, transaction in H.
  rewrite (proj2 (negb_true_iff _)) in H.
  2: { apply not_true_iff_false. rewrite Qle_bool_iff. by apply Qlt_not_le. }
  rewrite Htx in H.
  assert (HI' : Inv (claim_effect r att now d)) by (apply start_inv; done).
  destruct (return_job_ok _ (jr_id r) (row_claim fa now r) HI') as (k & Hk & E);
    [by apply lookup_insert_eq|].
  simpl in H. rewrite E in H. unfold mret, M_ret in H. simplify_eq. by exists k.
Qed.

(** The input reference of an attempt is never blank. *)
Lemma task_ref_truthy t : truthy_str (strip (task_ref t)) = true.
Proof.
  unfold task_ref. generalize (uuid_str t). intros s.
  exact (strip_visible (Ascii.Ascii false false true false true true true false) ("ask:" +:+ s) eq_refl).
Qed.

(** ** The theorems *)

(** A claim takes the eligible job that comes first, and finds one whenever
    there is one. If it returns nothing, no job is queued, available and within
    its attempt budget. If it returns a job, that job was eligible, no eligible
    job precedes it by (priority descending, creation time, id), it is running
    under the returned attempt, whose lease ends exactly [lease_seconds] later;
    and with a non-blank worker name, a positive representable lease and fresh
    identifiers a claim always returns. *)
Theorem claim_takes_first_eligible fa ft w ls now d :
  reachable d →
  (∀ d', claim fa ft w ls now d = (Ok None, d') →
     d' = d ∧ ∀ j r, jobs d !! j = Some r → claimable now r = false)
  ∧ (∀ job att d', claim fa ft w ls now d = (Ok (Some (job, att)), d') →
     ∃ r, jobs d !! job_id job = Some r ∧ claimable now r = true
       ∧ (∀ j r', jobs d !! j = Some r' → claimable now r' = true → claim_leb r r' = true)
       ∧ status job = running ∧ dt_add now (td_us ls) = Ok (lease_expires_at att)
       ∧ attempt_number att = jr_attempt_count r + 1
       ∧ active_attempt d' (job_id job) ft = Some att)
  ∧ (∀ expiry, truthy_str (strip w) = true → (0 < ls)%Q →
     dt_add now (td_us ls) = Ok expiry → now < expiry →
     attempts d !! fa = None → (∀ b x, attempts d !! b = Some x → lease_token x ≠ ft) →
     is_ok (claim fa ft w ls now d).1).
Proof.
  intros HI%reachable_inv. split_and!.
  - intros d' H. apply claim_cases in H as [(_ & e & ?)|[(-> & _ & Hc)|
      (r & ex & k & _ & _ & _ & _ & _ & _ & _ & _ & ?)]]; [done| |done|done].
    split; [done|]. intros j r. by apply claim_candidate_None.
  - intros job att d' H. apply claim_Some_inv in H
      as (r & ex & k & Hc & -> & Hex & _ & Hf & _ & -> & _ & ->); [|done].
    destruct (claim_candidate_Some _ _ _ HI Hc) as (Hr & Hcl & Hmin).
    exists r. simpl. split_and!; try done.
    apply (claim_effect_active r (claim_attempt fa ft w ex now r)); done.
  - intros ex Hw Hls Hex Hlt Hf Hu. destruct (claim_candidate now d) as [r|] eqn:Hc.
    + destruct (claim_total fa ft w ls now d r ex) as (k & ->); try done;
        [apply task_ref_truthy|by eexists].
    + unfold claim, mbind, M_bind, mguard, mlift, rguard, transaction.
      rewrite (proj2 (negb_true_iff _)).
      2: { apply not_true_iff_false. rewrite Qle_bool_iff. by apply Qlt_not_le. }
      unfold claim_tx, mbind, M_bind, mget. rewrite Hc. by eexists.
Qed.

Lemma demo_enqueued_reachable : reachable demo_enqueued.
Proof. unfold demo_enqueued. repeat apply reach_step. apply reach_empty. Qed.

Lemma claim_takes_first_eligible_witness :
  is_ok (claim 100 200 "w1" 30 20 demo_enqueued).1.
Proof.
  refine (proj2 (proj2 (claim_takes_first_eligible 100 200 "w1" 30 20 demo_enqueued _))
    30000020 _ _ _ _ _ _); [apply demo_enqueued_reachable|reflexivity|reflexivity|
    vm_compute; reflexivity|lia|reflexivity|].
  intros b x Hx. assert (E : attempts demo_enqueued = ∅) by (vm_compute; reflexivity).
  rewrite E, lookup_empty in Hx. discriminate Hx.
Defined.

(** C4: leases are exclusive. When a claim hands out a job, every earlier
    attempt of that job has ended: no two workers ever hold an open attempt of
    the same job, however calls interleave. *)
Theorem leases_are_exclusive fa ft w ls now d job att d' b x :
  reachable d → claim fa ft w ls now d = (Ok (Some (job, att)), d') →
  attempts d' !! b = Some x → at_job_id x = job_id job → ended_at x = None → x = att.
Proof.
  intros HI%reachable_inv H Hx Hj He.
  apply claim_Some_inv in H as (r & ex & k & Hc & -> & _ & _ & Hf & _ & -> & _ & ->); [|done].
  destruct (claim_candidate_Some _ _ _ HI Hc) as (Hr & (Hq & _)%claimable_iff & _).
  simpl in Hx, Hj. rewrite lookup_insert in Hx. case_decide; [by simplify_eq|].
  destruct (queued_no_open _ _ _ _ _ HI Hr Hq Hx Hj). congruence.
Qed.

Lemma leases_are_exclusive_witness : lease_token <$> attempts demo_running !! 100%N = Some 200%N.
Proof.
  destruct (attempts demo_running !! 100%N) as [x|] eqn:Hx; [|vm_compute in Hx; discriminate Hx].
  destruct (claim 100 200 "w1" 30 20 demo_enqueued) as [[[[job att]|]|] d'] eqn:E;
    [|by vm_compute in E..].
  assert (Hd : d' = demo_running) by (unfold demo_running, run, exec, discard; by rewrite E).
  assert (Ht := f_equal (λ r, match r.1 with Ok (Some ja) => (lease_token ja.2, job_id ja.1)
                              | _ => (0, 0)%N end) E).
  vm_compute in Ht. injection Ht as Htok Hid.
  rewrite (leases_are_exclusive _ _ _ _ _ _ _ _ _ 100 x demo_enqueued_reachable E).
  - exact (f_equal Some (eq_sym Htok)).
  - by rewrite Hd.
  - transitivity 2%N; [|exact Hid]. apply (some_field at_job_id _ _ _ Hx). vm_compute. reflexivity.
  - apply (some_field ended_at _ _ _ Hx). vm_compute. reflexivity.
Defined.

(** ** Attempts and retries *)

(** The rows of [attempts(job_id)] before they are validated. *)
Definition attempt_rows (j : uuid) (d : db) : list ExecutionAttempt :=
  py_sorted (λ a b, attempt_number a <=? attempt_number b)
    (filter (λ a, at_job_id a = j) (snd <$> map_to_list (attempts d))).

Lemma elem_of_attempt_rows j d x :
  x ∈ attempt_rows j d ↔ ∃ a, attempts d !! a = Some x ∧ at_job_id x = j.
Proof.
  unfold attempt_rows. rewrite elem_of_py_sorted, list_elem_of_filter, list_elem_of_fmap. split.
  - intros (Hj & [a y] & -> & Hin%elem_of_map_to_list). eauto.
  - intros (a & Ha & Hj). split; [done|]. exists (a, x). by rewrite elem_of_map_to_list.
Qed.

Lemma attempt_rows_NoDup j d : Inv d → NoDup (attempt_number <$> attempt_rows j d).
Proof.
  intros HI. unfold attempt_rows. rewrite py_sorted_perm.
  assert (Hnd : NoDup (filter (λ a, at_job_id a = j) (snd <$> map_to_list (attempts d)))).
  { apply NoDup_filter. apply NoDup_fmap_2_strong; [|apply NoDup_map_to_list].
    intros [a x] [b y] Ha%elem_of_map_to_list Hb%elem_of_map_to_list E. simpl in *. subst y.
    f_equal. apply (inv_unique _ HI _ _ _ _ Ha Hb). unfold attempt_conflict.
    by rewrite bool_decide_eq_true_2. }
  apply NoDup_fmap_2_strong; [|done].
  intros x y [Hxj Hx]%list_elem_of_filter [Hyj Hy]%list_elem_of_filter E.
  apply list_elem_of_fmap in Hx as ([a x'] & -> & Ha%elem_of_map_to_list).
  apply list_elem_of_fmap in Hy as ([b y'] & -> & Hb%elem_of_map_to_list). simpl in *.
  assert (a = b) as ->; [|congruence]. apply (inv_unique _ HI _ _ _ _ Ha Hb).
  unfold attempt_conflict. rewrite Hxj, Hyj, E.
  rewrite (bool_decide_eq_true_2 (j = j)), (bool_decide_eq_true_2 (attempt_number y' = _)) by done.
  apply orb_true_r.
Qed.

Lemma attempt_rows_sorted j d : StronglySorted Z.le (attempt_number <$> attempt_rows j d).
Proof.
  assert (H : StronglySorted (λ a b, (attempt_number a <=? attempt_number b) = true)
    (attempt_rows j d)) by (unfold attempt_rows; apply py_sorted_sorted; intros *; cbn; lia).
  induction H as [|x l _ IH Hx]; simpl; constructor; [done|].
  apply Forall_fmap. eapply Forall_impl; [exact Hx|]. simpl. lia.
Qed.

Lemma seqZ_sorted m n : StronglySorted Z.le (seqZ m n).
Proof.
  destruct (Z.le_gt_cases n 0) as [H|H]; [rewrite seqZ_nil by done; constructor|].
  rewrite <-(Z2Nat.id n) by lia. generalize (Z.to_nat n) as k. clear n H. intros k.
  revert m. induction k as [|k IH]; intros m; [rewrite seqZ_nil by lia; constructor|].
  rewrite seqZ_cons by lia. replace (Z.pred (Z.of_nat (S k))) with (Z.of_nat k) by lia.
  constructor; [apply IH|]. apply Forall_forall. intros x Hx%elem_of_seqZ. lia.
Qed.

Lemma rmap_attempt_numbers l l' : rmap attempt_from_row l = Ok l' →
  attempt_number <$> l' = attempt_number <$> l.
Proof.
  revert l'. induction l as [|x l IH]; intros l' H; simpl in H; rok; [done|].
  unfold attempt_from_row in *. match goal with H : validate_attempt _ = _ |- _ =>
    apply validate_attempt_ok in H as [-> _] end.
  simpl. f_equal. by apply IH.
Qed.

(** A job's attempts are numbered 1, 2, ..., attempt_count without gap or
    repetition, [attempts(job_id)] lists them in that order, and there are never
    more of them than the retry policy's max_attempts. *)
Theorem attempts_are_numbered_and_bounded d j r :
  reachable d → jobs d !! j = Some r →
  attempt_number <$> attempt_rows j d = seqZ 1 (jr_attempt_count r)
  ∧ jr_attempt_count r <= max_attempts (jr_policy r)
  ∧ ∀ l, job_attempts j d = Ok l → attempt_number <$> l = seqZ 1 (jr_attempt_count r).
Proof.
  intros HI%reachable_inv Hr. pose proof (inv_job _ HI _ _ Hr) as Hj.
  assert (E : attempt_number <$> attempt_rows j d = seqZ 1 (jr_attempt_count r)).
  { apply (StronglySorted_unique Z.le); [apply attempt_rows_sorted|apply seqZ_sorted|].
    apply NoDup_Permutation; [by apply attempt_rows_NoDup|apply NoDup_seqZ|]. intros n.
    rewrite elem_of_seqZ, list_elem_of_fmap. split.
    - intros (x & -> & (a & Ha & Hja)%elem_of_attempt_rows).
      destruct (inv_attempt _ HI _ _ Ha) as [_ _ (r0 & Hr0 & Hn & _)].
      rewrite Hja in Hr0. simplify_eq. lia.
    - intros Hn. destruct (jo_attempts _ _ _ Hj n) as (a & x & Ha & Hxj & Hxn); [lia|].
      exists x. split; [done|]. apply elem_of_attempt_rows. eauto. }
  split_and!; [exact E|apply Hj|]. intros l Hl. rewrite <-E. by apply rmap_attempt_numbers.
Qed.

Lemma attempts_are_numbered_and_bounded_witness :
  attempt_number <$> attempt_rows 2 demo_lost = [1].
Proof.
  destruct (jobs demo_lost !! 2%N) as [r|] eqn:Hr; [|by vm_compute in Hr].
  rewrite (proj1 (attempts_are_numbered_and_bounded demo_lost 2 r demo_lost_reachable Hr)).
  rewrite (some_field jr_attempt_count _ r 1 Hr) by (vm_compute; reflexivity). reflexivity.
Defined.

(** The retry delay is backoff_seconds doubled for every attempt after the
    first and capped by max_backoff_seconds; it is never negative, never above
    the cap and never shrinks from one attempt to the next. From the 1025th
    attempt on the power no longer fits a float and the computation raises
    [OverflowError] whatever the policy. *)
Theorem backoff_is_capped_doubling (p : RetryPolicy) (n : Z) :
  policy_ok p →
  ((n <= 1024)%Z → ∃ q, backoff p n = Ok q
     ∧ q == Qmin (backoff_seconds p * inject_Z (2 ^ Z.max (n - 1) 0)%Z) (max_backoff_seconds p)
     ∧ 0 <= q ∧ q <= max_backoff_seconds p
     ∧ ∀ (m : Z) (q' : Q), (m <= n)%Z → backoff p m = Ok q' → q' <= q)%Q
  ∧ (1024 < n → backoff p n = Raise OverflowError).
Proof.
  intros (_ & Hb & Hcap). unfold backoff, rguard, mbind, rbind. split; intros Hn.
  2: { by rewrite (proj2 (Z.ltb_ge _ _)) by lia. }
  rewrite (proj2 (Z.ltb_lt _ _)) by lia.
  set (pw := λ n : Z, (backoff_seconds p * inject_Z (2 ^ Z.max (n - 1) 0)%Z)%Q).
  set (cap := λ n : Z, if Qltb (max_backoff_seconds p) (pw n) then max_backoff_seconds p else pw n).
  assert (Hle : ∀ n, (cap n <= max_backoff_seconds p)%Q).
  { intros k. unfold cap. destruct (Qltb _ _) eqn:E; [apply Qle_refl|].
    apply Qnot_lt_le. rewrite <-Qltb_lt. congruence. }
  assert (Hmono : ∀ m k, (m <= k)%Z → (pw m <= pw k)%Q).
  { intros m k Hmk. unfold pw. rewrite !(Qmult_comm (backoff_seconds p)).
    apply Qmult_le_compat_r; [|done]. rewrite <-Zle_Qle. apply Z.pow_le_mono_r; lia. }
  assert (Hpos : ∀ k, (0 <= pw k)%Q).
  { intros k. unfold pw. apply Qmult_le_0_compat; [done|].
    change 0%Q with (inject_Z 0). rewrite <-Zle_Qle. by apply Z.pow_nonneg. }
  exists (cap n). split_and!; [done| | |done|].
  - unfold cap. fold (pw n). destruct (Qltb _ _) eqn:E.
    + apply Qltb_lt, Qlt_le_weak in E. by rewrite Q.min_r.
    + rewrite Q.min_l; [done|]. apply Qnot_lt_le. rewrite <-Qltb_lt. congruence.
  - unfold cap. destruct (Qltb _ _); [|done]. by eapply Qle_trans.
  - intros m q' Hm. fold (pw m) (cap m). destruct (_ <? _)%Z; [|done]. intros [= <-].
    unfold cap at 1. destruct (Qltb _ (pw m)) eqn:E.
    + apply Qltb_lt in E. unfold cap. rewrite (proj2 (Qltb_lt _ (pw n))); [apply Qle_refl|].
      eapply Qlt_le_trans; [done|]. by apply Hmono.
    + unfold cap. destruct (Qltb _ (pw n)); [|by apply Hmono].
      apply Qnot_lt_le. rewrite <-Qltb_lt. congruence.
Qed.

Lemma backoff_is_capped_doubling_witness :
  ∃ q, backoff default_retry_policy 4 = Ok q ∧ (q == 8)%Q.
Proof.
  destruct (proj1 (backoff_is_capped_doubling default_retry_policy 4 ltac:(by split_and!)))
    as (q & Hq & E & _); [lia|].
  exists q. split; [exact Hq|]. rewrite E. reflexivity.
Defined.

(** A recorded failure is retried exactly when the caller calls it
    retryable, the policy lists its code and attempts remain: the job then goes
    back to the queue and becomes available after the backoff delay; otherwise it
    fails. Either way the attempt is closed with the error, its kind and code,
    and only the holder of an unexpired lease on the running attempt gets that
    far. *)
Theorem failures_are_retried_by_policy d j tok err code kind b now job d' :
  reachable d → record_failure j tok err code kind b now d = (Ok job, d') →
  ∃ r att delay, jobs d !! j = Some r ∧ active_attempt d j tok = Some att
    ∧ now < lease_expires_at att
    ∧ backoff (jr_policy r) (jr_attempt_count r) = Ok delay
    ∧ (if b && bool_decide (code ∈ retryable_outcomes (jr_policy r))
          && (jr_attempt_count r <? max_attempts (jr_policy r))
       then status job = queued ∧ dt_add now (td_us delay) = Ok (available_at job)
       else status job = failed ∧ available_at job = now)
    ∧ get_job j d' = Ok (Some job)
    ∧ ∃ att', attempts d' !! attempt_id att = Some att' ∧ ended_at att' = Some now
        ∧ outcome att' = Some o_failed ∧ error att' = Some err
        ∧ error_code att' = Some code ∧ failure_kind att' = Some kind.
Proof.
  intros HI%reachable_inv H.
  apply failure_cases in H as [(_ & e & ? & _)|(r & att & dl & av & k & Hr & Ha & Hlt & Hb & Hav
    & -> & HI' & Hk & Hx)]; [done| |done]. simplify_eq.
  destruct (active_attempt_row _ _ _ _ HI Ha) as (_ & _ & _ & _ & Hatt & _ & _ & Hopen & _).
  exists r, att, dl. split_and!; try done.
  - fold (will_retry code b r) in *. destruct (will_retry code b r); simplify_eq; done.
  - rewrite (get_job_ok _ _ HI'), Hk. simpl. by rewrite lookup_insert_eq.
  - simpl. rewrite lookup_alter_eq, Hatt. simpl. rewrite attempt_close_open by done.
    eexists. split; [done|]. done.
Qed.

Lemma failures_are_retried_by_policy_witness :
  ∃ r, jobs demo_running !! 2%N = Some r ∧ backoff (jr_policy r) (jr_attempt_count r) = Ok (1 * 1)%Q.
Proof.
  destruct (record_failure 2 200 "boom" "timeout" "execution" true 40 demo_running)
    as [[job|] d'] eqn:E; [|by vm_compute in E].
  destruct (failures_are_retried_by_policy _ _ _ _ _ _ _ _ _ _ demo_running_reachable E)
    as (r & att & dl & Hr & _ & _ & Hb & _).
  exists r. split; [exact Hr|].
  rewrite (some_field jr_policy _ r default_retry_policy Hr) in * by (vm_compute; reflexivity).
  rewrite (some_field jr_attempt_count _ r 1 Hr) in * by (vm_compute; reflexivity).
  vm_compute. reflexivity.
Defined.

Lemma lease_expired_same now d d' r :
  (jr_status r = running → ∀ a, jr_active r = Some a → attempts d' !! a = attempts d !! a) →
  lease_expired now d' r = lease_expired now d r.
Proof.
  intros H. unfold lease_expired. case_bool_decide as Hs; [|done]. simpl.
  destruct (jr_active r) as [a|]; [|done]. simpl. by rewrite H.
Qed.

(** Two running jobs never share an attempt. *)
Lemma active_unique d i j r s a : Inv d → jobs d !! i = Some r → jobs d !! j = Some s →
  jr_active r = Some a → jr_active s = Some a → jr_status r = running → jr_status s = running →
  i = j.
Proof.
  intros HI Hi Hj Ha Hb Hr Hs.
  destruct (jo_live _ _ _ (inv_job _ HI _ _ Hi) Hr) as (? & x & ? & ? & ? & _).
  destruct (jo_live _ _ _ (inv_job _ HI _ _ Hj) Hs) as (? & y & ? & ? & ? & _). congruence.
Qed.

(** No work is lost to a dead worker. After a reclaim pass no running job
    has an expired lease left; every job whose lease had expired is either queued
    again, available once its backoff has passed, or failed when its attempts are
    spent; every other job is untouched. *)
Theorem reclaim_recovers_lost_work d now ids d' :
  reachable d → reclaim_expired now d = (Ok ids, d') →
  (∀ j r, jobs d' !! j = Some r → lease_expired now d' r = false)
  ∧ (∀ j r, jobs d !! j = Some r → lease_expired now d r = true →
      ∃ r', jobs d' !! j = Some r' ∧ jr_attempt_count r' = jr_attempt_count r
        ∧ if jr_attempt_count r <? max_attempts (jr_policy r)
          then jr_status r' = queued ∧ (∃ delay, backoff (jr_policy r) (jr_attempt_count r) = Ok delay
                 ∧ dt_add now (td_us delay) = Ok (jr_available r'))
               ∧ claimable (jr_available r') r' = true
          else jr_status r' = failed)
  ∧ (∀ j r, jobs d !! j = Some r → lease_expired now d r = false → jobs d' !! j = Some r).
Proof.
  intros HI%reachable_inv H.
  apply reclaim_cases in H as [(_ & e & ?)|(HI' & _ & _ & _ & _ & _ & Hexp & Hrest & Hatt)];
    [done| |done].
  assert (Hkeep : ∀ j r, jobs d !! j = Some r → lease_expired now d r = false →
    jobs d' !! j = Some r).
  { intros j r Hr He. rewrite Hrest; [done|]. intros r0 ?. congruence. }
  split_and!; [|intros j r Hr He|exact Hkeep].
  - intros j r' Hr'. destruct (jobs d !! j) as [r|] eqn:Hr.
    + destruct (lease_expired now d r) eqn:He.
      * destruct (Hexp _ _ Hr He) as (r1 & Hr1%reclaimed_row_ok & Hj). simplify_eq.
        destruct Hr1 as [av ->]. unfold lease_expired. simpl. by destruct (_ <=? _).
      * rewrite (Hkeep _ _ Hr He) in Hr'. simplify_eq.
        rewrite <-He. apply lease_expired_same. intros Hs a Ha. apply Hatt.
        intros r0 j0 Hr0 He0 Ha0. assert (j0 = j) as ->; [|congruence].
        eapply active_unique; [exact HI|done..| |done]. by eapply lease_expired_running.
    + rewrite Hrest in Hr'; [congruence|]. intros r0 ?. congruence.
  - destruct (Hexp _ _ Hr He) as (r' & Hrow & Hj). exists r'. split; [done|].
    unfold reclaimed_row in Hrow. rok.
    rewrite (Z.leb_antisym (jr_attempt_count r)) in *.
    split; [by destruct (negb _)|].
    destruct (jr_attempt_count r <? max_attempts (jr_policy r)) eqn:Hc; simpl in *; [|done].
    split_and!; [done|eauto|]. apply claimable_iff. simpl. split_and!; [done|lia|lia].
Qed.

Lemma reclaim_recovers_lost_work_witness :
  ∃ r', jobs demo_lost !! 2%N = Some r' ∧ claimable (jr_available r') r' = true.
Proof.
  destruct (reclaim_expired demo_expired_at demo_running) as [[ids|] d'] eqn:E;
    [|by vm_compute in E].
  assert (Hd : demo_lost = d') by (unfold demo_lost, run, exec, discard; by rewrite E).
  destruct (jobs demo_running !! 2%N) as [r|] eqn:Hr; [|by vm_compute in Hr].
  destruct (proj1 (proj2 (reclaim_recovers_lost_work _ _ _ _ demo_running_reachable E)) _ _ Hr)
    as (r' & Hr' & _ & Hc).
  { apply (some_test _ _ _ Hr). vm_compute. reflexivity. }
  rewrite Hd. exists r'. split; [exact Hr'|].
  rewrite (some_field jr_policy _ r default_retry_policy Hr) in Hc by (vm_compute; reflexivity).
  rewrite (some_field jr_attempt_count _ r 1 Hr) in Hc by (vm_compute; reflexivity).
  exact (proj2 (proj2 Hc)).
Defined.
