(* ===== verification/JobSubmit.v ===== *)
(** Submitting and completing work: enqueue and complete as their callers rely
    on them. Enqueueing the same key twice is one job, what is enqueued is read
    back, a completion persists its result and its publication request exactly
    once, and a call that raises has changed nothing. *)

From S2P Require Import Prelude.
From S2P Require Import PyStr.
From S2P Require Import PyTime.
From S2P Require Import Json.
From S2P Require Import Contracts.
From S2P Require Import JobRepository.
From S2P Require Import JobInvariant.
From S2P Require Import JobEffects.
From S2P Require Import JobTheorems.
Open Scope Z_scope.

(** C16: a call that raises leaves the tables exactly as they were, whatever the
    exception and wherever in the method it was raised; heartbeat alone is
    excepted, because it validates the attempt it returns after the commit. *)
Theorem failed_calls_change_nothing d o now e d' :
  reachable d → exec o now d = (Raise e, d') →
  (∀ j tok ls, o ≠ Heartbeat j tok ls) → d' = d.
Proof.
  intros HI%reachable_inv H Hh. destruct o; simpl in H; unfold discard in H;
    try (by destruct (Hh _ _ _ eq_refl));
    match type of H with (_, snd ?p) = _ => destruct p as [x d1] eqn:E end;
    simpl in H; simplify_eq/=.
  - apply enqueue_cases in E as [[-> _]|[[-> _]|(_ & _ & _ & _ & _ & _ & _ & _ & ->)]]; done.
  - apply claim_cases in E as [[-> _]|[[-> _]|(r & ex & k & _ & _ & _ & _ & _ & _ & _ & _ & ->)]]; done.
  - apply complete_cases in E as [[-> _]|[[-> _]|(r & att & k & _ & _ & _ & _ & _ & _ & ->)]]; done.
  - apply failure_cases in E as [[-> _]|(r & att & dl & av & k & _ & _ & _ & _ & _ & _ & _ & _ & ->)];
      done.
  - apply cancel_cases in E as [[-> _]|[[-> _]|(r & k & _ & _ & _ & _ & _ & ->)]]; done.
  - apply reclaim_cases in E as [[-> _]|(_ & _ & _ & _ & _ & [v ->] & _)]; done.
  - by unfold acknowledge_completion, mmodify in E; simplify_eq.
Qed.

Lemma failed_calls_change_nothing_witness :
  (exec (Complete 2 999 "x" None) 40 demo_running).2 = demo_running.
Proof.
  destruct (exec (Complete 2 999 "x" None) 40 demo_running) as [[u|e] d'] eqn:E;
    [by vm_compute in E|].
  exact (failed_calls_change_nothing _ _ _ e d' demo_running_reachable E ltac:(done)).
Defined.

(** ** Enqueue *)

(** The job read back for an enqueued candidate: the row stores the retryable
    outcomes sorted. *)
Definition stored_job (c : Job) : Job :=
  mk_Job (job_id c) (task_id c) (status c) (priority c) (idempotency_key c)
    (mk_RetryPolicy (max_attempts (retry_policy c)) (backoff_seconds (retry_policy c))
       (max_backoff_seconds (retry_policy c)) (py_sorted str_leb (retryable_outcomes (retry_policy c))))
    (created_at c) (updated_at c) (available_at c) (cancellation_requested_at c) (cancelled_at c).

(** Enqueueing a new key creates one queued job that every query finds: by
    id, by its stripped key, and its task if one was given. *)
Theorem enqueue_then_read fresh tid task key prio policy now d job d' :
  reachable d → idem d !! strip key = None →
  enqueue fresh tid task key prio policy now d = (Ok job, d') →
  job_id job = fresh ∧ task_id job = tid ∧ status job = queued ∧ priority job = prio
  ∧ idempotency_key job = strip key ∧ retry_policy job = or_else policy default_retry_policy
  ∧ available_at job = now
  ∧ get_job fresh d' = Ok (Some (stored_job job))
  ∧ get_job_by_idempotency_key (strip key) d' = Ok (Some (stored_job job))
  ∧ (∀ t, task = Some t → get_task fresh d' = Some t).
Proof.
  intros HI%reachable_inv Hn H.
  apply enqueue_cases in H as [(_ & e & ?)|[(_ & j & t & r & Hk & _)|
    (_ & Hj & _ & _ & Htr & _ & -> & HI' & Hx)]]; [done|congruence| |done]. simplify_eq.
  set (r := enqueued_row fresh tid prio (or_else policy default_retry_policy) now) in *.
  set (d' := create_effect r (strip key) task now d) in *.
  assert (Hr : jobs d' !! fresh = Some r) by apply lookup_insert_eq.
  assert (Hk : idem d' !! strip key = Some (fresh, now)) by apply lookup_insert_eq.
  split_and!; try done.
  - rewrite (get_job_ok _ _ HI'), Hr. by rewrite (key_of_eq _ _ _ _ HI' Hk).
  - unfold get_job_by_idempotency_key. rewrite Hk, Hr.
    by rewrite (job_from_row_ok _ _ _ _ (inv_job _ HI' _ _ Hr) (strip_idemp key) Htr).
  - intros t ->. apply lookup_insert_eq.
Qed.

Lemma enqueue_then_read_witness :
  get_task 1 (enqueue 1 10 (Some demo_task) " first " 0 None 10 empty_db).2 = Some demo_task.
Proof.
  destruct (enqueue 1 10 (Some demo_task) " first " 0 None 10 empty_db) as [[x|] d'] eqn:E;
    [|by vm_compute in E].
  destruct (enqueue_then_read _ _ _ _ _ _ _ _ _ _ reach_empty eq_refl E)
    as (_ & _ & _ & _ & _ & _ & _ & _ & _ & Ht). exact (Ht _ eq_refl).
Defined.

(** Enqueue is idempotent on the stripped key. However much later, with
    whatever task, priority and policy, enqueueing the same key again writes
    nothing and returns the same job in its present state (or rejects its own
    arguments). *)
Theorem enqueue_is_idempotent f1 tid1 t1 k1 p1 pol1 n1 d job d1 d2
    f2 tid2 t2 k2 p2 pol2 n2 x d3 :
  reachable d → enqueue f1 tid1 t1 k1 p1 pol1 n1 d = (Ok job, d1) → later d1 d2 →
  strip k2 = strip k1 → enqueue f2 tid2 t2 k2 p2 pol2 n2 d2 = (x, d3) →
  d3 = d2 ∧ ∀ again, x = Ok again →
    job_id again = job_id job ∧ get_job (job_id job) d2 = Ok (Some again).
Proof.
  intros HI%reachable_inv H Hl Hs H'.
  assert (Inv d1 ∧ ∃ t, idem d1 !! strip k1 = Some (job_id job, t)) as [HI1 [t Hk]].
  { apply enqueue_cases in H as [(_ & e & ?)|[(-> & j & t & r & Hk & Hr & Hx)|
      (_ & _ & _ & _ & _ & _ & -> & HI' & Hx)]]; [done| | |done]; simplify_eq; split; try done.
    - exists t. simpl. by rewrite (jo_id _ _ _ (inv_job _ HI _ _ Hr)).
    - exists n1. apply lookup_insert_eq. }
  apply (later_key _ _ _ _ HI1 Hl) in Hk.
  assert (HI2 : Inv d2) by (by apply (later_inv d1)).
  apply enqueue_cases in H' as [(-> & e & ->)|[(-> & j & t' & r & Hk' & Hr & ->)|(Hk' & _)]];
    [done| |congruence|done].
  split; [done|]. intros again [= <-]. rewrite Hs, Hk in Hk'. simplify_eq.
  pose proof (jo_id _ _ _ (inv_job _ HI2 _ _ Hr)) as Hid. split; [done|].
  rewrite (get_job_ok _ _ HI2), Hr, (key_of_eq _ _ _ _ HI2 Hk). by rewrite Hs.
Qed.

Lemma enqueue_is_idempotent_witness :
  (enqueue 77 10 None "first" 50 None 99 demo_done).2 = demo_done.
Proof.
  set (d1 := run (Enqueue 1 10 (Some demo_task) " first " 0 None) 10 empty_db).
  destruct (enqueue 1 10 (Some demo_task) " first " 0 None 10 empty_db) as [[x|] d'] eqn:E;
    [|by vm_compute in E].
  assert (Hd : d1 = d') by (unfold d1, run, exec, discard; by rewrite E).
  assert (Hl : later d' demo_done)
    by (rewrite <-Hd; do 3 apply later_step; apply later_refl).
  destruct (enqueue 77 10 None "first" 50 None 99 demo_done) as [y d3] eqn:E'.
  exact (proj1 (enqueue_is_idempotent _ _ _ _ _ _ _ _ _ _ _ _ _ _ _ _ _ _ _ _
    reach_empty E Hl (eq_refl : strip "first" = strip " first ") E')).
Defined.

(** ** Complete *)

(** Persisting a result cannot fail for a running job whose task is stored. *)
Lemma persist_result_total d j a res now :
  outputs d !! j = None → outbox d !! j = None →
  (∀ j' o, outbox d !! j' = Some o → ob_attempt o ≠ a) →
  is_Some (jobs d !! j) → is_Some (attempts d !! a) →
  (∀ x, res = Some x → needs_evidence x = true → is_Some (job_tasks d !! j)) →
  persist_result j a res now d = (Ok tt, completion_tables j a res now d).
Proof.
  intros Ho Hb Hu Hj Ha Ht. unfold persist_result, completion_tables.
  destruct res as [res|]; [|done].
  rewrite (mbind_step _ _ _ d d) by done.
  rewrite (mbind_step _ _ _ tt d) by (apply mguard_true; by rewrite Ho).
  assert (E : set_outputs (λ o, match o !! j with
    | Some _ => o | None => <[j := (canon (JObj res), now)]> o end) d
    = set_outputs <[j := (canon (JObj res), now)]> d) by (unfold set_outputs; by rewrite Ho).
  rewrite (mbind_step _ _ _ tt (set_outputs <[j := (canon (JObj res), now)]> d))
    by (unfold mmodify; by rewrite E).
  destruct (needs_evidence res) eqn:Hn; [|done].
  erewrite mbind_step by done.
  erewrite mbind_step by (apply mguard_true, bool_decide_eq_true_2; simpl; by eapply Ht).
  unfold insert_outbox. erewrite mbind_step by done.
  erewrite mbind_step; [done|]. apply mguard_true. simpl.
  rewrite !bool_decide_eq_true_2 by done.
  rewrite (proj2 (existsb_false_iff _ _)); [done|].
  intros [j' o] Hin%elem_of_map_to_list. simpl. apply bool_decide_eq_false_2. by eapply Hu.
Qed.

(** The holder of an unexpired lease can always complete the job, provided its
    task is stored when there is evidence to publish. *)
Lemma complete_total d j tok att out res now : Inv d →
  active_attempt d j tok = Some att → now < lease_expires_at att →
  (∀ x, res = Some x → needs_evidence x = true → is_Some (job_tasks d !! j)) →
  is_ok (complete j tok out res now d).1.
Proof.
  intros HI Ha Hlt Htask.
  destruct (active_attempt_row _ _ _ _ HI Ha) as (r & Hr & Hs & Hact & Hatt & _ & Hj & Hop & Hoc).
  destruct (complete j tok out res now d) as [x d'] eqn:H. simpl.
  apply complete_cases in H as [(_ & e & _ & Htx)|[(_ & r' & k & Hr' & Hc & _)|
    (? & ? & ? & _ & _ & _ & _ & _ & _ & ->)]]; [|congruence|by eexists|done].
  exfalso. revert Htx. unfold finish_tx. erewrite mbind_step by done. rewrite Hr, Hs, Ha.
  rewrite (bool_decide_eq_false_2 (running = completed)) by done. cbn [andb].
  erewrite mbind_step by done.
  erewrite mbind_step by (apply mguard_true; lia).
  erewrite mbind_step by done.
  erewrite mbind_step by done.
  erewrite mbind_step; [by intros [=]|]. apply persist_result_total; simpl.
  - destruct (outputs d !! j) eqn:E; [|done].
    destruct (inv_output _ HI _ _ E) as (r1 & ? & ?). congruence.
  - destruct (outbox d !! j) eqn:E; [|done].
    destruct (inv_outbox _ HI _ _ E) as ([? E'] & _).
    destruct (inv_output _ HI _ _ E') as (r1 & ? & ?). congruence.
  - intros j' o Hin E. destruct (inv_outbox _ HI _ _ Hin) as (_ & _ & y & Hy & _ & Hc). congruence.
  - by eexists.
  - rewrite (alter_as_insert _ _ _ _ Hatt), lookup_insert_eq. by eexists.
  - done.
Qed.

Lemma complete_persists d j tok att out res now : Inv d →
  active_attempt d j tok = Some att → now < lease_expires_at att →
  (∀ x, res = Some x → needs_evidence x = true → is_Some (job_tasks d !! j)) →
  ∃ job d', complete j tok out res now d = (Ok job, d') ∧ status job = completed
    ∧ get_job j d' = Ok (Some job) ∧ get_result j d' = (λ x, canon (JObj x)) <$> res.
Proof.
  intros HI Ha Hlt Htask.
  pose proof (complete_total _ _ _ _ out res now HI Ha Hlt Htask) as [job Hok].
  destruct (complete j tok out res now d) as [x d'] eqn:H. simpl in Hok. subst x.
  destruct (active_attempt_row _ _ _ _ HI Ha) as (r & Hr & Hs & _).
  assert (Hno : outputs d !! j = None).
  { destruct (outputs d !! j) eqn:E; [|done].
    destruct (inv_output _ HI _ _ E) as (r1 & ? & ?). congruence. }
  apply complete_cases in H as [(_ & e & ? & _)|[(_ & r' & k & Hr' & Hc & _)|
    (r' & att' & k & Hr' & Ha' & _ & -> & HI' & Hk & Hx)]]; [done|congruence| |done].
  injection Hx as ->. eexists _, _. split; [done|].
  set (d' := complete_effect j r' att' out res now d) in *.
  assert (Hrow : jobs d' !! j = Some (row_release completed now (jr_available r') r')).
  { unfold d', complete_effect. rewrite (proj1 (completion_tables_jobs _ _ _ _ _)).
    apply lookup_insert_eq. }
  split_and!; [done|by rewrite (get_job_ok _ _ HI'), Hrow, Hk|].
  unfold d', get_result, complete_effect, completion_tables. destruct res as [res|];
    [destruct (needs_evidence res)|]; simpl; by rewrite ?lookup_insert_eq, ?Hno.
Qed.

(** The holder of an unexpired lease completes its job, once and for all:
    the job is completed, the attempt closed with the output reference, the
    result stored in canonical form, and a publication request queued exactly
    when the result carries evidence. With evidence but no stored task nothing
    is written. *)
Theorem complete_persists_result d j tok att out res now :
  reachable d → active_attempt d j tok = Some att → now < lease_expires_at att →
  (∀ x, res = Some x → needs_evidence x = true → is_Some (job_tasks d !! j)) →
  ∃ job d', complete j tok out res now d = (Ok job, d') ∧ job_id job = j ∧ status job = completed
    ∧ get_job j d' = Ok (Some job)
    ∧ get_result j d' = (λ x, canon (JObj x)) <$> res
    ∧ outbox d' !! j = (res ≫= λ x, if needs_evidence x
                                    then Some (mk_outbox (attempt_id att) now None) else None)
    ∧ ∃ att', attempts d' !! attempt_id att = Some att' ∧ outcome att' = Some o_completed
        ∧ ended_at att' = Some now ∧ output_ref att' = Some out ∧ lease_token att' = tok.
Proof.
  intros HI%reachable_inv Ha Hlt Htask.
  destruct (complete_persists _ _ _ _ out res now HI Ha Hlt Htask) as (job & d' & H & Hst & Hget & Hgr).
  exists job, d'. split; [done|].
  destruct (active_attempt_row _ _ _ _ HI Ha) as (r & Hr & Hs & Hact & Hatt & Htok & Hj & Hop & _).
  assert (Hnb : outbox d !! j = None).
  { destruct (outbox d !! j) eqn:E; [|done]. destruct (inv_outbox _ HI _ _ E) as ([? Ho] & _).
    destruct (inv_output _ HI _ _ Ho) as (r1 & ? & ?). congruence. }
  apply complete_cases in H as [(_ & e & ? & _)|[(_ & r' & k & Hr' & Hc & _)|
    (r' & att' & k & Hr' & Ha' & _ & -> & HI' & Hk & Hx)]]; [done|congruence| |done].
  assert (r' = r) as -> by congruence. assert (att' = att) as -> by congruence.
  injection Hx as ->. split_and!; [apply (inv_job _ HI _ _ Hr)|done..| |].
  - unfold complete_effect, completion_tables. destruct res as [res|]; simpl; [|done].
    destruct (needs_evidence res); simpl; [by rewrite lookup_insert_eq|done].
  - exists (attempt_close now o_completed (failure_kind att) (error_code att) None (Some out) att).
    unfold complete_effect. rewrite (proj1 (proj2 (completion_tables_jobs _ _ _ _ _))). simpl.
    rewrite lookup_alter_eq, Hatt. simpl. rewrite attempt_close_open by done. by split_and!.
Qed.

Lemma complete_persists_result_witness :
  ∃ job d', complete 2 200 "job-output" (Some demo_result) 40 demo_running = (Ok job, d')
    ∧ get_result 2 d' = Some (canon (JObj demo_result)).
Proof.
  destruct (active_attempt demo_running 2 200) as [att|] eqn:Ha; [|by vm_compute in Ha].
  destruct (complete_persists_result demo_running 2 200 att "job-output" (Some demo_result) 40
    demo_running_reachable Ha) as (job & d' & H & _ & _ & _ & Hr & _).
  - pose proof (some_test (λ a, 40 <? lease_expires_at a) _ _ Ha eq_refl). lia.
  - intros x [= <-] Hn. by vm_compute in Hn.
  - exact (ex_intro _ job (ex_intro _ d' (conj H Hr))).
Defined.

(** Repeating a successful completion is safe. Any time later the same
    call (a worker that lost the response and retries) returns the same job and
    writes nothing. *)
Theorem complete_is_repeatable d j tok out res now x d1 d2 now' :
  reachable d → complete j tok out res now d = (Ok x, d1) → later d1 d2 →
  complete j tok out res now' d2 = (Ok x, d2).
Proof.
  intros HI%reachable_inv H Hl.
  destruct (complete_ok_attempt _ _ _ _ _ _ _ _ HI H)
    as (r & k & t & a & att & HI1 & Hr & Hc & -> & Hk & Ha & Hj & Ho & Ht & Hout).
  assert (HI2 : Inv d2) by (by apply (later_inv d1)).
  assert (Hr2 : jobs d2 !! j = Some r) by (apply (later_terminal d1); [done..|by rewrite Hc]).
  assert (Ha2 : attempts d2 !! a = Some att).
  { eapply later_closed; [exact HI1|done..|]. destruct (ended_at att) eqn:He; [by eexists|].
    destruct (inv_attempt _ HI1 _ _ Ha) as [_ Hoc _]. by rewrite (proj1 Hoc He) in Ho. }
  assert (Hres : ∀ y, res = Some y → ∃ at_, outputs d2 !! j = Some (canon (JObj y), at_)).
  { intros y ->. assert (∃ at_, outputs d1 !! j = Some (canon (JObj y), at_)) as [at_ Hy];
      [|exists at_; eapply (later_output d1); eassumption].
    pose proof H as H'. apply complete_cases in H' as [(_ & e & ? & _)|[(-> & r' & k' & Hr' & Hc' & Hrep & _)|
      (r' & att' & k' & _ & _ & _ & -> & _)]]; [done| | |done].
    - revert H. unfold complete, finish, finish_tx, transaction.
      unfold mbind at 1, M_bind at 1. rewrite (mbind_step mget _ d d d) by done.
      rewrite Hr', Hc'. rewrite (bool_decide_eq_true_2 (completed = completed)) by done. rewrite Hrep. simpl.
      unfold mguard, mlift, rguard. destruct (outputs d !! j) as [[v at_]|]; [|done].
      case_bool_decide as E; [|done]. intros _. exists at_. by rewrite E.
    - unfold complete_effect, completion_tables. exists now.
      destruct (needs_evidence y); simpl; by rewrite lookup_insert_eq. }
  assert (Hrep : is_replay d2 j tok (Some out) = true).
  { unfold is_replay. rewrite <-Ht, (prior_completion_is d2 j a att HI2 Ha2 Hj Ho).
    by apply bool_decide_eq_true_2. }
  unfold complete, finish. rewrite (mbind_step _ _ _ tt d2).
  - destruct (return_job_ok _ _ _ HI2 Hr2) as (k' & Hk' & ->).
    eapply later_key in Hk; [|exact HI1|done]. by rewrite (key_of_eq _ _ _ _ HI2 Hk) in Hk'; simplify_eq.
  - apply transaction_ok. unfold finish_tx. rewrite (mbind_step mget _ d2 d2 d2) by done.
    rewrite Hr2, Hc. rewrite (bool_decide_eq_true_2 (completed = completed)) by done. rewrite Hrep. simpl.
    apply mguard_true. destruct res as [y|]; [|done]. destruct (Hres y eq_refl) as [at_ ->].
    by apply bool_decide_eq_true_2.
Qed.

Lemma complete_is_repeatable_witness :
  (complete 2 200 "job-output" (Some demo_result) 777 demo_done).2 = demo_done.
Proof.
  destruct (complete 2 200 "job-output" (Some demo_result) 40 demo_running) as [[x|] d1] eqn:E;
    [|by vm_compute in E].
  assert (Hd : demo_done = d1) by (unfold demo_done, run, exec, discard; by rewrite E).
  pose proof (complete_is_repeatable _ _ _ _ _ _ _ _ _ 777 demo_running_reachable E (later_refl _)) as H.
  rewrite <-Hd in H. rewrite H. reflexivity.
Defined.

(** Cancelling takes any queued or running job out for good, ending its
    attempt if it has one; a job already cancelled is returned as it is, and a
    completed or failed one refuses with [ValueError]. *)
Theorem cancel_by_status d j r now : reachable d → jobs d !! j = Some r →
  match jr_status r with
  | queued | running => ∃ job d', cancel j now d = (Ok job, d') ∧ status job = cancelled
      ∧ cancelled_at job = Some now ∧ get_job j d' = Ok (Some job)
      ∧ ∀ a att, attempts d !! a = Some att → at_job_id att = j → ended_at att = None →
          ∃ att', attempts d' !! a = Some att' ∧ outcome att' = Some o_cancelled
            ∧ ended_at att' = Some now
  | cancelled => ∃ job, cancel j now d = (Ok job, d) ∧ get_job j d = Ok (Some job)
  | completed | failed => cancel j now d = (Raise ValueError, d)
  end.
Proof.
  intros HI%reachable_inv Hr. pose proof (inv_job _ HI _ _ Hr) as Hj.
  assert (Hlive : jr_status r = queued ∨ jr_status r = running →
    ∃ job d', cancel j now d = (Ok job, d') ∧ status job = cancelled
      ∧ cancelled_at job = Some now ∧ get_job j d' = Ok (Some job)
      ∧ ∀ a att, attempts d !! a = Some att → at_job_id att = j → ended_at att = None →
          ∃ att', attempts d' !! a = Some att' ∧ outcome att' = Some o_cancelled
            ∧ ended_at att' = Some now).
  { intros Hs. destruct (cancel j now d) as [x d'] eqn:H.
    apply cancel_cases in H as [(_ & e & _ & Htx)|[(_ & r' & k & Hr' & Hc & _)|
      (r' & k & Hr' & _ & -> & HI' & Hk & ->)]]; [exfalso| | |done].
    - revert Htx. unfold cancel_tx. erewrite mbind_step by done. rewrite Hr.
      rewrite (bool_decide_eq_false_2 (jr_status r = cancelled)) by (by destruct Hs as [-> | ->]).
      rewrite (mbind_step (mlift _) _ d tt d) by
        (unfold mlift; f_equal; apply transition_ok; destruct Hs as [-> | ->]; simpl; set_solver).
      rewrite (mbind_step _ _ d tt (if bool_decide (jr_status r = running)
        then (close_by_id (jr_active r) now o_cancelled d).2 else d)).
      + by intros [=].
      + case_bool_decide; [|done]. by rewrite close_by_id_eq.
    - destruct Hs; congruence.
    - assert (r' = r) as -> by congruence. eexists _, _. split; [done|]. split_and!; [done..| |].
      + rewrite (get_job_ok _ _ HI'), Hk. simpl. by rewrite lookup_insert_eq.
      + intros a att Ha Hja He.
        destruct (inv_attempt _ HI _ _ Ha) as [_ _ (r0 & Hr0 & _ & Hl & _)].
        destruct (Hl He) as [_ Hact]. rewrite Hja in Hr0. simplify_eq. simpl.
        rewrite Hact, lookup_alter_eq, Ha. simpl. unfold close_own.
        rewrite attempt_close_open by done. eexists; split; [done|]. done. }
  destruct (jr_status r) eqn:Hs; [by apply Hlive; left|by apply Hlive; right| | |].
  3: { destruct (return_job_ok _ _ _ HI Hr) as (k & Hk & E). exists (job_of k r).
       split; [|by rewrite (get_job_ok _ _ HI), Hr, Hk].
       unfold cancel. erewrite mbind_step; [exact E|]. apply transaction_ok.
       unfold cancel_tx. erewrite mbind_step by done. by rewrite Hr, Hs. }
  all: unfold cancel, cancel_tx, transaction, mbind, M_bind, mget; by rewrite Hr, Hs.
Qed.

Lemma cancel_by_status_witness : cancel 2 50 demo_done = (Raise ValueError, demo_done).
Proof.
  destruct (jobs demo_done !! 2%N) as [r|] eqn:Hr; [|by vm_compute in Hr].
  pose proof (cancel_by_status demo_done 2 r 50 demo_done_reachable Hr) as H.
  rewrite (some_field jr_status _ r completed Hr) in H by (vm_compute; reflexivity).
  exact H.
Defined.

(** A heartbeat that returns has renewed exactly the caller's lease: the
    caller held the unexpired lease of the running job, keeps it, and it now ends
    [lease_seconds] after the present; no other job or attempt changes. *)
Theorem heartbeat_renews_own_lease d j tok ls now att' d' :
  reachable d → heartbeat j tok ls now d = (Ok att', d') →
  ∃ att, active_attempt d j tok = Some att ∧ now < lease_expires_at att
    ∧ dt_add now (td_us ls) = Ok (lease_expires_at att')
    ∧ lease_token att' = tok
    ∧ (∀ i, i ≠ j → jobs d' !! i = jobs d !! i)
    ∧ (∀ a, a ≠ attempt_id att → attempts d' !! a = attempts d !! a)
    ∧ ∃ raw, active_attempt d' j tok = Some raw ∧ lease_expires_at raw = lease_expires_at att'.
Proof.
  intros HI%reachable_inv H.
  apply heartbeat_cases in H as [(_ & e & ?)|(att & ex & Ha & Hl & He & -> & HI' & Hr)]; [done| |done].
  destruct (active_attempt_row _ _ _ _ HI Ha) as (r & Hj & Hs & Hact & Hatt & Ht & _ & Hop & _).
  symmetry in Hr. unfold attempt_from_row in Hr. apply validate_attempt_ok in Hr as [-> _].
  exists att. simpl. split_and!; try done.
  - intros i Hi. by rewrite lookup_alter_ne.
  - intros a Hne. by rewrite lookup_alter_ne.
  - exists (attempt_extend ex att). split; [|done]. unfold active_attempt. simpl.
    rewrite lookup_alter_eq, Hj. simpl. rewrite Hact. simpl. rewrite lookup_alter_eq, Hatt. simpl.
    by rewrite Hs, Ht, Hop, !bool_decide_eq_true_2.
Qed.

Lemma heartbeat_renews_own_lease_witness :
  ∃ raw, active_attempt (run (Heartbeat 2 200 60) 40 demo_running) 2 200 = Some raw.
Proof.
  destruct (heartbeat 2 200 60 40 demo_running) as [[a|] d'] eqn:E; [|by vm_compute in E].
  assert (Hd : run (Heartbeat 2 200 60) 40 demo_running = d')
    by (unfold run, exec, discard; by rewrite E).
  destruct (heartbeat_renews_own_lease _ _ _ _ _ _ _ demo_running_reachable E)
    as (_ & _ & _ & _ & _ & _ & _ & raw & Hraw & _).
  rewrite Hd. exact (ex_intro _ raw Hraw).
Defined.

(** A clock behind [started_at]: the lease is shortened and committed, and only
    then does validating the returned attempt raise. *)
Example heartbeat_commits_before_validating :
  (exec (Heartbeat 2 200 (5 # 1000000)) 10 demo_running).1 = Raise ValueError
  ∧ (lease_expires_at <$> active_attempt (run (Heartbeat 2 200 (5 # 1000000)) 10 demo_running) 2 200)
    = Some 15.
Proof. by vm_compute. Qed.
