(* ===== verification/Worker.v ===== *)
(** core/jobs/worker.py: the worker that claims jobs, executes them under a
    renewed lease and records the outcome.

    The executor and the other processes sharing the job store run while
    [_execute] does: the model takes what the executor ends with and, as a
    function on the tables, whatever was committed meanwhile. Threads appear as
    the calls they make, in the order the database serializes them. *)

From S2P Require Import Prelude.
From S2P Require Import PyStr.
From S2P Require Import PyTime.
From S2P Require Import Json.
From S2P Require Import Contracts.
From S2P Require Import JobRepository.
From S2P Require Import JobInvariant.
From S2P Require Import JobEffects.
From S2P Require Import JobTheorems.
From S2P Require Import JobSubmit.
Open Scope Z_scope.

(** ** WorkerConfig *)

Record WorkerConfig := mk_WorkerConfig {
  wc_worker_id : string;
  concurrency : Z;
  lease_seconds : Q;
  heartbeat_seconds : Q;
  poll_seconds : Q }.

(** [__post_init__]. *)
Definition validate_config (c : WorkerConfig) : result WorkerConfig :=
  rguard (truthy_str (strip (wc_worker_id c))) ValueError;;
  rguard (negb (concurrency c <? 1)) ValueError;;
  rguard (negb (Qle_bool (lease_seconds c) 0 || Qle_bool (heartbeat_seconds c) 0)) ValueError;;
  rguard (negb (Qle_bool (lease_seconds c) (heartbeat_seconds c))) ValueError;;
  rguard (negb (Qle_bool (poll_seconds c) 0)) ValueError;;
  Ok c.

(** ** _execute *)

(** How a call of the executor ends: its result, or the exception by the
    [except] clause that catches it. *)
Inductive executed :=
  | Returned (r : jdict)
  | Cancelled
  | Retryable (message code : string)
  | LateState
  | Failed (message : string).

(** [str(exc)] of an exception the repository raised. *)
Section Execute.
Context (exn_str : exn → string) (j tok : uuid).

(** [_record_failure]: a conflict means the result is late and is dropped. *)
Definition w_record_failure (message code : string) (retryable : bool) (now : time) : M db unit :=
  λ d, match record_failure j tok message code "execution" retryable now d with
       | (Ok _, d') => (Ok tt, d')
       | (Raise LeaseConflict, d') | (Raise InvalidJobState, d') => (Ok tt, d')
       | (Raise e, d') => (Raise e, d')
       end.

(** The [try] block from the executor's return on, with its [except] clauses.
    [cancelled] is the state of the cancellation token. *)
Definition execute_finish (outcome : executed) (cancelled : bool) (now : time) : M db unit :=
  λ d, match outcome with
  | Returned r =>
      if cancelled then (Ok tt, d) else
      match complete j tok ("job-output:" +:+ uuid_str j) (Some r) now d with
      | (Ok _, d') => (Ok tt, d')
      | (Raise JobCancelled, d') | (Raise LeaseConflict, d') | (Raise InvalidJobState, d') =>
          (Ok tt, d')
      | (Raise e, d') => w_record_failure (exn_str e) "permanent" false now d'
      end
  | Cancelled | LateState => (Ok tt, d)
  | Retryable message code => w_record_failure message code true now d
  | Failed message => w_record_failure message "permanent" false now d
  end.

(** [_execute]: [meanwhile] is what other calls commit while the executor runs. *)
Definition execute (a : uuid) (executor : TaskContract → executed) (cancelled : bool)
    (meanwhile : db → db) (now1 now2 : time) : M db unit :=
  λ d, match get_task j d with
  | None =>
      match record_failure j tok "persisted task input is missing" "invalid_input" "execution"
              false now1 d with
      | (Ok _, d') => (Ok tt, d')
      | (Raise e, d') => (Raise e, d')
      end
  | Some t =>
      let execution_task := mk_Task (t_task_id t) (origin t) (skill t) (payload t)
        (confidence_threshold t) (deadline_ms t) (workspace_root t) (output_path t) (Some a)
        (t_created_at t) in
      execute_finish (executor execution_task) cancelled now2 (meanwhile d)
  end.
End Execute.

(** ** _heartbeat *)

(** One turn of the loop; [Some c] when the thread ends, [c] saying whether it
    cancelled the token. An exception other than the two caught ones kills the
    thread. *)
Definition heartbeat_tick (j tok : uuid) (ls : Q) (now : time) (d : db) : option bool * db :=
  match get_job j d with
  | Raise _ => (Some false, d)
  | Ok None => (Some true, d)
  | Ok (Some job) =>
      if bool_decide (status job = cancelled) then (Some true, d)
      else match heartbeat j tok ls now d with
           | (Ok _, d') => (None, d')
           | (Raise LeaseConflict, d') | (Raise InvalidJobState, d') => (Some true, d')
           | (Raise _, d') => (Some false, d')
           end
  end.

(** The loop over the instants its waits end at, each preceded by what other
    calls committed during the wait; the list is exhausted when [stop] is set. *)
Fixpoint heartbeat_loop (j tok : uuid) (ls : Q) (waits : list ((db → db) * time)) (d : db) :
    option bool * db :=
  match waits with
  | [] => (None, d)
  | (meanwhile, now) :: waits =>
      match heartbeat_tick j tok ls now (meanwhile d) with
      | (Some c, d') => (Some c, d')
      | (None, d') => heartbeat_loop j tok ls waits d'
      end
  end.

(** ** run_cycle *)

(** A future stands for the claimed attempt it executes. *)
Record worker := mk_worker {
  active_futures : list uuid;
  stopping : bool }.

(** [run_cycle] without its logging: [done] are the futures that have finished,
    [hook] is the cycle hook. Returns whether anything happened and the claim
    handed to the pool. *)
Definition run_cycle (c : WorkerConfig) (hook : M db unit) (done : list uuid)
    (fresh_attempt fresh_token : uuid) (now : time) (w : worker) :
    M db (bool * option (Job * ExecutionAttempt) * worker) :=
  hook;;
  let active := filter (λ f, f ∉ done) (active_futures w) in
  reclaimed ← reclaim_expired now;
  let any := match reclaimed with [] => false | _ => true end in
  if stopping w || (concurrency c <=? Z.of_nat (length active)) then
    mret (any, None, mk_worker active (stopping w))
  else
    claimed ← claim fresh_attempt fresh_token (wc_worker_id c) (lease_seconds c) now;
    match claimed with
    | None => mret (any, None, mk_worker active (stopping w))
    | Some (job, att) =>
        mret (true, Some (job, att), mk_worker (attempt_id att :: active) (stopping w))
    end.

(** [request_stop] and [shutdown]. *)
Definition request_stop (w : worker) : worker := mk_worker (active_futures w) true.

(** ** Lemmas *)

(** The lease is the caller's to write with: running, held under [tok], unexpired. *)
Definition holds_lease (d : db) (j tok : uuid) (now : time) : Prop :=
  ∃ att, active_attempt d j tok = Some att ∧ now < lease_expires_at att.

Definition late (e : exn) : Prop := e = LeaseConflict ∨ e = InvalidJobState.

Lemma record_failure_without_lease d j tok err code kind b now :
  ¬ holds_lease d j tok now → is_Some (jobs d !! j) →
  ∃ e, record_failure j tok err code kind b now d = (Raise e, d) ∧ late e.
Proof.
  intros Hno [r Hr]. unfold record_failure, record_failure_tx, transaction, mbind, M_bind, mget.
  rewrite Hr. unfold mguard, mlift, rguard, late.
  case_bool_decide; [|eauto]. destruct (active_attempt d j tok) as [att|] eqn:Ha; [|eauto].
  destruct (lease_expires_at att <=? now) eqn:Hl; [simpl; eauto|].
  exfalso. apply Hno. exists att. split; [done|]. lia.
Qed.

Lemma complete_without_lease d j tok out res now :
  Inv d → ¬ holds_lease d j tok now → is_Some (jobs d !! j) →
  ∃ x, complete j tok out res now d = (x, d) ∧ (is_ok x ∨ ∃ e, x = Raise e ∧ late e).
Proof.
  intros HI Hno [r Hr]. destruct (complete j tok out res now d) as [x d'] eqn:H. exists x.
  pose proof H as H'.
  apply complete_cases in H' as [(-> & e & -> & Htx)|[(-> & r' & k & _ & _ & _ & _ & ->)|
    (r' & att & k & _ & Ha & Hl & _)]]; [| | |done].
  - split; [done|]. right. exists e. split; [done|]. revert Htx.
    unfold finish_tx, mbind, M_bind, mget. rewrite Hr. unfold mguard, mlift, rguard, late.
    destruct (_ && _ && is_replay _ _ _ _) eqn:Hrep;
      [repeat case_match; simpl; intros; simplify_eq; auto|].
    destruct (bool_decide (jr_status r = running)) eqn:Hs; [|simpl; intros; simplify_eq; auto].
    destruct (active_attempt d j tok) as [att|] eqn:Ha; [|simpl; intros; simplify_eq; auto].
    destruct (lease_expires_at att <=? now) eqn:Hl; [simpl; intros; simplify_eq; auto|].
    exfalso. apply Hno. exists att. split; [done|]. lia.
  - split; [done|]. left. by eexists.
  - exfalso. apply Hno. by exists att.
Qed.

Lemma later_task d d' j : Inv d → later d d' → is_Some (job_tasks d !! j) →
  is_Some (job_tasks d' !! j).
Proof.
  intros HI Hl. apply (later_keeps (λ d, is_Some (job_tasks d !! j))); try done.
  intros d1 d2 (_ & Hc & _) Ht. destruct Hc; simpl; try done.
  - destruct task; [|done]. rewrite lookup_insert. case_decide; [by eexists|done].
  - by destruct (completion_tables_jobs j0 a res now d1) as (_ & _ & _ & ->).
Qed.

Lemma later_job d d' j : Inv d → later d d' → is_Some (jobs d !! j) → is_Some (jobs d' !! j).
Proof.
  intros HI Hl. apply (later_keeps (λ d, is_Some (jobs d !! j))); try done.
  intros d1 d2 (HI1 & Hc & _) Ht. destruct Hc; simpl; try done;
    try (rewrite lookup_insert; case_decide; [by eexists|done]).
  - rewrite lookup_alter. case_decide; [|done]. subst. by destruct Ht as [? ->]; eexists.
  - by destruct (completion_tables_jobs j0 a res now d1) as (-> & _).
Qed.

(** ** The theorems *)

(** A worker that lost its lease cannot do harm. Whatever the executor ends
    with (a result, a retryable or permanent error, a cancellation), if by then
    the job is no longer running under this worker's unexpired lease, [_execute]
    leaves every table as the others left it and raises nothing. *)
Theorem late_results_are_discarded exn_str j tok a executor c meanwhile now1 now2 d :
  reachable d → later d (meanwhile d) → is_Some (jobs d !! j) → is_Some (get_task j d) →
  ¬ holds_lease (meanwhile d) j tok now2 →
  execute exn_str j tok a executor c meanwhile now1 now2 d = (Ok tt, meanwhile d).
Proof.
  intros HI%reachable_inv Hl Hj [t Ht] Hno. unfold execute. rewrite Ht.
  assert (HI' : Inv (meanwhile d)) by (by apply (later_inv d)).
  assert (Hj' : is_Some (jobs (meanwhile d) !! j)) by (by apply (later_job d)).
  assert (Hw : ∀ m code b, w_record_failure j tok m code b now2 (meanwhile d) = (Ok tt, meanwhile d)).
  { intros m code b. unfold w_record_failure.
    destruct (record_failure_without_lease _ _ _ m code "execution" b _ Hno Hj')
      as (e & -> & [-> | ->]); done. }
  unfold execute_finish. destruct (executor _); try done. destruct c; [done|].
  destruct (complete_without_lease (meanwhile d) j tok ("job-output:" +:+ uuid_str j) (Some r) now2 HI' Hno Hj')
    as (x & -> & [[v ->]|(e & -> & [-> | ->])]); done.
Qed.

Lemma late_results_are_discarded_witness :
  execute (λ _, "") 1 200 100 (λ _, Returned demo_result) false (λ d, d) 50 60 demo_running
  = (Ok tt, demo_running).
Proof.
  apply (late_results_are_discarded (λ _, "") 1 200 100 (λ _, Returned demo_result) false (λ d, d)
    50 60 demo_running demo_running_reachable (later_refl _)).
  - vm_compute. by eexists.
  - vm_compute. by eexists.
  - intros (att & Ha & _). by vm_compute in Ha.
Defined.

(** A worker that still holds its lease records what happened: a returned
    result completes the job and stores it in canonical form, an exception goes
    through [record_failure], retryable or permanent as the executor said; and a
    cancelled token records nothing. *)
Theorem execution_outcome_is_recorded exn_str j tok a executor c meanwhile now1 now2 d t :
  reachable d → later d (meanwhile d) → get_task j d = Some t →
  holds_lease (meanwhile d) j tok now2 →
  let task := mk_Task (t_task_id t) (origin t) (skill t) (payload t) (confidence_threshold t)
    (deadline_ms t) (workspace_root t) (output_path t) (Some a) (t_created_at t) in
  let '(r, d') := execute exn_str j tok a executor c meanwhile now1 now2 d in
  match executor task with
  | Returned res => if c then d' = meanwhile d else
      r = Ok tt ∧ get_result j d' = Some (canon (JObj res))
      ∧ ∃ job, get_job j d' = Ok (Some job) ∧ status job = completed
  | Retryable m code => d' = (record_failure j tok m code "execution" true now2 (meanwhile d)).2
  | Failed m => d' = (record_failure j tok m "permanent" "execution" false now2 (meanwhile d)).2
  | Cancelled | LateState => d' = meanwhile d
  end.
Proof.
  intros HI%reachable_inv Hl Ht (att & Ha & Hlt) task.
  assert (HI' : Inv (meanwhile d)) by (by apply (later_inv d)).
  assert (Htask : is_Some (job_tasks (meanwhile d) !! j)) by (apply (later_task d); [done..|by eexists]).
  unfold execute. rewrite Ht. fold task. unfold execute_finish, w_record_failure.
  destruct (executor task) as [res| |m code| |m]; try done.
  2,3: destruct (record_failure _ _ _ _ _ _ _ _) as [[|[]] d2]; done.
  destruct c; [done|].
  destruct (complete_persists (meanwhile d) j tok att ("job-output:" +:+ uuid_str j) (Some res) now2)
    as (job & d2 & -> & Hs & Hg & Hr); try done.
  split_and!; [done|done|by exists job].
Qed.

(** One job with its task, running on the worker's lease. *)
Definition demo_tasked : db :=
  run (Claim 100 200 "w1" 30) 20 (run (Enqueue 1 10 (Some demo_task) "first" 0 None) 10 empty_db).

Lemma demo_tasked_reachable : reachable demo_tasked.
Proof. do 2 apply reach_step. apply reach_empty. Qed.

Lemma execution_outcome_is_recorded_witness :
  get_result 1 (execute (λ _, "") 1 200 100 (λ _, Returned demo_result) false (λ d, d) 30 40
    demo_tasked).2 = Some (canon (JObj demo_result)).
Proof.
  destruct (active_attempt demo_tasked 1 200) as [att|] eqn:Ha; [|by vm_compute in Ha].
  pose proof (execution_outcome_is_recorded (λ _, "") 1 200 100 (λ _, Returned demo_result) false
    (λ d, d) 30 40 demo_tasked demo_task demo_tasked_reachable (later_refl _) eq_refl) as H.
  destruct (execute _ _ _ _ _ _ _ _ _ _) as [r d'] eqn:E.
  refine (proj1 (proj2 (H (ex_intro _ att (conj Ha _))))).
  pose proof (some_test (λ a, 40 <? lease_expires_at a) _ _ Ha eq_refl). lia.
Defined.

Lemma heartbeat_without_lease d j tok ls now : ¬ holds_lease d j tok now → (0 < ls)%Q →
  heartbeat j tok ls now d = (Raise LeaseConflict, d).
Proof.
  intros Hno Hls. unfold heartbeat, transaction, heartbeat_tx, mbind, M_bind, mguard, mlift, rguard, mget.
  rewrite (proj2 (negb_true_iff _)).
  2: { apply not_true_iff_false. rewrite Qle_bool_iff. by apply Qlt_not_le. }
  destruct (active_attempt d j tok) as [att|] eqn:Ha; [|done].
  destruct (lease_expires_at att <=? now) eqn:Hl; [done|].
  exfalso. apply Hno. exists att. split; [done|]. lia.
Qed.

(** The heartbeat thread tells its executor to stop exactly when the lease
    is gone. A turn that finds the job no longer running under this unexpired
    lease (cancelled, reclaimed, completed elsewhere) changes nothing and cancels
    the token; a turn that finds it does not cancel, and if it goes on, the lease
    has been renewed for the full [lease_seconds]. *)
Theorem heartbeat_cancels_iff_lease_lost d j tok ls now :
  reachable d → (0 < ls)%Q →
  (¬ holds_lease d j tok now → heartbeat_tick j tok ls now d = (Some true, d))
  ∧ (holds_lease d j tok now →
      ∀ o d', heartbeat_tick j tok ls now d = (o, d') → o ≠ Some true
      ∧ (o = None → ∃ expiry, dt_add now (td_us ls) = Ok expiry
           ∧ ∀ t, t < expiry → holds_lease d' j tok t)).
Proof.
  intros HI%reachable_inv Hls. unfold heartbeat_tick. rewrite (get_job_total _ HI).
  split.
  - intros Hno. destruct (found_job d j); [|done]. case_bool_decide; [done|].
    by rewrite heartbeat_without_lease.
  - intros (att & Ha & Hl) o d' H.
    destruct (active_attempt_row _ _ _ _ HI Ha) as (r & Hj & Hs & Hact & Hatt & Ht & _ & Hop & _).
    destruct (key_of_job _ _ _ HI Hj) as (k & t & Hk & _).
    unfold found_job in H. rewrite Hj, Hk in H. simpl in H. rewrite Hs in H. simpl in H.
    destruct (heartbeat j tok ls now d) as [x d1] eqn:Hh. pose proof Hh as Hh'.
    apply heartbeat_cases in Hh' as [(-> & e & ->)|(att' & ex & Ha' & _ & Hex & -> & _ & ->)]; [| |done].
    + assert (He : e = ValueError ∨ e = OverflowError).
      { revert Hh. unfold heartbeat, transaction, heartbeat_tx, mbind, M_bind, mguard, mlift, rguard, mget.
        rewrite (proj2 (negb_true_iff _)), Ha, (proj2 (Z.leb_gt _ _) Hl).
        2: { apply not_true_iff_false. rewrite Qle_bool_iff. by apply Qlt_not_le. }
        cbn [negb]. destruct (dt_add now (td_us ls)) as [ex|e'] eqn:Hex;
          [|intros He%(f_equal fst); simpl in He; right; simplify_eq; by eapply dt_add_raise].
        unfold mmodify, mret, M_ret, attempt_from_row. intros Hv%(f_equal fst). left.
        simpl in Hv. by eapply validate_attempt_raise. }
      destruct He as [-> | ->]; by simplify_eq.
    + assert (att' = att) as -> by congruence.
      assert (Hnew : ∀ t, t < ex → holds_lease (set_jobs (alter (row_touch now) j)
        (set_attempts (alter (attempt_extend ex) (attempt_id att)) d)) j tok t).
      { intros u Hu. exists (attempt_extend ex att). split; [|done]. unfold active_attempt. simpl.
        rewrite lookup_alter_eq, Hj. simpl. rewrite Hact. simpl. rewrite lookup_alter_eq, Hatt. simpl.
        by rewrite Hs, Ht, Hop, !bool_decide_eq_true_2. }
      destruct (attempt_from_row _) as [a|e] eqn:Hr; simplify_eq; [split; [done|]; by exists ex|].
      unfold attempt_from_row in Hr. apply validate_attempt_raise in Hr as ->. by simplify_eq.
Qed.

Lemma heartbeat_cancels_iff_lease_lost_witness :
  heartbeat_tick 2 200 30 40000000 demo_lost = (Some true, demo_lost).
Proof.
  refine (proj1 (heartbeat_cancels_iff_lease_lost demo_lost 2 200 30 40000000 demo_lost_reachable _) _);
    [reflexivity|]. intros (att & Ha & _). by vm_compute in Ha.
Defined.

(** A worker never runs more attempts at once than it is configured for,
    starts at most one per cycle, and none once it has been asked to stop. *)
Theorem run_cycle_respects_limits c hook dn fa ft now w d any claimed w' d' :
  run_cycle c hook dn fa ft now w d = (Ok (any, claimed, w'), d') →
  Z.of_nat (length (active_futures w)) <= concurrency c →
  Z.of_nat (length (active_futures w')) <= concurrency c
  ∧ stopping w' = stopping w
  ∧ active_futures w' = match claimed with Some (_, att) => [attempt_id att] | None => [] end
      ++ filter (λ f, f ∉ dn) (active_futures w)
  ∧ (stopping w = true → claimed = None).
Proof.
  intros H Hlen. unfold run_cycle in H. minv.
  pose proof (length_filter (λ f, f ∉ dn) (active_futures w)) as Hf.
  destruct (stopping w || _) eqn:E; [minv; simplify_eq; simpl; split_and!; try done; lia|].
  apply orb_false_iff in E as [Hs Hc%Z.leb_gt]. minv.
  match goal with x : option (Job * ExecutionAttempt) |- _ => destruct x as [[job att]|] end;
    minv; simplify_eq; simpl; rewrite ?Hs; split_and!; try done; lia.
Qed.

Lemma run_cycle_respects_limits_witness :
  ∃ w' job att d', run_cycle (mk_WorkerConfig "w1" 1 30 10 (1 # 4)) (mret tt) [] 100 200 20
    (mk_worker [] false) demo_enqueued = (Ok (true, Some (job, att), w'), d')
    ∧ active_futures w' = [attempt_id att].
Proof.
  destruct (run_cycle (mk_WorkerConfig "w1" 1 30 10 (1 # 4)) (mret tt) [] 100 200 20
    (mk_worker [] false) demo_enqueued) as [[[[any [[job att]|]] w']|e] d'] eqn:E;
    [|by vm_compute in E..].
  destruct (run_cycle_respects_limits _ _ _ _ _ _ _ _ _ _ _ _ E ltac:(simpl; lia)) as (_ & _ & Ha & _).
  exists w', job, att, d'. split; [|exact Ha].
  destruct any; [exact eq_refl|by vm_compute in E].
Defined.
