(* ===== verification/Artifacts.v ===== *)
(** core/artifacts: the versioned artifact store and the payload backends behind
    its [ObjectStorage] protocol.

    Tables are maps. A payload is kept as the text it encodes ([encode] and
    [decode] are inverse), its size is that of its UTF-8 encoding. SHA-256 of the
    encoding and [mimetypes.guess_type] are arguments. *)

From S2P Require Import Prelude.
From S2P Require Import PyStr.
From S2P Require Import PyTime.
From Stdlib Require Import Ascii.
Open Scope Z_scope.

(** ** core/artifacts/object_storage.py *)

Record ObjectMetadata := mk_metadata {
  om_id : string;
  om_hash : string;
  om_size : Z;
  om_media : string }.

(** The [ObjectStorage] protocol. *)
Class ObjectStorage (O : Type) := {
  put : string → string → option string → M O ObjectMetadata;
  os_get : string → O → result string;
  os_delete : string → M O unit;
  list_ids : O → result (list string) }.

(** What the artifact store relies on: a payload just put can be read back under
    its id, and a failed put leaves every payload as it was. *)
Class ObjectStorageLaws (O : Type) `{ObjectStorage O} : Prop := {
  put_get id c m o md o' : put id c m o = (Ok md, o') → os_get id o' = Ok c ∧ om_id md = id;
  put_raise id c m o e o' : put id c m o = (Raise e, o') → ∀ i, os_get i o' = os_get i o }.

(** [len(s.encode("utf-8"))] for code points below 256. *)
Definition str_len (s : string) : Z :=
  foldr (λ c n, (if (N_of_ascii c <? 128)%N then 1 else 2) + n) 0 (to_list s).

(** [a or b] on optional strings. *)
Definition or_str (a b : option string) : option string :=
  match a with Some s => if truthy_str s then a else b | None => b end.

Section Backends.
Context (sha256 : string → string) (guess_type : string → option string).

(** [_metadata]. *)
Definition metadata (id content : string) (media : option string) : ObjectMetadata :=
  mk_metadata id (sha256 content) (str_len content)
    (or_else (or_str media None) "application/octet-stream").

(** *** LocalObjectStorage

    A file system without symbolic links below the root: regular files by
    absolute path, and the directories that exist. *)
Record filesystem := mk_fs {
  files : gmap (list string) string;
  dirs : gset (list string) }.

Record LocalConfig := mk_local { root : list string; local_max : Z }.

(** [Path(..).resolve()] of a relative path under an absolute one: empty and
    "." components vanish, ".." removes one. *)
Fixpoint resolve (base : list string) (parts : list string) : list string :=
  match parts with
  | [] => base
  | p :: parts =>
      if String.eqb p "" || String.eqb p "." then resolve base parts
      else if String.eqb p ".." then resolve (removelast base) parts
      else resolve (base ++ [p]) parts
  end.

Fixpoint is_prefix (a b : list string) : bool :=
  match a, b with
  | [], _ => true
  | x :: a, y :: b => String.eqb x y && is_prefix a b
  | _, _ => false
  end.

(** [_path]. *)
Definition local_path (c : LocalConfig) (id : string) : result (list string) :=
  rguard (truthy_str id && negb (startswith id "/")) ValueError;;
  let path := resolve (root c) (split "/"%char id) in
  rguard (is_prefix (root c) path) ValueError;;
  Ok path.

(** [mkdir(parents=True, exist_ok=True)]: fails where a regular file stands. *)
Fixpoint mkdirs (done : list string) (rest : list string) (fs : filesystem) : result filesystem :=
  match rest with
  | [] => Ok fs
  | p :: rest =>
      let here := done ++ [p] in
      if bool_decide (is_Some (files fs !! here)) then Raise OSError
      else mkdirs here rest (mk_fs (files fs) ({[here]} ∪ dirs fs))
  end.

Definition local_put (c : LocalConfig) (id content : string) (media : option string) :
    M filesystem ObjectMetadata :=
  mguard (negb (local_max c <? str_len content)) ObjectStorageError;;
  target ← mlift (local_path c id);
  fs ← mget;
  fs ← mlift (mkdirs [] (removelast target) fs);
  mput fs;;
  mguard (negb (bool_decide (target ∈ dirs fs))) ObjectStorageError;;
  mput (mk_fs (<[target := content]> (files fs)) (dirs fs));;
  mret (metadata id content (or_str media (guess_type id))).

Definition local_get (c : LocalConfig) (id : string) (fs : filesystem) : result string :=
  path ← local_path c id;
  of_option ObjectStorageError (files fs !! path).

Definition local_delete (c : LocalConfig) (id : string) : M filesystem unit :=
  path ← mlift (local_path c id);
  fs ← mget;
  match files fs !! path with
  | Some _ => mput (mk_fs (delete path (files fs)) (dirs fs))
  | None => if bool_decide (path ∈ dirs fs) then mraise ObjectStorageError else mret tt
  end.

(** [str(path.relative_to(root))] of every regular file that is not a temporary. *)
Definition local_list (c : LocalConfig) (fs : filesystem) : list string :=
  omap (λ p, if is_prefix (root c) p && negb (bool_decide (p = root c))
                && negb (startswith (List.last p "") ".upload-")
             then Some (String.concat "/" (drop (length (root c)) p)) else None)
    (map_to_list (files fs)).*1.

(** *** S3ObjectStorage

    The bucket is reached through a client, which is not part of this code. *)
Section S3.
Context {B : Type} (put_object : string → string → string → M B unit)
  (get_object : string → B → result string) (delete_object : string → M B unit)
  (list_objects : string → B → result (list string)).

Record S3Config := mk_s3 { s3_prefix : string; s3_max : Z }.

(** [Path(object_id).parts]. *)
Definition parts (id : string) : list string :=
  filter (λ p, p ≠ "" ∧ p ≠ ".") (split "/"%char id).

(** [_key]. *)
Definition s3_key (c : S3Config) (id : string) : result string :=
  rguard (truthy_str id && negb (startswith id "/") && negb (bool_decide (".." ∈ parts id)))
    ValueError;;
  Ok (if truthy_str (s3_prefix c) then s3_prefix c +:+ "/" +:+ id else id).

(** [except Exception: raise ObjectStorageError]. *)
Definition wrap {S A} (m : M S A) : M S A :=
  λ s, match m s with (Raise _, s') => (Raise ObjectStorageError, s') | r => r end.
Definition wrap_result {A} (r : result A) : result A :=
  match r with Raise _ => Raise ObjectStorageError | r => r end.

Definition s3_put (c : S3Config) (id content : string) (media : option string) :
    M B ObjectMetadata :=
  mguard (negb (s3_max c <? str_len content)) ObjectStorageError;;
  let md := metadata id content (or_str media (guess_type id)) in
  wrap (k ← mlift (s3_key c id); put_object k content (om_media md));;
  mret md.

Definition s3_get (c : S3Config) (id : string) (b : B) : result string :=
  wrap_result (k ← s3_key c id; get_object k b).

Definition s3_delete (c : S3Config) (id : string) : M B unit :=
  wrap (k ← mlift (s3_key c id); delete_object k).

Definition s3_list (c : S3Config) (b : B) : result (list string) :=
  let prefix := if truthy_str (s3_prefix c) then s3_prefix c +:+ "/" else "" in
  keys ← wrap_result (list_objects prefix b) : result (list string);
  Ok (map (λ k, removeprefix k prefix) (List.filter (λ k, startswith k prefix) keys)).
End S3.
End Backends.

(** [ArtifactAccessPolicy.authorize]. *)
Definition authorize (owner_project owner_org project org : option string) : result unit :=
  rguard (negb (truthy_str (or_else owner_project "") && negb (bool_decide (owner_project = project))))
    PermissionError;;
  rguard (negb (truthy_str (or_else owner_org "") && negb (bool_decide (owner_org = org))))
    PermissionError.

(** ** core/artifacts/store.py *)

Definition identity_key (workspace_root filename : string) : string :=
  workspace_root +:+ "::" +:+ filename.

(** An element of [artifacts]: the keys [record] reads from the dict. *)
Record artifact := mk_artifact {
  a_filename : option string;
  a_content : option string;
  a_language : option string;
  a_type : option string;
  a_media : option string }.

Record version_row := mk_version {
  v_content : string;
  v_hash : string;
  v_filename : string;
  v_language : option string;
  v_type : option string;
  v_task_id : string;
  v_skill : string;
  v_created : time;
  v_attempt_key : option string;
  v_object : option ObjectMetadata;
  v_project : option string;
  v_org : option string }.

(** artifact_versions, artifact_attempt_versions, and the payload backend. *)
Record store (O : Type) := mk_store {
  versions : gmap (string * Z) version_row;
  links : gmap string (string * Z);
  objects : O }.
Arguments mk_store {O}. Arguments versions {O}. Arguments links {O}. Arguments objects {O}.

(** One entry of the list [record] returns. *)
Record recorded := mk_recorded {
  rec_key : string;
  rec_version : Z;
  rec_new : bool }.

(** The rows of an identity, newest version first. *)
Definition rows_of (key : string) (m : gmap (string * Z) version_row) : list (Z * version_row) :=
  py_sorted (λ a b, b.1 <=? a.1)
    (omap (λ kv, if String.eqb kv.1.1 key then Some (kv.1.2, kv.2) else None) (map_to_list m)).

Section Store.
Context {O : Type} `{ObjectStorage O}.
(** The hash of a content, and whether a payload backend is configured. *)
Context (sha256 : string → string) (configured : bool).

Definition set_versions (f : gmap (string * Z) version_row → gmap (string * Z) version_row)
  (s : store O) : store O := mk_store (f (versions s)) (links s) (objects s).
Definition set_links (f : gmap string (string * Z) → gmap string (string * Z))
  (s : store O) : store O := mk_store (versions s) (f (links s)) (objects s).

(** An operation of the backend; payloads are outside the transaction. *)
Definition on_objects {A} (m : M O A) : M (store O) A := λ s,
  let '(r, o) := m (objects s) in (r, mk_store (versions s) (links s) o).

(** [with self._conn]: commit, or roll the tables back. *)
Definition with_conn {A} (m : M (store O) A) : M (store O) A := λ s,
  match m s with
  | (Ok a, s') => (Ok a, s')
  | (Raise e, s') => (Raise e, mk_store (versions s) (links s) (objects s'))
  end.

Definition insert_link (ak key : string) (v : Z) : M (store O) unit :=
  s ← mget;
  mguard (bool_decide (links s !! ak = None)) IntegrityError;;
  mmodify (set_links <[ak := (key, v)]>).

(** PRIMARY KEY (identity_key, version) and the unique index on attempt_artifact_key. *)
Definition insert_version (key : string) (v : Z) (r : version_row) : M (store O) unit :=
  s ← mget;
  mguard (bool_decide (versions s !! (key, v) = None)
          && negb (bool_decide (is_Some (v_attempt_key r))
                   && existsb (λ kv, bool_decide (v_attempt_key (snd kv) = v_attempt_key r))
                        (map_to_list (versions s)))) IntegrityError;;
  mmodify (set_versions <[(key, v) := r]>).

Section Record_.
Context (workspace task_id skill : string) (attempt project org : option string) (now : time).

(** f"{attempt_id}::{key}" if attempt_id else None. *)
Definition attempt_key (key : string) : option string :=
  match attempt with
  | Some a => if truthy_str a then Some (a +:+ "::" +:+ key) else None
  | None => None
  end.

(** The INSERT and, when it fails, the deletion of the payload just put. *)
Definition insert_or_delete (key : string) (v : Z) (r : version_row) : M (store O) unit :=
  λ s, match insert_version key v r s with
       | (Ok u, s') => (Ok u, s')
       | (Raise e, s') =>
           match v_object r with
           | None => (Raise e, s')
           | Some md => (on_objects (os_delete (om_id md));; mraise e) s'
           end
       end.

(** One iteration of the loop of [record]. *)
Definition record_one (a : artifact) : M (store O) recorded :=
  filename ← mlift (of_option KeyError (a_filename a));
  content ← mlift (of_option KeyError (a_content a));
  let key := identity_key workspace filename in
  let content_hash := sha256 content in
  s ← mget;
  match attempt_key key ≫= λ ak, links s !! ak with
  | Some (k, v) => mret (mk_recorded k v false)
  | None =>
      let latest := head (rows_of key (versions s)) in
      if match latest with Some (_, r) => String.eqb (v_hash r) content_hash | None => false end
      then
        let v := from_option fst 0 latest in
        match attempt_key key with Some ak => insert_link ak key v | None => mret tt end;;
        mret (mk_recorded key v false)
      else
        let v := from_option fst 0 latest + 1 in
        md ← (if configured
              then md ← on_objects (put (key +:+ "/v" +:+ py_int v) content (a_media a));
                   mret (Some md)
              else mret None);
        insert_or_delete key v (mk_version content content_hash filename (a_language a)
          (a_type a) task_id skill now (attempt_key key) md project org);;
        match attempt_key key with Some ak => insert_link ak key v | None => mret tt end;;
        mret (mk_recorded key v true)
  end.

(** [record]. *)
Definition record (artifacts : list artifact) : M (store O) (list recorded) :=
  with_conn (mmapM record_one artifacts).
End Record_.

(** [get_version]. *)
Definition get_version (key : string) (v : Z) (project org : option string) (s : store O) :
    result (option version_row) :=
  match versions s !! (key, v) with
  | None => Ok None
  | Some r =>
      match v_object r with
      | Some md =>
          if configured && truthy_str (om_id md) then
            authorize (v_project r) (v_org r) project org;;
            content ← os_get (om_id md) (objects s);
            Ok (Some (mk_version content (v_hash r) (v_filename r) (v_language r) (v_type r)
              (v_task_id r) (v_skill r) (v_created r) (v_attempt_key r) (v_object r)
              (v_project r) (v_org r)))
          else Ok (Some r)
      | None => Ok (Some r)
      end
  end.

(** [history] and [latest_version_number]. *)
Definition history (key : string) (s : store O) : list (Z * version_row) :=
  rows_of key (versions s).
Definition latest_version_number (key : string) (s : store O) : option Z :=
  fst <$> head (rows_of key (versions s)).

(** ORDER BY identity_key, version DESC. *)
Definition file_leb (a b : (string * Z) * version_row) : bool :=
  (str_leb a.1.1 b.1.1 && negb (String.eqb a.1.1 b.1.1))
  || String.eqb a.1.1 b.1.1 && (b.1.2 <=? a.1.2).

(** [list_files]: the first row of each identity. *)
Fixpoint first_per_key (seen : list string) (l : list ((string * Z) * version_row)) :
    list ((string * Z) * version_row) :=
  match l with
  | [] => []
  | kv :: l => if bool_decide (kv.1.1 ∈ seen) then first_per_key seen l
               else kv :: first_per_key (kv.1.1 :: seen) l
  end.
Definition list_files (s : store O) : list ((string * Z) * version_row) :=
  first_per_key [] (py_sorted file_leb (map_to_list (versions s))).

Fixpoint delete_all (ids : list string) : M (store O) unit :=
  match ids with
  | [] => mret tt
  | i :: ids => on_objects (os_delete i);; delete_all ids
  end.

(** [cleanup_orphans]. *)
Definition cleanup_orphans : M (store O) (list string) :=
  if negb configured then mret [] else
  s ← mget;
  let known := omap (λ kv, om_id <$> v_object kv.2) (map_to_list (versions s)) in
  ids ← mlift (list_ids (objects s));
  let orphans := filter (λ i, i ∉ known) ids in
  delete_all orphans;;
  mret orphans.

(** WHERE created_at < cutoff AND version < (SELECT MAX(version) ...). *)
Definition outdated (cutoff : time) (s : store O) (kv : (string * Z) * version_row) : bool :=
  (v_created kv.2 <? cutoff)
  && existsb (λ kv', String.eqb kv'.1.1 kv.1.1 && (kv.1.2 <? kv'.1.2)) (map_to_list (versions s)).

(** [delete_older_than]. *)
Definition delete_older_than (cutoff : time) : M (store O) (list string) :=
  s ← mget;
  let rows := filter (λ kv, outdated cutoff s kv = true) (map_to_list (versions s)) in
  mmodify (set_versions (λ m, foldr (λ kv m, delete kv.1 m) m rows));;
  let ids := filter (λ i, truthy_str i = true) (omap (λ kv, om_id <$> v_object kv.2) rows) in
  if configured then delete_all ids;; mret ids else mret [].
End Store.

(** ** Instances *)

#[export] Instance local_storage sha256 guess_type c : ObjectStorage filesystem := {
  put := local_put sha256 guess_type c;
  os_get := local_get c;
  os_delete := local_delete c;
  list_ids := λ fs, Ok (local_list c fs) }.

Lemma mkdirs_files here rest fs fs' : mkdirs here rest fs = Ok fs' → files fs' = files fs.
Proof.
  revert here fs. induction rest as [|p rest IH]; intros here fs H; simpl in H; [by simplify_eq|].
  case_bool_decide; [done|]. by apply IH in H.
Qed.

Lemma local_put_ok sha gt c id content m fs md fs' :
  local_put sha gt c id content m fs = (Ok md, fs') →
  ∃ path, local_path c id = Ok path ∧ files fs' = <[path := content]> (files fs) ∧ om_id md = id.
Proof.
  unfold local_put, mbind, M_bind, mguard, mlift, rguard, mget, mput, mret, M_ret. intros H.
  destruct (negb _); [|done]. destruct (local_path c id) as [path|] eqn:Hp; [|done].
  destruct (mkdirs _ _ _) as [fs1|] eqn:Hm; [|done]. destruct (negb _); [|done].
  simplify_eq. exists path. simpl. by rewrite (mkdirs_files _ _ _ _ Hm).
Qed.

Lemma local_put_raise_files sha gt c id content m fs e fs' :
  local_put sha gt c id content m fs = (Raise e, fs') → files fs' = files fs.
Proof.
  unfold local_put, mbind, M_bind, mguard, mlift, rguard, mget, mput, mret, M_ret. intros H.
  destruct (negb _); [|by simplify_eq]. destruct (local_path c id) as [path|] eqn:Hp; [|by simplify_eq].
  destruct (mkdirs _ _ _) as [fs1|] eqn:Hm; [|by simplify_eq]. destruct (negb _); simplify_eq.
  by eapply mkdirs_files.
Qed.

#[export] Instance local_storage_laws sha256 guess_type c :
  @ObjectStorageLaws filesystem (local_storage sha256 guess_type c).
Proof.
  split; simpl.
  - intros id content m fs md fs' (path & Hp & Hf & Hid)%local_put_ok. split; [|done].
    unfold local_get. rewrite Hp. simpl. by rewrite Hf, lookup_insert_eq.
  - intros id content m fs e fs' H%local_put_raise_files i. unfold local_get. by rewrite H.
Qed.

(** ** Lemmas on the version tables *)

Lemma elem_of_rows key m v r : (v, r) ∈ rows_of key m ↔ m !! (key, v) = Some r.
Proof.
  unfold rows_of. rewrite elem_of_py_sorted, list_elem_of_omap. split.
  - intros ([[k v'] r'] & Hin%elem_of_map_to_list & H). simpl in H.
    destruct (String.eqb_spec k key); by simplify_eq.
  - intros Hm. exists ((key, v), r). rewrite elem_of_map_to_list. split; [done|]. simpl.
    by rewrite String.eqb_refl.
Qed.

Lemma rows_head key m v r : head (rows_of key m) = Some (v, r) →
  m !! (key, v) = Some r ∧ ∀ v' r', m !! (key, v') = Some r' → v' <= v.
Proof.
  intros Hh. destruct (rows_of key m) as [|x l] eqn:E; simplify_eq/=.
  split; [apply elem_of_rows; rewrite E; by left|]. intros v' r' Hm%elem_of_rows.
  unfold rows_of in E, Hm. apply py_sorted_head in E as [_ Hmax];
    [|intros [] []; simpl; lia|intros [] [] []; simpl; lia].
  rewrite elem_of_py_sorted in Hm. apply Hmax in Hm. simpl in Hm. lia.
Qed.

Lemma rows_none key m v : head (rows_of key m) = None → m !! (key, v) = None.
Proof.
  destruct (rows_of key m) as [|x l] eqn:E; [|done]. intros _.
  destruct (m !! (key, v)) eqn:Hm; [|done]. apply elem_of_rows in Hm. rewrite E in Hm.
  by apply elem_of_nil in Hm.
Qed.

Definition latest_or_0 (key : string) (m : gmap (string * Z) version_row) : Z :=
  from_option fst 0 (head (rows_of key m)).

(** The number [record] gives a new version is above every stored one. *)
Lemma above_latest key m v r : m !! (key, v) = Some r → v <= latest_or_0 key m.
Proof.
  intros Hm. unfold latest_or_0. destruct (head (rows_of key m)) as [[v' r']|] eqn:E.
  - apply rows_head in E as [_ Hmax]. by eapply Hmax.
  - by rewrite (rows_none _ _ v E) in Hm.
Qed.

Lemma next_free key m : m !! (key, latest_or_0 key m + 1) = None.
Proof. destruct (m !! _) eqn:E; [|done]. apply above_latest in E. lia. Qed.

(** ** What one iteration of [record] does *)

Section Effects.
Context {O : Type} `{ObjectStorage O} (sha256 : string → string) (configured : bool).
Context (workspace task_id skill : string) (attempt project org : option string) (now : time).
Local Abbreviation one := (record_one sha256 configured workspace task_id skill attempt project org now).
Local Abbreviation akey := (attempt_key attempt).

(** A new version: latest + 1, holding the content, its hash and the metadata. *)
Definition new_row (filename content : string) (a : artifact) (md : option ObjectMetadata)
  (key : string) : version_row :=
  mk_version content (sha256 content) filename (a_language a) (a_type a) task_id skill now
    (akey key) md project org.

Inductive one_effect (a : artifact) (s : store O) : recorded → store O → Prop :=
  | eff_replay filename content ak k v :
      a_filename a = Some filename → a_content a = Some content →
      akey (identity_key workspace filename) = Some ak → links s !! ak = Some (k, v) →
      one_effect a s (mk_recorded k v false) s
  | eff_same filename content key r s' :
      a_filename a = Some filename → a_content a = Some content →
      key = identity_key workspace filename →
      (∀ ak, akey key = Some ak → links s !! ak = None) →
      versions s !! (key, latest_or_0 key (versions s)) = Some r → v_hash r = sha256 content →
      versions s' = versions s → objects s' = objects s →
      links s' = match akey key with
                 | Some ak => <[ak := (key, latest_or_0 key (versions s))]> (links s)
                 | None => links s end →
      one_effect a s (mk_recorded key (latest_or_0 key (versions s)) false) s'
  | eff_new filename content key md s' :
      a_filename a = Some filename → a_content a = Some content →
      key = identity_key workspace filename →
      (∀ ak, akey key = Some ak → links s !! ak = None) →
      versions s' = <[(key, latest_or_0 key (versions s) + 1) := new_row filename content a md key]>
                      (versions s) →
      (if configured then ∃ m, md = Some m ∧
         put (key +:+ "/v" +:+ py_int (latest_or_0 key (versions s) + 1)) content (a_media a)
           (objects s) = (Ok m, objects s')
       else md = None ∧ objects s' = objects s) →
      links s' = match akey key with
                 | Some ak => <[ak := (key, latest_or_0 key (versions s) + 1)]> (links s)
                 | None => links s end →
      one_effect a s (mk_recorded key (latest_or_0 key (versions s) + 1) true) s'.

Lemma insert_link_ok ak key v (s : store O) u s' : insert_link ak key v s = (Ok u, s') →
  links s !! ak = None ∧ s' = set_links <[ak := (key, v)]> s.
Proof.
  unfold insert_link, mbind, M_bind, mguard, mlift, rguard, mget, mmodify. intros H0.
  case_bool_decide; by simplify_eq/=.
Qed.

Lemma insert_version_ok key v r (s : store O) u s' : insert_version key v r s = (Ok u, s') →
  s' = set_versions <[(key, v) := r]> s.
Proof.
  unfold insert_version, mbind, M_bind, mguard, mlift, rguard, mget, mmodify. intros H0.
  destruct (_ && _); by simplify_eq/=.
Qed.

Lemma insert_or_delete_ok key v r (s : store O) u s' : insert_or_delete key v r s = (Ok u, s') →
  s' = set_versions <[(key, v) := r]> s.
Proof.
  unfold insert_or_delete. destruct (insert_version key v r s) as [[x|e] s1] eqn:E; intros H0.
  - simplify_eq. by eapply insert_version_ok.
  - destruct (v_object r); [|done]. unfold mbind, M_bind, mraise in H0.
    destruct (on_objects _ s1) as [[]]; done.
Qed.

Lemma record_one_ok a s r s' : one a s = (Ok r, s') → one_effect a s r s'.
Proof.
  unfold record_one. intros H0.
  destruct (a_filename a) as [filename|] eqn:Ef; [|discriminate H0].
  destruct (a_content a) as [content|] eqn:Ec; [|discriminate H0].
  rewrite (mbind_step _ _ s filename s), (mbind_step _ _ s content s),
    (mbind_step mget _ s s s) in H0 by done.
  set (key := identity_key workspace filename) in *.
  destruct (akey key ≫= λ ak, links s !! ak) as [[k v]|] eqn:El.
  { unfold mret, M_ret in H0. simplify_eq.
    destruct (akey key) as [ak|] eqn:Eak; simpl in El; [|done]. by eapply eff_replay. }
  assert (Hfree : ∀ ak, akey key = Some ak → links s !! ak = None).
  { intros ak Eak. by rewrite Eak in El. }
  fold (latest_or_0 key (versions s)) in H0.
  destruct (match head (rows_of key (versions s)) with
            | Some (_, r) => String.eqb (v_hash r) (sha256 content) | None => false end) eqn:Eh.
  - apply mbind_ok in H0 as (u & s3 & Hl & H0). unfold mret, M_ret in H0. simplify_eq.
    destruct (head (rows_of key (versions s))) as [[v0 r0]|] eqn:Ehd; [|done].
    assert (Ev : v0 = latest_or_0 key (versions s)) by (unfold latest_or_0; by rewrite Ehd).
    apply rows_head in Ehd as [Hrow _]. apply String.eqb_eq in Eh.
    eapply eff_same; try done; [by rewrite <-Ev|..];
      destruct (akey key) as [ak|]; [apply insert_link_ok in Hl as [_ ->]|unfold mret, M_ret in Hl; by simplify_eq
      |apply insert_link_ok in Hl as [_ ->]|unfold mret, M_ret in Hl; by simplify_eq
      |apply insert_link_ok in Hl as [_ ->]|unfold mret, M_ret in Hl; by simplify_eq]; done.
  - apply mbind_ok in H0 as (md & s3 & Hput & H0).
    apply mbind_ok in H0 as (u & s4 & Hins & H0). apply insert_or_delete_ok in Hins as ->.
    apply mbind_ok in H0 as (u' & s5 & Hl & H0). unfold mret, M_ret in H0. simplify_eq.
    assert (Hs3 : versions s3 = versions s ∧ links s3 = links s ∧
      (if configured then ∃ m, md = Some m ∧
         put (key +:+ "/v" +:+ py_int (latest_or_0 key (versions s) + 1)) content (a_media a)
           (objects s) = (Ok m, objects s3)
       else md = None ∧ objects s3 = objects s)).
    { destruct configured.
      - apply mbind_ok in Hput as (m & s6 & Hp & Hput). unfold mret, M_ret in Hput. simplify_eq.
        unfold on_objects in Hp. destruct (put _ _ _ _) as [rm o] eqn:Eo. simplify_eq. simpl. eauto.
      - unfold mret, M_ret in Hput. by simplify_eq. }
    destruct Hs3 as (Hv & Hli & Hobj).
    assert (Es5 : versions s' = versions (set_versions <[(key, latest_or_0 key (versions s) + 1) :=
        new_row filename content a md key]> s3) ∧ objects s' = objects s3
      ∧ links s' = match akey key with
        | Some ak => <[ak := (key, latest_or_0 key (versions s) + 1)]> (links s)
        | None => links s end).
    { unfold new_row. destruct (akey key) as [ak|].
      - apply insert_link_ok in Hl as [_ ->]. simpl. by rewrite Hli.
      - unfold mret, M_ret in Hl. simplify_eq. by simpl. }
    destruct Es5 as (E1 & E2 & E3). eapply eff_new; try done.
    + rewrite E1. simpl. by rewrite Hv.
    + by rewrite E2.
Qed.
End Effects.

Lemma mmapM_cons_ok {S A B} (f : A → M S B) a l s bs s' : mmapM f (a :: l) s = (Ok bs, s') →
  ∃ b s1 bs', f a s = (Ok b, s1) ∧ mmapM f l s1 = (Ok bs', s') ∧ bs = b :: bs'.
Proof.
  simpl. intros (b & s1 & H1 & (bs' & s2 & H2 & H3)%mbind_ok)%mbind_ok.
  unfold mret, M_ret in H3. simplify_eq. eauto 10.
Qed.

Lemma with_conn_ok {O A} (m : M (store O) A) s a s' :
  with_conn m s = (Ok a, s') ↔ m s = (Ok a, s').
Proof. unfold with_conn. destruct (m s) as [[]?]; split; congruence. Qed.

Section Batch.
Context {O : Type} `{ObjectStorage O} (sha256 : string → string) (configured : bool).
Context (workspace task_id skill : string) (attempt project org : option string).
Local Abbreviation one now :=
  (record_one sha256 configured workspace task_id skill attempt project org now).

(** Stored versions are never rewritten, links never retargeted. *)
Lemma one_keeps now a s r s' : one now a s = (Ok r, s') →
  (∀ kv row, versions s !! kv = Some row → versions s' !! kv = Some row)
  ∧ (∀ ak kv, links s !! ak = Some kv → links s' !! ak = Some kv).
Proof.
  intros He%record_one_ok. destruct He as [filename content ak k v Hf Hc Hak Hl
    |filename content key row s' Hf Hc Hkey Hfree Hrow Hh Hv Ho Hl
    |filename content key md s' Hf Hc Hkey Hfree Hv Ho Hl]; [done| |].
  - rewrite Hv. split; [done|]. intros ak kv Hak. rewrite Hl.
    destruct (attempt_key attempt key) as [ak'|] eqn:E; [|done].
    rewrite lookup_insert_ne; [done|]. intros ->. by rewrite (Hfree _ eq_refl) in Hak.
  - split.
    + intros kv row' Hrow. rewrite Hv, lookup_insert_ne; [done|]. intros <-.
      by rewrite next_free in Hrow.
    + intros ak kv Hak. rewrite Hl. destruct (attempt_key attempt key) as [ak'|] eqn:E; [|done].
      rewrite lookup_insert_ne; [done|]. intros ->. by rewrite (Hfree _ eq_refl) in Hak.
Qed.

Lemma batch_keeps now arts : ∀ s rs s', mmapM (one now) arts s = (Ok rs, s') →
  (∀ kv row, versions s !! kv = Some row → versions s' !! kv = Some row)
  ∧ (∀ ak kv, links s !! ak = Some kv → links s' !! ak = Some kv).
Proof.
  induction arts as [|a arts IH]; intros s rs s' Hm.
  - unfold mmapM, mret, M_ret in Hm. by simplify_eq.
  - apply mmapM_cons_ok in Hm as (r & s1 & rs' & H1 & H2 & ->).
    apply one_keeps in H1 as [Hv1 Hl1]. apply IH in H2 as [Hv2 Hl2]. split; eauto.
Qed.

(** Once an artifact is recorded for an attempt, recording it again is a lookup. *)
Lemma one_replays now now' a s r s' s2 : or_else attempt "" ≠ "" →
  one now a s = (Ok r, s') →
  (∀ ak kv, links s' !! ak = Some kv → links s2 !! ak = Some kv) →
  one now' a s2 = (Ok (mk_recorded (rec_key r) (rec_version r) false), s2).
Proof.
  intros Hat Hone Hlinks. pose proof Hone as He. apply record_one_ok in He.
  assert (Hk : ∀ key, ∃ ak, attempt_key attempt key = Some ak).
  { intros key. unfold attempt_key. destruct attempt as [t|]; [|done].
    unfold truthy_str. destruct (String.eqb_spec t ""); [done|]. simpl. eauto. }
  assert (∃ f c ak, a_filename a = Some f ∧ a_content a = Some c
    ∧ attempt_key attempt (identity_key workspace f) = Some ak
    ∧ links s' !! ak = Some (rec_key r, rec_version r)) as (f & c & ak & Hf & Hc & Hak & Hl).
  { destruct He as [filename content ak k v Hf Hc Hak Hl
      |filename content key row s' Hf Hc Hkey Hfree Hrow Hh Hv Ho Hl
      |filename content key md s' Hf Hc Hkey Hfree Hv Ho Hl]; [by eauto 10| |];
      destruct (Hk key) as [ak Hak]; exists filename, content, ak;
      rewrite Hl, Hak, <-Hkey, lookup_insert_eq; done. }
  unfold record_one. rewrite Hf, Hc.
  rewrite (mbind_step _ _ s2 f s2), (mbind_step _ _ s2 c s2), (mbind_step mget _ s2 s2 s2) by done.
  rewrite Hak. simpl. by rewrite (Hlinks _ _ Hl).
Qed.

Lemma batch_replays now now' arts : or_else attempt "" ≠ "" → ∀ s rs s' s2,
  mmapM (one now) arts s = (Ok rs, s') →
  (∀ ak kv, links s' !! ak = Some kv → links s2 !! ak = Some kv) →
  mmapM (one now') arts s2
  = (Ok (map (λ r, mk_recorded (rec_key r) (rec_version r) false) rs), s2).
Proof.
  intros Hat. induction arts as [|a arts IH]; intros s rs s' s2 Hm Hl.
  - unfold mmapM, mret, M_ret in Hm. by simplify_eq.
  - apply mmapM_cons_ok in Hm as (r & s1 & rs' & H1 & H2 & ->).
    pose proof (batch_keeps _ _ _ _ _ H2) as [_ Hl2]. simpl.
    rewrite (mbind_step _ _ _ _ _ (one_replays now now' a s r s1 s2 Hat H1 ltac:(eauto))).
    by rewrite (mbind_step _ _ _ _ _ (IH _ _ _ s2 H2 Hl)).
Qed.

Lemma batch_hashes now arts : or_else attempt "" = "" → ∀ s rs s',
  mmapM (one now) arts s = (Ok rs, s') →
  Forall2 (λ a r, ∃ f c row, a_filename a = Some f ∧ a_content a = Some c
    ∧ rec_key r = identity_key workspace f
    ∧ versions s' !! (rec_key r, rec_version r) = Some row ∧ v_hash row = sha256 c
    ∧ (rec_new r = true → v_content row = c ∧ v_filename row = f)) arts rs.
Proof.
  intros Hat. assert (Hno : ∀ key, attempt_key attempt key = None).
  { intros key. unfold attempt_key. destruct attempt as [t|]; [|done]. by simplify_eq/=. }
  induction arts as [|a arts IH]; intros s rs s' Hm.
  - unfold mmapM, mret, M_ret in Hm. simplify_eq. constructor.
  - apply mmapM_cons_ok in Hm as (r & s1 & rs' & H1 & H2 & ->). constructor; [|by eapply IH].
    pose proof (batch_keeps _ _ _ _ _ H2) as [Hv2 _].
    apply record_one_ok in H1. destruct H1 as [filename content ak k v Hf Hc Hak Hl
      |filename content key row s1 Hf Hc Hkey Hfree Hrow Hh Hv Ho Hl
      |filename content key md s1 Hf Hc Hkey Hfree Hv Ho Hl]; [by rewrite Hno in Hak| |].
    + exists filename, content, row. split_and!; try done. simpl. apply Hv2. by rewrite Hv.
    + exists filename, content, (new_row sha256 task_id skill attempt project org now filename
        content a md key). split_and!; try done. simpl. apply Hv2. rewrite Hv.
      by rewrite lookup_insert_eq.
Qed.
End Batch.

(** ** The theorems *)

Definition demo_sha (s : string) : string := s.
Definition demo_artifact (f c : string) : artifact := mk_artifact (Some f) (Some c) None None None.
Definition empty_store : store filesystem := mk_store ∅ ∅ (mk_fs ∅ ∅).
#[local] Instance demo_storage : ObjectStorage filesystem :=
  local_storage demo_sha (λ _, None) (mk_local ["srv"] 1000).
Definition demo_record (attempt : option string) (now : time) (s : store filesystem) :
    result (list recorded) * store filesystem :=
  record demo_sha false "ws" "t" "sk" attempt None None now
    [demo_artifact "a.py" "x = 1"; demo_artifact "b.py" "y"] s.

(** Recording artifacts is all or nothing and append-only. If any of them is
    rejected the tables are as before; otherwise no stored version is changed,
    and (outside the attempt bookkeeping) every artifact ends up with a version
    of its own identity whose hash is that of its content, and whose content is
    its content when the version is new. *)
Theorem record_is_atomic_and_append_only {O} `{ObjectStorage O} sha configured ws task sk attempt
    project org now arts (s s' : store O) x :
  record sha configured ws task sk attempt project org now arts s = (x, s') →
  match x with
  | Raise _ => versions s' = versions s ∧ links s' = links s
  | Ok rs =>
      (∀ kv row, versions s !! kv = Some row → versions s' !! kv = Some row)
      ∧ (or_else attempt "" = "" → Forall2 (λ a r, ∃ f c row,
           a_filename a = Some f ∧ a_content a = Some c
           ∧ rec_key r = identity_key ws f
           ∧ versions s' !! (rec_key r, rec_version r) = Some row ∧ v_hash row = sha c
           ∧ (rec_new r = true → v_content row = c ∧ v_filename row = f)) arts rs)
  end.
Proof.
  intros Hr. destruct x as [rs|e].
  - unfold record in Hr. apply (proj1 (with_conn_ok _ _ _ _)) in Hr. split.
    + by eapply batch_keeps.
    + intros Hat. by eapply batch_hashes.
  - unfold record, with_conn in Hr. destruct (mmapM _ _ s) as [[]]; by simplify_eq.
Qed.

Lemma record_is_atomic_and_append_only_witness :
  ∃ rs s', demo_record None 5 empty_store = (Ok rs, s') ∧ length rs = 2%nat.
Proof.
  destruct (demo_record None 5 empty_store) as [[rs|] s'] eqn:E; [|by vm_compute in E].
  exists rs, s'. split; [exact eq_refl|].
  pose proof (record_is_atomic_and_append_only _ _ _ _ _ _ _ _ _ _ _ _ _ E) as [_ Hf].
  symmetry. exact (Forall2_length _ _ _ (Hf eq_refl)).
Defined.

Lemma record_is_idempotent_core {O} `{ObjectStorage O} sha configured ws task sk attempt
    project org now now' arts rs (s s' s2 : store O) :
  or_else attempt "" ≠ "" →
  record sha configured ws task sk attempt project org now arts s = (Ok rs, s') →
  (∀ ak kv, links s' !! ak = Some kv → links s2 !! ak = Some kv) →
  record sha configured ws task sk attempt project org now' arts s2
  = (Ok (map (λ r, mk_recorded (rec_key r) (rec_version r) false) rs), s2).
Proof.
  intros Hat Hr Hl. unfold record in *. apply (proj1 (with_conn_ok _ _ _ _)) in Hr.
  apply with_conn_ok. by eapply batch_replays.
Qed.

(** Recording under an attempt id is idempotent: publishing the same
    artifacts again, at any later time, returns the same identities and versions,
    marks none of them new, and changes nothing, whatever else was recorded in
    between. *)
Theorem record_is_idempotent_per_attempt {O} `{ObjectStorage O} sha configured ws task sk attempt
    project org now now' arts rs (s s' s2 : store O) :
  or_else attempt "" ≠ "" →
  record sha configured ws task sk attempt project org now arts s = (Ok rs, s') →
  (∀ ak kv, links s' !! ak = Some kv → links s2 !! ak = Some kv) →
  record sha configured ws task sk attempt project org now' arts s2
  = (Ok (map (λ r, mk_recorded (rec_key r) (rec_version r) false) rs), s2).
Proof. apply record_is_idempotent_core. Qed.

Lemma record_is_idempotent_per_attempt_witness :
  (demo_record (Some "att") 9 (demo_record (Some "att") 5 empty_store).2).2
  = (demo_record (Some "att") 5 empty_store).2.
Proof.
  destruct (demo_record (Some "att") 5 empty_store) as [[rs|] s'] eqn:E; [|by vm_compute in E].
  unfold demo_record in *. simpl snd.
  rewrite (record_is_idempotent_per_attempt demo_sha false "ws" "t" "sk" (Some "att") None None 5 9
    _ rs _ s' s' ltac:(done) E (λ _ _ H, H)). exact eq_refl.
Defined.

Lemma authorize_self p o : authorize p o p o = Ok tt.
Proof.
  unfold authorize, mbind, rbind, rguard.
  rewrite !bool_decide_eq_true_2 by done. by rewrite !andb_false_r.
Qed.

(** What is recorded can be read back, inline or through any payload backend
    that keeps its contract: a newly recorded artifact gets version latest + 1 of
    its identity, and reading that version within its own project and
    organization returns exactly its content. *)
Theorem record_then_get_version {O} `{ObjectStorageLaws O} sha configured ws task sk attempt
    project org now a r (s s' : store O) :
  record sha configured ws task sk attempt project org now [a] s = (Ok [r], s') →
  rec_new r = true →
  rec_version r = from_option id 0 (latest_version_number (rec_key r) s) + 1
  ∧ ∃ row, get_version configured (rec_key r) (rec_version r) project org s' = Ok (Some row)
      ∧ Some (v_content row) = a_content a ∧ v_project row = project ∧ v_org row = org.
Proof.
  intros Hr Hn. unfold record in Hr. apply (proj1 (with_conn_ok _ _ _ _)) in Hr.
  apply mmapM_cons_ok in Hr as (r' & s1 & rs & H1 & H2 & E). simplify_eq.
  unfold mmapM, mret, M_ret in H2. simplify_eq. apply record_one_ok in H1.
  destruct H1 as [|filename content key row s1 Hf Hc Hkey Hfree Hrow Hh Hv Ho Hl
    |filename content key md s1 Hf Hc Hkey Hfree Hv Ho Hl]; [done..|].
  simpl in *. split.
  { unfold latest_version_number, latest_or_0. by destruct (head _). }
  unfold get_version. rewrite Hv, lookup_insert_eq. simpl.
  destruct configured.
  - destruct Ho as (m & -> & Hput). apply put_get in Hput as [Hget Hid].
    destruct (truthy_str (om_id m)); simpl; [|by eexists].
    rewrite authorize_self. unfold mbind, rbind. rewrite Hid, Hget. by eexists.
  - destruct Ho as [-> _]. by eexists.
Qed.

Lemma record_then_get_version_witness :
  ∃ r s' row, record demo_sha true "ws" "t" "sk" None (Some "p") None 5 [demo_artifact "a.py" "x = 1"]
    empty_store = (Ok [r], s')
  ∧ get_version true (rec_key r) (rec_version r) (Some "p") None s' = Ok (Some row)
  ∧ Some (v_content row) = Some "x = 1".
Proof.
  destruct (record demo_sha true "ws" "t" "sk" None (Some "p") None 5 [demo_artifact "a.py" "x = 1"]
    empty_store) as [[[|r [|]]|] s'] eqn:E; [by vm_compute in E| |by vm_compute in E..].
  assert (Hn : rec_new r = true).
  { assert (Ht := f_equal (λ p, match p.1 with Ok [r] => rec_new r | _ => false end) E).
    symmetry. exact Ht. }
  destruct (record_then_get_version _ _ _ _ _ _ _ _ _ _ _ _ _ E Hn) as (_ & row & Hg & Hc & _).
  exists r, s', row. split; [exact eq_refl|]. split; [exact Hg|exact Hc].
Defined.

Lemma delete_rows_lookup (rows : list ((string * Z) * version_row))
    (m : gmap (string * Z) version_row) kv :
  foldr (λ kv (m : gmap (string * Z) version_row), delete kv.1 m) m rows !! kv
  = if decide (kv ∈ rows.*1) then None else m !! kv.
Proof.
  induction rows as [|[k r] rows IH]; simpl; [done|].
  rewrite lookup_delete, IH. repeat case_decide; try done; set_solver.
Qed.

Lemma delete_all_tables {O} `{ObjectStorage O} ids : ∀ (s : store O) x s',
  delete_all ids s = (x, s') → versions s' = versions s ∧ links s' = links s.
Proof.
  induction ids as [|i ids IH]; intros s x s' Hd; simpl in Hd; [unfold mret, M_ret in Hd; by simplify_eq|].
  unfold mbind, M_bind, on_objects in Hd. destruct (os_delete i (objects s)) as [[u|e] o];
    [|by simplify_eq]. by apply IH in Hd.
Qed.

Lemma delete_older_than_tables {O} `{ObjectStorage O} configured cutoff (s : store O) x s' :
  delete_older_than configured cutoff s = (x, s') →
  (∀ kv, versions s' !! kv = match versions s !! kv with
     | Some r => if outdated cutoff s (kv, r) then None else Some r | None => None end)
  ∧ links s' = links s.
Proof.
  unfold delete_older_than. rewrite (mbind_step mget _ s s s) by done. intros Hd.
  set (rows := filter (λ kv, outdated cutoff s kv = true) (map_to_list (versions s))) in *.
  set (s1 := set_versions (λ m, foldr (λ kv m, delete kv.1 m) m rows) s) in *.
  rewrite (mbind_step _ _ s tt s1) in Hd by done.
  assert (versions s' = versions s1 ∧ links s' = links s1) as [-> ->].
  { destruct configured; [|unfold mret, M_ret in Hd; by simplify_eq].
    unfold mbind, M_bind in Hd. destruct (delete_all _ s1) as [[]] eqn:E;
      apply delete_all_tables in E; unfold mret, M_ret in Hd; by simplify_eq. }
  split; [|done]. intros kv. simpl. rewrite delete_rows_lookup.
  assert (Hin : kv ∈ rows.*1 ↔ ∃ r, versions s !! kv = Some r ∧ outdated cutoff s (kv, r) = true).
  { unfold rows. rewrite list_elem_of_fmap. split.
    - intros ([k r] & -> & [Ho Hin%elem_of_map_to_list]%list_elem_of_filter). eauto.
    - intros (r & Hr & Ho). exists (kv, r). split; [done|]. apply list_elem_of_filter.
      by rewrite elem_of_map_to_list. }
  case_decide as E.
  - apply Hin in E as (r & -> & ->). done.
  - destruct (versions s !! kv) as [r|] eqn:Er; [|done].
    destruct (outdated cutoff s (kv, r)) eqn:Eo; [|done]. exfalso. apply E, Hin. eauto.
Qed.

Lemma outdated_iff {O} cutoff (s : store O) key v r : outdated cutoff s ((key, v), r) = true ↔
  v_created r < cutoff ∧ ∃ v' r', versions s !! (key, v') = Some r' ∧ v < v'.
Proof.
  unfold outdated. simpl. rewrite andb_true_iff, Z.ltb_lt, existsb_exists.
  split; intros [Hc Hx]; (split; [done|]).
  - destruct Hx as ([[k v'] r'] & Hin%list_elem_of_In%elem_of_map_to_list & Hb). simpl in Hb.
    apply andb_true_iff in Hb as [Hk%String.eqb_eq Hv%Z.ltb_lt]. subst k. eauto.
  - destruct Hx as (v' & r' & Hv' & Hlt). exists ((key, v'), r').
    split; [by apply list_elem_of_In, elem_of_map_to_list|]. simpl.
    rewrite String.eqb_refl. simpl. by apply Z.ltb_lt.
Qed.

(** Retention never loses a current file. Deleting versions older than a
    cutoff removes exactly the superseded rows created before it; the latest
    version of every identity, and every row created since, stays, so the number
    of the latest version is unchanged. *)
Theorem retention_keeps_latest {O} `{ObjectStorage O} configured cutoff (s : store O) x s' :
  delete_older_than configured cutoff s = (x, s') →
  (∀ key v r, versions s' !! (key, v) = Some r ↔
     versions s !! (key, v) = Some r
     ∧ (cutoff <= v_created r ∨ ∀ v' r', versions s !! (key, v') = Some r' → v' <= v))
  ∧ (∀ key, latest_version_number key s' = latest_version_number key s).
Proof.
  intros [Hv _]%delete_older_than_tables.
  assert (Hiff : ∀ key v r, versions s' !! (key, v) = Some r ↔
     versions s !! (key, v) = Some r
     ∧ (cutoff <= v_created r ∨ ∀ v' r', versions s !! (key, v') = Some r' → v' <= v)).
  { intros key v r. rewrite Hv. destruct (versions s !! (key, v)) as [r0|] eqn:E; [|naive_solver].
    destruct (outdated cutoff s ((key, v), r0)) eqn:Eo.
    - apply outdated_iff in Eo as [Hc (v' & r' & Hv' & Hlt)]. split; [done|].
      intros [[= ->] [|Hmax]]; [lia|]. apply Hmax in Hv'. lia.
    - split; [|naive_solver]. intros [= ->]. split; [done|].
      destruct (Z.le_gt_cases cutoff (v_created r)) as [|Hc]; [by left|right].
      intros v' r' Hv'. destruct (Z.le_gt_cases v' v) as [|Hlt]; [done|].
      apply not_true_iff_false in Eo. destruct Eo. apply outdated_iff. eauto. }
  split; [exact Hiff|]. intros key. unfold latest_version_number.
  destruct (head (rows_of key (versions s))) as [[v r]|] eqn:E; simpl.
  - apply rows_head in E as [Hr Hmax].
    assert (Hr' : versions s' !! (key, v) = Some r) by (apply Hiff; auto).
    destruct (head (rows_of key (versions s'))) as [[v' r']|] eqn:E'.
    + apply rows_head in E' as [Hr2 Hmax']. apply Hmax' in Hr'. apply Hiff in Hr2 as [Hr2 _].
      apply Hmax in Hr2. simpl. f_equal. lia.
    + by rewrite (rows_none _ _ v E') in Hr'.
  - destruct (head (rows_of key (versions s'))) as [[v' r']|] eqn:E'; [|done].
    apply rows_head in E' as [Hr2 _]. apply Hiff in Hr2 as [Hr2 _].
    by rewrite (rows_none _ _ v' E) in Hr2.
Qed.

Definition demo_two_versions : store filesystem :=
  (record demo_sha false "ws" "t" "sk" (Some "a2") None None 9 [demo_artifact "a.py" "x = 2"]
    (demo_record (Some "a1") 5 empty_store).2).2.

Lemma retention_keeps_latest_witness :
  latest_version_number "ws::a.py" (delete_older_than false 7 demo_two_versions).2 = Some 2.
Proof.
  destruct (delete_older_than false 7 demo_two_versions) as [x s'] eqn:E.
  simpl. rewrite (proj2 (retention_keeps_latest _ _ _ _ _ E)). vm_compute. reflexivity.
Defined.

(** Retention can strand a publication. The attempt bookkeeping keeps
    pointing at a version that [delete_older_than] removed, so recording that
    attempt again answers with a version [get_version] does not have. *)
Theorem retention_strands_attempt_links :
  ∃ s s1 rs s2 r, delete_older_than false 7 s = (Ok [], s1)
    ∧ demo_record (Some "a1") 10 s1 = (Ok rs, s2) ∧ r ∈ rs
    ∧ get_version false (rec_key r) (rec_version r) None None s = Ok (versions s !! (rec_key r, rec_version r))
    ∧ is_Some (versions s !! (rec_key r, rec_version r))
    ∧ get_version false (rec_key r) (rec_version r) None None s2 = Ok None.
Proof.
  exists demo_two_versions. eexists _, _, _, (mk_recorded "ws::a.py" 1 false).
  split; [vm_compute; reflexivity|]. split; [vm_compute; reflexivity|]. split; [by left|].
  split; [vm_compute; reflexivity|]. split; [vm_compute; by eexists|]. vm_compute. reflexivity.
Qed.

(** A payload write never leaves the storage root: whatever the object id
    (".." components, repeated separators), the only file that can change lies
    under the configured root, and an id that resolves outside is rejected
    without writing. *)
Theorem local_put_stays_under_root sha gt c id content m fs x fs' p :
  local_put sha gt c id content m fs = (x, fs') →
  files fs' !! p ≠ files fs !! p → is_prefix (root c) p = true.
Proof.
  intros Hp Hne. destruct x as [md|e].
  - apply local_put_ok in Hp as (path & Hpath & Hf & _). rewrite Hf in Hne.
    destruct (decide (path = p)) as [<-|]; [|by rewrite lookup_insert_ne in Hne].
    unfold local_path in Hpath. rok. done.
  - apply local_put_raise_files in Hp. by rewrite Hp in Hne.
Qed.

Lemma local_put_stays_under_root_witness : is_prefix ["srv"] ["srv"; "b"] = true.
Proof.
  destruct (local_put demo_sha (λ _, None) (mk_local ["srv"] 10) "a/../b" "x" None (mk_fs ∅ ∅))
    as [x fs'] eqn:E.
  apply (local_put_stays_under_root _ _ (mk_local ["srv"] 10) _ _ _ _ _ _ ["srv"; "b"] E).
  assert (Hf := f_equal (λ p, files p.2 !! ["srv"; "b"]) E). vm_compute in Hf.
  change (Some "x" = files fs' !! ["srv"; "b"]) in Hf. rewrite <-Hf. discriminate.
Defined.

Lemma local_put_absolute sha gt c id content m fs : startswith id "/" = true →
  ∃ e fs', local_put sha gt c id content m fs = (Raise e, fs').
Proof.
  intros Hid. unfold local_put, mbind, M_bind, mguard, mlift, rguard.
  destruct (negb _); [|eauto]. unfold local_path, rguard, mbind, rbind. rewrite Hid.
  rewrite andb_false_r. eauto.
Qed.

Lemma startswith_app w s t : startswith w (String s EmptyString) = true →
  startswith (w +:+ t) (String s EmptyString) = true.
Proof.
  unfold startswith. destruct w as [|c w]; [done|].
  change (String c w +:+ t) with (String c (w +:+ t)). simpl.
  destruct (ascii_dec s c); [|done]. intros _. by destruct (w +:+ t).
Qed.

(** With a file-system payload backend, an absolute workspace can never
    publish a version: the object id starts with the workspace path, which the
    backend rejects, so a successful [record] stored nothing new, while a
    relative workspace publishes. *)
Theorem absolute_workspace_never_publishes sha gt c ws task sk attempt project org now arts rs
    (s s' : store filesystem) :
  startswith ws "/" = true →
  record (H := local_storage sha gt c) sha true ws task sk attempt project org now arts s = (Ok rs, s') →
  Forall (λ r, rec_new r = false) rs.
Proof.
  intros Hws Hr. unfold record in Hr. apply (proj1 (with_conn_ok _ _ _ _)) in Hr.
  revert s rs s' Hr. induction arts as [|a arts IH]; intros s rs s' Hr.
  - unfold mmapM, mret, M_ret in Hr. by simplify_eq.
  - apply mmapM_cons_ok in Hr as (r & s1 & rs' & H1 & H2 & ->). constructor; [|by eapply IH].
    apply record_one_ok in H1. destruct H1 as [|
      |filename content key md s1 Hf Hc Hkey Hfree Hv (m & _ & Hput) Hl]; [done..|].
    exfalso. simpl in Hput.
    destruct (local_put_absolute sha gt c
      (key +:+ "/v" +:+ py_int (latest_or_0 key (versions s) + 1)) content (a_media a) (objects s))
      as (e & fs' & E); [|by rewrite E in Hput].
    rewrite Hkey. unfold identity_key. do 2 apply startswith_app. exact Hws.
Qed.

Lemma absolute_workspace_never_publishes_witness :
  Forall (λ r, rec_new r = false) [] ∧
  (record demo_sha true "/home/ws" "t" "sk" None None None 5 [demo_artifact "a.py" "x"] empty_store).1
  = Raise ValueError.
Proof.
  destruct (record demo_sha true "/home/ws" "t" "sk" None None None 5 [] empty_store)
    as [[rs|] s'] eqn:E; [|by vm_compute in E].
  assert (Hrs : rs = []) by (assert (Hf := f_equal (λ p, p.1) E); vm_compute in Hf; by simplify_eq).
  rewrite <-Hrs. split; [|vm_compute; reflexivity].
  exact (absolute_workspace_never_publishes demo_sha (λ _, None) (mk_local ["srv"] 1000) "/home/ws"
    "t" "sk" None None None 5 [] rs empty_store s' eq_refl E).
Defined.
