(* ===== verification/ReviewQueue.v ===== *)
(** agents/andromeda/review_queue.py: the queue of results escalated to a human.

    The table is the list of its rows in id order. JSON columns hold the value
    they encode ([json.loads] inverts [json.dumps]); the clock is an argument. *)

From S2P Require Import Prelude.
From S2P Require Import PyStr.
From S2P Require Import PyTime.
From S2P Require Import Json.
Open Scope Z_scope.

Record review := mk_review {
  rv_task_id : string;
  rv_task_type : json;
  rv_skill_id : string;
  rv_agent_id : json;
  rv_agent_output : json;
  rv_sla_deadline : option string;
  rv_confidence : json;
  rv_payload : json;
  rv_status : string;
  rv_created : time;
  rv_reviewed : option time;
  rv_notes : option string;
  rv_goal_id : option string;
  rv_planned_task_id : option string;
  rv_attempt_id : option string }.

Definition queue := list review.

Definition has_task (t : string) (r : review) : bool := String.eqb (rv_task_id r) t.

(** [enqueue]: INSERT OR IGNORE against UNIQUE(task_id). *)
Definition rq_enqueue (task_id : string) (task_type confidence payload : json) (skill_id : string)
    (agent_id : json) (agent_output : option jdict) (sla_deadline goal_id planned_task_id attempt_id :
    option string) (now : time) (q : queue) : queue :=
  if existsb (has_task task_id) q then q
  else q ++ [mk_review task_id task_type skill_id agent_id (JObj (or_else agent_output []))
    sla_deadline confidence payload "pending" now None None goal_id planned_task_id attempt_id].

Definition is_pending (r : review) : bool := String.eqb (rv_status r) "pending".

(** ORDER BY COALESCE(sla_deadline, '9999') ASC, created_at ASC. *)
Definition deadline (r : review) : string := or_else (rv_sla_deadline r) "9999".
Definition pending_leb (a b : review) : bool :=
  negb (str_leb (deadline b) (deadline a))
  || String.eqb (deadline a) (deadline b) && (rv_created a <=? rv_created b).

Definition get_pending (q : queue) : list review := py_sorted pending_leb (List.filter is_pending q).

Definition get_by_task_id (t : string) (q : queue) : option review := List.find (has_task t) q.

(** [resolve]: UPDATE ... WHERE task_id = ? AND status = 'pending'; rowcount > 0. *)
Definition close_review (t new_status : string) (notes : option string) (now : time) (r : review) :
    review :=
  if has_task t r && is_pending r then
    mk_review (rv_task_id r) (rv_task_type r) (rv_skill_id r) (rv_agent_id r) (rv_agent_output r)
      (rv_sla_deadline r) (rv_confidence r) (rv_payload r) new_status (rv_created r) (Some now) notes
      (rv_goal_id r) (rv_planned_task_id r) (rv_attempt_id r)
  else r.

Definition resolve_review (t new_status : string) (notes : option string) (now : time) (q : queue) :
    bool * queue :=
  (existsb (λ r, has_task t r && is_pending r) q, map (close_review t new_status notes now) q).

(** [get_stats]. *)
Record stats := mk_stats {
  st_pending : nat;
  st_approved : nat;
  st_accepted : nat;
  st_rejected : nat;
  st_oldest_minutes : option Z;
  st_breached : nat }.

Definition count_status (s : string) (q : queue) : nat :=
  length (List.filter (λ r, String.eqb (rv_status r) s) q).

Definition str_ltb (a b : string) : bool := negb (str_leb b a).

Definition get_stats (now : time) (q : queue) : stats :=
  mk_stats (count_status "pending" q) (count_status "approved" q) (count_status "accepted" q)
    (count_status "rejected" q)
    ((λ r, Z.quot (now - rv_created r) 60000000)
       <$> head (py_sorted (λ a b, rv_created a <=? rv_created b) (List.filter is_pending q)))
    (length (List.filter (λ r, is_pending r &&
       match rv_sla_deadline r with Some s => str_ltb s (iso now) | None => false end) q)).

(** ** Properties *)

(** UNIQUE(task_id). *)
Definition queue_ok (q : queue) : Prop := NoDup (rv_task_id <$> q).

Inductive queue_step : queue → queue → Prop :=
  | step_enqueue q t tt c p s a o sla g pt at_ now :
      queue_step q (rq_enqueue t tt c p s a o sla g pt at_ now q)
  | step_resolve q t st n now : queue_step q (resolve_review t st n now q).2.

Lemma has_task_iff t r : has_task t r = true ↔ rv_task_id r = t.
Proof. apply String.eqb_eq. Qed.

Lemma existsb_task t q : existsb (has_task t) q = true ↔ t ∈ rv_task_id <$> q.
Proof.
  rewrite existsb_exists, list_elem_of_fmap. split.
  - intros (r & Hin & Hr%has_task_iff). exists r. by rewrite list_elem_of_In.
  - intros (r & -> & Hin). exists r. rewrite <-list_elem_of_In. split; [done|by apply has_task_iff].
Qed.

Lemma close_review_id t st n now r : rv_task_id (close_review t st n now r) = rv_task_id r.
Proof. unfold close_review. by destruct (_ && _). Qed.

Lemma step_queue_ok q q' : queue_step q q' → queue_ok q → queue_ok q'.
Proof.
  unfold queue_ok. destruct 1; intros Hq.
  - unfold rq_enqueue. destruct (existsb (has_task t) q) eqn:E; [done|].
    rewrite fmap_app, NoDup_app. split_and!; [done| |apply NoDup_singleton].
    intros x Hx Hx'. apply list_elem_of_singleton in Hx' as ->. simpl in Hx.
    apply existsb_task in Hx. congruence.
  - simpl. change (map ?f q) with (f <$> q). rewrite <-list_fmap_compose.
    erewrite list_fmap_ext; [exact Hq|]. intros _ r _. apply close_review_id.
Qed.

Lemma find_task t q r : queue_ok q → get_by_task_id t q = Some r ↔ r ∈ q ∧ rv_task_id r = t.
Proof.
  unfold queue_ok, get_by_task_id. induction q as [|x q IH]; simpl; intros Hnd.
  { split; [done|]. intros [H _]. by apply elem_of_nil in H. }
  apply NoDup_cons in Hnd as [Hx Hnd]. rewrite elem_of_cons.
  destruct (has_task t x) eqn:E.
  - apply has_task_iff in E. split; [intros [= ->]; auto|].
    intros [[->|Hr] Ht]; [done|]. destruct Hx. rewrite E, <-Ht. by apply list_elem_of_fmap_2.
  - rewrite IH by done. split; [naive_solver|]. intros [[->|Hr] Ht]; [|done].
    apply has_task_iff in Ht. congruence.
Qed.

(** A review, once decided, is final, and before that only a decision
    changes it: no later enqueue (whatever its arguments) or decision alters a
    resolved row, and a pending one is altered by [resolve] on its own task only. *)
Theorem decided_reviews_are_final q q' t r :
  queue_ok q → rtc queue_step q q' → get_by_task_id t q = Some r →
  rv_status r ≠ "pending" → get_by_task_id t q' = Some r.
Proof.
  intros Hok Hs. induction Hs as [|q q1 q' Hs _ IH]; [done|]. intros Hr Hp.
  apply IH; [by eapply step_queue_ok| |done].
  pose proof (step_queue_ok _ _ Hs Hok) as Hok1. rewrite find_task in * by done.
  destruct Hr as [Hin Ht]. split; [|done]. destruct Hs.
  - unfold rq_enqueue. destruct (existsb _ q); [done|]. apply elem_of_app. by left.
  - simpl. change (map ?f q) with (f <$> q). apply list_elem_of_fmap. exists r. split; [|done].
    unfold close_review, is_pending. apply String.eqb_neq in Hp. by rewrite Hp, andb_false_r.
Qed.

Definition demo_review : queue :=
  rq_enqueue "t1" JNull (JFloat (1#2)) (JObj []) "s" (JStr "rigel") None None None None None 5 [].

Lemma decided_reviews_are_final_witness :
  get_by_task_id "t1" (resolve_review "t1" "rejected" None 9
    (resolve_review "t1" "approved" None 7 demo_review).2).2
  = get_by_task_id "t1" (resolve_review "t1" "approved" None 7 demo_review).2.
Proof.
  destruct (get_by_task_id "t1" (resolve_review "t1" "approved" None 7 demo_review).2) as [r|] eqn:E;
    [|by vm_compute in E].
  apply (decided_reviews_are_final (resolve_review "t1" "approved" None 7 demo_review).2).
  - apply (bool_decide_unpack _). vm_compute. exact I.
  - apply rtc_once. apply step_resolve.
  - exact E.
  - intros Hp. assert (Hs := f_equal (fmap rv_status) E). vm_compute in Hs.
    change (Some "approved" = Some (rv_status r)) in Hs. rewrite Hp in Hs. discriminate.
Defined.

(** [resolve] decides exactly the pending review of its task: it reports
    success iff there is one, which then carries the decision, the notes and the
    time; every other row is as before, and resolving again reports failure. *)
Theorem resolve_decides_once q t st n now : queue_ok q → st ≠ "pending" →
  let '(ok, q') := resolve_review t st n now q in
  (ok = true ↔ ∃ r, get_by_task_id t q = Some r ∧ rv_status r = "pending")
  ∧ (∀ u, u ≠ t → get_by_task_id u q' = get_by_task_id u q)
  ∧ (ok = true → ∃ r, get_by_task_id t q' = Some r ∧ rv_status r = st ∧ rv_notes r = n
                      ∧ rv_reviewed r = Some now)
  ∧ (∀ st2 n2 now2, (resolve_review t st2 n2 now2 q').1 = false).
Proof.
  intros Hok Hst. simpl. change (map ?f q) with (f <$> q).
  assert (Hok' : queue_ok (close_review t st n now <$> q)) by
    (apply (step_queue_ok q); [apply step_resolve|done]).
  assert (Hiff : existsb (λ r, has_task t r && is_pending r) q = true ↔
    ∃ r, get_by_task_id t q = Some r ∧ rv_status r = "pending").
  { rewrite existsb_exists. split.
    - intros (r & Hin & [Ht%has_task_iff Hp%String.eqb_eq]%andb_true_iff). exists r.
      rewrite find_task by done. by rewrite list_elem_of_In.
    - intros (r & [Hin Ht]%find_task & Hp); [|done]. exists r. rewrite <-list_elem_of_In.
      split; [done|]. apply andb_true_iff. by rewrite has_task_iff, <-String.eqb_eq in *. }
  split_and!; [exact Hiff| | |].
  - intros u Hu. clear Hiff Hok Hok'. unfold get_by_task_id. induction q as [|x q IH]; simpl; [done|].
    unfold has_task in *. rewrite close_review_id.
    destruct (String.eqb_spec (rv_task_id x) u) as [<-|]; [|done].
    unfold close_review, has_task. by destruct (String.eqb_spec (rv_task_id x) t).
  - intros (r & [Hin Ht]%find_task & Hp)%Hiff; [|done]. exists (close_review t st n now r).
    rewrite find_task by done. rewrite close_review_id.
    unfold close_review. rewrite (proj2 (has_task_iff t r) Ht).
    unfold is_pending. rewrite Hp. simpl. split_and!; try done.
    apply list_elem_of_fmap. exists r. split; [|done].
    unfold close_review. rewrite (proj2 (has_task_iff t r) Ht). unfold is_pending. by rewrite Hp.
  - intros _ _ _. apply existsb_false_iff. intros r (x & -> & Hin)%list_elem_of_fmap.
    unfold close_review. destruct (has_task t x && is_pending x) eqn:E; [|done].
    apply andb_false_iff. right. by apply String.eqb_neq.
Qed.

Lemma resolve_decides_once_witness : (resolve_review "t1" "approved" None 7 demo_review).1 = true.
Proof.
  apply (resolve_decides_once demo_review "t1" "approved" None 7).
  - apply (bool_decide_unpack _). vm_compute. exact I.
  - discriminate.
  - eexists. split; vm_compute; reflexivity.
Defined.

Lemma str_leb_antisym a b : str_leb a b = true → str_leb b a = true → a = b.
Proof. unfold str_leb. intros. by apply String.leb_antisym. Qed.

Lemma pending_leb_iff a b : pending_leb a b = true ↔
  (str_leb (deadline a) (deadline b) = true ∧ deadline a ≠ deadline b)
  ∨ deadline a = deadline b ∧ rv_created a <= rv_created b.
Proof.
  unfold pending_leb. rewrite orb_true_iff, andb_true_iff, negb_true_iff, String.eqb_eq, Z.leb_le.
  assert (str_leb (deadline b) (deadline a) = false ↔
    str_leb (deadline a) (deadline b) = true ∧ deadline a ≠ deadline b); [|tauto].
  split.
  - intros Hf. destruct (str_leb_total (deadline a) (deadline b)); [|congruence].
    split; [done|]. intros E. rewrite E in *. congruence.
  - intros [Hle Hne]. apply not_true_iff_false. intros Hle'. apply Hne. by apply str_leb_antisym.
Qed.

Lemma pending_leb_total a b : pending_leb a b = true ∨ pending_leb b a = true.
Proof.
  rewrite !pending_leb_iff. destruct (decide (deadline a = deadline b)) as [E|Hne].
  - rewrite E. destruct (Z.le_ge_cases (rv_created a) (rv_created b)); auto.
  - destruct (str_leb_total (deadline a) (deadline b)); auto.
Qed.

Lemma pending_leb_trans a b c : pending_leb a b = true → pending_leb b c = true → pending_leb a c = true.
Proof.
  rewrite !pending_leb_iff. intros [[H1 N1]|[E1 L1]] [[H2 N2]|[E2 L2]].
  - left. split; [by eapply str_leb_trans|]. intros E. rewrite <-E in H2. apply N1.
    by apply str_leb_antisym.
  - left. by rewrite <-E2.
  - left. by rewrite E1.
  - right. split; [congruence|lia].
Qed.

(** Reviewers see exactly the undecided escalations, the most urgent first:
    [get_pending] lists every pending row and nothing else, by deadline (none
    counts as last) and then by age. *)
Theorem pending_by_urgency q :
  (∀ r, r ∈ get_pending q ↔ r ∈ q ∧ rv_status r = "pending")
  ∧ StronglySorted (λ a b,
      (str_leb (deadline a) (deadline b) = true ∧ deadline a ≠ deadline b)
      ∨ deadline a = deadline b ∧ rv_created a <= rv_created b) (get_pending q).
Proof.
  unfold get_pending. split.
  - intros r. rewrite elem_of_py_sorted, list_elem_of_In, filter_In, <-list_elem_of_In.
    unfold is_pending. by rewrite String.eqb_eq.
  - pose proof (py_sorted_sorted _ pending_leb_total pending_leb_trans (List.filter is_pending q)) as H.
    induction H as [|x l _ IH Hx]; constructor; [done|].
    eapply Forall_impl; [exact Hx|]. intros y. apply pending_leb_iff.
Qed.
