(* ===== verification/Completion.v ===== *)
(** core/jobs/completion.py: publishing committed results to the artifact store
    and the review queue.

    The publisher reads the outbox of the job store and writes the two other
    stores; each store is its own database, so the state is the triple of them
    and a step that raises leaves what earlier steps of it wrote. *)

From S2P Require Import Prelude.
From S2P Require Import PyStr.
From S2P Require Import PyTime.
From S2P Require Import Json.
From S2P Require Import Contracts.
From S2P Require Import JobRepository.
From S2P Require Import JobInvariant.
From S2P Require Import JobTheorems.
From S2P Require Import Artifacts.
From S2P Require Import ReviewQueue.
Open Scope Z_scope.

Record stores (O : Type) := mk_stores {
  sy_jobs : db;
  sy_artifacts : store O;
  sy_reviews : queue }.
Arguments mk_stores {O}. Arguments sy_jobs {O}. Arguments sy_artifacts {O}. Arguments sy_reviews {O}.

(** The elements of a JSON list of artifacts. A value that is present but not
    text where the store needs text is represented by [TypeError]. *)
Definition required_text (k : string) (d : jdict) : result (option string) :=
  match obj_get k d with
  | None => Ok None
  | Some (JStr s) => Ok (Some s)
  | Some _ => Raise TypeError
  end.

Definition optional_text (k : string) (d : jdict) : result (option string) :=
  match obj_field k d with
  | JNull => Ok None
  | JStr s => Ok (Some s)
  | _ => Raise TypeError
  end.

Definition artifact_of_json (v : json) : result artifact :=
  match v with
  | JObj d =>
      f ← required_text "filename" d; c ← required_text "content" d;
      l ← optional_text "language" d; t ← optional_text "artifact_type" d;
      m ← optional_text "media_type" d;
      Ok (mk_artifact f c l t m)
  | _ => Raise TypeError
  end.

(** [result.get("artifacts") or []]. *)
Definition artifacts_of (res : jdict) : result (list artifact) :=
  match jor (obj_field "artifacts" res) (JArr []) with
  | JArr l => rmap artifact_of_json l
  | _ => Raise TypeError
  end.

(** [origin.removeprefix("goal:") if origin.startswith("goal:") else None]. *)
Definition goal_of (o : string) : option string :=
  if startswith o "goal:" then Some (removeprefix o "goal:") else None.

Definition truthy_opt (o : option string) : bool := truthy_str (or_else o "").

(** [skill.split(".")[-1]]. *)
Definition last_segment (s : string) : string := List.last (split (Ascii.ascii_of_N 46) s) "".

Section Publish.
Context {O : Type} `{ObjectStorage O} (sha256 : string → string) (configured : bool).

Definition on_artifacts {A} (m : M (store O) A) : M (stores O) A := λ s,
  let '(r, a) := m (sy_artifacts s) in (r, mk_stores (sy_jobs s) a (sy_reviews s)).
Definition on_reviews (f : queue → queue) : M (stores O) unit := λ s,
  (Ok tt, mk_stores (sy_jobs s) (sy_artifacts s) (f (sy_reviews s))).
Definition on_jobs {A} (m : M db A) : M (stores O) A := λ s,
  let '(r, d) := m (sy_jobs s) in (r, mk_stores d (sy_artifacts s) (sy_reviews s)).

(** The reference kept for one recorded version. *)
Definition reference (v : recorded) : M (stores O) json :=
  s ← mget;
  row ← mlift (get_version configured (rec_key v) (rec_version v) None None (sy_artifacts s));
  match row with
  | None => mraise RuntimeError
  | Some r => mret (JObj [("identity_key", JStr (rec_key v)); ("version", JInt (rec_version v));
                          ("content_hash", JStr (v_hash r))])
  end.

(** The branch for an escalated result. *)
Definition publish_review (task : TaskContract) (res : jdict) (attempt : string)
    (created now : time) (refs : list json) : M (stores O) unit :=
  let goal := goal_of (origin task) in
  let output := match obj_field "result" res with JObj d => d | _ => [] end in
  let evidence := obj_set "artifact_versions" (JArr refs) output in
  let key := if truthy_opt goal then attempt else uuid_str (t_task_id task) in
  deadline ← mlift (dt_add created 3600000000);
  on_reviews (rq_enqueue key (jor (obj_field "task_type" res) (JStr (last_segment (skill task))))
    (jor (obj_field "confidence" res) (JFloat 0)) (JObj (payload task)) (skill task)
    (jor (obj_field "assigned_agent" res) (JStr "")) (Some evidence) (Some (iso deadline)) goal
    (if truthy_opt goal then Some (uuid_str (t_task_id task)) else None) (Some attempt) now);;
  s ← mget;
  match get_by_task_id key (sy_reviews s) with
  | None => mraise RuntimeError
  | Some r =>
      mguard (bool_decide (rv_attempt_id r = Some attempt)
              && bool_decide (canon (rv_agent_output r) = canon (JObj evidence))) RuntimeError
  end.

(** [_publish], for the outbox row of job [j]. *)
Definition publish (now : time) (j : uuid) (o : outbox_row) : M (stores O) unit :=
  s ← mget;
  match get_task j (sy_jobs s), get_result j (sy_jobs s) with
  | Some task, Some (JObj res) =>
      let attempt := uuid_str (ob_attempt o) in
      arts ← mlift (artifacts_of res);
      versions ← on_artifacts (record sha256 configured (or_else (workspace_root task) "")
        (uuid_str (t_task_id task)) (skill task) (Some attempt) None None now arts);
      refs ← mmapM reference versions;
      (if is_str (obj_field "status" res) "escalated"
       then publish_review task res attempt (ob_created o) now refs else mret tt);;
      on_jobs (acknowledge_completion j now)
  | _, _ => mraise RuntimeError
  end.

(** [publish_pending]: a failed publication is logged and left for a later pass. *)
Definition publish_one (now : time) (ev : uuid * outbox_row) (s : stores O) : stores O :=
  (publish now ev.1 ev.2 s).2.
Definition publish_pending (limit : nat) (now : time) (s : stores O) : stores O :=
  foldl (λ s ev, publish_one now ev s) s (pending_completions limit (sy_jobs s)).
End Publish.

(** ** Theorems *)

Section PublishTheorems.
Context {O : Type} `{ObjectStorage O} (sha256 : string → string) (configured : bool).
Local Abbreviation pub := (publish sha256 configured).

Lemma references_state vs : ∀ (s : stores O) x s',
  mmapM (reference configured) vs s = (x, s') → s' = s.
Proof.
  induction vs as [|v vs IH]; intros s x s' Hm; simpl in Hm.
  { unfold mret, M_ret in Hm. by simplify_eq. }
  unfold mbind at 1, M_bind at 1 in Hm. destruct (reference configured v s) as [[r|e] s1] eqn:E.
  - assert (s1 = s) as ->.
    { revert E. unfold reference, mbind, M_bind, mget, mlift, mraise, mret, M_ret.
      destruct (get_version _ _ _ _ _ _) as [[row|]|]; by intros [=]. }
    unfold mbind, M_bind in Hm. destruct (mmapM _ vs s) as [[rs|e] s2] eqn:E2;
      apply IH in E2; unfold mret, M_ret in Hm; by simplify_eq.
  - simplify_eq. revert E. unfold reference, mbind, M_bind, mget, mlift, mraise, mret, M_ret.
    destruct (get_version _ _ _ _ _ _) as [[row|]|]; by intros [=].
Qed.

(** References depend on the artifact store and on the versions named, not on
    whether they are new. *)
Lemma references_replay vs : ∀ (s s2 : stores O) rs s',
  mmapM (reference configured) vs s = (Ok rs, s') → sy_artifacts s2 = sy_artifacts s →
  mmapM (reference configured) (map (λ r, mk_recorded (rec_key r) (rec_version r) false) vs) s2
  = (Ok rs, s2).
Proof.
  induction vs as [|v vs IH]; intros s s2 rs s' Hm Hs.
  { unfold mmapM, mret, M_ret in Hm. by simplify_eq. }
  apply mmapM_cons_ok in Hm as (r & s1 & rs' & H1 & H2 & ->).
  assert (s1 = s ∧ reference configured (mk_recorded (rec_key v) (rec_version v) false) s2
                       = (Ok r, s2)) as [-> E].
  { revert H1. unfold reference, mbind, M_bind, mget, mlift, mraise, mret, M_ret. simpl.
    rewrite Hs. destruct (get_version _ _ _ _ _ _) as [[row|]|]; by intros [= <- <-]. }
  simpl. rewrite (mbind_step _ _ _ _ _ E).
  by rewrite (mbind_step _ _ _ _ _ (IH _ s2 _ _ H2 Hs)).
Qed.

Lemma enqueue_present t tt c p sk a ev sla g pt at_ now (q : queue) :
  is_Some (get_by_task_id t (rq_enqueue t tt c p sk a ev sla g pt at_ now q)).
Proof.
  unfold rq_enqueue. destruct (existsb (has_task t) q) eqn:E.
  - unfold get_by_task_id. apply existsb_exists in E as (r & Hin & Hr).
    destruct (List.find (has_task t) q) eqn:Ef; [by eexists|].
    by rewrite (List.find_none _ _ Ef _ Hin) in Hr.
  - unfold get_by_task_id. induction q as [|x q IH]; simpl in *.
    + unfold has_task. simpl. rewrite String.eqb_refl. by eexists.
    + apply orb_false_iff in E as [-> E]. by apply IH.
Qed.

Lemma enqueue_again t tt c p sk a ev sla g pt at_ now' (q : queue) :
  is_Some (get_by_task_id t q) → rq_enqueue t tt c p sk a ev sla g pt at_ now' q = q.
Proof.
  intros [r Hr]. unfold rq_enqueue. apply List.find_some in Hr as [Hin Hr].
  assert (existsb (has_task t) q = true) as ->; [|done]. apply existsb_exists. eauto.
Qed.

Lemma publish_review_replay task res at_ created now now' refs (s s' : stores O) u :
  publish_review task res at_ created now refs s = (Ok u, s') →
  sy_jobs s' = sy_jobs s ∧ sy_artifacts s' = sy_artifacts s
  ∧ ∀ s2 : stores O, sy_reviews s2 = sy_reviews s' →
      publish_review task res at_ created now' refs s2 = (Ok tt, s2).
Proof.
  unfold publish_review. intros Hp.
  apply mbind_ok in Hp as (dl & s1 & Hdl & Hp). unfold mlift in Hdl. simplify_eq.
  apply mbind_ok in Hp as (u1 & s2 & Hq & Hp). unfold on_reviews in Hq. simplify_eq.
  apply mbind_ok in Hp as (s3 & s4 & Hg & Hp). unfold mget in Hg. simplify_eq.
  cbn [sy_reviews] in Hp. set (key := if truthy_opt _ then _ else _) in *.
  destruct (get_by_task_id key _) as [r|] eqn:Er; [|done].
  unfold mguard, mlift, rguard in Hp. destruct (_ && _) eqn:Eg; simplify_eq. simpl.
  split_and!; [done..|]. intros s2 Hs2.
  rewrite (mbind_step _ _ s2 dl s2) by (unfold mlift; by f_equal).
  rewrite (mbind_step _ _ s2 tt s2).
  2: { unfold on_reviews. rewrite enqueue_again; [by destruct s2|].
       rewrite Hs2. apply enqueue_present. }
  rewrite (mbind_step mget _ s2 s2 s2) by done. rewrite Hs2, Er.
  unfold mguard, mlift, rguard. by rewrite Eg.
Qed.

Lemma reference_keeps {T} (f : stores O → T) v : keeps f (reference configured v).
Proof.
  unfold reference. apply keeps_bind; [apply keeps_pure|]. intros s.
  apply keeps_bind; [apply keeps_pure|]. intros [row|]; apply keeps_pure.
Qed.

Lemma publish_review_keeps task res at_ created now refs :
  keeps sy_jobs (publish_review (O := O) task res at_ created now refs).
Proof.
  unfold publish_review. apply keeps_bind; [apply keeps_pure|]. intros dl.
  apply keeps_bind; [by intros s|]. intros _. apply keeps_bind; [apply keeps_pure|]. intros s.
  destruct (get_by_task_id _ _); apply keeps_pure.
Qed.

Lemma publish_review_evidence task res at_ created now refs (s s' : stores O) u :
  publish_review task res at_ created now refs s = (Ok u, s') →
  ∃ key rv, get_by_task_id key (sy_reviews s') = Some rv ∧ rv_attempt_id rv = Some at_
    ∧ canon (rv_agent_output rv) = canon (JObj (obj_set "artifact_versions" (JArr refs)
        (match obj_field "result" res with JObj d => d | _ => [] end))).
Proof.
  unfold publish_review. intros Hp.
  apply mbind_ok in Hp as (dl & s1 & _ & Hp). apply mbind_ok in Hp as (u1 & s2 & _ & Hp).
  apply mbind_ok in Hp as (s3 & s4 & Hg & Hp). unfold mget in Hg. simplify_eq.
  set (key := if truthy_opt _ then _ else _) in *. exists key.
  destruct (get_by_task_id key _) as [r|] eqn:Er; [|done].
  unfold mguard, mlift, rguard in Hp. destruct (_ && _) eqn:Eg; simplify_eq. reflect.
  by exists r.
Qed.

(** The stages of a publication that succeeded. *)
Lemma publish_ok now j o (s s' : stores O) u : pub now j o s = (Ok u, s') →
  ∃ task res arts vs s1 refs s2,
    get_task j (sy_jobs s) = Some task ∧ get_result j (sy_jobs s) = Some (JObj res)
    ∧ artifacts_of res = Ok arts
    ∧ on_artifacts (record sha256 configured (or_else (workspace_root task) "")
        (uuid_str (t_task_id task)) (skill task) (Some (uuid_str (ob_attempt o))) None None now arts) s
      = (Ok vs, s1)
    ∧ mmapM (reference configured) vs s1 = (Ok refs, s1)
    ∧ (if is_str (obj_field "status" res) "escalated"
       then publish_review task res (uuid_str (ob_attempt o)) (ob_created o) now refs else mret tt) s1
      = (Ok tt, s2)
    ∧ s' = mk_stores (acknowledge_completion j now (sy_jobs s2)).2 (sy_artifacts s2) (sy_reviews s2)
    ∧ sy_jobs s2 = sy_jobs s.
Proof.
  unfold publish. rewrite (mbind_step mget _ s s s) by done. intros Hp.
  destruct (get_task j (sy_jobs s)) as [task|]; [|done].
  destruct (get_result j (sy_jobs s)) as [[| | | | | |res]|]; try done.
  apply mbind_ok in Hp as (arts & s0 & Ha & Hp). unfold mlift in Ha. injection Ha as Ha <-.
  apply mbind_ok in Hp as (vs & s1 & Hv & Hp).
  apply mbind_ok in Hp as (refs & s1' & Hr & Hp).
  pose proof (references_state _ _ _ _ Hr) as ->.
  apply mbind_ok in Hp as ([] & s2 & Hrev & Hp).
  unfold on_jobs in Hp. simpl in Hp. simplify_eq.
  exists task, res, arts, vs, s1, refs, s2. split_and!; try done.
  assert (Hj1 : sy_jobs s1 = sy_jobs s).
  { unfold on_artifacts in Hv. destruct (record _ _ _ _ _ _ _ _ _ _ _). by simplify_eq. }
  rewrite <-Hj1. destruct (is_str _ _); [|unfold mret, M_ret in Hrev; by simplify_eq].
  by apply publish_review_replay with (now' := now) in Hrev as (? & _).
Qed.
End PublishTheorems.

Lemma uuid_str_truthy u : or_else (Some (uuid_str u)) "" ≠ "".
Proof.
  simpl. intros E. pose proof (length_uuid_str u) as Hl. rewrite E in Hl. discriminate Hl.
Qed.

Lemma acknowledge_twice j now now' d :
  (acknowledge_completion j now' (acknowledge_completion j now d).2).2
  = (acknowledge_completion j now d).2.
Proof.
  unfold acknowledge_completion, mmodify, set_outbox. simpl. f_equal.
  apply map_eq. intros i. rewrite !lookup_alter. repeat case_decide; try done. subst.
  destruct (outbox d !! i) as [ob|]; [|done]. simpl. by destruct (ob_published ob) eqn:E; simpl; rewrite ?E.
Qed.

(** Publication is idempotent: once the evidence of a completion has been
    published, publishing the same outbox row again (a publisher that crashed
    before, or raced with another) succeeds and changes nothing in any of the
    three stores: no new artifact version, no second review. *)
Theorem publication_is_idempotent {O} `{ObjectStorage O} sha configured now now' j o (s s' : stores O) u :
  publish sha configured now j o s = (Ok u, s') →
  publish sha configured now' j o s' = (Ok tt, s').
Proof.
  intros (task & res & arts & vs & s1 & refs & s2 & Ht & Hr & Ha & Hv & Href & Hrev & -> & Hj)%publish_ok.
  set (s' := mk_stores _ _ _).
  assert (Hjobs : get_task j (sy_jobs s') = Some task ∧ get_result j (sy_jobs s') = Some (JObj res)).
  { simpl. rewrite Hj. done. }
  destruct Hjobs as [Ht' Hr'].
  assert (H12 : sy_artifacts s2 = sy_artifacts s1).
  { destruct (is_str _ _); [|unfold mret, M_ret in Hrev; by simplify_eq].
    by apply publish_review_replay with (now' := now) in Hrev as (_ & ? & _). }
  unfold on_artifacts in Hv. destruct (record _ _ _ _ _ _ _ _ _ _ (sy_artifacts s)) as [[vs0|] a1] eqn:Erec;
    [|done]. simplify_eq. simpl in H12.
  assert (Hrec : ∀ ar, links ar = links a1 → versions ar = versions a1 → record sha configured
    (or_else (workspace_root task) "") (uuid_str (t_task_id task)) (skill task)
    (Some (uuid_str (ob_attempt o))) None None now' arts ar
    = (Ok (map (λ r, mk_recorded (rec_key r) (rec_version r) false) vs), ar)).
  { intros ar Hl _. eapply record_is_idempotent_core; [apply uuid_str_truthy|exact Erec|].
    intros ak kv. by rewrite Hl. }
  unfold publish. rewrite (mbind_step mget _ s' s' s') by done. rewrite Ht', Hr'.
  rewrite (mbind_step _ _ s' arts s') by (unfold mlift; by rewrite Ha).
  rewrite (mbind_step _ _ s' (map (λ r, mk_recorded (rec_key r) (rec_version r) false) vs) s').
  2: { unfold on_artifacts. simpl. rewrite Hrec by (by rewrite H12). done. }
  rewrite (mbind_step _ _ s' refs s') by (eapply references_replay; [exact Href|simpl; done]).
  rewrite (mbind_step _ _ s' tt s').
  - unfold on_jobs. unfold s'. simpl. do 2 f_equal.
    pose proof (acknowledge_twice j now now' (sy_jobs s2)) as E. simpl in E. by rewrite E.
  - destruct (is_str _ _); [|done].
    apply publish_review_replay with (now' := now') in Hrev as (_ & _ & Hagain). by apply Hagain.
Qed.

(** A job that completed with one artifact, escalated for review. *)
Section Demo.
Definition demo_evidence : jdict :=
  [("status", JStr "escalated");
   ("artifacts", JArr [JObj [("filename", JStr "a.py"); ("content", JStr "x = 1")]]);
   ("confidence", JFloat (1#4))].
Definition demo_jobs : db :=
  (complete 1 200 "out" (Some demo_evidence) 40
    (run (Claim 100 200 "w1" 30) 20
      (run (Enqueue 1 10 (Some demo_task) "first" 0 None) 10 empty_db))).2.
Definition demo_stores : stores filesystem := mk_stores demo_jobs empty_store [].
Definition demo_publish (now : time) : M (stores filesystem) unit :=
  publish (H := local_storage demo_sha (λ _, None) (mk_local ["srv"] 1000)) demo_sha false now 1
    (mk_outbox 100 40 None).
End Demo.

Lemma publication_is_idempotent_witness :
  demo_publish 70 (demo_publish 60 demo_stores).2 = (Ok tt, (demo_publish 60 demo_stores).2).
Proof.
  destruct (demo_publish 60 demo_stores) as [[u|e] s'] eqn:E; [|by vm_compute in E].
  exact (publication_is_idempotent demo_sha false 60 70 1 (mk_outbox 100 40 None) demo_stores s' u E).
Defined.

Lemma on_artifacts_keeps {O A} (m : M (store O) A) : keeps sy_jobs (on_artifacts m).
Proof. intros s. unfold on_artifacts. by destruct (m _). Qed.

(** The outbox row is acknowledged last, and only when the evidence is in
    place: a publication that raises leaves the job store untouched, so a later
    pass retries it; one that succeeds has marked the row published, stored every
    artifact, and, for an escalated result, left a review that carries this
    attempt and exactly this evidence. *)
Theorem evidence_before_acknowledgement {O} `{ObjectStorage O} sha configured now j o (s s' : stores O) x :
  publish sha configured now j o s = (x, s') →
  match x with
  | Raise _ => sy_jobs s' = sy_jobs s
  | Ok _ =>
      sy_jobs s' = (acknowledge_completion j now (sy_jobs s)).2
      ∧ ∃ task res arts vs refs, get_task j (sy_jobs s) = Some task
          ∧ get_result j (sy_jobs s) = Some (JObj res) ∧ artifacts_of res = Ok arts
          ∧ length vs = length arts
          ∧ Forall2 (λ v r, ∃ row, get_version configured (rec_key v) (rec_version v) None None
                (sy_artifacts s') = Ok (Some row)
              ∧ r = JObj [("identity_key", JStr (rec_key v)); ("version", JInt (rec_version v));
                          ("content_hash", JStr (v_hash row))]) vs refs
          ∧ (is_str (obj_field "status" res) "escalated" = true → ∃ key rv,
               get_by_task_id key (sy_reviews s') = Some rv
               ∧ rv_attempt_id rv = Some (uuid_str (ob_attempt o))
               ∧ canon (rv_agent_output rv) = canon (JObj (obj_set "artifact_versions" (JArr refs)
                   (match obj_field "result" res with JObj d => d | _ => [] end))))
  end.
Proof.
  intros Hp. destruct x as [u|e].
  - apply publish_ok in Hp as (task & res & arts & vs & s1 & refs & s2 & Ht & Hr & Ha & Hv & Href & Hrev & -> & Hj).
    assert (H12 : sy_artifacts s2 = sy_artifacts s1).
    { destruct (is_str _ _); [|unfold mret, M_ret in Hrev; by simplify_eq].
      by apply publish_review_replay with (now' := now) in Hrev as (_ & ? & _). }
    split; [simpl; by rewrite Hj|].
    exists task, res, arts, vs, refs. split_and!; try done.
    + unfold on_artifacts in Hv. destruct (record _ _ _ _ _ _ _ _ _ _ _) as [r0 a1] eqn:Erec.
      simplify_eq. unfold record in Erec. apply (proj1 (with_conn_ok _ _ _ _)) in Erec.
      by eapply mmapM_length.
    + simpl. rewrite H12. clear Hv Hrev H12. revert refs Href.
      induction vs as [|v vs IH]; intros refs Href.
      { unfold mmapM, mret, M_ret in Href. simplify_eq. constructor. }
      apply mmapM_cons_ok in Href as (r & s1' & rs' & H1 & H2 & ->).
      revert H1. unfold reference, mbind, M_bind, mget, mlift, mraise, mret, M_ret.
      destruct (get_version _ _ _ _ _ _) as [[row|]|] eqn:Eg; [|by intros [=]..].
      intros [= <- <-]. constructor; [by exists row|by apply IH].
    + intros Hesc. rewrite Hesc in Hrev. simpl. by eapply publish_review_evidence.
  - unfold publish in Hp. rewrite (mbind_step mget _ s s s) in Hp by done.
    destruct (get_task j (sy_jobs s)) as [task|]; [|by unfold mraise in Hp; simplify_eq].
    destruct (get_result j (sy_jobs s)) as [[| | | | | |res]|];
      try (unfold mraise in Hp; by simplify_eq).
    (* only the last step writes the job store, and it cannot raise *)
    apply mbind_raise in Hp as [H1|(arts & s1 & H1 & Hp)];
      pose proof (keeps_result sy_jobs _ _ _ _ (keeps_pure sy_jobs (λ _, artifacts_of res)) H1) as E1; [done|].
    apply mbind_raise in Hp as [H2|(vs & s2 & H2 & Hp)];
      pose proof (keeps_result sy_jobs _ _ _ _ (on_artifacts_keeps _) H2) as E2; [congruence|].
    apply mbind_raise in Hp as [H3|(refs & s3 & H3 & Hp)];
      pose proof (keeps_result sy_jobs _ _ _ _ (keeps_mmapM _ _ _ (reference_keeps _ _)) H3) as E3;
      [congruence|].
    apply mbind_raise in Hp as [H4|(? & s4 & H4 & Hp)].
    + assert (sy_jobs s' = sy_jobs s3); [|congruence]. destruct (is_str _ _).
      * by apply (keeps_result sy_jobs _ _ _ _ (publish_review_keeps _ _ _ _ _ _) H4).
      * unfold mret, M_ret in H4. by simplify_eq.
    + unfold on_jobs, acknowledge_completion, mmodify in Hp. by simplify_eq.
Qed.

Lemma evidence_before_acknowledgement_witness :
  ∃ s', demo_publish 60 demo_stores = (Ok tt, s') ∧ ∃ key rv, get_by_task_id key (sy_reviews s') = Some rv
    ∧ rv_attempt_id rv = Some (uuid_str 100).
Proof.
  destruct (demo_publish 60 demo_stores) as [[[]|e] s'] eqn:E; [|by vm_compute in E].
  destruct (evidence_before_acknowledgement (H := local_storage demo_sha (λ _, None) (mk_local ["srv"] 1000))
    demo_sha false 60 1 (mk_outbox 100 40 None) demo_stores s' _ E)
    as (_ & task & res & arts & vs & refs & _ & Hr & _ & _ & _ & Hrev).
  exists s'. split; [exact eq_refl|].
  destruct Hrev as (key & rv & Hg & Ha & _); [|exact (ex_intro _ key (ex_intro _ rv (conj Hg Ha)))].
  assert (Hres : Some (JObj res) = Some (canon (JObj demo_evidence)))
    by (rewrite <-Hr; vm_compute; reflexivity).
  injection Hres as ->. vm_compute. reflexivity.
Defined.
