(* ===== verification/Substitution.v ===== *)
(** core/goals/substitution.py: resolving references to dependency results in a
    planned task's payload. *)

From S2P Require Import Prelude.
From S2P Require Import PyStr.
From S2P Require Import PyTime.
From S2P Require Import Json.
From S2P Require Import Contracts.
From Stdlib Require Import Ascii.
Open Scope Z_scope.

(** ** The reference pattern

    [^\$\{\{\s*dependencies\.([0-9a-fA-F-]+)\.result(?:\.([^}]+))?\s*}}$], read
    left to right: no alternative of the pattern can succeed after a greedy one
    has failed, and [$] also matches before a final newline. *)

Fixpoint strip_prefix (p l : list ascii) : option (list ascii) :=
  match p, l with
  | [], _ => Some l
  | a :: p, b :: l => if Ascii.eqb a b then strip_prefix p l else None
  | _, _ => None
  end.

Fixpoint span (f : ascii → bool) (l : list ascii) : list ascii * list ascii :=
  match l with
  | c :: l' => if f c then let '(a, b) := span f l' in (c :: a, b) else ([], l)
  | [] => ([], [])
  end.

Definition hex_value (c : ascii) : option N :=
  let n := N_of_ascii c in
  if (48 <=? n)%N && (n <=? 57)%N then Some (n - 48)%N
  else if (97 <=? n)%N && (n <=? 102)%N then Some (n - 87)%N
  else if (65 <=? n)%N && (n <=? 70)%N then Some (n - 55)%N
  else None.

Definition is_dash (c : ascii) : bool := (N_of_ascii c =? 45)%N.
Definition is_dot (c : ascii) : bool := (N_of_ascii c =? 46)%N.
Definition is_brace (c : ascii) : bool := (N_of_ascii c =? 125)%N.

Definition id_char (c : ascii) : bool := is_dash c || bool_decide (is_Some (hex_value c)).

(** The two groups of a match. *)
Definition match_reference (s : string) : option (list ascii * option string) :=
  l ← strip_prefix (to_list "${{") (to_list s);
  l ← strip_prefix (to_list "dependencies.") (drop_space l);
  let '(id, l) := span id_char l in
  if bool_decide (id = []) then None else
  l ← strip_prefix (to_list ".result") l;
  let '(path, l) := match l with
    | c :: l' => if is_dot c
                 then let '(p, r) := span (λ c, negb (is_brace c)) l' in
                      if bool_decide (p = []) then (None, l) else (Some (of_list p), r)
                 else (None, l)
    | [] => (None, [])
    end in
  l ← strip_prefix (to_list "}}") (drop_space l);
  if bool_decide (l = []) || bool_decide (l = [ascii_of_N 10]) then Some (id, path) else None.

(** [UUID(text)]: 32 hexadecimal digits once the dashes are removed. *)
Definition parse_uuid (l : list ascii) : option uuid :=
  let digits := List.filter (λ c, negb (is_dash c)) l in
  if (length digits =? 32)%nat then
    foldl (λ acc c, a ← acc; v ← hex_value c; Some (a * 16 + v)%N) (Some 0%N) digits
  else None.

(** ** resolve_payload *)

(** The walk along [path.strip().split(".")]. *)
Fixpoint walk (parts : list string) (current : json) : result json :=
  match parts with
  | [] => Ok current
  | part :: parts =>
      match current with
      | JObj d => match obj_get part d with
                  | Some v => walk parts v
                  | None => Raise PayloadResolutionError
                  end
      | _ => Raise PayloadResolutionError
      end
  end.

Section Resolve.
Context (float_repr : Q → string) (declared : list uuid) (dependencies : uuid → option PlannedTask).

Definition resolve_str (value : string) : result json :=
  match match_reference value with
  | None => Ok (JStr value)
  | Some (id, path) =>
      dep ← of_option PayloadResolutionError (parse_uuid id);
      rguard (bool_decide (dep ∈ declared)) PayloadResolutionError;;
      match dependencies dep ≫= pt_result with
      | None => Raise PayloadResolutionError
      | Some r =>
          match path with
          | None => Ok (JObj r)
          | Some p => if truthy_str p then walk (split (ascii_of_N 46) (strip p)) (JObj r)
                      else Ok (JObj r)
          end
      end
  end.

Fixpoint resolve (v : json) : result json :=
  match v with
  | JObj d => d ← rmap (λ kv, x ← resolve (snd kv); Ok (fst kv, x)) d; Ok (JObj d)
  | JArr l => l ← rmap resolve l; Ok (JArr l)
  | JStr s => resolve_str s
  | _ => Ok v
  end.
End Resolve.

Definition max_bytes : Z := 65536.

Definition resolve_payload (float_repr : Q → string) (task : PlannedTask)
    (dependencies : uuid → option PlannedTask) : result jdict :=
  resolved ← resolve (depends_on task) dependencies (JObj (pt_payload task));
  match resolved with
  | JObj d =>
      rguard (Z.of_nat (String.length (dumps float_repr (JObj d))) <=? max_bytes)
        PayloadResolutionError;;
      Ok d
  | _ => Raise PayloadResolutionError
  end.

(** ** Properties *)

Definition demo_dep : PlannedTask :=
  mk_Planned 0xabcdef00000000000000000000000001 0 0 "s" [] [] t_complete JNull
    (Some [("files", JObj [("main", JStr "a.py")])]) None.
Definition demo_deps (u : uuid) : option PlannedTask :=
  if (u =? 0xabcdef00000000000000000000000001)%N then Some demo_dep else None.
Definition demo_ref : string :=
  "${{ dependencies.abcdef00-0000-0000-0000-000000000001.result.files.main }}".
Definition demo_task_ref : PlannedTask :=
  mk_Planned 2 0 0 "s" [("f", JStr demo_ref); ("n", JInt 3)] [pt_id demo_dep] t_pending JNull None None.

Example resolve_ex : resolve_payload (λ _, "0.5") demo_task_ref demo_deps
  = Ok [("f", JStr "a.py"); ("n", JInt 3)].
Proof. vm_compute. reflexivity. Qed.
Example resolve_not_reference :
  match_reference "${{ dependencies.ab.result. }}x" = None
  ∧ match_reference "${{dependencies.ab-1.result}}" = Some (to_list "ab-1", None)
  ∧ match_reference "${{dependencies.ab.resultx}}" = None.
Proof. by vm_compute. Qed.

Lemma rmap_raise {A B} (f : A → result B) l e :
  rmap f l = Raise e → ∃ a, a ∈ l ∧ f a = Raise e.
Proof.
  induction l as [|a l IH]; simpl; [done|]. intros H.
  apply rbind_raise in H as [H|(b & _ & H)]; [by exists a; split; [left|]|].
  apply rbind_raise in H as [H|(bs & _ & H)]; [|done].
  apply IH in H as (x & Hx & Hf). exists x. by split; [right|].
Qed.

Lemma rmap_ext {A B} (f g : A → result B) l : (∀ a, a ∈ l → f a = g a) → rmap f l = rmap g l.
Proof.
  induction l as [|a l IH]; intros H; simpl; [done|].
  rewrite (H a) by (by left). by rewrite IH by (intros; apply H; by right).
Qed.

Lemma walk_raise parts v e : walk parts v = Raise e → e = PayloadResolutionError.
Proof.
  revert v. induction parts as [|p parts IH]; intros v H; simpl in H; [done|].
  destruct v as [| | | | | |d]; simplify_eq; try done.
  destruct (obj_get p d); simplify_eq; [by eapply IH|done].
Qed.

Lemma resolve_str_raise decl deps s e : resolve_str decl deps s = Raise e → e = PayloadResolutionError.
Proof.
  unfold resolve_str. destruct (match_reference s) as [[id path]|]; [|done]. intros H. rraise.
  - unfold of_option in H. by case_match; simplify_eq.
  - done.
  - destruct (deps _ ≫= pt_result); [|by simplify_eq]. destruct path; [|done].
    destruct (truthy_str _); [|done]. by eapply walk_raise.
Qed.

Lemma resolve_raise decl deps v e : resolve decl deps v = Raise e → e = PayloadResolutionError.
Proof.
  revert e. induction v as [| | | |s|l IH|d IH] using json_rect'; intros e H; simpl in H; try done.
  - by eapply resolve_str_raise.
  - rraise. apply rmap_raise in H as (x & Hx & H).
    rewrite List.Forall_forall in IH. eapply IH; [by apply list_elem_of_In|done].
  - rraise. apply rmap_raise in H as ([k x] & Hx & H). rraise.
    rewrite List.Forall_forall in IH. apply (IH (k, x)); [by apply list_elem_of_In|done].
Qed.

(** What [resolve] reads of the dependencies: the results of the declared ones. *)
Definition same_results (decl : list uuid) (f g : uuid → option PlannedTask) : Prop :=
  ∀ u, u ∈ decl → (f u ≫= pt_result) = (g u ≫= pt_result).

Lemma resolve_declared decl f g v : same_results decl f g → resolve decl f v = resolve decl g v.
Proof.
  intros Hs. induction v as [| | | |s|l IH|d IH] using json_rect'; simpl; try done.
  - unfold resolve_str. destruct (match_reference s) as [[id path]|]; [|done].
    destruct (of_option _ (parse_uuid id)) as [dep|]; [|done]. simpl.
    unfold rguard. case_bool_decide as Hd; [|done]. simpl. by rewrite (Hs _ Hd).
  - rewrite List.Forall_forall in IH. f_equal. apply rmap_ext. intros x Hx.
    apply IH. by apply list_elem_of_In.
  - rewrite List.Forall_forall in IH. f_equal. apply rmap_ext. intros [k x] Hx. simpl.
    assert (E : resolve decl f x = resolve decl g x) by (apply (IH (k, x)); by apply list_elem_of_In).
    by rewrite E.
Qed.

(** C29: a task can read no result it did not declare a dependency on, and cannot
    fail in any other way than [PayloadResolutionError]: the resolved payload is
    a function of the payload and of the results of its declared dependencies
    alone, and when it exists its compact JSON text fits in 65,536 bytes. *)
Theorem resolution_is_confined_to_declared fr t f g :
  same_results (depends_on t) f g →
  resolve_payload fr t f = resolve_payload fr t g
  ∧ (∀ e, resolve_payload fr t f = Raise e → e = PayloadResolutionError)
  ∧ (∀ p, resolve_payload fr t f = Ok p →
       Z.of_nat (String.length (dumps fr (JObj p))) <= 65536).
Proof.
  intros Hs. unfold resolve_payload. rewrite (resolve_declared _ _ _ _ Hs). split; [done|]. split.
  - intros e H. rraise; [by eapply resolve_raise|].
    destruct x; simplify_eq; try done. by rraise.
  - intros p H. rok. destruct x; simplify_eq; try done. rok. reflect. done.
Qed.

Lemma resolution_is_confined_to_declared_witness :
  resolve_payload (λ _, "0.5") demo_task_ref (λ u, if (u =? 7)%N then Some demo_task_ref else demo_deps u)
  = Ok [("f", JStr "a.py"); ("n", JInt 3)].
Proof.
  rewrite (proj1 (resolution_is_confined_to_declared (λ _, "0.5") demo_task_ref
    (λ u, if (u =? 7)%N then Some demo_task_ref else demo_deps u) demo_deps ltac:(
      intros u Hu; apply list_elem_of_singleton in Hu as ->; reflexivity))).
  vm_compute. reflexivity.
Defined.

(** A value without references. *)
Fixpoint plain (v : json) : bool :=
  match v with
  | JObj d => forallb (λ kv, plain (snd kv)) d
  | JArr l => forallb plain l
  | JStr s => bool_decide (match_reference s = None)
  | _ => true
  end.

Lemma rmap_same {A} (f : A → result A) l : (∀ a, a ∈ l → f a = Ok a) → rmap f l = Ok l.
Proof.
  induction l as [|a l IH]; intros H; simpl; [done|].
  rewrite (H a) by (by left). simpl. by rewrite IH by (intros; apply H; by right).
Qed.

(** A payload that contains no reference is passed on unchanged. *)
Theorem plain_values_are_unchanged decl deps v : plain v = true → resolve decl deps v = Ok v.
Proof.
  induction v as [| | | |s|l IH|d IH] using json_rect'; simpl; try done; intros H.
  - reflect. unfold resolve_str. by rewrite H.
  - rewrite List.Forall_forall in IH. rewrite forallb_forall in H.
    rewrite (rmap_same (resolve decl deps)); [done|]. intros x Hx%list_elem_of_In. auto.
  - rewrite List.Forall_forall in IH. rewrite forallb_forall in H.
    rewrite (rmap_same (λ kv, x ← resolve decl deps kv.2; Ok (kv.1, x))); [done|].
    intros [k x] Hx%list_elem_of_In. simpl.
    assert (E : resolve decl deps x = Ok x) by (apply (IH (k, x) Hx), (H (k, x) Hx)).
    by rewrite E.
Qed.

Lemma plain_values_are_unchanged_witness :
  resolve [] (λ _, None) (JObj [("a", JArr [JStr "plain"; JInt 1])]) =
  Ok (JObj [("a", JArr [JStr "plain"; JInt 1])]).
Proof. apply plain_values_are_unchanged. vm_compute. reflexivity. Defined.

(** ** References written by the planner are understood *)

Lemma strip_prefix_app p l : strip_prefix p (p ++ l) = Some l.
Proof. induction p as [|a p IH]; [done|]. simpl. by rewrite Ascii.eqb_refl. Qed.

Lemma span_app f a l : Forall (λ c, f c = true) a → match l with [] => True | c :: _ => f c = false end →
  span f (a ++ l) = (a, l).
Proof.
  intros Ha Hl. induction Ha as [|c a Hc _ IH]; simpl; [|by rewrite Hc, IH].
  destruct l as [|c l]; [done|]. simpl. by rewrite Hl.
Qed.

Lemma digit_char_N d : (d < 16)%N → N_of_ascii (digit_char d) = if (d <? 10)%N then (48 + d)%N else (87 + d)%N.
Proof. intros Hd. unfold digit_char. rewrite N_ascii_embedding; [done|]. destruct (N.ltb_spec d 10); lia. Qed.

Lemma hex_value_digit d : (d < 16)%N → hex_value (digit_char d) = Some d.
Proof.
  intros Hd. unfold hex_value. rewrite (digit_char_N _ Hd).
  destruct (N.ltb_spec d 10).
  - rewrite (proj2 (N.leb_le 48 _)), (proj2 (N.leb_le _ 57)) by lia. simpl. f_equal. lia.
  - rewrite (proj2 (N.leb_gt _ 57)), andb_false_r by lia.
    rewrite (proj2 (N.leb_le 97 _)), (proj2 (N.leb_le _ 102)) by lia. simpl. f_equal. lia.
Qed.

Lemma digits_hex w n : Forall (λ c, ∃ d, (d < 16)%N ∧ c = digit_char d) (digits 16 w n).
Proof.
  revert n. induction w as [|w IH]; intros n; simpl; [constructor|].
  apply Forall_app. split; [apply IH|]. constructor; [|constructor].
  exists (n mod 16)%N. split; [|done]. by apply N.mod_lt.
Qed.

Lemma hex_not_dash d : (d < 16)%N → is_dash (digit_char d) = false.
Proof.
  intros Hd. unfold is_dash. rewrite (digit_char_N _ Hd). apply N.eqb_neq.
  destruct (N.ltb_spec d 10); lia.
Qed.

Lemma fold_digits w : ∀ n a,
  foldl (λ acc c, a ← acc; v ← hex_value c; Some (a * 16 + v)%N) (Some a) (digits 16 w n)
  = Some (a * 16 ^ N.of_nat w + n mod 16 ^ N.of_nat w)%N.
Proof.
  induction w as [|w IH]; intros n a.
  - simpl. f_equal. rewrite N.mod_1_r. lia.
  - cbn [digits]. rewrite foldl_app, IH. simpl foldl. rewrite hex_value_digit by (by apply N.mod_lt).
    cbn [mbind option_bind]. f_equal. rewrite Nat2N.inj_succ, N.pow_succ_r'.
    rewrite (N.Div0.mod_mul_r n 16). lia.
Qed.

Lemma filter_no_dash l : Forall (λ c, is_dash c = false) l →
  List.filter (λ c, negb (is_dash c)) l = l.
Proof. induction 1 as [|c l Hc _ IH]; [done|]. cbn [List.filter]. by rewrite Hc, IH. Qed.

Lemma hyphenate_pieces (l : list ascii) : length l = 32%nat →
  take 8 l ++ take 4 (drop 8 l) ++ take 4 (drop 12 l) ++ take 4 (drop 16 l) ++ drop 20 l = l.
Proof.
  intros Hl. do 32 (destruct l as [|? l]; [discriminate Hl|]). destruct l; [|discriminate Hl].
  reflexivity.
Qed.

Lemma parse_uuid_str u : uuid_ok u → parse_uuid (to_list (uuid_str u)) = Some u.
Proof.
  intros Hu. unfold parse_uuid, uuid_str. rewrite to_of_list.
  assert (Hd : Forall (λ c, is_dash c = false) (digits 16 32 u)).
  { eapply Forall_impl; [apply digits_hex|]. intros c (d & Hd & ->). by apply hex_not_dash. }
  assert (E : List.filter (λ c, negb (is_dash c)) (hyphenate (digits 16 32 u)) = digits 16 32 u).
  { unfold hyphenate. rewrite !List.filter_app.
    rewrite (filter_no_dash (take 8 _)) by (by apply Forall_take).
    rewrite !(filter_no_dash (take 4 _)) by (by apply Forall_take, Forall_drop).
    rewrite (filter_no_dash (drop 20 _)) by (by apply Forall_drop).
    change (List.filter (λ c, negb (is_dash c)) ["-"%char]) with (@nil ascii). cbn [app].
    apply hyphenate_pieces, length_digits. }
  rewrite E, length_digits. simpl (32 =? 32)%nat. rewrite fold_digits.
  f_equal. rewrite N.mod_small; [lia|exact Hu].
Qed.

Lemma uuid_str_id_chars u : Forall (λ c, id_char c = true) (to_list (uuid_str u)).
Proof.
  unfold uuid_str. rewrite to_of_list.
  assert (Hd : Forall (λ c, id_char c = true) (digits 16 32 u)).
  { eapply Forall_impl; [apply digits_hex|]. intros c (d & Hd & ->). unfold id_char.
    rewrite (hex_value_digit _ Hd). apply orb_true_iff. right. by apply bool_decide_eq_true_2. }
  unfold hyphenate. rewrite !Forall_app.
  split_and!; first [by apply Forall_take | by apply Forall_take, Forall_drop | by apply Forall_drop
    | by apply Forall_singleton].
Qed.

(** The reference to the value at [path] of the result of task [u]. *)
Definition reference_to (u : uuid) (path : string) : string :=
  "${{dependencies." +:+ uuid_str u +:+ ".result." +:+ path +:+ "}}".

Lemma match_reference_to u path : path ≠ "" → Forall (λ c, is_brace c = false) (to_list path) →
  match_reference (reference_to u path) = Some (to_list (uuid_str u), Some path).
Proof.
  intros Hne Hb. unfold match_reference, reference_to. rewrite !to_list_app.
  change (to_list "${{dependencies.") with (to_list "${{" ++ to_list "dependencies.").
  rewrite <-app_assoc, strip_prefix_app. cbn [mbind option_bind].
  rewrite drop_space_id by reflexivity. rewrite strip_prefix_app. cbn [mbind option_bind].
  rewrite (span_app id_char); [|apply uuid_str_id_chars|reflexivity].
  rewrite bool_decide_eq_false_2.
  2: { intros E. pose proof (length_uuid_str u) as Hl. by rewrite E in Hl. }
  change (to_list ".result.") with (to_list ".result" ++ [ascii_of_N 46]).
  rewrite <-app_assoc, strip_prefix_app. cbn [mbind option_bind app].
  assert (Ed : is_dot (ascii_of_N 46) = true) by reflexivity. rewrite Ed.
  rewrite (span_app (λ c, negb (is_brace c))); [|eapply Forall_impl; [exact Hb|]; by intros c ->|reflexivity].
  rewrite bool_decide_eq_false_2.
  2: { intros E. apply Hne. by rewrite <-(of_to_list path), E. }
  rewrite of_to_list. reflexivity.
Qed.

(** A reference a plan writes resolves to what it names: for a declared
    dependency with a result, the text of its id and a dotted path yields the
    value at that path of that result, and an error when there is none. *)
Theorem reference_resolves u path decl deps r :
  uuid_ok u → path ≠ "" → Forall (λ c, is_brace c = false) (to_list path) → strip path = path →
  u ∈ decl → (deps u ≫= pt_result) = Some r →
  resolve_str decl deps (reference_to u path) = walk (split (ascii_of_N 46) path) (JObj r).
Proof.
  intros Hu Hne Hb Hs Hd Hr. unfold resolve_str. rewrite match_reference_to by done.
  rewrite (parse_uuid_str _ Hu). cbn [mbind rbind of_option]. unfold rguard.
  rewrite bool_decide_eq_true_2 by done. cbn [mbind rbind]. rewrite Hr, Hs.
  unfold truthy_str. by rewrite (proj2 (String.eqb_neq path "") Hne).
Qed.

Lemma reference_resolves_witness :
  resolve_str [pt_id demo_dep] demo_deps (reference_to (pt_id demo_dep) "files.main") = Ok (JStr "a.py").
Proof.
  rewrite (reference_resolves (pt_id demo_dep) "files.main" [pt_id demo_dep] demo_deps
    [("files", JObj [("main", JStr "a.py")])]); [vm_compute; reflexivity|done|done| | |by left|done].
  - repeat constructor.
  - reflexivity.
Defined.
