(* ===== verification/GoalStore.v ===== *)
(** core/goals/store.py: goals, their projects and planned tasks, and the goal
    event log.

    A table is the list of its rows in rowid order. JSON columns hold the value
    they encode; statements outside a transaction are committed together at the
    method's end, so a method that raises keeps the rows it had inserted in the
    connection's open transaction, which the next commit makes durable. *)

From S2P Require Import Prelude.
From S2P Require Import PyStr.
From S2P Require Import PyTime.
From S2P Require Import Json.
From S2P Require Import Contracts.
Open Scope Z_scope.

Record task_row := mk_task_row {
  tk : PlannedTask;
  tk_job : option uuid;
  tk_resolved : option jdict;
  tk_ordinal : Z }.

Record goal_event := mk_event {
  ev_goal : uuid;
  ev_actor : string;
  ev_action : string;
  ev_reason : option string;
  ev_affected : list string;
  ev_at : time }.

Record binding := mk_binding {
  bd_repository : string;
  bd_revision : string;
  bd_commit : string;
  bd_recorded : time }.

Record gstore := mk_gstore {
  gs_goals : list GoalContract;
  gs_projects : list (ProjectNode * Z);
  gs_tasks : list task_row;
  gs_events : list goal_event;
  gs_repositories : gmap uuid binding }.

Definition empty_gstore : gstore := mk_gstore [] [] [] [] ∅.

Definition set_goals (f : list GoalContract → list GoalContract) (s : gstore) : gstore :=
  mk_gstore (f (gs_goals s)) (gs_projects s) (gs_tasks s) (gs_events s) (gs_repositories s).
Definition set_projects (f : list (ProjectNode * Z) → list (ProjectNode * Z)) (s : gstore) : gstore :=
  mk_gstore (gs_goals s) (f (gs_projects s)) (gs_tasks s) (gs_events s) (gs_repositories s).
Definition set_tasks (f : list task_row → list task_row) (s : gstore) : gstore :=
  mk_gstore (gs_goals s) (gs_projects s) (f (gs_tasks s)) (gs_events s) (gs_repositories s).
Definition set_events (f : list goal_event → list goal_event) (s : gstore) : gstore :=
  mk_gstore (gs_goals s) (gs_projects s) (gs_tasks s) (f (gs_events s)) (gs_repositories s).
Definition set_repositories (f : gmap uuid binding → gmap uuid binding) (s : gstore) : gstore :=
  mk_gstore (gs_goals s) (gs_projects s) (gs_tasks s) (gs_events s) (f (gs_repositories s)).

(** ** Repositories *)

(** [bind_repository] and [repository_binding]. *)
Definition bind_repository (g : uuid) (repo revision commit : string) (now : time) : M gstore unit :=
  mmodify (set_repositories <[g := mk_binding repo revision commit now]>).
Definition repository_binding (g : uuid) (s : gstore) : option binding := gs_repositories s !! g.

(** ** Goals *)

Definition is_goal (g : uuid) (x : GoalContract) : bool := (goal_id x =? g)%N.

Definition create_goal (goal : GoalContract) : M gstore unit :=
  s ← mget;
  mguard (negb (existsb (is_goal (goal_id goal)) (gs_goals s))) IntegrityError;;
  mmodify (set_goals (λ l, l ++ [goal])).

(** [get_goal]: the row read back through [GoalContract(...)]. *)
Definition get_goal (g : uuid) (s : gstore) : result (option GoalContract) :=
  match List.find (is_goal g) (gs_goals s) with
  | None => Ok None
  | Some row => goal ← validate_goal row; Ok (Some goal)
  end.

(** ORDER BY created_at DESC, rowid DESC. *)
Definition list_goals (s : gstore) : result (list GoalContract) :=
  found ← rmap (λ r, get_goal (goal_id r) s)
    (py_sorted (λ a b, g_created_at b <=? g_created_at a) (rev (gs_goals s)));
  Ok (omap id (found : list (option GoalContract))) : result (list GoalContract).

Definition list_active_goals (s : gstore) : result (list GoalContract) :=
  goals ← list_goals s;
  Ok (List.filter (λ g, bool_decide (g_status g ∈ [g_ready; g_running; g_paused])) goals).

Definition goal_with_status (st : GoalStatus) (x : GoalContract) : GoalContract :=
  mk_Goal (goal_id x) (g_origin x) (objective x) (g_workspace_root x) (g_threshold x) st
    (plan_confidence x) (g_created_at x).

Definition set_goal_status (g : uuid) (st : GoalStatus) : M gstore unit :=
  mmodify (set_goals (map (λ x, if is_goal g x then goal_with_status st x else x))).

(** UPDATE ... SET status = 'running' WHERE status IN ('ready', 'paused'); rowcount > 0. *)
Definition claimable_goal (g : uuid) (x : GoalContract) : bool :=
  is_goal g x && bool_decide (g_status x ∈ [g_ready; g_paused]).

Definition try_claim (g : uuid) : M gstore bool :=
  s ← mget;
  mmodify (set_goals (map (λ x, if claimable_goal g x then goal_with_status g_running x else x)));;
  mret (existsb (claimable_goal g) (gs_goals s)).

(** ** Plans *)

Definition insert_project (p : ProjectNode) (i : Z) : M gstore unit :=
  s ← mget;
  mguard (negb (existsb (λ x, (project_id (fst x) =? project_id p)%N) (gs_projects s))) IntegrityError;;
  mmodify (set_projects (λ l, l ++ [(p, i)])).

Definition is_task (t : uuid) (x : task_row) : bool := (pt_id (tk x) =? t)%N.

(** What a REAL column holds of a Python value: lists and dicts cannot be bound,
    integers and booleans become floats. Numeric text is not represented. *)
Definition bind_real (v : json) : result json :=
  match v with
  | JArr _ | JObj _ => Raise InterfaceError
  | JInt z => Ok (JFloat (inject_Z z))
  | JBool b => Ok (JFloat (if b then 1 else 0)%Q)
  | _ => Ok v
  end.

Definition insert_planned (t : PlannedTask) (i : Z) : M gstore unit :=
  c ← mlift (bind_real (pt_confidence t));
  s ← mget;
  mguard (negb (existsb (is_task (pt_id t)) (gs_tasks s))) IntegrityError;;
  mmodify (set_tasks (λ l, l ++ [mk_task_row (mk_Planned (pt_id t) (pt_project t) (pt_goal t)
    (pt_skill t) (pt_payload t) (depends_on t) (pt_status t) c (pt_result t) (pt_error t))
    None None i])).

Fixpoint insert_all {A} (f : A → Z → M gstore unit) (i : Z) (l : list A) : M gstore unit :=
  match l with
  | [] => mret tt
  | a :: l => f a i;; insert_all f (i + 1) l
  end.

Definition save_plan (g : uuid) (projects : list ProjectNode) (tasks : list PlannedTask)
    (confidence : Q) (gated : bool) : M gstore unit :=
  insert_all insert_project 0 projects;;
  insert_all insert_planned 0 tasks;;
  mmodify (set_goals (map (λ x, if is_goal g x
    then mk_Goal (goal_id x) (g_origin x) (objective x) (g_workspace_root x) (g_threshold x)
           (if gated then g_paused else g_ready) (Some confidence) (g_created_at x)
    else x))).

(** ** Tasks *)

(** [_row_to_task]: confidence is a float or None. *)
Definition row_to_task (r : task_row) : result PlannedTask :=
  match pt_confidence (tk r) with
  | JNull | JFloat _ => Ok (tk r)
  | _ => Raise ValueError
  end.

Definition goal_rows (g : uuid) (s : gstore) : list task_row :=
  py_sorted (λ a b, tk_ordinal a <=? tk_ordinal b)
    (List.filter (λ r, (pt_goal (tk r) =? g)%N) (gs_tasks s)).

Definition get_tasks (g : uuid) (s : gstore) : result (list PlannedTask) :=
  rmap row_to_task (goal_rows g s).

(** The keyword arguments of [update_task]. *)
Inductive field :=
  | F_status (s : TaskStatus)
  | F_confidence (v : json)
  | F_result (v : option jdict)
  | F_error (v : option string)
  | F_job_id (v : option uuid)
  | F_resolved (v : option jdict).

Definition set_field (f : field) (r : task_row) : task_row :=
  let t := tk r in
  let with_task st c res err :=
    mk_task_row (mk_Planned (pt_id t) (pt_project t) (pt_goal t) (pt_skill t) (pt_payload t)
      (depends_on t) st c res err) (tk_job r) (tk_resolved r) (tk_ordinal r) in
  match f with
  | F_status s => with_task s (pt_confidence t) (pt_result t) (pt_error t)
  | F_confidence v => with_task (pt_status t) v (pt_result t) (pt_error t)
  | F_result v => with_task (pt_status t) (pt_confidence t) v (pt_error t)
  | F_error v => with_task (pt_status t) (pt_confidence t) (pt_result t) v
  | F_job_id v => mk_task_row t v (tk_resolved r) (tk_ordinal r)
  | F_resolved v => mk_task_row t (tk_job r) v (tk_ordinal r)
  end.

Definition bind_field (f : field) : result field :=
  match f with
  | F_confidence v => v ← bind_real v; Ok (F_confidence v)
  | _ => Ok f
  end.

Definition update_task (t : uuid) (fields : list field) : M gstore unit :=
  fields ← mlift (rmap bind_field fields);
  mmodify (set_tasks (map (λ r, if is_task t r then foldl (λ r f, set_field f r) r fields else r))).

(** [task_execution]: the job and the resolved payload of a task. *)
Definition task_execution (t : uuid) (s : gstore) : result (option uuid * option jdict) :=
  match List.find (is_task t) (gs_tasks s) with
  | None => Raise KeyError
  | Some r => Ok (tk_job r, tk_resolved r)
  end.

(** ** Events *)

Definition record_event (g : uuid) (actor action : string) (reason : option string)
    (affected : list string) (now : time) : M gstore unit :=
  mmodify (set_events (λ l, l ++ [mk_event g actor action reason affected now])).

Definition events (g : uuid) (s : gstore) : list goal_event :=
  List.filter (λ e, (ev_goal e =? g)%N) (gs_events s).

(** ** Read models *)

Record rollup_row := mk_rollup {
  ru_status : option GoalStatus;
  ru_completed : nat;
  ru_total : nat;
  ru_min_confidence : option Q;
  ru_blocked : nat;
  ru_failed : nat;
  ru_escalated : nat;
  ru_cancelled : nat }.

Definition count_tasks (st : TaskStatus) (l : list PlannedTask) : nat :=
  length (List.filter (λ t, bool_decide (pt_status t = st)) l).

Definition confidence_value (t : PlannedTask) : option Q :=
  match pt_confidence t with JFloat q => Some q | _ => None end.

Definition qmin (l : list Q) : option Q :=
  match l with
  | [] => None
  | q :: l => Some (foldl (λ a b, if Qltb b a then b else a) q l)
  end.

Definition rollup (g : uuid) (s : gstore) : result rollup_row :=
  tasks ← get_tasks g s;
  goal ← get_goal g s;
  Ok (mk_rollup (g_status <$> goal) (count_tasks t_complete tasks) (length tasks)
        (qmin (omap confidence_value tasks)) (count_tasks t_blocked tasks)
        (count_tasks t_failed tasks) (count_tasks t_escalated tasks) (count_tasks t_cancelled tasks)).

(** [goal_tree]: the goal and, per project in order, its tasks with their execution. *)
Definition goal_tree (g : uuid) (s : gstore) :
    result (GoalContract * list (ProjectNode * list (PlannedTask * (option uuid * option jdict)))) :=
  goal ← get_goal g s;
  goal ← of_option KeyError goal;
  tasks ← get_tasks g s;
  tasks ← rmap (λ t, e ← task_execution (pt_id t) s; Ok (t, e)) tasks;
  Ok (goal, map (λ p, (fst p, List.filter (λ te, (pt_project (fst te) =? project_id (fst p))%N) tasks))
        (py_sorted (λ a b, snd a <=? snd b)
           (List.filter (λ p, (p_goal_id (fst p) =? g)%N) (gs_projects s)))).

(** ** Properties *)

(** A goal is claimed by one runner only. [try_claim] succeeds exactly when
    the goal is ready or paused, a success makes it running, and then every
    further claim fails until someone changes its status again. *)
Theorem try_claim_is_exclusive g s :
  let '(r, s') := try_claim g s in
  ∃ b, r = Ok b
  ∧ (b = true ↔ ∃ x, x ∈ gs_goals s ∧ goal_id x = g ∧ (g_status x = g_ready ∨ g_status x = g_paused))
  ∧ (b = false → s' = s)
  ∧ (try_claim g s').1 = Ok false.
Proof.
  assert (Hc : ∀ x, claimable_goal g x = true ↔
    goal_id x = g ∧ (g_status x = g_ready ∨ g_status x = g_paused)).
  { intros x. unfold claimable_goal, is_goal.
    rewrite andb_true_iff, N.eqb_eq, bool_decide_eq_true, !elem_of_cons, elem_of_nil. tauto. }
  simpl. eexists. split; [done|]. split_and!.
  - rewrite existsb_exists. split; intros (x & Hin & Hx).
    + exists x. rewrite list_elem_of_In. split; [done|]. by apply Hc.
    + exists x. rewrite <-list_elem_of_In. split; [done|]. by apply Hc.
  - intros Hf. destruct s as [gs ? ? ? ?]. unfold set_goals. simpl in *. f_equal.
    rewrite <-(map_id gs) at 2. apply map_ext_in. intros x Hx%list_elem_of_In.
    rewrite existsb_false_iff in Hf. by rewrite (Hf x Hx).
  - f_equal. apply existsb_false_iff. intros y (x & -> & Hx)%list_elem_of_fmap.
    destruct (claimable_goal g x) eqn:E; [|done].
    unfold claimable_goal. apply andb_false_iff. right. reflexivity.
Qed.

Fixpoint planned_rows (i : Z) (tasks : list PlannedTask) : list task_row :=
  match tasks with
  | [] => []
  | t :: tasks => mk_task_row t None None i :: planned_rows (i + 1) tasks
  end.

(** A confidence as [PlannedTask] types it. *)
Definition typed_confidence (t : PlannedTask) : Prop :=
  match pt_confidence t with JNull | JFloat _ => True | _ => False end.

Lemma insert_planned_ok t i s u s' : typed_confidence t → insert_planned t i s = (Ok u, s') →
  s' = set_tasks (λ l, l ++ [mk_task_row t None None i]) s.
Proof.
  unfold insert_planned, typed_confidence, mbind, M_bind, mlift, mget, mguard, rguard, mmodify.
  intros Hc H. destruct t as [? ? ? ? ? ? ? c ? ?]. simpl in *.
  destruct c; try done; simpl in H; destruct (negb _); by simplify_eq.
Qed.

Lemma insert_planned_all tasks : ∀ i s u s', Forall typed_confidence tasks →
  insert_all insert_planned i tasks s = (Ok u, s') →
  s' = set_tasks (λ l, l ++ planned_rows i tasks) s.
Proof.
  induction tasks as [|t tasks IH]; intros i s u s' Hc H; simpl in H.
  - unfold mret, M_ret in H. simplify_eq. destruct s'. unfold set_tasks. simpl. by rewrite app_nil_r.
  - apply Forall_cons in Hc as [Ht Hc]. apply mbind_ok in H as (? & s1 & H1 & H2).
    apply insert_planned_ok in H1 as ->; [|done]. apply IH in H2 as ->; [|done].
    unfold set_tasks. simpl. by rewrite <-app_assoc.
Qed.

Lemma insert_projects_tasks ps : ∀ i s u s', insert_all insert_project i ps s = (Ok u, s') →
  gs_tasks s' = gs_tasks s.
Proof.
  induction ps as [|p ps IH]; intros i s u s' H; simpl in H; [unfold mret, M_ret in H; by simplify_eq|].
  apply mbind_ok in H as (? & s1 & H1 & H2). apply IH in H2 as ->.
  unfold insert_project, mbind, M_bind, mget, mguard, mlift, rguard, mmodify in H1.
  destruct (negb _); by simplify_eq.
Qed.

Lemma planned_rows_sorted tasks : ∀ i,
  StronglySorted (λ a b, (tk_ordinal a <=? tk_ordinal b) = true) (planned_rows i tasks)
  ∧ Forall (λ r, i <= tk_ordinal r) (planned_rows i tasks)
  ∧ tk <$> planned_rows i tasks = tasks.
Proof.
  induction tasks as [|t tasks IH]; intros i; simpl; [repeat constructor|].
  destruct (IH (i + 1)) as (Hs & Hf & Ht). split_and!.
  - constructor; [done|]. eapply Forall_impl; [exact Hf|]. simpl. lia.
  - constructor; [simpl; lia|]. eapply Forall_impl; [exact Hf|]. simpl. lia.
  - f_equal. exact Ht.
Qed.

(** A saved plan is read back as it was planned: for a goal without tasks,
    after [save_plan] succeeds [get_tasks] returns exactly the planned tasks, in
    plan order, and the goal is paused if the plan was gated, ready otherwise. *)
Theorem save_plan_then_get_tasks g ps tasks conf gated s u s' :
  Forall (λ t, pt_goal t = g ∧ typed_confidence t) tasks →
  Forall (λ r, pt_goal (tk r) ≠ g) (gs_tasks s) →
  save_plan g ps tasks conf gated s = (Ok u, s') →
  get_tasks g s' = Ok tasks
  ∧ ∀ x, x ∈ gs_goals s' → goal_id x = g →
      g_status x = (if gated then g_paused else g_ready) ∧ plan_confidence x = Some conf.
Proof.
  intros Ht Hs H. unfold save_plan in H.
  apply mbind_ok in H as (? & s1 & Hp & H). apply insert_projects_tasks in Hp.
  apply mbind_ok in H as (? & s2 & Htk & H).
  apply insert_planned_all in Htk as ->; [|eapply Forall_impl; [exact Ht|naive_solver]].
  unfold mmodify in H. simplify_eq. split.
  - unfold get_tasks, goal_rows. simpl. rewrite Hp, List.filter_app.
    assert (E1 : List.filter (λ r, (pt_goal (tk r) =? g)%N) (gs_tasks s) = []).
    { clear Hp. induction Hs as [|r l Hr _ IH]; [done|]. simpl.
      by rewrite (proj2 (N.eqb_neq _ _) Hr). }
    destruct (planned_rows_sorted tasks 0) as (Hsort & _ & Hmap).
    assert (E2 : List.filter (λ r, (pt_goal (tk r) =? g)%N) (planned_rows 0 tasks) = planned_rows 0 tasks).
    { clear Hsort Hmap. generalize 0. induction Ht as [|t l [Hg _] _ IH]; intros i; [done|]. simpl.
      by rewrite Hg, N.eqb_refl, IH. }
    rewrite E1, E2, app_nil_l, py_sorted_id by done.
    transitivity (Ok (tk <$> planned_rows 0 tasks)); [|by f_equal].
    clear E2 Hsort Hmap. generalize 0. induction Ht as [|t l [_ Hc] _ IH]; intros i; [done|]. simpl.
    rewrite IH. unfold row_to_task, typed_confidence in *. simpl. by destruct (pt_confidence t).
  - intros z Hx Hg. simpl in Hx. apply list_elem_of_In, in_map_iff in Hx as (y & <- & _).
    unfold is_goal in *. destruct (N.eqb_spec (goal_id y) g); [done|]. simpl in Hg. done.
Qed.

Definition demo_goal : GoalContract := mk_Goal 7 "user" "build it" None (1#2) g_planning None 5.
Definition demo_plan : list PlannedTask :=
  [mk_Planned 21 31 7 "s.a" [] [] t_pending JNull None None;
   mk_Planned 20 31 7 "s.b" [] [21%N] t_pending JNull None None].
Definition demo_saved : gstore :=
  (save_plan 7 [mk_Project 31 7 "p" ""] demo_plan (3#4) false
     (create_goal demo_goal empty_gstore).2).2.

Lemma save_plan_then_get_tasks_witness : get_tasks 7 demo_saved = Ok demo_plan.
Proof.
  destruct (save_plan 7 [mk_Project 31 7 "p" ""] demo_plan (3#4) false
    (create_goal demo_goal empty_gstore).2) as [[u|] s'] eqn:E; [|by vm_compute in E].
  unfold demo_saved. rewrite E.
  refine (proj1 (save_plan_then_get_tasks 7 _ _ _ _ _ u s' _ _ E)).
  - repeat constructor.
  - constructor.
Defined.
