(* ===== verification/Coordinator.v ===== *)
(** core/goals/coordinator.py: driving a goal's task graph through the durable
    job store.

    A method runs over both stores; each call it makes on them commits on its
    own. The identifiers [enqueue] draws and the clock are arguments: [fresh t] is
    the job id drawn for task [t]. *)

From S2P Require Import Prelude.
From S2P Require Import PyStr.
From S2P Require Import PyTime.
From S2P Require Import Json.
From S2P Require Import Contracts.
From S2P Require Import JobRepository.
From S2P Require Import JobInvariant.
From S2P Require Import JobTheorems.
From S2P Require Import Substitution.
From S2P Require Import GoalStore.
Open Scope Z_scope.

Record world := mk_world {
  w_store : gstore;
  w_jobs : db }.

Definition on_store {A} (m : M gstore A) : M world A := λ w,
  let '(r, s) := m (w_store w) in (r, mk_world s (w_jobs w)).
Definition on_db {A} (m : M db A) : M world A := λ w,
  let '(r, d) := m (w_jobs w) in (r, mk_world (w_store w) d).
Definition read_store {A} (f : gstore → result A) : M world A := mread (λ w, f (w_store w)).
Definition read_db {A} (f : db → result A) : M world A := mread (λ w, f (w_jobs w)).

(** [key]. *)
Definition goal_key (g t : uuid) : string :=
  "goal:" +:+ uuid_str g +:+ ":task:" +:+ uuid_str t.

(** [{task.task_id: task for task in tasks}]: the last task of an id wins. *)
Definition by_id (tasks : list PlannedTask) (t : uuid) : option PlannedTask :=
  List.find (λ x, (pt_id x =? t)%N) (rev tasks).

Definition status_in (t : PlannedTask) (l : list TaskStatus) : bool := bool_decide (pt_status t ∈ l).

Section Coordinator.
Context (float_repr : Q → string) (exn_str : exn → string).
Context (per_goal_limit global_limit : Z) (fresh : uuid → uuid) (now : time).

(** What the TEXT column [error] holds of a Python value. *)
Definition bind_text (v : json) : result (option string) :=
  match v with
  | JNull => Ok None
  | JStr s => Ok (Some s)
  | JInt z => Ok (Some (py_int z))
  | JBool b => Ok (Some (if b then "1" else "0"))
  | JFloat q => Ok (Some (float_repr q))
  | JArr _ | JObj _ => Raise InterfaceError
  end.

(** [(confidence or 0.0) >= threshold]. *)
Definition meets (confidence : json) (threshold : Q) : result bool :=
  c ← jnum (jor confidence (JFloat 0));
  Ok (Qle_bool threshold c).

(** *** reconcile: the tasks that run *)

Definition task_job (g : uuid) (t : PlannedTask) : M world (option Job) :=
  execution ← read_store (task_execution (pt_id t));
  match execution.1 with
  | Some j => read_db (get_job j)
  | None => read_db (get_job_by_idempotency_key (goal_key g (pt_id t)))
  end.

(** One running task: [true] when [reconcile] returns because it escalated. *)
Definition observe_task (goal : GoalContract) (t : PlannedTask) : M world bool :=
  if negb (bool_decide (pt_status t = t_running)) then mret false else
  job ← task_job (goal_id goal) t;
  match job with
  | None => on_store (update_task (pt_id t) [F_status t_pending; F_job_id None]);; mret false
  | Some job =>
      match status job with
      | completed =>
          res ← read_db (λ d, Ok (get_result (job_id job) d));
          let res := match res with Some (JObj d) => d | _ => [] end in
          let confidence := obj_field "confidence" res in
          let state := obj_field "status" res in
          let task_result := match obj_field "result" res with JObj d => d | _ => res end in
          ok ← mlift (if is_str state "complete" then meets confidence (g_threshold goal) else Ok false);
          if (ok : bool) then
            on_store (update_task (pt_id t)
              [F_status t_complete; F_confidence confidence; F_result (Some task_result)]);;
            mret false
          else if is_str state "failed" || is_str state "no_agent_found" then
            err ← mlift (bind_text (jor (obj_field "failure_reason" res) state));
            on_store (update_task (pt_id t)
              [F_status t_failed; F_confidence confidence; F_error err]);;
            mret false
          else
            on_store (update_task (pt_id t)
              [F_status t_escalated; F_confidence confidence; F_result (Some task_result)]);;
            on_store (set_goal_status (goal_id goal) g_paused);;
            mret true
      | failed => on_store (update_task (pt_id t) [F_status t_failed; F_error (Some "failed")]);;
                  mret false
      | cancelled => on_store (update_task (pt_id t) [F_status t_failed; F_error (Some "cancelled")]);;
                     mret false
      | queued | running => mret false
      end
  end.

Fixpoint observe (goal : GoalContract) (tasks : list PlannedTask) : M world bool :=
  match tasks with
  | [] => mret false
  | t :: tasks => stop ← observe_task goal t;
                  if (stop : bool) then mret true else observe goal tasks
  end.

(** *** reconcile: the tasks that can no longer run *)

Definition dependents_of (failed : list uuid) (t : PlannedTask) : bool :=
  bool_decide (pt_status t = t_pending) && negb (bool_decide (pt_id t ∈ failed))
  && existsb (λ d, bool_decide (d ∈ failed)) (depends_on t).

(** One pass of the [for] loop; the flag is [changed]. *)
Fixpoint block_pass (failed : list uuid) (tasks : list PlannedTask) : M world (list uuid * bool) :=
  match tasks with
  | [] => mret (failed, false)
  | t :: tasks =>
      if dependents_of failed t then
        on_store (update_task (pt_id t) [F_status t_blocked; F_error (Some "dependency failed")]);;
        r ← block_pass (pt_id t :: failed) tasks;
        mret (r.1, true)
      else block_pass failed tasks
  end.

(** The [while] loop. Every pass but the last blocks a task, so as many passes as
    there are tasks, plus one, are enough. *)
Fixpoint block_loop (fuel : nat) (failed : list uuid) (tasks : list PlannedTask) : M world (list uuid) :=
  match fuel with
  | O => mret failed
  | S fuel =>
      r ← block_pass failed tasks;
      if (r.2 : bool) then block_loop fuel r.1 tasks else mret r.1
  end.

(** *** reconcile: the tasks that can start *)

(** [all(by_id[dep].status == "complete" for dep in deps)]. *)
Fixpoint all_complete (find : uuid → option PlannedTask) (deps : list uuid) : result bool :=
  match deps with
  | [] => Ok true
  | d :: deps =>
      match find d with
      | None => Raise KeyError
      | Some t => if bool_decide (pt_status t = t_complete) then all_complete find deps else Ok false
      end
  end.

Definition contract_for (goal : GoalContract) (g : uuid) (t : PlannedTask) (payload : jdict) :
    result TaskContract :=
  validate_task (mk_Task (pt_id t) ("goal:" +:+ uuid_str g) (pt_skill t) payload (g_threshold goal)
    None (g_workspace_root goal) None None now).

Definition submit (key : string) (contract : TaskContract) : M world Job :=
  on_db (enqueue (fresh (t_task_id contract)) (t_task_id contract) (Some contract) key 0 None now).

(** One task of the dispatch loop: the slots left after it. *)
Definition dispatch_task (goal : GoalContract) (find : uuid → option PlannedTask) (t : PlannedTask)
    (slots : Z) : M world Z :=
  if negb (bool_decide (pt_status t = t_pending)) then mret slots else
  ready ← mlift (all_complete find (depends_on t));
  if negb ready then mret slots else
  match resolve_payload float_repr t find with
  | Raise e => on_store (update_task (pt_id t) [F_status t_failed; F_error (Some (exn_str e))]);;
               mret slots
  | Ok payload =>
      contract ← mlift (contract_for goal (goal_id goal) t payload);
      job ← submit (goal_key (goal_id goal) (pt_id t)) contract;
      on_store (update_task (pt_id t)
        [F_status t_running; F_job_id (Some (job_id job)); F_resolved (Some payload)]);;
      mret (slots - 1)
  end.

Fixpoint dispatch (goal : GoalContract) (find : uuid → option PlannedTask) (tasks : list PlannedTask)
    (slots : Z) : M world unit :=
  match tasks with
  | [] => mret tt
  | t :: tasks =>
      if slots <=? 0 then mret tt
      else slots ← dispatch_task goal find t slots; dispatch goal find tasks slots
  end.

Definition count_running (tasks : list PlannedTask) : Z :=
  Z.of_nat (length (List.filter (λ t, bool_decide (pt_status t = t_running)) tasks)).

Definition free_slots (tasks : list PlannedTask) (jobs : list Job) : Z :=
  Z.min (per_goal_limit - count_running tasks)
    (global_limit - Z.of_nat (length (List.filter (λ j, bool_decide (status j = running)) jobs))).

(** *** reconcile: the goal's own status *)

Definition conclude (g : uuid) (tasks : list PlannedTask) : M world unit :=
  if forallb (λ t, bool_decide (pt_status t = t_complete)) tasks then
    on_store (set_goal_status g g_complete);;
    on_store (record_event g "system" "complete" None [] now)
  else if negb (existsb (λ t, status_in t [t_pending; t_running]) tasks) then
    on_store (set_goal_status g g_failed)
  else mret tt.

Definition reconcile (g : uuid) : M world unit :=
  goal ← read_store (get_goal g);
  match goal with
  | None => mret tt
  | Some goal =>
      if negb (bool_decide (g_status goal = g_running)) then mret tt else
      tasks ← read_store (get_tasks g);
      stop ← observe goal tasks;
      if (stop : bool) then mret tt else
      tasks ← read_store (get_tasks g);
      let find := by_id tasks in
      let failed_ids := map pt_id
        (List.filter (λ t, status_in t [t_failed; t_blocked; t_cancelled]) tasks) in
      block_loop (S (length tasks)) failed_ids tasks;;
      tasks ← read_store (get_tasks g);
      all_jobs ← read_db (list_jobs 500);
      dispatch goal find tasks (free_slots tasks all_jobs);;
      tasks ← read_store (get_tasks g);
      conclude g tasks
  end.

Fixpoint reconcile_goals (goals : list GoalContract) : M world unit :=
  match goals with
  | [] => mret tt
  | goal :: goals =>
      (if bool_decide (g_status goal = g_paused) then mret tt else reconcile (goal_id goal));;
      reconcile_goals goals
  end.

Definition reconcile_all : M world unit :=
  goals ← read_store list_active_goals;
  reconcile_goals goals.

(** *** start, pause, cancel *)

Definition required_goal (g : uuid) : M world GoalContract :=
  goal ← read_store (get_goal g);
  mlift (of_option KeyError goal).

Definition start (g : uuid) (actor : string) : M world unit :=
  goal ← required_goal g;
  mguard (bool_decide (g_status goal ∈ [g_ready; g_paused; g_running])) ValueError;;
  on_store (set_goal_status g g_running);;
  on_store (record_event g actor "resume" None [] now);;
  reconcile g.

Definition pause (g : uuid) (actor : string) (reason : option string) : M world unit :=
  goal ← required_goal g;
  if bool_decide (g_status goal = g_paused) then mret tt else
  mguard (bool_decide (g_status goal = g_running)) ValueError;;
  on_store (set_goal_status g g_paused);;
  on_store (record_event g actor "pause" reason [] now).

Definition cancel_task (t : PlannedTask) : M world (list string) :=
  match pt_status t with
  | t_running =>
      execution ← read_store (task_execution (pt_id t));
      match execution.1 with
      | Some j =>
          job ← read_db (get_job j);
          match job with
          | Some job => if bool_decide (status job ∈ [queued; running])
                        then on_db (JobRepository.cancel (job_id job) now);; mret tt else mret tt
          | None => mret tt
          end
      | None => mret tt
      end;;
      on_store (update_task (pt_id t) [F_status t_cancelled]);;
      mret [uuid_str (pt_id t)]
  | t_pending =>
      on_store (update_task (pt_id t) [F_status t_cancelled]);;
      mret [uuid_str (pt_id t)]
  | _ => mret []
  end.

Definition cancel_goal (g : uuid) (actor : string) (reason : option string) : M world unit :=
  goal ← required_goal g;
  if bool_decide (g_status goal = g_cancelled) then mret tt else
  mguard (negb (bool_decide (g_status goal ∈ [g_complete; g_failed]))) ValueError;;
  tasks ← read_store (get_tasks g);
  affected ← mmapM cancel_task tasks;
  on_store (set_goal_status g g_cancelled);;
  on_store (record_event g actor "cancel" reason (List.concat affected) now).

(** *** rerun *)

Definition reruns (g t : uuid) (s : gstore) : Z :=
  Z.of_nat (length (List.filter (λ e, String.eqb (ev_action e) "rerun"
    && existsb (String.eqb (uuid_str t)) (ev_affected e)) (events g s))).

Definition rerun (g t : uuid) (actor : string) (reason : option string) : M world unit :=
  tasks ← read_store (get_tasks g);
  task ← mlift (of_option KeyError (by_id tasks t));
  mguard (status_in task [t_failed; t_escalated; t_complete]) ValueError;;
  run_number ← read_store (λ s, Ok (1 + reruns g t s));
  payload ← mlift (resolve_payload float_repr task (by_id tasks));
  goal ← read_store (get_goal g);
  goal ← mlift (of_option AttributeError goal);
  contract ← mlift (contract_for goal g task payload);
  job ← submit (goal_key g t +:+ ":rerun:" +:+ py_int run_number) contract;
  on_store (update_task t [F_status t_running; F_error None; F_result None; F_confidence JNull;
    F_job_id (Some (job_id job)); F_resolved (Some payload)]);;
  on_store (set_goal_status g g_running);;
  on_store (record_event g actor "rerun" reason [uuid_str t] now).
End Coordinator.
