(* ===== verification/CoordinatorTheorems.v ===== *)
(** What driving a goal guarantees: tasks move along the edges of their state
    machine, a task starts only when everything it depends on is complete and
    within the configured concurrency, everything downstream of a failure is
    blocked and nothing else, and a goal's status follows from its tasks. *)

From S2P Require Import Prelude.
From S2P Require Import PyStr.
From S2P Require Import PyTime.
From S2P Require Import Json.
From S2P Require Import Contracts.
From S2P Require Import JobRepository.
From S2P Require Import JobInvariant.
From S2P Require Import JobTheorems.
From S2P Require Import JobSubmit.
From S2P Require Import Substitution.
From S2P Require Import GoalStore.
From S2P Require Import Coordinator.
Open Scope Z_scope.

(** ** Rows and updates *)

Definition row (s : gstore) (t : uuid) : option task_row := List.find (is_task t) (gs_tasks s).
Definition status_at (s : gstore) (t : uuid) : option TaskStatus := pt_status ∘ tk <$> row s t.

Definition unique_ids (s : gstore) : Prop := NoDup ((λ r, pt_id (tk r)) <$> gs_tasks s).

(** What no update touches: identity, goal, dependencies, skill, payload, place. *)
Definition same_task (r r' : task_row) : Prop :=
  pt_id (tk r') = pt_id (tk r) ∧ pt_goal (tk r') = pt_goal (tk r)
  ∧ depends_on (tk r') = depends_on (tk r) ∧ pt_skill (tk r') = pt_skill (tk r)
  ∧ pt_payload (tk r') = pt_payload (tk r) ∧ tk_ordinal r' = tk_ordinal r.

Lemma set_field_same f r : same_task r (set_field f r).
Proof. by destruct f. Qed.

Lemma same_task_trans a b c : same_task a b → same_task b c → same_task a c.
Proof. unfold same_task. intuition congruence. Qed.

Lemma set_fields_same fs r : same_task r (foldl (λ r f, set_field f r) r fs).
Proof.
  revert r. induction fs as [|f fs IH]; intros r; [done|]. simpl.
  eapply same_task_trans; [apply set_field_same|apply IH].
Qed.

(** A row-wise change of the table that keeps every task's identity. *)
Lemma find_map (f : task_row → task_row) l t : (∀ r, same_task r (f r)) →
  List.find (is_task t) (map f l) = f <$> List.find (is_task t) l.
Proof.
  intros Hf. induction l as [|r l IH]; [done|]. simpl. unfold is_task in *.
  rewrite (proj1 (Hf r)). by destruct (pt_id (tk r) =? t)%N.
Qed.

Lemma row_map f s t : (∀ r, same_task r (f r)) →
  row (set_tasks (map f) s) t = f <$> row s t.
Proof. apply find_map. Qed.

Lemma row_id s t r : row s t = Some r → pt_id (tk r) = t.
Proof. intros H. apply List.find_some in H as [_ H]. by apply N.eqb_eq in H. Qed.

Lemma unique_map f s : (∀ r, same_task r (f r)) → unique_ids s → unique_ids (set_tasks (map f) s).
Proof.
  unfold unique_ids. intros Hf Hu. simpl. change (map f (gs_tasks s)) with (f <$> gs_tasks s).
  rewrite <-list_fmap_compose. erewrite list_fmap_ext; [exact Hu|]. intros _ r _. apply Hf.
Qed.

(** ** Reading the tasks of a goal *)

Lemma rmap_tasks l l' : rmap row_to_task l = Ok l' → l' = tk <$> l.
Proof.
  revert l'. induction l as [|r l IH]; intros l' H; simpl in H; rok; [done|].
  simpl. f_equal; [|by apply IH]. unfold row_to_task in *. by destruct (pt_confidence (tk r)); simplify_eq.
Qed.

Lemma elem_of_goal_rows g s r : r ∈ goal_rows g s ↔ r ∈ gs_tasks s ∧ pt_goal (tk r) = g.
Proof.
  unfold goal_rows. rewrite elem_of_py_sorted, !list_elem_of_In, filter_In. by rewrite N.eqb_eq.
Qed.

Lemma row_of_elem s r : unique_ids s → r ∈ gs_tasks s → row s (pt_id (tk r)) = Some r.
Proof.
  unfold unique_ids, row. generalize (gs_tasks s) as l. intros l.
  induction l as [|x l IH]; intros Hu Hin; [by apply elem_of_nil in Hin|]. simpl.
  apply NoDup_cons in Hu as [Hx Hu]. unfold is_task.
  destruct (N.eqb_spec (pt_id (tk x)) (pt_id (tk r))) as [E|Hne].
  - apply elem_of_cons in Hin as [-> |Hin]; [done|]. destruct Hx. simpl. rewrite E.
    by apply (list_elem_of_fmap_2 (λ r, pt_id (tk r))).
  - apply elem_of_cons in Hin as [-> |Hin]; [done|]. by apply IH.
Qed.

Lemma get_tasks_rows g s l t : unique_ids s → get_tasks g s = Ok l → t ∈ l →
  ∃ r, row s (pt_id t) = Some r ∧ tk r = t ∧ pt_goal t = g.
Proof.
  intros Hu H Ht. apply rmap_tasks in H as ->. apply list_elem_of_fmap in Ht as (r & -> & Hr).
  apply elem_of_goal_rows in Hr as [Hr Hg]. exists r. by rewrite row_of_elem.
Qed.

Lemma goal_rows_unique g s : unique_ids s → NoDup ((λ r, pt_id (tk r)) <$> goal_rows g s).
Proof.
  unfold unique_ids, goal_rows. intros Hu. rewrite py_sorted_perm.
  eapply sublist_NoDup; [exact Hu|]. apply fmap_sublist. clear Hu.
  induction (gs_tasks s) as [|r l IH]; simpl; [done|].
  destruct (_ =? _)%N; [by constructor|by apply sublist_cons].
Qed.

Lemma get_tasks_unique g s l : unique_ids s → get_tasks g s = Ok l → NoDup (pt_id <$> l).
Proof.
  intros Hu H. apply rmap_tasks in H as ->. rewrite <-list_fmap_compose.
  by apply (goal_rows_unique g) in Hu.
Qed.

Lemma by_id_Some l t x : by_id l t = Some x → x ∈ l ∧ pt_id x = t.
Proof.
  unfold by_id. intros [Hin Hx%N.eqb_eq]%List.find_some. split; [|done].
  by apply list_elem_of_In, in_rev.
Qed.

(** ** Blocking what a failure makes impossible *)

Definition block_row (r : task_row) : task_row :=
  set_field (F_error (Some "dependency failed")) (set_field (F_status t_blocked) r).
Definition block (w : world) (i : uuid) : world :=
  mk_world (set_tasks (map (λ r, if is_task i r then block_row r else r)) (w_store w)) (w_jobs w).

(** The ids one pass blocks, in order. *)
Fixpoint pass_ids (failed : list uuid) (tasks : list PlannedTask) : list uuid :=
  match tasks with
  | [] => []
  | t :: tasks => if dependents_of failed t then pt_id t :: pass_ids (pt_id t :: failed) tasks
                  else pass_ids failed tasks
  end.

Lemma block_pass_eq tasks : ∀ failed w, block_pass failed tasks w =
  (Ok (rev (pass_ids failed tasks) ++ failed,
       match pass_ids failed tasks with [] => false | _ => true end),
   foldl block w (pass_ids failed tasks)).
Proof.
  induction tasks as [|t tasks IH]; intros failed w; [done|]. simpl.
  destruct (dependents_of failed t); [|apply IH].
  rewrite (mbind_step _ _ w tt (block w (pt_id t))) by done.
  rewrite (mbind_step _ _ _ _ _ (IH (pt_id t :: failed) (block w (pt_id t)))).
  unfold mret, M_ret. simpl. by rewrite <-app_assoc.
Qed.

Lemma pass_nil failed tasks : pass_ids failed tasks = [] →
  ∀ t, t ∈ tasks → dependents_of failed t = false.
Proof.
  induction tasks as [|x tasks IH]; simpl; intros H t Ht; [by apply elem_of_nil in Ht|].
  destruct (dependents_of failed x) eqn:E; [done|]. apply elem_of_cons in Ht as [-> |Ht]; auto.
Qed.

(** What is still to be blocked, at most. *)
Definition open_tasks (failed : list uuid) (tasks : list PlannedTask) : list PlannedTask :=
  List.filter (λ t, bool_decide (pt_status t = t_pending) && negb (bool_decide (pt_id t ∈ failed))) tasks.

Definition is_open (failed : list uuid) (t : PlannedTask) : bool :=
  bool_decide (pt_status t = t_pending) && negb (bool_decide (pt_id t ∈ failed)).

Lemma is_open_mono failed failed' t : (∀ u, u ∈ failed → u ∈ failed') →
  is_open failed' t = true → is_open failed t = true.
Proof.
  unfold is_open. intros H Ho. reflect. rewrite (bool_decide_eq_true_2 (pt_status t = t_pending)) by done.
  rewrite bool_decide_eq_false_2; [done|]. auto.
Qed.

Lemma dependents_open failed t : dependents_of failed t = true → is_open failed t = true.
Proof. unfold dependents_of, is_open. intros H. by apply andb_true_iff in H as [-> _]. Qed.

(** A pass that blocks something leaves less to be blocked. *)
Lemma open_pass tasks0 tasks : ∀ failed, (∀ t, t ∈ tasks → t ∈ tasks0) →
  let ids := pass_ids failed tasks in
  (length (open_tasks (rev ids ++ failed) tasks0) + (match ids with [] => 0 | _ => 1 end)
   ≤ length (open_tasks failed tasks0))%nat.
Proof.
  induction tasks as [|t tasks IH]; intros failed Hin; simpl; [lia|].
  destruct (dependents_of failed t) eqn:E; [|apply IH; intros; apply Hin; by right].
  simpl. rewrite <-app_assoc. simpl.
  pose proof (IH (pt_id t :: failed) (λ x Hx, Hin x (proj2 (elem_of_cons _ _ _) (or_intror Hx)))) as H.
  simpl in H. assert (length (open_tasks (pt_id t :: failed) tasks0) < length (open_tasks failed tasks0))%nat;
    [|lia].
  apply (filter_length_lt (is_open (pt_id t :: failed)) (is_open failed) tasks0 t).
  - intros y _. apply is_open_mono. intros u Hu. by right.
  - apply Hin. by left.
  - unfold is_open. rewrite (bool_decide_eq_true_2 (pt_id t ∈ _)) by (by left). by rewrite andb_false_r.
  - by apply dependents_open.
Qed.

Lemma pass_sound tasks : ∀ failed (P : uuid → Prop),
  (∀ u, u ∈ failed → P u) →
  (∀ t, t ∈ tasks → pt_status t = t_pending → (∃ d, d ∈ depends_on t ∧ P d) → P (pt_id t)) →
  ∀ u, u ∈ pass_ids failed tasks → P u.
Proof.
  induction tasks as [|t tasks IH]; intros failed P Hf Hc u Hu; simpl in Hu; [by apply elem_of_nil in Hu|].
  assert (Hc' : ∀ t, t ∈ tasks → pt_status t = t_pending → (∃ d, d ∈ depends_on t ∧ P d) → P (pt_id t))
    by (intros; apply Hc; [by right|done..]).
  destruct (dependents_of failed t) eqn:E; [|by apply (IH failed P)].
  assert (Ht : P (pt_id t)).
  { unfold dependents_of in E. reflect. apply Hc; [by left|done|].
    match goal with H : existsb _ _ = true |- _ => apply existsb_exists in H as (d & Hd & Hdf) end.
    reflect. exists d. rewrite list_elem_of_In. auto. }
  apply elem_of_cons in Hu as [-> |Hu]; [done|]. apply (IH (pt_id t :: failed) P); try done.
  intros v [-> |Hv]%elem_of_cons; auto.
Qed.

Lemma pass_ids_tasks tasks : ∀ failed u, u ∈ pass_ids failed tasks →
  ∃ t, t ∈ tasks ∧ pt_id t = u ∧ pt_status t = t_pending.
Proof.
  induction tasks as [|t tasks IH]; intros failed u Hu; simpl in Hu; [by apply elem_of_nil in Hu|].
  destruct (dependents_of failed t) eqn:E.
  - apply elem_of_cons in Hu as [-> |Hu].
    + exists t. unfold dependents_of in E. reflect. by split; [left|].
    + apply IH in Hu as (x & ? & ?). exists x. split; [by right|done].
  - apply IH in Hu as (x & ? & ?). exists x. split; [by right|done].
Qed.

(** The whole loop: which ids it blocks, that it stops with nothing left to block,
    and that it blocks nothing that does not follow from the failures. *)
Lemma block_loop_ok fuel : ∀ failed tasks w, (length (open_tasks failed tasks) < fuel)%nat →
  ∃ ids, block_loop fuel failed tasks w = (Ok (rev ids ++ failed), foldl block w ids)
  ∧ (∀ t, t ∈ tasks → dependents_of (rev ids ++ failed) t = false)
  ∧ (∀ u, u ∈ ids → ∃ t, t ∈ tasks ∧ pt_id t = u ∧ pt_status t = t_pending)
  ∧ (∀ P : uuid → Prop, (∀ u, u ∈ failed → P u) →
      (∀ t, t ∈ tasks → pt_status t = t_pending → (∃ d, d ∈ depends_on t ∧ P d) → P (pt_id t)) →
      ∀ u, u ∈ ids → P u).
Proof.
  induction fuel as [|fuel IH]; intros failed tasks w Hf; [lia|]. simpl.
  rewrite (mbind_step _ _ _ _ _ (block_pass_eq tasks failed w)). cbn [fst snd].
  assert (Hpass : ∀ P : uuid → Prop, (∀ u, u ∈ failed → P u) →
      (∀ t, t ∈ tasks → pt_status t = t_pending → (∃ d, d ∈ depends_on t ∧ P d) → P (pt_id t)) →
      ∀ u, u ∈ pass_ids failed tasks → P u) by (intros P; apply pass_sound).
  pose proof (open_pass tasks tasks failed (λ t H, H)) as Hless. cbv zeta in Hless.
  destruct (pass_ids failed tasks) as [|i ids'] eqn:E.
  - exists []. simpl. split_and!; [done|by apply pass_nil|by intros u Hu%elem_of_nil|by intros P _ _ u Hu%elem_of_nil].
  - destruct (IH (rev (i :: ids') ++ failed) tasks (foldl block w (i :: ids'))) as (more & Hl & Hc & Ht & Hm);
      [lia|].
    exists ((i :: ids') ++ more). rewrite rev_app_distr, <-app_assoc, foldl_app.
    split_and!; [exact Hl|exact Hc| |].
    + intros u [Hu|Hu]%elem_of_app; [|by apply Ht]. apply (pass_ids_tasks _ failed). by rewrite E.
    + intros P Hf' Hcl u [Hu|Hu]%elem_of_app; [by apply (Hpass P)|].
      apply (Hm P); [|done|done]. intros v [Hv|Hv]%elem_of_app; [|by apply Hf'].
      apply (Hpass P); [done..|]. by apply list_elem_of_In, in_rev, list_elem_of_In.
Qed.

(** ** How the task table evolves *)

Definition apply_fields (fs : list field) (r : task_row) : task_row := foldl (λ r f, set_field f r) r fs.
Definition upd (t : uuid) (fs : list field) (r : task_row) : task_row :=
  if is_task t r then apply_fields fs r else r.
Definition field_status (st : TaskStatus) (fs : list field) : TaskStatus :=
  foldl (λ st f, match f with F_status s => s | _ => st end) st fs.

Lemma apply_fields_status fs r : pt_status (tk (apply_fields fs r)) = field_status (pt_status (tk r)) fs.
Proof. revert r. induction fs as [|f fs IH]; intros r; [done|]. simpl. rewrite IH. by destruct f. Qed.

Lemma upd_same t fs r : same_task r (upd t fs r).
Proof. unfold upd. destruct (is_task t r); [apply set_fields_same|done]. Qed.

Lemma bind_fields_status fs fs' st : rmap bind_field fs = Ok fs' → field_status st fs' = field_status st fs.
Proof.
  revert fs' st. induction fs as [|f fs IH]; intros fs' st H; simpl in H; rok; [done|]. simpl.
  destruct f; simpl in *; rok; simpl; by apply IH.
Qed.

(** [update_task] rewrites the task's row, or raises without touching anything. *)
Lemma update_task_cases t fs s x s' : update_task t fs s = (x, s') →
  (s' = s ∧ ∃ e, x = Raise e)
  ∨ ∃ fs', rmap bind_field fs = Ok fs' ∧ x = Ok tt ∧ s' = set_tasks (map (upd t fs')) s.
Proof.
  unfold update_task, mbind, M_bind, mlift, mmodify. intros H.
  destruct (rmap bind_field fs) as [fs'|e]; simplify_eq; [right|left; eauto].
  exists fs'. done.
Qed.

(** Every row is as it was or moved along an edge of [E], keeping its identity. *)
Definition evolves (E : TaskStatus → TaskStatus → Prop) (s s' : gstore) : Prop :=
  ∀ t, match row s t, row s' t with
       | Some r, Some r' => same_task r r' ∧ (r' = r ∨ E (pt_status (tk r)) (pt_status (tk r')))
       | None, None => True
       | _, _ => False
       end.

Lemma evolves_refl E s : evolves E s s.
Proof. intros t. destruct (row s t); [|done]. split; [done|by left]. Qed.

Lemma evolves_tasks E s s' s'' : evolves E s s' → gs_tasks s'' = gs_tasks s' → evolves E s s''.
Proof. intros H Ht t. specialize (H t). unfold row in *. by rewrite Ht. Qed.

Lemma evolves_trans (E1 E2 E : TaskStatus → TaskStatus → Prop) s1 s2 s3 :
  (∀ a b, E1 a b → E a b) → (∀ a b, E2 a b → E a b) → (∀ a b c, E1 a b → E2 b c → E a c) →
  evolves E1 s1 s2 → evolves E2 s2 s3 → evolves E s1 s3.
Proof.
  intros H1 H2 H12 Ha Hb t. specialize (Ha t). specialize (Hb t).
  destruct (row s1 t), (row s2 t), (row s3 t); try done.
  destruct Ha as [Sa Ha], Hb as [Sb Hb]. split; [by eapply same_task_trans|].
  destruct Ha as [-> |Ha], Hb as [-> |Hb]; eauto.
Qed.

Lemma evolves_upd (E : TaskStatus → TaskStatus → Prop) s t fs r : row s t = Some r →
  E (pt_status (tk r)) (field_status (pt_status (tk r)) fs) →
  evolves E s (set_tasks (map (upd t fs)) s).
Proof.
  intros Hr HE u. rewrite row_map by apply upd_same. destruct (row s u) as [x|] eqn:Eu; [|done]. simpl.
  split; [apply upd_same|]. unfold upd. destruct (is_task t x) eqn:Et; [|by left]. right.
  rewrite apply_fields_status. apply N.eqb_eq in Et. rewrite (row_id _ _ _ Eu) in Et. subst u.
  rewrite Hr in Eu. by simplify_eq.
Qed.

(** The rows of [tasks] are still as the list shows them. *)
Definition current_view (s : gstore) (tasks : list PlannedTask) : Prop :=
  ∀ t, t ∈ tasks → ∃ r, row s (pt_id t) = Some r ∧ tk r = t.

Lemma get_tasks_view g s l : unique_ids s → get_tasks g s = Ok l → current_view s l.
Proof. intros Hu H t Ht. destruct (get_tasks_rows g s l t Hu H Ht) as (r & ? & ? & _). eauto. Qed.

Lemma view_upd s t fs tasks : current_view s tasks → t ∉ pt_id <$> tasks →
  current_view (set_tasks (map (upd t fs)) s) tasks.
Proof.
  intros Hv Ht u Hu. destruct (Hv u Hu) as (r & Hr & Hk). exists r. split; [|done].
  rewrite row_map by apply upd_same. rewrite Hr. simpl. f_equal. unfold upd, is_task. rewrite Hk.
  destruct (N.eqb_spec (pt_id u) t) as [<-|]; [|done]. destruct Ht. by apply list_elem_of_fmap_2.
Qed.

Lemma view_cons s t tasks : current_view s (t :: tasks) → current_view s tasks.
Proof. intros Hv u Hu. apply Hv. by right. Qed.

Lemma view_tasks s s' tasks : gs_tasks s' = gs_tasks s → current_view s tasks → current_view s' tasks.
Proof. unfold current_view, row. intros ->. done. Qed.

Lemma unique_upd t fs s : unique_ids s → unique_ids (set_tasks (map (upd t fs)) s).
Proof. apply unique_map. intros r. apply upd_same. Qed.

(** A step of a phase: nothing, or one row of task [t] updated with status [st]. *)
Definition touches (t : uuid) (ok : TaskStatus → Prop) (st0 : TaskStatus) (s s' : gstore) : Prop :=
  gs_tasks s' = gs_tasks s
  ∨ ∃ fs, gs_tasks s' = map (upd t fs) (gs_tasks s) ∧ ok (field_status st0 fs).

Lemma touches_update t fs st0 (ok : TaskStatus → Prop) s x s' : ok (field_status st0 fs) →
  update_task t fs s = (x, s') → touches t ok st0 s s'.
Proof.
  intros Hok [[-> _]|(fs' & Hb & _ & ->)]%update_task_cases; [by left|right].
  exists fs'. split; [done|]. by rewrite (bind_fields_status _ _ _ Hb).
Qed.

(** *** The phases *)

Section Phases.
Context (float_repr : Q → string) (exn_str : exn → string).
Context (per_goal_limit global_limit : Z) (fresh : uuid → uuid) (now : time).

Definition observed (st : TaskStatus) : Prop :=
  st = t_complete ∨ st = t_failed ∨ st = t_escalated ∨ st = t_pending.

Lemma task_job_keeps g t : keeps id (task_job g t).
Proof.
  unfold task_job. apply keeps_bind; [apply keeps_pure|]. intros [j ?]. simpl.
  destruct j; apply keeps_pure.
Qed.

Lemma on_store_update t fs w x w' : on_store (update_task t fs) w = (x, w') →
  ∃ s', update_task t fs (w_store w) = (x, s') ∧ w' = mk_world s' (w_jobs w).
Proof. unfold on_store. destruct (update_task t fs (w_store w)) as [r s']. intros [= <- <-]. eauto. Qed.

(** An update followed by something that leaves tasks and jobs alone. *)
Lemma update_then {A} t fs st0 (ok : TaskStatus → Prop) (k : M world A) w x w' :
  ok (field_status st0 fs) →
  (∀ w, gs_tasks (w_store (k w).2) = gs_tasks (w_store w) ∧ w_jobs (k w).2 = w_jobs w) →
  (on_store (update_task t fs);; k) w = (x, w') →
  touches t ok st0 (w_store w) (w_store w') ∧ w_jobs w' = w_jobs w.
Proof.
  intros Hok Hk H. unfold mbind, M_bind in H.
  destruct (on_store (update_task t fs) w) as [r w1] eqn:E.
  apply on_store_update in E as (s' & Hu & ->). pose proof (touches_update _ _ st0 ok _ _ _ Hok Hu) as Ht.
  destruct r as [u|e]; [|by simplify_eq].
  specialize (Hk (mk_world s' (w_jobs w))). rewrite H in Hk. simpl in Hk. destruct Hk as [Hk1 Hk2].
  split; [|done]. unfold touches in *. by rewrite Hk1.
Qed.

Lemma observe_task_touches goal t w x w' : observe_task float_repr goal t w = (x, w') →
  w_jobs w' = w_jobs w
  ∧ (gs_tasks (w_store w') = gs_tasks (w_store w)
     ∨ pt_status t = t_running ∧ touches (pt_id t) observed t_running (w_store w) (w_store w')).
Proof.
  unfold observe_task. case_bool_decide as Hr; simpl; [|unfold mret, M_ret; intros; simplify_eq; auto].
  intros H. unfold mbind at 1, M_bind at 1 in H.
  destruct (task_job (goal_id goal) t w) as [[job|e] w1] eqn:Ej;
    pose proof (keeps_result id _ _ _ _ (task_job_keeps _ _) Ej) as E; unfold id in E; subst w1;
    [|simplify_eq; auto].
  assert (Hk : ∀ b, ∀ w, gs_tasks (w_store ((mret b : M world bool) w).2) = gs_tasks (w_store w)
    ∧ w_jobs ((mret b : M world bool) w).2 = w_jobs w) by done.
  assert (Hdone : touches (pt_id t) observed t_running (w_store w) (w_store w') ∧ w_jobs w' = w_jobs w →
    w_jobs w' = w_jobs w ∧ (gs_tasks (w_store w') = gs_tasks (w_store w)
     ∨ pt_status t = t_running ∧ touches (pt_id t) observed t_running (w_store w) (w_store w')))
    by tauto.
  destruct job as [job|].
  2: { apply Hdone. eapply update_then; [|apply (Hk false)|exact H]. unfold observed. simpl. auto. }
  destruct (status job).
  1,2: unfold mret, M_ret in H; simplify_eq; auto.
  2,3: apply Hdone; eapply update_then; [|apply (Hk false)|exact H]; unfold observed; simpl; auto.
  unfold mbind at 1, M_bind at 1, read_db, mread in H. cbv zeta in H.
  set (res := match get_result (job_id job) (w_jobs w) with Some (JObj d) => d | _ => [] end) in *.
  unfold mbind at 1, M_bind at 1, mlift at 1 in H.
  destruct (if is_str _ "complete" then _ else _) as [ok|e]; [|simplify_eq; auto].
  destruct ok.
  { apply Hdone. eapply update_then; [|apply (Hk false)|exact H]. unfold observed. simpl. auto. }
  destruct (is_str _ "failed" || is_str _ "no_agent_found").
  - unfold mbind at 1, M_bind at 1, mlift at 1 in H. destruct (bind_text _ _); [|simplify_eq; auto].
    apply Hdone. eapply update_then; [|apply (Hk false)|exact H]. unfold observed. simpl. auto.
  - apply Hdone. eapply update_then; [| |exact H]; [unfold observed; simpl; auto|done].
Qed.

Definition observe_edge (a b : TaskStatus) : Prop := a = t_running ∧ observed b.
Definition block_edge (a b : TaskStatus) : Prop := a = t_pending ∧ b = t_blocked.
Definition dispatch_edge (a b : TaskStatus) : Prop := a = t_pending ∧ (b = t_running ∨ b = t_failed).

Lemma touches_step (E : TaskStatus → TaskStatus → Prop) t ok tasks s s' :
  unique_ids s → current_view s (t :: tasks) → NoDup (pt_id <$> t :: tasks) →
  (∀ b, ok b → E (pt_status t) b) → touches (pt_id t) ok (pt_status t) s s' →
  evolves E s s' ∧ unique_ids s' ∧ current_view s' tasks.
Proof.
  intros Hu Hv Hnd HE [Ht|(fs & Ht & Hok)].
  - split_and!.
    + eapply evolves_tasks; [apply evolves_refl|done].
    + unfold unique_ids in *. by rewrite Ht.
    + eapply view_tasks; [exact Ht|]. by eapply view_cons.
  - destruct (Hv t) as (r & Hr & Hk); [by left|]. apply NoDup_cons in Hnd as [Hnin _].
    split_and!.
    + eapply (evolves_tasks _ _ (set_tasks (map (upd (pt_id t) fs)) s)); [|exact Ht]. eapply evolves_upd; [exact Hr|]. rewrite Hk. by apply HE.
    + unfold unique_ids. rewrite Ht. by apply (unique_upd (pt_id t) fs s).
    + apply (view_tasks (set_tasks (map (upd (pt_id t) fs)) s)); [exact Ht|]. apply view_upd; [by eapply view_cons|done].
Qed.

Lemma same_tasks_step t tasks s s' : gs_tasks s' = gs_tasks s → unique_ids s →
  current_view s (t :: tasks) → ∀ E, evolves E s s' ∧ unique_ids s' ∧ current_view s' tasks.
Proof.
  intros Ht Hu Hv E. split_and!; [eapply evolves_tasks; [apply evolves_refl|done]|..].
  - unfold unique_ids in *. by rewrite Ht.
  - eapply view_tasks; [exact Ht|]. by eapply view_cons.
Qed.

Lemma observe_evolves goal tasks : ∀ w x w', observe float_repr goal tasks w = (x, w') →
  unique_ids (w_store w) → NoDup (pt_id <$> tasks) → current_view (w_store w) tasks →
  evolves observe_edge (w_store w) (w_store w') ∧ unique_ids (w_store w') ∧ w_jobs w' = w_jobs w.
Proof.
  induction tasks as [|t tasks IH]; intros w x w' H Hu Hnd Hv; simpl in H.
  { unfold mret, M_ret in H. simplify_eq. split; [apply evolves_refl|done]. }
  unfold mbind, M_bind in H. destruct (observe_task float_repr goal t w) as [r w1] eqn:E.
  apply observe_task_touches in E as [Hj Ht].
  assert (evolves observe_edge (w_store w) (w_store w1) ∧ unique_ids (w_store w1)
    ∧ current_view (w_store w1) tasks) as (He & Hu1 & Hv1).
  { destruct Ht as [Ht|[Hs Ht]]; [by apply (same_tasks_step t)|].
    eapply touches_step; [done..| |by rewrite Hs]. intros b Hb. by split. }
  assert (Hdone : evolves observe_edge (w_store w) (w_store w1) ∧ unique_ids (w_store w1) ∧ w_jobs w1 = w_jobs w)
    by done.
  destruct r as [[]|e]; [unfold mret, M_ret in H; by simplify_eq| |by simplify_eq].
  destruct (IH _ _ _ H Hu1) as (He2 & Hu2 & Hj2); [by apply NoDup_cons in Hnd as [_ ?]|done|].
  split_and!; [|done|congruence].
  eapply evolves_trans; [..|exact He|exact He2]; try done.
  intros a b c [_ Hb] [Hb' _]. unfold observed in Hb. naive_solver.
Qed.

Lemma block_row_same r : same_task r (block_row r).
Proof. done. Qed.

Lemma block_rows ids : ∀ w u, row (w_store (foldl block w ids)) u
  = (λ r, if bool_decide (u ∈ ids) then block_row r else r) <$> row (w_store w) u.
Proof.
  induction ids as [|i ids IH]; intros w u; cbn [foldl].
  { rewrite bool_decide_eq_false_2 by apply not_elem_of_nil. by destruct (row _ u). }
  rewrite IH. change (w_store (block w i)) with (set_tasks (map (λ r, if is_task i r then block_row r else r)) (w_store w)).
  rewrite row_map by (intros r; destruct (is_task i r); [apply block_row_same|done]).
  destruct (row (w_store w) u) as [r|] eqn:Er; [|done].
  unfold fmap, option_fmap, option_map. f_equal. unfold is_task. rewrite (row_id _ _ _ Er).
  destruct (N.eqb_spec u i) as [-> |Hne].
  - rewrite (bool_decide_eq_true_2 (i ∈ i :: ids)) by (by left). by case_bool_decide.
  - case_bool_decide as H1.
    + rewrite bool_decide_eq_true_2; [done|by right].
    + rewrite bool_decide_eq_false_2; [done|]. by intros [|]%elem_of_cons.
Qed.

Lemma block_jobs ids : ∀ w, w_jobs (foldl block w ids) = w_jobs w
  ∧ (unique_ids (w_store w) → unique_ids (w_store (foldl block w ids))).
Proof.
  induction ids as [|i ids IH]; intros w; simpl; [done|]. destruct (IH (block w i)) as [-> Hu].
  split; [done|]. intros H. apply Hu, (unique_upd i [F_status t_blocked; F_error (Some "dependency failed")]), H.
Qed.

Lemma block_evolves ids w :
  (∀ i, i ∈ ids → ∃ r, row (w_store w) i = Some r ∧ pt_status (tk r) = t_pending) →
  evolves block_edge (w_store w) (w_store (foldl block w ids)).
Proof.
  intros Hp u. rewrite block_rows. destruct (row (w_store w) u) as [r|] eqn:Er; [|done]. simpl.
  case_bool_decide as Hin; [|split; [done|by left]].
  split; [apply block_row_same|]. right. destruct (Hp _ Hin) as (r' & Hr & Hs).
  simplify_eq. by split.
Qed.

(** *** Dispatching *)

Local Abbreviation dispatch_one := (dispatch_task float_repr exn_str fresh now).

(** A task that was started: what [reconcile] checked, submitted and recorded. *)
Record started (goal : GoalContract) (find : uuid → option PlannedTask) (t : PlannedTask) (w w' : world) :
    Prop := {
  st_ready : all_complete find (depends_on t) = Ok true;
  st_payload : ∃ payload contract job,
    resolve_payload float_repr t find = Ok payload
    ∧ contract_for now goal (goal_id goal) t payload = Ok contract
    ∧ enqueue (fresh (t_task_id contract)) (t_task_id contract) (Some contract)
        (goal_key (goal_id goal) (pt_id t)) 0 None now (w_jobs w) = (Ok job, w_jobs w')
    ∧ w_store w' = set_tasks (map (upd (pt_id t) [F_status t_running; F_job_id (Some (job_id job));
        F_resolved (Some payload)])) (w_store w) }.

Lemma dispatch_task_cases goal find t slots w x w' : dispatch_one goal find t slots w = (x, w') →
  (gs_tasks (w_store w') = gs_tasks (w_store w) ∧ (x = Ok slots ∨ ∃ e, x = Raise e))
  ∨ (pt_status t = t_pending ∧ w_jobs w' = w_jobs w ∧ x = Ok slots
     ∧ touches (pt_id t) (λ st, st = t_failed) t_pending (w_store w) (w_store w'))
  ∨ (pt_status t = t_pending ∧ started goal find t w w' ∧ x = Ok (slots - 1)).
Proof.
  unfold dispatch_task. case_bool_decide as Hp; simpl; [|unfold mret, M_ret; intros; simplify_eq; auto].
  intros H. unfold mbind at 1, M_bind at 1, mlift at 1 in H.
  destruct (all_complete find (depends_on t)) as [[]|e] eqn:Ha; simpl in H;
    [|unfold mret, M_ret in H; simplify_eq; auto|simplify_eq; left; eauto].
  destruct (resolve_payload float_repr t find) as [payload|e] eqn:Hr.
  2: { right; left. split; [done|]. unfold mbind, M_bind in H.
       destruct (on_store _ w) as [r w1] eqn:E. apply on_store_update in E as (s' & Hu & ->).
       pose proof Hu as Hu'. apply update_task_cases in Hu' as [[_ [e' ->]]|(fs' & _ & -> & _)];
         [unfold update_task, mbind, M_bind, mlift, mmodify in Hu; simpl in Hu; done|].
       unfold mret, M_ret in H. simplify_eq. split_and!; [done..|].
       eapply touches_update; [|exact Hu]. done. }
  unfold mbind at 1, M_bind at 1, mlift at 1 in H.
  destruct (contract_for now goal (goal_id goal) t payload) as [contract|e] eqn:Hc;
    [|simplify_eq; left; eauto].
  unfold mbind at 1, M_bind at 1 in H. unfold submit, on_db in H.
  destruct (enqueue _ _ _ _ _ _ _ (w_jobs w)) as [[job|e] d'] eqn:He; simpl in H;
    [|simplify_eq; left; simpl; eauto].
  right; right. unfold mbind, M_bind, on_store, update_task, mlift, mmodify, mret, M_ret in H.
  simpl in H. simplify_eq. split_and!; [done| |done]. split; [done|].
  by exists payload, contract, job.
Qed.

Lemma status_upd t fs s u : row s u = None ∨ u ≠ t → status_at (set_tasks (map (upd t fs)) s) u = status_at s u.
Proof.
  intros Hu. unfold status_at. rewrite row_map by apply upd_same.
  destruct (row s u) as [r|] eqn:Er; [|done]. simpl. unfold upd, is_task. rewrite (row_id _ _ _ Er).
  destruct (N.eqb_spec u t); [|done]. destruct Hu; congruence.
Qed.

(** A task that runs after a phase and did not before was started by it. *)
Definition newly_running (s s' : gstore) (u : uuid) : Prop :=
  status_at s u ≠ Some t_running ∧ status_at s' u = Some t_running.

Lemma dispatch_ok goal find tasks : ∀ slots w x w',
  dispatch float_repr exn_str fresh now goal find tasks slots w = (x, w') →
  unique_ids (w_store w) → NoDup (pt_id <$> tasks) → current_view (w_store w) tasks →
  evolves dispatch_edge (w_store w) (w_store w') ∧ unique_ids (w_store w')
  ∧ (∀ u, newly_running (w_store w) (w_store w') u →
       ∃ t, t ∈ tasks ∧ pt_id t = u ∧ all_complete find (depends_on t) = Ok true).
Proof.
  induction tasks as [|t tasks IH]; intros slots w x w' H Hu Hnd Hv; simpl in H.
  { unfold mret, M_ret in H. simplify_eq. split_and!; [apply evolves_refl|done|].
    intros u [Hn Hy]. congruence. }
  destruct (slots <=? 0).
  { unfold mret, M_ret in H. simplify_eq. split_and!; [apply evolves_refl|done|].
    intros u [Hn Hy]. congruence. }
  unfold mbind, M_bind in H. destruct (dispatch_one goal find t slots w) as [r w1] eqn:E.
  assert (Hstep : (evolves dispatch_edge (w_store w) (w_store w1) ∧ unique_ids (w_store w1)
      ∧ current_view (w_store w1) tasks)
    ∧ ∀ u, newly_running (w_store w) (w_store w1) u →
        pt_id t = u ∧ all_complete find (depends_on t) = Ok true).
  { apply dispatch_task_cases in E as [[Ht _]|[(Hp & _ & _ & Ht)|(Hp & [Hready (pl & ct & job & _ & _ & _ & Es)] & _)]].
    - split; [by apply (same_tasks_step t)|]. intros u [Hn Hy]. unfold status_at, row in *. rewrite Ht in Hy. done.
    - split.
      + eapply (touches_step dispatch_edge t (λ st, st = t_failed)); try done; [|by rewrite Hp].
        intros b ->. rewrite Hp. split; auto.
      + intros u [Hn Hy]. exfalso. destruct Ht as [Ht|(fs & Ht & Hfs)].
        * unfold status_at, row in *. rewrite Ht in Hy. done.
        * destruct (decide (u = pt_id t)) as [-> |Hne].
          -- destruct (Hv t) as (r0 & Hr0 & Hk); [by left|].
             assert (Hy' : status_at (set_tasks (map (upd (pt_id t) fs)) (w_store w)) (pt_id t) = Some t_running)
               by (unfold status_at, row in *; simpl; by rewrite <-Ht).
             unfold status_at in Hy'. rewrite row_map, Hr0 in Hy' by apply upd_same. simpl in Hy'.
             unfold upd, is_task in Hy'. rewrite Hk, N.eqb_refl, apply_fields_status, Hk, Hp, Hfs in Hy'. done.
          -- assert (Hy' : status_at (set_tasks (map (upd (pt_id t) fs)) (w_store w)) u = Some t_running)
               by (unfold status_at, row in *; simpl; by rewrite <-Ht).
             rewrite status_upd in Hy' by auto. done.
    - rewrite Es. split.
      + eapply (touches_step dispatch_edge t (λ st, st = t_running)); try done.
        * intros b ->. rewrite Hp. split; auto.
        * rewrite Hp. right. eexists. split; [simpl; done|done].
      + intros u [Hn Hy]. destruct (decide (u = pt_id t)) as [-> |Hne]; [done|].
        rewrite status_upd in Hy by auto. done. }
  destruct Hstep as [(He & Hu1 & Hv1) Hnew].
  destruct r as [slots'|e].
  2: { simplify_eq. split_and!; [done..|]. intros u Hn. exists t. destruct (Hnew u Hn). by split; [left|]. }
  destruct (IH _ _ _ _ H Hu1) as (He2 & Hu2 & Hnew2); [by apply NoDup_cons in Hnd as [_ ?]|done|].
  split_and!; [|done|].
  - eapply evolves_trans; [..|exact He|exact He2]; try done.
    intros a b c [-> Hb] [-> _]. destruct Hb; done.
  - intros u [Hn Hy]. destruct (decide (status_at (w_store w1) u = Some t_running)) as [Hr|Hr].
    + exists t. destruct (Hnew u); [by split|]. by split; [left|].
    + destruct (Hnew2 u) as (t' & ? & ?); [by split|]. exists t'. by split; [right|].
Qed.

Lemma all_complete_ok find deps : all_complete find deps = Ok true →
  ∀ d, d ∈ deps → ∃ t, find d = Some t ∧ pt_status t = t_complete.
Proof.
  induction deps as [|d deps IH]; simpl; intros H u Hu; [by apply elem_of_nil in Hu|].
  destruct (find d) as [t|] eqn:E; [|done]. case_bool_decide as Hc; [|done].
  apply elem_of_cons in Hu as [-> |Hu]; [eauto|auto].
Qed.
End Phases.

(** ** reconcile *)

Definition reconcile_edge (a b : TaskStatus) : Prop :=
  (a = t_running ∧ (observed b ∨ b = t_blocked ∨ b = t_running))
  ∨ (a = t_pending ∧ (b = t_blocked ∨ b = t_running ∨ b = t_failed)).

Definition blocked_edge (a b : TaskStatus) : Prop :=
  (a = t_running ∧ (observed b ∨ b = t_blocked)) ∨ (a = t_pending ∧ b = t_blocked).

Lemma evolves_weaken (E E' : TaskStatus → TaskStatus → Prop) s s' :
  (∀ a b, E a b → E' a b) → evolves E s s' → evolves E' s s'.
Proof.
  intros H He t. specialize (He t). destruct (row s t), (row s' t); try done.
  destruct He as [? [?|?]]; auto.
Qed.

Lemma evolves_keeps E s s' d st : evolves E s s' → (∀ b, ¬ E st b) → status_at s d = Some st →
  status_at s' d = Some st.
Proof.
  intros He Hno. unfold status_at. specialize (He d). destruct (row s d) as [r|]; [|done].
  destruct (row s' d) as [r'|]; [|done]. simpl. intros [= <-].
  destruct He as [_ [-> |HE]]; [done|]. by apply Hno in HE.
Qed.

Lemma evolves_deps E s s' u r r' : evolves E s s' → row s u = Some r → row s' u = Some r' →
  depends_on (tk r') = depends_on (tk r).
Proof. intros He Hr Hr'. specialize (He u). rewrite Hr, Hr' in He. apply He. Qed.

Lemma no_start (E : TaskStatus → TaskStatus → Prop) s s' : evolves E s s' →
  (∀ a, E a t_running → a = t_running) → ∀ u, ¬ newly_running s s' u.
Proof.
  intros He HE u [Hn Hy]. apply Hn. unfold status_at in *. specialize (He u).
  destruct (row s u) as [r|], (row s' u) as [r'|]; try done. simpl in *. simplify_eq.
  destruct He as [_ [-> |He]]; [congruence|]. rewrite Hy in He. apply HE in He. congruence.
Qed.

Section Reconcile.
Context (float_repr : Q → string) (exn_str : exn → string).
Context (per_goal_limit global_limit : Z) (fresh : uuid → uuid) (now : time).
Local Abbreviation rec := (reconcile float_repr exn_str per_goal_limit global_limit fresh now).

Lemma conclude_keeps {T} (f : gstore → T) g tasks :
  (∀ s x, f (set_goals x s) = f s) → (∀ s x, f (set_events x s) = f s) →
  keeps (f ∘ w_store) (conclude now g tasks).
Proof.
  intros H1 H2. unfold conclude. destruct (forallb _ _).
  - apply keeps_bind; [|intros _]; intros w; simpl; auto.
  - destruct (negb _); intros w; simpl; auto.
Qed.

Lemma conclude_jobs g tasks : keeps w_jobs (conclude now g tasks).
Proof.
  unfold conclude. destruct (forallb _ _).
  - apply keeps_bind; [|intros _]; by intros w.
  - destruct (negb _); by intros w.
Qed.

(** The phases a call goes through: it stops after observing (an escalation, or
    an exception), or blocks, dispatches (perhaps raising) and concludes. *)
Inductive reconcile_run (g : uuid) (w w' : world) : Prop :=
  | run_nothing : w' = w → reconcile_run g w w'
  | run_observed goal tasks x : get_goal g (w_store w) = Ok (Some goal) →
      get_tasks g (w_store w) = Ok tasks → observe float_repr goal tasks w = (x, w') →
      reconcile_run g w w'
  | run_blocked goal tasks w1 tasks1 ids :
      get_tasks g (w_store w) = Ok tasks → observe float_repr goal tasks w = (Ok false, w1) →
      get_tasks g (w_store w1) = Ok tasks1 →
      (∀ i, i ∈ ids → ∃ t, t ∈ tasks1 ∧ pt_id t = i ∧ pt_status t = t_pending) →
      w' = foldl block w1 ids → reconcile_run g w w'
  | run_dispatched goal tasks w1 tasks1 ids tasks2 all_jobs x w3 :
      get_tasks g (w_store w) = Ok tasks → observe float_repr goal tasks w = (Ok false, w1) →
      get_tasks g (w_store w1) = Ok tasks1 →
      (∀ i, i ∈ ids → ∃ t, t ∈ tasks1 ∧ pt_id t = i ∧ pt_status t = t_pending) →
      get_tasks g (w_store (foldl block w1 ids)) = Ok tasks2 →
      list_jobs 500 (w_jobs (foldl block w1 ids)) = Ok all_jobs →
      goal_id goal = g →
      dispatch float_repr exn_str fresh now goal (by_id tasks1) tasks2
        (free_slots per_goal_limit global_limit tasks2 all_jobs) (foldl block w1 ids) = (x, w3) →
      gs_tasks (w_store w') = gs_tasks (w_store w3) → w_jobs w' = w_jobs w3 → reconcile_run g w w'.

Lemma find_goal_id g s goal : get_goal g s = Ok (Some goal) → goal_id goal = g.
Proof.
  unfold get_goal. destruct (List.find _ _) as [row|] eqn:E; [|done]. intros H. rok.
  apply List.find_some in E as [_ E%N.eqb_eq]. unfold validate_goal in *. rok. done.
Qed.

Lemma open_bound failed tasks : (length (open_tasks failed tasks) < S (length tasks))%nat.
Proof.
  unfold open_tasks. apply Nat.lt_succ_r.
  induction tasks as [|t l IH]; simpl; [done|]. destruct (_ && _); simpl; lia.
Qed.

Lemma reconcile_runs g w x w' : rec g w = (x, w') → reconcile_run g w w'.
Proof.
  unfold reconcile. intros H. unfold mbind at 1, M_bind at 1, read_store, mread in H.
  destruct (get_goal g (w_store w)) as [[goal|]|e] eqn:Hg;
    [|unfold mret, M_ret in H; simplify_eq; by apply run_nothing|simplify_eq; by apply run_nothing].
  destruct (negb _); [unfold mret, M_ret in H; simplify_eq; by apply run_nothing|].
  unfold mbind at 1, M_bind at 1 in H.
  destruct (get_tasks g (w_store w)) as [tasks|e] eqn:Ht; [|simplify_eq; by apply run_nothing].
  unfold mbind at 1, M_bind at 1 in H.
  destruct (observe float_repr goal tasks w) as [[[]|e] w1] eqn:Ho;
    [unfold mret, M_ret in H; simplify_eq; by eapply run_observed| |simplify_eq; by eapply run_observed].
  unfold mbind at 1, M_bind at 1 in H.
  destruct (get_tasks g (w_store w1)) as [tasks1|e] eqn:Ht1; [|simplify_eq; by eapply run_observed].
  cbv zeta in H.
  destruct (block_loop_ok (S (length tasks1)) (map pt_id (List.filter
    (λ t, status_in t [t_failed; t_blocked; t_cancelled]) tasks1)) tasks1 w1 (open_bound _ _))
    as (ids & Hb & _ & Hids & _).
  rewrite (mbind_step _ _ _ _ _ Hb) in H.
  unfold mbind at 1, M_bind at 1 in H.
  destruct (get_tasks g (w_store (foldl block w1 ids))) as [tasks2|e] eqn:Ht2;
    [|simplify_eq; by eapply run_blocked].
  unfold mbind at 1, M_bind at 1, read_db, mread in H.
  destruct (list_jobs 500 (w_jobs (foldl block w1 ids))) as [js|e] eqn:Hjs;
    [|simplify_eq; by eapply run_blocked].
  unfold mbind at 1, M_bind at 1 in H.
  destruct (dispatch _ _ _ _ _ _ _ _ _) as [r w3] eqn:Hd. pose proof (find_goal_id _ _ _ Hg) as Hid.
  destruct r as [u|e]; [|simplify_eq; by eapply run_dispatched].
  unfold mbind at 1, M_bind at 1 in H.
  destruct (get_tasks g (w_store w3)) as [tasks3|e] eqn:Ht3; [|simplify_eq; by eapply run_dispatched].
  eapply run_dispatched; try done.
  - exact (keeps_result (gs_tasks ∘ w_store) _ _ _ _ (conclude_keeps gs_tasks g tasks3
      (λ _ _, eq_refl) (λ _ _, eq_refl)) H).
  - exact (keeps_result w_jobs _ _ _ _ (conclude_jobs g tasks3) H).
Qed.

Lemma observed_blocked g w goal tasks w1 tasks1 ids : unique_ids (w_store w) →
  get_tasks g (w_store w) = Ok tasks → observe float_repr goal tasks w = (Ok false, w1) →
  get_tasks g (w_store w1) = Ok tasks1 →
  (∀ i, i ∈ ids → ∃ t, t ∈ tasks1 ∧ pt_id t = i ∧ pt_status t = t_pending) →
  unique_ids (w_store w1) ∧ evolves observe_edge (w_store w) (w_store w1)
  ∧ evolves block_edge (w_store w1) (w_store (foldl block w1 ids))
  ∧ unique_ids (w_store (foldl block w1 ids))
  ∧ evolves blocked_edge (w_store w) (w_store (foldl block w1 ids)).
Proof.
  intros Hu Ht Ho Ht1 Hids.
  destruct (observe_evolves _ _ _ _ _ _ Ho Hu) as (He & Hu1 & _);
    [by eapply get_tasks_unique|by eapply get_tasks_view|].
  assert (Hb : evolves block_edge (w_store w1) (w_store (foldl block w1 ids))).
  { apply block_evolves. intros i Hi. destruct (Hids i Hi) as (t & Htin & <- & Hp).
    destruct (get_tasks_rows _ _ _ _ Hu1 Ht1 Htin) as (r & Hr & <- & _). eauto. }
  split_and!; [done..|by apply block_jobs|].
  eapply evolves_trans; [..|exact He|exact Hb].
  - intros a b [-> ?]. left. auto.
  - intros a b [-> ->]. by right.
  - intros a b c [-> _] [_ ->]. left. auto.
Qed.

Lemma reconcile_evolves g w x w' : unique_ids (w_store w) → rec g w = (x, w') →
  evolves reconcile_edge (w_store w) (w_store w')
  ∧ ∀ u, newly_running (w_store w) (w_store w') u →
      ∃ r, row (w_store w') u = Some r
        ∧ ∀ d, d ∈ depends_on (tk r) → status_at (w_store w') d = Some t_complete.
Proof.
  intros Hu H%reconcile_runs.
  destruct H as [-> |goal tasks y Hg Ht Ho|goal tasks w1 tasks1 ids Ht Ho Ht1 Hids ->
    |goal tasks w1 tasks1 ids tasks2 js y w3 Ht Ho Ht1 Hids Ht2 _ _ Hd Hgs _].
  - split; [apply evolves_refl|]. intros u [? ?]. done.
  - destruct (observe_evolves _ _ _ _ _ _ Ho Hu) as (He & _ & _);
      [by eapply get_tasks_unique|by eapply get_tasks_view|].
    split; [eapply evolves_weaken; [|exact He]; intros a b [-> ?]; left; auto|].
    intros u Hn. exfalso. eapply (no_start _ _ _ He); [|exact Hn].
    intros a [-> Ho']. done.
  - destruct (observed_blocked _ _ _ _ _ _ _ Hu Ht Ho Ht1 Hids) as (_ & _ & _ & _ & He).
    split; [eapply evolves_weaken; [|exact He]; intros a b [[-> [?|?]]|[-> ?]]; [left|left|right]; auto|].
    intros u Hn. exfalso. eapply (no_start _ _ _ He); [|exact Hn].
    intros a [[-> _]|[-> ?]]; done.
  - destruct (observed_blocked _ _ _ _ _ _ _ Hu Ht Ho Ht1 Hids) as (Hu1 & He1 & Hb & Hu2 & He).
    destruct (dispatch_ok _ _ _ _ _ _ _ _ _ _ _ Hd Hu2) as (He3 & Hu3 & Hnew);
      [by eapply get_tasks_unique|by eapply get_tasks_view|].
    assert (He3' : evolves dispatch_edge (w_store (foldl block w1 ids)) (w_store w'))
      by (by eapply evolves_tasks).
    split.
    + eapply evolves_trans; [..|exact He|exact He3'].
      * intros a b [[-> [?|?]]|[-> ?]]; [left|left|right]; auto.
      * intros a b [-> [?|?]]; right; auto.
      * intros a b c [[-> Hb']|[-> ->]] [Hp [-> | ->]].
        -- left. auto.
        -- left. split; [done|]. left. unfold observed. auto.
        -- done.
        -- done.
    + intros u [Hn Hy].
      assert (Hn2 : newly_running (w_store (foldl block w1 ids)) (w_store w3) u).
      { split; [|unfold status_at, row in *; by rewrite <-Hgs].
        intros Hr. eapply (no_start _ _ _ He); [|split; [exact Hn|exact Hr]].
        intros a [[-> _]|[-> ?]]; done. }
      destruct (Hnew u Hn2) as (t & Htin & <- & Hall).
      destruct (get_tasks_rows _ _ _ _ Hu2 Ht2 Htin) as (r2 & Hr2 & Hk & _).
      unfold status_at in Hy. destruct (row (w_store w') (pt_id t)) as [r|] eqn:Hr; [|done].
      exists r. split; [done|]. intros d Hd'.
      rewrite (evolves_deps _ _ _ _ _ _ He3' Hr2 Hr), Hk in Hd'.
      destruct (all_complete_ok _ _ Hall d Hd') as (td & Hf & Hc).
      apply by_id_Some in Hf as [Hin <-].
      destruct (get_tasks_rows _ _ _ _ Hu1 Ht1 Hin) as (rd & Hrd & Hkd & _).
      eapply (evolves_keeps dispatch_edge); [exact He3'|by intros b [? _]|].
      eapply (evolves_keeps block_edge); [exact Hb|by intros b [? _]|].
      unfold status_at. rewrite Hrd. simpl. by rewrite Hkd, Hc.
Qed.
End Reconcile.

(** ** Goals *)

Definition goal_status_at (g : uuid) (s : gstore) : option GoalStatus :=
  g_status <$> List.find (is_goal g) (gs_goals s).

Lemma goal_status_set g st s :
  goal_status_at g (set_goals (map (λ x, if is_goal g x then goal_with_status st x else x)) s)
  = (λ _, st) <$> goal_status_at g s.
Proof.
  unfold goal_status_at. simpl. induction (gs_goals s) as [|x l IH]; [done|]. simpl.
  destruct (is_goal g x) eqn:Ex.
  - assert (Ex' : is_goal g (goal_with_status st x) = true) by exact Ex. by rewrite Ex'.
  - by rewrite Ex.
Qed.

Lemma update_task_goals t fs : keeps gs_goals (update_task t fs).
Proof. unfold update_task. apply keeps_bind; [by intros s|]. intros fs'. by intros s. Qed.

(** ** Concurrency *)

Definition runs_for (g : uuid) (r : task_row) : bool :=
  (pt_goal (tk r) =? g)%N && bool_decide (pt_status (tk r) = t_running).

(** How many tasks of a goal are running. *)
Definition running_rows (g : uuid) (s : gstore) : Z :=
  Z.of_nat (length (List.filter (runs_for g) (gs_tasks s))).

Lemma filter_fmap_length {A B} (f : A → B) p l :
  length (List.filter p (f <$> l)) = length (List.filter (λ a, p (f a)) l).
Proof. induction l as [|a l IH]; [done|]. simpl. destruct (p (f a)); simpl; by rewrite <-IH. Qed.

Lemma filter_filter {A} (p q : A → bool) l :
  List.filter q (List.filter p l) = List.filter (λ a, p a && q a) l.
Proof.
  induction l as [|a l IH]; [done|]. simpl. destruct (p a); simpl; [|done].
  destruct (q a); by rewrite <-IH.
Qed.

Lemma count_running_rows g s l : get_tasks g s = Ok l → count_running l = running_rows g s.
Proof.
  intros ->%rmap_tasks. unfold count_running, running_rows, goal_rows. f_equal.
  rewrite filter_fmap_length, (Permutation_length (filter_perm _ _ _ (py_sorted_perm _ _))).
  by rewrite filter_filter.
Qed.

Definition one (b : bool) : Z := if b then 1 else 0.

Definition count_rows (p : task_row → bool) (s : gstore) : Z :=
  Z.of_nat (length (List.filter p (gs_tasks s))).

(** Updating one task changes a count by that task alone. *)
Lemma count_upd p t fs s r : unique_ids s → row s t = Some r →
  count_rows p (set_tasks (map (upd t fs)) s)
  = count_rows p s - one (p r) + one (p (apply_fields fs r)).
Proof.
  unfold unique_ids, count_rows, row. simpl. generalize (gs_tasks s) as l. intros l Hu.
  induction l as [|x l IH]; [done|]. simpl. apply NoDup_cons in Hu as [Hn Hu].
  unfold upd at 1. destruct (is_task t x) eqn:Et.
  - intros [= ->]. apply N.eqb_eq in Et.
    assert (Hl : map (upd t fs) l = l).
    { rewrite <-(map_id l) at 2. apply map_ext_in. intros y Hy%list_elem_of_In. unfold upd, is_task.
      destruct (N.eqb_spec (pt_id (tk y)) t) as [Ey|]; [|done]. destruct Hn.
      rewrite Et, <-Ey. by apply (list_elem_of_fmap_2 (λ r, pt_id (tk r))). }
    rewrite Hl. destruct (p r), (p (apply_fields fs r)); cbn [length one]; lia.
  - intros H. specialize (IH Hu H). destruct (p x); cbn [length]; lia.
Qed.

Lemma running_upd g t fs s r : unique_ids s → row s t = Some r →
  running_rows g (set_tasks (map (upd t fs)) s)
  = running_rows g s - one (runs_for g r) + one (runs_for g (apply_fields fs r)).
Proof. apply (count_upd (runs_for g)). Qed.

Lemma runs_for_status g r r' : same_task r r' → pt_status (tk r) = t_running →
  one (runs_for g r') <= one (runs_for g r).
Proof.
  intros (_ & Hg & _) Hr. unfold runs_for. rewrite Hg, (bool_decide_eq_true_2 _ Hr), andb_true_r.
  destruct (_ =? _)%N, (bool_decide _); simpl; lia.
Qed.

Lemma running_tasks g s s' : gs_tasks s' = gs_tasks s → running_rows g s' = running_rows g s.
Proof. unfold running_rows. by intros ->. Qed.

(** A step on one task adds at most one running task, none if it does not end running
    or was running already. *)
Lemma running_touches g t ok s s' tasks : unique_ids s → current_view s (t :: tasks) →
  touches (pt_id t) ok (pt_status t) s s' →
  running_rows g s' <= running_rows g s + 1
  ∧ ((∀ st, ok st → st ≠ t_running) ∨ pt_status t = t_running → running_rows g s' <= running_rows g s).
Proof.
  intros Hu Hv [Ht|(fs & Ht & Hok)]; [rewrite (running_tasks g _ _ Ht); lia|].
  destruct (Hv t) as (r & Hr & Hk); [by left|].
  rewrite (running_tasks g (set_tasks (map (upd (pt_id t) fs)) s) s' Ht), (running_upd _ _ _ _ _ Hu Hr).
  split; [destruct (runs_for g r), (runs_for g (apply_fields fs r)); simpl; lia|].
  intros [Hno|Hrun].
  - assert (E : runs_for g (apply_fields fs r) = false).
    { unfold runs_for. rewrite apply_fields_status, Hk, (bool_decide_eq_false_2 _ (Hno _ Hok)).
      apply andb_false_r. }
    rewrite E. destruct (runs_for g r); simpl; lia.
  - pose proof (runs_for_status g r (apply_fields fs r) (set_fields_same fs r)) as H.
    rewrite Hk in H. specialize (H Hrun). lia.
Qed.

Lemma block_running g ids w : running_rows g (w_store (foldl block w ids)) <= running_rows g (w_store w).
Proof.
  revert w. induction ids as [|i ids IH]; intros w; simpl; [done|]. etransitivity; [apply IH|].
  unfold running_rows. simpl.
  generalize (gs_tasks (w_store w)) as l. intros l. induction l as [|r l IHl]; [done|]. simpl.
  destruct (is_task i r).
  - assert (E : runs_for g (block_row r) = false) by (unfold runs_for; apply andb_false_r).
    rewrite E. destruct (runs_for g r); cbn [length]; lia.
  - destruct (runs_for g r); cbn [length]; lia.
Qed.

Section Bounds.
Context (float_repr : Q → string) (exn_str : exn → string).
Context (per_goal_limit global_limit : Z) (fresh : uuid → uuid) (now : time).
Local Abbreviation rec := (reconcile float_repr exn_str per_goal_limit global_limit fresh now).

Lemma observe_running g goal tasks : ∀ w x w', observe float_repr goal tasks w = (x, w') →
  unique_ids (w_store w) → NoDup (pt_id <$> tasks) → current_view (w_store w) tasks →
  running_rows g (w_store w') <= running_rows g (w_store w).
Proof.
  induction tasks as [|t tasks IH]; intros w x w' H Hu Hnd Hv; simpl in H.
  { unfold mret, M_ret in H. by simplify_eq. }
  unfold mbind, M_bind in H. destruct (observe_task float_repr goal t w) as [r w1] eqn:E.
  apply observe_task_touches in E as [Hj Ht].
  assert (evolves observe_edge (w_store w) (w_store w1) ∧ unique_ids (w_store w1)
    ∧ current_view (w_store w1) tasks) as (_ & Hu1 & Hv1).
  { destruct Ht as [Ht|[Hs Ht]]; [by apply (same_tasks_step t)|].
    eapply touches_step; [done..| |by rewrite Hs]. intros b Hb. by split. }
  assert (H1 : running_rows g (w_store w1) <= running_rows g (w_store w)).
  { destruct Ht as [Ht|[Hs Ht]]; [by rewrite (running_tasks g _ _ Ht)|].
    rewrite <-Hs in Ht. eapply running_touches; [exact Hu|exact Hv|exact Ht|by right]. }
  destruct r as [[]|e]; [unfold mret, M_ret in H; by simplify_eq| |by simplify_eq].
  etransitivity; [eapply IH; [exact H|done|by apply NoDup_cons in Hnd as [_ ?]|done]|done].
Qed.

Lemma dispatch_running g goal find tasks : ∀ slots w x w',
  dispatch float_repr exn_str fresh now goal find tasks slots w = (x, w') →
  unique_ids (w_store w) → NoDup (pt_id <$> tasks) → current_view (w_store w) tasks →
  running_rows g (w_store w') <= running_rows g (w_store w) + Z.max 0 slots.
Proof.
  induction tasks as [|t tasks IH]; intros slots w x w' H Hu Hnd Hv; simpl in H.
  { unfold mret, M_ret in H. simplify_eq. lia. }
  destruct (Z.leb_spec slots 0); [unfold mret, M_ret in H; simplify_eq; lia|].
  unfold mbind, M_bind in H. destruct (dispatch_task _ _ _ _ goal find t slots w) as [r w1] eqn:E.
  assert (unique_ids (w_store w1) ∧ current_view (w_store w1) tasks
    ∧ running_rows g (w_store w1) <= running_rows g (w_store w) + 1
    ∧ (r = Ok slots → running_rows g (w_store w1) <= running_rows g (w_store w))
    ∧ (∀ n, r = Ok n → n = slots ∨ n = slots - 1)) as (Hu1 & Hv1 & Hle & Heq & Hn).
  { apply dispatch_task_cases in E as [[Ht Hx]|[(Hp & _ & -> & Ht)|
      (Hp & [_ (pl & ct & job & _ & _ & _ & Es)] & ->)]].
    - destruct (same_tasks_step t tasks _ _ Ht Hu Hv dispatch_edge) as (_ & ? & ?).
      rewrite (running_tasks g _ _ Ht). split_and!; [done..|lia|lia|].
      intros n ->. destruct Hx as [[= ->]|[e ?]]; [auto|done].
    - rewrite <-Hp in Ht.
      destruct (touches_step dispatch_edge t (λ st, st = t_failed) tasks (w_store w) (w_store w1))
        as (_ & ? & ?); [done..|intros b ->; rewrite Hp; split; auto|done|].
      destruct (running_touches g t _ _ _ _ Hu Hv Ht) as [? Hno].
      split_and!; [done..|intros _; apply Hno; left; by intros st ->|intros n [= ->]; auto].
    - assert (Ht : touches (pt_id t) (λ st, st = t_running) (pt_status t) (w_store w) (w_store w1))
        by (rewrite Es; right; eexists; split; [done|done]).
      destruct (touches_step dispatch_edge t (λ st, st = t_running) tasks (w_store w) (w_store w1))
        as (_ & ? & ?); [done..|intros b ->; rewrite Hp; split; auto|done|].
      destruct (running_touches g t _ _ _ _ Hu Hv Ht) as [? _].
      split_and!; [done..|intros [= ?]; lia|intros n [= ->]; auto]. }
  destruct r as [n|e]; [|simplify_eq; lia].
  pose proof (IH _ _ _ _ H Hu1 (proj2 (proj1 (NoDup_cons _ _) Hnd)) Hv1).
  destruct (Hn n eq_refl) as [-> | ->]; [specialize (Heq eq_refl); lia|lia].
Qed.

Lemma dispatch_full goal find tasks slots w : slots <= 0 →
  dispatch float_repr exn_str fresh now goal find tasks slots w = (Ok tt, w).
Proof. intros H. destruct tasks; [done|]. simpl. by destruct (Z.leb_spec slots 0); [|lia]. Qed.
End Bounds.
