(* ===== verification/CoordinatorProps.v ===== *)
(** The guarantees of driving a goal, from the lemmas on the phases of
    [reconcile]: the state machine of a task, exact blocking, bounded concurrency,
    the status a goal ends a pass with, and what cancelling leaves behind. *)

From S2P Require Import Prelude.
From S2P Require Import PyStr.
From S2P Require Import PyTime.
From S2P Require Import Json.
From S2P Require Import Contracts.
From S2P Require Import JobRepository.
From S2P Require Import JobInvariant.
From S2P Require Import JobEffects.
From S2P Require Import JobTheorems.
From S2P Require Import Substitution.
From S2P Require Import GoalStore.
From S2P Require Import Coordinator.
From S2P Require Import CoordinatorTheorems.
Open Scope Z_scope.

(** ** A goal of two tasks, the second depending on the first *)

Module Demo.
Definition repr (q : Q) : string := "0.5".
Definition err (e : exn) : string := "error".
Definition new_id (t : uuid) : uuid := (t + 1000)%N.
Definition ready : world := mk_world demo_saved empty_db.
Definition after {A} (m : M world A) (w : world) : world := (m w).2.
Definition step_jobs {A} (m : M db A) : M world A := on_db m.

(** Started: the first task is submitted. *)
Definition started : world := after (start repr err 4 32 new_id 10 7 "user") ready.
(** A worker claims and completes its job. *)
Definition worked : world :=
  after (step_jobs (complete 1021 500 "job-output" (Some [("status", JStr "complete");
    ("confidence", JFloat (9#10)); ("result", JObj [])]) 30))
  (after (step_jobs (claim 300 500 "w1" 30 20)) started).
Definition reconciled : world := after (reconcile repr err 4 32 new_id 40 7) worked.
End Demo.
Import Demo.

Example demo_started : status_at (w_store started) 21%N = Some t_running.
Proof. vm_compute. reflexivity. Qed.
Example demo_reconciled : status_at (w_store reconciled) 20%N = Some t_running.
Proof. vm_compute. reflexivity. Qed.

Section Reconciling.
Context (float_repr : Q → string) (exn_str : exn → string).
Context (per_goal_limit global_limit : Z) (fresh : uuid → uuid) (now : time).
Local Abbreviation rec := (reconcile float_repr exn_str per_goal_limit global_limit fresh now).

(** C17: a task moves only along the edges of its state machine, keeping its
    identity, and is started only when everything it depends on is complete. In
    one pass a running task may complete, fail, escalate or be put back (and then
    be blocked or started again), a pending one may be blocked, started or fail,
    and no other task changes; this holds whether the pass returns or raises. *)
Theorem tasks_follow_the_state_machine g w x w' u r :
  unique_ids (w_store w) → rec g w = (x, w') → row (w_store w) u = Some r →
  ∃ r', row (w_store w') u = Some r' ∧ same_task r r'
  ∧ (r' = r ∨ reconcile_edge (pt_status (tk r)) (pt_status (tk r')))
  ∧ (pt_status (tk r) ≠ t_running → pt_status (tk r') = t_running →
     ∀ d, d ∈ depends_on (tk r') → status_at (w_store w') d = Some t_complete).
Proof.
  intros Hu H Hr. destruct (reconcile_evolves _ _ _ _ _ _ _ _ _ _ Hu H) as [He Hn].
  pose proof (He u) as Heu. rewrite Hr in Heu. destruct (row (w_store w') u) as [r'|] eqn:Hr'; [|done].
  exists r'. destruct Heu as [? ?]. split_and!; [done..|]. intros Hnr Hrun.
  destruct (Hn u) as (r2 & Hr2 & Hd); [|by simplify_eq].
  unfold newly_running, status_at. rewrite Hr, Hr'. simpl. rewrite Hrun. split; [congruence|done].
Qed.

(** C18: concurrency is bounded. Reconciling a goal never leaves more of its tasks
    running than the per-goal limit, unless more were running already; and when
    the running jobs the store lists reach the global limit, it starts none. *)
Theorem concurrency_is_bounded g w x w' : unique_ids (w_store w) → rec g w = (x, w') →
  running_rows g (w_store w') <= Z.max per_goal_limit (running_rows g (w_store w))
  ∧ (∀ js, list_jobs 500 (w_jobs w) = Ok js →
       global_limit <= Z.of_nat (length (List.filter (λ j, bool_decide (status j = running)) js)) →
       w_jobs w' = w_jobs w ∧ ∀ u, ¬ newly_running (w_store w) (w_store w') u).
Proof.
  intros Hu H%reconcile_runs.
  destruct H as [-> |goal tasks y Hg Ht Ho|goal tasks w1 tasks1 ids Ht Ho Ht1 Hids ->
    |goal tasks w1 tasks1 ids tasks2 js y w3 Ht Ho Ht1 Hids Ht2 Hjs Hid Hd Hgs Hj].
  - split; [lia|]. intros js _ _. split; [done|]. by intros u [? ?].
  - pose proof (get_tasks_unique _ _ _ Hu Ht) as Hnd. pose proof (get_tasks_view _ _ _ Hu Ht) as Hv.
    pose proof (observe_running _ g goal tasks w _ _ Ho Hu Hnd Hv). split; [lia|]. intros js _ _.
    destruct (observe_evolves _ goal tasks w _ _ Ho Hu Hnd Hv) as (He & _ & Hjobs). split; [done|].
    apply (no_start _ _ _ He). by intros a [-> _].
  - pose proof (get_tasks_unique _ _ _ Hu Ht) as Hnd. pose proof (get_tasks_view _ _ _ Hu Ht) as Hv.
    pose proof (observe_running _ g goal tasks w _ _ Ho Hu Hnd Hv). pose proof (block_running g ids w1).
    split; [lia|]. intros js _ _.
    destruct (observed_blocked _ g w goal tasks w1 tasks1 ids Hu Ht Ho Ht1 Hids) as (_ & _ & _ & _ & He).
    destruct (observe_evolves _ goal tasks w _ _ Ho Hu Hnd Hv) as (_ & _ & Hjobs).
    split; [by rewrite (proj1 (block_jobs ids w1))|].
    apply (no_start _ _ _ He). by intros a [[-> _]|[-> ?]].
  - pose proof (get_tasks_unique _ _ _ Hu Ht) as Hnd. pose proof (get_tasks_view _ _ _ Hu Ht) as Hv.
    pose proof (observe_running _ g goal tasks w _ _ Ho Hu Hnd Hv). pose proof (block_running g ids w1).
    destruct (observed_blocked _ g w goal tasks w1 tasks1 ids Hu Ht Ho Ht1 Hids) as (Hu1 & _ & _ & Hu2 & He).
    destruct (observe_evolves _ goal tasks w _ _ Ho Hu Hnd Hv) as (_ & _ & Hjobs).
    pose proof (dispatch_running _ _ _ _ g goal _ _ _ _ _ _ Hd Hu2 (get_tasks_unique _ _ _ Hu2 Ht2)
      (get_tasks_view _ _ _ Hu2 Ht2)) as Hdr.
    rewrite <-(running_tasks g _ _ Hgs) in Hdr.
    unfold free_slots in *. rewrite (count_running_rows _ _ _ Ht2) in *. split; [lia|].
    rewrite (proj1 (block_jobs ids w1)), Hjobs in Hjs. intros js' Hjs' Hfull. simplify_eq.
    rewrite Hjs in Hjs'. simplify_eq. rewrite dispatch_full in Hd by lia. simplify_eq.
    rewrite Hj, (proj1 (block_jobs ids w1)). split; [done|].
    intros u. unfold newly_running, status_at, row. rewrite Hgs.
    apply (no_start _ _ _ He). by intros a [[-> _]|[-> ?]].
Qed.
End Reconciling.

Lemma tasks_follow_the_state_machine_witness :
  status_at (w_store worked) 20%N = Some t_pending ∧ status_at (w_store reconciled) 21%N = Some t_complete.
Proof.
  split; [vm_compute; reflexivity|].
  destruct (reconcile repr err 4 32 new_id 40 7 worked) as [x w'] eqn:E.
  assert (Hw : reconciled = w') by (unfold reconciled, after; by rewrite E).
  destruct (row (w_store worked) 20%N) as [r|] eqn:Hr; [|by vm_compute in Hr].
  assert (Hu : unique_ids (w_store worked)) by (unfold unique_ids; solve_nodup).
  destruct (tasks_follow_the_state_machine repr err 4 32 new_id 40 7 worked x w' 20 r Hu E Hr)
    as (r' & Hr' & (_ & _ & Hd & _) & _ & Hc).
  rewrite Hw. apply Hc.
  - intros Hrun. assert (Hs : status_at (w_store worked) 20%N = Some t_running)
      by (unfold status_at; rewrite Hr; simpl; by rewrite Hrun).
    vm_compute in Hs. discriminate Hs.
  - apply (some_field (pt_status ∘ tk) _ _ _ Hr'). rewrite <-Hw. vm_compute. reflexivity.
  - rewrite Hd. assert (Hdeps : depends_on (tk r) = [21%N])
      by (apply (some_field (depends_on ∘ tk) _ _ _ Hr); vm_compute; reflexivity).
    rewrite Hdeps. by left.
Defined.

Lemma concurrency_is_bounded_witness : running_rows 7 (w_store reconciled) <= 4.
Proof.
  destruct (reconcile repr err 4 32 new_id 40 7 worked) as [x w'] eqn:E.
  assert (Hw : reconciled = w') by (unfold reconciled, after; by rewrite E).
  assert (Hu : unique_ids (w_store worked)) by (unfold unique_ids; solve_nodup).
  destruct (concurrency_is_bounded repr err 4 32 new_id 40 7 worked x w' Hu E) as [H _].
  rewrite Hw. etransitivity; [exact H|]. vm_compute. discriminate.
Defined.

(** ** What a failure blocks *)

(** The tasks a set of failures rules out: the failed ones, and the pending ones
    that depend, directly or not, on a task ruled out. *)
Inductive downstream (failed : list uuid) (tasks : list PlannedTask) : uuid → Prop :=
  | ds_failed u : u ∈ failed → downstream failed tasks u
  | ds_dep t d : t ∈ tasks → pt_status t = t_pending → d ∈ depends_on t →
      downstream failed tasks d → downstream failed tasks (pt_id t).

(** C19: blocking terminates and is exact. Within one pass more than there are
    tasks the loop stops having blocked precisely the pending tasks downstream of
    a failure, nothing else in the store having changed. *)
Theorem blocking_is_reachability failed tasks w :
  ∃ ids w', block_loop (S (length tasks)) failed tasks w = (Ok (rev ids ++ failed), w')
  ∧ (∀ u, u ∈ ids ∨ u ∈ failed ↔ downstream failed tasks u)
  ∧ w_jobs w' = w_jobs w
  ∧ ∀ u, row (w_store w') u
      = (λ r, if bool_decide (u ∈ ids) then block_row r else r) <$> row (w_store w) u.
Proof.
  destruct (block_loop_ok (S (length tasks)) failed tasks w (open_bound _ _))
    as (ids & Hl & Hclosed & _ & Hleast).
  exists ids, (foldl block w ids). split_and!; [done| |apply block_jobs|apply block_rows].
  intros u. split.
  - intros [Hu|Hu]; [|by apply ds_failed]. apply (Hleast (downstream failed tasks)); [apply ds_failed| |done].
    intros t Ht Hp (d & Hd & Hds). by eapply ds_dep.
  - induction 1 as [u Hu|t d Ht Hp Hd _ IH]; [by right|].
    destruct (decide (pt_id t ∈ failed)) as [|Hnf]; [by right|left].
    assert (Hin : ∀ v, v ∈ rev ids ++ failed ↔ v ∈ ids ∨ v ∈ failed).
    { intros v. rewrite elem_of_app, !list_elem_of_In, <-in_rev. done. }
    specialize (Hclosed t Ht). unfold dependents_of in Hclosed.
    rewrite (bool_decide_eq_true_2 (pt_status t = t_pending)) in Hclosed by done.
    case_bool_decide as Hb; simpl in Hclosed; [apply Hin in Hb; naive_solver|].
    exfalso. rewrite existsb_false_iff in Hclosed. specialize (Hclosed d Hd).
    case_bool_decide as Hb'; [done|]. by apply Hb', Hin.
Qed.

(** ** The status a goal ends a pass with *)

Lemma on_store_keeps {A T} (f : gstore → T) (m : M gstore A) : keeps f m → keeps (f ∘ w_store) (on_store m).
Proof.
  intros H w. unfold on_store. specialize (H (w_store w)). by destruct (m (w_store w)).
Qed.

Lemma update_keeps_goals t fs : keeps (gs_goals ∘ w_store) (on_store (update_task t fs)).
Proof. apply on_store_keeps, update_task_goals. Qed.

Lemma row_exists t ok st0 s s' u : touches t ok st0 s s' → is_Some (row s u) → is_Some (row s' u).
Proof.
  intros [Ht|(fs & Ht & _)] [r Hr]; unfold row in *; rewrite Ht; [eauto|].
  rewrite find_map by apply upd_same. rewrite Hr. by eexists.
Qed.

Section Status.
Context (float_repr : Q → string) (exn_str : exn → string).
Context (per_goal_limit global_limit : Z) (fresh : uuid → uuid) (now : time).
Local Abbreviation rec := (reconcile float_repr exn_str per_goal_limit global_limit fresh now).

(** What observing one task does to the goals: nothing, unless it escalates. *)
Lemma observe_task_goals goal t w b w' : observe_task float_repr goal t w = (Ok b, w') →
  if b then status_at (w_store w') (pt_id t) = (λ _, t_escalated) <$> status_at (w_store w) (pt_id t)
            ∧ goal_status_at (goal_id goal) (w_store w')
              = (λ _, g_paused) <$> goal_status_at (goal_id goal) (w_store w)
  else gs_goals (w_store w') = gs_goals (w_store w).
Proof.
  assert (Hupd : ∀ fs b', (on_store (update_task (pt_id t) fs);; mret b' : M world bool) w = (Ok b, w') →
    b = b' ∧ gs_goals (w_store w') = gs_goals (w_store w)).
  { intros fs b' (? & w1 & H1 & H2)%mbind_ok. unfold mret, M_ret in H2. simplify_eq. split; [done|].
    exact (keeps_result _ _ _ _ _ (update_keeps_goals _ _) H1). }
  unfold observe_task. destruct (negb _); [unfold mret, M_ret; intros; by simplify_eq|].
  intros (job & w0 & Hj & H)%mbind_ok.
  pose proof (keeps_result id _ _ _ _ (task_job_keeps _ _) Hj) as E. unfold id in E. subst w0.
  destruct job as [job|]; [|by apply Hupd in H as [-> ?]].
  destruct (status job); try (unfold mret, M_ret in H; by simplify_eq); try by apply Hupd in H as [-> ?].
  apply mbind_ok in H as (res & w0 & Hr & H). unfold read_db, mread in Hr. injection Hr as <- <-.
  apply mbind_ok in H as (ok & w0 & Hr & H). unfold mlift in Hr. injection Hr as _ <-.
  destruct ok; [by apply Hupd in H as [-> ?]|].
  destruct (is_str _ "failed" || is_str _ "no_agent_found").
  { apply mbind_ok in H as (err & w0 & Hr' & H). unfold mlift in Hr'. injection Hr' as _ <-. by apply Hupd in H as [-> ?]. }
  apply mbind_ok in H as ([] & w1 & Hu & H). apply mbind_ok in H as ([] & w2 & Hs & H).
  unfold mret, M_ret in H. simplify_eq.
  apply on_store_update in Hu as (s' & Hu & ->).
  apply update_task_cases in Hu as [[_ [e ?]]|(fs & Hb & _ & ->)]; [done|].
  unfold on_store, set_goal_status, mmodify in Hs. injection Hs as <-. split.
  - unfold status_at, row. simpl. rewrite find_map by apply upd_same.
    destruct (List.find _ (gs_tasks (w_store w))) as [r|] eqn:Er; [|done]. simpl. f_equal.
    apply List.find_some in Er as [_ Er]. unfold upd. rewrite Er, apply_fields_status.
    by rewrite (bind_fields_status _ _ _ Hb).
  - exact (goal_status_set _ _ (set_tasks (map (upd (pt_id t) fs)) (w_store w))).
Qed.

Lemma observe_goals goal tasks : ∀ w b w', observe float_repr goal tasks w = (Ok b, w') →
  (∀ t, t ∈ tasks → is_Some (row (w_store w) (pt_id t))) →
  if b then (∃ t, t ∈ tasks ∧ status_at (w_store w') (pt_id t) = Some t_escalated)
            ∧ goal_status_at (goal_id goal) (w_store w')
              = (λ _, g_paused) <$> goal_status_at (goal_id goal) (w_store w)
  else gs_goals (w_store w') = gs_goals (w_store w).
Proof.
  induction tasks as [|t tasks IH]; intros w b w' H Hex; simpl in H.
  { unfold mret, M_ret in H. by simplify_eq. }
  apply mbind_ok in H as (stop & w1 & Ht & H). pose proof (observe_task_goals _ _ _ _ _ Ht) as Hg.
  destruct stop.
  - unfold mret, M_ret in H. simplify_eq. destruct Hg as [Hs Hg]. split; [|done]. exists t.
    split; [by left|]. rewrite Hs. unfold status_at.
    destruct (Hex t) as [r ->]; [by left|done].
  - apply IH in H.
    + destruct b; [|congruence]. destruct H as [(x & Hx & Hs) Hgs]. split; [exists x; split; [by right|done]|].
      rewrite Hgs. unfold goal_status_at. by rewrite Hg.
    + intros x Hx. destruct (Hex x) as [r Hr]; [by right|]. apply observe_task_touches in Ht as [_ Ht].
      destruct Ht as [Ht|[_ Ht]]; [unfold row in *; rewrite Ht; eauto|].
      eapply row_exists; [exact Ht|eauto].
Qed.

Lemma dispatch_goals goal find tasks slots :
  keeps (gs_goals ∘ w_store) (dispatch float_repr exn_str fresh now goal find tasks slots).
Proof.
  revert slots. induction tasks as [|t tasks IH]; intros slots; simpl; [apply keeps_pure|].
  destruct (slots <=? 0); [apply keeps_pure|]. apply keeps_bind; [|done].
  unfold dispatch_task. destruct (negb _); [apply keeps_pure|].
  apply keeps_bind; [apply keeps_pure|]. intros ready. destruct (negb ready); [apply keeps_pure|].
  destruct (resolve_payload _ _ _).
  - apply keeps_bind; [apply keeps_pure|]. intros c. apply keeps_bind.
    + intros w. unfold submit, on_db. by destruct (enqueue _ _ _ _ _ _ _ _).
    + intros job. apply keeps_bind; [apply update_keeps_goals|]. intros _. apply keeps_pure.
  - apply keeps_bind; [apply update_keeps_goals|]. intros _. apply keeps_pure.
Qed.

Lemma block_goals ids : ∀ w, gs_goals (w_store (foldl block w ids)) = gs_goals (w_store w).
Proof. induction ids as [|i ids IH]; intros w; [done|]. simpl. by rewrite IH. Qed.

(** A pass that returns either stopped at an escalation or concluded. *)
Lemma reconcile_ok g w w' goal : unique_ids (w_store w) →
  get_goal g (w_store w) = Ok (Some goal) → g_status goal = g_running → rec g w = (Ok tt, w') →
  ((∃ u r, row (w_store w) u = Some r ∧ pt_goal (tk r) = g
      ∧ status_at (w_store w') u = Some t_escalated)
   ∧ goal_status_at g (w_store w') = (λ _, g_paused) <$> goal_status_at g (w_store w))
  ∨ ∃ w3 tasks, get_tasks g (w_store w3) = Ok tasks
      ∧ gs_goals (w_store w3) = gs_goals (w_store w) ∧ conclude now g tasks w3 = (Ok tt, w').
Proof.
  intros Hu Hg Hr H. unfold reconcile in H. apply mbind_ok in H as (o & w0 & Ho & H).
  unfold read_store, mread in Ho. rewrite Hg in Ho. injection Ho as <- <-.
  rewrite bool_decide_eq_true_2 in H by done. cbn [negb] in H.
  apply mbind_ok in H as (tasks & w1 & Ht & H). unfold read_store, mread in Ht. injection Ht as Ht ->.
  apply mbind_ok in H as (stop & w2 & Hobs & H). pose proof (find_goal_id _ _ _ Hg) as Hid.
  apply observe_goals in Hobs as Hgoals.
  2: { intros t Hin. destruct (get_tasks_rows _ _ _ _ Hu Ht Hin) as (r & -> & _). by eexists. }
  destruct stop.
  { unfold mret, M_ret in H. simplify_eq. left. destruct Hgoals as [(t & Hin & Hs) Hgs]. split; [|done].
    destruct (get_tasks_rows _ _ _ _ Hu Ht Hin) as (r & Hrow & <- & ?). eauto. }
  apply mbind_ok in H as (tasks1 & w3 & Ht1 & H). unfold read_store, mread in Ht1. injection Ht1 as Ht1 ->.
  cbv zeta in H. apply mbind_ok in H as (bl & w4 & Hb & H).
  destruct (block_loop_ok (S (length tasks1)) (map pt_id (List.filter
      (λ t, status_in t [t_failed; t_blocked; t_cancelled]) tasks1)) tasks1 w3 (open_bound _ _))
      as (ids & Hb' & _). rewrite Hb' in Hb. injection Hb as _ Hb. subst w4.
  apply mbind_ok in H as (tasks2 & w5 & Ht2 & H). unfold read_store, mread in Ht2. injection Ht2 as Ht2 <-.
  apply mbind_ok in H as (js & w6 & Hjs & H). unfold read_db, mread in Hjs. injection Hjs as Hjs <-.
  apply mbind_ok in H as ([] & w7 & Hd & H).
  apply mbind_ok in H as (tasks3 & w8 & Ht3 & H). unfold read_store, mread in Ht3. injection Ht3 as Ht3 ->.
  right. exists w8, tasks3. split_and!; [done| |done].
  rewrite <-Hgoals, <-(block_goals ids w3). exact (keeps_result _ _ _ _ _ (dispatch_goals _ _ _ _) Hd).
Qed.

Lemma conclude_status g tasks w w' : conclude now g tasks w = (Ok tt, w') →
  gs_tasks (w_store w') = gs_tasks (w_store w)
  ∧ goal_status_at g (w_store w') =
    if forallb (λ t, bool_decide (pt_status t = t_complete)) tasks
    then (λ _, g_complete) <$> goal_status_at g (w_store w)
    else if existsb (λ t, status_in t [t_pending; t_running]) tasks then goal_status_at g (w_store w)
    else (λ _, g_failed) <$> goal_status_at g (w_store w).
Proof.
  unfold conclude. destruct (forallb _ _).
  - intros (? & w1 & H1 & H2)%mbind_ok. unfold on_store, set_goal_status, record_event, mmodify in *.
    simplify_eq. simpl. split; [done|]. apply goal_status_set.
  - destruct (existsb _ _); simpl; [unfold mret, M_ret; intros; by simplify_eq|].
    unfold on_store, set_goal_status, mmodify. intros. simplify_eq. split; [done|]. apply goal_status_set.
Qed.

Lemma running_goal g s goal : get_goal g s = Ok (Some goal) → g_status goal = g_running →
  goal_status_at g s = Some g_running.
Proof.
  unfold get_goal, goal_status_at. destruct (List.find _ _) as [r|]; [|done]. intros H <-. rok.
  unfold validate_goal in *. rok. done.
Qed.

(** A goal's status follows from its tasks. When a pass over a running goal
    returns, the goal is complete only if every task is, failed only if no task
    can run any more and some task is not complete, paused only if a task has
    escalated, and running only while a task is pending or running. *)
Theorem goal_status_follows_its_tasks g w w' goal : unique_ids (w_store w) →
  get_goal g (w_store w) = Ok (Some goal) → g_status goal = g_running → rec g w = (Ok tt, w') →
  let rows := goal_rows g (w_store w') in
  match goal_status_at g (w_store w') with
  | Some g_complete => ∀ r, r ∈ rows → pt_status (tk r) = t_complete
  | Some g_failed => (∃ r, r ∈ rows ∧ pt_status (tk r) ≠ t_complete)
      ∧ ∀ r, r ∈ rows → pt_status (tk r) ≠ t_pending ∧ pt_status (tk r) ≠ t_running
  | Some g_paused => ∃ r, r ∈ rows ∧ pt_status (tk r) = t_escalated
  | Some g_running => ∃ r, r ∈ rows ∧ (pt_status (tk r) = t_pending ∨ pt_status (tk r) = t_running)
  | _ => False
  end.
Proof.
  intros Hu Hg Hr H rows. pose proof (running_goal _ _ _ Hg Hr) as Hrun.
  destruct (reconcile_evolves _ _ _ _ _ _ _ _ _ _ Hu H) as [He _].
  destruct (reconcile_ok _ _ _ _ Hu Hg Hr H) as [[(u & r & Hrow & Hgoal & Hs) ->]|
    (w3 & tasks & Ht & Hgs & Hc)].
  - rewrite Hrun. simpl. specialize (He u). rewrite Hrow in He. unfold status_at in Hs.
    destruct (row (w_store w') u) as [r'|] eqn:Hr'; [|done]. simpl in Hs. simplify_eq. exists r'. split; [|done].
    apply elem_of_goal_rows. split; [by apply List.find_some in Hr' as [?%list_elem_of_In _]|].
    by destruct He as [(_ & -> & _) _].
  - apply conclude_status in Hc as [Htk ->].
    assert (Hst : goal_status_at g (w_store w3) = Some g_running)
      by (unfold goal_status_at in *; by rewrite Hgs).
    rewrite Hst. apply rmap_tasks in Ht.
    assert (Hrows : rows = goal_rows g (w_store w3)) by (unfold rows, goal_rows; by rewrite Htk).
    rewrite <-Hrows in Ht. subst tasks.
    assert (Hin : ∀ t, t ∈ tk <$> rows ↔ ∃ r, r ∈ rows ∧ tk r = t)
      by (intros t; rewrite list_elem_of_fmap; naive_solver).
    destruct (forallb _ _) eqn:Hall; simpl.
    { intros r Hin'. rewrite forallb_forall in Hall. specialize (Hall (tk r)).
      rewrite <-list_elem_of_In, bool_decide_eq_true in Hall. apply Hall, Hin. eauto. }
    destruct (existsb _ _) eqn:Hex; simpl.
    { apply existsb_exists in Hex as (t & (r & Hrin & <-)%list_elem_of_In%Hin & Ht).
      exists r. split; [done|]. unfold status_in in Ht.
      by rewrite bool_decide_eq_true, !elem_of_cons, elem_of_nil in Ht; naive_solver. }
    split.
    + apply forallb_false_ex in Hall as (t & (r & Hrin & <-)%Hin & Hn).
      exists r. by rewrite bool_decide_eq_false in Hn.
    + intros r Hrin. rewrite existsb_false_iff in Hex. specialize (Hex (tk r) (proj2 (Hin _) (ex_intro _ r (conj Hrin eq_refl)))).
      unfold status_in in Hex. rewrite bool_decide_eq_false, !elem_of_cons in Hex. naive_solver.
Qed.
End Status.

(** ** Cancelling a goal *)

(** The job is gone or has ended. *)
Definition settled (d : db) (j : uuid) : Prop :=
  ∀ r, jobs d !! j = Some r → terminal (jr_status r) = true.

Lemma cancel_settled j now d x d' : Inv d → JobRepository.cancel j now d = (x, d') →
  Inv d' ∧ (∀ i, settled d i → settled d' i) ∧ ((∃ v, x = Ok v) → settled d' j).
Proof.
  intros HI H. apply cancel_cases in H as [(-> & e & -> & _)|[(-> & r & k & Hr & Hc & ->)|
    (r & k & Hr & _ & -> & HI' & _ & ->)]]; [..|done].
  - split_and!; [done..|by intros [v ?]].
  - split_and!; [done..|]. intros _ r' Hr'. simplify_eq. by rewrite Hc.
  - assert (Hj : settled (cancel_effect j r now d) j).
    { intros r' Hr'. unfold cancel_effect, settle in Hr'. simpl in Hr'. rewrite lookup_insert_eq in Hr'.
      by simplify_eq. }
    split_and!; [done| |done]. intros i Hi. destruct (decide (i = j)) as [-> |Hne]; [done|].
    intros r' Hr'. apply (Hi r'). unfold cancel_effect, settle in Hr'. simpl in Hr'.
    by rewrite lookup_insert_ne in Hr' by done.
Qed.

Definition live (t : PlannedTask) : bool := status_in t [t_pending; t_running].

Definition stop_row (t : PlannedTask) (r : task_row) : task_row :=
  if live t then upd (pt_id t) [F_status t_cancelled] r else r.

(** The job of a running task, if it has one. *)
Definition job_settled (s : gstore) (d : db) (t : PlannedTask) : Prop :=
  pt_status t = t_running → ∀ r j, row s (pt_id t) = Some r → tk_job r = Some j → settled d j.

Lemma cancel_job_ok now j d : Inv d →
  match (match get_job j d with
         | Ok (Some job) => if bool_decide (status job ∈ [queued; running])
                            then JobRepository.cancel (job_id job) now d else (Ok job, d)
         | _ => (Raise KeyError, d) end) with
  | (Ok _, d') => Inv d' ∧ (∀ i, settled d i → settled d' i) ∧ settled d' j
  | _ => True
  end.
Proof.
  intros HI. rewrite (get_job_ok _ _ HI). destruct (jobs d !! j) as [r|] eqn:Hr; [|done].
  destruct (key_of d j) as [k|]; [|done]. pose proof (jo_id _ _ _ (inv_job _ HI _ _ Hr)) as Hid.
  case_bool_decide as Hs.
  - change (job_id (job_of k r)) with (jr_id r). rewrite Hid.
    destruct (JobRepository.cancel j now d) as [[v|e] d'] eqn:E; [|done].
    apply cancel_settled in E as (? & ? & Hj); [|done]. eauto.
  - split_and!; [done..|]. intros r' Hr'. rewrite Hr in Hr'. injection Hr' as <-.
    change (status (job_of k r)) with (jr_status r) in Hs. destruct (jr_status r); try done; exfalso; apply Hs; set_solver.
Qed.

(** *** One task *)

Lemma cancel_task_ok now t w out w' : Inv (w_jobs w) → cancel_task now t w = (Ok out, w') →
  gs_tasks (w_store w') = map (stop_row t) (gs_tasks (w_store w))
  ∧ gs_goals (w_store w') = gs_goals (w_store w)
  ∧ Inv (w_jobs w') ∧ (∀ i, settled (w_jobs w) i → settled (w_jobs w') i)
  ∧ job_settled (w_store w) (w_jobs w') t.
Proof.
  intros HI. unfold cancel_task, stop_row, live, status_in.
  assert (Hstop : ∀ w1 (l : list string), (on_store (update_task (pt_id t) [F_status t_cancelled]);; mret l) w1
    = (Ok out, w') → gs_tasks (w_store w') = map (upd (pt_id t) [F_status t_cancelled]) (gs_tasks (w_store w1))
      ∧ gs_goals (w_store w') = gs_goals (w_store w1) ∧ w_jobs w' = w_jobs w1).
  { intros w1 l (? & w2 & H1 & H2)%mbind_ok. unfold mret, M_ret in H2. simplify_eq.
    unfold on_store, update_task, mbind, M_bind, mlift, mmodify in H1. simpl in H1. by simplify_eq. }
  destruct (pt_status t) eqn:Hst; intros H.
  2: { apply mbind_ok in H as ([o rp] & w1 & He & H). unfold read_store, mread in He. injection He as He <-.
       unfold task_execution in He. destruct (List.find _ _) as [r|] eqn:Hr; [|done].
       injection He as <- <-. apply mbind_ok in H as ([] & w2 & Hj & H).
       apply Hstop in H as (-> & -> & ->). rewrite bool_decide_eq_true_2 by set_solver.
       assert (w_store w2 = w_store w ∧ Inv (w_jobs w2) ∧ (∀ i, settled (w_jobs w) i → settled (w_jobs w2) i)
         ∧ ∀ j, tk_job r = Some j → settled (w_jobs w2) j) as (-> & ? & ? & Hset).
       { cbn [fst] in Hj. destruct (tk_job r) as [j|]; [|unfold mret, M_ret in Hj; by simplify_eq].
         apply mbind_ok in Hj as (job & w3 & Hg & Hj). unfold read_db, mread in Hg. injection Hg as Hg <-.
         pose proof (cancel_job_ok now j (w_jobs w) HI) as Hc. rewrite Hg in Hc.
         destruct job as [job|].
         - case_bool_decide.
           + apply mbind_ok in Hj as (? & w3 & Hcj & Hj). unfold mret, M_ret in Hj. simplify_eq.
             unfold on_db in Hcj. destruct (JobRepository.cancel _ _ _) as [v d'] eqn:E. simplify_eq. simpl in *.
             destruct Hc as (? & ? & ?). split_and!; try done. intros. by simplify_eq.
           + unfold mret, M_ret in Hj. simplify_eq. destruct Hc as (? & ? & ?).
             split_and!; try done. intros. by simplify_eq.
         - unfold mret, M_ret in Hj. simplify_eq. split_and!; try done. intros j' [= <-] r' Hr'.
           rewrite (get_job_ok _ _ HI), Hr' in Hg. destruct (key_of_job _ _ _ HI Hr') as (k & t' & Hk & _).
           by rewrite Hk in Hg. }
       split_and!; [done..|]. intros _ r' j Hr' Hj'. unfold row in Hr'. simplify_eq. by apply Hset. }
  1: { apply Hstop in H as (-> & -> & ->). rewrite bool_decide_eq_true_2 by set_solver.
       split_and!; [done..|]. unfold job_settled. congruence. }
  all: unfold mret, M_ret in H; simplify_eq; rewrite bool_decide_eq_false_2 by set_solver;
    rewrite map_id; split_and!; [done..|unfold job_settled; congruence].
Qed.

(** *** All tasks *)

Definition stop_rows (tasks : list PlannedTask) (l : list task_row) : list task_row :=
  foldl (λ l t, map (stop_row t) l) l tasks.

Lemma stop_row_same t r : same_task r (stop_row t r).
Proof. unfold stop_row. destruct (live t); [apply upd_same|done]. Qed.

Lemma stop_row_other t r : pt_id (tk r) ≠ pt_id t → stop_row t r = r.
Proof.
  intros H. unfold stop_row, upd, is_task. destruct (live t); [|done].
  by destruct (N.eqb_spec (pt_id (tk r)) (pt_id t)).
Qed.

Lemma stop_rows_find tasks : ∀ l u, NoDup (pt_id <$> tasks) →
  List.find (is_task u) (stop_rows tasks l)
  = (λ r, match List.find (λ t, (pt_id t =? u)%N) tasks with
          | Some t => stop_row t r | None => r end) <$> List.find (is_task u) l.
Proof.
  induction tasks as [|t tasks IH]; intros l u Hnd.
  { simpl. by destruct (List.find (is_task u) l). }
  apply NoDup_cons in Hnd as [Hn Hnd]. simpl. fold (stop_rows tasks (map (stop_row t) l)).
  rewrite IH by done. rewrite find_map by apply stop_row_same.
  destruct (List.find (is_task u) l) as [r|] eqn:Hr; [|done]. simpl. f_equal.
  apply List.find_some in Hr as [_ Hr%N.eqb_eq].
  destruct (N.eqb_spec (pt_id t) u) as [Hu|Hu].
  - destruct (List.find _ tasks) as [x|] eqn:Hx; [|done].
    apply List.find_some in Hx as [Hx%list_elem_of_In Hi%N.eqb_eq]. destruct Hn. rewrite Hu, <-Hi.
    by apply list_elem_of_fmap_2.
  - rewrite stop_row_other by congruence. done.
Qed.

Lemma cancel_tasks_ok now tasks : ∀ w out w', Inv (w_jobs w) →
  mmapM (cancel_task now) tasks w = (Ok out, w') → NoDup (pt_id <$> tasks) →
  gs_tasks (w_store w') = stop_rows tasks (gs_tasks (w_store w))
  ∧ gs_goals (w_store w') = gs_goals (w_store w)
  ∧ (∀ i, settled (w_jobs w) i → settled (w_jobs w') i)
  ∧ ∀ t, t ∈ tasks → job_settled (w_store w) (w_jobs w') t.
Proof.
  induction tasks as [|t tasks IH]; intros w out w' HI H Hnd; simpl in H.
  { unfold mret, M_ret in H. simplify_eq. split_and!; try done. by intros t ?%elem_of_nil. }
  apply mbind_ok in H as (ids & w1 & Ht & H). apply mbind_ok in H as (rest & w2 & Hr & H).
  unfold mret, M_ret in H. simplify_eq.
  destruct (cancel_task_ok _ _ _ _ _ HI Ht) as (Htk & Hg & HI1 & Hkeep & Hj).
  apply NoDup_cons in Hnd as [Hn Hnd].
  destruct (IH _ _ _ HI1 Hr Hnd) as (Htk2 & Hg2 & Hkeep2 & Hj2).
  split_and!; [simpl; by rewrite Htk2, Htk|congruence|auto|].
  intros x [-> |Hx]%elem_of_cons Hrun r j Hrow Hjob.
  - apply Hkeep2. by eapply Hj.
  - eapply (Hj2 x Hx Hrun r j); [|done]. unfold row in *. rewrite Htk.
    rewrite find_map by apply stop_row_same. rewrite Hrow. simpl. f_equal. apply stop_row_other.
    rewrite (row_id _ _ _ Hrow). intros E. destruct Hn. rewrite <-E. by apply list_elem_of_fmap_2.
Qed.

(** C20: cancelling a goal leaves nothing to run. Every pending or running task of
    the goal becomes cancelled and no other task changes, the goal is cancelled,
    and the job of every task that was running is in a terminal state, so no worker
    can complete it any more. *)
Theorem cancel_leaves_nothing_to_run now g actor reason w w' goal : unique_ids (w_store w) →
  reachable (w_jobs w) → get_goal g (w_store w) = Ok (Some goal) → g_status goal ≠ g_cancelled →
  cancel_goal now g actor reason w = (Ok tt, w') →
  goal_status_at g (w_store w') = Some g_cancelled
  ∧ (∀ u r, row (w_store w) u = Some r → ∃ r', row (w_store w') u = Some r' ∧ same_task r r'
      ∧ pt_status (tk r') = if (pt_goal (tk r) =? g)%N && live (tk r) then t_cancelled else pt_status (tk r))
  ∧ (∀ u r j jr, row (w_store w) u = Some r → pt_goal (tk r) = g → pt_status (tk r) = t_running →
      tk_job r = Some j → jobs (w_jobs w') !! j = Some jr → terminal (jr_status jr) = true).
Proof.
  intros Hu HI%reachable_inv Hg Hns H. unfold cancel_goal in H.
  apply mbind_ok in H as (gl & w0 & Hgl & H). unfold required_goal, read_store, mlift, mread in Hgl.
  apply mbind_ok in Hgl as (o & w1 & Ho & Hgl). rewrite Hg in Ho. injection Ho as <- <-. simpl in Hgl.
  injection Hgl as <- <-. rewrite bool_decide_eq_false_2 in H by done.
  apply mbind_ok in H as ([] & w0 & Hguard & H). unfold mguard, mlift in Hguard. injection Hguard as _ <-.
  apply mbind_ok in H as (tasks & w0 & Ht & H). unfold read_store, mread in Ht. injection Ht as Ht <-.
  apply mbind_ok in H as (out & w1 & Hc & H).
  destruct (cancel_tasks_ok _ _ _ _ _ HI Hc (get_tasks_unique _ _ _ Hu Ht)) as (Htk & Hgs & _ & Hjobs).
  apply mbind_ok in H as ([] & w2 & H1 & H2).
  unfold on_store, set_goal_status, record_event, mmodify in H1, H2. simplify_eq. split_and!.
  - pose proof (goal_status_set g g_cancelled (w_store w1)) as Hst. unfold goal_status_at in *. simpl in *.
    rewrite Hst, Hgs. unfold get_goal in Hg. destruct (List.find _ _); [done|]. by simplify_eq.
  - intros u r Hr. unfold row in *. simpl. rewrite Htk, stop_rows_find, Hr by (by eapply get_tasks_unique).
    simpl. eexists. split; [done|]. pose proof (rmap_tasks _ _ Ht) as ->.
    destruct (List.find _ (tk <$> goal_rows g (w_store w))) as [t|] eqn:Hf.
    + apply List.find_some in Hf as [Hin%list_elem_of_In Hid%N.eqb_eq].
      apply list_elem_of_fmap in Hin as (r0 & -> & [Hin Hgoal]%elem_of_goal_rows).
      pose proof (row_of_elem _ _ Hu Hin) as Hr0. unfold row in Hr0. rewrite Hid, Hr in Hr0. simplify_eq.
      split; [apply stop_row_same|]. rewrite N.eqb_refl. simpl. unfold stop_row, upd, is_task.
      destruct (live (tk r0)); [by rewrite N.eqb_refl|done].
    + split; [done|]. destruct (N.eqb_spec (pt_goal (tk r)) g) as [Hgoal|]; [|done].
      exfalso. apply List.find_some in Hr as [Hin%list_elem_of_In Hid].
      assert (Hno : (pt_id (tk r) =? u)%N = false).
      { apply (List.find_none _ _ Hf (tk r)), list_elem_of_In, list_elem_of_fmap_2.
        by apply elem_of_goal_rows. }
      unfold is_task in Hid. congruence.
  - intros u r j jr Hr Hgoal Hrun Hj. unfold row in Hr. pose proof Hr as Hr'.
    apply List.find_some in Hr as [Hin%list_elem_of_In Hid%N.eqb_eq].
    apply (Hjobs (tk r)) with r; [|done|by unfold row; rewrite Hid|done].
    rewrite (rmap_tasks _ _ Ht). apply list_elem_of_fmap_2, elem_of_goal_rows. done.
Qed.

(** ** Witnesses *)

Lemma worked_unique : unique_ids (w_store worked).
Proof. unfold unique_ids. solve_nodup. Qed.

Lemma goal_status_follows_its_tasks_witness :
  ∃ r, r ∈ goal_rows 7 (w_store reconciled) ∧ (pt_status (tk r) = t_pending ∨ pt_status (tk r) = t_running).
Proof.
  destruct (reconcile repr err 4 32 new_id 40 7 worked) as [x w'] eqn:E.
  assert (Hw : reconciled = w') by (unfold reconciled, after; by rewrite E).
  assert (Hx : x = Ok tt) by (transitivity (reconcile repr err 4 32 new_id 40 7 worked).1;
    [by rewrite E|vm_compute; reflexivity]).
  subst x. destruct (get_goal 7 (w_store worked)) as [[goal|]|] eqn:Hg; [|vm_compute in Hg; discriminate Hg..].
  assert (Hr : g_status goal = g_running).
  { pose proof (f_equal (λ r, match r with Ok (Some x) => Some (g_status x) | _ => None end) Hg) as Hs.
    vm_compute in Hs. by injection Hs. }
  pose proof (goal_status_follows_its_tasks repr err 4 32 new_id 40 7 worked w' goal worked_unique Hg Hr E) as H.
  rewrite <-Hw in H. assert (Hs : goal_status_at 7 (w_store reconciled) = Some g_running) by (vm_compute; reflexivity).
  rewrite Hs in H. exact H.
Defined.

Lemma started_reachable : reachable (w_jobs started).
Proof.
  assert (E : w_jobs started = run (Enqueue 1021 21 (Some (mk_Task 21 ("goal:" +:+ uuid_str 7) "s.a" []
    (1#2) None None None None 10)) (goal_key 7 21) 0 None) 10 empty_db) by (vm_compute; reflexivity).
  rewrite E. repeat constructor.
Qed.

Lemma cancel_leaves_nothing_to_run_witness :
  status_at (w_store started) 21%N = Some t_running
  ∧ goal_status_at 7 (w_store (after (cancel_goal 50 7 "user" None) started)) = Some g_cancelled.
Proof.
  split; [vm_compute; reflexivity|].
  destruct (cancel_goal 50 7 "user" None started) as [x w'] eqn:E.
  assert (Hx : x = Ok tt) by (transitivity (cancel_goal 50 7 "user" None started).1;
    [by rewrite E|vm_compute; reflexivity]).
  subst x. destruct (get_goal 7 (w_store started)) as [[goal|]|] eqn:Hg; [|vm_compute in Hg; discriminate Hg..].
  assert (Hu : unique_ids (w_store started)) by (unfold unique_ids; solve_nodup).
  unfold after. rewrite E.
  refine (proj1 (cancel_leaves_nothing_to_run 50 7 "user" None started w' goal Hu started_reachable Hg _ E)).
  intros Hc. pose proof (f_equal (λ r, match r with Ok (Some x) => Some (g_status x) | _ => None end) Hg) as Hs.
  cbv beta iota in Hs; rewrite Hc in Hs. vm_compute in Hs. discriminate Hs.
Defined.

(** Re-running a failed task does not revive the tasks it blocked: the first task
    fails, the second is blocked and the goal failed; the first is run again and
    completes, and the goal still ends failed, its second task blocked for good. *)
Module RerunDemo.
Definition failed_once : world :=
  after (reconcile repr err 4 32 new_id 40 7)
  (after (step_jobs (complete 1021 500 "job-output" (Some [("status", JStr "failed")]) 30))
  (after (step_jobs (claim 300 500 "w1" 30 20)) started)).
Definition rerun_id (t : uuid) : uuid := (t + 2000)%N.
Definition rerun_done : world :=
  after (reconcile repr err 4 32 rerun_id 80 7)
  (after (step_jobs (complete 2021 501 "job-output" (Some [("status", JStr "complete");
    ("confidence", JFloat (9#10)); ("result", JObj [])]) 70))
  (after (step_jobs (claim 301 501 "w1" 30 60))
  (after (rerun repr rerun_id 50 7 21 "user" None) failed_once))).
End RerunDemo.
Import RerunDemo.

Example rerun_leaves_dependents_blocked :
  status_at (w_store failed_once) 20%N = Some t_blocked
  ∧ status_at (w_store rerun_done) 21%N = Some t_complete
  ∧ status_at (w_store rerun_done) 20%N = Some t_blocked
  ∧ goal_status_at 7 (w_store rerun_done) = Some g_failed.
Proof. vm_compute. repeat split. Qed.
