(* ===== verification/GoalRunner.v ===== *)
(** agents/andromeda/goal_runner.py: running a goal's tasks one after the other
    in a single thread.

    [Andromeda.route] is an argument, over a state of its own; the thread
    [run_async] starts is its call of [run]. [fresh t] is the id drawn for the
    contract of task [t]. *)

From S2P Require Import Prelude.
From S2P Require Import PyStr.
From S2P Require Import PyTime.
From S2P Require Import Json.
From S2P Require Import Contracts.
From S2P Require Import ReviewQueue.
From S2P Require Import GoalStore.
From S2P Require Import Coordinator.
From S2P Require Import CoordinatorTheorems.
Open Scope Z_scope.

Record runner_world (R : Type) := mk_rworld {
  rw_store : gstore;
  rw_reviews : queue;
  rw_router : R }.
Arguments mk_rworld {R}.
Arguments rw_store {R}.
Arguments rw_reviews {R}.
Arguments rw_router {R}.

Section Runner.
Context {R : Type} (route : TaskContract → M R jdict).
Context (float_repr : Q → string) (fresh : uuid → uuid) (now : time).
Local Abbreviation rworld := (runner_world R).

Definition in_store {A} (m : M gstore A) : M rworld A := λ w,
  let '(r, s) := m (rw_store w) in (r, mk_rworld s (rw_reviews w) (rw_router w)).
Definition in_router {A} (m : M R A) : M rworld A := λ w,
  let '(r, x) := m (rw_router w) in (r, mk_rworld (rw_store w) (rw_reviews w) x).
Definition in_reviews (f : queue → queue) : M rworld unit := λ w,
  (Ok tt, mk_rworld (rw_store w) (f (rw_reviews w)) (rw_router w)).
Definition from_store {A} (f : gstore → result A) : M rworld A := mread (λ w, f (rw_store w)).

Definition is_pending_task (t : PlannedTask) : bool := bool_decide (pt_status t = t_pending).

(** [[t for t in pending if all(...)]]. *)
Fixpoint ready_tasks (find : uuid → option PlannedTask) (pending : list PlannedTask) :
    result (list PlannedTask) :=
  match pending with
  | [] => Ok []
  | t :: pending =>
      ok ← all_complete find (depends_on t);
      rest ← ready_tasks find pending;
      Ok (if (ok : bool) then t :: rest else rest)
  end.

Definition run_contract (goal : GoalContract) (t : PlannedTask) : result TaskContract :=
  validate_task (mk_Task (fresh (pt_id t)) ("goal:" +:+ uuid_str (goal_id goal)) (pt_skill t) (pt_payload t)
    (g_threshold goal) None (g_workspace_root goal) None None now).

(** From the task chosen to the end of the iteration: [true] to go on. *)
Definition run_task (goal : GoalContract) (t : PlannedTask) : M rworld bool :=
  let g := goal_id goal in
  in_store (update_task (pt_id t) [F_status t_running]);;
  contract ← mlift (run_contract goal t);
  res ← in_router (route contract);
  let state := obj_field "status" res in
  let confidence := obj_field "confidence" res in
  let task_result := as_dict (obj_field "result" res) in
  ok ← mlift (if is_str state "complete" then meets confidence (g_threshold goal) else Ok false);
  if (ok : bool) then
    in_store (update_task (pt_id t) [F_status t_complete; F_confidence confidence; F_result task_result]);;
    mret true
  else if is_str state "failed" || is_str state "no_agent_found" then
    err ← mlift (bind_text float_repr (jor (obj_field "failure_reason" res) state));
    in_store (update_task (pt_id t) [F_status t_failed; F_confidence confidence; F_error err]);;
    in_store (set_goal_status g g_failed);;
    mret false
  else
    in_store (update_task (pt_id t) [F_status t_escalated; F_confidence confidence; F_result task_result]);;
    in_reviews (rq_enqueue (uuid_str (pt_id t)) (JStr (pt_skill t)) (jor confidence (JFloat 0))
      (JObj (pt_payload t)) (pt_skill t) (JStr "") task_result None (Some (uuid_str g)) None None now);;
    in_store (set_goal_status g g_paused);;
    mret false.

(** One iteration of [while True]. *)
Definition drive_step (goal : GoalContract) : M rworld bool :=
  let g := goal_id goal in
  tasks ← from_store (get_tasks g);
  let pending := List.filter is_pending_task tasks in
  match pending with
  | [] => in_store (set_goal_status g g_complete);; mret false
  | _ =>
      ready ← mlift (ready_tasks (by_id tasks) pending);
      match ready with
      | [] => in_store (set_goal_status g g_paused);; mret false
      | t :: _ => run_task goal t
      end
  end.

(** [None]: the fuel ran out. *)
Fixpoint drive_loop (fuel : nat) (goal : GoalContract) : M rworld (option unit) :=
  match fuel with
  | O => mret None
  | S fuel => more ← drive_step goal; if (more : bool) then drive_loop fuel goal else mret (Some tt)
  end.

(** Every iteration that goes on leaves one pending task less. *)
Definition pending_for (g : uuid) (r : task_row) : bool := (pt_goal (tk r) =? g)%N && is_pending_task (tk r).
Definition drive_fuel (g : uuid) (s : gstore) : nat := S (length (List.filter (pending_for g) (gs_tasks s))).

Definition drive (g : uuid) : M rworld (option unit) :=
  goal ← from_store (get_goal g);
  goal ← mlift (of_option AttributeError goal);
  w ← mget;
  drive_loop (drive_fuel g (rw_store w)) goal.

(** [run]. *)
Definition run_goal (g : uuid) : M rworld unit :=
  claimed ← in_store (try_claim g);
  if negb claimed then mret tt else
  λ w, match drive g w with
       | (Ok _, w') => (Ok tt, w')
       | (Raise _, w') => in_store (set_goal_status g g_failed) w'
       end.

Definition resolve_escalated_task (g t : uuid) (approved : bool) : M rworld unit :=
  if approved then
    in_store (update_task t [F_status t_complete]);;
    run_goal g
  else
    in_store (update_task t [F_status t_failed; F_error (Some "rejected by reviewer")]);;
    in_store (set_goal_status g g_failed).
End Runner.

(** ** Every run comes to rest *)

Definition goal_ids (s : gstore) : list uuid := map goal_id (gs_goals s).

Lemma goal_known g s : is_Some (goal_status_at g s) ↔ g ∈ goal_ids s.
Proof.
  unfold goal_status_at, goal_ids. induction (gs_goals s) as [|x xs IH]; simpl.
  { split; [by intros [? ?]|by intros ?%elem_of_nil]. }
  unfold is_goal in *. rewrite elem_of_cons, <-IH. destruct (N.eqb_spec (goal_id x) g) as [->|Hn]; simpl.
  - split; [by left|by eexists].
  - naive_solver.
Qed.

Section Settles.
Context {R : Type} (route : TaskContract → M R jdict).
Context (float_repr : Q → string) (fresh : uuid → uuid) (now : time).
Local Abbreviation rworld := (runner_world R).
Local Abbreviation ids := (goal_ids ∘ rw_store).

Lemma in_store_keeps {A T} (f : gstore → T) (m : M gstore A) :
  keeps f m → keeps (f ∘ (rw_store (R := R))) (in_store m).
Proof. intros H w. unfold in_store. specialize (H (rw_store w)). by destruct (m (rw_store w)). Qed.

Lemma set_goal_status_ids g st : keeps goal_ids (set_goal_status g st).
Proof.
  intros s. unfold set_goal_status, mmodify, goal_ids. simpl. rewrite map_map. apply map_ext.
  intros x. by destruct (is_goal g x).
Qed.

Lemma update_task_ids t fs : keeps goal_ids (update_task t fs).
Proof. intros s. unfold goal_ids. by rewrite (update_task_goals t fs s). Qed.

Lemma run_task_ids goal t : keeps ids (run_task route float_repr fresh now goal t).
Proof.
  assert (Hu : ∀ fs, keeps ids (in_store (update_task (pt_id t) fs) : M rworld unit))
    by (intros; apply in_store_keeps, update_task_ids).
  assert (Hs : ∀ st, keeps ids (in_store (set_goal_status (goal_id goal) st) : M rworld unit))
    by (intros; apply in_store_keeps, set_goal_status_ids).
  unfold run_task. apply keeps_bind; [apply Hu|]. intros _. apply keeps_bind; [apply keeps_pure|].
  intros c. apply keeps_bind.
  { intros w. unfold in_router. by destruct (route c (rw_router w)). }
  intros res. cbv zeta. apply keeps_bind; [apply keeps_pure|]. intros [].
  { apply keeps_bind; [apply Hu|]. intros _. apply keeps_pure. }
  destruct (_ || _).
  - apply keeps_bind; [apply keeps_pure|]. intros err. apply keeps_bind; [apply Hu|]. intros _.
    apply keeps_bind; [apply Hs|]. intros _. apply keeps_pure.
  - apply keeps_bind; [apply Hu|]. intros _. apply keeps_bind; [by intros w|]. intros _.
    apply keeps_bind; [apply Hs|]. intros _. apply keeps_pure.
Qed.

Lemma drive_step_ids goal : keeps ids (drive_step route float_repr fresh now goal).
Proof.
  assert (Hs : ∀ st, keeps ids (in_store (set_goal_status (goal_id goal) st);; mret false : M rworld bool))
    by (intros; apply keeps_bind; [apply in_store_keeps, set_goal_status_ids|intros; apply keeps_pure]).
  unfold drive_step. apply keeps_bind; [apply keeps_pure|]. intros tasks. cbv zeta.
  destruct (List.filter _ tasks); [apply Hs|]. apply keeps_bind; [apply keeps_pure|].
  intros [|t rest]; [apply Hs|apply run_task_ids].
Qed.

Lemma drive_loop_ids goal fuel : keeps ids (drive_loop route float_repr fresh now fuel goal).
Proof.
  induction fuel as [|fuel IH]; simpl; [apply keeps_pure|].
  apply keeps_bind; [apply drive_step_ids|]. intros []; [done|apply keeps_pure].
Qed.

Definition at_rest (g : uuid) (s : gstore) : Prop :=
  goal_status_at g s = Some g_complete ∨ goal_status_at g s = Some g_paused
  ∨ goal_status_at g s = Some g_failed.

Definition pending_rows (g : uuid) (s : gstore) : Z := count_rows (pending_for g) s.

(** The update of one task, seen from the count of pending tasks. *)
Lemma update_pending g t fs (s s' : gstore) u r : update_task t fs s = (Ok u, s') → unique_ids s →
  row s t = Some r → field_status (pt_status (tk r)) fs ≠ t_pending →
  unique_ids s' ∧ pending_rows g s' = pending_rows g s - one (pending_for g r)
  ∧ ∃ r', row s' t = Some r' ∧ pt_status (tk r') = field_status (pt_status (tk r)) fs
      ∧ pt_goal (tk r') = pt_goal (tk r).
Proof.
  intros H Hu Hr Hst. apply update_task_cases in H as [[_ [e ?]]|(fs' & Hb & _ & ->)]; [done|].
  pose proof (bind_fields_status _ _ (pt_status (tk r)) Hb) as Hfs.
  assert (Hnew : pt_status (tk (apply_fields fs' r)) = field_status (pt_status (tk r)) fs)
    by (by rewrite apply_fields_status, Hfs).
  split_and!; [by apply unique_upd| |].
  - unfold pending_rows. rewrite (count_upd _ _ _ _ _ Hu Hr).
    assert (E : pending_for g (apply_fields fs' r) = false).
    { unfold pending_for, is_pending_task. rewrite Hnew, bool_decide_eq_false_2 by done. apply andb_false_r. }
    rewrite E. simpl. lia.
  - exists (apply_fields fs' r). rewrite row_map by apply upd_same. rewrite Hr. simpl. unfold upd, is_task.
    rewrite (row_id _ _ _ Hr), N.eqb_refl. split_and!; [done..|]. apply (set_fields_same fs' r).
Qed.

Lemma settle_rest g st (w w' : rworld) (x : bool) :
  (in_store (set_goal_status g st);; mret false) w = (Ok x, w') →
  g ∈ ids w → st = g_complete ∨ st = g_paused ∨ st = g_failed → x = false ∧ at_rest g (rw_store w').
Proof.
  intros (? & w1 & H1 & H2)%mbind_ok Hg Hst. unfold mret, M_ret in H2. simplify_eq. split; [done|].
  unfold in_store, set_goal_status, mmodify in H1. simplify_eq. unfold at_rest. simpl.
  rewrite goal_status_set. apply goal_known in Hg as [v Hv]. simpl in Hv. rewrite Hv. simpl. naive_solver.
Qed.

Lemma run_task_ok goal t (w w' : rworld) b r : unique_ids (rw_store w) →
  row (rw_store w) (pt_id t) = Some r → pending_for (goal_id goal) r = true → goal_id goal ∈ ids w →
  run_task route float_repr fresh now goal t w = (Ok b, w') →
  if b then unique_ids (rw_store w') ∧ pending_rows (goal_id goal) (rw_store w') = pending_rows (goal_id goal) (rw_store w) - 1
  else at_rest (goal_id goal) (rw_store w').
Proof.
  intros Hu Hr Hp Hg H. unfold run_task in H. apply mbind_ok in H as (u1 & w1 & H1 & H).
  unfold in_store in H1. destruct (update_task (pt_id t) _ (rw_store w)) as [x s1] eqn:E1. simplify_eq.
  pose proof (update_task_ids (pt_id t) [F_status t_running] (rw_store w)) as Hids. rewrite E1 in Hids. simpl in Hids.
  destruct (update_pending (goal_id goal) _ _ _ _ _ _ E1 Hu Hr) as (Hu1 & Hc1 & r1 & Hr1 & Hs1 & _); [done|].
  simpl in Hs1. rewrite Hp in Hc1.
  apply mbind_ok in H as (c & w2 & Hcon & H). unfold mlift in Hcon. injection Hcon as _ <-.
  apply mbind_ok in H as (res & w3 & Hroute & H). unfold in_router in Hroute. simpl in Hroute.
  destruct (route c (rw_router w)) as [rr x3]. simplify_eq. cbv zeta in H.
  apply mbind_ok in H as (ok & w4 & Hm & H). unfold mlift in Hm. injection Hm as _ <-.
  destruct ok.
  { apply mbind_ok in H as (u2 & w5 & H2 & H). unfold mret, M_ret in H. simplify_eq.
    unfold in_store in H2. simpl in H2. destruct (update_task _ _ s1) as [x2 s2] eqn:E2. simplify_eq. simpl.
    destruct (update_pending (goal_id goal) _ _ _ _ _ _ E2 Hu1 Hr1) as (Hu2 & Hc2 & _); [done|]. split; [done|].
    assert (E : pending_for (goal_id goal) r1 = false).
    { unfold pending_for, is_pending_task. rewrite Hs1. apply andb_false_r. }
    rewrite E in Hc2. simpl in *. lia. }
  assert (Hgo : ∀ fs u2 (w5 : rworld), in_store (update_task (pt_id t) fs)
      (mk_rworld s1 (rw_reviews w) x3) = (Ok u2, w5) → goal_id goal ∈ ids w5).
  { intros fs u2 w5 H2. pose proof (keeps_result _ _ _ _ _ (in_store_keeps _ _ (update_task_ids (pt_id t) fs)) H2) as E.
    rewrite E. simpl. by rewrite Hids. }
  destruct (_ || _).
  - apply mbind_ok in H as (err & w4 & Hb & H). unfold mlift in Hb. injection Hb as _ <-.
    apply mbind_ok in H as (u2 & w5 & H2 & H). apply Hgo in H2. by apply settle_rest in H as [-> ?]; auto.
  - apply mbind_ok in H as (u2 & w5 & H2 & H). apply Hgo in H2.
    apply mbind_ok in H as (u3 & w6 & H3 & H). unfold in_reviews in H3. simplify_eq.
    by apply settle_rest in H as [-> ?]; auto.
Qed.

Lemma ready_tasks_sub find pending l : ready_tasks find pending = Ok l → ∀ t, t ∈ l → t ∈ pending.
Proof.
  revert l. induction pending as [|x pending IH]; intros l H t Ht; simpl in H; rok; [by apply elem_of_nil in Ht|].
  destruct x0; [apply elem_of_cons in Ht as [-> |Ht]; [by left|]|]; right; by eapply IH.
Qed.

Lemma drive_step_ok goal (w w' : rworld) b : unique_ids (rw_store w) → goal_id goal ∈ ids w →
  drive_step route float_repr fresh now goal w = (Ok b, w') →
  if b then unique_ids (rw_store w') ∧ goal_id goal ∈ ids w'
            ∧ pending_rows (goal_id goal) (rw_store w') = pending_rows (goal_id goal) (rw_store w) - 1
  else at_rest (goal_id goal) (rw_store w').
Proof.
  intros Hu Hg H. pose proof (keeps_result _ _ _ _ _ (drive_step_ids goal) H) as Hids.
  unfold drive_step in H. apply mbind_ok in H as (tasks & w1 & Ht & H). unfold from_store, mread in Ht.
  injection Ht as Ht <-. cbv zeta in H.
  destruct (List.filter is_pending_task tasks) as [|t0 pend] eqn:Hp; [apply settle_rest in H as [-> ?]; auto|].
  apply mbind_ok in H as (ready & w1 & Hr & H). unfold mlift in Hr. injection Hr as Hr <-.
  destruct ready as [|t ready]; [apply settle_rest in H as [-> ?]; auto|].
  assert (Hin : t ∈ t0 :: pend) by (eapply ready_tasks_sub; [exact Hr|by left]).
  rewrite <-Hp, list_elem_of_In, filter_In, <-list_elem_of_In in Hin. destruct Hin as [Hin Hpend].
  destruct (get_tasks_rows _ _ _ _ Hu Ht Hin) as (r & Hrow & Hk & Hgoal).
  eapply run_task_ok in H; [|exact Hu|exact Hrow| |exact Hg].
  - destruct b; [|done]. destruct H. rewrite Hids. done.
  - unfold pending_for. by rewrite Hk, Hgoal, N.eqb_refl, Hpend.
Qed.

Lemma drive_loop_ok goal fuel : ∀ (w w' : rworld) o, unique_ids (rw_store w) → goal_id goal ∈ ids w →
  pending_rows (goal_id goal) (rw_store w) < Z.of_nat fuel →
  drive_loop route float_repr fresh now fuel goal w = (Ok o, w') →
  o = Some tt ∧ at_rest (goal_id goal) (rw_store w').
Proof.
  induction fuel as [|fuel IH]; intros w w' o Hu Hg Hf H; [unfold pending_rows, count_rows in Hf; lia|].
  simpl in H. apply mbind_ok in H as (b & w1 & H1 & H). apply drive_step_ok in H1; [|done..].
  destruct b.
  - destruct H1 as (Hu1 & Hg1 & Hc). eapply IH; [exact Hu1|exact Hg1|lia|exact H].
  - unfold mret, M_ret in H. by simplify_eq.
Qed.

(** A goal that a runner has claimed always comes to rest. Whatever the routed
    tasks return or raise, the loop ends within one iteration more than there were
    pending tasks, and the goal is then complete, paused or failed, never left
    running; a goal that cannot be claimed is not touched. *)
Theorem a_claimed_goal_comes_to_rest g (w : rworld) : unique_ids (rw_store w) →
  let '(r, w') := run_goal route float_repr fresh now g w in
  let claimed := (try_claim g (rw_store w)).1 in
  r = Ok tt
  ∧ (claimed = Ok true → at_rest g (rw_store w')
      ∧ (drive route float_repr fresh now g (in_store (try_claim g) w).2).1 ≠ Ok None)
  ∧ (claimed ≠ Ok true → w' = mk_rworld (try_claim g (rw_store w)).2 (rw_reviews w) (rw_router w)).
Proof.
  intros Hu. destruct (run_goal route float_repr fresh now g w) as [r w'] eqn:Hrun. unfold run_goal in Hrun.
  unfold mbind, M_bind in Hrun. unfold in_store at 1 in Hrun. unfold in_store at 1.
  destruct (try_claim g (rw_store w)) as [c s1] eqn:Hc. simpl.
  pose proof Hc as Hc'. unfold try_claim, mbind, M_bind, mget, mmodify, mret, M_ret in Hc'. simplify_eq.
  destruct (existsb (claimable_goal g) (gs_goals (rw_store w))) eqn:Hcl; simpl in Hrun;
    [|unfold mret, M_ret in Hrun; by simplify_eq].
  set (s1 := set_goals (map _) (rw_store w)) in *. set (w1 := mk_rworld s1 (rw_reviews w) (rw_router w)) in *.
  assert (Hg : g ∈ ids w1).
  { apply existsb_exists in Hcl as (x & Hx%list_elem_of_In & Hcx). unfold claimable_goal, is_goal in Hcx.
    apply andb_true_iff in Hcx as [Hid%N.eqb_eq _]. unfold w1, s1, goal_ids. simpl.
    rewrite map_map. apply list_elem_of_fmap. exists x. split; [|done]. simpl.
    by destruct (claimable_goal g x). }
  assert (Hdrive : ∀ o w2, drive route float_repr fresh now g w1 = (Ok o, w2) → o = Some tt ∧ at_rest g (rw_store w2)).
  { intros o w2 H. unfold drive in H. apply mbind_ok in H as (og & w3 & Ho & H). unfold from_store, mread in Ho.
    injection Ho as Ho <-. apply mbind_ok in H as (goal & w3 & Hl & H). unfold mlift in Hl. injection Hl as Hl <-.
    destruct og as [goal'|]; [|done]. simpl in Hl. simplify_eq. apply mbind_ok in H as (w3 & w4 & Hm & H).
    unfold mget in Hm. simplify_eq. pose proof (find_goal_id _ _ _ Ho) as Hid. subst g.
    eapply drive_loop_ok; [|exact Hg| |exact H]; [exact Hu|]. unfold drive_fuel, pending_rows, count_rows. lia. }
  assert (Hids : ∀ x w2, drive route float_repr fresh now g w1 = (x, w2) → g ∈ ids w2).
  { intros x w2 H. rewrite (keeps_result ids (drive route float_repr fresh now g) w1 x w2); [done| |done].
    unfold drive. apply keeps_bind; [apply keeps_pure|]. intros og. apply keeps_bind; [apply keeps_pure|].
    intros goal. apply keeps_bind; [apply keeps_pure|]. intros ?. apply drive_loop_ids. }
  destruct (drive route float_repr fresh now g w1) as [[o|e] w2] eqn:Hd.
  - destruct (Hdrive _ _ eq_refl) as [-> Hrest]. simplify_eq. by split_and!.
  - specialize (Hids _ _ eq_refl). unfold in_store, set_goal_status, mmodify in Hrun. simplify_eq.
    split_and!; [done| |done]. intros _. split; [|done]. unfold at_rest. simpl. rewrite goal_status_set.
    apply goal_known in Hids as [v Hv]. simpl in Hv. rewrite Hv. auto.
Qed.
End Settles.

Module RunnerDemo.
Definition repr (q : Q) : string := "0.5".
Definition new_id (t : uuid) : uuid := (t + 1000)%N.
Definition answer (state : string) : jdict :=
  [("status", JStr state); ("confidence", JFloat (9#10)); ("result", JObj [])].
Definition always (state : string) (c : TaskContract) : M unit jdict := mret (answer state).
(** The second task of the plan escalates, the first completes. *)
Definition second_escalates (c : TaskContract) : M unit jdict :=
  mret (answer (if String.eqb (skill c) "s.a" then "complete" else "escalated")).
Definition w0 : runner_world unit := mk_rworld demo_saved [] tt.
Definition run1 := run_goal second_escalates repr new_id 10 7 w0.
Definition run2 := run_goal second_escalates repr new_id 20 7 run1.2.
End RunnerDemo.
Import RunnerDemo.

Lemma a_claimed_goal_comes_to_rest_witness :
  goal_status_at 7 (rw_store (run_goal (always "complete") repr new_id 10 7 w0).2) = Some g_complete
  ∧ at_rest 7 (rw_store (run_goal (always "complete") repr new_id 10 7 w0).2).
Proof.
  split; [vm_compute; reflexivity|].
  assert (Hu : unique_ids (rw_store w0)) by (unfold unique_ids; solve_nodup).
  pose proof (a_claimed_goal_comes_to_rest (always "complete") repr new_id 10 7 w0 Hu) as H.
  destruct (run_goal (always "complete") repr new_id 10 7 w0) as [r w'].
  apply H. vm_compute. reflexivity.
Defined.

(** A goal paused by an escalation can be claimed again, and is then declared
    complete, since the escalated task is not pending any more. *)
Example paused_goal_completes_over_an_escalation :
  goal_status_at 7 (rw_store run1.2) = Some g_paused
  ∧ status_at (rw_store run1.2) 20%N = Some t_escalated
  ∧ goal_status_at 7 (rw_store run2.2) = Some g_complete
  ∧ status_at (rw_store run2.2) 20%N = Some t_escalated.
Proof. vm_compute. repeat split. Qed.
