(* ===== verification/Policy.v ===== *)
(** core/policy: deciding before an agent runs whether a task may proceed
    (engine.py), and the single-use approvals of held tasks (grants.py).

    A policy file is what the YAML library makes of it; its mappings are JSON
    objects. SHA-256 is a parameter of the digest. *)

From S2P Require Import Prelude.
From S2P Require Import PyStr.
From S2P Require Import PyTime.
From S2P Require Import Json.
From S2P Require Import Fnmatch.
From S2P Require Import Contracts.
Open Scope Z_scope.

(** ** engine.py *)

Inductive action := ALLOW | DENY | REQUIRE_REVIEW.

#[export] Instance action_eq_dec : EqDecision action.
Proof. solve_decision. Defined.

(** [_SEVERITY]. *)
Definition severity (a : action) : Z :=
  match a with ALLOW => 0 | REQUIRE_REVIEW => 1 | DENY => 2 end.

Record PolicyRule := mk_rule {
  rule_skill : string;
  rule_action : action;
  rule_origin : string;
  rule_reason : string }.

Definition matches (r : PolicyRule) (skill origin : string) : bool :=
  fnmatchcase skill (rule_skill r) && fnmatchcase origin (rule_origin r).

Record PolicyDecision := mk_decision {
  d_action : action;
  d_reason : string;
  d_rule : option Z }.

Definition no_decision : PolicyDecision := mk_decision ALLOW "" None.

Abbreviation PolicyEngine := (list PolicyRule) (only parsing).

Definition enabled (rules : PolicyEngine) : bool :=
  match rules with [] => false | _ => true end.

(** The loop of [evaluate_skill], from index [i] on. *)
Fixpoint first_match (i : Z) (rules : PolicyEngine) (skill origin : string) : PolicyDecision :=
  match rules with
  | [] => no_decision
  | r :: rules =>
      if matches r skill origin
      then mk_decision (rule_action r)
             (if truthy_str (rule_reason r) then rule_reason r else "policy rule " +:+ py_int i) (Some i)
      else first_match (i + 1) rules skill origin
  end.

Definition evaluate_skill (rules : PolicyEngine) (skill : string) (origin : option string) : PolicyDecision :=
  first_match 0 rules skill (or_else origin "").

Definition stricter (strictest d : PolicyDecision) : PolicyDecision :=
  if severity (d_action strictest) <? severity (d_action d) then d else strictest.

Definition evaluate (rules : PolicyEngine) (skills : list string) (origin : option string) : PolicyDecision :=
  foldl (λ strictest skill, stricter strictest (evaluate_skill rules skill origin)) no_decision skills.

(** *** payload_digest *)

Section Digest.
Context (float_repr : Q → string) (sha256 : string → string).

(** [json.dumps] with its default separators. *)
Fixpoint json_text (v : json) : string :=
  match v with
  | JArr l => "[" +:+ join ", " (map json_text l) +:+ "]"
  | JObj d => "{" +:+ join ", " (map (λ kv, dump_str (fst kv) +:+ ": " +:+ json_text (snd kv)) d) +:+ "}"
  | _ => dumps float_repr v
  end.

Definition payload_digest (origin : option string) (skill : string) (payload : jdict) : string :=
  sha256 (json_text (canon (JObj [("origin", JStr (or_else origin "")); ("skill", JStr skill);
    ("payload", JObj payload)]))).
End Digest.

(** *** Loading a policy file *)

Definition rule_keys : list string := ["skill"; "origin"; "action"; "reason"].

Definition non_blank (v : json) : result string :=
  match v with
  | JStr s => if truthy_str (strip s) then Ok s else Raise PolicyConfigError
  | _ => Raise PolicyConfigError
  end.

Definition parse_rule (entry : json) : result PolicyRule :=
  match entry with
  | JObj d =>
      rguard (forallb (λ kv, bool_decide (kv.1 ∈ rule_keys)) d) PolicyConfigError;;
      skill ← non_blank (obj_field "skill" d);
      let act := obj_field "action" d in
      rguard (is_str act "deny" || is_str act "require_review") PolicyConfigError;;
      origin ← non_blank (obj_default "origin" (JStr "*") d);
      match obj_default "reason" (JStr "") d with
      | JStr reason =>
          Ok (mk_rule (strip skill) (if is_str act "deny" then DENY else REQUIRE_REVIEW)
                (strip origin) (strip reason))
      | _ => Raise PolicyConfigError
      end
  | _ => Raise PolicyConfigError
  end.

(** [load_policy] on the outcome of reading the file: [None] when it does not
    exist, an exception when it is not YAML. *)
Definition load_policy (file : option (result json)) : result PolicyEngine :=
  match file with
  | None => Ok []
  | Some (Raise _) => Raise PolicyConfigError
  | Some (Ok v) =>
      match jor v (JObj []) with
      | JObj raw =>
          match obj_field "rules" raw with
          | JNull => Ok []
          | JArr entries => rmap parse_rule entries
          | _ => Raise PolicyConfigError
          end
      | _ => Raise PolicyConfigError
      end
  end.

(** ** grants.py *)

Definition default_ttl_s : Z := 3600.

Record grant := mk_grant {
  gr_id : uuid;
  gr_origin : string;
  gr_skill : string;
  gr_digest : string;
  gr_by : option string;
  gr_created : time;
  gr_expires : time;
  gr_consumed : option time }.

Abbreviation grants := (list grant) (only parsing).

Definition issue (fresh : uuid) (origin skill digest : string) (ttl_s : Z) (granted_by : option string)
    (now : time) : M grants uuid :=
  expires ← mlift (dt_add now (ttl_s * 1000000));
  s ← mget;
  mguard (negb (existsb (λ g, (gr_id g =? fresh)%N) s)) IntegrityError;;
  mmodify (λ s, s ++ [mk_grant fresh origin skill digest granted_by now expires None]);;
  mret fresh.

(** What an approval is for. *)
Definition for_key (origin skill digest : string) (g : grant) : bool :=
  String.eqb (gr_origin g) origin && String.eqb (gr_skill g) skill && String.eqb (gr_digest g) digest.

Definition unused (g : grant) : bool := match gr_consumed g with None => true | Some _ => false end.

(** The sub-select: the oldest usable grant. *)
Definition usable (origin skill digest : string) (now : time) (g : grant) : bool :=
  for_key origin skill digest g && unused g && (now <? gr_expires g).

Definition oldest_usable (origin skill digest : string) (now : time) (s : grants) : option grant :=
  head (py_sorted (λ a b, gr_created a <=? gr_created b) (List.filter (usable origin skill digest now) s)).

Definition use_grant (now : time) (g : grant) : grant :=
  mk_grant (gr_id g) (gr_origin g) (gr_skill g) (gr_digest g) (gr_by g) (gr_created g) (gr_expires g)
    (Some now).

Definition consume (origin skill digest : string) (now : time) : M grants bool := λ s,
  match oldest_usable origin skill digest now s with
  | None => (Ok false, s)
  | Some g => (Ok true, map (λ x, if (gr_id x =? gr_id g)%N then use_grant now x else x) s)
  end.

(** ** Properties *)

Lemma first_match_spec rules skill origin : ∀ i,
  (∃ pre r post, rules = pre ++ r :: post ∧ matches r skill origin = true
     ∧ (∀ x, x ∈ pre → matches x skill origin = false)
     ∧ d_action (first_match i rules skill origin) = rule_action r
     ∧ d_rule (first_match i rules skill origin) = Some (i + Z.of_nat (length pre)))
  ∨ ((∀ x, x ∈ rules → matches x skill origin = false) ∧ first_match i rules skill origin = no_decision).
Proof.
  induction rules as [|r rules IH]; intros i; simpl.
  { right. split; [by intros x ?%elem_of_nil|done]. }
  destruct (matches r skill origin) eqn:Hm.
  - left. exists [], r, rules. simpl. split_and!; try done; [by intros x ?%elem_of_nil|f_equal; lia].
  - destruct (IH (i + 1)) as [(pre & x & post & -> & Hx & Hpre & Ha & Hr)|[Hno ->]].
    + left. exists (r :: pre), x, post. split_and!; try done.
      * by intros y [-> |?]%elem_of_cons; [|apply Hpre].
      * rewrite Hr. f_equal. simpl. lia.
    + right. split; [|done]. by intros y [-> |?]%elem_of_cons; [|apply Hno].
Qed.

Lemma stricter_severity a b :
  severity (d_action (stricter a b)) = Z.max (severity (d_action a)) (severity (d_action b)).
Proof. unfold stricter. destruct (Z.ltb_spec (severity (d_action a)) (severity (d_action b))); lia. Qed.

Lemma evaluate_from rules origin skills : ∀ d0,
  let e := foldl (λ d s, stricter d (evaluate_skill rules s origin)) d0 skills in
  severity (d_action d0) <= severity (d_action e)
  ∧ (∀ s, s ∈ skills → severity (d_action (evaluate_skill rules s origin)) <= severity (d_action e))
  ∧ (e = d0 ∨ ∃ s, s ∈ skills ∧ e = evaluate_skill rules s origin).
Proof.
  induction skills as [|s skills IH]; intros d0; simpl.
  { split_and!; [done|by intros s ?%elem_of_nil|by left]. }
  destruct (IH (stricter d0 (evaluate_skill rules s origin))) as (H1 & H2 & H3).
  rewrite stricter_severity in H1. split_and!; [lia| |].
  - intros x [-> |Hx]%elem_of_cons; [lia|by apply H2].
  - destruct H3 as [-> |(x & Hx & ->)]; [|right; exists x; split; [by right|done]].
    unfold stricter. destruct (_ <? _); [right; exists s; split; [by left|done]|by left].
Qed.

(** A policy decides by the strictest of the skills a task needs, and for one
    skill by the first rule that matches it. Whatever the order of the skills, the
    decision is the default or that of one of them, and none of them is decided
    more strictly; a skill whose first matching rule denies it denies the task. *)
Theorem policy_decides_by_the_strictest rules skills origin :
  let d := evaluate rules skills origin in
  (∀ s, s ∈ skills → severity (d_action (evaluate_skill rules s origin)) <= severity (d_action d))
  ∧ (d = no_decision ∨ ∃ s, s ∈ skills ∧ d = evaluate_skill rules s origin)
  ∧ ∀ s pre r post, s ∈ skills → rules = pre ++ r :: post → matches r s (or_else origin "") = true →
      (∀ x, x ∈ pre → matches x s (or_else origin "") = false) →
      d_action (evaluate_skill rules s origin) = rule_action r
      ∧ (rule_action r = DENY → d_action d = DENY).
Proof.
  intros d. destruct (evaluate_from rules origin skills no_decision) as (_ & Hmax & Hone).
  split_and!; [exact Hmax|exact Hone|]. intros s pre r post Hs -> Hm Hpre.
  assert (E : d_action (evaluate_skill (pre ++ r :: post) s origin) = rule_action r).
  { unfold evaluate_skill. clear -Hm Hpre. generalize 0. induction pre as [|x pre IH]; intros i; simpl.
    - by rewrite Hm.
    - rewrite (Hpre x) by (by left). apply IH. intros y Hy. apply Hpre. by right. }
  split; [done|]. intros Hd. specialize (Hmax s Hs). rewrite E, Hd in Hmax. unfold d, evaluate.
  destruct (d_action (foldl _ _ _)); simpl in *; [lia|done|lia].
Qed.

Definition demo_rules : PolicyEngine :=
  [mk_rule "rigel.*" REQUIRE_REVIEW "goal:*" ""; mk_rule "*" DENY "a2a:*" "no peers"].

Lemma policy_decides_by_the_strictest_witness :
  d_action (evaluate demo_rules ["rigel.skill.scaffold"; "vega.skill.qa"] (Some "a2a:peer")) = DENY.
Proof.
  refine (proj2 (proj2 (proj2 (policy_decides_by_the_strictest demo_rules
    ["rigel.skill.scaffold"; "vega.skill.qa"] (Some "a2a:peer"))) "vega.skill.qa"
    [mk_rule "rigel.*" REQUIRE_REVIEW "goal:*" ""] (mk_rule "*" DENY "a2a:*" "no peers") [] _ _ _ _) _).
  - right. by left.
  - reflexivity.
  - vm_compute. reflexivity.
  - intros x [-> |?%elem_of_nil]%elem_of_cons; [vm_compute; reflexivity|done].
  - reflexivity.
Defined.

(** *** Loading *)

Definition sound_rule (r : PolicyRule) : Prop :=
  rule_action r ≠ ALLOW ∧ truthy_str (rule_skill r) = true ∧ truthy_str (rule_origin r) = true.

Lemma non_blank_cases v : (∃ s, v = JStr s ∧ non_blank v = Ok s ∧ truthy_str (strip s) = true)
  ∨ non_blank v = Raise PolicyConfigError.
Proof. destruct v as [| | | |s| |]; simpl; auto. destruct (truthy_str (strip s)) eqn:E; eauto. Qed.

Lemma parse_rule_cases e :
  (∃ r, parse_rule e = Ok r ∧ sound_rule r) ∨ parse_rule e = Raise PolicyConfigError.
Proof.
  destruct e as [| | | | | |d]; auto. simpl.
  destruct (forallb _ d); [|auto]. unfold mbind at 1, rbind at 1. simpl.
  destruct (non_blank_cases (obj_field "skill" d)) as [(s & _ & -> & Hs)| ->]; [|auto]. simpl.
  destruct (is_str _ "deny" || is_str _ "require_review"); [|auto]. simpl.
  destruct (non_blank_cases (obj_default "origin" (JStr "*") d)) as [(o & _ & -> & Ho)| ->]; [|auto]. simpl.
  destruct (obj_default "reason" (JStr "") d) as [| | | |reason| |]; auto.
  left. eexists. split; [done|]. split_and!; try done. by destruct (is_str _ "deny").
Qed.

(** An unusable policy never weakens what runs. A file's rules are loaded one
    for one, each of them denying or holding something for a non-empty skill and
    origin, or loading fails and names no engine at all: no malformed entry is
    skipped. Only an absent file or an absent list of rules means no policy. *)
Theorem malformed_policy_never_weakens file :
  (∃ rules, load_policy file = Ok rules ∧ Forall sound_rule rules
     ∧ (rules ≠ [] → ∃ raw entries, file = Some (Ok (JObj raw))
          ∧ obj_field "rules" raw = JArr entries ∧ Forall2 (λ e r, parse_rule e = Ok r) entries rules))
  ∨ load_policy file = Raise PolicyConfigError
    ∧ ∃ v, file = Some v ∧ ∀ raw, v = Ok (JObj raw) → obj_field "rules" raw ≠ JNull.
Proof.
  assert (Hnil : ∃ rules : list PolicyRule, Ok [] = Ok rules ∧ Forall sound_rule rules
     ∧ (rules ≠ [] → ∃ raw entries, file = Some (Ok (JObj raw))
          ∧ obj_field "rules" raw = JArr entries ∧ Forall2 (λ e r, parse_rule e = Ok r) entries rules))
    by (exists []; split_and!; [done|constructor|done]).
  destruct file as [[v|e]|]; simpl; [|right; split; [done|]; eexists; split; [done|by intros]|by left].
  unfold jor. destruct (truthy v) eqn:Hv; [|by left].
  destruct v as [| | | | | |raw]; try (right; split; [done|]; eexists; split; [done|by intros]).
  destruct (obj_field "rules" raw) as [| | | | |entries|] eqn:Hr;
    try (right; split; [done|]; eexists; split; [done|by intros ? [= <-]; rewrite Hr]); [by left|].
  assert (Hmap : (∃ rules, rmap parse_rule entries = Ok rules ∧ Forall sound_rule rules
      ∧ Forall2 (λ e r, parse_rule e = Ok r) entries rules) ∨ rmap parse_rule entries = Raise PolicyConfigError).
  { clear. induction entries as [|e l IH]; simpl; [left; exists []; by repeat constructor|].
    destruct (parse_rule_cases e) as [(r & E & Hs)|E]; rewrite E; simpl; [|by right].
    unfold mbind at 1, rbind at 1. destruct IH as [(rs & -> & Hf & H2)| ->]; simpl; [|by right].
    left. exists (r :: rs). split_and!; [done|by constructor|by constructor]. }
  destruct Hmap as [(rules & -> & Hf & H2)| ->].
  - left. exists rules. split_and!; [done..|]. intros _. eauto.
  - right. split; [done|]. eexists. split; [done|]. intros ? [= <-]. by rewrite Hr.
Qed.

(** *** Approvals are single-use *)

Inductive grant_op :=
  | Issue (fresh : uuid) (origin skill digest : string) (ttl_s : Z) (granted_by : option string) (at_ : time)
  | Consume (origin skill digest : string) (at_ : time).

(** What happened so far: the store, how many approvals of a key were issued and
    how many tasks it let through. *)
Record trace := mk_trace { tr_store : grants; tr_issued : nat; tr_passed : nat }.

Definition key_eqb (o s d o' s' d' : string) : bool :=
  String.eqb o' o && String.eqb s' s && String.eqb d' d.

Definition grant_step (o s d : string) (tr : trace) (op : grant_op) : trace :=
  match op with
  | Issue f o' s' d' ttl by_ now =>
      let '(r, st) := issue f o' s' d' ttl by_ now (tr_store tr) in
      mk_trace st (tr_issued tr + match r with Ok _ => Nat.b2n (key_eqb o s d o' s' d') | Raise _ => 0 end)
        (tr_passed tr)
  | Consume o' s' d' now =>
      let '(r, st) := consume o' s' d' now (tr_store tr) in
      mk_trace st (tr_issued tr)
        (tr_passed tr + match r with Ok true => Nat.b2n (key_eqb o s d o' s' d') | _ => 0 end)
  end.

Definition unused_for (o s d : string) (st : grants) : nat :=
  length (List.filter (λ g, for_key o s d g && unused g) st).

Lemma oldest_usable_Some o s d now st g : oldest_usable o s d now st = Some g →
  g ∈ st ∧ usable o s d now g = true.
Proof.
  unfold oldest_usable. intros H. apply head_Some_elem_of in H.
  by rewrite elem_of_py_sorted, list_elem_of_In, filter_In, <-list_elem_of_In in H.
Qed.

Lemma oldest_usable_None o s d now st : oldest_usable o s d now st = None →
  ∀ g, g ∈ st → usable o s d now g = false.
Proof.
  unfold oldest_usable. intros H g Hg. apply head_None in H. destruct (usable o s d now g) eqn:E; [|done].
  assert (Hin : g ∈ py_sorted (λ a b, gr_created a <=? gr_created b) (List.filter (usable o s d now) st))
    by (by rewrite elem_of_py_sorted, list_elem_of_In, filter_In, <-list_elem_of_In).
  rewrite H in Hin. by apply elem_of_nil in Hin.
Qed.

Lemma use_one o s d now st g : NoDup (gr_id <$> st) → g ∈ st → unused g = true →
  (unused_for o s d (map (λ x, if (gr_id x =? gr_id g)%N then use_grant now x else x) st)
   + Nat.b2n (for_key o s d g) = unused_for o s d st)%nat.
Proof.
  unfold unused_for. induction st as [|x st IH]; intros Hnd Hg Hun; [by apply elem_of_nil in Hg|].
  apply NoDup_cons in Hnd as [Hn Hnd]. simpl. apply elem_of_cons in Hg as [<-|Hg].
  - rewrite N.eqb_refl. unfold unused at 1. simpl. rewrite andb_false_r, Hun, andb_true_r.
    assert (E : map (λ x, if (gr_id x =? gr_id g)%N then use_grant now x else x) st = st).
    { rewrite <-(map_id st) at 2. apply map_ext_in. intros y Hy%list_elem_of_In.
      destruct (N.eqb_spec (gr_id y) (gr_id g)) as [Ey|]; [|done]. destruct Hn. simpl. rewrite <-Ey.
      by apply list_elem_of_fmap_2. }
    rewrite E. destruct (for_key o s d g); simpl; lia.
  - destruct (N.eqb_spec (gr_id x) (gr_id g)) as [Ex|]; [destruct Hn; simpl; rewrite Ex; by apply list_elem_of_fmap_2|].
    specialize (IH Hnd Hg Hun). destruct (for_key o s d x && unused x); simpl; lia.
Qed.

Lemma consume_ids o s d now st : gr_id <$> (consume o s d now st).2 = gr_id <$> st.
Proof.
  unfold consume. destruct (oldest_usable _ _ _ _ _) as [g|]; [|done]. simpl.
  change (map ?f st) with (f <$> st). rewrite <-list_fmap_compose. apply list_fmap_ext.
  intros _ x _. simpl. by destruct (_ =? _)%N.
Qed.

Lemma grant_step_ok o s d tr op : NoDup (gr_id <$> tr_store tr) →
  tr_issued tr = (tr_passed tr + unused_for o s d (tr_store tr))%nat →
  let tr' := grant_step o s d tr op in
  NoDup (gr_id <$> tr_store tr') ∧ tr_issued tr' = (tr_passed tr' + unused_for o s d (tr_store tr'))%nat.
Proof.
  intros Hnd Hc. destruct tr as [st n k], op as [f o' s' d' ttl by_ now|o' s' d' now]; simpl in *.
  - destruct (issue f o' s' d' ttl by_ now st) as [r st'] eqn:H.
    unfold issue, mbind, M_bind, mlift, mget, mguard, rguard, mmodify, mret, M_ret in H.
    destruct (dt_add now _) as [ex|e]; [|simplify_eq; simpl; split; [done|lia]].
    destruct (existsb _ st) eqn:Hex; simpl in H; simplify_eq; simpl; [split; [done|lia]|].
    split.
    + rewrite fmap_app. apply NoDup_app. split_and!; [done| |apply NoDup_singleton].
      intros i Hi [= ->]%list_elem_of_singleton. apply list_elem_of_fmap in Hi as (g & E & Hg).
      rewrite existsb_false_iff in Hex. specialize (Hex g Hg). by rewrite <-E, N.eqb_refl in Hex.
    + unfold unused_for. rewrite List.filter_app, length_app. simpl. rewrite andb_true_r.
      change (for_key o s d (mk_grant f o' s' d' by_ now ex None)) with (key_eqb o s d o' s' d').
      destruct (key_eqb o s d o' s' d'); simpl; lia.
  - pose proof (consume_ids o' s' d' now st) as Hids. unfold consume in *.
    destruct (oldest_usable o' s' d' now st) as [g|] eqn:Hg; simpl in *; [|split; [done|lia]].
    rewrite Hids. split; [done|]. apply oldest_usable_Some in Hg as [Hin Hu]. unfold usable in Hu.
    apply andb_true_iff in Hu as [[Hk Hun]%andb_true_iff _].
    assert (E : for_key o s d g = key_eqb o s d o' s' d').
    { unfold for_key, key_eqb in *. by apply andb_true_iff in Hk as
        [[->%String.eqb_eq ->%String.eqb_eq]%andb_true_iff ->%String.eqb_eq]. }
    rewrite <-E. pose proof (use_one o s d now st g Hnd Hin Hun). lia.
Qed.

(** C30: an approval lets exactly one task through. Along any sequence of issuing
    and consuming, the number of consumptions of a key that succeed never exceeds
    the number of approvals issued for it, the difference being those still
    unused; and a consumption succeeds exactly when an unused approval of that
    key has not expired. *)
Theorem approvals_are_single_use o s d ops :
  let tr := foldl (grant_step o s d) (mk_trace [] 0 0) ops in
  tr_issued tr = (tr_passed tr + unused_for o s d (tr_store tr))%nat
  ∧ ∀ now, ∃ b st, consume o s d now (tr_store tr) = (Ok b, st)
      ∧ (b = true ↔ ∃ g, g ∈ tr_store tr ∧ for_key o s d g = true ∧ gr_consumed g = None ∧ now < gr_expires g)
      ∧ (b = false → st = tr_store tr).
Proof.
  intros tr. split.
  - unfold tr. assert (H0 : NoDup (gr_id <$> tr_store (mk_trace [] 0 0)) ∧ tr_issued (mk_trace [] 0 0)
      = (tr_passed (mk_trace [] 0 0) + unused_for o s d (tr_store (mk_trace [] 0 0)))%nat)
      by (split; [constructor|done]).
    clear tr. revert H0. generalize (mk_trace [] 0 0) as tr0.
    induction ops as [|op ops IH]; intros tr0 [Hnd Hc]; [exact Hc|]. simpl. apply IH. by apply grant_step_ok.
  - intros now. unfold consume. destruct (oldest_usable o s d now (tr_store tr)) as [g|] eqn:Hg.
    + eexists _, _. split; [done|]. split; [|done]. split; [|done]. intros _.
      apply oldest_usable_Some in Hg as [Hin Hu]. exists g. unfold usable, unused in Hu.
      apply andb_true_iff in Hu as [[Hk Hun]%andb_true_iff Hx%Z.ltb_lt].
      by destruct (gr_consumed g).
    + eexists _, _. split; [done|]. split; [|done]. split; [done|]. intros (g & Hin & Hk & Hun & Hx).
      pose proof (oldest_usable_None _ _ _ _ _ Hg g Hin) as Hu. unfold usable, unused in Hu.
      rewrite Hk, Hun in Hu. simpl in Hu. lia.
Qed.
