(* ===== verification/Registry.v ===== *)
(** core/pulsar: the skill registry (registry.py), a dictionary of manifests kept in
    step with its table (sqlite_store.py).

    [manifest.model_dump] and [SkillManifest.model_validate] belong to the data
    library: they are parameters, with the law that a dumped manifest validates to
    itself. Choosing the backend from the configuration files is not modelled. *)

From S2P Require Import Prelude.
From S2P Require Import PyStr.
From S2P Require Import Json.
From S2P Require Import Fnmatch.
From S2P Require Import Contracts.
Open Scope Z_scope.

(** ** sqlite_store.py *)

Module Table.
Record row := mk_row {
  registry_key : string;
  row_agent : string;
  data_json : json }.

(** [_key]. *)
Definition key (agent : string) : string := "pulsar:agents:" +:+ agent.

(** INSERT ... ON CONFLICT(registry_key) DO UPDATE. *)
Fixpoint register_agent (agent : string) (metadata : json) (t : list row) : list row :=
  match t with
  | [] => [mk_row (key agent) agent metadata]
  | r :: t => if String.eqb (registry_key r) (key agent) then mk_row (key agent) agent metadata :: t
              else r :: register_agent agent metadata t
  end.

Definition store_get_agent (agent : string) (t : list row) : option json :=
  data_json <$> List.find (λ r, String.eqb (row_agent r) agent) t.

Definition store_list_agents (t : list row) : list json := map data_json t.

Definition deregister_agent (agent : string) (t : list row) : list row :=
  List.filter (λ r, negb (String.eqb (row_agent r) agent)) t.

(** [agent.get("skills", [])]. *)
Definition get_agent_skills (agent : string) (t : list row) : json :=
  match store_get_agent agent t with
  | Some (JObj d) => obj_default "skills" (JArr []) d
  | _ => JArr []
  end.
End Table.
#[global] Arguments Table.key : simpl never.

(** ** registry.py *)

(** [self._agents]: a dict in insertion order. *)
Abbreviation agents := (list (string * SkillManifest)) (only parsing).

Fixpoint dict_set (k : string) (m : SkillManifest) (d : agents) : agents :=
  match d with
  | [] => [(k, m)]
  | (k', m') :: d => if String.eqb k k' then (k, m) :: d else (k', m') :: dict_set k m d
  end.

Fixpoint dict_get (k : string) (d : agents) : option SkillManifest :=
  match d with
  | [] => None
  | (k', m) :: d => if String.eqb k k' then Some m else dict_get k d
  end.

Definition dict_pop (k : string) (d : agents) : agents :=
  List.filter (λ kv, negb (String.eqb kv.1 k)) d.

(** A registry: the dictionary and its table. *)
Record registry := mk_registry {
  rg_agents : agents;
  rg_store : list Table.row }.

Section Registry.
Context (model_dump : SkillManifest → json) (model_validate : json → result SkillManifest).

(** [__init__]: the dictionary rebuilt from the table. *)
Fixpoint load (d : agents) (data : list json) : result agents :=
  match data with
  | [] => Ok d
  | v :: data => m ← model_validate v; load (dict_set (agent_id m) m d) data
  end.

Definition open_registry (t : list Table.row) : result registry :=
  d ← load [] (Table.store_list_agents t);
  Ok (mk_registry d t).

Definition register (m : SkillManifest) (r : registry) : registry :=
  mk_registry (dict_set (agent_id m) m (rg_agents r))
    (Table.register_agent (agent_id m) (model_dump m) (rg_store r)).

Definition deregister (agent : string) (r : registry) : registry :=
  mk_registry (dict_pop agent (rg_agents r)) (Table.deregister_agent agent (rg_store r)).
End Registry.

Definition offers (skill : string) (origin : option string) (m : SkillManifest) : bool :=
  existsb (λ s, String.eqb (skill_id s) skill
    && match origin with None => true | Some o => permits s o end) (skills m).

Definition get_agents_for_skill (skill : string) (origin : option string) (r : registry) : list SkillManifest :=
  List.filter (offers skill origin) (map snd (rg_agents r)).

Definition get_agent (agent : string) (r : registry) : option SkillManifest := dict_get agent (rg_agents r).

Definition list_agents (r : registry) : list SkillManifest := map snd (rg_agents r).

Definition get_all_skills (r : registry) : list SkillDefinition :=
  List.concat (map (λ kv, skills kv.2) (rg_agents r)).

(** [health_check]: the number of skills and the sorted agent ids. *)
Definition health_check (r : registry) : nat * list string :=
  (foldl Nat.add 0%nat (map (λ kv, length (skills kv.2)) (rg_agents r)), py_sorted str_leb (map fst (rg_agents r))).

(** ** What the table holds of the dictionary *)

Section Durable.
Context (model_dump : SkillManifest → json) (model_validate : json → result SkillManifest).
Context (valid : SkillManifest → Prop).
Context (dump_validates : ∀ m, valid m → model_validate (model_dump m) = Ok m).

Definition row_of_agent (kv : string * SkillManifest) : Table.row :=
  Table.mk_row (Table.key kv.1) kv.1 (model_dump kv.2).

(** The table is the dictionary, row for row. *)
Record in_step (r : registry) : Prop := {
  is_rows : rg_store r = map row_of_agent (rg_agents r);
  is_keys : NoDup (rg_agents r).*1;
  is_ids : Forall (λ kv, agent_id kv.2 = kv.1 ∧ valid kv.2) (rg_agents r) }.

Lemma key_inj a b : Table.key a = Table.key b → a = b.
Proof. unfold Table.key. by intros [= ?]. Qed.

Lemma key_eqb a b : String.eqb (Table.key a) (Table.key b) = String.eqb a b.
Proof.
  destruct (String.eqb_spec a b) as [->|Hn]; [apply String.eqb_refl|].
  destruct (String.eqb_spec (Table.key a) (Table.key b)) as [?%key_inj|]; [done|done].
Qed.

Lemma dict_set_keys k m d : NoDup d.*1 → NoDup (dict_set k m d).*1 ∧ ∀ x, x ∈ (dict_set k m d).*1 ↔ x = k ∨ x ∈ d.*1.
Proof.
  induction d as [|[k' m'] d IH]; simpl; intros Hnd.
  { split; [apply NoDup_singleton|]. intros x. by rewrite list_elem_of_singleton, elem_of_nil; naive_solver. }
  apply NoDup_cons in Hnd as [Hn Hnd]. destruct (String.eqb_spec k k') as [->|Hne]; simpl.
  - split; [by constructor|]. intros x. rewrite !elem_of_cons. naive_solver.
  - destruct (IH Hnd) as [Hd Hx]. split.
    + constructor; [|done]. rewrite Hx. naive_solver.
    + intros x. rewrite !elem_of_cons, Hx. naive_solver.
Qed.

Lemma register_in_step m r : valid m → in_step r → in_step (register model_dump m r).
Proof.
  intros Hv. destruct r as [d t]. intros [Hrows Hkeys Hids]. simpl in *. split; simpl.
  - subst t. clear Hkeys Hids. induction d as [|[k' m'] d IH]; [done|].
    cbn [map row_of_agent Table.register_agent dict_set Table.registry_key fst snd].
    rewrite key_eqb, String.eqb_sym. destruct (String.eqb_spec (agent_id m) k') as [<-|]; simpl; [done|].
    by f_equal.
  - by apply dict_set_keys.
  - clear -Hids Hv. induction Hids as [|[k' m'] d Hk Hd IH]; simpl; [by repeat constructor|].
    destruct (String.eqb (agent_id m) k'); constructor; try done; by split.
Qed.

Lemma filter_keys (p : string → bool) (d : agents) : NoDup d.*1 → NoDup (List.filter (λ kv, p kv.1) d).*1.
Proof.
  induction d as [|[k m] d IH]; simpl; intros Hnd; [done|]. apply NoDup_cons in Hnd as [Hn Hnd].
  destruct (p k); simpl; [|by apply IH]. constructor; [|by apply IH].
  intros ([k2 m2] & E & Hin%list_elem_of_In)%list_elem_of_fmap. simpl in E. subst k2.
  apply filter_In in Hin as [Hin%list_elem_of_In _]. apply Hn. by apply (list_elem_of_fmap_2 fst _ _ Hin).
Qed.

Lemma deregister_in_step a r : in_step r → in_step (deregister a r).
Proof.
  destruct r as [d t]. intros [Hrows Hkeys Hids]. simpl in *. split; simpl.
  - subst t. unfold dict_pop, Table.deregister_agent. clear. induction d as [|[k m] d IH]; simpl; [done|].
    destruct (String.eqb k a); simpl; [done|]. by f_equal.
  - by apply (filter_keys (λ k, negb (String.eqb k a))).
  - unfold dict_pop. rewrite Forall_forall in *. intros x Hx%list_elem_of_In.
    apply filter_In in Hx as [Hx%list_elem_of_In _]. by apply Hids.
Qed.

(** Any sequence of registrations and deregistrations. *)
Inductive registered : registry → Prop :=
  | reg_empty : registered (mk_registry [] [])
  | reg_register m r : valid m → registered r → registered (register model_dump m r)
  | reg_deregister a r : registered r → registered (deregister a r).

Lemma registered_in_step r : registered r → in_step r.
Proof.
  induction 1; [by repeat constructor|by apply register_in_step|by apply deregister_in_step].
Qed.

Lemma dict_set_new k m d : k ∉ d.*1 → dict_set k m d = d ++ [(k, m)].
Proof.
  induction d as [|[k' m'] d IH]; simpl; [done|]. intros [Hne Hn]%not_elem_of_cons.
  destruct (String.eqb_spec k k'); [done|]. by rewrite IH.
Qed.

Lemma load_rows d : ∀ d0, NoDup (d0 ++ d).*1 → Forall (λ kv, agent_id kv.2 = kv.1 ∧ valid kv.2) d →
  load model_validate d0 (Table.store_list_agents (map row_of_agent d)) = Ok (d0 ++ d).
Proof.
  induction d as [|[k m] d IH]; intros d0 Hnd Hids; simpl; [by rewrite app_nil_r|].
  apply Forall_cons in Hids as [[Hk Hv] Hids]. simpl in Hk, Hv.
  rewrite dump_validates by done. unfold mbind, rbind. simpl. rewrite Hk, dict_set_new.
  - change ((k, m) :: d) with ([(k, m)] ++ d). rewrite app_assoc. apply IH; [|done].
    by rewrite <-app_assoc.
  - rewrite fmap_app in Hnd. apply NoDup_app in Hnd as (_ & Hdisj & _). intros Hin.
    apply (Hdisj _ Hin). simpl. by left.
Qed.

(** C31: the registry survives a restart. After any sequence of registrations and
    deregistrations, opening it again on its table gives back the same agents in
    the same order. *)
Theorem registry_survives_restart r : registered r → open_registry model_validate (rg_store r) = Ok r.
Proof.
  intros H%registered_in_step. destruct H as [Hrows Hkeys Hids]. unfold open_registry.
  rewrite Hrows, load_rows by done. simpl. rewrite <-Hrows. by destruct r.
Qed.

Lemma dict_get_Some k d m : NoDup d.*1 → dict_get k d = Some m ↔ (k, m) ∈ d.
Proof.
  induction d as [|[k' m'] d IH]; simpl; intros Hnd; [split; [done|by intros ?%elem_of_nil]|].
  apply NoDup_cons in Hnd as [Hn Hnd]. rewrite elem_of_cons.
  destruct (String.eqb_spec k k') as [->|Hne].
  - split; [intros [= ->]; by left|]. intros [[= ->]|Hin]; [done|]. destruct Hn.
    by apply (list_elem_of_fmap_2 fst _ _ Hin).
  - rewrite IH by done. naive_solver.
Qed.

Lemma get_agent_after o r a : in_step r →
  get_agent a (register model_dump o r) = if String.eqb a (agent_id o) then Some o else get_agent a r.
Proof.
  intros _. unfold get_agent, register. simpl. induction (rg_agents r) as [|[k m] d IH]; simpl.
  - by destruct (String.eqb a (agent_id o)).
  - destruct (String.eqb_spec (agent_id o) k) as [<-|Hne]; simpl.
    + by destruct (String.eqb a (agent_id o)).
    + rewrite IH. destruct (String.eqb_spec a k) as [->|]; [|done].
      destruct (String.eqb_spec k (agent_id o)); congruence.
Qed.

(** Routing sees exactly the agents that may serve an origin. An agent is
    returned for a skill and an origin precisely when it is registered under its id
    and one of its definitions of that skill is open to the origin; naming no
    origin only widens the answer, and an agent whose lists are all empty serves
    no named origin at all. *)
Theorem skill_lookup_respects_origins r skill o : registered r →
  (∀ m, m ∈ get_agents_for_skill skill (Some o) r ↔
     get_agent (agent_id m) r = Some m ∧ ∃ s, s ∈ skills m ∧ skill_id s = skill ∧ permits s o = true)
  ∧ (∀ m, m ∈ get_agents_for_skill skill (Some o) r → m ∈ get_agents_for_skill skill None r)
  ∧ (∀ m, (∀ s, s ∈ skills m → allowed_origins s = Some []) → m ∉ get_agents_for_skill skill (Some o) r).
Proof.
  intros H%registered_in_step. destruct H as [_ Hkeys Hids]. unfold get_agents_for_skill, get_agent.
  assert (Hin : ∀ m, m ∈ map snd (rg_agents r) ↔ dict_get (agent_id m) (rg_agents r) = Some m).
  { intros m. rewrite dict_get_Some by done. split.
    - intros ([k x] & -> & Hk)%list_elem_of_fmap. rewrite Forall_forall in Hids.
      destruct (Hids _ Hk) as [Hid _]. simpl in *. by rewrite Hid.
    - intros Hk. by apply (list_elem_of_fmap_2 snd _ _ Hk). }
  assert (Hoff : ∀ m, offers skill (Some o) m = true ↔ ∃ s, s ∈ skills m ∧ skill_id s = skill ∧ permits s o = true).
  { intros m. unfold offers. rewrite existsb_exists. setoid_rewrite <-list_elem_of_In.
    setoid_rewrite andb_true_iff. by setoid_rewrite String.eqb_eq. }
  split_and!.
  - intros m. by rewrite list_elem_of_In, filter_In, <-list_elem_of_In, Hin, Hoff.
  - intros m. rewrite !list_elem_of_In, !filter_In. intros [? Hm]. split; [done|]. unfold offers in *.
    apply existsb_exists in Hm as (s & Hs & Hm). apply existsb_exists. exists s. split; [done|].
    apply andb_true_iff in Hm as [-> _]. done.
  - intros m Hempty. rewrite list_elem_of_In, filter_In, Hoff. intros (_ & s & Hs & _ & Hp).
    unfold permits in Hp. by rewrite (Hempty s Hs) in Hp.
Qed.
End Durable.

(** *** Witnesses *)

Module RegistryDemo.
Definition skill : SkillDefinition := mk_Skill "s.a" "does a" [] [] (1#2) 100 (Some ["goal:*"]).
Definition manifest : SkillManifest := mk_Manifest "rigel" "Rigel" "1.0" [skill] "/health" 0 30.
(** A concrete serialisation that tells this manifest from nothing else. *)
Definition dump (m : SkillManifest) : json := JStr (agent_id m).
Definition validate (v : json) : result SkillManifest :=
  if is_str v "rigel" then Ok manifest else Raise ValueError.
Definition valid (m : SkillManifest) : Prop := m = manifest.
Definition state : registry := register dump manifest (mk_registry [] []).
End RegistryDemo.
Import RegistryDemo.

Lemma state_registered : registered dump valid state.
Proof. by repeat constructor. Qed.

Lemma registry_survives_restart_witness : open_registry validate (rg_store state) = Ok state.
Proof.
  apply (registry_survives_restart dump validate valid); [|apply state_registered].
  intros m Hm. rewrite Hm. vm_compute. reflexivity.
Defined.

Lemma skill_lookup_respects_origins_witness :
  manifest ∈ get_agents_for_skill "s.a" (Some "goal:7") state.
Proof.
  apply (proj1 (skill_lookup_respects_origins dump valid state "s.a" "goal:7" state_registered)).
  split; [reflexivity|]. exists skill. split_and!; [by left|reflexivity|vm_compute; reflexivity].
Defined.
