(* ===== verification/Nebula.v ===== *)
(** core/nebula/store.py: durable memories, recalled by namespace and by the words
    they share with a query. The table is the list of its rows in rowid order;
    tags are stored as the JSON list they are. *)

From S2P Require Import Prelude.
From S2P Require Import PyStr.
From S2P Require Import PyTime.
From S2P Require Import Json.
From S2P Require Import Contracts.
Open Scope Z_scope.

(** [MemoryEntry] (core/contracts/contracts.py). *)
Record MemoryEntry := mk_memory {
  memory_id : uuid;
  namespace : string;
  content : string;
  tags : list string;
  source_task_id : option uuid;
  m_created_at : time }.

Definition validate_memory (m : MemoryEntry) : result MemoryEntry :=
  ns ← validate_non_empty_str (namespace m);
  c ← validate_non_empty_str (content m);
  Ok (mk_memory (memory_id m) ns c (tags m) (source_task_id m) (m_created_at m)).

Definition max_skill_lessons : Z := 3.
Definition scan_limit : nat := 500.

Definition stopwords : list string :=
  ["the"; "a"; "an"; "and"; "or"; "of"; "to"; "in"; "on"; "for"; "with"; "is"; "are"; "was"; "be"; "this";
   "that"; "it"; "as"; "at"; "by"; "from"].

(** [_tokens]: a set, here without duplicates. *)
Definition tokens_of (text : string) : list string :=
  remove_dups
    (List.filter (λ t, (2 <? Z.of_nat (String.length t)) && negb (bool_decide (t ∈ stopwords)))
       (words (lower text))).

Definition remember (fresh : uuid) (ns text : string) (tgs : list string) (source : option uuid)
    (now : time) : M (list MemoryEntry) MemoryEntry :=
  entry ← mlift (validate_memory (mk_memory fresh ns text tgs source now));
  rows ← mget;
  mguard (negb (existsb (λ r, (memory_id r =? fresh)%N) rows)) IntegrityError;;
  mmodify (λ rows, rows ++ [entry]);;
  mret entry.

(** WHERE namespace IN (...) ORDER BY created_at DESC LIMIT 500. *)
Definition scan (namespaces : list string) (rows : list MemoryEntry) : list MemoryEntry :=
  take scan_limit (py_sorted (λ a b, m_created_at b <=? m_created_at a)
    (List.filter (λ r, bool_decide (namespace r ∈ namespaces)) rows)).

Definition overlap (wanted : list string) (e : MemoryEntry) : nat :=
  length (List.filter (λ t, bool_decide (t ∈ wanted)) (tokens_of (content e +:+ " " +:+ join " " (tags e)))).

Definition recall (namespaces : list string) (query : option string) (limit : Z)
    (rows : list MemoryEntry) : result (list MemoryEntry) :=
  match namespaces with
  | [] => Ok []
  | _ =>
      if limit <? 1 then Ok [] else
      entries ← rmap validate_memory (scan namespaces rows);
      let wanted := match query with
                    | Some q => if truthy_str q then tokens_of q else []
                    | None => [] end in
      match wanted with
      | [] => Ok (take (Z.to_nat limit) entries)
      | _ =>
          let scored := List.filter (λ p, negb (fst p =? 0)%nat) (map (λ e, (overlap wanted e, e)) entries) in
          Ok (take (Z.to_nat limit) (map snd (py_sorted (λ a b, (fst b <=? fst a)%nat) scored)))
      end
  end.

(** [list]. *)
Definition list_memories (ns : string) (limit : Z) (rows : list MemoryEntry) : result (list MemoryEntry) :=
  recall [ns] None limit rows.

Definition count_in (rows : list MemoryEntry) (ns : string) : nat :=
  length (List.filter (λ r, String.eqb (namespace r) ns) rows).

(** GROUP BY namespace ORDER BY count DESC, namespace. *)
Definition namespaces (rows : list MemoryEntry) : list (string * nat) :=
  py_sorted (λ a b, (snd b <? snd a)%nat || (snd a =? snd b)%nat && str_leb (fst a) (fst b))
    (map (λ ns, (ns, count_in rows ns)) (remove_dups (map namespace rows))).

(** [forget]: rowcount > 0. *)
Definition forget (m : uuid) (rows : list MemoryEntry) : bool * list MemoryEntry :=
  (existsb (λ r, (memory_id r =? m)%N) rows, List.filter (λ r, negb (memory_id r =? m)%N) rows).

(** ** Properties *)

(** A stored memory: what [remember] writes. *)
Definition stored (m : MemoryEntry) : Prop := validate_memory m = Ok m.

(** What [remember] writes reads back as it is: stripping is idempotent. *)
Lemma remember_stored f ns text tgs src now rows m rows' : Forall stored rows →
  remember f ns text tgs src now rows = (Ok m, rows') →
  rows' = rows ++ [m] ∧ stored m ∧ Forall stored rows'.
Proof.
  intros Hst H. unfold remember in H. apply mbind_ok in H as (e & r1 & He & H).
  unfold mlift in He. injection He as He <-. apply mbind_ok in H as (r2 & r3 & Hm & H).
  unfold mget in Hm. simplify_eq. apply mbind_ok in H as ([] & r4 & Hg & H).
  unfold mguard, mlift in Hg. injection Hg as _ <-. unfold mbind, M_bind, mmodify, mret, M_ret in H. simplify_eq.
  assert (Hs : stored m).
  { unfold stored, validate_memory in *. rok. unfold validate_non_empty_str in *. cbv zeta in *.
    cbn [namespace content] in *. destruct (truthy_str (strip ns)) eqn:E1, (truthy_str (strip text)) eqn:E2; simplify_eq.
    cbn [namespace content]. rewrite !strip_idemp, E1, E2. reflexivity. }
  split_and!; [done..|]. apply Forall_app. split; [done|]. by constructor.
Qed.

Lemma rmap_stored l : Forall stored l → rmap validate_memory l = Ok l.
Proof.
  induction 1 as [|m l Hm _ IH]; [done|]. simpl. unfold stored in Hm. rewrite Hm. simpl.
  unfold mbind, rbind at 1. by rewrite IH.
Qed.

Lemma scan_In nss rows e : e ∈ scan nss rows → e ∈ rows ∧ namespace e ∈ nss.
Proof.
  unfold scan. intros H%elem_of_take. destruct H as (i & H%list_elem_of_lookup_2 & _).
  rewrite elem_of_py_sorted, list_elem_of_In, filter_In, <-list_elem_of_In, bool_decide_eq_true in H. done.
Qed.

Definition wanted_by (query : option string) : list string :=
  match query with
  | Some q => if truthy_str q then tokens_of q else []
  | None => []
  end.

(** What a query asks for, and which of two entries answers it better. *)
Definition relevant (wanted : list string) (e : MemoryEntry) : Prop := wanted = [] ∨ (0 < overlap wanted e)%nat.
Definition at_least_as_good (wanted : list string) (x e : MemoryEntry) : Prop :=
  match wanted with
  | [] => m_created_at e <= m_created_at x
  | _ => (overlap wanted e <= overlap wanted x)%nat
  end.

Lemma scan_sorted nss rows : StronglySorted (λ a b, m_created_at b <= m_created_at a) (scan nss rows).
Proof.
  unfold scan. set (l := List.filter _ rows).
  assert (H : StronglySorted (λ a b, (m_created_at b <=? m_created_at a) = true)
    (py_sorted (λ a b, m_created_at b <=? m_created_at a) l)) by (apply py_sorted_sorted; intros; lia).
  rewrite <-(take_drop scan_limit (py_sorted _ l)) in H. apply StronglySorted_app_1_l in H.
  eapply StronglySorted_weaken; [|exact H]. simpl. intros. lia.
Qed.

Lemma top_of {A} (R : A → A → Prop) (l : list A) k e : StronglySorted R l → e ∈ l → e ∉ take k l →
  length (take k l) = k ∧ ∀ x, x ∈ take k l → R x e.
Proof.
  intros Hs He Hn. assert (Hd : e ∈ drop k l).
  { rewrite <-(take_drop k l), elem_of_app in He. by destruct He. }
  split; [|intros x Hx; rewrite <-(take_drop k l) in Hs; by eapply StronglySorted_app_1_elem_of].
  apply length_take_le.
  destruct (decide (k <= length l)%nat) as [|Hlt]; [done|]. rewrite drop_ge in Hd by lia. by apply elem_of_nil in Hd.
Qed.

(** Recall returns the best answers. Of the newest memories of the given
    namespaces it returns at most [limit]: all of them relevant to the query, and
    whatever relevant memory is left out, the limit is used up by memories that
    share at least as many of the query's words (or, without a query, are at least
    as recent). *)
Theorem recall_returns_the_best nss query limit rows : Forall stored rows → nss ≠ [] → 1 <= limit →
  let wanted := wanted_by query in
  ∃ out, recall nss query limit rows = Ok out ∧ Z.of_nat (length out) <= limit
  ∧ (∀ e, e ∈ out → e ∈ rows ∧ namespace e ∈ nss ∧ relevant wanted e)
  ∧ (∀ e, e ∈ scan nss rows → relevant wanted e → e ∉ out →
      Z.of_nat (length out) = limit ∧ ∀ x, x ∈ out → at_least_as_good wanted x e).
Proof.
  intros Hst Hns Hl wanted. unfold recall. destruct nss as [|ns nss]; [done|]. clear Hns.
  destruct (Z.ltb_spec limit 1); [lia|].
  rewrite rmap_stored.
  2: { apply Forall_forall. intros e He. apply scan_In in He as [He _]. by eapply Forall_forall in Hst. }
  simpl. fold (wanted_by query). fold wanted. pose proof (scan_sorted (ns :: nss) rows) as Hs.
  set (sc := scan (ns :: nss) rows) in *.
  assert (Hlen : ∀ A (l : list A), Z.of_nat (length (take (Z.to_nat limit) l)) <= limit)
    by (intros; rewrite length_take; lia).
  assert (Htop : ∀ A (R : A → A → Prop) (l : list A) e, StronglySorted R l → e ∈ l → e ∉ take (Z.to_nat limit) l →
    Z.of_nat (length (take (Z.to_nat limit) l)) = limit ∧ ∀ x, x ∈ take (Z.to_nat limit) l → R x e).
  { intros A R l e HR He Hn. destruct (top_of R l _ e HR He Hn) as [-> ?]. split; [lia|done]. }
  assert (Hsub : ∀ A (l : list A) x, x ∈ take (Z.to_nat limit) l → x ∈ l).
  { intros A l x Hx. rewrite <-(take_drop (Z.to_nat limit) l). apply elem_of_app. by left. }
  unfold relevant, at_least_as_good.
  destruct wanted as [|t ts] eqn:Hw.
  { eexists. split; [done|]. split_and!; [apply Hlen| |].
    - intros e He%Hsub. destruct (scan_In _ _ _ He). auto.
    - intros e He _ Hn. by apply (Htop _ (λ a b, m_created_at b <= m_created_at a)). }
  rewrite <-Hw. set (scored := List.filter _ _). set (ranked := py_sorted _ scored).
  assert (Hr : StronglySorted (λ a b : nat * MemoryEntry, (fst b <= fst a)%nat) ranked).
  { eapply StronglySorted_weaken; [|apply py_sorted_sorted]; cbv beta; intros;
      rewrite ?Nat.leb_le in *; lia. }
  assert (Hin : ∀ p, p ∈ ranked ↔ ∃ e, e ∈ sc ∧ p = (overlap wanted e, e) ∧ (0 < overlap wanted e)%nat).
  { intros p. unfold ranked, scored. rewrite elem_of_py_sorted, list_elem_of_In, filter_In, in_map_iff.
    setoid_rewrite <-list_elem_of_In. split.
    - intros [(e & <- & He) Hp]. exists e. split_and!; [done..|]. apply negb_true_iff, Nat.eqb_neq in Hp. simpl in Hp. lia.
    - intros (e & He & -> & Hp). split; [eauto|]. apply negb_true_iff, Nat.eqb_neq. simpl. lia. }
  rewrite firstn_map. eexists. split; [done|]. split_and!; [by rewrite length_map; apply Hlen| |].
  - intros e ([n x] & E & Hx%Hsub%Hin)%list_elem_of_fmap. simpl in E. subst x.
    destruct Hx as (e' & He & [= -> <-] & Hp). destruct (scan_In _ _ _ He). auto.
  - intros e He Hrel Hn. destruct Hrel as [|Hp]; [congruence|]. rewrite length_map.
    assert (Hnr : (overlap wanted e, e) ∉ take (Z.to_nat limit) ranked).
    { intros Hx. apply Hn. by apply (list_elem_of_fmap_2 snd _ _ Hx). }
    destruct (Htop _ _ ranked (overlap wanted e, e) Hr) as [-> Hbest]; [apply Hin; eauto|done|].
    split; [done|]. intros x ([n y] & E & Hx)%list_elem_of_fmap. simpl in E. subst y.
    specialize (Hbest _ Hx). apply Hsub, Hin in Hx as (e' & _ & [= -> <-] & _). rewrite Hw. rewrite <-Hw.
    exact Hbest.
Qed.

Definition demo_memories : list MemoryEntry :=
  [mk_memory 1 "global" "retry the flaky upload" ["upload"] None 10;
   mk_memory 2 "goal:7" "use the staging database" [] None 20;
   mk_memory 3 "global" "upload retries need backoff" [] None 30].

Lemma recall_returns_the_best_witness :
  ∃ out, recall ["global"] (Some "retry upload") 1 demo_memories = Ok out
  ∧ memory_id <$> out = [1%N] ∧ ∀ e, e ∈ out → namespace e ∈ ["global"].
Proof.
  assert (Hs : Forall stored demo_memories) by (repeat constructor).
  assert (Hn : ["global"] ≠ []) by discriminate.
  destruct (recall_returns_the_best ["global"] (Some "retry upload") 1 demo_memories Hs Hn ltac:(lia))
    as (out & E & _ & Hin & _).
  exists out. split; [exact E|]. split; [|intros e He; apply (Hin e He)].
  vm_compute in E. injection E as <-. reflexivity.
Defined.
