(* ===== verification/RoutingState.v ===== *)
(** agents/andromeda/state.py: the state a task is routed with, and what merging
    the dictionary a routing step returns does to it.

    A step returns some fields; the ones an agent supplies arrive as JSON and are
    validated against the declared types when they are merged. *)

From S2P Require Import Prelude.
From S2P Require Import PyStr.
From S2P Require Import Json.
From S2P Require Import Contracts.
Open Scope Z_scope.

(** What a routing is asked for. *)
Record request := mk_request {
  rq_task_id : string;
  rq_origin : option string;
  rq_task_type : string;
  required_skills : list string;
  rq_priority : string;
  rq_payload : jdict;
  rq_context : jdict;
  timeout_ms : Z;
  rq_threshold : option Q }.

Record AndromedaState := mk_state {
  st_request : request;
  matched_agents : list string;
  assigned_agent : option string;
  assignment_reason : string;
  s_result : option jdict;
  s_confidence : option Q;
  confidence_breakdown : option jdict;
  s_gaps : list string;
  s_status : string;
  retry_count : Z;
  failure_reason : option string;
  escalated_to_human : bool;
  issued_at : string;
  completed_at : option string }.

Definition initial_state (r : request) (st issued : string) : AndromedaState :=
  mk_state r [] None "" None None None [] st 0 None false issued None.

(** The validators. *)
Definition validate_request (r : request) : result request :=
  t ← validate_non_empty_str (rq_task_id r);
  ty ← validate_non_empty_str (rq_task_type r);
  p ← validate_non_empty_str (rq_priority r);
  rguard (0 <=? timeout_ms r) ValueError;;
  rguard (match rq_threshold r with Some q => unit_interval q | None => true end) ValueError;;
  Ok (mk_request t (rq_origin r) ty (required_skills r) p (rq_payload r) (rq_context r) (timeout_ms r)
        (rq_threshold r)).

(** A key of a returned dictionary. *)
Inductive update :=
  | U_matched (l : list string)
  | U_assigned (a : option string)
  | U_reason (s : string)
  | U_result (v : json)
  | U_confidence (v : json)
  | U_breakdown (v : json)
  | U_gaps (v : json)
  | U_status (s : string)
  | U_retry (n : Z)
  | U_failure (v : json)
  | U_escalated (b : bool)
  | U_issued (s : string)
  | U_completed (s : string).

(** *** What a JSON value becomes in a typed field *)

Definition dict_or_none (v : json) : result (option jdict) :=
  match v with JNull => Ok None | JObj d => Ok (Some d) | _ => Raise ValueError end.

(** Numeric text, which the data library also accepts, is not represented. *)
Definition unit_or_none (v : json) : result (option Q) :=
  match v with
  | JNull => Ok None
  | JStr _ | JArr _ | JObj _ => Raise ValueError
  | _ => q ← jnum v; if unit_interval q then Ok (Some q) else Raise ValueError
  end.

Definition str_or_none (v : json) : result (option string) :=
  match v with JNull => Ok None | JStr s => Ok (Some s) | _ => Raise ValueError end.

Definition str_list (v : json) : result (list string) :=
  match v with
  | JArr l => rmap (λ x, match x with JStr s => Ok s | _ => Raise ValueError end) l
  | _ => Raise ValueError
  end.

Definition set_update (u : update) (s : AndromedaState) : result AndromedaState :=
  let '(mk_state r m a why res c b g st n f e i d) := s in
  match u with
  | U_matched v => Ok (mk_state r v a why res c b g st n f e i d)
  | U_assigned v => Ok (mk_state r m v why res c b g st n f e i d)
  | U_reason v => Ok (mk_state r m a v res c b g st n f e i d)
  | U_result v => v ← dict_or_none v; Ok (mk_state r m a why v c b g st n f e i d)
  | U_confidence v => v ← unit_or_none v; Ok (mk_state r m a why res v b g st n f e i d)
  | U_breakdown v => v ← dict_or_none v; Ok (mk_state r m a why res c v g st n f e i d)
  | U_gaps v => v ← str_list v; Ok (mk_state r m a why res c b v st n f e i d)
  | U_status v => v ← validate_non_empty_str v; Ok (mk_state r m a why res c b g v n f e i d)
  | U_retry v => rguard (0 <=? v) ValueError;; Ok (mk_state r m a why res c b g st v f e i d)
  | U_failure v => v ← str_or_none v; Ok (mk_state r m a why res c b g st n v e i d)
  | U_escalated v => Ok (mk_state r m a why res c b g st n f v i d)
  | U_issued v => v ← validate_non_empty_str v; Ok (mk_state r m a why res c b g st n f e v d)
  | U_completed v => Ok (mk_state r m a why res c b g st n f e i (Some v))
  end.

(** The state after a step returned these fields. *)
Fixpoint merge (us : list update) (s : AndromedaState) : result AndromedaState :=
  match us with
  | [] => Ok s
  | u :: us => s ← set_update u s; merge us s
  end.

Lemma merge_request us : ∀ s s', merge us s = Ok s' → st_request s' = st_request s.
Proof.
  induction us as [|u us IH]; intros s s' H; simpl in H; [by simplify_eq|].
  apply rbind_ok in H as (s1 & H1 & H). rewrite (IH _ _ H).
  destruct s, u; simpl in H1; rok; done.
Qed.

(** ** Types *)

(** The constraints the model declares, on a state that holds validated values. *)
Record well_typed (s : AndromedaState) : Prop := {
  wt_request : validate_request (st_request s) = Ok (st_request s);
  wt_confidence : ∀ q, s_confidence s = Some q → unit_interval q = true;
  wt_retry : 0 <= retry_count s;
  wt_status : validate_non_empty_str (s_status s) = Ok (s_status s);
  wt_issued : validate_non_empty_str (issued_at s) = Ok (issued_at s) }.

Lemma validated_again v v' : validate_non_empty_str v = Ok v' → validate_non_empty_str v' = Ok v'.
Proof.
  unfold validate_non_empty_str. cbv zeta. destruct (truthy_str (strip v)) eqn:E; [|done].
  intros [= <-]. by rewrite strip_idemp, E.
Qed.

Lemma unit_or_none_ok v q : unit_or_none v = Ok (Some q) → unit_interval q = true.
Proof.
  unfold unit_or_none. intros H. destruct v; try done; apply rbind_ok in H as (x & _ & H);
    destruct (unit_interval x) eqn:E; by simplify_eq.
Qed.

Lemma set_update_typed u s s' : set_update u s = Ok s' → well_typed s → well_typed s'.
Proof.
  intros H [Hr Hc Hn Hs Hi]. destruct s, u; simpl in *; rok; split; simpl in *; try done.
  - intros q ->. by eapply unit_or_none_ok.
  - by eapply validated_again.
  - by apply Z.leb_le.
  - by eapply validated_again.
Qed.

Lemma merge_typed us : ∀ s s', merge us s = Ok s' → well_typed s → well_typed s'.
Proof.
  induction us as [|u us IH]; simpl; intros s s' H Hs; [by injection H as <-|].
  apply rbind_ok in H as (s1 & H1 & H). eapply IH; [done|]. by eapply set_update_typed.
Qed.
