(* ===== verification/TaskLog.v ===== *)
(** agents/andromeda/task_log.py: the log of routed tasks, one row per task and
    status. The table is the list of its rows in rowid order: an upsert rewrites a
    row where it stands. *)

From S2P Require Import Prelude.
From S2P Require Import PyStr.
From S2P Require Import PyTime.
From S2P Require Import Json.
From S2P Require Import RoutingState.
Open Scope Z_scope.

Record log_row := mk_log {
  l_task : string;
  l_task_type : option string;
  l_agent : option string;
  l_status : string;
  l_confidence : option Q;
  l_retry : Z;
  l_escalated : bool;
  l_failure : option string;
  l_issued : option string;
  l_completed : option string;
  l_payload : jdict;
  l_result : jdict }.

Definition same_key (a b : log_row) : bool :=
  String.eqb (l_task a) (l_task b) && String.eqb (l_status a) (l_status b).

(** [_UPSERT]: ON CONFLICT(task_id, status) DO UPDATE. *)
Fixpoint upsert (r : log_row) (t : list log_row) : list log_row :=
  match t with
  | [] => [r]
  | x :: t => if same_key x r then r :: t else x :: upsert r t
  end.

Definition row_of_state (s : AndromedaState) : log_row :=
  mk_log (rq_task_id (st_request s)) (Some (rq_task_type (st_request s))) (assigned_agent s) (s_status s)
    (s_confidence s) (retry_count s) (escalated_to_human s) (failure_reason s) (Some (issued_at s))
    (completed_at s) (rq_payload (st_request s)) (or_else (s_result s) []).

Definition write (s : AndromedaState) (t : list log_row) : list log_row := upsert (row_of_state s) t.

(** ORDER BY rowid DESC LIMIT 1. *)
Definition get (task : string) (t : list log_row) : option log_row :=
  List.find (λ r, String.eqb (l_task r) task) (rev t).

Definition update_status (task : string) (task_type : option string) (new_status : string) (now : time) (t : list log_row) : list log_row :=
  upsert (mk_log task task_type None new_status None 0 false None None (Some (iso now)) [] []) t.

(** ORDER BY issued_at DESC LIMIT ?: a row without a time comes last. *)
Definition issued_leb (a b : log_row) : bool :=
  match l_issued a, l_issued b with
  | Some x, Some y => str_leb y x
  | Some _, None => true
  | None, Some _ => false
  | None, None => true
  end.
Definition recent (limit : nat) (t : list log_row) : list log_row := take limit (py_sorted issued_leb t).

(** [datetime('now', '-h hours')]: a date and a time separated by a space. *)
Definition sql_datetime (t : time) : string :=
  let d := of_us t in
  let p w z := pad w (Z.to_N z) in
  p 4%nat (dt_year d) +:+ "-" +:+ p 2%nat (dt_month d) +:+ "-" +:+ p 2%nat (dt_day d)
  +:+ " " +:+ p 2%nat (dt_hour d) +:+ ":" +:+ p 2%nat (dt_minute d) +:+ ":" +:+ p 2%nat (dt_second d).

(** The WHERE clause of [throughput]. *)
Definition in_window (hours : Z) (now : time) (r : log_row) : bool :=
  match l_issued r with
  | Some i => str_leb (sql_datetime (now - hours * 3600000000)) i
  | None => false
  end && bool_decide (l_status r ∈ ["complete"; "failed"; "escalated"]).

(** [strftime('%Y-%m-%dT%H:00', ...)] of a timestamp in UTC. *)
Definition hour_of (issued : string) : string := String.substring 0 13 issued +:+ ":00".

Definition throughput (hours : Z) (now : time) (t : list log_row) : list (string * nat) :=
  let buckets := map (λ r, hour_of (or_else (l_issued r) "")) (List.filter (in_window hours now) t) in
  map (λ b, (b, length (List.filter (String.eqb b) buckets))) (py_sorted str_leb (remove_dups buckets)).

Record log_stats := mk_log_stats {
  ls_total : nat;
  ls_complete : nat;
  ls_failed : nat;
  ls_escalated : nat }.

Definition count_log (st : string) (t : list log_row) : nat :=
  length (List.filter (λ r, String.eqb (l_status r) st) t).

(** [TaskLog.stats]. *)
Definition log_summary (t : list log_row) : log_stats :=
  mk_log_stats (length t) (count_log "complete" t) (count_log "failed" t) (count_log "escalated" t).

(** ** Properties *)

Definition key_of_row (r : log_row) : string * string := (l_task r, l_status r).

Lemma same_key_eq a b : same_key a b = true ↔ key_of_row a = key_of_row b.
Proof.
  unfold same_key, key_of_row. rewrite andb_true_iff, !String.eqb_eq. split; [by intros [-> ->]|by intros [= -> ->]].
Qed.

Lemma upsert_In r t x : NoDup (key_of_row <$> t) →
  x ∈ upsert r t ↔ x = r ∨ x ∈ t ∧ key_of_row x ≠ key_of_row r.
Proof.
  induction t as [|y t IH]; simpl; intros Hnd.
  { rewrite list_elem_of_singleton. split; [auto|]. intros [|[?%elem_of_nil _]]; done. }
  apply NoDup_cons in Hnd as [Hn Hnd]. destruct (same_key y r) eqn:E.
  - apply same_key_eq in E. rewrite !elem_of_cons. split.
    + intros [|Hx]; [auto|]. right. split; [auto|]. intros Ek. destruct Hn. rewrite E, <-Ek. by apply list_elem_of_fmap_2.
    + intros [|[[-> |Hx] Hk]]; auto. congruence.
  - assert (Hy : key_of_row y ≠ key_of_row r) by (intros Hk; by apply same_key_eq in Hk; congruence).
    rewrite !elem_of_cons, IH by done. naive_solver.
Qed.

Lemma upsert_keys r t : NoDup (key_of_row <$> t) → NoDup (key_of_row <$> upsert r t).
Proof.
  induction t as [|y t IH]; simpl; intros Hnd; [apply NoDup_singleton|].
  apply NoDup_cons in Hnd as [Hn Hnd]. destruct (same_key y r) eqn:E; simpl.
  - apply same_key_eq in E. constructor; [by rewrite <-E|done].
  - constructor; [|by apply IH]. intros (x & Ek & Hx)%list_elem_of_fmap. apply upsert_In in Hx as [-> |[Hx _]]; [|..|done].
    + by apply same_key_eq in Ek; congruence.
    + destruct Hn. rewrite Ek. by apply list_elem_of_fmap_2.
Qed.

Lemma upsert_elem r t : r ∈ upsert r t.
Proof. induction t as [|x t IH]; simpl; [by left|]. destruct (same_key x r); [by left|by right]. Qed.

(** A log some sequence of calls wrote. *)
Inductive logged : list log_row → Prop :=
  | log_empty : logged []
  | log_write s t : logged t → logged (write s t)
  | log_update task ty st now t : logged t → logged (update_status task ty st now t).

Lemma logged_keys t : logged t → NoDup (key_of_row <$> t).
Proof. induction 1; [constructor|by apply upsert_keys..]. Qed.

Lemma upsert_new r t : key_of_row r ∉ key_of_row <$> t → upsert r t = t ++ [r].
Proof.
  induction t as [|y t IH]; simpl; [done|]. intros [Hne Hn]%not_elem_of_cons.
  destruct (same_key y r) eqn:E; [apply same_key_eq in E; congruence|]. by rewrite IH.
Qed.

(** The log keeps one row per task and status, the last one written. Writing a
    state leaves exactly its row under its task and status and every other row as
    it was; when the task reaches that status for the first time, [get] returns
    the row just written. *)
Theorem log_keeps_latest_per_status s t : logged t →
  let t' := write s t in
  (∀ x, x ∈ t' ↔ x = row_of_state s ∨ x ∈ t ∧ key_of_row x ≠ key_of_row (row_of_state s))
  ∧ NoDup (key_of_row <$> t')
  ∧ ((∀ x, x ∈ t → key_of_row x ≠ key_of_row (row_of_state s)) →
      get (rq_task_id (st_request s)) t' = Some (row_of_state s)).
Proof.
  intros Hl%logged_keys t'. split_and!; [intros x; by apply upsert_In|by apply upsert_keys|].
  intros Hnew. unfold t', get, write. rewrite upsert_new, rev_app_distr.
  - simpl. by rewrite String.eqb_refl.
  - intros (x & E & Hx)%list_elem_of_fmap. by apply (Hnew x Hx).
Qed.

Definition demo_request : request :=
  mk_request "t1" (Some "user") "build" ["s.a"] "NORMAL" [] [] 30000 None.

Lemma log_keeps_latest_per_status_witness :
  l_status <$> get "t1" (write (initial_state demo_request "complete" "i2")
    (write (initial_state demo_request "received" "i1") [])) = Some "complete".
Proof.
  assert (Hl : logged (write (initial_state demo_request "received" "i1") [])) by (repeat constructor).
  refine (f_equal (fmap l_status)
    (proj2 (proj2 (log_keeps_latest_per_status (initial_state demo_request "complete" "i2") _ Hl)) _)).
  intros x [-> |?%elem_of_nil]%elem_of_cons; [discriminate|done].
Defined.

(** A status reached a second time is written where it stood: [get] then returns
    an older state of the task. *)
Example get_misses_a_repeated_status :
  l_status <$> get "t1" (update_status "t1" (Some "build") "received" 5
    (write (initial_state demo_request "complete" "i2") (write (initial_state demo_request "received" "i1") [])))
  = Some "complete".
Proof. reflexivity. Qed.

(** The window of [throughput] compares a text with a [T] to one with a space, so
    it reaches back to the midnight before the instant asked for: a task issued
    thirty-five hours ago is counted in the last twenty-four. *)
Definition issued_35h_ago : AndromedaState :=
  initial_state demo_request "complete" (iso (63900054000000000 - 35 * 3600000000)).
Example throughput_counts_older_tasks :
  iso 63900054000000000 = "2025-11-29T23:00:00+00:00"
  ∧ length (throughput 24 63900054000000000 (write issued_35h_ago [])) = 1%nat.
Proof. vm_compute. split; reflexivity. Qed.
