(* ===== verification/Orchestrator.v ===== *)
(** agents/andromeda/orchestrator.py and nodes.py: the routing graph a task is
    driven through, with the routing weights of orion/core/weights_loader.py.

    A node is a function from the state to the fields it returns; the graph
    library merges them into the state, validates it, and follows the edge. The
    registry is read at one instant. An agent is an argument: its [run] answers
    with a dictionary or with the text of the exception it raised. *)

From S2P Require Import Prelude.
From S2P Require Import PyStr.
From S2P Require Import PyTime.
From S2P Require Import Json.
From S2P Require Import Contracts.
From S2P Require Import Policy.
From S2P Require Import Registry.
From S2P Require Import RoutingState.
Open Scope Z_scope.

(** ** Routing weights *)

(** [float(v)]; [float_text] is [float] of a string. *)
Definition py_float (float_text : string → result Q) (v : json) : result Q :=
  match v with JStr s => float_text s | _ => jnum v end.

(** [RoutingWeightsLoader.get_weights] on the loaded mapping. *)
Definition get_weights (float_text : string → result Q) (data : jdict) (skill : string) :
    result (list (string * Q)) :=
  match obj_default "weights" (JObj []) data with
  | JObj ws =>
      match obj_default skill (JObj []) ws with
      | JObj w => rmap (λ kv, q ← py_float float_text kv.2; Ok (kv.1, q)) w
      | _ => Ok []
      end
  | _ => Raise AttributeError
  end.

(** [weights.get(agent, 0.0)]. *)
Fixpoint weight_of (a : string) (w : list (string * Q)) : Q :=
  match w with
  | [] => 0%Q
  | (k, q) :: w => if String.eqb a k then q else weight_of a w
  end.

(** f"{q:.2f}". *)
Definition fmt2 (q : Q) : string :=
  let n := round_div (Z.abs (Qnum q) * 100) (Zpos (Qden q)) in
  (if Qnum q <? 0 then "-" else "") +:+ py_int (n / 100) +:+ "." +:+ pad 2 (Z.to_N (n mod 100)).

(** ** The skill-match node *)

Section Match.
Context (float_text : string → result Q) (weights : jdict) (reg : registry).

(** [agent_ids]: a set, here without duplicates. *)
Definition ids_for (skill : string) (origin : option string) : list string :=
  remove_dups (map agent_id (get_agents_for_skill skill origin reg)).

(** [origin_blocked]. *)
Definition blocked_skill (origin : option string) (skill : string) : bool :=
  match ids_for skill origin, origin, ids_for skill None with
  | [], Some _, _ :: _ => true
  | _, _, _ => false
  end.

(** The sorted intersection of the sets. *)
Definition capable (required : list string) (origin : option string) : list string :=
  match map (λ s, ids_for s origin) required with
  | [] => []
  | first :: others =>
      py_sorted str_leb (List.filter (λ a, forallb (λ l, bool_decide (a ∈ l)) others) first)
  end.

(** [weighted_scores.get(agent, 0.0)] once every required skill has been added. *)
Definition weighted_score (origin : option string) (table : list (string * list (string * Q))) (a : string) : Q :=
  foldl (λ acc sw, if bool_decide (a ∈ ids_for sw.1 origin) then (acc + weight_of a sw.2)%Q else acc)
    0%Q table.

(** [max(xs, key=score)]: the first of the largest. *)
Fixpoint first_max (score : string → Q) (best : string) (l : list string) : string :=
  match l with
  | [] => best
  | a :: l => first_max score (if Qltb (score best) (score a) then a else best) l
  end.

Definition skill_match_node (s : AndromedaState) : result (list update) :=
  let required := required_skills (st_request s) in
  let origin := rq_origin (st_request s) in
  table ← rmap (λ sk, w ← get_weights float_text weights sk; Ok (sk, w)) required;
  match capable required origin with
  | [] =>
      Ok [U_matched []; U_status "no_agent_found";
          U_failure (JStr (if existsb (blocked_skill origin) required
                           then "origin_not_allowed" else "no_skill_match"))]
  | a :: rest =>
      if existsb (λ sw, match sw.2 with [] => false | _ => true end) table then
        let score := weighted_score origin table in
        let selected := first_max score a rest in
        let weight := (score selected / inject_Z (Z.max (Z.of_nat (length required)) 1))%Q in
        Ok [U_matched [selected];
            U_reason ("skill_match: selected " +:+ selected +:+ " (routing_weight=" +:+ fmt2 weight +:+ ")")]
      else
        Ok [U_matched (a :: rest);
            U_reason ("skill_match: found " +:+ py_int (Z.of_nat (length (a :: rest))) +:+ " agents")]
  end.

(** ** The other nodes *)

(** [_score_agent_for_skills]: the mean confidence the agent declares. *)
Definition first_confidence (m : SkillManifest) (skill : string) : option Q :=
  avg_confidence <$> List.find (λ d, String.eqb (skill_id d) skill) (skills m).

Definition score_agent (required : list string) (a : string) : Q :=
  match get_agent a reg with
  | None => 0%Q
  | Some m =>
      match omap (first_confidence m) required with
      | [] => 0%Q
      | scores => (foldl Qplus 0 scores / inject_Z (Z.of_nat (length scores)))%Q
      end
  end.

(** [sorted(matched, key=score, reverse=True)], which keeps the order of ties. *)
Definition load_check_node (s : AndromedaState) : list update :=
  match matched_agents s with
  | [] => [U_status "no_agent_found"; U_failure (JStr "no_agents_available")]
  | m :: ms =>
      let score := score_agent (required_skills (st_request s)) in
      let ranked := py_sorted (λ a b, Qle_bool (score b) (score a)) (m :: ms) in
      let selected := or_else (head ranked) m in
      [U_assigned (Some selected);
       U_reason (assignment_reason s +:+ " -> load_check: selected " +:+ selected
                 +:+ " (avg_confidence=" +:+ fmt2 (score selected) +:+ ")")]
  end.
End Match.

Definition assign_node (now : time) (s : AndromedaState) : list update :=
  [U_status "assigned"; U_issued (if truthy_str (issued_at s) then issued_at s else iso now)].

(** [state.get("confidence") or 0.0]. *)
Definition confidence_of (s : AndromedaState) : Q := or_else (s_confidence s) 0%Q.

Definition handle_failure_node (s : AndromedaState) : list update :=
  if (retry_count s <? 1) && Qle_bool (60 # 100) (confidence_of s)
  then [U_retry (retry_count s + 1); U_status "routing"]
  else [U_escalated true; U_status "escalated"].

(** [arrow] is the right arrow of the text, which is no code point below 256. *)
Definition escalate_node (arrow : string) (now : time) (s : AndromedaState) : list update :=
  [U_status "escalated"; U_escalated true; U_completed (iso now);
   U_reason (assignment_reason s +:+ " " +:+ arrow +:+ " escalated: " +:+ or_else (failure_reason s) "None")].

Definition complete_node (now : time) (s : AndromedaState) : list update :=
  [U_status "complete"; U_completed (iso now)].

Definition no_agent_found_node (now : time) (s : AndromedaState) : list update :=
  [U_status "no_agent_found"; U_completed (iso now);
   U_failure (match failure_reason s with Some r => JStr r | None => JNull end)].

(** ** The policy node *)

Section PolicyNode.
Context (rules : PolicyEngine) (digest : option string → string → jdict → string).

(** The first loop: a denial, or the decisions that hold the task. *)
Fixpoint held_skills (origin : option string) (required : list string) :
    PolicyDecision + list (string * PolicyDecision) :=
  match required with
  | [] => inr []
  | sk :: required =>
      let d := evaluate_skill rules sk origin in
      match d_action d, held_skills origin required with
      | DENY, _ => inl d
      | _, inl d' => inl d'
      | REQUIRE_REVIEW, inr held => inr ((sk, d) :: held)
      | ALLOW, inr held => inr held
      end
  end.

Definition denial (d : PolicyDecision) : list update :=
  [U_failure (JStr "policy_denied"); U_reason ("policy denied: " +:+ d_reason d);
   U_gaps (JArr [JStr (d_reason d)])].

Definition hold (origin : option string) (skill digest : string) (d : PolicyDecision) : list update :=
  [U_failure (JStr "policy_requires_review"); U_reason ("policy requires review: " +:+ d_reason d);
   U_gaps (JArr [JStr (d_reason d)]);
   U_result (JObj [("policy_hold", JObj
     [("origin", JStr (or_else origin "")); ("skill", JStr skill); ("digest", JStr digest);
      ("reason", JStr (d_reason d));
      ("rule_index", match d_rule d with Some i => JInt i | None => JNull end)])])].

(** The second loop: every held skill consumes an approval, or holds the task. *)
Fixpoint consume_held (now : time) (r : request) (held : list (string * PolicyDecision)) :
    M (list grant) (list update) :=
  match held with
  | [] => mret []
  | (sk, d) :: held =>
      let dg := digest (rq_origin r) sk (rq_payload r) in
      ok ← consume (or_else (rq_origin r) "") sk dg now;
      if (ok : bool) then consume_held now r held else mret (hold (rq_origin r) sk dg d)
  end.

Definition policy_node (now : time) (s : AndromedaState) : M (list grant) (list update) :=
  let r := st_request s in
  if negb (enabled rules) then mret [] else
  match held_skills (rq_origin r) (required_skills r) with
  | inl d => mret (denial d)
  | inr held => consume_held now r held
  end.
End PolicyNode.

(** ** Executing *)

Abbreviation agent_run R := (string → jdict → jdict → R → (string + jdict) * R) (only parsing).

Definition failed_run (reason : string) : list update :=
  [U_status "failed"; U_failure (JStr reason); U_confidence (JFloat 0)].

(** What the node keeps of an agent's answer; the other keys are no fields of the
    state and are dropped when they are merged. *)
Definition agent_updates (res : jdict) : list update :=
  if is_str (obj_field "failure_reason" res) "execution_sandbox_unavailable" then
    [U_result (JObj res); U_confidence (JFloat 0);
     U_breakdown (obj_default "confidence_breakdown" (JObj []) res);
     U_gaps (JArr [JStr "Execution could not be verified in the configured sandbox."]);
     U_status "failed"; U_failure (JStr "execution_sandbox_unavailable")]
  else
    [U_result (obj_default "result" (JObj res) res);
     U_confidence (obj_default "confidence" (JFloat (80 # 100)) res);
     U_breakdown (obj_default "confidence_breakdown" (JObj []) res);
     U_gaps (obj_default "gaps" (JArr []) res);
     U_status "complete"].

Section Execute.
Context {R : Type} (agents : string → option (agent_run R)).

(** The [try] block: any exception of the agent is recorded as a failure. *)
Definition run_guarded (run : agent_run R) (skill : string) (payload context : jdict) : M R (list update) := λ x,
  let '(answer, x') := run skill payload context x in
  (Ok (match answer with inl err => failed_run err | inr res => agent_updates res end), x').

Definition execute_node (s : AndromedaState) : M R (list update) :=
  let r := st_request s in
  skill ← mlift (of_option IndexError (head (required_skills r)));
  let context := obj_set "task_id" (JStr (rq_task_id r)) (rq_context r) in
  match assigned_agent s with
  | None => mret (failed_run "unknown agent: None")
  | Some a =>
      match agents a with
      | None => mret (failed_run ("unknown agent: " +:+ a))
      | Some run => run_guarded run skill (rq_payload r) context
      end
  end.
End Execute.

(** ** The graph *)

Inductive node :=
  | policy_check | skill_match | load_check | assign | execute | handle_failure | escalate | complete
  | no_agent_found.

#[export] Instance node_eq_dec : EqDecision node.
Proof. solve_decision. Defined.

(** What a routing reads and writes: the approvals, and what the agents act on. *)
Record routing_world (R : Type) := mk_rw { rt_grants : list grant; rt_ext : R }.
Arguments mk_rw {R}. Arguments rt_grants {R}. Arguments rt_ext {R}.

(** The default limit of the graph library on the nodes of one run. *)
Definition recursion_limit : nat := 25.

Section Graph.
Context {R : Type} (agents : string → option (agent_run R)).
Context (rules : PolicyEngine) (digest : option string → string → jdict → string).
Context (float_text : string → result Q) (weights : jdict) (reg : registry) (arrow : string).
Context (completion_threshold failure_threshold : Q).
Local Abbreviation rworld := (routing_world R).

Definition on_grants {A} (m : M (list grant) A) : M rworld A := λ w,
  let '(r, g) := m (rt_grants w) in (r, mk_rw g (rt_ext w)).
Definition on_ext {A} (m : M R A) : M rworld A := λ w,
  let '(r, x) := m (rt_ext w) in (r, mk_rw (rt_grants w) x).

Definition node_step (n : node) (now : time) (s : AndromedaState) : M rworld (list update) :=
  match n with
  | policy_check => on_grants (policy_node rules digest now s)
  | skill_match => mlift (skill_match_node float_text weights reg s)
  | load_check => mret (load_check_node reg s)
  | assign => mret (assign_node now s)
  | execute => on_ext (execute_node agents s)
  | handle_failure => mret (handle_failure_node s)
  | escalate => mret (escalate_node arrow now s)
  | complete => mret (complete_node now s)
  | no_agent_found => mret (no_agent_found_node now s)
  end.

Definition reason_is (s : AndromedaState) (r : string) : bool := bool_decide (failure_reason s = Some r).
Definition status_is (s : AndromedaState) (t : string) : bool := String.eqb (s_status s) t.

Definition after_policy (s : AndromedaState) : node :=
  if reason_is s "policy_denied" then no_agent_found
  else if reason_is s "policy_requires_review" then escalate
  else skill_match.

Definition after_skill_match (s : AndromedaState) : node :=
  match matched_agents s with
  | _ :: _ => load_check
  | [] => if status_is s "no_agent_found" then no_agent_found else escalate
  end.

Definition after_load_check (s : AndromedaState) : node :=
  if truthy_str (or_else (assigned_agent s) "") then assign
  else if status_is s "no_agent_found" then no_agent_found else escalate.

(** The threshold of the task, or the default of the agents. *)
Definition threshold_of (r : request) : Q := or_else (rq_threshold r) completion_threshold.

Definition after_execute (s : AndromedaState) : node :=
  if status_is s "failed" then escalate
  else if Qle_bool (threshold_of (st_request s)) (confidence_of s) then complete
  else if Qle_bool failure_threshold (confidence_of s) then handle_failure
  else escalate.

Definition after_handle_failure (s : AndromedaState) : node :=
  if status_is s "routing" then skill_match else escalate.

(** The edges; [None] is the end. *)
Definition next (n : node) (s : AndromedaState) : option node :=
  match n with
  | policy_check => Some (after_policy s)
  | skill_match => Some (after_skill_match s)
  | load_check => Some (after_load_check s)
  | assign => Some execute
  | execute => Some (after_execute s)
  | handle_failure => Some (after_handle_failure s)
  | escalate | complete | no_agent_found => None
  end.

(** Running the graph from a node; [clock k] is read by the [k]-th node. [None] is
    the library's recursion error. *)
Fixpoint run_graph (fuel k : nat) (clock : nat → time) (n : node) (s : AndromedaState) :
    M rworld (option AndromedaState) :=
  match fuel with
  | O => mret None
  | S fuel =>
      us ← node_step n (clock k) s;
      s ← mlift (merge us s);
      match next n s with
      | None => mret (Some s)
      | Some n => run_graph fuel (S k) clock n s
      end
  end.

(** [self.graph.invoke]. *)
Definition invoke (clock : nat → time) (s : AndromedaState) : M rworld (option AndromedaState) :=
  run_graph recursion_limit 0 clock policy_check s.
End Graph.

(** [make_skill_match_node] of nodes.py, before routing weights: the first node a
    graph without weights used. *)
Definition plain_skill_match_node (reg : registry) (s : AndromedaState) : list update :=
  match capable reg (required_skills (st_request s)) None with
  | [] => [U_matched []; U_status "no_agent_found"; U_failure (JStr "no_skill_match")]
  | matched =>
      [U_matched matched;
       U_reason ("skill_match: found " +:+ py_int (Z.of_nat (length matched)) +:+ " agents")]
  end.
