(* ===== verification/OrchestratorProps.v ===== *)
(** What the routing graph guarantees: every run ends after at most twelve nodes,
    an agent only runs with the permission of the policy, and a completed task was
    run by an agent able to serve it. *)

From S2P Require Import Prelude.
From S2P Require Import PyStr.
From S2P Require Import PyTime.
From S2P Require Import Json.
From S2P Require Import Contracts.
From S2P Require Import Policy.
From S2P Require Import Registry.
From S2P Require Import RoutingState.
From S2P Require Import Orchestrator.
Open Scope Z_scope.

(** ** Merging, field by field *)

(** A field that no returned key touches is the same after the merge. *)
Lemma merge_keeps {A} (f : AndromedaState → A) (touches : update → bool) us :
  (∀ u s s', touches u = false → set_update u s = Ok s' → f s' = f s) →
  forallb (λ u, negb (touches u)) us = true →
  ∀ s s', merge us s = Ok s' → f s' = f s.
Proof.
  intros Hu. induction us as [|u us IH]; simpl; intros Hus s s' H; [by simplify_eq|].
  apply andb_true_iff in Hus as [Hn%negb_true_iff Hus]. apply rbind_ok in H as (s1 & H1 & H).
  rewrite (IH Hus _ _ H). by eapply Hu.
Qed.

(** Run a merge of known keys on a known state. *)
Ltac merge_steps H := cbn [merge] in H; rok;
  repeat match goal with
  | H1 : set_update _ (mk_state _ _ _ _ _ _ _ _ _ _ _ _ _ _) = Ok _ |- _ => cbn [set_update] in H1; rok
  end.

Ltac by_update := intros u s s' Ht H; destruct s, u; simpl in H; rok; done.

Definition sets_retry (u : update) : bool := match u with U_retry _ => true | _ => false end.
Definition sets_assigned (u : update) : bool := match u with U_assigned _ => true | _ => false end.
Definition sets_matched (u : update) : bool := match u with U_matched _ => true | _ => false end.
Definition sets_result (u : update) : bool := match u with U_result _ => true | _ => false end.
Definition sets_confidence (u : update) : bool := match u with U_confidence _ => true | _ => false end.

Lemma retry_kept u s s' : sets_retry u = false → set_update u s = Ok s' → retry_count s' = retry_count s.
Proof. revert u s s'. by_update. Qed.
Lemma assigned_kept u s s' : sets_assigned u = false → set_update u s = Ok s' → assigned_agent s' = assigned_agent s.
Proof. revert u s s'. by_update. Qed.
Lemma result_kept u s s' : sets_result u = false → set_update u s = Ok s' → s_result s' = s_result s.
Proof. revert u s s'. by_update. Qed.
Lemma confidence_kept u s s' : sets_confidence u = false → set_update u s = Ok s' → s_confidence s' = s_confidence s.
Proof. revert u s s'. by_update. Qed.

(** ** Induction over a run *)

Section Props.
Context {R : Type} (agents : string → option (agent_run R)).
Context (rules : PolicyEngine) (digest : option string → string → jdict → string).
Context (float_text : string → result Q) (weights : jdict) (reg : registry) (arrow : string).
Context (completion_threshold failure_threshold : Q).
Local Abbreviation rworld := (routing_world R).
Local Abbreviation nstep := (node_step agents rules digest float_text weights reg arrow).
Local Abbreviation edge := (next completion_threshold failure_threshold).
Local Abbreviation run := (run_graph agents rules digest float_text weights reg arrow completion_threshold failure_threshold).
Local Abbreviation inv := (invoke agents rules digest float_text weights reg arrow completion_threshold failure_threshold).

(** An assertion attached to every node holds along a run; [P] holds of the world
    however the run ends, [F] of the answer. *)
Lemma run_graph_ind (clock : nat → time) (I : nat → node → AndromedaState → rworld → Prop)
    (P : rworld → Prop) (F : AndromedaState → rworld → Prop) :
  (∀ k n s w, I k n s w → P w) →
  (∀ k n s w x w', I k n s w → nstep n (clock k) s w = (x, w') → P w') →
  (∀ k n s w us w' s', I k n s w → nstep n (clock k) s w = (Ok us, w') → merge us s = Ok s' →
     match edge n s' with None => F s' w' | Some n' => I (S k) n' s' w' end) →
  ∀ fuel k n s w x w', I k n s w → run fuel k clock n s w = (x, w') →
    P w' ∧ ∀ s', x = Ok (Some s') → F s' w'.
Proof.
  intros HI HP Hstep. induction fuel as [|fuel IH]; intros k n s w x w' H0 H.
  { injection H as <- <-. split; [by eapply HI|done]. }
  cbn [run_graph] in H. unfold mbind, M_bind in H.
  destruct (nstep n (clock k) s w) as [[us|e] w1] eqn:E1; [|injection H as <- <-; split; [by eapply HP|done]].
  unfold mlift in H. destruct (merge us s) as [s1|e] eqn:E2; [|injection H as <- <-; split; [by eapply HP|done]].
  pose proof (Hstep _ _ _ _ _ _ _ H0 E1 E2) as Hn. destruct (edge n s1) as [n'|].
  - by eapply IH.
  - injection H as <- <-. split; [by eapply HP|]. by intros s' [= <-].
Qed.

(** ** Termination *)

(** How many nodes a run has left, by the node and whether it has retried. *)
Definition nodes_left (n : node) (retried : bool) : nat :=
  match n, retried with
  | policy_check, _ => 12
  | skill_match, false => 11 | load_check, false => 10 | assign, false => 9 | execute, false => 8
  | handle_failure, false => 7
  | skill_match, true => 6 | load_check, true => 5 | assign, true => 4 | execute, true => 3
  | handle_failure, true => 2
  | escalate, _ | complete, _ | no_agent_found, _ => 1
  end.
Definition has_retried (s : AndromedaState) : bool := 1 <=? retry_count s.

(** Only [handle_failure] touches the retry counter, and only to start again. *)
Lemma node_retry n now s w us w' s' : 0 <= retry_count s →
  nstep n now s w = (Ok us, w') → merge us s = Ok s' →
  retry_count s' = retry_count s
  ∨ n = handle_failure ∧ retry_count s = 0 ∧ retry_count s' = 1 ∧ s_status s' = "routing".
Proof.
  intros Hr H Hm.
  assert (Hk : forallb (λ u, negb (sets_retry u)) us = true → retry_count s' = retry_count s)
    by (intros Hf; by eapply (merge_keeps retry_count sets_retry); [apply retry_kept|..]).
  destruct n; simpl in H.
  - left. apply Hk. unfold on_grants in H. destruct (policy_node rules digest now s (rt_grants w)) as [y g] eqn:E.
    injection H as -> _. revert E. unfold policy_node. destruct (negb _); [by intros [= <- _]|].
    destruct (held_skills _ _ _) as [d|held]; [by intros [= <- _]|]. generalize (rt_grants w).
    induction held as [|[sk d] held IH]; simpl; intros g0 E; [by injection E as <- _|].
    apply mbind_ok in E as (ok & g1 & _ & E). destruct ok; [by eapply IH|by injection E as <- _].
  - left. apply Hk. unfold mlift in H. injection H as H _. unfold skill_match_node in H.
    apply rbind_ok in H as (t & _ & H). destruct (capable _ _ _); [by injection H as <-|].
    destruct (existsb _ t); by injection H as <-.
  - left. apply Hk. injection H as <- _. unfold load_check_node. by destruct (matched_agents s).
  - left. apply Hk. by injection H as <- _.
  - left. apply Hk. unfold on_ext in H. destruct (execute_node agents s (rt_ext w)) as [y x] eqn:E.
    injection H as -> _. unfold execute_node in E. apply mbind_ok in E as (sk & x1 & _ & E).
    destruct (assigned_agent s) as [a|]; [|by injection E as <- _].
    destruct (agents a) as [ar|]; [|by injection E as <- _]. unfold run_guarded in E.
    destruct (ar _ _ _ _) as [[err|res] x2]; injection E as <- _; [done|]. unfold agent_updates. by destruct (is_str _ _).
  - injection H as <- _. unfold handle_failure_node in Hm, Hk.
    destruct ((retry_count s <? 1) && _) eqn:E; [|left; by apply Hk].
    apply andb_true_iff in E as [E%Z.ltb_lt _]. right. assert (E0 : retry_count s = 0) by lia.
    destruct s. simpl in *. subst. by injection Hm as <-.
  - left. apply Hk. by injection H as <- _.
  - left. apply Hk. by injection H as <- _.
  - left. apply Hk. by injection H as <- _.
Qed.

Lemma handle_failure_escalates now s w us w' s' : nstep handle_failure now s w = (Ok us, w') →
  merge us s = Ok s' → has_retried s = true → after_handle_failure s' = escalate.
Proof.
  intros [= <- _] Hm Hr. unfold handle_failure_node in Hm. unfold has_retried in Hr. apply Z.leb_le in Hr.
  rewrite (proj2 (Z.ltb_ge (retry_count s) 1)) in Hm by lia. destruct s. by injection Hm as <-.
Qed.

Lemma nodes_left_edge n now s w us w' s' n' : 0 <= retry_count s →
  nstep n now s w = (Ok us, w') → merge us s = Ok s' → edge n s' = Some n' →
  0 <= retry_count s' ∧ (S (nodes_left n' (has_retried s')) ≤ nodes_left n (has_retried s))%nat.
Proof.
  intros H0 Hs Hm He. pose proof (node_retry _ _ _ _ _ _ _ H0 Hs Hm) as Hr. split; [destruct Hr; lia|].
  destruct n; simpl in He; try discriminate He; injection He as <-;
    try (destruct Hr as [Hr|[[=] _]]; unfold has_retried; rewrite Hr).
  1-5: unfold after_policy, after_skill_match, after_load_check, after_execute; destruct (1 <=? retry_count s);
    repeat case_match; simpl; lia.
  destruct Hr as [Hr|(_ & Hs0 & Hr & _)].
  - destruct (has_retried s) eqn:E; [rewrite (handle_failure_escalates _ _ _ _ _ _ Hs Hm E); simpl; lia|].
    unfold has_retried in *. rewrite Hr, E. unfold after_handle_failure. case_match; [|simpl; lia].
    exfalso. injection Hs as <- _. unfold handle_failure_node in Hm.
    destruct ((retry_count s <? 1) && _) eqn:E2; destruct s; simpl in *; [|by injection Hm as <-].
    destruct (rguard _ _) eqn:Eg; [|discriminate Hm]. injection Hm as <-. simpl in *. lia.
  - unfold has_retried. rewrite Hs0, Hr. unfold after_handle_failure. case_match; simpl; lia.
Qed.

(** With that many nodes the run does not stop short, and more change nothing. *)
Lemma run_enough clock fuel : ∀ k n s w, 0 <= retry_count s → (nodes_left n (has_retried s) ≤ fuel)%nat →
  (∃ x w', run fuel k clock n s w = (x, w') ∧ x ≠ Ok None)
  ∧ ∀ more, run (fuel + more) k clock n s w = run fuel k clock n s w.
Proof.
  induction fuel as [|fuel IH]; intros k n s w H0 Hf; [destruct n, (has_retried s); simpl in Hf; lia|].
  cbn [run_graph Nat.add]. unfold mbind, M_bind.
  destruct (nstep n (clock k) s w) as [[us|e] w1] eqn:E1; [|split; [by eexists _, _|done]].
  unfold mlift. destruct (merge us s) as [s1|e] eqn:E2; [|split; [by eexists _, _|done]].
  destruct (edge n s1) as [n'|] eqn:E3; [|split; [by eexists _, _|done]].
  pose proof (nodes_left_edge _ _ _ _ _ _ _ _ H0 E1 E2 E3) as [H1 Hl]. apply IH; [done|lia].
Qed.

Definition ending (s : AndromedaState) : Prop :=
  s_status s ∈ ["complete"; "escalated"; "no_agent_found"] ∧ is_Some (completed_at s)
  ∧ (s_status s = "escalated" → escalated_to_human s = true).

Lemma last_node n now s w us w' s' :
  nstep n now s w = (Ok us, w') → merge us s = Ok s' → edge n s' = None → ending s'.
Proof.
  intros H Hm He. destruct n; try discriminate He; injection H as <- _; unfold ending.
  - destruct s. injection Hm as <-. simpl. split_and!; [set_solver|by eexists|done].
  - destruct s. injection Hm as <-. simpl. split_and!; [set_solver|by eexists|done].
  - destruct s as [r m a why res c b g st rc f e i d]. unfold no_agent_found_node in Hm. simpl in Hm.
    destruct f; injection Hm as <-; simpl; (split_and!; [set_solver|by eexists|done]).
Qed.

Lemma invoke_ending clock r issued w s' w' :
  inv clock (initial_state r "routing" issued) w = (Ok (Some s'), w') →
  ending s' ∧ st_request s' = r ∧ 0 <= retry_count s' <= 1.
Proof.
  intros E. eapply (run_graph_ind clock (λ _ _ s1 _, st_request s1 = r ∧ 0 <= retry_count s1 <= 1) (λ _, True)
    (λ s1 _, ending s1 ∧ st_request s1 = r ∧ 0 <= retry_count s1 <= 1)) in E as [_ Hf]; [by apply Hf|done..| |].
  - intros k n s1 w1 us w2 s2 [Hreq Hrc] Hs Hm.
    assert (Hn : st_request s2 = r ∧ 0 <= retry_count s2 <= 1).
    { rewrite (merge_request _ _ _ Hm). split; [done|].
      destruct (node_retry _ _ _ _ _ _ _ (proj1 Hrc) Hs Hm); lia. }
    destruct (edge n s2) eqn:He; [done|]. split; [|done]. by eapply last_node.
  - simpl. split; [done|lia].
Qed.

(** C7: routing a task ends. Whatever the agents answer, at most twelve nodes run,
    so the limit of the graph library is never reached; and an answer is complete,
    escalated to a human or without an agent, bears the time it was reached, is for
    the task that was asked for and was retried at most once. *)
Theorem routing_terminates clock r issued w :
  let s := initial_state r "routing" issued in
  ∃ x w', inv clock s w = (x, w') ∧ run 12 0 clock policy_check s w = (x, w') ∧ x ≠ Ok None
  ∧ ∀ s', x = Ok (Some s') → ending s' ∧ st_request s' = r ∧ 0 <= retry_count s' <= 1.
Proof.
  intros s. unfold invoke.
  destruct (run_enough clock 12 0 policy_check s w) as [(x & w' & E & Hx) Hmore]; [simpl; lia|simpl; lia|].
  specialize (Hmore 13%nat). simpl Nat.add in Hmore.
  exists x, w'. unfold recursion_limit. rewrite Hmore. split_and!; [done..|]. intros s' ->.
  apply (invoke_ending clock r issued w s' w'). exact (eq_trans Hmore E).
Qed.

(** ** Every route answers *)

(** An answer whose fields have the types of the state. *)
Definition typed_answer (answer : string + jdict) : Prop :=
  match answer with
  | inl _ => True
  | inr res =>
      is_ok (dict_or_none (obj_default "result" (JObj res) res))
      ∧ is_ok (unit_or_none (obj_default "confidence" (JFloat (80 # 100)) res))
      ∧ is_ok (dict_or_none (obj_default "confidence_breakdown" (JObj []) res))
      ∧ is_ok (str_list (obj_default "gaps" (JArr []) res))
  end.

Definition typed_agents : Prop :=
  ∀ a (ar : agent_run R) skill payload context x, agents a = Some ar → typed_answer (ar skill payload context x).1.

Definition readable_weights : Prop := ∀ skill, is_ok (get_weights float_text weights skill).

(** Values every state accepts. *)
Definition accepted (u : update) : Prop := ∀ s, is_ok (set_update u s).

Lemma merge_accepted us : Forall accepted us → ∀ s, is_ok (merge us s).
Proof.
  induction 1 as [|u us Hu _ IH]; intros s; simpl; [by eexists|].
  destruct (Hu s) as [s1 ->]. apply IH.
Qed.

(** A value its validator accepts, as [H] says, is accepted. *)
Ltac accept_by H := let a := fresh in let E := fresh in
  destruct H as [a E]; let s := fresh in intros s; destruct s; cbn [set_update]; rewrite E; eexists; reflexivity.

Lemma accepted_status st : is_ok (validate_non_empty_str st) → accepted (U_status st).
Proof. intros H. accept_by H. Qed.

(** Updates that are accepted whatever the state. *)
Ltac accept := first
  [ apply accepted_status; eexists; vm_compute; reflexivity
  | let s := fresh in intros s; destruct s; eexists; reflexivity ].
Ltac accepts := repeat (apply List.Forall_cons; [try accept|]); try apply List.Forall_nil.

Lemma accepted_agent res : typed_answer (inr res) → Forall accepted (agent_updates res).
Proof.
  intros (Hr & Hc & Hb & Hg). unfold agent_updates. destruct (is_str _ _).
  - accepts.
    accept_by Hb.
  - accepts.
    + accept_by Hr.
    + accept_by Hc.
    + accept_by Hb.
    + accept_by Hg.
Qed.

Lemma policy_accepted now s g us g' :
  policy_node rules digest now s g = (us, g') → ∃ us', us = Ok us' ∧ Forall accepted us'.
Proof.
  unfold policy_node. destruct (negb _); [intros [= <- _]; eexists; by split|].
  destruct (held_skills _ _ _) as [d|held].
  { intros [= <- _]. eexists. split; [done|]. accepts. }
  revert g. induction held as [|[sk d] held IH]; simpl; intros g E; [injection E as <- _; eexists; by split|].
  unfold mbind, M_bind, consume in E. destruct (oldest_usable _ _ _ _ _); [by eapply IH|].
  injection E as <- _. eexists. split; [done|]. accepts.
Qed.

(** ** Who runs a task *)

(** Every required skill is offered to the origin by an agent of that id. *)
Definition able (r : request) (a : string) : Prop :=
  required_skills r ≠ []
  ∧ ∀ sk, sk ∈ required_skills r →
      ∃ m, m ∈ get_agents_for_skill sk (rq_origin r) reg ∧ agent_id m = a.

Lemma ids_for_In sk o a :
  a ∈ ids_for reg sk o ↔ ∃ m, m ∈ get_agents_for_skill sk o reg ∧ agent_id m = a.
Proof.
  unfold ids_for. rewrite elem_of_remove_dups. change (map agent_id ?l) with (agent_id <$> l).
  rewrite list_elem_of_fmap. naive_solver.
Qed.

Lemma capable_able r a : a ∈ capable reg (required_skills r) (rq_origin r) ↔ able r a.
Proof.
  unfold capable, able. destruct (required_skills r) as [|sk l]; simpl; [by split; [intros ?%elem_of_nil|intros [? _]]|].
  rewrite elem_of_py_sorted, list_elem_of_In, filter_In, <-list_elem_of_In, forallb_forall.
  rewrite ids_for_In. split.
  - intros [H1 H2]. split; [done|]. intros x [-> |Hx]%elem_of_cons; [done|].
    apply ids_for_In. eapply bool_decide_eq_true, H2, in_map_iff. exists x. by rewrite <-list_elem_of_In.
  - intros [_ H]. split; [apply H; by left|]. intros l' (x & <- & Hx%list_elem_of_In)%in_map_iff.
    apply bool_decide_eq_true, ids_for_In, H. by right.
Qed.

(** The agent that was assigned answered with this result. *)
Definition ran (r : request) (s : AndromedaState) : Prop :=
  ∃ a ar sk x res, assigned_agent s = Some a ∧ agents a = Some ar ∧ head (required_skills r) = Some sk
    ∧ (ar sk (rq_payload r) (obj_set "task_id" (JStr (rq_task_id r)) (rq_context r)) x).1 = inr res
    ∧ dict_or_none (obj_default "result" (JObj res) res) = Ok (s_result s).

Definition at_node (r : request) (n : node) (s : AndromedaState) : Prop :=
  st_request s = r ∧
  match n with
  | load_check => matched_agents s ≠ [] ∧ ∀ a, a ∈ matched_agents s → able r a
  | assign | execute | handle_failure => ∃ a, assigned_agent s = Some a ∧ able r a
  | complete =>
      (∃ a, assigned_agent s = Some a ∧ able r a) ∧ ran r s
      ∧ (threshold_of completion_threshold r <= confidence_of s)%Q
  | _ => True
  end.

Lemma first_max_In score l : ∀ best, first_max score best l ∈ best :: l.
Proof.
  induction l as [|a l IH]; simpl; intros best; [by left|].
  destruct (Qltb _ _); [destruct (elem_of_cons l (first_max score a l) a) as [Hc _]|
    destruct (elem_of_cons l (first_max score best l) best) as [Hc _]]; destruct (Hc (IH _)) as [->|]; rewrite !elem_of_cons; auto.
Qed.

Lemma matched_able s us s' : skill_match_node float_text weights reg s = Ok us → merge us s = Ok s' →
  ∀ a, a ∈ matched_agents s' → able (st_request s) a.
Proof.
  unfold skill_match_node. intros H Hm a Ha. apply rbind_ok in H as (t & _ & H).
  destruct (capable reg _ _) as [|c cs] eqn:Ec.
  - injection H as <-. destruct s. injection Hm as <-. by apply elem_of_nil in Ha.
  - apply capable_able. rewrite Ec. destruct (existsb _ t); injection H as <-; destruct s; injection Hm as <-; simpl in Ha.
    + apply list_elem_of_singleton in Ha as ->. apply first_max_In.
    + done.
Qed.

Lemma load_check_assigns s s' : merge (load_check_node reg s) s = Ok s' → matched_agents s ≠ [] →
  ∃ a, assigned_agent s' = Some a ∧ a ∈ matched_agents s.
Proof.
  unfold load_check_node. intros Hm Hne. destruct (matched_agents s) as [|m ms] eqn:E; [done|].
  set (ranked := py_sorted _ _) in Hm. destruct ranked as [|a rest] eqn:Er.
  { subst ranked. by apply py_sorted_nil in Er. }
  exists a. split.
  - destruct s. by injection Hm as <-.
  - rewrite <-(elem_of_py_sorted (λ a b, Qle_bool (score_agent reg (required_skills (st_request s)) b)
      (score_agent reg (required_skills (st_request s)) a))). fold ranked. rewrite Er. by left.
Qed.

Lemma failed_status err s s' : merge (failed_run err) s = Ok s' → s_status s' = "failed".
Proof. destruct s. by intros [= <-]. Qed.

Lemma answer_merged res s s' : merge (agent_updates res) s = Ok s' →
  s_status s' = "failed" ∨ dict_or_none (obj_default "result" (JObj res) res) = Ok (s_result s').
Proof.
  unfold agent_updates. destruct (is_str _ _), s; intros H; merge_steps H; [left|by right].
  match goal with E : validate_non_empty_str "failed" = Ok _ |- _ => injection E as <- end. done.
Qed.

Lemma execute_merged r s x us x' s' :
  st_request s = r → execute_node agents s x = (Ok us, x') → merge us s = Ok s' →
  s_status s' = "failed" ∨ ran r s'.
Proof.
  intros Hreq He Hm. unfold execute_node in He. apply mbind_ok in He as (sk & x1 & Hsk & He).
  unfold mlift, of_option in Hsk. destruct (head _) as [sk0|] eqn:Eh; [|done]. injection Hsk as -> ->.
  destruct (assigned_agent s) as [a|] eqn:Ea; [|injection He as <- _; left; by eapply failed_status].
  destruct (agents a) as [ar|] eqn:Ear; [|injection He as <- _; left; by eapply failed_status].
  unfold run_guarded in He. destruct (ar _ _ _ _) as [[err|res] x2] eqn:Er; injection He as <- _;
    [left; by eapply failed_status|].
  destruct (answer_merged _ _ _ Hm) as [|Hd]; [by left|right].
  exists a, ar, sk, x1, res. split_and!; [|done|by rewrite <-Hreq|by rewrite <-Hreq, Er|done].
  rewrite <-Ea. eapply (merge_keeps assigned_agent sets_assigned); [apply assigned_kept| |done].
  unfold agent_updates. by destruct (is_str _ _).
Qed.

Lemma execute_keeps s x us x' s' : execute_node agents s x = (Ok us, x') → merge us s = Ok s' →
  assigned_agent s' = assigned_agent s.
Proof.
  intros He Hm. eapply (merge_keeps assigned_agent sets_assigned); [apply assigned_kept| |done].
  unfold execute_node in He. apply mbind_ok in He as (sk & x1 & _ & He).
  destruct (assigned_agent s) as [a|]; [|by injection He as <- _].
  destruct (agents a) as [ar|]; [|by injection He as <- _]. unfold run_guarded in He.
  destruct (ar _ _ _ _) as [[err|res] x2]; injection He as <- _; [done|]. unfold agent_updates. by destruct (is_str _ _).
Qed.

Lemma at_node_step r n now s w us w' s' : at_node r n s →
  nstep n now s w = (Ok us, w') → merge us s = Ok s' →
  match edge n s' with Some n' => at_node r n' s' | None => s_status s' = "complete" → at_node r complete s' end.
Proof.
  intros [Hreq Hn] Hs Hm. assert (Hreq' : st_request s' = r) by (by rewrite (merge_request _ _ _ Hm)).
  destruct n; simpl in *.
  - unfold after_policy. by repeat case_match.
  - unfold mlift in Hs. injection Hs as Hs <-. unfold after_skill_match.
    destruct (matched_agents s') as [|m ms] eqn:E; [by case_match|]. split; [done|]. split; [by rewrite E|].
    rewrite <-Hreq. by eapply matched_able.
  - injection Hs as <- <-. destruct Hn as [Hne Hall]. destruct (load_check_assigns _ _ Hm Hne) as (a & Ha & Hin).
    unfold after_load_check. repeat case_match; split; try done. eauto.
  - injection Hs as <- <-. split; [done|]. destruct Hn as (a & Ha & Hab). exists a. split; [|done].
    rewrite <-Ha. eapply (merge_keeps assigned_agent sets_assigned); [apply assigned_kept| |exact Hm]; done.
  - unfold on_ext in Hs. destruct (execute_node agents s (rt_ext w)) as [y x] eqn:He. injection Hs as -> <-.
    destruct Hn as (a & Ha & Hab). pose proof (execute_keeps _ _ _ _ _ He Hm) as Hk. rewrite Ha in Hk.
    unfold after_execute, status_is. destruct (String.eqb_spec (s_status s') "failed"); [done|].
    destruct (Qle_bool (threshold_of _ _) _) eqn:Et.
    + split; [done|]. split; [eauto|]. split.
      * destruct (execute_merged r _ _ _ _ _ Hreq He Hm); done.
      * rewrite Hreq' in Et. by apply Qle_bool_iff.
    + case_match; split; try done. eauto.
  - unfold after_handle_failure. by case_match.
  - injection Hs as <- _. destruct s. by injection Hm as <-.
  - injection Hs as <- _. intros _. destruct s. injection Hm as <-. by split.
  - injection Hs as <- _. destruct s as [q m a why res c b g st rc f e i d]. unfold no_agent_found_node in Hm.
    simpl in Hm. destruct f; by injection Hm as <-.
Qed.

Lemma invoke_complete clock r issued w s' w' :
  inv clock (initial_state r "routing" issued) w = (Ok (Some s'), w') → s_status s' = "complete" → at_node r complete s'.
Proof.
  intros E Hc. eapply (run_graph_ind clock (λ _ n s _, at_node r n s) (λ _, True)
    (λ s _, s_status s = "complete" → at_node r complete s)) in E as [_ Hf]; [by apply (Hf _ eq_refl Hc)|done|done| |done].
  intros k n s w1 us w2 s2 Hat Hs Hm. pose proof (at_node_step _ _ _ _ _ _ _ _ Hat Hs Hm) as Hn.
  by destruct (edge n s2).
Qed.

(** C9: a completed task was served by an agent able to serve it. The agent
    assigned offers every skill the task requires to the task's origin, it is the
    agent that ran, the result of the task is the one it answered with, and the
    confidence recorded reaches the task's own threshold, or the default one when
    it names none. *)
Theorem completed_tasks_were_served clock r issued w s' w' :
  inv clock (initial_state r "routing" issued) w = (Ok (Some s'), w') → s_status s' = "complete" →
  (∃ a, assigned_agent s' = Some a ∧ able r a) ∧ ran r s'
  ∧ (threshold_of completion_threshold r <= confidence_of s')%Q.
Proof.
  intros Hi Hc. by destruct (invoke_complete _ _ _ _ _ _ Hi Hc).
Qed.

(** What holds at a node for the next step to succeed. *)
Definition ready_for (n : node) (s : AndromedaState) : Prop :=
  0 <= retry_count s ∧ is_ok (validate_non_empty_str (issued_at s))
  ∧ match n with load_check | assign | execute => required_skills (st_request s) ≠ [] | _ => True end.

Lemma capable_nil o : capable reg [] o = [].
Proof. done. Qed.

Lemma ready_step n now s w : typed_agents → readable_weights → ready_for n s →
  ∃ us w', nstep n now s w = (Ok us, w') ∧ Forall accepted us.
Proof.
  intros Ha Hw (Hr & [i Hi] & Hreq). destruct n; simpl.
  - unfold on_grants. destruct (policy_node rules digest now s (rt_grants w)) as [y g] eqn:E.
    apply policy_accepted in E as (us & -> & Hus). by eexists _, _.
  - unfold mlift, skill_match_node.
    assert (∃ t, rmap (λ sk, w ← get_weights float_text weights sk; Ok (sk, w)) (required_skills (st_request s)) = Ok t)
      as [t ->].
    { induction (required_skills (st_request s)) as [|sk l [t IH]]; simpl; [by eexists|].
      destruct (Hw sk) as [v ->]. unfold mbind, rbind in *. rewrite IH. by eexists. }
    unfold mbind, rbind. destruct (capable _ _ _); [eexists _, _; split; [done|]; accepts|].
    destruct (existsb _ t); eexists _, _; (split; [done|]); accepts.
  - eexists _, _. split; [done|]. unfold load_check_node. destruct (matched_agents s); accepts.
  - eexists _, _. split; [done|]. unfold assign_node, validate_non_empty_str in *.
    destruct (truthy_str (issued_at s)) eqn:E; [|destruct (issued_at s); [|done]; done].
    accepts. assert (is_ok (validate_non_empty_str (issued_at s))) as Hv; [|accept_by Hv].
    unfold validate_non_empty_str. rewrite Hi. by eexists.
  - unfold on_ext, execute_node, mbind, M_bind, mlift. destruct (required_skills (st_request s)) as [|sk l] eqn:E; [done|].
    simpl. assert (Hf : ∀ err, Forall accepted (failed_run err)) by (intros; accepts).
    destruct (assigned_agent s) as [a|]; [|eexists _, _; split; [done|apply Hf]].
    destruct (agents a) as [ar|] eqn:Ear; [|eexists _, _; split; [done|apply Hf]]. unfold run_guarded.
    pose proof (Ha a ar sk (rq_payload (st_request s)) (obj_set "task_id" (JStr (rq_task_id (st_request s)))
      (rq_context (st_request s))) (rt_ext w) Ear) as Ht.
    destruct (ar _ _ _ _) as [[err|res] x]; eexists _, _; (split; [done|]); [apply Hf|by apply accepted_agent].
  - eexists _, _. split; [done|]. unfold handle_failure_node. destruct (_ && _); accepts.
    assert (is_ok (rguard (0 <=? retry_count s + 1) ValueError)) as Hv; [|accept_by Hv].
    rewrite (proj2 (Z.leb_le 0 (retry_count s + 1))) by lia. by eexists.
  - eexists _, _. split; [done|]. accepts.
  - eexists _, _. split; [done|]. accepts.
  - eexists _, _. split; [done|]. accepts. destruct (failure_reason s); accept.
Qed.
Definition sets_issued (u : update) : bool := match u with U_issued _ => true | _ => false end.
Lemma issued_kept u s s' : sets_issued u = false → set_update u s = Ok s' → issued_at s' = issued_at s.
Proof. revert u s s'. by_update. Qed.

Lemma policy_untyped now s g us g' p : (∀ d, forallb p (denial d) = true) →
  (∀ o sk dg d, forallb p (hold o sk dg d) = true) →
  policy_node rules digest now s g = (Ok us, g') → forallb p us = true.
Proof.
  intros Hd Hh. unfold policy_node. destruct (negb _); [by intros [= <- _]|].
  destruct (held_skills _ _ _) as [d|held]; [by intros [= <- _]|]. revert g.
  induction held as [|[sk d] held IH]; simpl; intros g E; [by injection E as <- _|].
  apply mbind_ok in E as (ok & g1 & _ & E). destruct ok; [by eapply IH|by injection E as <- _].
Qed.

Lemma issued_ok n now s w us w' s' : nstep n now s w = (Ok us, w') → merge us s = Ok s' →
  is_ok (validate_non_empty_str (issued_at s)) → is_ok (validate_non_empty_str (issued_at s')).
Proof.
  intros H Hm Hok.
  assert (Hk : forallb (λ u, negb (sets_issued u)) us = true → issued_at s' = issued_at s)
    by (intros Hf; by eapply (merge_keeps issued_at sets_issued); [apply issued_kept|..]).
  destruct n; simpl in H.
  4: { injection H as <- _. destruct s as [q m a why res c b g st rc f e i d]. unfold assign_node in Hm. simpl in *.
       destruct (truthy_str i) eqn:Ei; [|by destruct i; destruct Hok]. unfold validate_non_empty_str in *.
       destruct (truthy_str (strip i)) eqn:E; [|by destruct Hok]. injection Hm as <-. simpl.
       rewrite strip_idemp, E. by eexists. }
  all: rewrite Hk; [done|]; try by injection H as <- _.
  - unfold on_grants in H. destruct (policy_node rules digest now s (rt_grants w)) as [y g] eqn:E.
    injection H as -> _. by eapply policy_untyped in E.
  - unfold mlift in H. injection H as H _. unfold skill_match_node in H.
    apply rbind_ok in H as (t & _ & H). destruct (capable _ _ _); [by injection H as <-|].
    destruct (existsb _ t); by injection H as <-.
  - injection H as <- _. unfold load_check_node. by destruct (matched_agents s).
  - unfold on_ext in H. destruct (execute_node agents s (rt_ext w)) as [y x] eqn:E.
    injection H as -> _. unfold execute_node in E. apply mbind_ok in E as (sk & x1 & _ & E).
    destruct (assigned_agent s) as [a|]; [|by injection E as <- _].
    destruct (agents a) as [ar|]; [|by injection E as <- _]. unfold run_guarded in E.
    destruct (ar _ _ _ _) as [[err|res] x2]; injection E as <- _; [done|]. unfold agent_updates. by destruct (is_str _ _).
  - injection H as <- _. unfold handle_failure_node. by destruct (_ && _).
Qed.

Lemma at_node_ready r n s : at_node r n s → 0 <= retry_count s →
  is_ok (validate_non_empty_str (issued_at s)) → ready_for n s.
Proof.
  intros [Hreq Hn] Hr Hi. split_and!; [done..|]. rewrite Hreq.
  destruct n; try done; simpl in Hn; try (by destruct Hn as (a & _ & [? _])).
  destruct Hn as [Hne Hall]. destruct (matched_agents s) as [|a l]; [done|]. by destruct (Hall a ltac:(by left)).
Qed.

Lemma run_answers clock r fuel : typed_agents → readable_weights → ∀ k n s w,
  at_node r n s → 0 <= retry_count s → is_ok (validate_non_empty_str (issued_at s)) →
  (nodes_left n (has_retried s) ≤ fuel)%nat →
  ∃ s' w', run fuel k clock n s w = (Ok (Some s'), w').
Proof.
  intros Ha Hw. induction fuel as [|fuel IH]; intros k n s w Hat H0 Hi Hf.
  { destruct n, (has_retried s); simpl in Hf; lia. }
  destruct (ready_step n (clock k) s w Ha Hw (at_node_ready _ _ _ Hat H0 Hi)) as (us & w1 & E1 & Hus).
  destruct (merge_accepted us Hus s) as [s1 E2]. cbn [run_graph]. unfold mbind, M_bind, mlift. rewrite E1, E2.
  destruct (edge n s1) as [n'|] eqn:E3; [|by eexists _, _].
  destruct (nodes_left_edge _ _ _ _ _ _ _ _ H0 E1 E2 E3) as [H1 Hl].
  pose proof (at_node_step _ _ _ _ _ _ _ _ Hat E1 E2) as Hat'. rewrite E3 in Hat'.
  apply IH; [done|done|by eapply issued_ok|lia].
Qed.

(** C10: every task gets an answer. When the routing weights can be read and the
    agents answer with fields of the declared types, whether or not they raise,
    the graph returns a state; nothing an agent raises ends the routing. *)
Theorem routing_answers clock r issued w : typed_agents → readable_weights →
  is_ok (validate_non_empty_str issued) →
  ∃ s' w', inv clock (initial_state r "routing" issued) w = (Ok (Some s'), w') ∧ ending s'.
Proof.
  intros Ha Hw Hi. set (s := initial_state r "routing" issued).
  destruct (run_answers clock r recursion_limit Ha Hw 0 policy_check s w) as (s' & w' & E);
    [done|simpl; lia|done|unfold recursion_limit; simpl; lia|].
  exists s', w'. split; [done|]. by apply (invoke_ending clock r issued w s' w').
Qed.

(** ** Permission *)

Definition decision (r : request) (sk : string) : action := d_action (evaluate_skill rules sk (rq_origin r)).
Definition denied (r : request) : Prop := ∃ sk, sk ∈ required_skills r ∧ decision r sk = DENY.

(** Nothing is denied, and each skill that needs a review used up an approval. *)
Definition granted (now : time) (r : request) (before after : list grant) : Prop :=
  ¬ denied r
  ∧ ∀ sk, sk ∈ required_skills r → decision r sk = REQUIRE_REVIEW →
      ∃ g, g ∈ before
        ∧ usable (or_else (rq_origin r) "") sk (digest (rq_origin r) sk (rq_payload r)) now g = true
        ∧ use_grant now g ∈ after.

Lemma consume_uses o sk d now st st' : consume o sk d now st = (Ok true, st') →
  (∃ g, g ∈ st ∧ usable o sk d now g = true ∧ use_grant now g ∈ st')
  ∧ (∀ x, x ∈ st' → x ∈ st ∨ gr_consumed x ≠ None)
  ∧ (∀ y, use_grant now y ∈ st → use_grant now y ∈ st').
Proof.
  unfold consume. destruct (oldest_usable o sk d now st) as [g|] eqn:E; [|done]. intros [= <-].
  destruct (oldest_usable_Some _ _ _ _ _ _ E) as [Hg Hu].
  set (f := λ x : grant, if (gr_id x =? gr_id g)%N then use_grant now x else x). change (map f st) with (f <$> st).
  split_and!.
  - exists g. split_and!; [done..|]. assert (Ef : use_grant now g = f g) by (unfold f; by rewrite N.eqb_refl).
    rewrite Ef. by apply list_elem_of_fmap_2.
  - intros x (y & -> & Hy)%list_elem_of_fmap. unfold f. destruct (_ =? _)%N; [by right|by left].
  - intros y Hy. assert (Ef : use_grant now y = f (use_grant now y)) by (unfold f; by destruct (_ =? _)%N).
    rewrite Ef. by apply list_elem_of_fmap_2.
Qed.

Lemma held_denied o req d : held_skills rules o req = inl d →
  ∃ sk, sk ∈ req ∧ d_action (evaluate_skill rules sk o) = DENY ∧ d = evaluate_skill rules sk o.
Proof.
  induction req as [|sk req IH]; simpl; [done|]. intros H.
  destruct (d_action (evaluate_skill rules sk o)) eqn:E; destruct (held_skills rules o req) as [d'|h] eqn:Eh;
    try discriminate H; try (destruct (IH H) as (x & ? & ?); exists x; split; [by right|done]);
    injection H as <-; exists sk; split; [by left|done|by left|done].
Qed.

Lemma held_all o req h : held_skills rules o req = inr h → ∀ sk, sk ∈ req →
  d_action (evaluate_skill rules sk o) ≠ DENY
  ∧ (d_action (evaluate_skill rules sk o) = REQUIRE_REVIEW → sk ∈ h.*1).
Proof.
  revert h. induction req as [|sk req IH]; simpl; intros h H x Hx; [by apply elem_of_nil in Hx|].
  destruct (d_action (evaluate_skill rules sk o)) eqn:E; [|done|];
    destruct (held_skills rules o req) as [d'|h'] eqn:Eh; try discriminate H; injection H as <-;
    apply elem_of_cons in Hx as [-> |Hx]; try (rewrite E; split; [done|]; intros; try done; by left);
    destruct (IH h' eq_refl x Hx); split; try done. intros Hr. right. auto.
Qed.

Lemma consumed_all now r held : ∀ st us st', consume_held digest now r held st = (Ok us, st') →
  (us = [] ∧ ∀ sk, sk ∈ held.*1 → ∃ g, g ∈ st
        ∧ usable (or_else (rq_origin r) "") sk (digest (rq_origin r) sk (rq_payload r)) now g = true
        ∧ use_grant now g ∈ st')
  ∨ ∃ sk dg d, us = hold (rq_origin r) sk dg d.
Proof.
  assert (Hkeep : ∀ held st us st', consume_held digest now r held st = (Ok us, st') →
    ∀ y, use_grant now y ∈ st → use_grant now y ∈ st').
  { clear. induction held as [|[sk d] held IH]; simpl; intros st us st' E y Hy; [by injection E as <- <-|].
    apply mbind_ok in E as (ok & st1 & E1 & E). destruct ok.
    - eapply IH; [exact E|]. by apply (consume_uses _ _ _ _ _ _ E1).
    - injection E as _ <-. revert E1. unfold consume. destruct (oldest_usable _ _ _ _ _); [done|]. by intros [= <-]. }
  induction held as [|[sk d] held IH]; simpl; intros st us st' E.
  { injection E as <- <-. left. split; [done|]. by intros sk ?%elem_of_nil. }
  apply mbind_ok in E as (ok & st1 & E1 & E). destruct ok; [|injection E as <- _; right; eauto].
  destruct (consume_uses _ _ _ _ _ _ E1) as ((g & Hg & Hu & Hin) & Hsub & Hper).
  destruct (IH _ _ _ E) as [[-> Hall]|]; [|by right]. left. split; [done|].
  intros x [-> |Hx]%elem_of_cons.
  - exists g. split_and!; [done..|]. by eapply Hkeep.
  - destruct (Hall x Hx) as (g' & Hg' & Hu' & Hin'). exists g'. split_and!; [|done..].
    destruct (Hsub _ Hg') as [|Hc]; [done|]. unfold usable, unused in Hu'.
    destruct (gr_consumed g'); [by rewrite andb_false_r in Hu'|done].
Qed.

Definition permission (now : time) (r : request) (w w' : rworld) : Prop :=
  rt_ext w' = rt_ext w ∨ granted now r (rt_grants w) (rt_grants w').

Lemma disabled_allows sk o : enabled rules = false → evaluate_skill rules sk o = no_decision.
Proof. unfold enabled. by destruct rules. Qed.

Lemma policy_first now r issued w us w' s' : let s := initial_state r "routing" issued in
  nstep policy_check now s w = (Ok us, w') → merge us s = Ok s' →
  rt_ext w' = rt_ext w
  ∧ (after_policy s' = skill_match ∧ granted now r (rt_grants w) (rt_grants w')
     ∨ after_policy s' = no_agent_found ∨ after_policy s' = escalate).
Proof.
  intros s H Hm. simpl in H. unfold on_grants in H.
  destruct (policy_node rules digest now s (rt_grants w)) as [y g] eqn:E. injection H as -> <-. split; [done|].
  unfold policy_node in E. simpl in E. destruct (enabled rules) eqn:En; simpl in E; cycle 1.
  - injection E as <- <-. injection Hm as <-. left. split; [done|]. unfold granted, denied, decision.
    setoid_rewrite (disabled_allows _ _ En). split; [by intros (sk & _ & ?)|done].
  - destruct (held_skills rules _ _) as [d|held] eqn:Eh.
    + injection E as <- _. injection Hm as <-. right. by left.
    + destruct (consumed_all _ _ _ _ _ _ E) as [[-> Hall]|(sk & dg & d & ->)].
      * injection Hm as <-. left. split; [done|]. pose proof (held_all _ _ _ Eh) as Hh. split.
        -- intros (sk & Hsk & Hd). by destruct (Hh sk Hsk).
        -- intros sk Hsk Hd. destruct (Hh sk Hsk) as [_ Hin]. apply Hall. by apply Hin.
      * injection Hm as <-. right. by right.
Qed.

Lemma later_step n now s w x w' : n ≠ policy_check → nstep n now s w = (x, w') → rt_grants w' = rt_grants w.
Proof.
  intros Hn H. destruct n; try done; simpl in H; try by injection H as _ <-.
  unfold on_ext in H. destruct (execute_node agents s (rt_ext w)). by injection H as _ <-.
Qed.
Lemma held_denies o req sk : sk ∈ req → d_action (evaluate_skill rules sk o) = DENY →
  ∃ d, held_skills rules o req = inl d.
Proof.
  intros Hsk Hd. destruct (held_skills rules o req) as [d|h] eqn:E; [by eexists|].
  by destruct (held_all _ _ _ E sk Hsk).
Qed.

(** C8: no agent runs without permission. Whatever the graph returns or raises, if
    what agents act on has changed then no required skill was denied, and each
    skill that needs a review used up an approval that was issued for this origin
    and payload, was unused and had not expired. A task with a denied skill changes
    nothing at all, not even the approvals, and ends without an agent. *)
Theorem agents_run_with_permission clock r issued w :
  let '(x, w') := inv clock (initial_state r "routing" issued) w in
  permission (clock 0%nat) r w w'
  ∧ (denied r → w' = w ∧ ∃ s', x = Ok (Some s') ∧ s_status s' = "no_agent_found"
       ∧ failure_reason s' = Some "policy_denied" ∧ assigned_agent s' = None).
Proof.
  destruct (inv clock _ w) as [x w'] eqn:H. split.
  - unfold invoke in H.
    eapply (run_graph_ind clock (λ k n s w1,
        (k = 0%nat ∧ n = policy_check ∧ s = initial_state r "routing" issued ∧ w1 = w)
        ∨ n ≠ policy_check ∧ (granted (clock 0%nat) r (rt_grants w) (rt_grants w1)
            ∨ rt_ext w1 = rt_ext w ∧ (n = escalate ∨ n = no_agent_found)))
      (permission (clock 0%nat) r w) (λ _ _, True)) in H as [Hp _]; [exact Hp| | | |].
    + unfold permission. intros k n s w1 [(_ & _ & _ & ->)|[_ [?|[? _]]]]; auto.
    + intros k n s w1 y w2 [(-> & -> & -> & ->)|[Hn Hw]] Hs.
      * left. simpl in Hs. unfold on_grants in Hs. destruct (policy_node _ _ _ _ _). by injection Hs as _ <-.
      * unfold permission. rewrite (later_step _ _ _ _ _ _ Hn Hs). destruct Hw as [?|[Hx [-> | ->]]]; [by right| |];
          injection Hs as _ <-; by left.
    + intros k n s w1 us w2 s2 [(-> & -> & -> & ->)|[Hn Hw]] Hs Hm.
      * destruct (policy_first _ _ _ _ _ _ _ Hs Hm) as [Hx [[Ha Hg]|[Ha|Ha]]]; simpl; rewrite Ha; right; auto.
      * assert (Hg : granted (clock 0%nat) r (rt_grants w) (rt_grants w1) → match edge n s2 with
            | Some n' => n' ≠ policy_check ∧ granted (clock 0%nat) r (rt_grants w) (rt_grants w2) | None => True end).
        { rewrite (later_step _ _ _ _ _ _ Hn Hs). intros Hg. destruct (edge n s2) as [n'|] eqn:He; [|done].
          split; [|done]. destruct n; simpl in He; try discriminate He; try done; injection He as <-;
            unfold after_skill_match, after_load_check, after_execute, after_handle_failure; by repeat case_match. }
        destruct Hw as [Hw|[Hx [-> | ->]]]; [|done|done].
        specialize (Hg Hw). destruct (edge n s2); [|done]. right. destruct Hg. auto.
    + by left.
  - intros (sk & Hsk & Hd). unfold decision in Hd. destruct (held_denies _ _ _ Hsk Hd) as [d Eh].
    destruct (enabled rules) eqn:En; [|by rewrite (disabled_allows _ _ En) in Hd].
    assert (Ep : nstep policy_check (clock 0%nat) (initial_state r "routing" issued) w = (Ok (denial d), w)).
    { simpl. unfold on_grants, policy_node. rewrite En. simpl. rewrite Eh. by destruct w. }
    unfold invoke, recursion_limit in H. cbn [run_graph] in H. unfold mbind at 1, M_bind at 1 in H. rewrite Ep in H.
    injection H as <- <-. split; [done|]. eexists. split; [done|]. done.
Qed.

(** C11: routing keeps its state well typed. From a validated request, every state
    the graph answers with satisfies the declared constraints: a confidence between
    0 and 1 whatever the agents reported, a retry count that is not negative, and a
    status and an issue time that are not blank. *)
Theorem routing_keeps_types clock r issued w s' w' :
  validate_request r = Ok r → validate_non_empty_str issued = Ok issued →
  inv clock (initial_state r "routing" issued) w = (Ok (Some s'), w') → well_typed s'.
Proof.
  intros Hr Hi E. eapply (run_graph_ind clock (λ _ _ s _, well_typed s) (λ _, True) (λ s _, well_typed s)) in E as [_ Hf];
    [by apply Hf|done|done| |].
  - intros k n s w1 us w2 s2 Ht Hs Hm. pose proof (merge_typed _ _ _ Hm Ht) as Ht2. by destruct (edge n s2).
  - by split.
Qed.
End Props.

(** ** Witnesses *)

Module RoutingDemo.
Definition skill : SkillDefinition := mk_Skill "s.a" "does a" [] [] (1#2) 100 None.
Definition manifest : SkillManifest := mk_Manifest "rigel" "Rigel" "1.0" [skill] "/health" 0 30.
Definition reg : registry := mk_registry [("rigel", manifest)] [].
(** An agent that counts its runs and is first too unsure, then sure. *)
Definition rigel : agent_run nat := λ _ _ _ n,
  (inr [("confidence", JFloat (if (n =? 0)%nat then 62 # 100 else 9 # 10)); ("result", JObj [])], S n).
Definition agents (a : string) : option (agent_run nat) := if String.eqb a "rigel" then Some rigel else None.
Definition no_text (s : string) : result Q := Raise ValueError.
Definition demo_request : request := mk_request "t1" (Some "user") "build" ["s.a"] "NORMAL" [] [] 30000 None.
Definition clock (k : nat) : time := Z.of_nat k.
Definition start : routing_world nat := mk_rw [] 0%nat.
Definition go : result (option AndromedaState) * routing_world nat :=
  invoke agents [] (λ _ _ _, "") no_text [] reg "->" (65 # 100) (40 # 100) clock
    (initial_state demo_request "routing" "now") start.
Definition answer : AndromedaState :=
  match go.1 with Ok (Some s) => s | _ => initial_state demo_request "" "" end.
End RoutingDemo.
Import RoutingDemo.

(** The retry is taken: the agent runs twice. *)
Example one_retry : retry_count answer = 1 ∧ rt_ext go.2 = 2%nat ∧ s_status answer = "complete".
Proof. vm_compute. auto. Qed.

Lemma completed_tasks_were_served_witness : (65 # 100 <= confidence_of answer)%Q.
Proof.
  refine (proj2 (proj2 (completed_tasks_were_served agents [] (λ _ _ _, "") no_text [] reg "->" (65 # 100) (40 # 100)
    clock demo_request "now" start answer go.2 _ _))).
  - vm_compute. reflexivity.
  - vm_compute. reflexivity.
Defined.

Lemma routing_answers_witness : ∃ s' w', go = (Ok (Some s'), w') ∧ ending s'.
Proof.
  apply (routing_answers agents [] (λ _ _ _, "") no_text [] reg "->" (65 # 100) (40 # 100) clock demo_request
    "now" start).
  - intros a ar sk p c x Ha. unfold agents in Ha. destruct (String.eqb a "rigel"); [|discriminate Ha].
    injection Ha as <-. simpl. split_and!; [by eexists| |by eexists|by eexists].
    destruct (x =? 0)%nat; by eexists.
  - intros sk. by eexists.
  - by eexists.
Defined.

Lemma routing_keeps_types_witness : well_typed answer.
Proof.
  apply (routing_keeps_types agents [] (λ _ _ _, "") no_text [] reg "->" (65 # 100) (40 # 100) clock demo_request
    "now" start answer go.2); vm_compute; reflexivity.
Defined.
