(* ===== verification/Route.v ===== *)
(** agents/andromeda/orchestrator.py: [Andromeda.route], from a task contract to the
    answer, through the graph and into the log, the artifact store and the queue of
    reviews.

    The stores are the parts of one state. Reading the workspace configuration,
    joining a path and making a directory are arguments. *)

From S2P Require Import Prelude.
From S2P Require Import PyStr.
From S2P Require Import PyTime.
From S2P Require Import Json.
From S2P Require Import Contracts.
From S2P Require Import Artifacts.
From S2P Require Import ReviewQueue.
From S2P Require Import Completion.
From S2P Require Import GoalStore.
From S2P Require Import Policy.
From S2P Require Import Registry.
From S2P Require Import Nebula.
From S2P Require Import RoutingState.
From S2P Require Import TaskLog.
From S2P Require Import Orchestrator.
From S2P Require Import OrchestratorProps.
Open Scope Z_scope.

Record platform (O R : Type) := mk_platform {
  pl_routing : routing_world R;
  pl_log : list log_row;
  pl_memories : list MemoryEntry;
  pl_goals : gstore;
  pl_artifacts : store O;
  pl_reviews : queue }.
Arguments mk_platform {O R}. Arguments pl_routing {O R}. Arguments pl_log {O R}.
Arguments pl_memories {O R}. Arguments pl_goals {O R}. Arguments pl_artifacts {O R}.
Arguments pl_reviews {O R}.

(** What a caller may pass beside a contract. *)
Record route_args := mk_args {
  ra_task : option TaskContract;
  ra_task_type : option string;
  ra_required : list string;
  ra_payload : option jdict;
  ra_context : option jdict;
  ra_priority : string }.

(** [self.route(task=task)]. *)
Definition for_task (t : TaskContract) : route_args := mk_args (Some t) None [] None None "NORMAL".

(** [state.model_dump(mode="python")]. *)
Definition jopt_str (o : option string) : json := match o with Some s => JStr s | None => JNull end.
Definition jopt_num (o : option Q) : json := match o with Some q => JFloat q | None => JNull end.
Definition jopt_obj (o : option jdict) : json := match o with Some d => JObj d | None => JNull end.

Definition dump_state (s : AndromedaState) : jdict :=
  let r := st_request s in
  [("task_id", JStr (rq_task_id r)); ("origin", jopt_str (rq_origin r)); ("task_type", JStr (rq_task_type r));
   ("required_skills", JArr (map JStr (required_skills r))); ("priority", JStr (rq_priority r));
   ("payload", JObj (rq_payload r)); ("context", JObj (rq_context r)); ("timeout_ms", JInt (timeout_ms r));
   ("matched_agents", JArr (map JStr (matched_agents s))); ("assigned_agent", jopt_str (assigned_agent s));
   ("assignment_reason", JStr (assignment_reason s)); ("result", jopt_obj (s_result s));
   ("confidence", jopt_num (s_confidence s)); ("confidence_threshold", jopt_num (rq_threshold r));
   ("confidence_breakdown", jopt_obj (confidence_breakdown s)); ("gaps", JArr (map JStr (s_gaps s)));
   ("status", JStr (s_status s)); ("retry_count", JInt (retry_count s));
   ("failure_reason", jopt_str (failure_reason s)); ("escalated_to_human", JBool (escalated_to_human s));
   ("issued_at", JStr (issued_at s)); ("completed_at", jopt_str (completed_at s))].

(** The keys lifted from the agent's output. *)
Definition lift_output (s : AndromedaState) : jdict :=
  let out := or_else (s_result s) [] in
  obj_set "externally_calibrated" (obj_default "externally_calibrated" (JBool false) out)
   (obj_set "execution_result" (obj_field "execution_result" out)
    (obj_set "summary" (obj_default "summary" (JStr "") out)
     (obj_set "writable" (obj_default "writable" (JBool false) out)
      (obj_set "artifacts" (obj_default "artifacts" (JArr []) out) (dump_state s))))).

Definition memory_json (m : MemoryEntry) : json :=
  JObj [("memory_id", JStr (uuid_str (memory_id m))); ("namespace", JStr (namespace m));
        ("content", JStr (content m)); ("tags", JArr (map JStr (tags m)))].

(** " ".join(v for v in task.payload.values() if isinstance(v, str)). *)
Definition query_of (payload : jdict) : string :=
  join " " (omap (λ kv : string * json, match kv.2 with JStr s => Some s | _ => None end) payload).

(** The memories a task is given: what recall finds, then the newest lessons. *)
Definition memories_for (t : TaskContract) (rows : list MemoryEntry) : result (list MemoryEntry) :=
  let query := query_of (payload t) in
  found ← (if truthy_str query then recall [origin t; "global"] (Some query) 5 rows else Ok []);
  lessons ← list_memories ("skill:" +:+ skill t) max_skill_lessons rows;
  Ok (found ++ List.filter (λ l, negb (existsb (λ m, (memory_id m =? memory_id l)%N) found)) lessons).

Definition truthy_root (o : option string) : bool := truthy_str (or_else o "").

Section Route.
Context {O R : Type} `{ObjectStorage O}.
Context (sha256 : string → string) (configured : bool).
Context (agents : string → option (agent_run R)).
Context (rules : PolicyEngine) (digest : option string → string → jdict → string).
Context (float_text : string → result Q) (weights : jdict) (reg : registry) (arrow : string).
Context (completion_threshold failure_threshold : Q).
Context (parse_uuid : string → option uuid) (path_join : string → string → string)
  (mkdir : string → M R unit).
Context (workspace_config : result (option string)) (clock : nat → time).
Local Abbreviation pworld := (platform O R).

Definition set_routing (x : routing_world R) (w : pworld) : pworld :=
  mk_platform x (pl_log w) (pl_memories w) (pl_goals w) (pl_artifacts w) (pl_reviews w).
Definition on_routing {A} (m : M (routing_world R) A) : M pworld A := λ w,
  let '(r, x) := m (pl_routing w) in (r, set_routing x w).
Definition on_log (f : list log_row → list log_row) : M pworld unit := λ w,
  (Ok tt, mk_platform (pl_routing w) (f (pl_log w)) (pl_memories w) (pl_goals w) (pl_artifacts w) (pl_reviews w)).
Definition in_artifacts {A} (m : M (store O) A) : M pworld A := λ w,
  let '(r, a) := m (pl_artifacts w) in
  (r, mk_platform (pl_routing w) (pl_log w) (pl_memories w) (pl_goals w) a (pl_reviews w)).
Definition in_queue (f : queue → queue) : M pworld unit := λ w,
  (Ok tt, mk_platform (pl_routing w) (pl_log w) (pl_memories w) (pl_goals w) (pl_artifacts w) (f (pl_reviews w))).

(** The contract of a call that passes none. *)
Definition task_of (fresh : uuid) (a : route_args) : result TaskContract :=
  match ra_task a with
  | Some t => Ok t
  | None =>
      match ra_required a, ra_payload a with
      | sk :: _, Some p =>
          validate_task (mk_Task fresh "legacy_route" sk p (65 # 100) None None None None (clock 0))
      | _, _ => Raise ValueError
      end
  end.

(** The folder of a task: the goal's own, or one below the configured root. *)
Definition goal_folder (t : TaskContract) (ws : option string) : M pworld (option string) :=
  match goal_of (origin t) with
  | None => mret ws
  | Some g =>
      match parse_uuid g with
      | None => mret ws
      | Some id =>
          goal ← mread (λ w, get_goal id (pl_goals w));
          let folder :=
            match goal with
            | Some x => if truthy_root (g_workspace_root x) then g_workspace_root x
                        else if truthy_root ws then Some (path_join (or_else ws "") ("goal-" +:+ uuid_str id)) else ws
            | None => if truthy_root ws then Some (path_join (or_else ws "") ("goal-" +:+ uuid_str id)) else ws
            end in
          if truthy_root folder
          then on_routing (on_ext (mkdir (or_else folder "")));; mret folder
          else mret folder
      end
  end.

(** [task.model_copy(update={"workspace_root": ...})]. *)
Definition in_folder (folder : option string) (t : TaskContract) : TaskContract :=
  if truthy_root folder
  then mk_Task (t_task_id t) (origin t) (skill t) (payload t) (confidence_threshold t) (deadline_ms t) folder
         (output_path t) (execution_attempt_id t) (t_created_at t)
  else t.

Definition folder_context (folder : option string) (t : TaskContract) (ctx : jdict) : jdict :=
  if truthy_root folder
  then let ctx := obj_set "workspace_root" (jopt_str folder) ctx in
       match output_path t with Some p => obj_set "output_path" (JStr p) ctx | None => ctx end
  else ctx.

Definition memory_context (ms : list MemoryEntry) (ctx : jdict) : jdict :=
  match ms with [] => ctx | _ => obj_set "memory" (JArr (map memory_json ms)) ctx end.

(** The validated request a contract stands for. *)
Definition request_of (a : route_args) (t : TaskContract) (ctx : jdict) : result request :=
  let ty := or_else (ra_task_type a) "" in
  validate_request (mk_request (uuid_str (t_task_id t)) (Some (origin t))
    (if truthy_str ty then ty else last_segment (skill t))
    (match ra_required a with [] => [skill t] | l => l end)
    (ra_priority a) (payload t) ctx
    (match deadline_ms t with Some d => if d =? 0 then 30000 else d | None => 30000 end)
    (Some (confidence_threshold t))).

(** The review of an escalated task. *)
Definition escalation (t : TaskContract) (s : AndromedaState) (deadline : time) (now : time) (q : queue) : queue :=
  let goal := goal_of (origin t) in
  rq_enqueue (rq_task_id (st_request s)) (JStr (rq_task_type (st_request s))) (JFloat (confidence_of s))
    (JObj (rq_payload (st_request s))) (or_else (head (required_skills (st_request s))) "")
    (JStr (or_else (assigned_agent s) "")) (s_result s) (Some (iso deadline)) goal
    (if truthy_opt goal then Some (uuid_str (t_task_id t)) else None) None now q.

(** What route does with an answer no durable attempt stands behind. *)
Definition publish_answer (t : TaskContract) (s : AndromedaState) (res : jdict) : M pworld jdict :=
  let now := clock recursion_limit in
  let arts := obj_field "artifacts" res in
  (if truthy arts
   then parsed ← mlift (match arts with JArr l => rmap artifact_of_json l | _ => Raise TypeError end);
        in_artifacts (record sha256 configured (or_else (workspace_root t) "") (uuid_str (t_task_id t)) (skill t)
          None None None now parsed);; mret tt
   else mret tt);;
  if String.eqb (s_status s) "escalated" then
    deadline ← mlift (dt_add now 3600000000);
    in_queue (escalation t s deadline now);;
    mret (obj_set "review_pending" (JBool true) res)
  else mret res.

Definition route (fresh : uuid) (a : route_args) : M pworld jdict :=
  t ← mlift (task_of fresh a);
  ws ← mlift workspace_config;
  folder ← goal_folder t ws;
  let t := in_folder folder t in
  ms ← mread (λ w, memories_for t (pl_memories w));
  let ctx := memory_context ms (folder_context folder t (or_else (ra_context a) [])) in
  r ← mlift (request_of a t ctx);
  let issued := iso (t_created_at t) in
  on_log (write (initial_state r "received" issued));;
  final ← on_routing (invoke agents rules digest float_text weights reg arrow completion_threshold
    failure_threshold clock (initial_state r "routing" issued));
  s ← mlift (of_option RuntimeError final);
  on_log (write s);;
  let res := lift_output s in
  match execution_attempt_id t with
  | Some _ => mret res
  | None => publish_answer t s res
  end.
End Route.

(** ** Properties *)

Section RouteProps.
Context {O R : Type} `{ObjectStorage O}.
Context (sha256 : string → string) (configured : bool).
Context (agents : string → option (agent_run R)).
Context (rules : PolicyEngine) (digest : option string → string → jdict → string).
Context (float_text : string → result Q) (weights : jdict) (reg : registry) (arrow : string).
Context (completion_threshold failure_threshold : Q).
Context (parse_uuid : string → option uuid) (path_join : string → string → string)
  (mkdir : string → M R unit).
Context (workspace_config : result (option string)) (clock : nat → time).
Local Abbreviation pworld := (platform O R).
Local Abbreviation route_ := (route sha256 configured agents rules digest float_text weights reg arrow
  completion_threshold failure_threshold parse_uuid path_join mkdir workspace_config clock).

(** The stores that carry evidence to people. *)
Definition exposed (w : pworld) : store O * queue := (pl_artifacts w, pl_reviews w).

Lemma keeps_routing {A T} (f : pworld → T) (m : M (routing_world R) A) :
  (∀ x w, f (set_routing x w) = f w) → keeps f (on_routing m).
Proof. intros Hf w. unfold on_routing. destruct (m (pl_routing w)). apply Hf. Qed.

Lemma keeps_folder {T} (f : pworld → T) t ws : (∀ x w, f (set_routing x w) = f w) →
  keeps f (goal_folder parse_uuid path_join mkdir t ws).
Proof.
  intros Hf. unfold goal_folder. destruct (goal_of (origin t)) as [g|]; [|by intros w].
  destruct (parse_uuid g) as [id|]; [|by intros w]. apply keeps_bind; [by intros w|]. intros goal.
  destruct (truthy_root _); [|by intros w]. apply keeps_bind; [by apply keeps_routing|]. by intros u w.
Qed.

Lemma in_folder_attempt folder t : execution_attempt_id (in_folder folder t) = execution_attempt_id t.
Proof. unfold in_folder. by destruct (truthy_root folder). Qed.

(** C12: routing an uncommitted attempt exposes nothing. When the contract names a
    durable attempt, whatever the route returns or raises, the artifact store and
    the queue of reviews are as they were: that evidence is published from the
    committed completion alone. *)
Theorem attempts_expose_nothing fresh a t w : ra_task a = Some t → is_Some (execution_attempt_id t) →
  exposed (route_ fresh a w).2 = exposed w.
Proof.
  intros Ht [att Hatt]. revert w. change (keeps exposed (route_ fresh a)). unfold route.
  apply keeps_lift. intros t' Ht'. unfold task_of in Ht'. rewrite Ht in Ht'. injection Ht' as <-.
  apply keeps_bind; [by intros w|]. intros ws. apply keeps_bind; [by apply keeps_folder|]. intros folder.
  apply keeps_bind; [by intros w|]. intros ms. apply keeps_bind; [by intros w|]. intros r.
  apply keeps_bind; [by intros w|]. intros _. apply keeps_bind; [by apply keeps_routing|]. intros final.
  apply keeps_bind; [by intros w|]. intros s. apply keeps_bind; [by intros w|]. intros _.
  rewrite in_folder_attempt, Hatt. by intros w.
Qed.

Lemma lift_status s : obj_get "status" (lift_output s) = Some (JStr (s_status s)).
Proof. unfold lift_output. rewrite !obj_get_set. done. Qed.

Lemma request_ok a t ctx r : request_of a t ctx = Ok r →
  rq_task_id r = strip (uuid_str (t_task_id t)) ∧ rq_origin r = Some (origin t)
  ∧ rq_threshold r = Some (confidence_threshold t) ∧ rq_payload r = payload t
  ∧ (ra_required a = [] → required_skills r = [skill t]).
Proof.
  unfold request_of, validate_request, validate_non_empty_str. intros Hr. cbv zeta in Hr. rok.
  repeat match goal with E : (if _ then Ok _ else Raise _) = Ok _ |- _ =>
    let T := type of E in lazymatch T with (if ?b then _ else _) = _ => destruct b; [|discriminate E] end;
    injection E as <- end.
  simpl. split_and!; try done. by intros ->.
Qed.

(** The parts of a routing that succeeded. *)
Lemma route_ok fresh a w res w' : route_ fresh a w = (Ok res, w') →
  ∃ t s r rw rw' w1, task_of clock fresh a = Ok t
    ∧ invoke agents rules digest float_text weights reg arrow completion_threshold failure_threshold clock
        (initial_state r "routing" (iso (t_created_at t))) rw = (Ok (Some s), rw')
    ∧ (rq_task_id r = strip (uuid_str (t_task_id t)) ∧ rq_threshold r = Some (confidence_threshold t)
       ∧ rq_origin r = Some (origin t))
    ∧ pl_log w1 = write s (write (initial_state r "received" (iso (t_created_at t))) (pl_log w))
    ∧ pl_reviews w1 = pl_reviews w
    ∧ ∃ folder, match execution_attempt_id t with
      | Some _ => res = lift_output s ∧ w' = w1
      | None => publish_answer sha256 configured clock (in_folder folder t) s (lift_output s) w1 = (Ok res, w')
      end.
Proof.
  unfold route. intros Hr. apply mbind_ok in Hr as (t & w0 & Ht & Hr). unfold mlift in Ht. injection Ht as Ht <-.
  apply mbind_ok in Hr as (ws & w0 & Hws & Hr). unfold mlift in Hws. injection Hws as _ <-.
  apply mbind_ok in Hr as (folder & w1 & Hf & Hr).
  pose proof (keeps_result (λ x, (pl_log x, pl_reviews x)) _ _ _ _
    (keeps_folder (λ x : pworld, (pl_log x, pl_reviews x)) t ws (λ _ _, eq_refl)) Hf) as [= Hlog Hrev]. clear Hf.
  apply mbind_ok in Hr as (ms & w0 & Hms & Hr). unfold mread in Hms. injection Hms as _ <-.
  apply mbind_ok in Hr as (r & w0 & Hreq & Hr). unfold mlift in Hreq. injection Hreq as Hreq <-.
  apply mbind_ok in Hr as ([] & w2 & Hl & Hr). unfold on_log in Hl. injection Hl as <-.
  apply mbind_ok in Hr as (final & w3 & Hi & Hr). unfold on_routing in Hi.
  destruct (invoke _ _ _ _ _ _ _ _ _ _ _ _) as [y rw'] eqn:Ei. injection Hi as -> <-.
  apply mbind_ok in Hr as (s & w0 & Hs & Hr). unfold mlift, of_option in Hs.
  destruct final as [s0|]; [|done]. injection Hs as -> <-.
  apply mbind_ok in Hr as ([] & w4 & Hl & Hr). unfold on_log in Hl. injection Hl as <-.
  simpl in Hr. rewrite in_folder_attempt in Hr.
  assert (Ec : t_created_at (in_folder folder t) = t_created_at t) by (unfold in_folder; by destruct (truthy_root _)).
  rewrite Ec in *. destruct (request_ok _ _ _ _ Hreq) as (Hid & Ho & Hth & Hp & Hsk).
  assert (Ei' : rq_task_id r = strip (uuid_str (t_task_id t)) ∧ rq_threshold r = Some (confidence_threshold t)
      ∧ rq_origin r = Some (origin t))
    by (rewrite Hid, Hth, Ho; unfold in_folder; by destruct (truthy_root _)).
  eexists t, s, r, _, rw', _. split; [exact Ht|]. split; [exact Ei|]. split; [exact Ei'|].
  split; [|split; [|exists folder; destruct (execution_attempt_id t);
    [injection Hr as <- <-; split; reflexivity|exact Hr]]]; simpl; congruence.
Qed.

Lemma published_answer t s res (w : pworld) r w' : publish_answer sha256 configured clock t s res w = (Ok r, w') →
  pl_log w' = pl_log w
  ∧ if String.eqb (s_status s) "escalated"
    then r = obj_set "review_pending" (JBool true) res
         ∧ ∃ deadline, pl_reviews w' = escalation t s deadline (clock recursion_limit) (pl_reviews w)
    else r = res ∧ pl_reviews w' = pl_reviews w.
Proof.
  unfold publish_answer. intros Hp. apply mbind_ok in Hp as ([] & w1 & Ha & Hp).
  assert (E : pl_log w1 = pl_log w ∧ pl_reviews w1 = pl_reviews w).
  { revert Ha. destruct (truthy _); [|by intros [= <-]]. intros Ha.
    apply mbind_ok in Ha as (parsed & w2 & H1 & Ha). unfold mlift in H1. injection H1 as _ <-.
    apply mbind_ok in Ha as (vs & w2 & H1 & Ha). injection Ha as <-. unfold in_artifacts in H1.
    destruct (record _ _ _ _ _ _ _ _ _ _ _). by injection H1 as _ <-. }
  destruct E as [El Er]. destruct (String.eqb _ _).
  - apply mbind_ok in Hp as (d & w2 & H1 & Hp). unfold mlift in H1. injection H1 as _ <-.
    apply mbind_ok in Hp as ([] & w2 & H1 & Hp). unfold in_queue in H1. injection H1 as <-.
    injection Hp as <- <-. split; [done|]. split; [done|]. exists d. simpl. by rewrite Er.
  - by injection Hp as <- <-.
Qed.

(** Every answer is accounted for. A route that returns leaves in the log the
    state it answered with, under the task's id and status; a task it escalates
    outside a durable attempt is waiting in the queue of reviews and says so; and
    a task it calls complete reaches the threshold of its own contract. *)
Theorem answers_are_accounted_for fresh a w res w' : route_ fresh a w = (Ok res, w') →
  ∃ t s, task_of clock fresh a = Ok t ∧ obj_get "status" res = Some (JStr (s_status s)) ∧ ending s
  ∧ row_of_state s ∈ pl_log w'
  ∧ (s_status s = "escalated" → execution_attempt_id t = None →
      obj_get "review_pending" res = Some (JBool true)
      ∧ is_Some (get_by_task_id (rq_task_id (st_request s)) (pl_reviews w')))
  ∧ (s_status s = "complete" → (confidence_threshold t <= confidence_of s)%Q).
Proof.
  intros Hr. apply route_ok in Hr as (t & s & r & rw & rw' & w1 & Ht & Hi & (Hid & Hth & Ho) & Hlog & Hrev & folder & Hres).
  exists t, s. split; [done|].
  destruct (invoke_ending _ _ _ _ _ _ _ _ _ _ _ _ _ _ _ Hi) as (He & _).
  assert (Hc : s_status s = "complete" → (confidence_threshold t <= confidence_of s)%Q).
  { intros Hc. destruct (invoke_complete _ _ _ _ _ _ _ _ _ _ _ _ _ _ _ Hi Hc) as (_ & _ & _ & Hq).
    unfold threshold_of in Hq. by rewrite Hth in Hq. }
  assert (Hrow : row_of_state s ∈ pl_log w1) by (rewrite Hlog; apply upsert_elem).
  destruct (execution_attempt_id t).
  - destruct Hres as [-> ->]. by split_and!.
  - apply published_answer in Hres as [El Hq]. rewrite El. destruct (String.eqb_spec (s_status s) "escalated").
    + destruct Hq as [-> [d Hq]]. rewrite obj_get_set. split_and!; [apply lift_status|done|done| |done].
      intros _ _. rewrite obj_get_set. split; [done|]. rewrite Hq. apply enqueue_present.
    + destruct Hq as [-> Hq]. split_and!; [apply lift_status|done..].
Qed.
End RouteProps.

(** *** Witnesses *)

Module RouteDemo.
(** A task of the skill [s.a], which no review is needed for; the agent is sure of
    it only the second time it runs. *)
Definition task (attempt : option uuid) : TaskContract :=
  mk_Task 9 "user" "s.a" [("spec", JStr "a parser")] (70 # 100) None None None attempt 1000.
Definition start (n : nat) : platform filesystem nat :=
  mk_platform (mk_rw [] n) [] [] empty_gstore empty_store [].
Definition go (attempt : option uuid) (n : nat) : result jdict * platform filesystem nat :=
  route (H := local_storage demo_sha (λ _, None) (mk_local ["srv"] 1000)) demo_sha false
    RoutingDemo.agents [] (λ _ _ _, "") RoutingDemo.no_text [] RoutingDemo.reg "->" (65 # 100) (40 # 100)
    (λ _, None) (λ a b, a +:+ "/" +:+ b) (λ _, mret tt) (Ok None) RoutingDemo.clock 1 (for_task (task attempt)) (start n).
(** The same with an agent that is never sure. *)
Definition unsure : agent_run nat := λ _ _ _ n, (inr [("confidence", JFloat (1 # 2)); ("result", JObj [])], S n).
Definition go_unsure : result jdict * platform filesystem nat :=
  route (H := local_storage demo_sha (λ _, None) (mk_local ["srv"] 1000)) demo_sha false
    (λ _, Some unsure) [] (λ _ _ _, "") RoutingDemo.no_text [] RoutingDemo.reg "->" (65 # 100) (40 # 100)
    (λ _, None) (λ a b, a +:+ "/" +:+ b) (λ _, mret tt) (Ok None) RoutingDemo.clock 1 (for_task (task None)) (start 0).
End RouteDemo.

Lemma attempts_expose_nothing_witness :
  exposed (RouteDemo.go (Some 5%N) 0).2 = exposed (RouteDemo.start 0).
Proof. apply (attempts_expose_nothing _ _ _ _ _ _ _ _ _ _ _ _ _ _ _ _ _ _ (RouteDemo.task (Some 5%N))); by eexists. Defined.

Lemma answers_are_accounted_for_witness :
  ∃ s : AndromedaState, (λ r, match r with Ok d => obj_get "status" d | _ => None end) RouteDemo.go_unsure.1
      = Some (JStr (s_status s))
    ∧ row_of_state s ∈ pl_log RouteDemo.go_unsure.2.
Proof.
  destruct RouteDemo.go_unsure as [[res|e] w'] eqn:E; [|by vm_compute in E].
  destruct (answers_are_accounted_for _ _ _ _ _ _ _ _ _ _ _ _ _ _ _ _ _ _ _ _ _ E) as (t & s & _ & Hs & _ & Hrow & _).
  exists s. split; [exact Hs|exact Hrow].
Defined.

(** The unsure agent's task is escalated, and its review is waiting. *)
Example unsure_is_escalated :
  length (pl_reviews RouteDemo.go_unsure.2) = 1%nat ∧ map l_status (pl_log RouteDemo.go_unsure.2) = ["received"; "escalated"].
Proof. vm_compute. split; reflexivity. Qed.

(** The state keeps an agent's [result], not its whole output: what an agent that
    names a result supplies beside it, its artifacts included, is not in the answer. *)
Definition reporting : agent_run nat := λ _ _ _ n,
  (inr [("result", JObj [("total_count", JInt 3)]); ("confidence", JFloat (9 # 10));
        ("artifacts", JArr [JObj [("filename", JStr "report.md"); ("content", JStr "ok")]])], n).
Example artifacts_beside_a_result_are_dropped :
  match (route (H := local_storage demo_sha (λ _, None) (mk_local ["srv"] 1000)) demo_sha false
    (λ _, Some reporting) [] (λ _ _ _, "") RoutingDemo.no_text [] RoutingDemo.reg "->" (65 # 100) (40 # 100)
    (λ _, None) (λ a b, a +:+ "/" +:+ b) (λ _, mret tt) (Ok None) RoutingDemo.clock 1
    (for_task (RouteDemo.task None)) (RouteDemo.start 0)).1 with
  | Ok res => obj_get "status" res = Some (JStr "complete") ∧ obj_get "artifacts" res = Some (JArr [])
  | Raise _ => False
  end.
Proof. vm_compute. split; reflexivity. Qed.
