(* ===== verification/Planner.v ===== *)
(** agents/andromeda/planner.py: turning an objective into a plan.

    The language model is an argument over a state of its own; [json.loads] of its
    text is one too. [fresh_project i] and [fresh_task i] are the ids drawn for the
    [i]-th project and task; [py_str] is [str] of a JSON value that is no string. *)

From S2P Require Import Prelude.
From S2P Require Import PyStr.
From S2P Require Import Json.
From S2P Require Import Contracts.
From S2P Require Import Policy.
From S2P Require Import Registry.
From Stdlib Require Import Ascii.
Open Scope Z_scope.

(** ** The text of an answer *)

(** [str.splitlines], for code points below 256. *)
Definition line_end (c : ascii) : bool :=
  let n := nat_of_ascii c in
  ((10 <=? n) && (n <=? 13) || (28 <=? n) && (n <=? 30) || (n =? 133))%nat.

Fixpoint splitlines_from (cur : list ascii) (l : list ascii) : list string :=
  match l with
  | [] => match cur with [] => [] | _ => [of_list (rev cur)] end
  | c :: l' =>
      if line_end c then
        of_list (rev cur) ::
          match l' with
          | d :: l'' => if (nat_of_ascii c =? 13)%nat && (nat_of_ascii d =? 10)%nat
                        then splitlines_from [] l'' else splitlines_from [] l'
          | [] => []
          end
      else splitlines_from (c :: cur) l'
  end.
Definition splitlines (s : string) : list string := splitlines_from [] (to_list s).

(** [_strip_fence]. *)
Definition newline : string := of_list [ascii_of_nat 10].

Definition strip_fence (text : string) : string :=
  let text := strip text in
  if startswith text "```" then
    let lines := splitlines text in
    let body := if String.eqb (strip (List.last lines "")) "```" then removelast (tl lines) else tl lines in
    strip (join newline body)
  else text.

Example strip_fence_ex : strip_fence "```json
{}
```
" = "{}".
Proof. reflexivity. Qed.

(** [s.split(sep)\[-1\]] for a separator of several characters. *)
Fixpoint last_piece (sep : list ascii) (skip : nat) (piece : list ascii) (l : list ascii) : string :=
  match l with
  | [] => of_list (rev piece)
  | c :: l' =>
      match skip with
      | S skip => last_piece sep skip [] l'
      | O => if startswith (of_list l) (of_list sep) then last_piece sep (pred (length sep)) [] l'
             else last_piece sep 0 (c :: piece) l'
      end
  end.
Definition after_last (sep s : string) : string := last_piece (to_list sep) 0 [] (to_list s).

Definition endswith (s suffix : string) : bool :=
  startswith (of_list (rev (to_list s))) (of_list (rev (to_list suffix))).

Example after_last_ex :
  after_last ".skill." "rigel.skill.scaffold" = "scaffold" ∧ after_last ".skill." "scaffold" = "scaffold".
Proof. split; reflexivity. Qed.

(** ** Regular expressions of the shortcut

    A word of the pattern gives the texts that may follow its match. *)
Fixpoint eat (word : list ascii) (l : list ascii) : option (list ascii) :=
  match word, l with
  | [], _ => Some l
  | w :: word, c :: l => if Ascii.eqb (lower_char c) w then eat word l else None
  | _, [] => None
  end.

Definition is_word_at (o : option ascii) : bool := match o with Some c => is_word c | None => false end.
(** [\b] between two places. *)
Definition boundary (before after : option ascii) : bool := xorb (is_word_at before) (is_word_at after).

(** [re.search(r"\b(...)\b", text, re.I)]: [ways l] are the rests after a match at
    [l], whose last character is a letter. *)
Fixpoint search_words (ways : list ascii → list (list ascii)) (before : option ascii) (l : list ascii) : bool :=
  boundary before (head l)
    && existsb (λ rest, boundary (Some "a"%char) (head rest)) (ways l)
  || match l with [] => false | c :: l' => search_words ways (Some c) l' end.

Definition webpage_ways (l : list ascii) : list (list ascii) :=
  match eat (to_list "web") l with
  | None => []
  | Some rest =>
      omap (eat (to_list "page"))
        (match rest with c :: rest' => if is_space c then [rest'; rest] else [rest] | [] => [rest] end)
  end.

Definition backend_words : list string :=
  ["api"; "backend"; "database"; "authentication"; "deploy"; "test"; "tests"; "audit"; "react"; "vue"; "angular";
   "django"; "flask"; "next.js"].
Definition backend_ways (l : list ascii) : list (list ascii) := omap (λ w, eat (to_list w) l) backend_words.

Definition search (ways : list ascii → list (list ascii)) (text : string) : bool :=
  search_words ways None (to_list text).

Example webpage_ex : search webpage_ways "A small Web page about me" = true
  ∧ search webpage_ways "webpages" = false ∧ search backend_ways "with Next.js" = true
  ∧ search backend_ways "rapid testing" = false.
Proof. split_and!; vm_compute; reflexivity. Qed.

(** ** The dependency graph *)

Inductive color := White | Grey | Black.

#[export] Instance color_eq_dec : EqDecision color.
Proof. solve_decision. Defined.

Section Cycle.
Context (edges : nat → list nat).

(** The loop of [visit] over the successors of a node. *)
Fixpoint visit_all (visit : nat → list color → bool * list color) (vs : list nat) (c : list color) :
    bool * list color :=
  match vs with
  | [] => (false, c)
  | v :: vs =>
      match c !! v with
      | Some Grey => (true, c)
      | Some White => let '(found, c) := visit v c in if found then (true, c) else visit_all visit vs c
      | _ => visit_all visit vs c
      end
  end.

(** [visit]; the depth of the recursion is bounded by the nodes still white. *)
Fixpoint visit (fuel : nat) (u : nat) (c : list color) : bool * list color :=
  match fuel with
  | O => (false, c)
  | S fuel =>
      let '(found, c) := visit_all (visit fuel) (edges u) (<[u := Grey]> c) in
      if found then (true, c) else (false, <[u := Black]> c)
  end.

(** [any(color\[i\] == WHITE and visit(i) for i in range(n))]. *)
Fixpoint any_cycle (fuel : nat) (nodes : list nat) (c : list color) : bool :=
  match nodes with
  | [] => false
  | i :: nodes =>
      match c !! i with
      | Some White => let '(found, c) := visit fuel i c in if found then true else any_cycle fuel nodes c
      | _ => any_cycle fuel nodes c
      end
  end.

Definition has_cycle (n : nat) : bool := any_cycle n (seq 0 n) (replicate n White).
End Cycle.

Example has_cycle_ex : has_cycle (λ i, nth i [[1]; [2]; [0]]%nat []) 3 = true
  ∧ has_cycle (λ i, nth i [[]; [0]; [0; 1]]%nat []) 3 = false.
Proof. split; reflexivity. Qed.

(** ** Plans *)

Record PlanResult := mk_plan {
  pl_projects : list ProjectNode;
  pl_tasks : list PlannedTask;
  pl_confidence : Q }.

(** [PlanValidationError], by what its text says. *)
Inductive plan_error :=
  | E_json (text : string)
  | E_not_object
  | E_no_projects
  | E_no_tasks
  | E_unknown_skill (skill : json)
  | E_payload (i : nat) (skill : string) (required : json)
  | E_depends_on (i : nat) (deps : json)
  | E_cycle.

(** What a model wrote about one task. *)
Record spec := mk_spec { sp_project : uuid; sp_skill : json; sp_payload : json; sp_deps : json }.

(** The elements [for x in v] goes through. *)
Definition iterate (v : json) : result (list json) :=
  match v with
  | JArr l => Ok l
  | JStr s => Ok (map (λ c, JStr (of_list [c])) (to_list s))
  | JObj d => Ok (map (λ kv, JStr (fst kv)) d)
  | _ => Raise TypeError
  end.

Section Plan.
Context {L : Type} (reg : registry) (llm : string → M L string) (json_loads : string → string + json).
Context (py_str py_repr : json → string) (float_repr : Q → string) (float_text : string → result Q).
Context (fresh_project fresh_task : nat → uuid).

Definition str_of (v : json) : string := match v with JStr s => s | _ => py_str v end.

(** [_known_skills]: a set. *)
Definition known_skills : list string := remove_dups (map skill_id (get_all_skills reg)).

(** [schemas.get(skill)]: the last definition of a skill counts. *)
Definition schema_of (sk : string) : jdict :=
  match List.find (λ d, String.eqb (skill_id d) sk) (rev (get_all_skills reg)) with
  | Some d => input_schema d
  | None => []
  end.

(** *** The prompt *)

Definition skill_line (s : SkillDefinition) : string :=
  "- " +:+ skill_id s +:+ ": " +:+ description s
  +:+ match input_schema s with [] => "" | d => "  payload=" +:+ json_text float_repr (JObj d) end.

Definition user_message (objective correction : string) : string :=
  "Objective:" +:+ newline +:+ objective +:+ newline +:+ newline +:+ "Registered skills:" +:+ newline
  +:+ join newline (map skill_line (get_all_skills reg))
  +:+ if truthy_str correction
      then newline +:+ newline +:+ "Your previous plan was invalid: " +:+ correction
           +:+ ". Return a corrected complete plan."
      else "".

Definition error_text (e : plan_error) : string :=
  match e with
  | E_json e => "planner returned non-JSON: " +:+ e
  | E_not_object => "plan must be a JSON object"
  | E_no_projects => "plan has no projects"
  | E_no_tasks => "plan has no tasks"
  | E_unknown_skill v => "unknown skill: " +:+ py_repr v
  | E_payload i sk req =>
      "task " +:+ py_int (Z.of_nat i) +:+ " payload for " +:+ sk +:+ " requires " +:+ py_repr req
  | E_depends_on i deps => "task " +:+ py_int (Z.of_nat i) +:+ " has invalid depends_on: " +:+ py_repr deps
  | E_cycle => "plan dependency graph has a cycle"
  end.

(** *** Reading the answer *)

(** [float(v)], and 0.5 when it raises; but an integer no float can hold raises
    [OverflowError], which is not caught. *)
Definition too_large (z : Z) : bool := 2 ^ 1024 - 2 ^ 970 <=? Z.abs z.

Definition confidence_in (v : json) : result Q :=
  let clamp q := let q := if Qltb q 1 then q else 1%Q in if Qltb 0 q then q else 0%Q in
  match v with
  | JInt z => if too_large z then Raise OverflowError else Ok (clamp (inject_Z z))
  | JStr s => Ok (match float_text s with Ok q => clamp q | Raise _ => (1 # 2)%Q end)
  | _ => Ok (match jnum v with Ok q => clamp q | Raise _ => (1 # 2)%Q end)
  end.

Definition read_task (p : uuid) (v : json) : result spec :=
  match v with
  | JObj d => Ok (mk_spec p (obj_field "skill" d) (jor (obj_field "payload" d) (JObj []))
                    (jor (obj_field "depends_on" d) (JArr [])))
  | _ => Raise AttributeError
  end.

Definition read_project (g : uuid) (i : nat) (v : json) : result (ProjectNode * list spec) :=
  match v with
  | JObj d =>
      title ← validate_non_empty_str (str_of (jor (obj_field "title" d) (JStr "Untitled project")));
      let p := mk_Project (fresh_project i) g title (str_of (jor (obj_field "description" d) (JStr ""))) in
      tasks ← iterate (obj_default "tasks" (JArr []) d);
      specs ← rmap (read_task (project_id p)) tasks;
      Ok (p, specs)
  | _ => Raise AttributeError
  end.

Fixpoint read_projects (g : uuid) (i : nat) (vs : list json) : result (list ProjectNode * list spec) :=
  match vs with
  | [] => Ok ([], [])
  | v :: vs =>
      ps ← read_project g i v;
      rest ← read_projects g (S i) vs;
      Ok (fst ps :: fst rest, snd ps ++ snd rest)
  end.

(** *** Validating it *)

(** Repair an invented prefix when one skill alone has the capability. *)
Definition correct_skill (v : json) : plan_error + string :=
  match List.filter (λ k, endswith k (".skill." +:+ after_last ".skill." (str_of v))) known_skills with
  | [k] => inr k
  | _ => inl (E_unknown_skill v)
  end.

Definition resolve_skill (v : json) : result (plan_error + string) :=
  match v with
  | JArr _ | JObj _ => Raise TypeError
  | JStr s => Ok (if bool_decide (s ∈ known_skills) then inr s else correct_skill v)
  | _ => Ok (correct_skill v)
  end.

(** [any(key not in payload for key in required)]. *)
Fixpoint missing_key (payload : jdict) (keys : list json) : result bool :=
  match keys with
  | [] => Ok false
  | JArr _ :: _ | JObj _ :: _ => Raise TypeError
  | JStr k :: keys => if obj_has k payload then missing_key payload keys else Ok true
  | _ :: _ => Ok true
  end.

(** An index into the flattened list; a boolean is an integer. *)
Definition index_of (v : json) : option Z :=
  match v with JInt z => Some z | JBool b => Some (if b then 1 else 0) | _ => None end.

Definition dep_index (n i : nat) (v : json) : option nat :=
  match index_of v with
  | Some d => if (0 <=? d) && (d <? Z.of_nat n) && negb (d =? Z.of_nat i) then Some (Z.to_nat d) else None
  | None => None
  end.

Definition read_deps (n i : nat) (v : json) : option (list nat) :=
  match v with JArr l => mapM (dep_index n i) l | _ => None end.

(** A task of the plan once it has been validated. *)
Record checked := mk_checked {
  ck_project : uuid; ck_skill : string; ck_payload : jdict; ck_deps : list nat }.

Definition check_spec (n i : nat) (s : spec) : result (plan_error + checked) :=
  sk ← resolve_skill (sp_skill s);
  match sk with
  | inl e => Ok (inl e)
  | inr sk =>
      let required := obj_default "required" (JArr []) (schema_of sk) in
      match sp_payload s with
      | JObj payload =>
          keys ← iterate required;
          missing ← missing_key payload keys;
          if (missing : bool) then Ok (inl (E_payload i sk required)) else
          match read_deps n i (sp_deps s) with
          | Some deps => Ok (inr (mk_checked (sp_project s) sk payload deps))
          | None => Ok (inl (E_depends_on i (sp_deps s)))
          end
      | _ => Ok (inl (E_payload i sk required))
      end
  end.

Fixpoint check_specs (n i : nat) (ss : list spec) : result (plan_error + list checked) :=
  match ss with
  | [] => Ok (inr [])
  | s :: ss =>
      c ← check_spec n i s;
      match c with
      | inl e => Ok (inl e)
      | inr c =>
          cs ← check_specs n (S i) ss;
          Ok (match cs with inl e => inl e | inr cs => inr (c :: cs) end)
      end
  end.

Definition edges_of (cs : list checked) (i : nat) : list nat := from_option ck_deps [] (cs !! i).

Definition planned (g : uuid) (i : nat) (c : checked) : PlannedTask :=
  mk_Planned (fresh_task i) (ck_project c) g (ck_skill c) (ck_payload c) (map fresh_task (ck_deps c)) t_pending
    JNull None None.

(** From the text of the answer to the plan. *)
Definition read_plan (g : uuid) (raw : string) : result (plan_error + PlanResult) :=
  match json_loads (strip_fence raw) with
  | inl e => Ok (inl (E_json e))
  | inr (JObj data) =>
      match obj_field "projects" data with
      | JArr (v :: vs) =>
          confidence ← confidence_in (obj_default "plan_confidence" (JFloat (1 # 2)) data);
          ps ← read_projects g 0 (v :: vs);
          match snd ps with
          | [] => Ok (inl E_no_tasks)
          | specs =>
              cs ← check_specs (length specs) 0 specs;
              match cs with
              | inl e => Ok (inl e)
              | inr cs =>
                  if has_cycle (edges_of cs) (length specs) then Ok (inl E_cycle) else
                  Ok (inr (mk_plan (fst ps) (imap (planned g) cs) confidence))
              end
          end
      | _ => Ok (inl E_no_projects)
      end
  | inr _ => Ok (inl E_not_object)
  end.

(** [_plan_once]. *)
Definition plan_once (goal : GoalContract) (correction : string) : M L (plan_error + PlanResult) :=
  raw ← llm (user_message (objective goal) correction);
  mlift (read_plan (goal_id goal) raw).

Definition webpage_goal (text : string) : bool :=
  bool_decide ("rigel.skill.scaffold" ∈ known_skills) && search webpage_ways text && negb (search backend_ways text).

Definition webpage_plan (goal : GoalContract) : PlanResult :=
  mk_plan [mk_Project (fresh_project 0) (goal_id goal) "Webpage" (objective goal)]
    [mk_Planned (fresh_task 0) (fresh_project 0) (goal_id goal) "rigel.skill.scaffold"
       [("project_type", JStr "standalone webpage"); ("stack", JStr "HTML, CSS and JavaScript");
        ("features", JArr [JStr (objective goal)])] [] t_pending JNull None None] 1.

(** [plan]: one correction is asked for. *)
Definition plan (goal : GoalContract) : M L PlanResult :=
  if webpage_goal (objective goal) then mret (webpage_plan goal) else
  first ← plan_once goal "";
  match first with
  | inr p => mret p
  | inl e =>
      second ← plan_once goal (error_text e);
      match second with inr p => mret p | inl _ => mraise PlanValidationError end
  end.
End Plan.

(** *** The search finds exactly the cycles *)

Section CycleCorrect.
Context (edges : nat → list nat) (n : nat).
Definition depends (u v : nat) : Prop := v ∈ edges u.
Definition on_cycle (x : nat) : Prop := (x < n)%nat ∧ tc depends x x.

Definition white (c : color) : bool := bool_decide (c = White).
Definition whites (c : list color) : nat := length (List.filter white c).

(** What a partial search knows: black nodes only lead to black nodes, and none of
    them is on a cycle. *)
Record searched (c : list color) : Prop := {
  se_length : length c = n;
  se_closed : ∀ x y, c !! x = Some Black → depends x y → c !! y = Some Black;
  se_acyclic : ∀ x, c !! x = Some Black → ¬ tc depends x x }.

(** A later state of the search: the same stack, more black nodes. *)
Record extends (c c' : list color) : Prop := {
  ex_grey : ∀ x, c' !! x = Some Grey ↔ c !! x = Some Grey;
  ex_black : ∀ x, c !! x = Some Black → c' !! x = Some Black }.

Lemma extends_refl c : extends c c.
Proof. by split. Qed.
Lemma extends_trans a b c : extends a b → extends b c → extends a c.
Proof. intros [H1 H2] [H3 H4]. split; [intros x; by rewrite H3, H1|auto]. Qed.

Lemma searched_reach c x y : searched c → c !! x = Some Black → rtc depends x y → c !! y = Some Black.
Proof. intros Hs Hx. induction 1 as [|x z y Hxz _ IH]; [done|]. apply IH. by eapply se_closed. Qed.

Lemma whites_insert c : ∀ u k, c !! u = Some White → k ≠ White → (whites (<[u:=k]> c) < whites c)%nat.
Proof.
  induction c as [|a c IH]; intros [|u] k Hu Hk; simpl in *; try done.
  - injection Hu as ->. unfold whites. destruct k; [done|simpl; lia..].
  - unfold whites in *. simpl. specialize (IH u k Hu Hk). destruct (white a); simpl; lia.
Qed.

Lemma whites_extends : ∀ c c', length c' = length c → extends c c' → (whites c' ≤ whites c)%nat.
Proof.
  unfold whites. induction c as [|a c IH]; intros [|a' c'] Hl Hx; try done.
  assert (IH' : (length (List.filter white c') ≤ length (List.filter white c))%nat).
  { apply IH; [by injection Hl|]. destruct Hx as [H1 H2]. split; intros x; [apply (H1 (S x))|apply (H2 (S x))]. }
  simpl. destruct Hx as [H1 H2]. pose proof (H1 0%nat) as H1. pose proof (H2 0%nat) as H2. simpl in H1, H2.
  destruct a, a'; simpl; try lia; naive_solver.
Qed.

(** What a visit of [u] returns: a cycle, or a larger searched part with [u] in it. *)
Definition visited (c : list color) (targets : list nat) (r : bool * list color) : Prop :=
  if r.1 then ∃ x, on_cycle x
  else searched r.2 ∧ extends c r.2 ∧ ∀ v, v ∈ targets → r.2 !! v = Some Black.

Definition stacked (u : nat) (c : list color) : Prop := ∀ g, c !! g = Some Grey → rtc depends g u.

Lemma visit_all_spec (f : nat → list color → bool * list color) u vs k :
  (∀ v c, searched c → c !! v = Some White → (whites c ≤ k)%nat → stacked v c → visited c [v] (f v c)) →
  (∀ v, v ∈ vs → depends u v ∧ (v < n)%nat) →
  ∀ c, searched c → (whites c ≤ k)%nat → stacked u c → visited c vs (visit_all f vs c).
Proof.
  intros Hf. induction vs as [|v vs IH]; intros Hvs c Hs Hk Hst; simpl.
  { split_and!; [done|apply extends_refl|by intros v ?%elem_of_nil]. }
  destruct (Hvs v ltac:(by left)) as [Huv Hvn].
  assert (IH' := IH ltac:(intros; apply Hvs; by right)).
  destruct (c !! v) as [[]|] eqn:Ev.
  - specialize (Hf v c Hs Ev Hk). destruct (f v c) as [[] c1].
    + unfold visited in *. simpl in *. apply Hf. intros g Hg. eapply rtc_r; [by apply Hst|done].
    + destruct Hf as (Hs1 & Hx1 & Hb1); [intros g Hg; eapply rtc_r; [by apply Hst|done]|]. simpl in *.
      assert (Hk1 : (whites c1 ≤ k)%nat).
      { etrans; [apply (whites_extends c); [by rewrite (se_length _ Hs), (se_length _ Hs1)|done]|done]. }
      specialize (IH' c1 Hs1 Hk1). unfold visited in *. destruct (visit_all f vs c1) as [[] c2]; simpl in *;
        [apply IH'; intros g Hg; apply Hst; by apply Hx1|].
      destruct IH' as (Hs2 & Hx2 & Hb2); [intros g Hg; apply Hst; by apply Hx1|].
      split_and!; [done|by eapply extends_trans|]. intros x [-> |Hx]%elem_of_cons; [|auto].
      apply Hx2, Hb1. by left.
  - exists v. split; [done|]. eapply tc_rtc_l; [by apply Hst|by apply tc_once].
  - specialize (IH' c Hs Hk Hst). unfold visited in *. destruct (visit_all f vs c) as [[] c2]; [done|].
    destruct IH' as (Hs2 & Hx2 & Hb2). split_and!; [done..|]. intros x [-> |Hx]%elem_of_cons; [by apply Hx2|auto].
  - apply lookup_ge_None in Ev. rewrite (se_length _ Hs) in Ev. lia.
Qed.

Context (in_range : ∀ u v, (u < n)%nat → v ∈ edges u → (v < n)%nat).

Lemma visit_spec fuel : ∀ u c, searched c → c !! u = Some White → (whites c ≤ fuel)%nat → stacked u c →
  visited c [u] (visit edges fuel u c).
Proof.
  induction fuel as [|fuel IH]; intros u c Hs Hu Hk Hst.
  { pose proof (whites_insert c u Black Hu ltac:(done)). lia. }
  assert (Hun : (u < length c)%nat) by (by eapply lookup_lt_Some). set (c1 := <[u:=Grey]> c).
  assert (Hs1 : searched c1).
  { destruct Hs as [Hl Hc Ha]. split; [by unfold c1; rewrite length_insert| |].
    - intros x y Hx Hxy. unfold c1 in *. apply list_lookup_insert_Some in Hx as [(? & ? & ?)|[Hne Hx]]; [done|].
      pose proof (Hc x y Hx Hxy) as Hy. rewrite list_lookup_insert_ne; [done|]. intros ->. congruence.
    - intros x Hx. unfold c1 in *. apply list_lookup_insert_Some in Hx as [(? & ? & ?)|[Hne Hx]]; [done|]. by apply Ha. }
  assert (Hk1 : (whites c1 ≤ fuel)%nat) by (pose proof (whites_insert c u Grey Hu ltac:(done)); unfold c1; lia).
  assert (Hst1 : stacked u c1).
  { intros g Hg. unfold c1 in Hg. apply list_lookup_insert_Some in Hg as [(-> & _)|[_ Hg]]; [done|]. by apply Hst. }
  pose proof (visit_all_spec (visit edges fuel) u (edges u) fuel IH) as Hall. simpl.
  specialize (Hall ltac:(intros v Hv; split; [done|]; eapply in_range; [|done]; by rewrite <-(se_length _ Hs))
    c1 Hs1 Hk1 Hst1). unfold visited in *. fold c1. destruct (visit_all (visit edges fuel) (edges u) c1) as [[] c2];
    simpl in *; [done|]. destruct Hall as (Hs2 & Hx2 & Hb2).
  assert (Hu2 : c2 !! u = Some Grey) by (apply Hx2; unfold c1; by rewrite list_lookup_insert_eq).
  assert (Hnew : ∀ y, depends u y → c2 !! y = Some Black) by (intros y Hy; by apply Hb2).
  assert (Hun2 : (u < length c2)%nat) by (by eapply lookup_lt_Some).
  assert (Hput : ∀ y, c2 !! y = Some Black → <[u:=Black]> c2 !! y = Some Black).
  { intros y Hy. destruct (decide (u = y)) as [->|]; [by apply list_lookup_insert_eq|by rewrite list_lookup_insert_ne]. }
  split_and!.
  - split; [rewrite length_insert; apply Hs2| |].
    + intros x y Hx Hxy. apply Hput. apply list_lookup_insert_Some in Hx as [(<- & _)|[_ Hx]]; [by apply Hnew|].
      by eapply se_closed.
    + intros x Hx. apply list_lookup_insert_Some in Hx as [(<- & _)|[_ Hx]]; [|by eapply se_acyclic].
      intros Hc. inversion Hc as [? ? Hv|? v ? Hv Hc']; subst.
      * apply Hnew in Hv. congruence.
      * assert (c2 !! u = Some Black); [|congruence].
        eapply searched_reach; [done|by apply Hnew|]. by apply tc_rtc.
  - split.
    + intros x. destruct (decide (u = x)) as [<-|Hne].
      * rewrite list_lookup_insert_eq by done. rewrite Hu. done.
      * rewrite list_lookup_insert_ne by done. rewrite (ex_grey _ _ Hx2). unfold c1. by rewrite list_lookup_insert_ne.
    + intros x Hx. apply Hput, Hx2. unfold c1. rewrite list_lookup_insert_ne; [done|]. intros ->. congruence.
  - intros v ->%list_elem_of_singleton. by apply list_lookup_insert_eq.
Qed.

Lemma any_cycle_spec nodes : (∀ i, i ∈ nodes → (i < n)%nat) → ∀ c, searched c → (∀ g, c !! g ≠ Some Grey) →
  if any_cycle edges n nodes c then ∃ x, on_cycle x
  else ∃ c', searched c' ∧ extends c c' ∧ ∀ i, i ∈ nodes → c' !! i = Some Black.
Proof.
  induction nodes as [|i nodes IH]; intros Hn c Hs Hg; simpl.
  { exists c. split_and!; [done|apply extends_refl|by intros i ?%elem_of_nil]. }
  assert (IH' := IH ltac:(intros; apply Hn; by right)). destruct (c !! i) as [[]|] eqn:Ei.
  - assert (Hk : (whites c ≤ n)%nat).
    { rewrite <-(se_length _ Hs). unfold whites. clear. induction c as [|a c IH]; simpl; [done|]. destruct (white a); simpl; lia. }
    pose proof (visit_spec n i c Hs Ei Hk ltac:(intros g Hg'; by destruct (Hg g))) as Hv.
    unfold visited in Hv. destruct (visit edges n i c) as [[] c1]; [exact Hv|].
    destruct Hv as (Hs1 & Hx1 & Hb1). simpl in *.
    specialize (IH' c1 Hs1 ltac:(intros g Hg'; apply Hx1 in Hg'; by destruct (Hg g))).
    destruct (any_cycle edges n nodes c1); [done|]. destruct IH' as (c2 & Hs2 & Hx2 & Hb2).
    exists c2. split_and!; [done|by eapply extends_trans|]. intros x [-> |Hx]%elem_of_cons; [|auto].
    apply Hx2, Hb1. by left.
  - by destruct (Hg i).
  - specialize (IH' c Hs Hg). destruct (any_cycle edges n nodes c); [done|]. destruct IH' as (c2 & Hs2 & Hx2 & Hb2).
    exists c2. split_and!; [done..|]. intros x [-> |Hx]%elem_of_cons; [by apply Hx2|auto].
  - apply lookup_ge_None in Ei. rewrite (se_length _ Hs) in Ei. specialize (Hn i ltac:(by left)). lia.
Qed.

Lemma has_cycle_spec : has_cycle edges n = true ↔ ∃ x, on_cycle x.
Proof.
  assert (Hs : searched (replicate n White)).
  { split; [by rewrite length_replicate| |].
    - intros x y [? _]%lookup_replicate. done.
    - by intros x [? _]%lookup_replicate. }
  pose proof (any_cycle_spec (seq 0 n) ltac:(intros i Hi%elem_of_seq; lia) _ Hs
    ltac:(intros g [? _]%lookup_replicate; done)) as H. fold (has_cycle edges n) in H.
  destruct (has_cycle edges n); [by split|]. split; [done|]. intros (x & Hx & Hc).
  destruct H as (c & Hc' & _ & Hb). exfalso. eapply (se_acyclic _ Hc' x); [|done]. apply Hb, elem_of_seq. lia.
Qed.
End CycleCorrect.

(** The planner's search finds a cycle exactly when there is one. On a graph
    whose edges stay inside it, [has_cycle] answers true if and only if some node
    depends on itself, directly or through others; in particular the recursion
    never runs out of the depth it is given. *)
Theorem has_cycle_correct edges n : (∀ u v, (u < n)%nat → v ∈ edges u → (v < n)%nat) →
  has_cycle edges n = true ↔ ∃ x, (x < n)%nat ∧ tc (λ u v, v ∈ edges u) x x.
Proof. intros H. apply (has_cycle_spec edges n H). Qed.

Lemma has_cycle_correct_witness : ∃ x, (x < 3)%nat ∧ tc (λ u v, v ∈ nth u [[1]; [2]; [0]]%nat []) x x.
Proof.
  apply (has_cycle_correct (λ u, nth u [[1]; [2]; [0]]%nat []) 3).
  - intros u v Hu Hv. destruct u as [|[|[|u]]]; simpl in Hv; [..|lia];
      apply list_elem_of_singleton in Hv as ->; lia.
  - vm_compute. reflexivity.
Defined.

(** ** What a plan promises *)

Section PlanProps.
Context {L : Type} (reg : registry) (llm : string → M L string) (json_loads : string → string + json).
Context (py_str py_repr : json → string) (float_repr : Q → string) (float_text : string → result Q).
Context (fresh_project fresh_task : nat → uuid).
(** Identifiers are drawn distinct. *)
Context (fresh_distinct : ∀ i j, fresh_task i = fresh_task j → i = j).
Local Abbreviation plan_ := (plan reg llm json_loads py_str py_repr float_repr float_text fresh_project fresh_task).

(** One task waits for another. *)
Definition waits_for (tasks : list PlannedTask) (a b : uuid) : Prop :=
  ∃ t, t ∈ tasks ∧ pt_id t = a ∧ b ∈ depends_on t.

Definition has_keys (payload : jdict) (schema : jdict) : Prop :=
  ∀ keys k, obj_default "required" (JArr []) schema = JArr keys → JStr k ∈ keys → obj_has k payload = true.

Lemma known_In k : k ∈ known_skills reg ↔ ∃ d, d ∈ get_all_skills reg ∧ skill_id d = k.
Proof.
  unfold known_skills. rewrite elem_of_remove_dups. change (map skill_id ?l) with (skill_id <$> l).
  rewrite list_elem_of_fmap. naive_solver.
Qed.

Lemma resolve_known v k : resolve_skill reg py_str v = Ok (inr k) → k ∈ known_skills reg.
Proof.
  assert (Hc : correct_skill reg py_str v = inr k → k ∈ known_skills reg).
  { unfold correct_skill. destruct (List.filter _ _) as [|x [|y l]] eqn:E; try done. intros [= ->].
    assert (Hin : k ∈ List.filter (λ k, endswith k (".skill." +:+ after_last ".skill." (str_of py_str v))) (known_skills reg))
      by (rewrite E; by left).
    apply list_elem_of_In, filter_In in Hin as [Hin _]. by apply list_elem_of_In. }
  destruct v; simpl; try done; try (intros [= ?]; by apply Hc).
  case_bool_decide; [by intros [= ->]|]. intros [= ?]. by apply Hc.
Qed.

Lemma missing_none payload keys : missing_key payload keys = Ok false → ∀ k, JStr k ∈ keys → obj_has k payload = true.
Proof.
  induction keys as [|v keys IH]; simpl; intros H k Hk; [by apply elem_of_nil in Hk|].
  destruct v as [| | | |s| |]; try done. destruct (obj_has s payload) eqn:E; [|done].
  apply elem_of_cons in Hk as [[= ->]|Hk]; [done|by apply IH].
Qed.

Lemma read_deps_ok n i v deps : read_deps n i v = Some deps → ∀ d, d ∈ deps → (d < n)%nat ∧ d ≠ i.
Proof.
  unfold read_deps. destruct v as [| | | | |l|]; try done. revert deps. induction l as [|v l IH]; simpl; intros deps H d Hd.
  { injection H as <-. by apply elem_of_nil in Hd. }
  apply bind_Some in H as (x & Hx & H). apply bind_Some in H as (xs & Hxs & [= <-]).
  apply elem_of_cons in Hd as [-> |Hd]; [|by eapply IH].
  unfold dep_index in Hx. destruct (index_of v) as [z|]; [|done]. destruct (_ && _) eqn:E; [|done]. injection Hx as <-.
  reflect. lia.
Qed.

Definition sound_task (n i : nat) (s : spec) (c : checked) : Prop :=
  ck_project c = sp_project s ∧ ck_skill c ∈ known_skills reg ∧ has_keys (ck_payload c) (schema_of reg (ck_skill c))
  ∧ ∀ d, d ∈ ck_deps c → (d < n)%nat ∧ d ≠ i.

Lemma check_spec_ok n i s c : check_spec reg py_str n i s = Ok (inr c) → sound_task n i s c.
Proof.
  unfold check_spec. intros H. apply rbind_ok in H as ([e|sk] & Hs & H); [done|].
  destruct (sp_payload s) as [| | | | | |payload]; try done.
  apply rbind_ok in H as (keys & Hk & H). apply rbind_ok in H as (missing & Hm & H). destruct missing; [done|].
  destruct (read_deps n i (sp_deps s)) as [deps|] eqn:Ed; [|done]. injection H as <-. split_and!; simpl.
  - done.
  - by eapply resolve_known.
  - intros ks k E Hin. rewrite E in Hk. injection Hk as <-. by eapply missing_none.
  - by apply read_deps_ok with (1 := Ed).
Qed.

Lemma check_specs_ok n ss : ∀ i cs, check_specs reg py_str n i ss = Ok (inr cs) →
  length cs = length ss ∧ ∀ j c, cs !! j = Some c → ∃ s, ss !! j = Some s ∧ sound_task n (i + j) s c.
Proof.
  induction ss as [|s ss IH]; simpl; intros i cs H; [by injection H as <-|].
  apply rbind_ok in H as ([e|c] & Hc & H); [done|]. apply rbind_ok in H as ([e|cs'] & Hcs & H); [done|].
  injection H as <-. destruct (IH _ _ Hcs) as [Hl Hj]. split; [simpl; by f_equal|].
  intros [|j] c' Hj'; simpl in Hj'.
  - injection Hj' as <-. exists s. split; [done|]. replace (i + 0)%nat with i by lia. by eapply check_spec_ok.
  - destruct (Hj j c' Hj') as (s' & Hs' & Hsound). exists s'. split; [done|]. by replace (i + S j)%nat with (S i + j)%nat by lia.
Qed.

Lemma read_tasks_project q l : ∀ r s, rmap (read_task q) l = Ok r → s ∈ r → sp_project s = q.
Proof.
  induction l as [|v l IH]; simpl; intros r s H Hs; [injection H as <-; by apply elem_of_nil in Hs|].
  apply rbind_ok in H as (b & Hb & H). apply rbind_ok in H as (bs & Hbs & H). injection H as <-.
  apply elem_of_cons in Hs as [-> |Hs]; [|by eapply IH]. unfold read_task in Hb. destruct v; try done.
  by injection Hb as <-.
Qed.

Lemma read_projects_ok g vs : ∀ i ps, read_projects py_str fresh_project g i vs = Ok ps →
  ∀ s, s ∈ snd ps → ∃ p, p ∈ fst ps ∧ project_id p = sp_project s.
Proof.
  induction vs as [|v vs IH]; simpl; intros i ps H s Hs; [injection H as <-; by apply elem_of_nil in Hs|].
  apply rbind_ok in H as (p & Hp & H). apply rbind_ok in H as (rest & Hr & H). injection H as <-. simpl in *.
  apply elem_of_app in Hs as [Hs|Hs].
  - unfold read_project in Hp. destruct v as [| | | | | |d]; try done. cbv zeta in Hp. rok. simpl in *.
    match goal with H : rmap (read_task ?q) ?l = Ok _ |- _ => rename H into Hrm end.
    eexists. split; [by left|]. simpl. symmetry. by eapply read_tasks_project.
  - destruct (IH _ _ Hr s Hs) as (q & Hq & E). exists q. split; [by right|done].
Qed.

(** A plan as the model's answer gives it. *)
Record from_answer (g : uuid) (p : PlanResult) (cs : list checked) : Prop := {
  fa_tasks : pl_tasks p = imap (planned fresh_task g) cs;
  fa_sound : ∀ i c, cs !! i = Some c → ∃ s, sound_task (length cs) i s c
               ∧ ∃ q, q ∈ pl_projects p ∧ project_id q = ck_project c;
  fa_acyclic : has_cycle (edges_of cs) (length cs) = false }.

Lemma read_plan_ok g raw p : read_plan reg json_loads py_str float_text fresh_project fresh_task g raw = Ok (inr p) →
  ∃ cs, from_answer g p cs.
Proof.
  unfold read_plan. destruct (json_loads _) as [e|[| | | | | |data]]; try done.
  destruct (obj_field "projects" data) as [| | | | |[|v vs]|]; try done. intros Hp.
  apply rbind_ok in Hp as (conf & _ & Hp). apply rbind_ok in Hp as (ps & Hps & Hp). destruct (snd ps) as [|sp sps] eqn:Esp; [done|].
  apply rbind_ok in Hp as ([e|cs] & Hcs & Hp); [done|]. destruct (check_specs_ok _ _ _ _ Hcs) as [Hl Hj].
  destruct (has_cycle _ _) eqn:Hc; [done|]. injection Hp as <-. exists cs. split; simpl; [done| |by rewrite Hl].
  intros i c Hi. destruct (Hj i c Hi) as (s & Hs & Hsound). exists s. rewrite Hl. split; [done|].
  destruct Hsound as [-> _]. eapply read_projects_ok; [exact Hps|]. rewrite Esp. by eapply list_elem_of_lookup_2.
Qed.

Lemma plan_cases goal s p s' : plan_ goal s = (Ok p, s') →
  webpage_goal reg (objective goal) = true ∧ p = webpage_plan fresh_project fresh_task goal
  ∨ webpage_goal reg (objective goal) = false ∧ ∃ cs, from_answer (goal_id goal) p cs.
Proof.
  unfold plan. destruct (webpage_goal _ _) eqn:Ew; [intros [= <- _]; by left|]. intros H. right. split; [done|].
  assert (Ho : ∀ corr x p0 x', plan_once reg llm json_loads py_str float_repr float_text fresh_project fresh_task
      goal corr x = (Ok (inr p0), x') → ∃ cs, from_answer (goal_id goal) p0 cs).
  { intros corr x p' x' Ho. unfold plan_once in Ho. apply mbind_ok in Ho as (raw & x1 & _ & Ho).
    unfold mlift in Ho. injection Ho as Ho _. by eapply read_plan_ok. }
  apply mbind_ok in H as ([e|q] & s1 & H1 & H).
  - apply mbind_ok in H as ([e2|q] & s2 & H2 & H); [done|]. injection H as <- _. by eapply Ho.
  - injection H as <- _. by eapply Ho.
Qed.

Lemma planned_In g p cs t : from_answer g p cs → t ∈ pl_tasks p ↔
  ∃ i c, cs !! i = Some c ∧ t = planned fresh_task g i c.
Proof.
  intros [-> _ _]. split.
  - intros (i & Hi)%list_elem_of_lookup_1. rewrite list_lookup_imap in Hi.
    apply fmap_Some in Hi as (c & Hc & ->). eauto.
  - intros (i & c & Hc & ->). apply (list_elem_of_lookup_2 _ i). by rewrite list_lookup_imap, Hc.
Qed.

Lemma waits_edge g p cs a b : from_answer g p cs → waits_for (pl_tasks p) a b →
  ∃ i j, a = fresh_task i ∧ b = fresh_task j ∧ (i < length cs)%nat ∧ j ∈ edges_of cs i.
Proof.
  intros Hf (t & Ht & <- & Hb). apply (planned_In _ _ _ _ Hf) in Ht as (i & c & Hc & ->). simpl in *.
  apply list_elem_of_fmap in Hb as (j & -> & Hj). exists i, j. split_and!; try done.
  - by eapply lookup_lt_Some.
  - unfold edges_of. by rewrite Hc.
Qed.

Lemma edges_inside g p cs u v : from_answer g p cs → (u < length cs)%nat → v ∈ edges_of cs u → (v < length cs)%nat ∧ v ≠ u.
Proof.
  intros Hf Hu Hv. unfold edges_of in Hv. destruct (cs !! u) as [c|] eqn:Ec; simpl in Hv; [|by apply elem_of_nil in Hv].
  destruct (fa_sound _ _ _ Hf u c Ec) as (s & (_ & _ & _ & Hd) & _). by apply Hd.
Qed.

Lemma waits_path g p cs a b : from_answer g p cs → tc (waits_for (pl_tasks p)) a b →
  ∃ i j, a = fresh_task i ∧ b = fresh_task j ∧ (i < length cs)%nat ∧ tc (λ u v, v ∈ edges_of cs u) i j.
Proof.
  intros Hf. induction 1 as [a b H|a b c H _ (i & j & Eb & Ec & Hi & Hij)].
  - destruct (waits_edge _ _ _ _ _ Hf H) as (i & j & ? & ? & ? & ?). exists i, j. split_and!; try done. by apply tc_once.
  - destruct (waits_edge _ _ _ _ _ Hf H) as (i' & j' & Ea & Eb' & Hi' & Hij'). exists i', j. split_and!; try done.
    eapply tc_l; [|exact Hij]. assert (j' = i) as -> by (apply fresh_distinct; congruence). done.
Qed.

Lemma plan_sound goal s p s' : plan_ goal s = (Ok p, s') →
  (∀ t, t ∈ pl_tasks p → ∀ d, d ∈ depends_on t → d ≠ pt_id t ∧ ∃ t', t' ∈ pl_tasks p ∧ pt_id t' = d)
  ∧ ∀ a, ¬ tc (waits_for (pl_tasks p)) a a.
Proof.
  intros [[Hw ->]|[Hw [cs Hf]]]%plan_cases.
  - assert (Hno : ∀ a b, ¬ waits_for (pl_tasks (webpage_plan fresh_project fresh_task goal)) a b).
    { intros a b (t & ->%list_elem_of_singleton & _ & Hb). by apply elem_of_nil in Hb. }
    split; [intros t Ht d Hd; destruct (Hno (pt_id t) d); by exists t|].
    intros a Ht. inversion Ht; by eapply Hno.
  - split.
    + intros t (i & c & Hc & ->)%(planned_In _ _ _ _ Hf) d (j & -> & Hj)%list_elem_of_fmap.
      destruct (fa_sound _ _ _ Hf i c Hc) as (sp & (_ & _ & _ & Hd) & _).
      destruct (Hd j Hj) as [Hj1 Hj2]. split; [by intros ?%fresh_distinct|].
      destruct (lookup_lt_is_Some_2 cs j Hj1) as [c' Hc']. exists (planned fresh_task (goal_id goal) j c'). split; [|done].
      apply (planned_In _ _ _ _ Hf). eauto.
    + intros a (i & j & -> & Ej%fresh_distinct & Hi & Hij)%(waits_path _ _ _ _ _ Hf). subst j.
      assert (has_cycle (edges_of cs) (length cs) = true) as E; [|rewrite (fa_acyclic _ _ _ Hf) in E; done].
      apply has_cycle_spec; [intros u v Hu Hv; by eapply edges_inside|]. by exists i.
Qed.

(** C25: an accepted plan can be executed. Every task of it is pending, belongs to
    the goal and to one of the plan's projects, uses a registered skill and, except
    in the single-page shortcut, supplies every key the skill's schema requires;
    what it waits for are other tasks of the plan, and no task waits for itself
    through others. *)
Theorem plans_are_executable goal s p s' : plan_ goal s = (Ok p, s') →
  (∀ t, t ∈ pl_tasks p → pt_goal t = goal_id goal ∧ pt_status t = t_pending
     ∧ (∃ d, d ∈ get_all_skills reg ∧ skill_id d = pt_skill t)
     ∧ (∃ q, q ∈ pl_projects p ∧ project_id q = pt_project t)
     ∧ (webpage_goal reg (objective goal) = false → has_keys (pt_payload t) (schema_of reg (pt_skill t)))
     ∧ ∀ d, d ∈ depends_on t → d ≠ pt_id t ∧ ∃ t', t' ∈ pl_tasks p ∧ pt_id t' = d)
  ∧ ∀ a, ¬ tc (waits_for (pl_tasks p)) a a.
Proof.
  intros Hp. destruct (plan_sound _ _ _ _ Hp) as [Hdeps Hacyc]. split; [|done]. intros t Ht.
  pose proof (Hdeps t Ht) as Ht'. destruct (plan_cases _ _ _ _ Hp) as [[Hw ->]|[Hw [cs Hf]]].
  - apply list_elem_of_singleton in Ht as ->. simpl in *. split_and!; try done.
    + unfold webpage_goal in Hw. apply andb_true_iff in Hw as [[Hw _]%andb_true_iff _].
      apply bool_decide_eq_true in Hw. by apply known_In.
    + eexists. split; [by left|done].
    + by rewrite Hw.
  - apply (planned_In _ _ _ _ Hf) in Ht as (i & c & Hc & ->). simpl in *.
    destruct (fa_sound _ _ _ Hf i c Hc) as (sp & (_ & Hk & Hkeys & Hd) & q & Hq & Eq).
    split_and!; try done; [by apply known_In|eauto].
Qed.
End PlanProps.

(** *** Witnesses *)

Module PlannerDemo.
Definition skill : SkillDefinition :=
  mk_Skill "rigel.skill.code" "writes code" [("required", JArr [JStr "spec"])] [] (1#2) 100 None.
Definition reg : registry := mk_registry
  [("rigel", mk_Manifest "rigel" "Rigel" "1.0" [skill] "/health" 0 30)] [].
Definition goal : GoalContract := mk_Goal 7 "user" "build a parser" None (1#2) g_planning None 0.
Definition task (skill : string) (deps : list Z) : json :=
  JObj [("skill", JStr skill); ("payload", JObj [("spec", JStr "x")]); ("depends_on", JArr (map JInt deps))].
Definition answer (second : list Z) : json :=
  JObj [("projects", JArr [JObj [("title", JStr "Core");
          ("tasks", JArr [task "rigel.skill.code" second; task "vega.skill.code" [0]])]])].
(** The model first answers with a cycle, then without. *)
Definition llm : string → M nat string := λ _ n, (Ok (if (n =? 0)%nat then "first" else "second"), S n).
Definition loads (s : string) : string + json :=
  inr (answer (if String.eqb s "first" then [1] else [])).
Definition text (_ : json) : string := "?".
Definition ids (i : nat) : uuid := N.of_nat i.
Definition go : result PlanResult * nat :=
  plan reg llm loads text text (λ _, "") (λ _, Raise ValueError) ids ids goal 0%nat.
Definition result_plan : PlanResult := match go.1 with Ok p => p | Raise _ => mk_plan [] [] 0 end.
End PlannerDemo.

(** The cycle is refused, the correction accepted, and the invented prefix repaired. *)
Example corrected_plan : PlannerDemo.go.2 = 2%nat
  ∧ map pt_skill (pl_tasks PlannerDemo.result_plan) = ["rigel.skill.code"; "rigel.skill.code"]
  ∧ map depends_on (pl_tasks PlannerDemo.result_plan) = [[]; [0%N]].
Proof. vm_compute. auto. Qed.

Lemma plans_are_executable_witness : ¬ tc (waits_for (pl_tasks PlannerDemo.result_plan)) 1%N 1%N.
Proof.
  refine (proj2 (plans_are_executable PlannerDemo.reg PlannerDemo.llm PlannerDemo.loads PlannerDemo.text PlannerDemo.text
    (λ _, "") (λ _, Raise ValueError) PlannerDemo.ids PlannerDemo.ids _ PlannerDemo.goal 0%nat _ PlannerDemo.go.2 _) 1%N).
  - intros i j Hij. unfold PlannerDemo.ids in Hij. lia.
  - vm_compute. reflexivity.
Defined.
