(* ===== verification/PlanProgress.v ===== *)
(** A plan and its execution: what the planner guarantees of a graph is enough for
    the runner to always find a task that can start. *)

From S2P Require Import Prelude.
From S2P Require Import PyStr.
From S2P Require Import Json.
From S2P Require Import Contracts.
From S2P Require Import Coordinator.
From S2P Require Import CoordinatorTheorems.
From S2P Require Import GoalRunner.
From S2P Require Import Policy.
From S2P Require Import Registry.
From S2P Require Import Planner.
From stdpp Require Import relations.

(** The same task while a goal runs. *)
Definition progress (t t' : PlannedTask) : Prop :=
  pt_id t' = pt_id t ∧ depends_on t' = depends_on t
  ∧ (pt_status t' = t_pending ∨ pt_status t' = t_complete).

Lemma by_id_is_Some l t : t ∈ l → is_Some (by_id l (pt_id t)).
Proof.
  intros Hin. unfold by_id. destruct (List.find _ _) eqn:E; [done|].
  assert (Hr : List.In t (rev l)) by (apply in_rev; rewrite rev_involutive; by apply list_elem_of_In).
  pose proof (List.find_none _ _ E t Hr) as Hn. cbv beta in Hn. by rewrite N.eqb_refl in Hn.
Qed.

Lemma all_complete_total find deps : (∀ d, d ∈ deps → is_Some (find d)) →
  all_complete find deps = Ok true
  ∨ all_complete find deps = Ok false ∧ ∃ d t, d ∈ deps ∧ find d = Some t ∧ pt_status t ≠ t_complete.
Proof.
  induction deps as [|d deps IH]; simpl; intros Hf; [by left|].
  destruct (Hf d ltac:(by left)) as [t Ht]. rewrite Ht. case_bool_decide as Hc.
  - destruct IH as [|(? & d' & t' & Hd' & ?)]; [intros; apply Hf; by right|by left|].
    right. split; [done|]. exists d', t'. split; [by right|done].
  - right. split; [done|]. exists d, t. split; [by left|done].
Qed.

Lemma ready_total find pending : (∀ t d, t ∈ pending → d ∈ depends_on t → is_Some (find d)) →
  ∃ l, ready_tasks find pending = Ok l
    ∧ ∀ t, t ∈ pending → all_complete find (depends_on t) = Ok true → t ∈ l.
Proof.
  induction pending as [|t pending IH]; simpl; intros Hf; [exists []; split; [done|by intros t ?%elem_of_nil]|].
  destruct IH as (l & -> & Hl); [intros x d Hx; apply Hf; by right|].
  destruct (all_complete_total find (depends_on t)) as [E|[E _]]; [intros d; apply Hf; by left|..]; rewrite E.
  - exists (t :: l). split; [done|]. intros x [-> |Hx]%elem_of_cons Hc; [by left|right; auto].
  - exists l. split; [done|]. intros x [-> |Hx]%elem_of_cons Hc; [congruence|auto].
Qed.

Section Progress.
Context {L : Type} (reg : registry) (llm : string → M L string) (json_loads : string → string + json).
Context (py_str py_repr : json → string) (float_repr : Q → string) (float_text : string → result Q).
Context (fresh_project fresh_task : nat → uuid).
Context (fresh_distinct : ∀ i j, fresh_task i = fresh_task j → i = j).
Local Abbreviation plan_ := (plan reg llm json_loads py_str py_repr float_repr float_text fresh_project fresh_task).

Lemma progress_In ps ts t' : Forall2 progress ps ts → t' ∈ ts → ∃ t, t ∈ ps ∧ progress t t'.
Proof. intros H (i & Hi)%list_elem_of_lookup_1. destruct (Forall2_lookup_r _ _ _ _ _ H Hi) as (t & Ht & Hp).
  exists t. split; [by eapply list_elem_of_lookup_2|done]. Qed.

Lemma progress_In_l ps ts t : Forall2 progress ps ts → t ∈ ps → ∃ t', t' ∈ ts ∧ progress t t'.
Proof. intros H (i & Hi)%list_elem_of_lookup_1. destruct (Forall2_lookup_l _ _ _ _ _ H Hi) as (t' & Ht & Hp).
  exists t'. split; [by eapply list_elem_of_lookup_2|done]. Qed.

(** C26: the execution of a plan never stalls. While its tasks are pending or
    complete and one is still pending, the runner finds a task whose dependencies
    are all complete, and it never looks up a dependency that is not there. *)
Theorem plans_never_stall goal s p s' ts : plan_ goal s = (Ok p, s') → Forall2 progress (pl_tasks p) ts →
  (∃ t, t ∈ ts ∧ pt_status t = t_pending) →
  ∃ t rest, ready_tasks (by_id ts) (List.filter is_pending_task ts) = Ok (t :: rest).
Proof.
  intros Hp Hts (t & Ht & Hpend).
  destruct (plan_sound _ _ _ _ _ _ _ _ _ fresh_distinct _ _ _ _ Hp) as [Htask Hacyc].
  assert (Hdep : ∀ x d, x ∈ ts → d ∈ depends_on x → ∃ y, y ∈ ts ∧ pt_id y = d).
  { intros x d Hx Hd. destruct (progress_In _ _ _ Hts Hx) as (x0 & Hx0 & _ & Edep & _). rewrite Edep in Hd.
    destruct (Htask x0 Hx0 d Hd) as (_ & y0 & Hy0 & <-).
    destruct (progress_In_l _ _ _ Hts Hy0) as (y & Hy & Ey & _). eauto. }
  assert (Hfind : ∀ x d, x ∈ ts → d ∈ depends_on x → is_Some (by_id ts d)).
  { intros x d Hx Hd. destruct (Hdep x d Hx Hd) as (y & Hy & <-). by apply by_id_is_Some. }
  destruct (ready_total (by_id ts) (List.filter is_pending_task ts)) as (l & Hl & Hin).
  { intros x d Hx. apply Hfind. rewrite list_elem_of_In, filter_In, <-list_elem_of_In in Hx. by destruct Hx. }
  cut (∃ x, x ∈ l).
  { intros (x & Hx). rewrite Hl. destruct l as [|y l]; [by apply elem_of_nil in Hx|]. eauto. }
  assert (Hsn : sn (waits_for (pl_tasks p)) (pt_id t)).
  { apply tc_finite_sn; [intros a; apply Hacyc|]. exists (map pt_id ts). intros b Hb.
    assert (Hlast : ∃ a, waits_for (pl_tasks p) a b) by (clear -Hb; induction Hb; eauto).
    destruct Hlast as (a & x0 & Hx0 & _ & Hb0). destruct (progress_In_l _ _ _ Hts Hx0) as (x & Hx & _ & Edep & _).
    rewrite <-Edep in Hb0. destruct (Hdep x b Hx Hb0) as (y & Hy & <-). by apply (list_elem_of_fmap_2 pt_id). }
  remember (pt_id t) as a eqn:Ea. revert t Ht Hpend Ea. induction Hsn as [a _ IH]. intros t Ht Hpend ->.
  destruct (all_complete_total (by_id ts) (depends_on t)) as [E|(_ & d & x & Hd & Hx & Hnc)]; [by intros d; apply Hfind|..].
  - exists t. apply Hin; [|done]. rewrite list_elem_of_In, filter_In, <-list_elem_of_In. split; [done|].
    unfold is_pending_task. by rewrite Hpend.
  - apply by_id_Some in Hx as [Hx <-]. apply (IH (pt_id x)) with x; [|done| |done].
    + destruct (progress_In _ _ _ Hts Ht) as (t0 & Ht0 & Ei & Edep & _). exists t0. by rewrite <-Edep, Ei.
    + destruct (progress_In _ _ _ Hts Hx) as (x0 & _ & _ & _ & [|]); done.
Qed.
End Progress.

Lemma plans_never_stall_witness :
  ∃ t rest, ready_tasks (by_id (pl_tasks PlannerDemo.result_plan))
    (List.filter is_pending_task (pl_tasks PlannerDemo.result_plan)) = Ok (t :: rest).
Proof.
  apply (plans_never_stall PlannerDemo.reg PlannerDemo.llm PlannerDemo.loads PlannerDemo.text PlannerDemo.text
    (λ _, "") (λ _, Raise ValueError) PlannerDemo.ids PlannerDemo.ids) with PlannerDemo.goal 0%nat
    PlannerDemo.result_plan PlannerDemo.go.2.
  - intros i j Hij. unfold PlannerDemo.ids in Hij. lia.
  - vm_compute. reflexivity.
  - vm_compute. repeat constructor.
  - eexists. split; [by left|reflexivity].
Defined.
