(* ===== verification/A2A.v ===== *)
(** core/a2a, the inbound side's building blocks: the wire primitives of
    protocol.py, the callers and remote agents of config.py and the agent cards of
    card.py.

    [hmac.compare_digest] is equality of the two texts. The YAML reader and the
    rendering [str(v)] of a JSON value that is no string are arguments; [environ]
    is the process environment. *)

From S2P Require Import Prelude.
From S2P Require Import PyStr.
From S2P Require Import PyTime.
From S2P Require Import Json.
From S2P Require Import Fnmatch.
From S2P Require Import Contracts.
From S2P Require Import Registry.
From Stdlib Require Import Ascii.
Open Scope Z_scope.

(** ** Python text helpers *)

(** [s.replace(old, new)] for a nonempty [old]. *)
Fixpoint replace_from (old new : list ascii) (skip : nat) (l : list ascii) : list ascii :=
  match l with
  | [] => []
  | c :: l' =>
      match skip with
      | S k => replace_from old new k l'
      | O => if bool_decide (take (length old) l = old)
             then new ++ replace_from old new (pred (length old)) l'
             else c :: replace_from old new 0 l'
      end
  end.
Definition py_replace (s old new : string) : string :=
  of_list (replace_from (to_list old) (to_list new) 0 (to_list s)).

Fixpoint drop_chars (cs : list ascii) (l : list ascii) : list ascii :=
  match l with
  | [] => []
  | c :: l' => if bool_decide (c ∈ cs) then drop_chars cs l' else l
  end.

(** [s.rstrip(chars)] and [s.strip(chars)]. *)
Definition rstrip_chars (s chars : string) : string :=
  of_list (rev (drop_chars (to_list chars) (rev (to_list s)))).
Definition strip_chars (s chars : string) : string :=
  rstrip_chars (of_list (drop_chars (to_list chars) (to_list s))) chars.

(** [s.partition(sep)] for a one-character separator: the text before the first
    [sep], and the text after it when there is one. *)
Fixpoint cut (sep : ascii) (l : list ascii) : list ascii * option (list ascii) :=
  match l with
  | [] => ([], None)
  | c :: l' => if Ascii.eqb c sep then ([], Some l')
               else let '(a, b) := cut sep l' in (c :: a, b)
  end.
Definition partition (s : string) (sep : ascii) : string * option string :=
  let '(a, b) := cut sep (to_list s) in (of_list a, of_list <$> b).

(** [re.match("^[...]+$", s)]: the dollar also matches before a final newline. *)
Definition matches_plus (p : ascii → bool) (s : string) : bool :=
  let l := to_list s in
  let body := match rev l with
    | c :: r => if Ascii.eqb c (ascii_of_nat 10) then rev r else l
    | [] => l end in
  match body with [] => false | _ => forallb p body end.

(** [for x in v]. *)
Definition py_iter (v : json) : result (list json) :=
  match v with
  | JArr l => Ok l
  | JObj d => Ok (map (λ kv, JStr kv.1) d)
  | JStr s => Ok (map (λ c, JStr (String c EmptyString)) (to_list s))
  | _ => Raise TypeError
  end.

(** [float(z)]: from 2**1024 - 2**970 on the nearest double is infinite. *)
Definition float_of_int (z : Z) : result Q :=
  rguard (Z.abs z <? 2 ^ 1024 - 2 ^ 970) OverflowError;; Ok (inject_Z z).

(** ** protocol.py *)

Definition A2A_VERSION : string := "1.0".
Definition BINDING : string := "JSONRPC".
Definition JSONRPC_BINDINGS : list string := ["JSONRPC"; "JSON-RPC"].

Definition STATE_SUBMITTED : string := "TASK_STATE_SUBMITTED".
Definition STATE_WORKING : string := "TASK_STATE_WORKING".
Definition STATE_COMPLETED : string := "TASK_STATE_COMPLETED".
Definition STATE_FAILED : string := "TASK_STATE_FAILED".
Definition STATE_CANCELED : string := "TASK_STATE_CANCELED".
Definition STATE_INPUT_REQUIRED : string := "TASK_STATE_INPUT_REQUIRED".
Definition STATE_REJECTED : string := "TASK_STATE_REJECTED".
Definition STATE_AUTH_REQUIRED : string := "TASK_STATE_AUTH_REQUIRED".

Definition TERMINAL_STATES : list string :=
  [STATE_COMPLETED; STATE_FAILED; STATE_CANCELED; STATE_REJECTED].
Definition STOP_STATES : list string := TERMINAL_STATES ++ [STATE_INPUT_REQUIRED; STATE_AUTH_REQUIRED].

Definition ROLE_USER : string := "ROLE_USER".
Definition ROLE_AGENT : string := "ROLE_AGENT".

Definition parse_error : exn := A2AError (-32700) "Parse error" None.
Definition invalid_request (detail : string) : exn := A2AError (-32600) detail None.
Definition invalid_params (detail : string) : exn := A2AError (-32602) detail (Some "INVALID_PARAMS").
Definition task_not_found : exn :=
  A2AError (-32050) "Task not found or not accessible" (Some "TASK_NOT_FOUND").
Definition task_not_cancelable : exn :=
  A2AError (-32051) "Task is not in a cancelable state" (Some "TASK_NOT_CANCELABLE").
Definition unsupported_operation : exn :=
  A2AError (-32052) "Operation not supported" (Some "UNSUPPORTED_OPERATION").
Definition version_not_supported : exn :=
  A2AError (-32055) "Protocol version not supported" (Some "VERSION_NOT_SUPPORTED").

Definition rpc_result (request_id result : json) : json :=
  JObj [("jsonrpc", JStr "2.0"); ("id", request_id); ("result", result)].

(** [rpc_error] of the error with these three fields. *)
Definition rpc_error (request_id : json) (code : Z) (message : string) (reason : option string) : json :=
  let body := [("code", JInt code); ("message", JStr message)] in
  let body := match reason with
    | Some r => if truthy_str r then
        body ++ [("data", JObj [("details", JArr [JObj
          [("@type", JStr "type.googleapis.com/google.rpc.ErrorInfo");
           ("reason", JStr r); ("domain", JStr "a2a-protocol.org")]])])]
        else body
    | None => body end in
  JObj [("jsonrpc", JStr "2.0"); ("id", request_id); ("error", JObj body)].

(** [_now]. *)
Definition now_text (stamp : datetime) : string := py_replace (isoformat stamp) "+00:00" "Z".

Definition make_task (stamp : datetime) (message_id : uuid) (task_id state : string)
    (context_id message_text : option string) (artifacts : list json) : jdict :=
  let status := [("state", JStr state); ("timestamp", JStr (now_text stamp))] in
  let status := match message_text with
    | Some text => if truthy_str text then
        status ++ [("message", JObj [("messageId", JStr (uuid_str message_id));
          ("role", JStr ROLE_AGENT); ("parts", JArr [JObj [("text", JStr text)]])])]
        else status
    | None => status end in
  let context := match context_id with
    | Some c => if truthy_str c then c else task_id
    | None => task_id end in
  let task := [("id", JStr task_id); ("contextId", JStr context); ("status", JObj status)] in
  match artifacts with [] => task | _ => task ++ [("artifacts", JArr artifacts)] end.

(** ** config.py *)

Record CallerConfig := mk_Caller {
  c_token : string;
  c_origin : string;
  c_skills : option (list string) }.

Definition allows_skill (c : CallerConfig) (skill : string) : bool :=
  match c_skills c with
  | None => true
  | Some ps => existsb (fnmatchcase skill) ps
  end.

Record AgentConfig := mk_Agent {
  a_name : string;
  a_url : string;
  a_token : option string;
  a_timeout : Q;
  a_allowed : option (list string) }.

Record A2AConfig := mk_A2AConfig {
  callers : list CallerConfig;
  remote_agents : list AgentConfig }.

(** The last caller whose token is the presented one. *)
Definition authenticate (cfg : A2AConfig) (authorization : string) : option CallerConfig :=
  let '(scheme, presented) := partition authorization " " in
  let presented := or_else presented "" in
  if negb (String.eqb (lower scheme) "bearer") || negb (truthy_str presented) then None
  else foldl (λ m c, if String.eqb presented (c_token c) then Some c else m) None (callers cfg).

Definition string_list (v : json) : option (list string) :=
  match v with
  | JArr l => foldr (λ x acc, match x, acc with JStr s, Some r => Some (s :: r) | _, _ => None end) (Some []) l
  | _ => None
  end.

Section Config.
Context (py_str : json → string) (environ : string → option string).

(** [str(v or "")]. *)
Definition str_or_empty (v : json) : string :=
  if truthy v then match v with JStr s => s | _ => py_str v end else "".

(** [(environ.get(name) or "").strip()]; a name that is no string is a [TypeError]. *)
Definition env_text (name : json) : result string :=
  match name with
  | JStr n => Ok (strip (or_else (environ n) ""))
  | _ => Raise TypeError
  end.

Definition load_caller (entry : json) : result (option CallerConfig) :=
  match entry with
  | JObj entry =>
      let env_name := obj_field "token_env" entry in
      let origin := strip (str_or_empty (obj_field "origin" entry)) in
      if negb (truthy env_name) || negb (truthy_str origin) then Ok None
      else if negb (startswith origin "a2a:") then Ok None
      else
        token ← env_text env_name;
        if negb (truthy_str token) then Ok None
        else match obj_field "skills" entry with
             | JNull => Ok (Some (mk_Caller token origin None))
             | v => match string_list v with
                    | Some ps => Ok (Some (mk_Caller token origin (Some ps)))
                    | None => Ok None
                    end
             end
  | _ => Ok None
  end.

Definition agent_name_char (c : ascii) : bool :=
  let n := nat_of_ascii c in
  ((97 <=? n) && (n <=? 122) || (48 <=? n) && (n <=? 57) || (n =? 95) || (n =? 45))%nat.

(** The timeout: the configured one if it is a positive number, else 60 s. *)
Definition load_timeout (v : json) : result Q :=
  match v with
  | JInt z => if z <=? 0 then Ok 60%Q else float_of_int z
  | JFloat q => Ok (if Qle_bool q 0 then 60%Q else q)
  | _ => Ok 60%Q
  end.

Definition load_agent_token (env_name : json) : result (option string) :=
  if truthy env_name then
    token ← env_text env_name;
    Ok (if truthy_str token then Some token else None)
  else Ok None.

Definition load_agent (entry : json) : result (option AgentConfig) :=
  match entry with
  | JObj entry =>
      let name := str_or_empty (obj_field "name" entry) in
      let url := rstrip_chars (strip (str_or_empty (obj_field "url" entry))) "/" in
      if negb (matches_plus agent_name_char name) then Ok None
      else if negb (startswith url "http://" || startswith url "https://") then Ok None
      else
        token ← load_agent_token (obj_field "token_env" entry);
        match obj_field "allowed_origins" entry with
        | JNull =>
            timeout ← load_timeout (obj_default "timeout_s" (JFloat 60) entry);
            Ok (Some (mk_Agent name url token timeout None))
        | v => match string_list v with
               | Some os =>
                   timeout ← load_timeout (obj_default "timeout_s" (JFloat 60) entry);
                   Ok (Some (mk_Agent name url token timeout (Some os)))
               | None => Ok None
               end
        end
  | _ => Ok None
  end.

(** [raw.get(k) or []], iterated; [raw] is what the file holds, or {}. *)
Definition entries_of (raw : json) (k : string) : result (list json) :=
  match raw with
  | JObj d => py_iter (jor (obj_field k d) (JArr []))
  | _ => Raise AttributeError
  end.

(** The file's content as the YAML reader gives it, [None] when there is no file. *)
Definition load_a2a_config (file : option (result json)) : result A2AConfig :=
  match file with
  | None => Ok (mk_A2AConfig [] [])
  | Some read =>
      v ← read;
      let raw := jor v (JObj []) in
      cs ← entries_of raw "callers"; cs ← rmap load_caller cs;
      ags ← entries_of raw "agents"; ags ← rmap load_agent ags;
      Ok (mk_A2AConfig (omap id cs) (omap id ags))
  end.
End Config.

(** ** card.py *)

Definition PROXY_AGENT_ID : string := "wormhole".

Definition skill_entry (s : SkillDefinition) : json :=
  JObj [("id", JStr (skill_id s)); ("name", JStr (skill_id s)); ("description", JStr (description s));
        ("tags", JArr [JStr (hd "" (split "." (skill_id s)))]);
        ("inputModes", JArr [JStr "application/json"]); ("outputModes", JArr [JStr "application/json"])].

(** The loop of [_collect]: [seen] keeps the first allowed skill of each id. *)
Definition see (allowed : SkillDefinition → bool) (seen : list SkillDefinition) (s : SkillDefinition) :
    list SkillDefinition :=
  if negb (bool_decide (skill_id s ∈ map skill_id seen)) && allowed s then seen ++ [s] else seen.

(** The skills of every agent but the proxy, agent by agent. *)
Definition own_skills (r : registry) : list SkillDefinition :=
  List.concat (map skills (List.filter (λ m, negb (String.eqb (agent_id m) PROXY_AGENT_ID)) (list_agents r))).

Definition id_leb (a b : SkillDefinition) : bool := str_leb (skill_id a) (skill_id b).

(** [_collect], before [_skill_entry] renders each skill. *)
Definition collect (allowed : SkillDefinition → bool) (r : registry) : list SkillDefinition :=
  py_sorted id_leb (foldl (see allowed) [] (own_skills r)).

(** [_card]. *)
Definition card (version base_url : string) (skills : list json) : json :=
  JObj [("name", JStr "Galaxz");
    ("description", JStr ("Galaxz multi-agent platform. To run a skill, send a data part "
       +:+ "{" +:+ dump_str "skill" +:+ ": " +:+ dump_str "<skill id>" +:+ ", "
       +:+ dump_str "payload" +:+ ": {...}}."));
    ("version", JStr version);
    ("supportedInterfaces", JArr [JObj
       [("url", JStr (rstrip_chars base_url "/" +:+ "/a2a"));
        ("protocolBinding", JStr BINDING); ("protocolVersion", JStr A2A_VERSION)]]);
    ("capabilities", JObj [("streaming", JBool true); ("pushNotifications", JBool false);
       ("extendedAgentCard", JBool true)]);
    ("securitySchemes", JObj [("bearer", JObj [("httpAuthSecurityScheme", JObj [("scheme", JStr "Bearer")])])]);
    ("securityRequirements", JArr [JObj [("schemes", JObj [("bearer", JObj [("list", JArr [])])])]]);
    ("defaultInputModes", JArr [JStr "application/json"]);
    ("defaultOutputModes", JArr [JStr "application/json"]);
    ("skills", JArr skills)].

Definition is_public (s : SkillDefinition) : bool := bool_decide (allowed_origins s = None).
Definition is_permitted (c : CallerConfig) (s : SkillDefinition) : bool :=
  permits s (c_origin c) && allows_skill c (skill_id s).

Definition build_public_card (version : string) (r : registry) (base_url : string) : json :=
  card version base_url (map skill_entry (collect is_public r)).

Definition build_extended_card (version : string) (r : registry) (base_url : string) (c : CallerConfig) : json :=
  card version base_url (map skill_entry (collect (is_permitted c) r)).

(** ** What a card lists *)

Lemma see_all_ids allowed l : ∀ seen, NoDup (map skill_id seen) →
  let r := foldl (see allowed) seen l in
  NoDup (map skill_id r) ∧ (∀ s, s ∈ r → s ∈ seen ∨ s ∈ l ∧ allowed s = true)
  ∧ (∀ s, s ∈ seen → s ∈ r) ∧ (∀ s, s ∈ l → allowed s = true → skill_id s ∈ map skill_id r).
Proof.
  induction l as [|s l IH]; intros seen Hnd; simpl; [split_and!; set_solver|].
  set (seen' := see allowed seen s).
  assert (Hs' : NoDup (map skill_id seen') ∧ (∀ x, x ∈ seen' → x ∈ seen ∨ x = s ∧ allowed s = true)
    ∧ (∀ x, x ∈ seen → x ∈ seen') ∧ (allowed s = true → skill_id s ∈ map skill_id seen')).
  { unfold seen', see. case_bool_decide as Hin; simpl; [split_and!; set_solver|].
    destruct (allowed s) eqn:Ha; [|split_and!; set_solver].
    rewrite map_app. simpl. split_and!; [|set_solver..].
    apply NoDup_app. split_and!; [done|set_solver|apply NoDup_singleton]. }
  destruct Hs' as (Hnd' & Hfrom & Hkeep & Hgot).
  destruct (IH seen' Hnd') as (H1 & H2 & H3 & H4). split_and!; [done| | |].
  - intros x Hx. destruct (H2 x Hx) as [Hx'|[]]; [|right; set_solver].
    destruct (Hfrom x Hx') as [|[-> ?]]; [by left|right; split; [by left|done]].
  - intros x Hx. by apply H3, Hkeep.
  - intros x [->|Hx]%elem_of_cons Ha; [|by apply H4].
    apply Hgot in Ha. apply list_elem_of_fmap in Ha as (y & -> & Hy). apply list_elem_of_fmap_2. by apply H3.
Qed.

Lemma elem_of_own_skills r s : s ∈ own_skills r ↔
  ∃ m, m ∈ list_agents r ∧ agent_id m ≠ PROXY_AGENT_ID ∧ s ∈ skills m.
Proof.
  unfold own_skills. rewrite !list_elem_of_In, in_concat. split.
  - intros (l & Hl & Hs). apply in_map_iff in Hl as (m & <- & Hm). apply filter_In in Hm as [Hm He].
    exists m. rewrite !list_elem_of_In. split_and!; [done| |done].
    intros E. rewrite E in He. done.
  - intros (m & Hm%list_elem_of_In & He & Hs%list_elem_of_In). exists (skills m). split; [|done].
    apply in_map, filter_In. split; [done|]. by apply negb_true_iff, String.eqb_neq.
Qed.

(** An agent card lists exactly the skills its reader may call. Whatever
    [allowed] says (public skills, or those the caller's origin and skill patterns
    permit), the entries are in order of their ids, no id is listed twice, each entry
    is an allowed skill of a registered agent, every allowed skill of a registered
    agent is listed by its id, and nothing of the proxy agent is re-exported. *)
Theorem cards_list_what_may_be_called allowed r :
  let l := collect allowed r in
  StronglySorted (λ a b, id_leb a b = true) l ∧ NoDup (map skill_id l)
  ∧ (∀ s, s ∈ l → allowed s = true
       ∧ ∃ m, m ∈ list_agents r ∧ agent_id m ≠ PROXY_AGENT_ID ∧ s ∈ skills m)
  ∧ (∀ m s, m ∈ list_agents r → agent_id m ≠ PROXY_AGENT_ID → s ∈ skills m → allowed s = true →
       skill_id s ∈ map skill_id l).
Proof.
  cbv zeta. unfold collect. set (r0 := foldl _ _ _).
  destruct (see_all_ids allowed (own_skills r) [] (NoDup_nil_2 (A:=string))) as (H1 & H2 & _ & H4).
  fold r0 in H1, H2, H4. split_and!.
  - apply py_sorted_sorted; intros *; [apply str_leb_total|apply str_leb_trans].
  - by rewrite py_sorted_perm.
  - intros s Hs. rewrite py_sorted_perm in Hs. apply H2 in Hs as [Hs|[Hs Ha]]; [by apply elem_of_nil in Hs|].
    split; [done|]. by apply elem_of_own_skills.
  - intros m s Hm He Hs Ha.
    assert (Hin : skill_id s ∈ map skill_id r0) by (apply H4; [apply elem_of_own_skills; eauto|done]).
    apply list_elem_of_fmap in Hin as (x & Ex & Hx). rewrite Ex. apply list_elem_of_fmap_2.
    by rewrite py_sorted_perm.
Qed.
