(* ===== verification/A2AServer.v ===== *)
(** core/a2a/server.py: the JSON-RPC endpoint through which remote callers submit,
    read and cancel tasks of the durable job store.

    The endpoint's [try] block is a computation in [M db]. Identifiers and clock
    readings of one request are a record [draws]; [json.loads] on the request's
    bytes and [str] of a JSON value that is no string are arguments. A streamed
    reply is a function of the databases its polls see. *)

From S2P Require Import Prelude.
From S2P Require Import PyStr.
From S2P Require Import PyTime.
From S2P Require Import Json.
From S2P Require Import Contracts.
From S2P Require Import JobRepository.
From S2P Require Import Registry.
From S2P Require Import A2A.
From Stdlib Require Import Ascii.
Open Scope Z_scope.

Definition MAX_BODY_BYTES : Z := 1000000.
Definition DEFAULT_THRESHOLD : Q := 65 # 100.
Definition REJECTION_REASONS : list string := ["origin_not_allowed"; "policy_denied"].

(** ** Reading a message *)

(** One part of the loop of [_extract_call]. *)
Definition call_of_part (part : json) : result (option (string * jdict)) :=
  match part with
  | JObj p =>
      match obj_field "data" p with
      | JObj data =>
          match obj_field "skill" data with
          | JStr skill =>
              match obj_default "payload" (JObj []) data with
              | JObj payload => Ok (Some (skill, payload))
              | _ => Raise (invalid_params "data.payload must be an object")
              end
          | _ => Ok None
          end
      | _ => Ok None
      end
  | _ => Ok None
  end.

Fixpoint first_call (parts : list json) : result (string * jdict) :=
  match parts with
  | [] => Raise (invalid_params ("message needs a data part {" +:+ dump_str "skill" +:+ ": "
            +:+ dump_str "..." +:+ ", " +:+ dump_str "payload" +:+ ": {...}}"))
  | p :: parts =>
      c ← call_of_part p;
      match c with Some c => Ok c | None => first_call parts end
  end.

(** [_extract_call]. *)
Definition extract_call (message : jdict) : result (string * jdict) :=
  parts ← py_iter (jor (obj_field "parts" message) (JArr []));
  first_call parts.

(** [_threshold]. *)
Definition threshold (message : jdict) : result Q :=
  match jor (obj_field "metadata" message) (JObj []) with
  | JObj metadata =>
      let bad := Raise (invalid_params "confidenceThreshold must be a number between 0 and 1") in
      match obj_default "confidenceThreshold" (JFloat DEFAULT_THRESHOLD) metadata with
      | JInt z => if unit_interval (inject_Z z) then Ok (inject_Z z) else bad
      | JFloat q => if unit_interval q then Ok q else bad
      | _ => bad
      end
  | _ => Raise (invalid_params "message.metadata must be an object")
  end.

(** ** Showing a job *)

(** [_artifact]. *)
Definition artifact (res : jdict) : json :=
  JObj [("artifactId", JStr "result"); ("name", JStr "result");
    ("parts", JArr [JObj [("data", JObj
       [("result", obj_field "result" res);
        ("summary", jor (obj_field "summary" res) (JStr ""));
        ("gaps", jor (obj_field "gaps" res) (JArr []))])]]);
    ("metadata", JObj [("confidence", obj_field "confidence" res)])].

(** [(result or {}).get]: what is no dictionary has no [get]. *)
Definition result_dict (res : option json) : result jdict :=
  match res with
  | None => Ok []
  | Some (JObj d) => Ok d
  | Some v => if truthy v then Raise AttributeError else Ok []
  end.

(** [v in _REJECTION_REASONS]: lists and dictionaries cannot be looked up in a set. *)
Definition is_rejection (v : json) : result bool :=
  match v with
  | JArr _ | JObj _ => Raise TypeError
  | JStr s => Ok (bool_decide (s ∈ REJECTION_REASONS))
  | _ => Ok false
  end.

Section Server.
Context (py_str : json → string) (json_loads : string → result json).
Context (version : string) (reg : registry).

Definition str_json (v : json) : string := match v with JStr s => s | _ => py_str v end.

(** The branches of [_map_job] for a completed job with this result. *)
Definition map_completed (res : jdict) : result (string * option string * list json) :=
  let outcome := obj_field "status" res in
  if is_str outcome "complete" then Ok (STATE_COMPLETED, None, [artifact res])
  else if is_str outcome "escalated" then Ok (STATE_INPUT_REQUIRED, Some "awaiting human review", [])
  else
    let reason := obj_field "failure_reason" res in
    rejected ← (if is_str outcome "no_agent_found" then is_rejection reason else Ok false);
    if rejected : bool then Ok (STATE_REJECTED, Some "not permitted for this caller", [])
    else Ok (STATE_FAILED, Some (str_json (jor reason (jor outcome (JStr "task failed")))), []).

(** [_map_job]. *)
Definition map_job (s : JobStatus) (res : option json) : result (string * option string * list json) :=
  match s with
  | queued => Ok (STATE_SUBMITTED, None, [])
  | running => Ok (STATE_WORKING, None, [])
  | cancelled => Ok (STATE_CANCELED, None, [])
  | failed => Ok (STATE_FAILED, Some "task failed", [])
  | completed => res ← result_dict res; map_completed res
  end.

(** What a request draws: [uuid4] of the task, the job, a rejected view and a status
    message; the clock as the job store and as the view read it. *)
Record draws := mk_draws {
  new_task : uuid;
  new_job : uuid;
  new_view : uuid;
  new_message : uuid;
  clock : time;
  stamp : datetime }.

(** [_task_view]. *)
Definition task_view (u : draws) (job : Job) (d : db) : result jdict :=
  m ← map_job (status job) (get_result (job_id job) d);
  let '(state, text, artifacts) := m in
  Ok (make_task (stamp u) (new_message u) (uuid_str (job_id job)) state None text artifacts).

(** ** The handlers *)

(** [_parse]: the error, or the request's id, method and parameters; a text that is
    no JSON and a request that is no object have no id to answer to. *)
Inductive parsed :=
  | Malformed (request_id : json) (e : exn)
  | Request (request_id : json) (method : string) (params : jdict).

Definition parse (raw : string) : result parsed :=
  match json_loads raw with
  | Raise ValueError => Ok (Malformed JNull parse_error)
  | Raise e => Raise e
  | Ok (JObj body) =>
      let id := obj_field "id" body in
      match obj_field "method" body with
      | JStr method =>
          if is_str (obj_field "jsonrpc" body) "2.0" then
            match obj_default "params" (JObj []) body with
            | JObj params => Ok (Request id method params)
            | _ => Ok (Malformed id (invalid_params "params must be an object"))
            end
          else Ok (Malformed id (invalid_request "Invalid request"))
      | _ => Ok (Malformed id (invalid_request "Invalid request"))
      end
  | Ok _ => Ok (Malformed JNull (invalid_request "Invalid request"))
  end.

(** The checks at the head of [enqueue]: skill, payload, threshold, message id. *)
Definition read_message (params : jdict) : result (string * jdict * Q * string) :=
  match obj_field "message" params with
  | JObj message =>
      match obj_field "messageId" message with
      | JStr mid =>
          rguard (truthy_str (strip mid)) (invalid_params "message.messageId is required");;
          rguard (is_str (obj_field "role" message) ROLE_USER)
            (invalid_params "message.role must be ROLE_USER");;
          call ← extract_call message;
          q ← threshold message;
          Ok (call.1, call.2, q, strip mid)
      | _ => Raise (invalid_params "message.messageId is required")
      end
  | _ => Raise (invalid_params "params.message is required")
  end.

(** [TaskContract(...)]; its origin is the caller's, never the message's. *)
Definition task_for (u : draws) (c : CallerConfig) (skill : string) (payload : jdict) (q : Q) :
    result TaskContract :=
  match validate_task (mk_Task (new_task u) (c_origin c) skill payload q None None None None (clock u)) with
  | Raise ValueError => Raise (invalid_params "invalid skill")
  | r => r
  end.

(** f"a2a:{caller.origin}:{message_id}". *)
Definition message_key (origin mid : string) : string := "a2a:" +:+ origin +:+ ":" +:+ mid.

(** [enqueue]. *)
Definition send (u : draws) (params : jdict) (c : CallerConfig) : M db (option uuid * jdict) :=
  m ← mlift (read_message params);
  let '(skill, payload, q, mid) := m in
  if negb (allows_skill c skill) then
    mret (None, make_task (stamp u) (new_message u) (uuid_str (new_view u)) STATE_REJECTED None
                  (Some "skill not permitted for this caller") [])
  else
    task ← mlift (task_for u c skill payload q);
    job ← enqueue (new_job u) (t_task_id task) (Some task) (message_key (c_origin c) mid) 0 None (clock u);
    view ← mread (task_view u job);
    mret (Some (job_id job), view).

(** The text [UUID(...)] is given. Only texts and ints can render as 32 hexadecimal
    digits: every other JSON value is refused. *)
Definition uuid_text (v : json) : option string :=
  match v with
  | JStr s => Some s
  | JInt z => Some (py_int z)
  | _ => None
  end.

Definition hex_digit (c : ascii) : option N :=
  let n := N_of_ascii c in
  if ((48 <=? n) && (n <=? 57))%N then Some (n - 48)%N
  else if ((97 <=? n) && (n <=? 102))%N then Some (n - 87)%N
  else if ((65 <=? n) && (n <=? 70))%N then Some (n - 55)%N
  else None.

(** The digits of [int(s, 16)], single underscores between them. *)
Fixpoint hex_digits (acc : N) (after_digit : bool) (l : list ascii) : option N :=
  match l with
  | [] => if after_digit then Some acc else None
  | c :: l =>
      if Ascii.eqb c "_" then if after_digit then hex_digits acc false l else None
      else match hex_digit c with
           | Some d => hex_digits (16 * acc + d)%N true l
           | None => None
           end
  end.

(** [int(s, 16)] of blanks, a sign, a prefix 0x (which an underscore may follow) and
    digits; [None] where it raises. *)
Definition int16 (s : string) : option Z :=
  let l := to_list (strip s) in
  let '(neg, l) := match l with
    | c :: l' => if Ascii.eqb c "-" then (true, l') else if Ascii.eqb c "+" then (false, l') else (false, l)
    | [] => (false, l) end in
  let '(prefixed, l) := match l with
    | z :: x :: l' => if Ascii.eqb z "0" && (Ascii.eqb x "x" || Ascii.eqb x "X") then (true, l') else (false, l)
    | _ => (false, l) end in
  let l := match l with
    | c :: l' => if prefixed && Ascii.eqb c "_" then l' else l
    | [] => l end in
  n ← hex_digits 0 false l;
  Some (if neg : bool then - Z.of_N n else Z.of_N n).

(** [UUID(hex)]. *)
Definition parse_uuid (s : string) : option uuid :=
  let s := py_replace (strip_chars (py_replace (py_replace s "urn:" "") "uuid:" "") "{}") "-" "" in
  if (length (to_list s) =? 32)%nat then
    z ← int16 s;
    if (0 <=? z) && (z <? 2 ^ 128) then Some (Z.to_N z) else None
  else None.

(** [owned_job]. *)
Definition owned_job (params : jdict) (c : CallerConfig) (d : db) : result Job :=
  match uuid_text (obj_field "id" params) ≫= parse_uuid with
  | None => Raise task_not_found
  | Some j =>
      job ← get_job j d;
      match job, get_task j d with
      | Some job, Some task =>
          if String.eqb (origin task) (c_origin c) then Ok job else Raise task_not_found
      | _, _ => Raise task_not_found
      end
  end.

(** [repo.cancel] with the errors the handler translates. *)
Definition cancel_or_refuse (j : uuid) (now : time) : M db Job := λ d,
  match cancel j now d with
  | (Raise KeyError, d') => (Raise task_not_found, d')
  | (Raise ValueError, d') | (Raise InvalidJobState, d') => (Raise task_not_cancelable, d')
  | r => r
  end.

(** [cancel]. *)
Definition cancel_task (u : draws) (params : jdict) (c : CallerConfig) : M db jdict :=
  job ← mread (owned_job params c);
  job ← cancel_or_refuse (job_id job) (clock u);
  mread (task_view u job).

(** The branch of "GetTask". *)
Definition get_task_view (u : draws) (params : jdict) (c : CallerConfig) (d : db) : result jdict :=
  job ← owned_job params c d;
  task_view u job d.

(** [dispatch]. *)
Definition dispatch (u : draws) (method : string) (params : jdict) (c : CallerConfig) (base : string) :
    M db json :=
  if String.eqb method "SendMessage" then
    r ← send u params c;
    mret (JObj [("task", JObj r.2)])
  else if String.eqb method "GetTask" then
    v ← mread (get_task_view u params c);
    mret (JObj v)
  else if String.eqb method "CancelTask" then
    v ← cancel_task u params c;
    mret (JObj v)
  else if String.eqb method "GetExtendedAgentCard" then
    mret (build_extended_card version reg base c)
  else mraise unsupported_operation.

(** ** The endpoint *)

Inductive response :=
  | JSONResponse (http_status : Z) (content : json)
  | StreamingResponse (request_id : json) (job : option uuid) (first_view : jdict).

(** The headers read, and the body. *)
Record http_request := mk_http {
  authorization : string;
  content_length : string;
  a2a_version : option string;
  body : string }.

Definition isdigit (c : ascii) : bool :=
  let n := nat_of_ascii c in
  ((48 <=? n) && (n <=? 57) || (n =? 178) || (n =? 179) || (n =? 185))%nat.

(** [int(s)] of a text that [isdigit] accepts: a superscript is a digit but no
    decimal, and more than 4300 digits are refused. *)
Definition int10 (s : string) : result Z :=
  let l := to_list s in
  rguard (forallb (λ c, (nat_of_ascii c <=? 57)%nat) l && (length l <=? 4300)%nat) ValueError;;
  Ok (foldl (λ acc c, 10 * acc + (Z.of_nat (nat_of_ascii c) - 48)) 0 l).

(** The declared size, when there is one. *)
Definition declared_size (s : string) : result (option Z) :=
  if truthy_str s && forallb isdigit (to_list s) then n ← int10 s; Ok (Some n) else Ok None.

Definition error_response (request_id : json) (e : exn) : result response :=
  match e with
  | A2AError code message reason => Ok (JSONResponse 200 (rpc_error request_id code message reason))
  | e => Raise e
  end.

(** The [try] block: streaming or a single answer. *)
Definition answer (u : draws) (request_id : json) (method : string) (params : jdict) (c : CallerConfig)
    (base : string) : M db response :=
  if String.eqb method "SendStreamingMessage" then
    r ← send u params c;
    mret (StreamingResponse request_id r.1 r.2)
  else
    v ← dispatch u method params c base;
    mret (JSONResponse 200 (rpc_result request_id v)).

(** [except p.A2AError as exc]. *)
Definition catching (request_id : json) (m : M db response) : M db response := λ d,
  match m d with
  | (Ok r, d') => (Ok r, d')
  | (Raise e, d') => (error_response request_id e, d')
  end.

Definition request_too_large : result response := error_response JNull (invalid_request "Request too large").

(** The handler from the parsed request on. *)
Definition serve (u : draws) (req : http_request) (c : CallerConfig) (base : string) (p : parsed) :
    M db response :=
  match p with
  | Malformed id e => mlift (error_response id e)
  | Request id method params =>
      if bool_decide (a2a_version req = Some A2A_VERSION)
      then catching id (answer u id method params c base)
      else mlift (error_response id version_not_supported)
  end.

(** [a2a]. *)
Definition a2a (cfg : A2AConfig) (u : draws) (base : string) (req : http_request) : M db response :=
  match authenticate cfg (authorization req) with
  | None => mret (JSONResponse 401 (JObj [("error", JStr "unauthorized")]))
  | Some c =>
      declared ← mlift (declared_size (content_length req));
      if MAX_BODY_BYTES <? or_else declared 0 then mlift request_too_large
      else if MAX_BODY_BYTES <? Z.of_nat (length (to_list (body req))) then mlift request_too_large
      else p ← mlift (parse (body req)); serve u req c base p
  end.

(** ** Streaming *)

(** One turn of the loop of [events]: whether the deadline had passed when the loop's
    condition was evaluated, and what the poll after the sleep saw. *)
Record poll := mk_poll {
  expired : bool;
  seen : db;
  seen_draws : draws }.

Definition state_of (view : jdict) : json :=
  match obj_field "status" view with JObj s => obj_field "state" s | _ => JNull end.

Definition is_stop (state : json) : bool := existsb (is_str state) STOP_STATES.

Definition artifact_frame (view : jdict) (a : json) : json :=
  JObj [("artifactUpdate", JObj [("taskId", obj_field "id" view);
    ("contextId", obj_field "contextId" view); ("artifact", a)])].

Definition status_frame (view : jdict) : json :=
  JObj [("statusUpdate", JObj [("taskId", obj_field "id" view);
    ("contextId", obj_field "contextId" view); ("status", obj_field "status" view)])].

(** [view.get("artifacts", [])] of a view built by [make_task]. *)
Definition artifacts_of (view : jdict) : list json :=
  match obj_default "artifacts" (JArr []) view with JArr l => l | _ => [] end.

(** The frames a changed state is told in. *)
Definition frames_for (view : jdict) : list json :=
  (if is_str (state_of view) STATE_COMPLETED then map (artifact_frame view) (artifacts_of view) else [])
  ++ [status_frame view].

(** The loop of [events], on the polls to come; running out of polls leaves the
    stream open. *)
Fixpoint follow (j : uuid) (state : json) (polls : list poll) : result (list json) :=
  match polls with
  | [] => Ok []
  | p :: polls =>
      if is_stop state || expired p then Ok []
      else
        job ← get_job j (seen p);
        match job with
        | None => Ok []
        | Some job =>
            view ← task_view (seen_draws p) job (seen p);
            if bool_decide (state_of view = state) then follow j state polls
            else rest ← follow j (state_of view) polls; Ok (frames_for view ++ rest)
        end
  end.

(** [events]: the payloads of the frames. *)
Definition events (job : option uuid) (first_view : jdict) (polls : list poll) : result (list json) :=
  match job with
  | None => Ok [JObj [("task", JObj first_view)]]
  | Some j =>
      rest ← follow j (state_of first_view) polls;
      Ok (JObj [("task", JObj first_view)] :: rest)
  end.
End Server.
