(* ===== verification/A2AIsolation.v ===== *)
(** Isolation between the callers of the A2A endpoint: a request touches no job of
    another caller, and its answer does not depend on them. *)

From S2P Require Import Prelude.
From S2P Require Import PyStr.
From S2P Require Import PyTime.
From S2P Require Import Json.
From S2P Require Import Contracts.
From S2P Require Import JobRepository.
From S2P Require Import JobInvariant.
From S2P Require Import JobEffects.
From S2P Require Import JobTheorems.
From S2P Require Import Registry.
From S2P Require Import A2A.
From S2P Require Import A2AServer.
From Stdlib Require Import Ascii.
Open Scope Z_scope.

(** ** Who a request is from *)

Lemma cut_spec sep l a b : cut sep l = (a, b) →
  match b with Some b => l = a ++ sep :: b | None => l = a end ∧ sep ∉ a.
Proof.
  revert a b. induction l as [|c l IH]; intros a b H; simpl in H; [simplify_eq; set_solver|].
  destruct (Ascii.eqb_spec c sep) as [->|Hc]; [simplify_eq; set_solver|].
  destruct (cut sep l) as [a' b'] eqn:E. simplify_eq.
  destruct (IH _ _ eq_refl) as [Hl Hn]. split; [destruct b; by subst|set_solver].
Qed.

Lemma partition_some s sep a b : partition s sep = (a, Some b) → s = a +:+ String sep b.
Proof.
  unfold partition. destruct (cut sep (to_list s)) as [x y] eqn:E. intros [= <- Hy].
  destruct y as [y|]; [|done]. injection Hy as <-. apply cut_spec in E as [E _].
  change (String sep (of_list y)) with (of_list (sep :: y)).
  by rewrite <-of_list_app, <-E, of_to_list.
Qed.

Lemma last_match_ok p cs : ∀ m c,
  foldl (λ m c, if String.eqb p (c_token c) then Some c else m) m cs = Some c →
  m = Some c ∨ c ∈ cs ∧ c_token c = p.
Proof.
  induction cs as [|x cs IH]; intros m c H; simpl in H; [by left|].
  apply IH in H as [H|[Hin Ht]]; [|right; split; [by right|done]].
  destruct (String.eqb_spec p (c_token x)) as [E|]; [|by left].
  injection H as ->. right. split; [by left|done].
Qed.

(** An authenticated caller is a configured one that presented its token. *)
Lemma authenticate_ok cfg auth c : authenticate cfg auth = Some c →
  c ∈ callers cfg ∧ ∃ scheme, lower scheme = "bearer" ∧ auth = scheme +:+ " " +:+ c_token c.
Proof.
  unfold authenticate. destruct (partition auth " ") as [scheme presented] eqn:E.
  destruct (String.eqb_spec (lower scheme) "bearer") as [Hs|]; [|done].
  destruct presented as [p|]; simpl; [|done].
  destruct (truthy_str p); simpl; [|done]. intros H.
  apply last_match_ok in H as [H|[Hin <-]]; [done|]. split; [done|]. exists scheme.
  split; [done|]. by apply partition_some in E.
Qed.

(** ** Idempotency keys of callers *)

(** An origin as the configuration gives it, without a colon in its name. *)
Definition plain_origin (o : string) : Prop :=
  strip o = o ∧ ∃ name, o = "a2a:" +:+ name ∧ ":"%char ∉ to_list name.

Lemma split_at_colon (a b x y : list ascii) c : c ∉ a → c ∉ b → a ++ c :: x = b ++ c :: y → a = b ∧ x = y.
Proof.
  revert b. induction a as [|u a IH]; intros [|v b] Ha Hb H; simpl in H; simplify_eq; try set_solver.
  destruct (IH b) as [-> ->]; set_solver.
Qed.

Lemma message_key_list o m : to_list (message_key o m) = to_list "a2a:" ++ to_list o ++ ":"%char :: to_list m.
Proof. unfold message_key. by rewrite !to_list_app. Qed.

(** Two plain origins never share a key. *)
Lemma message_key_inj o1 o2 m1 m2 : plain_origin o1 → plain_origin o2 →
  message_key o1 m1 = message_key o2 m2 → o1 = o2 ∧ m1 = m2.
Proof.
  intros (_ & n1 & -> & H1) (_ & n2 & -> & H2) H%(f_equal to_list).
  rewrite !message_key_list, !to_list_app in H. apply app_inv_head in H.
  rewrite <-!app_assoc in H. apply app_inv_head in H.
  apply split_at_colon in H as [Hn Hm]; [|done..].
  rewrite <-(of_to_list n1), <-(of_to_list n2), <-(of_to_list m1), <-(of_to_list m2). by rewrite Hn, Hm.
Qed.

Lemma strip_last l : strip (of_list l) = of_list l → l = rev (drop_space (rev l)).
Proof.
  unfold strip. rewrite to_of_list. intros E%(inj of_list).
  destruct (drop_space_suffix l) as [p Hp]. set (m := drop_space l) in *.
  destruct (drop_space_suffix (rev m)) as [q Hq]. set (t := drop_space (rev m)) in *.
  assert (Hlen : length t = length l) by (apply (f_equal length) in E; by rewrite length_rev in E).
  assert (p = []) as ->.
  { apply length_zero_iff_nil. apply (f_equal length) in Hp, Hq.
    rewrite length_app in Hp, Hq. rewrite length_rev in Hq. lia. }
  simpl in Hp. rewrite Hp at 2. by symmetry.
Qed.

(** A text that begins visibly keeps the end of a stripped, nonempty text. *)
Lemma strip_visible_app c s m : is_space c = false → strip m = m → truthy_str m = true →
  strip (String c s +:+ m) = String c s +:+ m.
Proof.
  intros Hc Hm Ht.
  rewrite <-(of_to_list m) in Hm. apply strip_last in Hm.
  unfold strip. rewrite to_list_app.
  change (to_list (String c s)) with (c :: to_list s). cbn [app drop_space]. rewrite Hc.
  assert (Hd : drop_space (rev (to_list m)) = rev (to_list m)).
  { rewrite Hm at 2. by rewrite rev_involutive. }
  replace (drop_space (rev (c :: to_list s ++ to_list m))) with (rev (c :: to_list s ++ to_list m)).
  - rewrite rev_involutive. change (c :: to_list s ++ to_list m) with (to_list (String c s) ++ to_list m).
    by rewrite <-to_list_app, of_to_list.
  - symmetry. change (c :: to_list s ++ to_list m) with ((c :: to_list s) ++ to_list m).
    rewrite rev_app_distr. apply drop_space_id.
    pose proof (drop_space_head (rev (to_list m))) as Hh. rewrite Hd in Hh.
    destruct (rev (to_list m)) as [|x l] eqn:E; [|exact Hh].
    simpl in Hm. by rewrite <-(of_to_list m), Hm in Ht.
Qed.

Lemma message_key_stripped o m : strip m = m → truthy_str m = true → strip (message_key o m) = message_key o m.
Proof.
  intros Hm Ht. unfold message_key.
  assert (E : "a2a:" +:+ o +:+ ":" +:+ m = String "a" ("2a:" +:+ o +:+ ":") +:+ m).
  { change (String "a" ("2a:" +:+ o +:+ ":")) with ("a2a:" +:+ (o +:+ ":")). by rewrite !str_app_assoc. }
  rewrite E. by apply strip_visible_app.
Qed.

(** ** What a request writes *)

(** The origin a job's stored task names. *)
Definition owner (d : db) (j : uuid) : option string := origin <$> job_tasks d !! j.

(** Keys in the callers' name space lead to jobs of that caller, and a stored task
    belongs to a job that has a key. *)
Record namespaced (d : db) : Prop := {
  ns_key : ∀ o m j t, plain_origin o → idem d !! message_key o m = Some (j, t) → owner d j = Some o;
  ns_task : ∀ j t, job_tasks d !! j = Some t → ∃ k t, idem d !! k = Some (j, t) }.

Lemma ns_job d j t : Inv d → namespaced d → job_tasks d !! j = Some t → is_Some (jobs d !! j).
Proof. intros HI Hn Ht. destruct (ns_task _ Hn _ _ Ht) as (k & t' & Hk). apply (inv_key _ HI _ _ _ Hk). Qed.

Lemma create_namespaced d r key task now : Inv d → namespaced d →
  jobs d !! jr_id r = None → idem d !! key = None →
  (∀ o m, plain_origin o → key = message_key o m → origin <$> task = Some o) →
  namespaced (create_effect r key task now d).
Proof.
  intros HI Hn Hj Hk Ho. set (j0 := jr_id r) in *. split.
  - intros o m j t Hp Hi. unfold create_effect in *. simpl in *. unfold owner. simpl.
    destruct (decide (key = message_key o m)) as [E|E].
    + rewrite <-E, lookup_insert_eq in Hi. injection Hi as <- _. specialize (Ho _ _ Hp E).
      destruct task; [|done]. by rewrite lookup_insert_eq.
    + rewrite lookup_insert_ne in Hi by done.
      assert (Hne : j ≠ j0).
      { intros ->. destruct (ko_job _ _ _ (inv_key _ HI _ _ _ Hi)). unfold j0 in *. congruence. }
      rewrite <-(ns_key _ Hn _ _ _ _ Hp Hi). unfold owner.
      destruct task; [|done]. by rewrite lookup_insert_ne.
  - intros j t Ht. unfold create_effect in *. simpl in *. fold j0 in Ht |- *.
    assert (Hold : ∀ t, job_tasks d !! j = Some t → ∃ k t', <[key := (j0, now)]> (idem d) !! k = Some (j, t')).
    { intros t0 Ht0. destruct (ns_task _ Hn _ _ Ht0) as (k & t' & Hk'). exists k, t'.
      rewrite lookup_insert_ne; [done|congruence]. }
    destruct task as [task|]; [|by eapply Hold].
    destruct (decide (j0 = j)) as [<-|]; [|rewrite lookup_insert_ne in Ht by done; by eapply Hold].
    exists key, now. apply lookup_insert_eq.
Qed.

(** Only enqueue writes keys and tasks. *)
Definition is_enqueue (o : op) : bool := match o with Enqueue _ _ _ _ _ _ => true | _ => false end.

Lemma run_keeps_names o now d : Inv d → is_enqueue o = false →
  idem (run o now d) = idem d ∧ job_tasks (run o now d) = job_tasks d.
Proof.
  intros HI Ho. unfold run, exec, discard. destruct o; cbn [snd]; try done;
    match goal with |- context [snd ?p] => destruct p as [x d'] eqn:H end; cbn [snd].
  - by apply claim_cases in H as [[-> _]|[[-> _]|(r & ex & k & _ & _ & _ & _ & _ & -> & _)]].
  - by apply heartbeat_cases in H as [[-> _]|(att & ex & _ & _ & _ & -> & _)].
  - apply complete_cases in H as [[-> _]|[[-> _]|(r & att & k & _ & _ & _ & -> & _)]]; try done.
    unfold complete_effect, completion_tables. destruct res as [res|]; [|done].
    by destruct (needs_evidence res).
  - by apply failure_cases in H as [[-> _]|(r & att & dl & av & k & _ & _ & _ & _ & _ & -> & _)].
  - by apply cancel_cases in H as [[-> _]|[[-> _]|(r & k & _ & _ & -> & _)]].
  - by apply reclaim_cases in H as [[-> _]|(_ & -> & _ & -> & _)].
Qed.

Lemma namespaced_same d d' : idem d' = idem d → job_tasks d' = job_tasks d → namespaced d → namespaced d'.
Proof. intros Hi Ht [H1 H2]. split; unfold owner in *; rewrite Hi, Ht; done. Qed.

(** What a request of [c] may do to the store. *)
Inductive touches (c : CallerConfig) (d : db) : db → Prop :=
  | touch_nothing : touches c d d
  | touch_submit r task mid now : jobs d !! jr_id r = None → idem d !! message_key (c_origin c) mid = None →
      origin task = strip (c_origin c) → Inv (create_effect r (message_key (c_origin c) mid) (Some task) now d) →
      touches c d (create_effect r (message_key (c_origin c) mid) (Some task) now d)
  | touch_cancel j r now : owner d j = Some (c_origin c) → jobs d !! j = Some r →
      Inv (cancel_effect j r now d) → touches c d (cancel_effect j r now d).

Lemma touches_inv c d d' : Inv d → touches c d d' → Inv d'.
Proof. by intros HI []. Qed.

Lemma touches_namespaced c d d' : plain_origin (c_origin c) → Inv d → namespaced d → touches c d d' →
  namespaced d'.
Proof.
  intros Hp HI Hn [|r task mid now Hj Hk Ho _|j r now _ _ _]; [done| |by apply (namespaced_same d)].
  apply create_namespaced; [done..|]. intros o m Hpo E.
  apply message_key_inj in E as [<- _]; [|done..]. simpl. rewrite Ho. by destruct Hp as [-> _].
Qed.

Lemma read_message_mid params skill payload q mid :
  read_message params = Ok (skill, payload, q, mid) → strip mid = mid ∧ truthy_str mid = true.
Proof.
  unfold read_message. intros H. repeat (case_match; try done). rok.
  split; [apply strip_idemp|done].
Qed.

Lemma task_for_ok u c skill payload q task : task_for u c skill payload q = Ok task →
  origin task = strip (c_origin c) ∧ t_task_id task = new_task u.
Proof.
  unfold task_for, validate_task, validate_non_empty_str. cbn [origin Contracts.skill confidence_threshold deadline_ms].
  intros H. destruct (truthy_str (strip (c_origin c))); [|done].
  destruct (truthy_str (strip skill)); [|done]. cbn in H.
  destruct (unit_interval q); [|done]. cbn in H. by simplify_eq.
Qed.

Section Requests.
Context (py_str : json → string) (json_loads : string → result json).

Lemma send_touches u params c d x d' : Inv d → send py_str u params c d = (x, d') → touches c d d'.
Proof.
  intros HI. unfold send. unfold mbind at 1, M_bind at 1, mlift at 1.
  destruct (read_message params) as [[[[skill payload] q] mid]|e] eqn:Hm; [|intros [= _ <-]; constructor].
  apply read_message_mid in Hm as [Hs Ht].
  destruct (negb (allows_skill c skill)); [intros [= _ <-]; constructor|].
  unfold mbind at 1, M_bind at 1, mlift at 1.
  destruct (task_for u c skill payload q) as [task|e] eqn:Htask; [|intros [= _ <-]; constructor].
  apply task_for_ok in Htask as [Ho Hid].
  unfold mbind at 1, M_bind at 1.
  destruct (enqueue _ _ _ _ _ _ _ d) as [r d1] eqn:He. intros H.
  assert (d' = d1) as ->.
  { destruct r as [job|]; [|by simplify_eq]. unfold mbind, M_bind, mread, mret, M_ret in H.
    by destruct (task_view _ _ _ _); simplify_eq. }
  apply enqueue_cases in He as [[-> _]|[[-> _]|(Hk & Hj & _ & _ & _ & _ & -> & HI' & _)]]; [constructor..| |done].
  rewrite message_key_stripped in Hk, HI' |- * by done. by apply touch_submit.
Qed.

Lemma owned_job_ok params c d job : Inv d → owned_job params c d = Ok job →
  ∃ r k, job = job_of k r ∧ jobs d !! job_id job = Some r ∧ key_of d (job_id job) = Some k
    ∧ owner d (job_id job) = Some (c_origin c).
Proof.
  intros HI. unfold owned_job. destruct (_ ≫= parse_uuid) as [j|]; [|done].
  rewrite (get_job_ok _ _ HI). cbn [mbind rbind].
  destruct (jobs d !! j) as [r|] eqn:Hr; [|done]. destruct (key_of d j) as [k|] eqn:Hk; [|done].
  unfold get_task. destruct (job_tasks d !! j) as [t|] eqn:Ht; [|done].
  destruct (String.eqb_spec (origin t) (c_origin c)) as [Ho|]; [|done]. intros [= <-].
  pose proof (jo_id _ _ _ (inv_job _ HI _ _ Hr)) as Hid.
  exists r, k. simpl. rewrite Hid. unfold owner. rewrite Ht. simpl. by rewrite Ho.
Qed.

Lemma cancel_or_refuse_state j now d : (cancel_or_refuse j now d).2 = (cancel j now d).2.
Proof. unfold cancel_or_refuse. by repeat case_match. Qed.

Lemma cancel_touches u params c d x d' : Inv d → cancel_task py_str u params c d = (x, d') → touches c d d'.
Proof.
  intros HI. unfold cancel_task. unfold mbind at 1, M_bind at 1, mread at 1.
  destruct (owned_job params c d) as [job|e] eqn:Hown; [|intros [= _ <-]; constructor].
  apply owned_job_ok in Hown as (r & k & -> & Hr & _ & Ho); [|done].
  unfold mbind at 1, M_bind at 1. pose proof (cancel_or_refuse_state (job_id (job_of k r)) (clock u) d) as Hs.
  destruct (cancel_or_refuse _ _ _) as [y d1] eqn:Hc. intros H.
  assert (d' = d1) as ->.
  { destruct y; [|by simplify_eq]. unfold mread in H. by simplify_eq. }
  simpl in Hs. rewrite Hs. destruct (cancel _ _ d) as [z d2] eqn:Hcc. simpl.
  apply cancel_cases in Hcc as [[-> _]|[[-> _]|(r' & k' & Hr' & _ & -> & HI' & _)]]; [constructor..| |done].
  by apply touch_cancel.
Qed.

Context (version : string) (reg : registry).

Lemma dispatch_touches u method params c base d x d' : Inv d →
  dispatch py_str version reg u method params c base d = (x, d') → touches c d d'.
Proof.
  intros HI. unfold dispatch. destruct (String.eqb method "SendMessage").
  { unfold mbind, M_bind. destruct (send _ _ _ _ d) as [[y|] d1] eqn:Hs; intros [= _ <-]; by eapply send_touches. }
  destruct (String.eqb method "GetTask").
  { unfold mbind, M_bind, mread. destruct (get_task_view _ _ _ _ _); intros [= _ <-]; constructor. }
  destruct (String.eqb method "CancelTask").
  { unfold mbind, M_bind. destruct (cancel_task _ _ _ _ d) as [[y|] d1] eqn:Hs; intros [= _ <-];
      by eapply cancel_touches. }
  destruct (String.eqb method "GetExtendedAgentCard"); intros [= _ <-]; constructor.
Qed.

Lemma answer_touches u id method params c base d x d' : Inv d →
  answer py_str version reg u id method params c base d = (x, d') → touches c d d'.
Proof.
  intros HI. unfold answer. destruct (String.eqb method "SendStreamingMessage"); unfold mbind, M_bind.
  - destruct (send _ _ _ _ d) as [[y|] d1] eqn:Hs; intros [= _ <-]; by eapply send_touches.
  - destruct (dispatch _ _ _ _ _ _ _ _ d) as [[y|] d1] eqn:Hs; intros [= _ <-]; by eapply dispatch_touches.
Qed.

(** A request writes nothing unless its caller is authenticated, and then only what
    [touches] allows that caller. *)
Lemma a2a_touches cfg u base req d x d' : Inv d →
  a2a py_str json_loads version reg cfg u base req d = (x, d') →
  d' = d ∨ ∃ c, authenticate cfg (authorization req) = Some c ∧ touches c d d'.
Proof.
  intros HI. unfold a2a. destruct (authenticate cfg (authorization req)) as [c|]; [|intros [= _ <-]; by left].
  unfold mbind at 1, M_bind at 1, mlift at 1.
  destruct (declared_size _) as [n|]; [|intros [= _ <-]; by left].
  destruct (_ <? or_else n 0); [intros [= _ <-]; by left|].
  destruct (MAX_BODY_BYTES <? _); [intros [= _ <-]; by left|].
  unfold mbind, M_bind, mlift. destruct (parse _ _) as [p|]; [|intros [= _ <-]; by left].
  unfold serve. destruct p as [id e|id method params]; [intros [= _ <-]; by left|].
  case_bool_decide as Hv; [|intros [= _ <-]; by left].
  unfold catching. destruct (answer _ _ _ _ _ _ _ _ _ d) as [y d1] eqn:Ha. intros H. right. exists c.
  split; [done|]. assert (d' = d1) as -> by (destruct y; by simplify_eq). by eapply answer_touches.
Qed.
End Requests.

(** ** Hosted stores *)

(** Jobs submitted elsewhere keep out of the callers' name space. *)
Definition elsewhere (o : op) : Prop :=
  match o with
  | Enqueue _ _ _ key _ _ => ∀ o m, plain_origin o → strip key ≠ message_key o m
  | _ => True
  end.

(** The stores a server with callers [cfg] can meet: any calls of workers and of the
    platform, any requests, in any order. *)
Inductive hosted (cfg : A2AConfig) : db → Prop :=
  | hosted_empty : hosted cfg empty_db
  | hosted_op d o now : hosted cfg d → elsewhere o → hosted cfg (run o now d)
  | hosted_request d py_str json_loads version reg u base req : hosted cfg d →
      hosted cfg (a2a py_str json_loads version reg cfg u base req d).2.

Definition plain_callers (cfg : A2AConfig) : Prop := Forall (λ c, plain_origin (c_origin c)) (callers cfg).

Lemma run_namespaced o now d : Inv d → namespaced d → elsewhere o → namespaced (run o now d).
Proof.
  intros HI Hn Ho. destruct (is_enqueue o) eqn:E.
  - destruct o as [fresh tid task key prio pol| | | | | | |]; try done. unfold run, exec, discard. cbn [snd].
    destruct (enqueue _ _ _ _ _ _ _ d) as [x d'] eqn:He. cbn [snd].
    apply enqueue_cases in He as [[-> _]|[[-> _]|(Hk & Hj & _ & _ & _ & _ & -> & _)]]; try done.
    apply create_namespaced; [done..|]. intros o m Hp Hkey. by destruct (Ho o m Hp).
  - destruct (run_keeps_names o now d HI E) as [Hi Ht]. by apply (namespaced_same d).
Qed.

Lemma hosted_ok cfg d : plain_callers cfg → hosted cfg d → Inv d ∧ namespaced d.
Proof.
  intros Hc. induction 1 as [|d o now _ [HI Hn] Ho|d ps jl v reg u base req _ [HI Hn]].
  - split; [apply Inv_empty|]. split; intros *; [intros _|]; simpl; by rewrite lookup_empty.
  - split; [by apply run_inv|by apply run_namespaced].
  - destruct (a2a ps jl v reg cfg u base req d) as [x d'] eqn:E. simpl.
    apply a2a_touches in E as [->|(c0 & Ha & Ht)]; [done| |done].
    apply authenticate_ok in Ha as [Hin _]. split; [by eapply touches_inv|].
    eapply touches_namespaced; [|done..]. exact (proj1 (Forall_forall _ _) Hc _ Hin).
Qed.

(** ** Integrity *)

(** What a job consists of: its row, task, result and attempts. *)
Definition job_kept (d d' : db) (j : uuid) : Prop :=
  jobs d' !! j = jobs d !! j ∧ job_tasks d' !! j = job_tasks d !! j ∧ outputs d' !! j = outputs d !! j
  ∧ ∀ a att, attempts d !! a = Some att → at_job_id att = j → attempts d' !! a = Some att.

Lemma cancel_keeps_others d j r now i : Inv d → jobs d !! j = Some r → i ≠ j →
  job_kept d (cancel_effect j r now d) i.
Proof.
  intros HI Hr Hi. unfold job_kept, cancel_effect, settle, add_history. simpl.
  rewrite lookup_insert_ne by done. split_and!; try done.
  intros a att Ha Hj. destruct (jr_active r) as [b|] eqn:Hb; [|done].
  destruct (decide (b = a)) as [->|]; [|by rewrite lookup_alter_ne].
  exfalso. pose proof (inv_job _ HI _ _ Hr) as Hok.
  destruct (decide (jr_status r = running)) as [Hs|Hs]; [|by rewrite (jo_idle _ _ _ Hok Hs) in Hb].
  destruct (jo_live _ _ _ Hok Hs) as (b & y & Hb' & Hy & Hyj & _). congruence.
Qed.

Lemma touches_keeps_others c d d' j : Inv d → touches c d d' →
  is_Some (jobs d !! j) → owner d j ≠ Some (c_origin c) → job_kept d d' j.
Proof.
  intros HI Ht [r0 Hj] Ho. destruct Ht as [|r task mid now Hn _ _ _|i r now Hi Hr _].
  - by split_and!.
  - assert (jr_id r ≠ j) by congruence. unfold job_kept, create_effect. simpl.
    by rewrite !lookup_insert_ne.
  - apply cancel_keeps_others; [done..|]. congruence.
Qed.

Lemma touches_owns_new c d d' j : touches c d d' → jobs d !! j = None → is_Some (jobs d' !! j) →
  owner d' j = Some (strip (c_origin c)).
Proof.
  intros Ht Hj Hj'. destruct Ht as [|r task mid now Hn _ Hs _|i r now _ Hr _].
  - rewrite Hj in Hj'. by destruct Hj'.
  - unfold owner, create_effect in *. simpl in *. destruct (decide (jr_id r = j)) as [->|].
    + by rewrite lookup_insert_eq; simpl; rewrite Hs.
    + rewrite lookup_insert_ne, Hj in Hj' by done. by destruct Hj'.
  - unfold cancel_effect, settle, add_history in Hj'. simpl in Hj'.
    rewrite lookup_insert_ne, Hj in Hj' by congruence. by destruct Hj'.
Qed.

(** C21: a remote caller acts on its own jobs only. Whatever a request holds,
    either it changes nothing or its bearer token is that of a configured caller,
    every existing job of anyone else keeps its row, task, result and attempts, and
    a job it creates carries the caller's own origin, never one of its choosing. *)
Theorem callers_cannot_touch_others cfg py_str json_loads version reg u base req d x d' :
  plain_callers cfg → hosted cfg d →
  a2a py_str json_loads version reg cfg u base req d = (x, d') →
  d' = d ∨ ∃ c scheme,
    c ∈ callers cfg ∧ lower scheme = "bearer" ∧ authorization req = scheme +:+ " " +:+ c_token c
    ∧ (∀ j, is_Some (jobs d !! j) → owner d j ≠ Some (c_origin c) → job_kept d d' j)
    ∧ (∀ j, jobs d !! j = None → is_Some (jobs d' !! j) → owner d' j = Some (c_origin c)).
Proof.
  intros Hc Hh H. destruct (hosted_ok _ _ Hc Hh) as [HI _].
  apply a2a_touches in H as [->|(c & Ha & Ht)]; [by left| |done]. right.
  apply authenticate_ok in Ha as (Hin & scheme & Hs & Hauth). exists c, scheme. split_and!; try done.
  - intros j Hj Ho. by eapply touches_keeps_others.
  - intros j Hj Hj'. rewrite (touches_owns_new _ _ _ _ Ht Hj Hj').
    by destruct (proj1 (Forall_forall _ _) Hc _ Hin) as [-> _].
Qed.

(** ** Confidentiality *)

(** Two stores a caller with origin [o] cannot tell apart: they agree on its jobs and
    on where its keys lead. *)
Record same_for (o : string) (d1 d2 : db) : Prop := {
  sf_own : ∀ j, owner d1 j = Some o ↔ owner d2 j = Some o;
  sf_job : ∀ j, owner d1 j = Some o → jobs d1 !! j = jobs d2 !! j ∧ key_of d1 j = key_of d2 j
    ∧ get_result j d1 = get_result j d2;
  sf_key : ∀ m, fst <$> idem d1 !! message_key o m = fst <$> idem d2 !! message_key o m }.

#[export] Instance same_for_equivalence o : Equivalence (same_for o).
Proof.
  split.
  - by split.
  - intros d1 d2 [H1 H2 H3]. split; [by intros j; rewrite H1| |by intros m].
    intros j Hj. apply H1 in Hj. destruct (H2 _ Hj) as (? & ? & ?). by split_and!.
  - intros d1 d2 d3 [A1 A2 A3] [B1 B2 B3]. split.
    + intros j. by rewrite A1.
    + intros j Hj. destruct (A2 _ Hj) as (-> & -> & ->). apply B2. by apply A1.
    + intros m. by rewrite A3.
Qed.

(** The outcome of the store's operations as functions of what [same_for] fixes. *)
Lemma cancel_outcome j now d r k : Inv d → jobs d !! j = Some r → key_of d j = Some k →
  cancel j now d = if bool_decide (jr_status r = cancelled) then (Ok (job_of k r), d)
    else if bool_decide (jr_status r = queued ∨ jr_status r = running)
    then (Ok (job_of k (row_cancel now r)), cancel_effect j r now d) else (Raise ValueError, d).
Proof.
  intros HI Hr Hk. destruct (cancel j now d) as [x d'] eqn:H.
  pose proof H as Hraw.
  apply cancel_cases in H as [(-> & e & -> & Htx)|[(-> & r' & k' & Hr' & Hs & ->)|
    (r' & k' & Hr' & Hs & -> & _ & Hk' & ->)]]; [| | |done].
  - revert Htx. unfold cancel_tx. erewrite mbind_step by done. rewrite Hr.
    case_bool_decide as Hc; [done|]. unfold mbind at 1, M_bind at 1, mlift at 1.
    destruct (validate_job_transition (jr_status r) cancelled) as [[]|e'] eqn:Hv.
    + unfold mbind, M_bind, mret, M_ret, close_by_id, record_transition, mmodify.
      by case_bool_decide; destruct (jr_active r).
    + intros [= ->]. unfold validate_job_transition in Hv. apply rguard_raise in Hv as [Hv ->].
      apply bool_decide_eq_false in Hv. rewrite bool_decide_eq_false_2; [done|].
      intros Hs. apply Hv. destruct Hs as [->| ->]; set_solver.
  - assert (r' = r) as -> by congruence. rewrite (bool_decide_eq_true_2 _ Hs).
    destruct (return_job_ok _ _ _ HI Hr) as (k2 & Hk2 & E).
    revert Hraw. unfold cancel, cancel_tx. unfold transaction.
    unfold mbind at 1, M_bind at 1. erewrite mbind_step by done. rewrite Hr, bool_decide_eq_true_2 by done.
    unfold mret, M_ret. rewrite E. intros [= Hkk]. congruence.
  - assert (r' = r) as -> by congruence. rewrite bool_decide_eq_false_2, bool_decide_eq_true_2 by
      (done || (destruct Hs; congruence)).
    change (key_of (cancel_effect j r now d) j) with (key_of d j) in Hk'. congruence.
Qed.

(** Enqueueing under a key that is taken, and under a new one. *)
Lemma enqueue_start fresh (task : TaskContract) key now d : strip key = key → truthy_str key = true →
  enqueue fresh (t_task_id task) (Some task) key 0 None now d =
  transaction (
    d ← mget;
    match idem d !! key with
    | Some (j, _) =>
        match jobs d !! j with Some r => mlift (job_from_row key r) | None => mraise IntegrityError end
    | None =>
        insert_job (enqueued_row fresh (t_task_id task) 0 default_retry_policy now);;
        insert_idem key fresh now;;
        insert_task fresh task;;
        record_transition fresh None queued "enqueue" now;;
        mret (candidate_job fresh (t_task_id task) key 0 default_retry_policy now)
    end) d.
Proof.
  intros Hs Ht. unfold enqueue. erewrite mbind_step by (apply mguard_true; by apply bool_decide_eq_true_2).
  rewrite (mbind_step _ _ _ (candidate_job fresh (t_task_id task) key 0 default_retry_policy now) d);
    [reflexivity|]. unfold mlift. rewrite validate_job_complete; [done|simpl; lia|done..|].
  split; intros H; [by destruct H|done].
Qed.

Lemma enqueue_known fresh (task : TaskContract) key now d j t r : Inv d → strip key = key →
  truthy_str key = true → idem d !! key = Some (j, t) → jobs d !! j = Some r →
  enqueue fresh (t_task_id task) (Some task) key 0 None now d = (Ok (job_of key r), d).
Proof.
  intros HI Hs Ht Hk Hr. rewrite enqueue_start by done. apply transaction_ok.
  erewrite mbind_step by done. rewrite Hk, Hr. unfold mlift.
  by rewrite (job_from_row_ok _ _ _ _ (inv_job _ HI _ _ Hr) Hs Ht).
Qed.

Lemma enqueue_new fresh (task : TaskContract) key now d : Inv d → strip key = key → truthy_str key = true →
  idem d !! key = None → jobs d !! fresh = None → job_tasks d !! fresh = None →
  enqueue fresh (t_task_id task) (Some task) key 0 None now d =
  (Ok (candidate_job fresh (t_task_id task) key 0 default_retry_policy now),
   create_effect (enqueued_row fresh (t_task_id task) 0 default_retry_policy now) key (Some task) now d).
Proof.
  intros HI Hs Ht Hk Hj Htask. rewrite enqueue_start by done. apply transaction_ok.
  erewrite mbind_step by done. rewrite Hk.
  assert (Hno : key_of d fresh = None).
  { destruct (key_of d fresh) eqn:E; [|done]. apply key_of_Some in E as [t' E].
    destruct (ko_job _ _ _ (inv_key _ HI _ _ _ E)). congruence. }
  set (row := enqueued_row fresh (t_task_id task) 0 default_retry_policy now).
  assert (Hjobs : is_Some (jobs (set_jobs <[fresh := row]> d) !! fresh)) by (simpl; by rewrite lookup_insert_eq).
  rewrite (mbind_step _ _ _ tt (set_jobs <[fresh := row]> d)).
  2: { unfold insert_job. erewrite mbind_step by done. erewrite mbind_step; [done|].
       apply mguard_true. by apply bool_decide_eq_true_2. }
  rewrite (mbind_step _ _ _ tt (set_idem <[key := (fresh, now)]> (set_jobs <[fresh := row]> d))).
  2: { unfold insert_idem. erewrite mbind_step by done. erewrite mbind_step; [done|]. apply mguard_true.
       change (key_of (set_jobs _ d) fresh) with (key_of d fresh).
       by rewrite !bool_decide_eq_true_2. }
  erewrite mbind_step; [done|].
  unfold insert_task. erewrite mbind_step by done. erewrite mbind_step; [done|]. apply mguard_true.
  by rewrite !bool_decide_eq_true_2.
Qed.

(** ** Requests on stores that look the same *)

Definition sound (d : db) : Prop := Inv d ∧ namespaced d.

Lemma create_key_of d r key task now j : sound d → Inv (create_effect r key task now d) →
  idem d !! key = None → is_Some (owner d j) → key_of (create_effect r key task now d) j = key_of d j.
Proof.
  intros [HI Hn] HI' Hk [o Ho]. unfold owner in Ho.
  destruct (job_tasks d !! j) as [t|] eqn:Ht; [|done].
  destruct (ns_task _ Hn _ _ Ht) as (k & t' & Hk').
  rewrite (key_of_eq _ _ _ _ HI Hk'). apply (key_of_eq _ _ _ t' HI'). unfold create_effect. simpl.
  rewrite lookup_insert_ne; [done|congruence].
Qed.

Lemma create_same o r mid task now d1 d2 : sound d1 → sound d2 → same_for o d1 d2 →
  plain_origin o → origin task = o →
  jobs d1 !! jr_id r = None → jobs d2 !! jr_id r = None →
  idem d1 !! message_key o mid = None → idem d2 !! message_key o mid = None →
  Inv (create_effect r (message_key o mid) (Some task) now d1) →
  Inv (create_effect r (message_key o mid) (Some task) now d2) →
  same_for o (create_effect r (message_key o mid) (Some task) now d1)
    (create_effect r (message_key o mid) (Some task) now d2).
Proof.
  intros S1 S2 HS Hp Ho Hj1 Hj2 Hk1 Hk2 I1 I2. set (key := message_key o mid) in *.
  assert (Hown : ∀ d j, owner (create_effect r key (Some task) now d) j
    = if decide (jr_id r = j) then Some o else owner d j).
  { intros d j. unfold owner, create_effect. simpl. rewrite lookup_insert. by case_decide; simpl; rewrite ?Ho. }
  assert (Hout : ∀ d, Inv d → jobs d !! jr_id r = None → get_result (jr_id r) d = None).
  { intros d HI Hj. unfold get_result. destruct (outputs d !! jr_id r) eqn:E; [|done].
    destruct (inv_output _ HI _ _ E) as (? & ? & _). congruence. }
  split.
  - intros j. rewrite !Hown. case_decide; [done|]. apply HS.
  - intros j. rewrite Hown. case_decide as E; [intros _; subst j|intros Hj].
    + unfold create_effect at 1 2. simpl. rewrite !lookup_insert_eq.
      assert (Hkey : ∀ d, Inv (create_effect r key (Some task) now d) →
        key_of (create_effect r key (Some task) now d) (jr_id r) = Some key).
      { intros d HI. apply (key_of_eq _ _ _ now HI). apply lookup_insert_eq. }
      rewrite !Hkey by done. split_and!; [done..|]. change (get_result (jr_id r) d1 = get_result (jr_id r) d2).
      rewrite !Hout; try done; [apply S2|apply S1].
    + destruct (sf_job _ _ _ HS _ Hj) as (Ej & Ek & Er).
      assert (is_Some (owner d1 j)) by (by eexists).
      assert (is_Some (owner d2 j)) by (eexists; by apply (proj1 (sf_own _ _ _ HS j))).
      rewrite !create_key_of by done.
      unfold create_effect. simpl. rewrite !lookup_insert_ne by done. by split_and!.
  - intros m. unfold create_effect. simpl. rewrite !lookup_insert. case_decide; [done|]. apply HS.
Qed.

Lemma cancel_same o j r now d1 d2 : same_for o d1 d2 → same_for o (cancel_effect j r now d1) (cancel_effect j r now d2).
Proof.
  intros [H1 H2 H3]. split; [exact H1| |exact H3]. intros i Hi. destruct (H2 _ Hi) as (Ej & Ek & Er).
  split_and!; [|exact Ek|exact Er]. unfold cancel_effect, settle, add_history. simpl.
  rewrite !lookup_insert. by case_decide.
Qed.

(** Two runs end alike: the same answer, stores the caller cannot tell apart. *)
Definition alike {A} (o : string) (p1 p2 : result A * db) : Prop := p1.1 = p2.1 ∧ same_for o p1.2 p2.2.

Lemma alike_bind {A B} o (m : M db A) (k : A → M db B) d1 d2 : alike o (m d1) (m d2) →
  (∀ a d1' d2', m d1 = (Ok a, d1') → m d2 = (Ok a, d2') → same_for o d1' d2' → alike o (k a d1') (k a d2')) →
  alike o ((m ≫= k) d1) ((m ≫= k) d2).
Proof.
  intros [Hx Hd] Hk. unfold mbind, M_bind.
  destruct (m d1) as [[a|e] d1'] eqn:E1, (m d2) as [[b|e'] d2'] eqn:E2; simpl in *; simplify_eq;
    [by apply Hk|by split].
Qed.

Lemma alike_lift {A B} o (r : result A) (k : A → M db B) d1 d2 : same_for o d1 d2 →
  (∀ a, r = Ok a → alike o (k a d1) (k a d2)) → alike o ((mlift r ≫= k) d1) ((mlift r ≫= k) d2).
Proof. intros Hs Hk. unfold mbind, M_bind, mlift. destruct r; [by apply Hk|by split]. Qed.

Lemma alike_pure {A} o (r : result A) d1 d2 : same_for o d1 d2 → alike o (r, d1) (r, d2).
Proof. by split. Qed.

Lemma alike_read {A B} o (f : db → result A) (k : A → M db B) d1 d2 : f d1 = f d2 → same_for o d1 d2 →
  (∀ a, f d2 = Ok a → alike o (k a d1) (k a d2)) → alike o ((mread f ≫= k) d1) ((mread f ≫= k) d2).
Proof. intros E Hs Hk. unfold mbind, M_bind, mread. rewrite E. destruct (f d2); [by apply Hk|by split]. Qed.

Section Alike.
Context (py_str : json → string) (json_loads : string → result json) (version : string) (reg : registry).
Context (u : draws) (c : CallerConfig) (base : string).
Context (Hplain : plain_origin (c_origin c)).
Local Abbreviation o := (c_origin c).

(** The job's identifier is drawn new in either store. *)
Definition unused (d : db) : Prop := jobs d !! new_job u = None.

Lemma task_view_same job d1 d2 : get_result (job_id job) d1 = get_result (job_id job) d2 →
  task_view py_str u job d1 = task_view py_str u job d2.
Proof. unfold task_view. by intros ->. Qed.

Lemma fresh_view job d1 d2 : status job = queued → task_view py_str u job d1 = task_view py_str u job d2.
Proof. unfold task_view. by intros ->. Qed.

Lemma submit_same (task : TaskContract) mid d1 d2 : strip mid = mid → truthy_str mid = true →
  origin task = o → sound d1 → sound d2 → unused d1 → unused d2 → same_for o d1 d2 →
  let m := job ← enqueue (new_job u) (t_task_id task) (Some task) (message_key o mid) 0 None (clock u);
           view ← mread (task_view py_str u job); mret (Some (job_id job), view) in
  alike o (m d1) (m d2).
Proof.
  intros Hs Ht Ho [I1 N1] [I2 N2] U1 U2 HS. cbv zeta.
  assert (Hkey : strip (message_key o mid) = message_key o mid) by (by apply message_key_stripped).
  assert (Htr : truthy_str (message_key o mid) = true) by done.
  assert (Hend : ∀ job d1' d2', same_for o d1' d2' →
    task_view py_str u job d1' = task_view py_str u job d2' →
    alike o ((view ← mread (task_view py_str u job); mret (Some (job_id job), view)) d1')
      ((view ← mread (task_view py_str u job); mret (Some (job_id job), view)) d2')).
  { intros job d1' d2' HS' E. unfold mbind, M_bind, mread, mret, M_ret. rewrite E.
    destruct (task_view py_str u job d2'); by apply alike_pure. }
  pose proof (sf_key _ _ _ HS mid) as Ek. unfold unused in *.
  destruct (idem d1 !! message_key o mid) as [[j t1]|] eqn:K1,
    (idem d2 !! message_key o mid) as [[j2 t2]|] eqn:K2; simplify_eq/=.
  - pose proof (ns_key _ N1 _ _ _ _ Hplain K1) as Hown.
    destruct (ko_job _ _ _ (inv_key _ I1 _ _ _ K1)) as [r Hr].
    destruct (sf_job _ _ _ HS _ Hown) as (Ej & _ & Er).
    pose proof Hr as Hr2. rewrite Ej in Hr2.
    rewrite (mbind_step _ _ d1 _ d1) by (by eapply (enqueue_known _ _ _ _ d1)).
    rewrite (mbind_step _ _ d2 _ d2) by (by eapply (enqueue_known _ _ _ _ d2)).
    apply Hend; [done|]. apply task_view_same. simpl. by rewrite (jo_id _ _ _ (inv_job _ I1 _ _ Hr)).
  - assert (T : ∀ d, Inv d → namespaced d → jobs d !! new_job u = None → job_tasks d !! new_job u = None).
    { intros d HI HN HU. destruct (job_tasks d !! new_job u) eqn:E; [|done].
      destruct (ns_job _ _ _ HI HN E). congruence. }
    set (r := enqueued_row (new_job u) (t_task_id task) 0 default_retry_policy (clock u)).
    assert (Hci : ∀ d, Inv d → jobs d !! new_job u = None → idem d !! message_key o mid = None →
      Inv (create_effect r (message_key o mid) (Some task) (clock u) d)).
    { intros d HI HJ HK. apply create_effect_inv; try done; simpl; unfold policy_ok; simpl; done. }
    rewrite (mbind_step _ _ d1 _ _ (enqueue_new _ task _ (clock u) d1 I1 Hkey Htr K1 U1 (T _ I1 N1 U1))).
    rewrite (mbind_step _ _ d2 _ _ (enqueue_new _ task _ (clock u) d2 I2 Hkey Htr K2 U2 (T _ I2 N2 U2))).
    apply Hend; [|by apply fresh_view].
    by apply create_same; auto.
Qed.

Lemma send_same params d1 d2 : sound d1 → sound d2 → unused d1 → unused d2 → same_for o d1 d2 →
  alike o (send py_str u params c d1) (send py_str u params c d2).
Proof.
  intros S1 S2 U1 U2 HS. unfold send. apply alike_lift; [done|].
  intros [[[skill payload] q] mid] Hm. apply read_message_mid in Hm as [Hs Ht].
  destruct (negb (allows_skill c skill)); [by apply alike_pure|].
  apply alike_lift; [done|]. intros task Htask. apply task_for_ok in Htask as [Ho _].
  apply submit_same; try done. rewrite Ho. apply Hplain.
Qed.

Lemma owned_job_eq params d : sound d → owned_job params c d =
  match uuid_text (obj_field "id" params) ≫= parse_uuid with
  | None => Raise task_not_found
  | Some j => if bool_decide (owner d j = Some o) then of_option task_not_found (found_job d j)
              else Raise task_not_found
  end.
Proof.
  intros [HI HN]. unfold owned_job. destruct (_ ≫= parse_uuid) as [j|]; [|done].
  rewrite (get_job_total _ HI). cbn [mbind rbind]. unfold get_task, owner.
  destruct (found_job d j) as [job|]; destruct (job_tasks d !! j) as [t|]; simpl;
    try (by case_bool_decide); try done.
  destruct (String.eqb_spec (origin t) o) as [->|]; [by rewrite bool_decide_eq_true_2|].
  rewrite bool_decide_eq_false_2; [done|]. by intros [= ?].
Qed.

Lemma owned_job_same params d1 d2 : sound d1 → sound d2 → same_for o d1 d2 →
  owned_job params c d1 = owned_job params c d2.
Proof.
  intros S1 S2 HS. rewrite !owned_job_eq by done. destruct (_ ≫= parse_uuid) as [j|]; [|done].
  rewrite (bool_decide_ext _ _ (sf_own _ _ _ HS j)). case_bool_decide as Ho; [|done].
  apply (sf_own _ _ _ HS) in Ho. destruct (sf_job _ _ _ HS _ Ho) as (Ej & Ek & _).
  unfold found_job. by rewrite Ej, Ek.
Qed.

Lemma get_task_view_same params d1 d2 : sound d1 → sound d2 → same_for o d1 d2 →
  get_task_view py_str u params c d1 = get_task_view py_str u params c d2.
Proof.
  intros S1 S2 HS. unfold get_task_view. rewrite (owned_job_same _ _ _ S1 S2 HS).
  destruct (owned_job params c d2) as [job|] eqn:E; [|done]. cbn [mbind rbind].
  apply task_view_same. apply owned_job_ok in E as (r & k & _ & _ & _ & Ho); [|apply S2].
  apply (sf_own _ _ _ HS) in Ho. by destruct (sf_job _ _ _ HS _ Ho) as (_ & _ & ->).
Qed.

Lemma cancel_task_same params d1 d2 : sound d1 → sound d2 → same_for o d1 d2 →
  alike o (cancel_task py_str u params c d1) (cancel_task py_str u params c d2).
Proof.
  intros S1 S2 HS. unfold cancel_task. apply alike_read; [by apply owned_job_same|done|].
  intros job E. apply owned_job_ok in E as (r & k & -> & Hr & Hk & Ho); [|apply S2].
  pose proof (proj2 (sf_own _ _ _ HS _) Ho) as Ho1.
  destruct (sf_job _ _ _ HS _ Ho1) as (Ej & Ek & Er).
  set (j := job_id (job_of k r)) in *.
  assert (Hview : ∀ job d1' d2', job_id job = j → get_result j d1' = get_result j d2' → same_for o d1' d2' →
    alike o (mread (task_view py_str u job) d1') (mread (task_view py_str u job) d2')).
  { intros job d1' d2' Hj Hg HS'. unfold mread. rewrite (task_view_same job d1' d2') by (by rewrite Hj).
    by apply alike_pure. }
  unfold cancel_or_refuse, mbind, M_bind.
  assert (Hr1 : jobs d1 !! j = Some r) by congruence.
  assert (Hk1 : key_of d1 j = Some k) by congruence.
  rewrite (cancel_outcome j (clock u) d1 r k (proj1 S1) Hr1 Hk1),
    (cancel_outcome j (clock u) d2 r k (proj1 S2) Hr Hk).
  case_bool_decide; [by apply Hview|]. case_bool_decide; [|by apply alike_pure].
  apply Hview; [done|exact Er|by apply cancel_same].
Qed.

Lemma alike_mret {A} (x : A) d1 d2 : same_for o d1 d2 → alike o (mret (M := M db) x d1) (mret (M := M db) x d2).
Proof. apply alike_pure. Qed.

Lemma dispatch_same method params d1 d2 : sound d1 → sound d2 → unused d1 → unused d2 → same_for o d1 d2 →
  alike o (dispatch py_str version reg u method params c base d1)
    (dispatch py_str version reg u method params c base d2).
Proof.
  intros S1 S2 U1 U2 HS. unfold dispatch. destruct (String.eqb method "SendMessage").
  { apply alike_bind; [by apply send_same|]. intros. by apply alike_mret. }
  destruct (String.eqb method "GetTask").
  { apply alike_read; [by apply get_task_view_same|done|]. intros. by apply alike_mret. }
  destruct (String.eqb method "CancelTask").
  { apply alike_bind; [by apply cancel_task_same|]. intros. by apply alike_mret. }
  destruct (String.eqb method "GetExtendedAgentCard"); by apply alike_pure.
Qed.

Lemma answer_same id method params d1 d2 : sound d1 → sound d2 → unused d1 → unused d2 → same_for o d1 d2 →
  alike o (answer py_str version reg u id method params c base d1)
    (answer py_str version reg u id method params c base d2).
Proof.
  intros S1 S2 U1 U2 HS. unfold answer. destruct (String.eqb method "SendStreamingMessage").
  - apply alike_bind; [by apply send_same|]. intros. by apply alike_mret.
  - apply alike_bind; [by apply dispatch_same|]. intros. by apply alike_mret.
Qed.

Lemma catching_same id (m : M db response) d1 d2 : alike o (m d1) (m d2) →
  alike o (catching id m d1) (catching id m d2).
Proof.
  intros [Hx Hs]. unfold catching. destruct (m d1) as [r1 d1'], (m d2) as [r2 d2']. simpl in *. subst.
  destruct r2; by split.
Qed.

Lemma a2a_same cfg req d1 d2 : authenticate cfg (authorization req) = Some c →
  sound d1 → sound d2 → unused d1 → unused d2 → same_for o d1 d2 →
  alike o (a2a py_str json_loads version reg cfg u base req d1)
    (a2a py_str json_loads version reg cfg u base req d2).
Proof.
  intros Ha S1 S2 U1 U2 HS. unfold a2a. rewrite Ha. apply alike_lift; [done|]. intros n _.
  destruct (_ <? or_else n 0); [by apply alike_pure|].
  destruct (MAX_BODY_BYTES <? _); [by apply alike_pure|].
  apply alike_lift; [done|]. intros p _. unfold serve.
  destruct p as [id e|id method params]; [by apply alike_pure|].
  case_bool_decide; [|by apply alike_pure]. by apply catching_same, answer_same.
Qed.
End Alike.

(** C22: a remote caller learns nothing of other callers' jobs. Take two stores
    that agree on the jobs of the caller and on where its own message ids lead, and
    differ in anything else: the same request gets the same answer on both, and
    leaves stores that still agree. In particular the job of another caller is
    answered exactly as a job that does not exist. *)
Theorem callers_cannot_see_others cfg c py_str json_loads version reg u base req d1 d2 :
  plain_callers cfg → hosted cfg d1 → hosted cfg d2 →
  authenticate cfg (authorization req) = Some c →
  same_for (c_origin c) d1 d2 → jobs d1 !! new_job u = None → jobs d2 !! new_job u = None →
  (a2a py_str json_loads version reg cfg u base req d1).1
    = (a2a py_str json_loads version reg cfg u base req d2).1
  ∧ same_for (c_origin c) (a2a py_str json_loads version reg cfg u base req d1).2
      (a2a py_str json_loads version reg cfg u base req d2).2.
Proof.
  intros Hc H1 H2 Ha HS U1 U2. pose proof (proj1 (authenticate_ok _ _ _ Ha)) as Hin.
  apply (a2a_same _ _ _ _ _ c); try done; [|by apply (hosted_ok cfg)..].
  exact (proj1 (Forall_forall _ _) Hc _ Hin).
Qed.

(** ** A demonstration *)

Module A2ADemo.
Definition cfg : A2AConfig :=
  mk_A2AConfig [mk_Caller "red" "a2a:ci" None; mk_Caller "blue" "a2a:ops" (Some ["docs.*"])] [].

Definition message (mid skill : string) : json :=
  JObj [("messageId", JStr mid); ("role", JStr "ROLE_USER");
        ("parts", JArr [JObj [("data", JObj [("skill", JStr skill); ("payload", JObj [])])]])].

Definition rpc (method : string) (params : jdict) : json :=
  JObj [("jsonrpc", JStr "2.0"); ("id", JInt 1); ("method", JStr method); ("params", JObj params)].

(** A reader that knows three bodies. *)
Definition loads (s : string) : result json :=
  if String.eqb s "send" then Ok (rpc "SendMessage" [("message", message "m1" "docs.write")])
  else if String.eqb s "get" then Ok (rpc "GetTask" [("id", JStr (uuid_str 900))])
  else if String.eqb s "cancel" then Ok (rpc "CancelTask" [("id", JStr (uuid_str 900))])
  else Raise ValueError.

Definition ask (token body : string) : http_request :=
  mk_http ("Bearer " +:+ token) "" (Some "1.0") body.

Definition drawn (n : N) : draws :=
  mk_draws n (n + 100) (n + 200) (n + 300) 10 (mk_dt 2026 1 2 3 4 5 0).

Definition py_str (v : json) : string := "?".

Definition ask_at (d : db) (n : N) (token body : string) : result response * db :=
  a2a py_str loads "1.0" (mk_registry [] []) cfg (drawn n) "http://h" (ask token body) d.

(** The first caller has submitted a task. *)
Definition submitted : db := (ask_at empty_db 800 "red" "send").2.

Lemma submitted_hosted : hosted cfg submitted.
Proof. apply hosted_request, hosted_empty. Qed.

Lemma cfg_plain : plain_callers cfg.
Proof.
  repeat constructor; [exists "ci"|exists "ops"]; (split; [done|]); apply (bool_decide_unpack _); vm_compute; exact I.
Qed.

Example submitted_for_ci : owner submitted 900 = Some "a2a:ci".
Proof. vm_compute. reflexivity. Qed.

Lemma submitted_tasks : job_tasks submitted =
  {[900%N := mk_Task 800 "a2a:ci" "docs.write" [] (65 # 100) None None None None 10]}.
Proof. vm_compute. reflexivity. Qed.

Lemma submitted_keys : idem submitted = {[message_key "a2a:ci" "m1" := (900%N, 10)]}.
Proof. vm_compute. reflexivity. Qed.

(** To the second caller that store is the empty one. *)
Lemma submitted_like_empty : same_for "a2a:ops" submitted empty_db.
Proof.
  assert (Hno : ∀ j, owner submitted j ≠ Some "a2a:ops").
  { intros j. unfold owner. rewrite submitted_tasks. destruct (decide (j = 900%N)) as [->|].
    - rewrite lookup_singleton_eq. by intros [=].
    - by rewrite lookup_singleton_ne. }
  split.
  - intros j. split; [intros H; by destruct (Hno j)|]. unfold owner. simpl. by rewrite lookup_empty.
  - intros j H. by destruct (Hno j).
  - intros m. rewrite submitted_keys. rewrite lookup_singleton_ne; [done|].
    intros E. assert (P : ∀ c, c ∈ callers cfg → plain_origin (c_origin c))
      by (apply Forall_forall, cfg_plain).
    apply message_key_inj in E as [E _]; [discriminate E|..].
    + exact (P (mk_Caller "red" "a2a:ci" None) ltac:(by left)).
    + exact (P (mk_Caller "blue" "a2a:ops" (Some ["docs.*"])) ltac:(by right; left)).
Qed.
End A2ADemo.
Import A2ADemo.

Lemma callers_cannot_touch_others_witness :
  jobs (ask_at submitted 810 "blue" "cancel").2 !! 900%N = jobs submitted !! 900%N.
Proof.
  destruct (ask_at submitted 810 "blue" "cancel") as [x d'] eqn:E. simpl.
  destruct (callers_cannot_touch_others _ _ _ _ _ _ _ _ _ _ _ cfg_plain submitted_hosted E)
    as [->|(c & scheme & Hin & Hs & Hauth & Hkeep & _)]; [reflexivity|].
  refine (proj1 (Hkeep 900%N _ _)).
  - exact (bool_decide_eq_true_1 _ (eq_refl : bool_decide (is_Some (jobs submitted !! 900%N)) = true)).
  - rewrite submitted_for_ci. intros [= Ho].
    apply elem_of_cons in Hin as [->|[->|Hin]%elem_of_cons]; [|discriminate Ho|by apply elem_of_nil in Hin].
    do 12 (destruct scheme as [|? scheme]; [discriminate Hauth|]). discriminate Hauth.
Defined.

Lemma callers_cannot_see_others_witness :
  (ask_at submitted 810 "blue" "get").1 = (ask_at empty_db 810 "blue" "get").1.
Proof.
  refine (proj1 (callers_cannot_see_others cfg (mk_Caller "blue" "a2a:ops" (Some ["docs.*"]))
    py_str loads "1.0" (mk_registry [] []) (drawn 810) "http://h" (ask "blue" "get") submitted empty_db
    cfg_plain submitted_hosted (hosted_empty _) eq_refl submitted_like_empty eq_refl eq_refl)).
Defined.

(** Why origins must not contain a second colon: "a2a:x" with message "y:m" and
    "a2a:x:y" with message "m" have the same key, so the second caller is handed the
    view of the first one's job. *)
Module Collision.
Definition cfg : A2AConfig := mk_A2AConfig [mk_Caller "red" "a2a:x" None; mk_Caller "blue" "a2a:x:y" None] [].

Definition loads (s : string) : result json :=
  Ok (A2ADemo.rpc "SendMessage" [("message", A2ADemo.message s "docs.write")]).

Definition ask_at (d : db) (n : N) (token body : string) : result response * db :=
  a2a py_str loads "1.0" (mk_registry [] []) cfg (drawn n) "http://h" (ask token body) d.

Example a_colon_in_an_origin_crosses_callers :
  let d := (ask_at empty_db 800 "red" "y:m").2 in
  owner d 900 = Some "a2a:x"
  ∧ match (ask_at d 810 "blue" "m").1 with
    | Ok (JSONResponse 200 (JObj kvs)) =>
        match obj_field "result" kvs with
        | JObj r => match obj_field "task" r with
                    | JObj t => obj_field "id" t = JStr (uuid_str 900)
                    | _ => False end
        | _ => False end
    | _ => False end.
Proof. vm_compute. split; reflexivity. Qed.
End Collision.
