(* ===== verification/A2AStream.v ===== *)
(** Streamed replies of the A2A endpoint ([events] of core/a2a/server.py): what a
    stream tells, and that every stream ends. *)

From S2P Require Import Prelude.
From S2P Require Import PyStr.
From S2P Require Import PyTime.
From S2P Require Import Json.
From S2P Require Import Contracts.
From S2P Require Import JobRepository.
From S2P Require Import A2A.
From S2P Require Import A2AServer.
From S2P Require Import JobTheorems.
From S2P Require Import A2AIsolation.
From Stdlib Require Import Sorted QArith.
Close Scope Q_scope.

Section Stream.
Context (py_str : json → string).

(** The view a poll of job [j] gives. *)
Definition polled (j : uuid) (p : poll) (v : jdict) : Prop :=
  ∃ job, get_job j (seen p) = Ok (Some job) ∧ task_view py_str (seen_draws p) job (seen p) = Ok v.

(** [b] may be told right after [a]: its state is another one, and [a] was not final. *)
Definition tells (a b : json) : Prop := a ≠ b ∧ is_stop a = false.

Lemma last_step {A} (a x : A) l : List.last (a :: l) x = List.last l a.
Proof. revert a x. induction l as [|b l IH]; intros a x; [done|]. transitivity (List.last (b :: l) x); [done|]. by rewrite !IH. Qed.

(** A poll's view is unique, and the last poll of a longer list is the last of its tail. *)
Lemma polled_last j p polls view s : polled j p view → (polls = [] → s = state_of view) →
  (∀ q v, List.last (map Some polls) None = Some q → polled j q v → s = state_of v) →
  ∀ q v, List.last (map Some (p :: polls)) None = Some q → polled j q v → s = state_of v.
Proof.
  intros (job & Hg & Hv) Hnil Hrest q v Hq Hqv. destruct polls as [|p' polls'].
  - simpl in Hq. injection Hq as <-. destruct Hqv as (job' & Hg' & Hv').
    assert (v = view) as -> by congruence. by apply Hnil.
  - eapply Hrest; [exact Hq|done].
Qed.

Lemma told_nil j vs : Forall (λ v, ∃ p, p ∈ [] ∧ polled j p v) vs → vs = [].
Proof.
  destruct vs as [|v vs]; [done|]. intros H. apply Forall_cons_1 in H as [(q & Hq & _) _].
  by apply elem_of_nil in Hq.
Qed.

Lemma told_cons j p polls vs : Forall (λ v, ∃ q, q ∈ polls ∧ polled j q v) vs →
  Forall (λ v, ∃ q, q ∈ p :: polls ∧ polled j q v) vs.
Proof. apply List.Forall_impl. intros v (q & Hq & ?). exists q. split; [by right|done]. Qed.

Lemma follow_told j polls : ∀ st frames, follow py_str j st polls = Ok frames →
  ∃ vs, frames = List.concat (map frames_for vs)
    ∧ Forall (λ v, ∃ p, p ∈ polls ∧ polled j p v) vs
    ∧ LocallySorted tells (st :: map state_of vs)
    ∧ (Forall (λ p, expired p = false ∧ ∃ v, polled j p v) polls →
         is_stop (List.last (map state_of vs) st) = true
         ∨ ∀ p v, List.last (map Some polls) None = Some p → polled j p v →
             List.last (map state_of vs) st = state_of v).
Proof.
  induction polls as [|p polls IH]; intros st frames H; simpl in H.
  { simplify_eq. exists []. split_and!; [done..|constructor|]. intros _. by right. }
  destruct (is_stop st) eqn:Hst; simpl in H.
  { simplify_eq. exists []. split_and!; [done..|constructor|]. intros _. by left. }
  destruct (expired p) eqn:Hex.
  { simplify_eq. exists []. split_and!; [done..|constructor|].
    intros Hall. apply Forall_cons_1 in Hall as [[? _] _]. congruence. }
  apply rbind_ok in H as (o & Hg & H). destruct o as [job|].
  2: { simplify_eq. exists []. split_and!; [done..|constructor|].
       intros Hall. apply Forall_cons_1 in Hall as [(_ & v & job & Hg' & _) _]. congruence. }
  apply rbind_ok in H as (view & Hv & H).
  assert (Hp : polled j p view) by (by exists job).
  case_bool_decide as Hsame.
  - apply IH in H as (vs & -> & Hf & Hs & Hend). exists vs.
    split_and!; [done|by apply told_cons|done|].
    intros Hall. apply Forall_cons_1 in Hall as [_ Hall]. destruct (Hend Hall) as [|Hr]; [by left|].
    right. apply (polled_last _ _ _ _ _ Hp); [|exact Hr]. intros ->. by rewrite (told_nil _ _ Hf).
  - apply rbind_ok in H as (rest & Hr & H). injection H as <-.
    apply IH in Hr as (vs & -> & Hf & Hs & Hend). exists (view :: vs). split_and!; [done| | |].
    + constructor; [exists p; split; [by left|done]|by apply told_cons].
    + simpl. constructor; [done|]. split; [congruence|done].
    + intros Hall. apply Forall_cons_1 in Hall as [_ Hall]. cbn [map]. rewrite last_step.
      destruct (Hend Hall) as [|Hr]; [by left|]. right. apply (polled_last _ _ _ _ _ Hp); [|exact Hr].
      intros ->. by rewrite (told_nil _ _ Hf).
Qed.

(** How a view is told: a completed task with its one artifact first, anything else
    by its status alone. *)
Definition told_as (v : jdict) : Prop :=
  (state_of v ≠ JStr STATE_COMPLETED ∧ frames_for v = [status_frame v])
  ∨ (state_of v = JStr STATE_COMPLETED ∧
     ∃ res, is_str (obj_field "status" res) "complete" = true
       ∧ frames_for v = [artifact_frame v (artifact res); status_frame v]).

Lemma state_of_task st mid tid state ctx text arts : state_of (make_task st mid tid state ctx text arts) = JStr state.
Proof. unfold state_of, make_task. destruct text as [x|], arts; [destruct (truthy_str x)..| |]; done. Qed.

Lemma artifacts_of_task st mid tid state ctx text arts : artifacts_of (make_task st mid tid state ctx text arts) = arts.
Proof. unfold artifacts_of, make_task. destruct text as [x|], arts; [destruct (truthy_str x)..| |]; done. Qed.

Lemma map_job_artifacts s res state text arts : map_job py_str s res = Ok (state, text, arts) →
  state ≠ STATE_COMPLETED ∨
  (state = STATE_COMPLETED ∧ ∃ r, is_str (obj_field "status" r) "complete" = true ∧ arts = [artifact r]).
Proof.
  intros H. destruct s; simpl in H; simplify_eq; try (left; done).
  apply rbind_ok in H as (r & _ & H). unfold map_completed in H. cbv zeta in H.
  destruct (is_str (obj_field "status" r) "complete") eqn:E; [simplify_eq; right; split; [done|by exists r]|].
  destruct (is_str _ "escalated"); [simplify_eq; by left|].
  apply rbind_ok in H as (b & _ & H). destruct b; simplify_eq; by left.
Qed.

Lemma polled_told j p v : polled j p v → told_as v.
Proof.
  intros (job & _ & Hv). unfold task_view in Hv. apply rbind_ok in Hv as ([[state text] arts] & Hm & Hv).
  injection Hv as <-. unfold told_as, frames_for. rewrite state_of_task, artifacts_of_task.
  apply map_job_artifacts in Hm as [Hs|(-> & r & Hr & ->)].
  - left. split; [congruence|]. simpl. destruct (String.eqb_spec state STATE_COMPLETED); done.
  - right. split; [done|]. by exists r.
Qed.

(** A stream tells each change once. It begins with the task as the request
    left it; every later announcement is what some poll saw; two announced states in
    a row differ; nothing is announced after a final state; a completed task comes
    with its artifact, delivered before the status; and if no poll came too late or
    missed the job, the last announced state is final or is what the last poll saw. *)
Theorem streams_tell_each_change_once j first polls frames :
  events py_str (Some j) first polls = Ok frames →
  ∃ vs, frames = JObj [("task", JObj first)] :: List.concat (map frames_for vs)
    ∧ Forall (λ v, told_as v ∧ ∃ p, p ∈ polls ∧ polled j p v) vs
    ∧ LocallySorted tells (state_of first :: map state_of vs)
    ∧ (Forall (λ p, expired p = false ∧ ∃ v, polled j p v) polls →
         is_stop (List.last (map state_of vs) (state_of first)) = true
         ∨ ∀ p v, List.last (map Some polls) None = Some p → polled j p v →
             List.last (map state_of vs) (state_of first) = state_of v).
Proof.
  simpl. intros H. apply rbind_ok in H as (rest & H & Hf). injection Hf as <-.
  apply follow_told in H as (vs & -> & Hf & Hs & Hend). exists vs. split_and!; try done.
  eapply List.Forall_impl; [|exact Hf]. intros v (p & Hp & Hv). split; [by eapply polled_told|by exists p].
Qed.

(** ** Every stream ends *)

(** The turns of a loop whose clock reads [t] at the first test and advances by at
    least [pause] from one test to the next. *)
Inductive paced (pause deadline : Q) : Q → list poll → Prop :=
  | paced_nil t : paced pause deadline t []
  | paced_cons t t' p ps : expired p = Qle_bool deadline t → (t + pause <= t')%Q →
      paced pause deadline t' ps → paced pause deadline t (p :: ps).

Lemma follow_ends pause deadline ps : ∀ t n j st more, paced pause deadline t ps →
  (deadline <= t + pause * inject_Z (Z.of_nat n))%Q → (n < length ps)%nat →
  follow py_str j st (ps ++ more) = follow py_str j st ps.
Proof.
  induction ps as [|p ps IH]; intros t n j st more Hp Hn Hl; simpl in Hl; [lia|].
  inversion Hp as [|? t' ? ? Hex Hstep Hrest]; subst. simpl.
  destruct (is_stop st); [done|]. simpl. destruct (expired p) eqn:E; [done|].
  destruct n as [|n].
  { symmetry in Hex. assert (Hle : Qle_bool deadline t = true); [|congruence].
    apply Qle_bool_iff. eapply Qle_trans; [exact Hn|]. simpl. unfold inject_Z. ring_simplify. apply Qle_refl. }
  assert (Hn' : (deadline <= t' + pause * inject_Z (Z.of_nat n))%Q).
  { eapply Qle_trans; [exact Hn|].
    assert (Eq : (t + pause * inject_Z (Z.of_nat (S n)) == t + pause + pause * inject_Z (Z.of_nat n))%Q).
    { rewrite Nat2Z.inj_succ, <-Z.add_1_r, inject_Z_plus. ring. }
    rewrite Eq. apply Qplus_le_compat; [done|apply Qle_refl]. }
  destruct (get_job j (seen p)) as [[job|]|]; [|done..]. cbn [mbind rbind].
  destruct (task_view _ _ _ _) as [view|]; [|done]. cbn [mbind rbind].
  rewrite !(IH t' n) by (done || lia). done.
Qed.

(** Every stream ends. If the clock advances at least [stream_poll_s] from
    one turn to the next, a number of turns that covers [stream_timeout_s] is enough:
    whatever further polls would see, the frames are those of the first turns. *)
Theorem streams_end pause timeout t0 t n j first ps more :
  (t0 <= t)%Q → paced pause (t0 + timeout) t ps →
  (timeout <= pause * inject_Z (Z.of_nat n))%Q → (n < length ps)%nat →
  events py_str (Some j) first (ps ++ more) = events py_str (Some j) first ps.
Proof.
  intros Ht Hp Hn Hl. simpl. rewrite (follow_ends pause (t0 + timeout) ps t n); [done|done| |done].
  apply Qplus_le_compat; done.
Qed.
End Stream.

Import A2ADemo.

Definition demo_view : jdict :=
  make_task (mk_dt 2026 1 2 3 4 5 0) 1 (uuid_str 900) STATE_SUBMITTED None None [].
Definition demo_poll (d : db) : poll := mk_poll false d (drawn 700).
Definition started : db := run (Claim 1000 1001 "w1" 30) 20 submitted.
Definition served : db :=
  run (Complete 900 1001 "out" (Some [("status", JStr "complete"); ("result", JInt 4)])) 30 started.
Definition demo_polls : list poll := [demo_poll submitted; demo_poll started; demo_poll started; demo_poll served].

(** Four polls, two changes, three frames after the first. *)
Example demo_stream_length :
  match events py_str (Some 900%N) demo_view demo_polls with Ok l => length l = 4 | Raise _ => False end.
Proof. vm_compute. reflexivity. Qed.

Lemma streams_tell_each_change_once_witness :
  ∃ vs, LocallySorted tells (state_of demo_view :: map state_of vs)
    ∧ Forall (λ v, told_as v ∧ ∃ p, p ∈ demo_polls ∧ polled py_str 900 p v) vs.
Proof.
  destruct (events py_str (Some 900%N) demo_view demo_polls) as [frames|e] eqn:E; [|vm_compute in E; discriminate E].
  destruct (streams_tell_each_change_once py_str 900 demo_view demo_polls frames E) as (vs & _ & Hf & Hs & _).
  exact (ex_intro _ vs (conj Hs Hf)).
Defined.

(** The defaults, half a second and five minutes, allow 601 turns. *)
Definition late : poll := mk_poll true submitted (drawn 700).

Lemma streams_end_witness :
  events py_str (Some 900%N) demo_view ([demo_poll submitted; demo_poll submitted; late] ++ [demo_poll served])
  = events py_str (Some 900%N) demo_view [demo_poll submitted; demo_poll submitted; late].
Proof.
  refine (streams_end py_str (1 # 2) 1 0 0 2 900 demo_view
    [demo_poll submitted; demo_poll submitted; late] [demo_poll served] _ _ _ _).
  - discriminate.
  - apply (paced_cons _ _ _ (1 # 2)); [reflexivity|discriminate|].
    apply (paced_cons _ _ _ 1); [reflexivity|discriminate|].
    apply (paced_cons _ _ _ 2); [reflexivity|discriminate|]. apply paced_nil.
  - discriminate.
  - simpl. lia.
Defined.
