(* ===== verification/Security.v ===== *)
(** core/security: the hash-chained audit log (audit.py), review evidence packages
    (evidence.py) and the command and environment rules of execution_policy.py.

    SHA-256 and the rendering of floats are arguments. As elsewhere, persisted JSON
    text stands as its canonical tree; its digest is that of the text [dumps] writes. *)

From S2P Require Import Prelude.
From S2P Require Import PyStr.
From S2P Require Import Json.
Open Scope Z_scope.

Section Digest.
Context (sha256 : string → string) (float_repr : Q → string).

(** [hashlib.sha256(json.dumps(v, sort_keys=True, separators=(",", ":")).encode()).hexdigest()]. *)
Definition digest (v : json) : string := sha256 (dumps float_repr (canon v)).

Lemma digest_canon v : digest (canon v) = digest v.
Proof. unfold digest. by rewrite canon_idemp. Qed.

(** ** audit.py *)

Record audit_row := mk_audit {
  sequence : Z;
  event : jdict;
  event_hash : string;
  au_created : string }.

(** The row of the largest sequence number is the last one inserted. *)
Definition prior_hash (rows : list audit_row) : json :=
  match last rows with Some r => JStr (event_hash r) | None => JNull end.

Definition audit_event (actor action reason evidence_version : string) (extra : jdict) (prior : json) : jdict :=
  [("actor", JStr actor); ("action", JStr action); ("reason", JStr reason);
   ("evidence_version", JStr evidence_version); ("extra", JObj extra); ("prior_hash", prior)].

(** The tree json.loads reads back from the stored text of [d]. *)
Definition stored (d : jdict) : jdict := match canon (JObj d) with JObj d' => d' | _ => [] end.

(** [AuditLog.append]: event_hash is UNIQUE. *)
Definition append (actor action reason evidence_version : string) (extra : option jdict) (now : string) :
    M (list audit_row) audit_row :=
  rows ← mget;
  let e := audit_event actor action reason evidence_version (or_else extra []) (prior_hash rows) in
  let h := digest (JObj e) in
  mguard (negb (existsb (λ r, String.eqb (event_hash r) h) rows)) IntegrityError;;
  let row := mk_audit (Z.of_nat (length rows) + 1) (stored e) h now in
  mput (rows ++ [row]);;
  mret row.

(** One exported item. *)
Definition export_row (r : audit_row) : jdict :=
  [("sequence", JInt (sequence r)); ("event", JObj (event r)); ("event_hash", JStr (event_hash r));
   ("created_at", JStr (au_created r))].

(** [AuditLog.export]: in the order of the sequence numbers. *)
Definition export (rows : list audit_row) : list jdict :=
  map export_row (py_sorted (λ a b, sequence a <=? sequence b) rows).

(** The loop of [AuditLog.verify]; [prior] is None before the first item. *)
Fixpoint verify_from (prior : json) (items : list jdict) : result bool :=
  match items with
  | [] => Ok true
  | item :: items =>
      match obj_get "event" item with
      | None => Raise KeyError
      | Some (JObj e) =>
          if negb (bool_decide (obj_field "prior_hash" e = prior)) then Ok false
          else
            let h := JStr (digest (JObj e)) in
            if bool_decide (h = obj_field "event_hash" item) then verify_from h items else Ok false
      | Some _ => Raise AttributeError
      end
  end.

Definition verify (items : list jdict) : result bool := verify_from JNull items.

(** ** evidence.py *)

Record ReviewEvidencePackage := mk_evidence {
  ev_request : jdict;
  ev_resolved_payload : jdict;
  ev_base_sha : string;
  ev_diff_hash : string;
  ev_artifacts : list json;
  ev_validation : jdict;
  ev_confidence : jdict;
  ev_agent : string;
  ev_model : string;
  ev_prompt : string;
  ev_attempt_id : string }.

Definition evidence_body (p : ReviewEvidencePackage) : jdict :=
  [("request", JObj (ev_request p)); ("resolved_payload", JObj (ev_resolved_payload p));
   ("base_sha", JStr (ev_base_sha p)); ("diff_hash", JStr (ev_diff_hash p));
   ("artifacts", JArr (ev_artifacts p)); ("validation", JObj (ev_validation p));
   ("confidence", JObj (ev_confidence p)); ("agent", JStr (ev_agent p)); ("model", JStr (ev_model p));
   ("prompt", JStr (ev_prompt p)); ("attempt_id", JStr (ev_attempt_id p))].

(** [as_dict]. *)
Definition as_dict (p : ReviewEvidencePackage) : jdict :=
  obj_set "package_hash" (JStr (digest (JObj (evidence_body p)))) (evidence_body p).

(** [ReviewEvidencePackage.verify]. *)
Definition verify_package (package : jdict) : bool :=
  let supplied := obj_field "package_hash" package in
  let body := List.filter (λ kv, negb (String.eqb kv.1 "package_hash")) package in
  truthy supplied && bool_decide (supplied = JStr (digest (JObj body))).

(** ** The audit log is a chain *)

(** No two of these events have the same digest unless they are the same event. *)
Definition collision_free (es : list jdict) : Prop :=
  ∀ a b, a ∈ es → b ∈ es → digest (JObj a) = digest (JObj b) → canon (JObj a) = canon (JObj b).

(** A log as [append] leaves it: numbered from one, each event naming the digest of
    the one before. *)
Fixpoint chained (prior : json) (n : Z) (rows : list audit_row) : Prop :=
  match rows with
  | [] => True
  | r :: rows =>
      sequence r = n ∧ obj_field "prior_hash" (event r) = prior ∧ event_hash r = digest (JObj (event r))
      ∧ chained (JStr (event_hash r)) (n + 1) rows
  end.

Lemma obj_get_stored k d : NoDup d.*1 → obj_get k (stored d) = canon <$> obj_get k d.
Proof.
  intros Hnd. unfold stored. unfold canon. fold canon.
  set (d' := map (λ kv, (kv.1, canon kv.2)) d).
  assert (Hk : d'.*1 = d.*1).
  { unfold d'. clear. induction d as [|[k v] d IH]; [done|]. cbn. f_equal. exact IH. }
  assert (Hget : obj_get k d' = canon <$> obj_get k d).
  { unfold d'. clear. induction d as [|[k' v] d IH]; simpl; [done|]. by destruct (String.eqb k k'). }
  rewrite <-Hget.
  assert (Hin : ∀ l : jdict, NoDup l.*1 → ∀ v, obj_get k l = Some v ↔ (k, v) ∈ l).
  { clear. induction l as [|[k' v'] l IH]; intros Hnd v; simpl; [split; [done|by intros ?%elem_of_nil]|].
    apply NoDup_cons in Hnd as [Hn Hnd]. rewrite elem_of_cons. destruct (String.eqb_spec k k') as [->|Hne].
    - split; [intros [= ->]; by left|]. intros [[= ->]|Hin]; [done|]. exfalso. apply Hn.
      by apply (list_elem_of_fmap_2 fst) in Hin.
    - rewrite (IH Hnd). split; [by right|]. by intros [[= ? ?]|]. }
  assert (Hp : py_sorted key_leb d' ≡ₚ d') by apply py_sorted_perm.
  assert (N1 : NoDup d'.*1) by (by rewrite Hk).
  assert (N2 : NoDup (py_sorted key_leb d').*1) by (by rewrite Hp).
  apply option_eq. intros v. by rewrite (Hin _ N1), (Hin _ N2), Hp.
Qed.

Lemma event_digest d : digest (JObj (stored d)) = digest (JObj d).
Proof. rewrite <-(digest_canon (JObj d)). done. Qed.

Lemma prior_hash_snoc rows r : prior_hash (rows ++ [r]) = JStr (event_hash r).
Proof. unfold prior_hash. by rewrite last_snoc. Qed.

Lemma chained_snoc rows r : ∀ prior n, chained prior n rows →
  sequence r = n + Z.of_nat (length rows) →
  obj_field "prior_hash" (event r) = match last rows with Some x => JStr (event_hash x) | None => prior end →
  event_hash r = digest (JObj (event r)) → chained prior n (rows ++ [r]).
Proof.
  induction rows as [|x rows IH]; intros prior n Hc Hs Hp Hh; simpl in *.
  - split_and!; try done. lia.
  - destruct Hc as (? & ? & ? & Hc). split_and!; try done. apply IH; try done; [lia|].
    rewrite Hp, last_cons. by destruct (last rows).
Qed.

Lemma append_chained actor action reason ev extra now rows x rows' :
  chained JNull 1 rows → append actor action reason ev extra now rows = (x, rows') →
  chained JNull 1 rows' ∧ (rows' = rows ∨ ∃ r, x = Ok r ∧ rows' = rows ++ [r]).
Proof.
  intros Hc. unfold append, mbind, M_bind, mget, mguard, mlift, rguard, mput, mret, M_ret.
  destruct (negb _); intros H; simplify_eq; [|by split; [|left]].
  split; [|right; by eexists]. apply chained_snoc; [done|simpl; lia| |simpl; by rewrite event_digest].
  simpl. unfold obj_field. rewrite obj_get_stored by solve_nodup. simpl.
  unfold prior_hash. by destruct (last rows).
Qed.

Lemma chained_sorted rows : ∀ prior n, chained prior n rows →
  StronglySorted (λ a b, (sequence a <=? sequence b) = true) rows
  ∧ Forall (λ r, n <= sequence r) rows.
Proof.
  induction rows as [|r rows IH]; intros prior n Hc; [split; constructor|].
  destruct Hc as (Hs & _ & _ & Hc). destruct (IH _ _ Hc) as [H1 H2]. split.
  - constructor; [done|]. eapply List.Forall_impl; [|exact H2]. intros x Hx. simpl in Hx. lia.
  - constructor; [lia|]. eapply List.Forall_impl; [|exact H2]. intros x Hx. simpl in Hx. lia.
Qed.

Lemma verify_chained rows : ∀ prior n, chained prior n rows → verify_from prior (map export_row rows) = Ok true.
Proof.
  induction rows as [|r rows IH]; intros prior n Hc; [done|].
  destruct Hc as (_ & Hp & Hh & Hc). simpl. rewrite Hp, bool_decide_eq_true_2 by done. cbn [negb].
  rewrite <-Hh, bool_decide_eq_true_2 by done. by eapply IH.
Qed.

Lemma export_chained rows : chained JNull 1 rows → export rows = map export_row rows.
Proof. intros Hc. unfold export. f_equal. apply py_sorted_id. by eapply chained_sorted. Qed.

(** The logs that appending alone can make. *)
Inductive appended : list audit_row → Prop :=
  | appended_nil : appended []
  | appended_step rows actor action reason ev extra now : appended rows →
      appended (append actor action reason ev extra now rows).2.

Lemma appended_chained rows : appended rows → chained JNull 1 rows.
Proof.
  induction 1 as [|rows a b c e x n _ IH]; [done|].
  destruct (append a b c e x n rows) as [y rows'] eqn:E. by apply append_chained in E as [? _].
Qed.

(** What the audit log exports always verifies, and a log only grows. *)
Theorem audit_log_verifies rows actor action reason ev extra now x rows' :
  appended rows → append actor action reason ev extra now rows = (x, rows') →
  verify (export rows') = Ok true ∧ export rows `prefix_of` export rows'
  ∧ (∀ r, x = Ok r → export rows' = export rows ++ [export_row r] ∧ obj_field "actor" (event r) = JStr actor
       ∧ obj_field "action" (event r) = JStr action).
Proof.
  intros Ha%appended_chained H. pose proof H as Hraw.
  apply append_chained in H as [Hc H]; [|done].
  rewrite !export_chained by done. split; [by eapply verify_chained|]. split.
  - destruct H as [->|(r & _ & ->)]; [done|]. rewrite map_app. by apply prefix_app_r.
  - intros r ->. unfold append, mbind, M_bind, mget, mguard, mlift, rguard, mput, mret, M_ret in Hraw.
    destruct (negb _); simplify_eq. rewrite map_app. split; [done|]. simpl. unfold obj_field.
    by rewrite !obj_get_stored by solve_nodup.
Qed.

(** An item that verification accepts. *)
Definition item_event (item : jdict) : jdict :=
  match obj_field "event" item with JObj e => e | _ => [] end.

(** What a successful verification means, item by item. *)
Fixpoint links (prior : json) (es : list jdict) : Prop :=
  match es with
  | [] => True
  | e :: es => obj_field "prior_hash" e = prior ∧ links (JStr (digest (JObj e))) es
  end.

Lemma verify_links items : ∀ prior, verify_from prior items = Ok true →
  links prior (map item_event items)
  ∧ ∀ item, item ∈ items → obj_field "event_hash" item = JStr (digest (JObj (item_event item))).
Proof.
  induction items as [|item items IH]; intros prior H; simpl in H; [split; [done|by intros ? ?%elem_of_nil]|].
  destruct (obj_get "event" item) as [[| | | | | |e]|] eqn:He; try done.
  assert (Ei : item_event item = e) by (unfold item_event, obj_field; by rewrite He).
  case_bool_decide as Hp; [|done]. cbn [negb] in H. case_bool_decide as Hh; [|done].
  destruct (IH _ H) as [H1 H2]. split; [simpl; by rewrite Ei|].
  intros x [->|Hx]%elem_of_cons; [by rewrite Ei|by apply H2].
Qed.

(** The digest the chain of [es] ends in. *)
Definition head_digest (prior : json) (es : list jdict) : json :=
  match last es with Some e => JStr (digest (JObj e)) | None => prior end.

Lemma head_digest_cons prior e es : head_digest prior (e :: es) = head_digest (JStr (digest (JObj e))) es.
Proof. unfold head_digest. rewrite last_cons. by destruct (last es). Qed.

Lemma links_snoc es e : ∀ prior, links prior (es ++ [e]) ↔
  links prior es ∧ obj_field "prior_hash" e = head_digest prior es.
Proof.
  induction es as [|x es IH]; intros prior; simpl; [tauto|].
  rewrite IH, head_digest_cons. tauto.
Qed.

Lemma canon_prior a b : NoDup a.*1 → NoDup b.*1 → canon (JObj a) = canon (JObj b) →
  canon (obj_field "prior_hash" a) = canon (obj_field "prior_hash" b).
Proof.
  intros Ha Hb E. assert (Es : stored a = stored b) by (unfold stored; by rewrite E).
  apply (f_equal (obj_get "prior_hash")) in Es. rewrite !obj_get_stored in Es by done.
  unfold obj_field. destruct (obj_get "prior_hash" a), (obj_get "prior_hash" b); simpl in *; congruence.
Qed.

Lemma chains_agree es1 : ∀ es2, Forall (λ e, NoDup e.*1) (es1 ++ es2) →
  collision_free (es1 ++ es2) → links JNull es1 → links JNull es2 →
  head_digest JNull es1 = head_digest JNull es2 →
  map (λ e, canon (JObj e)) es1 = map (λ e, canon (JObj e)) es2.
Proof.
  induction es1 as [|e1 es1 IH] using rev_ind; intros es2 Hnd Hcf L1 L2 Hh.
  - destruct (last es2) eqn:E; unfold head_digest in Hh; rewrite E in Hh; [done|].
    apply last_None in E. by subst.
  - destruct es2 as [|e2 es2 _] using rev_ind; [unfold head_digest in Hh; by rewrite last_snoc in Hh|].
    assert (Hd : digest (JObj e1) = digest (JObj e2))
      by (unfold head_digest in Hh; rewrite !last_snoc in Hh; congruence).
    assert (Ec : canon (JObj e1) = canon (JObj e2)) by (apply Hcf; set_solver).
    apply links_snoc in L1 as [L1 P1], L2 as [L2 P2].
    rewrite ->Forall_forall in Hnd.
    assert (Hp : head_digest JNull es1 = head_digest JNull es2).
    { assert (Ep : canon (obj_field "prior_hash" e1) = canon (obj_field "prior_hash" e2))
        by (apply canon_prior; [apply Hnd; set_solver..|done]).
      rewrite P1, P2 in Ep. unfold head_digest in *.
      destruct (last es1), (last es2); done. }
    rewrite !map_app. simpl. rewrite Ec. f_equal. apply IH; try done.
    + apply Forall_forall. intros x Hx. apply Hnd. set_solver.
    + intros a b Ha Hb. apply Hcf; set_solver.
Qed.

(** C28: the latest digest pins the whole history. Of two exports that both
    verify, if their events are free of digest collisions and they end in the same
    digest, every event is the same and none is missing, added or moved: to change a
    log unnoticed one must find a collision or replace the digest kept elsewhere. *)
Theorem audit_detects_tampering items1 items2 :
  verify items1 = Ok true → verify items2 = Ok true →
  Forall (λ e, NoDup e.*1) (map item_event items1 ++ map item_event items2) →
  collision_free (map item_event items1 ++ map item_event items2) →
  obj_field "event_hash" <$> last items1 = obj_field "event_hash" <$> last items2 →
  map (λ i, canon (JObj (item_event i))) items1 = map (λ i, canon (JObj (item_event i))) items2.
Proof.
  intros V1 V2 Hnd Hcf Hl. apply verify_links in V1 as [L1 E1], V2 as [L2 E2].
  pose proof (chains_agree _ _ Hnd Hcf L1 L2) as H. rewrite !map_map in H. apply H.
  assert (Hh : ∀ items, (∀ i, i ∈ items → obj_field "event_hash" i = JStr (digest (JObj (item_event i)))) →
    head_digest JNull (map item_event items) = from_option id JNull (obj_field "event_hash" <$> last items)).
  { intros items He. unfold head_digest. rewrite fmap_last. destruct (last items) as [i|] eqn:E; [|done].
    simpl. symmetry. apply He. apply last_Some in E as [l ->]. set_solver. }
  by rewrite !Hh, Hl.
Qed.

(** ** Evidence packages *)

Lemma obj_get_snoc k d v : obj_get k d = None →
  List.filter (λ kv, negb (String.eqb kv.1 k)) d = d ∧ obj_field k (d ++ [(k, v)]) = v.
Proof.
  unfold obj_field. induction d as [|[k' x] d IH]; simpl; [by rewrite String.eqb_refl|].
  rewrite String.eqb_sym. destruct (String.eqb k' k) eqn:E; [done|]. simpl. intros Hno.
  destruct (IH Hno) as [-> ->]. done.
Qed.

(** A package of review evidence verifies as built, and, barring a collision,
    no longer does once any field but the digest itself was changed. *)
Theorem evidence_verifies_until_changed p :
  (∀ text, truthy_str (sha256 text) = true) →
  verify_package (as_dict p) = true
  ∧ ∀ body, obj_get "package_hash" body = None →
      (digest (JObj body) = digest (JObj (evidence_body p)) → canon (JObj body) = canon (JObj (evidence_body p))) →
      verify_package (body ++ [("package_hash", JStr (digest (JObj (evidence_body p))))]) = true →
      canon (JObj body) = canon (JObj (evidence_body p)).
Proof.
  intros Hsha. split.
  - pose proof (Hsha (dumps float_repr (canon (JObj (evidence_body p))))) as Ht.
    change (truthy_str (digest (JObj (evidence_body p))) = true) in Ht. unfold verify_package, as_dict.
    assert (E : obj_set "package_hash" (JStr (digest (JObj (evidence_body p)))) (evidence_body p)
      = evidence_body p ++ [("package_hash", JStr (digest (JObj (evidence_body p))))]) by done.
    rewrite E. unfold obj_field. simpl. rewrite Ht. by rewrite bool_decide_eq_true_2.
  - intros body Hno Hcf H. unfold verify_package in H. apply andb_true_iff in H as [_ H].
    apply bool_decide_eq_true in H. rewrite List.filter_app in H. simpl in H. rewrite app_nil_r in H.
    destruct (obj_get_snoc _ _ (JStr (digest (JObj (evidence_body p)))) Hno) as [Hf Eh].
    rewrite Hf in H. rewrite Eh in H. apply Hcf. congruence.
Qed.
End Digest.

(** ** execution_policy.py *)

(** The parts of [ExecutionPolicy] these checks read. *)
Record ExecutionPolicy := mk_execution_policy {
  allowed_commands : list string;
  allowed_environment : list string }.

Definition default_execution_policy : ExecutionPolicy :=
  mk_execution_policy ["python"] ["PYTHONDONTWRITEBYTECODE"].

(** ["$" in part or "`" in part or ";" in part]. *)
Definition interpolates (part : string) : bool :=
  existsb (λ c, bool_decide (c ∈ to_list "$`;")) (to_list part).

(** [PolicyDenied] is a [PermissionError]. *)
Definition validate_command (p : ExecutionPolicy) (command : list string) : result unit :=
  rguard (match command with [] => false | c :: _ => bool_decide (c ∈ allowed_commands p) end) PermissionError;;
  rguard (negb (existsb interpolates command)) PermissionError.

Definition validate_environment (p : ExecutionPolicy) (environment : list (string * string)) :
    result (list (string * string)) :=
  rguard (forallb (λ kv, bool_decide (kv.1 ∈ allowed_environment p)) environment) PermissionError;;
  Ok environment.

Example default_policy_runs_python :
  validate_command default_execution_policy ["python"; "-m"; "pytest"] = Ok tt
  ∧ validate_command default_execution_policy ["python"; "-c"; "print(1); x"] = Raise PermissionError
  ∧ validate_command default_execution_policy ["sh"] = Raise PermissionError.
Proof. by vm_compute. Qed.

(** ** Witnesses *)

Module AuditDemo.
(** A digest without collisions: the text itself. *)
Definition sha (s : string) : string := "#" +:+ s.
Definition fr (q : Q) : string := "0.5".

Definition one : list audit_row := (append sha fr "ann" "approve" "ok" "v1" None "t1" []).2.
Definition two : list audit_row := (append sha fr "bob" "reject" "no" "v1" (Some [("n", JInt 2)]) "t2" one).2.

Lemma one_appended : appended sha fr one.
Proof. apply appended_step, appended_nil. Qed.

Definition package : ReviewEvidencePackage := mk_evidence [("q", JInt 1)] [] "abc" "def" [] [] [] "rigel" "m" "p" "1".
End AuditDemo.
Import AuditDemo.

Lemma audit_log_verifies_witness : verify sha fr (export two) = Ok true.
Proof.
  destruct (append sha fr "bob" "reject" "no" "v1" (Some [("n", JInt 2)]) "t2" one) as [x rows'] eqn:E.
  assert (Ht : two = rows') by (unfold two; by rewrite E). rewrite Ht.
  exact (proj1 (audit_log_verifies _ _ _ _ _ _ _ _ _ _ _ one_appended E)).
Defined.

Lemma audit_detects_tampering_witness :
  map (λ i, canon (JObj (item_event i))) (export two) = map (λ i, canon (JObj (item_event i))) (export two).
Proof.
  apply (audit_detects_tampering sha fr (export two) (export two)); [reflexivity..| | |reflexivity].
  - repeat constructor; solve_nodup.
  - intros a b Ha Hb E. cbn in Ha, Hb.
    repeat (apply elem_of_cons in Ha as [->|Ha]); try (by apply elem_of_nil in Ha);
    repeat (apply elem_of_cons in Hb as [->|Hb]); try (by apply elem_of_nil in Hb);
      first [reflexivity|vm_compute in E; discriminate E].
Defined.

Lemma evidence_verifies_until_changed_witness : verify_package sha fr (as_dict sha fr package) = true.
Proof. exact (proj1 (evidence_verifies_until_changed sha fr package (λ _, eq_refl))). Defined.
