(* ===== verification/Confidence.v ===== *)
(** agents/rigel/confidence.py: how Rigel scores its own results.

    Arithmetic is exact; [round(x, 3)] rounds half to even on the exact value. The
    language model, [json.loads], [float] of a text and float rendering are arguments. *)

From S2P Require Import Prelude.
From S2P Require Import PyStr.
From S2P Require Import PyTime.
From S2P Require Import Json.
From Stdlib Require Import Ascii QArith Lqa.
Close Scope Q_scope.
Open Scope Z_scope.

Definition DEFAULT_WEIGHTS : jdict :=
  [("structural_check", JFloat (40 # 100)); ("self_critique", JFloat (40 # 100));
   ("historical_baseline", JFloat (20 # 100))].

(** [d.get(k, dflt).get(...)]: only a dictionary has [get]. *)
Definition get_dict (v : json) : result jdict :=
  match v with JObj d => Ok d | _ => Raise AttributeError end.

(** [_load_weights], once: the file's content as the YAML reader gives it, [None] when
    there is no file. *)
Definition load_weights (file : option (result json)) : result json :=
  match file with
  | None => Ok (JObj DEFAULT_WEIGHTS)
  | Some read =>
      data ← read;
      data ← get_dict data;
      c ← get_dict (obj_default "confidence" (JObj []) data);
      Ok (obj_default "weights" (JObj DEFAULT_WEIGHTS) c)
  end.

(** ** Structure *)

Definition is_text (v : json) : bool := match v with JStr _ => true | _ => false end.
Definition is_list (v : json) : bool := match v with JArr _ => true | _ => false end.
Definition is_dict (v : json) : bool := match v with JObj _ => true | _ => false end.
Definition visible_text (v : json) : bool := match v with JStr s => truthy_str (strip s) | _ => false end.

(** [isinstance(v, int) and v > 0]: a bool is an int. *)
Definition positive_int (v : json) : bool :=
  match v with JInt z => 0 <? z | JBool b => b | _ => false end.

Definition checks (skill : string) (r : jdict) : option (list bool) :=
  let f k := obj_field k r in
  if String.eqb skill "rigel.skill.code_generation" then Some [visible_text (f "code"); obj_has "code" r]
  else if String.eqb skill "rigel.skill.pr_review" then Some [is_list (f "findings"); is_text (f "summary")]
  else if String.eqb skill "rigel.skill.test_writing" then Some [is_text (f "tests"); positive_int (f "test_count")]
  else if String.eqb skill "rigel.skill.refactor" then
    Some [truthy (f "refactored_code"); is_list (f "changes_made")]
  else if String.eqb skill "rigel.skill.scaffold" then
    Some [is_dict (f "file_tree"); is_list (f "files") && truthy (f "files")]
  else if String.eqb skill "rigel.skill.debug_triage" then Some [truthy (f "root_cause_hypothesis")]
  else None.

Definition count_true (l : list bool) : Z := Z.of_nat (length (List.filter id l)).

(** [_structural_check]. *)
Definition structural_check (skill : string) (r : jdict) : Q :=
  match checks skill r with
  | None => 1 # 2
  | Some l => (inject_Z (count_true l) / inject_Z (Z.of_nat (length l)))%Q
  end.

(** ** Critique *)

Section Score.
Context (float_repr : Q → string) (json_loads : string → result json) (float_text : string → result Q).
(** The long dash of the prompt, which is no code point below 256. *)
Context (dash : string).
(** The model's reply to a system and a user message. *)
Context (llm : string → string → result string).

(** [dict(result)] with the code cut to 4000 characters. *)
Definition review_result (r : jdict) : jdict :=
  match obj_field "code" r with
  | JStr code => obj_set "code" (JStr (of_list (take 4000 (to_list code)))) r
  | _ => r
  end.

Definition newline2 : string := of_list [ascii_of_nat 10; ascii_of_nat 10].
Definition newline1 : string := of_list [ascii_of_nat 10].

Definition critique_prompt (payload r : jdict) : string :=
  "Original task: " +:+ dumps_default float_repr (JObj payload) +:+ newline2
  +:+ "Output produced (code limited to 4000 characters): " +:+ dumps_default float_repr (JObj (review_result r)) +:+ newline2
  +:+ "Rate whether this output fully satisfies the task." +:+ newline1
  +:+ "You MUST respond with ONLY this JSON object and nothing else " +:+ dash
  +:+ " no explanation, no markdown:" +:+ newline1
  +:+ "{" +:+ dump_str "score" +:+ ": 0.85, " +:+ dump_str "gaps" +:+ ": []}".

Definition critic : string :=
  "You are a critical evaluator. You always respond with a single valid JSON object and nothing else. "
  +:+ "Never use markdown. Never add explanation outside the JSON.".

(** [float(v)]. *)
Definition to_float (v : json) : result Q :=
  match v with
  | JFloat q => Ok q
  | JInt z => rguard (Z.abs z <? 2 ^ 1024 - 2 ^ 970) OverflowError;; Ok (inject_Z z)
  | JBool b => Ok (if b then 1%Q else 0%Q)
  | JStr s => float_text s
  | _ => Raise TypeError
  end.

Definition read_critique (response : string) : result (Q * json) :=
  parsed ← json_loads response;
  match parsed with
  | JObj d =>
      v ← of_option KeyError (obj_get "score" d);
      q ← to_float v;
      Ok (q, obj_default "gaps" (JArr []) d)
  | _ => Raise TypeError
  end.

(** [_self_critique]: any exception gives the fallback. *)
Definition self_critique (payload r : jdict) (fallback : Q) : Q * json :=
  match (response ← llm critic (critique_prompt payload r); read_critique response) with
  | Ok c => c
  | Raise _ => (fallback, JArr [JStr "self_critique_parse_error"])
  end.

(** ** The score *)

(** [_calibrated_confidence] of an execution with this outcome. *)
Definition calibrated_confidence (soft : Q) (outcome : option string) : Q :=
  match outcome with
  | None => soft
  | Some o =>
      if String.eqb o "pass" then ((90 # 100) + soft * (10 # 100))%Q
      else if String.eqb o "fail" then ((10 # 100) + soft * (10 # 100))%Q
      else if String.eqb o "timeout" then 5 # 100
      else if String.eqb o "error" then 15 # 100
      else soft
  end.

(** [w[k]] as a factor of a float; multiplying by what is no number is a [TypeError]. *)
Definition weight (w : json) (k : string) : result Q :=
  match w with
  | JObj d => v ← of_option KeyError (obj_get k d); jnum v
  | _ => Raise TypeError
  end.

Definition round3 (q : Q) : Q := (round_div (Qnum q * 1000) (Zpos (Qden q)) # 1000)%Q.

Record confidence_report := mk_confidence {
  cf_confidence : Q;
  cf_soft : Q;
  cf_structural : Q;
  cf_critique : Q;
  cf_historical : Q;
  cf_outcome : option string;
  cf_gaps : json }.

Definition soft_confidence (ws wc wh structural critique historical : Q) : Q :=
  (structural * ws + critique * wc + historical * wh)%Q.

(** [score_confidence]. *)
Definition score_confidence (weights : option (result json)) (skill : string) (payload r : jdict)
    (historical : Q) (outcome : option string) (fallback : Q) : result confidence_report :=
  let structural := structural_check skill r in
  let critique := self_critique payload r fallback in
  w ← load_weights weights;
  ws ← weight w "structural_check";
  wc ← weight w "self_critique";
  wh ← weight w "historical_baseline";
  let soft := soft_confidence ws wc wh structural critique.1 historical in
  Ok (mk_confidence (round3 (calibrated_confidence soft outcome)) (round3 soft) structural critique.1 historical
        outcome critique.2).
End Score.

(** ** Bounds *)

Lemma structural_bounds skill r : (0 <= structural_check skill r <= 1)%Q.
Proof.
  unfold structural_check. destruct (checks skill r) as [l|] eqn:E; [|split; discriminate].
  assert (Hl : (0 < length l)%nat).
  { unfold checks in E. cbv zeta in E. repeat (case_match; try discriminate); simplify_eq; simpl; lia. }
  assert (Hc : (length (List.filter id l) <= length l)%nat) by (clear; induction l as [|[] l IH]; simpl; lia).
  unfold count_true. set (n := length (List.filter id l)) in *. set (m := length l) in *.
  assert (Hm : (0 < inject_Z (Z.of_nat m))%Q) by (change 0%Q with (inject_Z 0); rewrite <-Zlt_Qlt; lia).
  split.
  - apply Qle_shift_div_l; [done|]. rewrite Qmult_0_l. change 0%Q with (inject_Z 0). rewrite <-Zle_Qle. lia.
  - apply Qle_shift_div_r; [done|]. rewrite Qmult_1_l, <-Zle_Qle. lia.
Qed.

Lemma round3_mono p q : (p <= q)%Q → (round3 p <= round3 q)%Q.
Proof.
  intros H. unfold round3, Qle. simpl. apply Zmult_le_compat_r; [|lia].
  unfold Qle in H. apply round_div_mono; lia.
Qed.

Lemma weighted_bounds ws wc wh a b c : (0 <= ws)%Q → (0 <= wc)%Q → (0 <= wh)%Q → (ws + wc + wh <= 1)%Q →
  (0 <= a <= 1)%Q → (0 <= b <= 1)%Q → (0 <= c <= 1)%Q → (0 <= soft_confidence ws wc wh a b c <= 1)%Q.
Proof.
  intros Hs Hc Hh Hsum [A0 A1] [B0 B1] [C0 C1]. unfold soft_confidence.
  assert (Hp : ∀ x w, (0 <= w)%Q → (0 <= x)%Q → (x <= 1)%Q → (0 <= x * w <= w)%Q).
  { intros x w Hw Hx Hx1. split; [by apply Qmult_le_0_compat|].
    rewrite <-(Qmult_1_l w) at 2. by apply Qmult_le_compat_r. }
  pose proof (Hp a ws Hs A0 A1). pose proof (Hp b wc Hc B0 B1). pose proof (Hp c wh Hh C0 C1). lra.
Qed.

(** A score is a probability, and running the code outweighs any opinion of it.
    With weights that are nonnegative and add up to at most one and a critique and a
    history between zero and one, the confidence is between zero and one; code that
    passed scores at least 0.9, code that failed at most 0.2, a timeout exactly 0.05,
    an error exactly 0.15, whatever the model says. *)
Theorem confidence_is_bounded float_repr json_loads float_text dash llm weights w skill payload r historical
    outcome fallback rep ws wc wh :
  score_confidence float_repr json_loads float_text dash llm weights skill payload r historical outcome fallback = Ok rep →
  load_weights weights = Ok w → weight w "structural_check" = Ok ws → weight w "self_critique" = Ok wc →
  weight w "historical_baseline" = Ok wh →
  (0 <= ws)%Q → (0 <= wc)%Q → (0 <= wh)%Q → (ws + wc + wh <= 1)%Q →
  (0 <= historical <= 1)%Q → (0 <= cf_critique rep <= 1)%Q →
  (0 <= cf_confidence rep <= 1)%Q
  ∧ (outcome = Some "pass" → (9 # 10 <= cf_confidence rep)%Q)
  ∧ (outcome = Some "fail" → (cf_confidence rep <= 2 # 10)%Q)
  ∧ (outcome = Some "timeout" → (cf_confidence rep == 5 # 100)%Q)
  ∧ (outcome = Some "error" → (cf_confidence rep == 15 # 100)%Q).
Proof.
  intros H Hw Es Ec Eh Hs Hc Hh Hsum Hhist Hcrit. unfold score_confidence in H. cbv zeta in H.
  rewrite Hw in H. cbn [mbind rbind] in H. rewrite Es in H. cbn [mbind rbind] in H. rewrite Ec in H.
  cbn [mbind rbind] in H. rewrite Eh in H. cbn [mbind rbind] in H. injection H as <-.
  cbn [cf_critique cf_confidence] in *.
  set (b := (self_critique _ _ _ _ _ _ _ _).1) in *.
  pose proof (weighted_bounds _ _ _ _ _ _ Hs Hc Hh Hsum (structural_bounds skill r) Hcrit Hhist) as [S0 S1].
  set (soft := soft_confidence ws wc wh (structural_check skill r) b historical) in *. clearbody soft.
  assert (Hpass : (0 <= (90 # 100) + soft * (10 # 100) <= 1)%Q ∧ (9 # 10 <= (90 # 100) + soft * (10 # 100))%Q)
    by (repeat split; lra).
  assert (Hfail : (0 <= (10 # 100) + soft * (10 # 100) <= 2 # 10)%Q) by (split; lra).
  assert (Hb : ∀ q lo hi, (lo <= q <= hi)%Q → (round3 lo <= round3 q <= round3 hi)%Q)
    by (intros q lo hi [? ?]; split; by apply round3_mono).
  assert (R : (round3 0 == 0)%Q ∧ (round3 1 == 1)%Q ∧ (round3 (9 # 10) == 9 # 10)%Q ∧ (round3 (2 # 10) == 2 # 10)%Q)
    by done.
  destruct R as (R0 & R1 & R9 & R2).
  split; [|split_and!].
  - assert (Hq : (0 <= calibrated_confidence soft outcome <= 1)%Q).
    { unfold calibrated_confidence. destruct outcome as [o|]; [|done].
      repeat case_match; try done; [tauto|]. split; [tauto|]. eapply Qle_trans; [apply Hfail|done]. }
    pose proof (Hb _ _ _ Hq). lra.
  - intros ->. unfold calibrated_confidence. simpl. pose proof (round3_mono _ _ (proj2 Hpass)). lra.
  - intros ->. unfold calibrated_confidence. simpl. pose proof (round3_mono _ _ (proj2 Hfail)). lra.
  - intros ->. done.
  - intros ->. done.
Qed.

Module ConfidenceDemo.
Definition loads (s : string) : result json :=
  if String.eqb s "good" then Ok (JObj [("score", JFloat (8 # 10))])
  else if String.eqb s "boast" then Ok (JObj [("score", JInt 7)]) else Raise ValueError.

Definition score (reply : string) (outcome : option string) : result confidence_report :=
  score_confidence (λ _, "0.5") loads (λ _, Raise ValueError) "-" (λ _ _, Ok reply) None
    "rigel.skill.pr_review" [] [("findings", JArr []); ("summary", JStr "ok")] (1 # 2) outcome (3 # 4).

(** The critique's score is used as it comes: a model that answers 7 makes a
    confidence of 3.3, and no answer that can be read counts as 0.75. *)
Example a_boast_is_believed :
  (cf_confidence <$> match score "boast" None with Ok r => Some r | _ => None end) = Some (3300 # 1000)%Q
  ∧ match score "hm" None with
    | Ok r => cf_critique r = (3 # 4)%Q ∧ cf_gaps r = JArr [JStr "self_critique_parse_error"]
    | Raise _ => False end.
Proof. by vm_compute. Qed.
End ConfidenceDemo.
Import ConfidenceDemo.

Lemma confidence_is_bounded_witness :
  ∃ rep, score "good" (Some "pass") = Ok rep ∧ (9 # 10 <= cf_confidence rep)%Q.
Proof.
  destruct (score "good" (Some "pass")) as [rep|] eqn:E; [|vm_compute in E; discriminate E].
  refine (ex_intro _ rep (conj eq_refl _)).
  refine (proj1 (proj2 (confidence_is_bounded _ _ _ _ _ None (JObj DEFAULT_WEIGHTS) _ _ _ _ _ _ rep
    (40 # 100) (40 # 100) (20 # 100) E eq_refl eq_refl eq_refl eq_refl _ _ _ _ _ _)) eq_refl);
    try (vm_compute; discriminate); try (split; vm_compute; discriminate).
  vm_compute in E. injection E as <-. split; vm_compute; discriminate.
Defined.
