(* ===== verification/ArtifactScan.v ===== *)
(** core/security/artifact_scan.py: the checks generated artifacts pass before review.

    The rules are regular expressions; [re] is modelled by the positions at which a
    match can end ([ends]), which decides [pattern.search]: whether backtracking finds
    a match does not depend on the order it tries. [str] of a JSON value that is no
    string is an argument. *)

From S2P Require Import Prelude.
From S2P Require Import PyStr.
From S2P Require Import Json.
From Stdlib Require Import Ascii.
Open Scope Z_scope.

(** ** Regular expressions *)

Inductive regex :=
  | Eps
  | Chr (p : ascii → bool)
  | Cat (a b : regex)
  | Alt (a b : regex)
  | Star (a : regex)
  | Ahead (neg : bool) (a : regex)
  | Behind (neg : bool) (p : ascii → bool)
  | Boundary.

(** A position: the character before it, if any, and the text after it. *)
Abbreviation position := (option ascii * list ascii)%type (only parsing).

Definition word_at (o : option ascii) : bool := match o with Some c => is_word c | None => false end.

(** [f] repeated, at most [n] times; a round that does not move is not repeated. *)
Fixpoint rounds (f : position → list position) (n : nat) (p : position) : list position :=
  p :: match n with
       | O => []
       | S n => flat_map (rounds f n) (List.filter (λ q, (length q.2 <? length p.2)%nat) (f p))
       end.

Fixpoint ends (r : regex) (p : position) : list position :=
  match r with
  | Eps => [p]
  | Chr f => match p.2 with c :: l => if f c then [(Some c, l)] else [] | [] => [] end
  | Cat a b => flat_map (ends b) (ends a p)
  | Alt a b => ends a p ++ ends b p
  | Star a => rounds (ends a) (length p.2) p
  | Ahead neg a => if xorb neg (match ends a p with [] => false | _ => true end) then [p] else []
  | Behind neg f => if xorb neg (match p.1 with Some c => f c | None => false end) then [p] else []
  | Boundary => if xorb (word_at p.1) (word_at (head p.2)) then [p] else []
  end.

Fixpoint search_from (r : regex) (prev : option ascii) (l : list ascii) : bool :=
  match ends r (prev, l) with
  | _ :: _ => true
  | [] => match l with c :: l' => search_from r (Some c) l' | [] => false end
  end.

(** [pattern.search(s) is not None]. *)
Definition search (r : regex) (s : string) : bool := search_from r None (to_list s).

(** Pieces: an exact text, a text in either case, n copies, n copies or more, at most one. *)
Fixpoint exactly (l : list ascii) : regex :=
  match l with [] => Eps | c :: l => Cat (Chr (Ascii.eqb c)) (exactly l) end.
Definition lit (s : string) : regex := exactly (to_list s).
Fixpoint any_case_list (l : list ascii) : regex :=
  match l with [] => Eps | c :: l => Cat (Chr (λ x, Ascii.eqb (lower_char c) (lower_char x))) (any_case_list l) end.
Definition any_case (s : string) : regex := any_case_list (to_list s).
Fixpoint copies (n : nat) (r : regex) : regex :=
  match n with O => Eps | S n => Cat r (copies n r) end.
Definition at_least (n : nat) (r : regex) : regex := Cat (copies n r) (Star r).
Definition maybe (r : regex) : regex := Alt r Eps.
Fixpoint one_of (rs : list regex) : regex :=
  match rs with [] => Chr (λ _, false) | [r] => r | r :: rs => Alt r (one_of rs) end.
Fixpoint in_order (rs : list regex) : regex :=
  match rs with [] => Eps | r :: rs => Cat r (in_order rs) end.

Definition among (s : string) (c : ascii) : bool := bool_decide (c ∈ to_list s).
Definition is_digit (c : ascii) : bool := let n := nat_of_ascii c in ((48 <=? n) && (n <=? 57))%nat.
Definition is_upper (c : ascii) : bool := let n := nat_of_ascii c in ((65 <=? n) && (n <=? 90))%nat.
Definition is_letter (c : ascii) : bool := is_upper c || let n := nat_of_ascii c in ((97 <=? n) && (n <=? 122))%nat.

(** ** The rules *)

Definition dquote : ascii := ascii_of_nat 34.
Definition squote : ascii := ascii_of_nat 39.
Definition quotes : string := of_list [dquote; squote].

(** [_SECRET_NAME], in either case. *)
Definition SECRET_NAME : regex := in_order
  [Boundary; Star (Chr is_word);
   one_of [in_order [any_case "api"; maybe (Chr (among "_-")); any_case "key"];
           any_case "secret"; any_case "password"; any_case "passwd"; any_case "token"];
   Star (Chr is_word); maybe (Chr (among quotes)); Star (Chr is_space); Chr (among ":="); Star (Chr is_space)].

(** [_QUOTED_LITERAL]. *)
Definition quoted (q : ascii) : regex := in_order
  [Chr (Ascii.eqb q); at_least 12 (Chr (λ c, negb (is_space c || among quotes c))); Chr (Ascii.eqb q)].
Definition QUOTED_LITERAL : regex := Alt (quoted dquote) (quoted squote).

Definition token_char (c : ascii) : bool := is_letter c || is_digit c || among "_-+/=" c.

(** [_BARE_LITERAL]. *)
Definition BARE_LITERAL : regex := in_order
  [Behind true (λ c, is_word c || among "." c);
   Ahead false (Cat (Star (Chr token_char)) (Chr is_digit));
   at_least 16 (Chr token_char);
   Ahead true (Chr (λ c, is_word c || among "(.[" c))].

Definition private_key : regex := in_order
  [lit "-----BEGIN "; maybe (one_of [lit "RSA "; lit "EC "; lit "OPENSSH "]); lit "PRIVATE KEY-----"].

Definition aws_access_key : regex := in_order
  [Boundary; lit "AKIA"; copies 16 (Chr (λ c, is_digit c || is_upper c)); Boundary].

Definition generic_secret : regex := Cat SECRET_NAME (Alt QUOTED_LITERAL BARE_LITERAL).

Definition SECRET_RULES : list (string * regex) :=
  [("private-key", private_key); ("aws-access-key", aws_access_key); ("generic-secret", generic_secret)].

Definition UNSAFE_EXTENSIONS : list string :=
  [".exe"; ".dll"; ".so"; ".dylib"; ".bin"; ".pyc"; ".zip"; ".tar"; ".gz"; ".tgz"; ".7z"; ".rar"; ".jar"].

(** ** The scan *)

Record finding := mk_finding {
  f_rule : string;
  f_severity : string;
  f_filename : string }.

Record ArtifactScanOverride := mk_override {
  reviewer : string;
  decision : string;
  ov_findings : list string }.

Record ArtifactScan := mk_scan {
  sc_status : string;
  sc_findings : list finding;
  sc_overridden : list finding;
  sc_override : option ArtifactScanOverride }.

(** [len(s.encode("utf-8"))]: two bytes from code point 128 on. *)
Definition utf8_size (s : string) : Z :=
  foldr (λ c n, (if (nat_of_ascii c <? 128)%nat then 1 else 2) + n) 0 (to_list s).

Definition ends_with (s e : string) : bool :=
  let l := to_list s in bool_decide (drop (length l - length (to_list e)) l = to_list e).

Section Scan.
Context (py_str : json → string).

(** [str(artifact.get(k, ""))]. *)
Definition text_field (k : string) (a : jdict) : string :=
  match obj_default k (JStr "") a with JStr s => s | v => py_str v end.

(** The findings of one artifact. *)
Definition scan_artifact (limit : Z) (a : jdict) : list finding :=
  let filename := text_field "filename" a in
  let content := text_field "content" a in
  (if limit <? utf8_size content then [mk_finding "file-too-large" "high" filename] else [])
  ++ (if existsb (ends_with (lower filename)) UNSAFE_EXTENSIONS
      then [mk_finding "unsafe-file-type" "high" filename] else [])
  ++ map (λ r, mk_finding r.1 "critical" filename) (List.filter (λ r, search r.2 content) SECRET_RULES).

Definition finding_key (f : finding) : string := f_filename f +:+ ":" +:+ f_rule f.

(** Whether a finding is accepted by the override. *)
Definition accepted (o : option ArtifactScanOverride) (f : finding) : bool :=
  match o with
  | Some o => truthy_str (strip (reviewer o)) && String.eqb (decision o) "approved"
              && bool_decide (finding_key f ∈ ov_findings o)
  | None => false
  end.

Definition status_of (findings : list finding) : string :=
  if existsb (λ f, String.eqb (f_severity f) "critical") findings then "blocked"
  else match findings with [] => "passed" | _ => "escalate" end.

(** [scan_artifacts]; [limit] is max_bytes or the configured one. *)
Definition scan_artifacts (limit : Z) (o : option ArtifactScanOverride) (artifacts : list jdict) : ArtifactScan :=
  let findings := flat_map (scan_artifact limit) artifacts in
  let remaining := List.filter (λ f, negb (accepted o f)) findings in
  mk_scan (status_of remaining) remaining (List.filter (accepted o) findings) o.

(** [require_safe_artifacts]: [ArtifactSafetyError] is a [ValueError]. *)
Definition require_safe_artifacts (limit : Z) (artifacts : list jdict) : result ArtifactScan :=
  let scan := scan_artifacts limit None artifacts in
  rguard (String.eqb (sc_status scan) "passed") ValueError;;
  Ok scan.

(** Keys that are caught, and code that reads a secret, which is not. *)
Definition caught (content : string) : list string :=
  map f_rule (scan_artifact 1000 [("filename", JStr "a.py"); ("content", JStr content)]).
End Scan.

Example scan_examples :
  let caught := caught (λ _, "") in
  caught "key = AKIA1234567890ABCDEF" = ["aws-access-key"]
  ∧ caught "API_KEY: abcdefghij0123456789" = ["generic-secret"]
  ∧ caught ("my_token = '" +:+ "hunter2hunter2hunter2'") = ["generic-secret"]
  ∧ caught "api_key = os.environ.get(name)" = []
  ∧ caught "password = config.password_from_env_1234567890(x)" = []
  ∧ caught "AKIA1234567890ABCDEFG" = [].
Proof. vm_compute. by split_and!. Qed.

(** ** What the search finds *)

Lemma ends_cat a b p q r : q ∈ ends a p → r ∈ ends b q → r ∈ ends (Cat a b) p.
Proof.
  intros Hq Hr. simpl. apply list_elem_of_In, in_flat_map. exists q. by rewrite <-!list_elem_of_In.
Qed.

Lemma ends_exactly l rest : ∀ prev, ∃ prev', (prev', rest) ∈ ends (exactly l) (prev, l ++ rest).
Proof.
  induction l as [|c l IH]; intros prev; simpl; [exists prev; by left|].
  rewrite Ascii.eqb_refl. simpl. rewrite app_nil_r. apply IH.
Qed.

Lemma ends_copies f l rest : forallb f l = true → ∀ prev,
  ∃ prev', (prev', rest) ∈ ends (copies (length l) (Chr f)) (prev, l ++ rest)
           ∧ prev' = match last l with Some c => Some c | None => prev end.
Proof.
  induction l as [|c l IH]; intros Hl prev; simpl in *; [exists prev; split; [by left|done]|].
  apply andb_true_iff in Hl as [Hc Hl]. rewrite Hc. simpl. rewrite app_nil_r.
  destruct (IH Hl (Some c)) as (prev' & Hin & ->). eexists. split; [exact Hin|].
  rewrite last_cons. by destruct (last l).
Qed.

Lemma search_here r pre m : (∀ prev, (pre = [] → prev = None) → prev = last pre → ∃ q, q ∈ ends r (prev, m)) →
  search_from r None (pre ++ m) = true.
Proof.
  intros H. assert (G : ∀ pre prev, (∃ q, q ∈ ends r (match last pre with Some c => Some c | None => prev end, m)) →
    search_from r prev (pre ++ m) = true).
  { clear. induction pre as [|c pre IH]; intros prev [q Hq]; simpl in *.
    - destruct m as [|c m]; simpl; destruct (ends r _); try done; by apply elem_of_nil in Hq.
    - destruct (ends r (prev, c :: pre ++ m)); [|done]. apply IH.
      exists q. rewrite last_cons in Hq. by destruct (last pre). }
  apply G. apply H; [by intros ->|]. by destruct (last pre).
Qed.

(** Text that holds a key: a private key's header, or an AWS key id that is a word. *)
Inductive leaks : string → string → Prop :=
  | leak_private_key pre kind post : kind ∈ [""; "RSA "; "EC "; "OPENSSH "] →
      leaks "private-key" (pre +:+ "-----BEGIN " +:+ kind +:+ "PRIVATE KEY-----" +:+ post)
  | leak_aws_key pre key post :
      word_at (last (to_list pre)) = false → word_at (head (to_list post)) = false →
      String.length key = 16%nat → forallb (λ c, is_digit c || is_upper c) (to_list key) = true →
      leaks "aws-access-key" (pre +:+ "AKIA" +:+ key +:+ post).

Lemma to_list_length s : length (to_list s) = String.length s.
Proof. induction s as [|c s IH]; [done|]. simpl. f_equal. exact IH. Qed.

Lemma kind_matches kind rest prev : kind ∈ [""; "RSA "; "EC "; "OPENSSH "] →
  ∃ prev', (prev', rest) ∈ ends (maybe (one_of [lit "RSA "; lit "EC "; lit "OPENSSH "])) (prev, to_list kind ++ rest).
Proof.
  intros Hk. unfold maybe. cbn [ends one_of].
  assert (Hlit : ∀ s, ∃ prev', (prev', rest) ∈ ends (lit s) (prev, to_list s ++ rest)) by (intros s; apply ends_exactly).
  repeat (apply elem_of_cons in Hk as [->|Hk]); [| | | |by apply elem_of_nil in Hk].
  - exists prev. rewrite !elem_of_app. right. by left.
  - destruct (Hlit "RSA ") as [p Hp]. exists p. rewrite !elem_of_app. by left; left.
  - destruct (Hlit "EC ") as [p Hp]. exists p. rewrite !elem_of_app. by left; right; left.
  - destruct (Hlit "OPENSSH ") as [p Hp]. exists p. rewrite !elem_of_app. by left; right; right.
Qed.

Lemma word_ok c : is_digit c || is_upper c = true → is_word c = true.
Proof. unfold is_digit, is_upper, is_word. intros. cbv zeta in *. lia. Qed.

Lemma leak_found rule content : leaks rule content →
  ∃ r, (rule, r) ∈ SECRET_RULES ∧ search r content = true.
Proof.
  intros [pre kind post Hk|pre key post Hpre Hpost Hlen Hkey].
  - exists private_key. split; [by left|]. unfold search. rewrite to_list_app. apply search_here.
    intros prev _ _. rewrite !to_list_app. unfold private_key. cbn [in_order].
    destruct (ends_exactly (to_list "-----BEGIN ") (to_list kind ++ to_list "PRIVATE KEY-----" ++ to_list post) prev) as [p1 H1].
    destruct (kind_matches kind (to_list "PRIVATE KEY-----" ++ to_list post) p1 Hk) as [p2 H2].
    destruct (ends_exactly (to_list "PRIVATE KEY-----") (to_list post) p2) as [p3 H3].
    exists (p3, to_list post). eapply ends_cat; [exact H1|]. eapply ends_cat; [exact H2|].
    eapply ends_cat; [exact H3|]. by left.
  - exists aws_access_key. split; [by right; left|]. unfold search. rewrite to_list_app. apply search_here.
    intros prev _ ->. rewrite !to_list_app. unfold aws_access_key. cbn [in_order].
    destruct (ends_exactly (to_list "AKIA") (to_list key ++ to_list post) (last (to_list pre))) as [p1 H1].
    destruct (ends_copies _ _ (to_list post) Hkey p1) as (p2 & H2 & Ep2).
    rewrite to_list_length, Hlen in H2.
    exists (p2, to_list post). eapply ends_cat; [|eapply ends_cat; [exact H1|eapply ends_cat; [exact H2|]]].
    + cbn [ends fst snd]. rewrite Hpre. cbn. by left.
    + assert (Hw : word_at p2 = true).
      { subst p2. destruct (last (to_list key)) as [c|] eqn:El.
        - simpl. apply word_ok. apply last_Some in El as [l El]. rewrite El, forallb_app in Hkey.
          apply andb_true_iff in Hkey as [_ Hc]. simpl in Hc. by rewrite andb_true_r in Hc.
        - apply last_None in El. apply (f_equal length) in El. rewrite to_list_length, Hlen in El. done. }
      eapply ends_cat; [|by left]. cbn [ends fst snd]. rewrite Hw, Hpost. cbn. by left.
Qed.

Lemma scan_artifact_rule py_str limit a rule r : (rule, r) ∈ SECRET_RULES → search r (text_field py_str "content" a) = true →
  mk_finding rule "critical" (text_field py_str "filename" a) ∈ scan_artifact py_str limit a.
Proof.
  intros Hr Hs. unfold scan_artifact. rewrite !elem_of_app. right. right.
  apply (list_elem_of_fmap_2' _ _ (rule, r)); [|done].
  apply list_elem_of_In, filter_In. by rewrite <-list_elem_of_In.
Qed.

Lemma status_passed fs : status_of fs = "passed" ↔ fs = [].
Proof.
  unfold status_of. destruct fs as [|f fs]; [done|]. destruct (existsb _ _); by split.
Qed.

(** C27: leaked keys do not get past the scan. An artifact whose text holds a
    private key's header or an AWS key id, anywhere, blocks the whole set unless a
    named reviewer approved that very finding of that very file; and a set passes
    exactly when every finding was approved in that way. *)
Theorem leaked_keys_are_blocked py_str limit o artifacts a rule :
  a ∈ artifacts → leaks rule (text_field py_str "content" a) →
  accepted o (mk_finding rule "critical" (text_field py_str "filename" a)) = false →
  sc_status (scan_artifacts py_str limit o artifacts) = "blocked"
  ∧ require_safe_artifacts py_str limit artifacts = Raise ValueError
  ∧ ∀ o', sc_status (scan_artifacts py_str limit o' artifacts) = "passed" ↔
      Forall (λ f, accepted o' f = true) (flat_map (scan_artifact py_str limit) artifacts).
Proof.
  intros Ha Hl Hacc. apply leak_found in Hl as (r & Hr & Hs).
  pose proof (scan_artifact_rule py_str limit a rule r Hr Hs) as Hf.
  assert (Hall : mk_finding rule "critical" (text_field py_str "filename" a) ∈ flat_map (scan_artifact py_str limit) artifacts)
    by (apply list_elem_of_In, in_flat_map; exists a; by rewrite <-!list_elem_of_In).
  assert (Hblock : ∀ o, accepted o (mk_finding rule "critical" (text_field py_str "filename" a)) = false →
    sc_status (scan_artifacts py_str limit o artifacts) = "blocked").
  { intros o1 H1. simpl. unfold status_of.
    assert (He : existsb (λ f, String.eqb (f_severity f) "critical")
      (List.filter (λ f, negb (accepted o1 f)) (flat_map (scan_artifact py_str limit) artifacts)) = true); [|by rewrite He].
    apply existsb_exists. exists (mk_finding rule "critical" (text_field py_str "filename" a)). split; [|done].
    apply filter_In. rewrite <-list_elem_of_In. split; [exact Hall|by rewrite H1]. }
  split_and!; [by apply Hblock| |].
  - unfold require_safe_artifacts. cbv zeta. by rewrite Hblock.
  - intros o'. simpl. rewrite status_passed, Forall_forall. split.
    + intros Hnil f Hin. destruct (accepted o' f) eqn:E; [done|].
      assert (Hf' : f ∈ List.filter (λ f, negb (accepted o' f)) (flat_map (scan_artifact py_str limit) artifacts))
        by (apply list_elem_of_In, filter_In; rewrite <-list_elem_of_In; split; [done|by rewrite E]).
      rewrite Hnil in Hf'. by apply elem_of_nil in Hf'.
    + clear. generalize (flat_map (scan_artifact py_str limit) artifacts). intros fs H.
      induction fs as [|f fs IH]; [done|]. simpl.
      rewrite (H f) by (by left). simpl. apply IH. intros g Hg. apply H. by right.
Qed.

Module ScanDemo.
Definition leak : jdict :=
  [("filename", JStr "deploy.py"); ("content", JStr "id = 'AKIA1234567890ABCDEF' # prod")].
Definition reviewed : ArtifactScanOverride := mk_override "ann" "approved" ["deploy.py:aws-access-key"].
End ScanDemo.
Import ScanDemo.

Lemma leak_leaks : leaks "aws-access-key" (text_field (λ _, "") "content" leak).
Proof. apply (leak_aws_key "id = '" "1234567890ABCDEF" "' # prod"); reflexivity. Qed.

Lemma leaked_keys_are_blocked_witness :
  sc_status (scan_artifacts (λ _, "") 1000 (Some (mk_override " " "approved" ["deploy.py:aws-access-key"])) [leak]) = "blocked"
  ∧ sc_status (scan_artifacts (λ _, "") 1000 (Some reviewed) [leak]) = "passed".
Proof.
  destruct (leaked_keys_are_blocked (λ _, "") 1000 (Some (mk_override " " "approved" ["deploy.py:aws-access-key"]))
    [leak] leak "aws-access-key" ltac:(by left) leak_leaks eq_refl) as (Hb & _ & Hp).
  exact (conj Hb (proj2 (Hp (Some reviewed)) ltac:(repeat constructor))).
Defined.
