(* ===== verification/Wormhole.v ===== *)
(** core/a2a, the outbound side: the client of client.py and the gateway agent of
    agent.py, which offers the skills of remote agents.

    The network is a state and a function that answers one HTTP call; what was sent is
    recorded. [urlsplit] is modelled as far as [_origin] reads it; whether it accepts a
    bracketed host is an argument, as are [json.loads], [str] of a JSON value that is no
    string, drawn identifiers and, for the polling loop, whether the deadline had
    passed at each test. *)

From S2P Require Import Prelude.
From S2P Require Import PyStr.
From S2P Require Import PyTime.
From S2P Require Import Json.
From S2P Require Import PyDict.
From S2P Require Import Contracts.
From S2P Require Import Registry.
From S2P Require Import A2A.
From Stdlib Require Import Ascii.
Open Scope Z_scope.

Definition AGENT_CARD_PATH : string := "/.well-known/agent-card.json".
Definition MAX_RESPONSE_BYTES : Z := 5000000.

(** ** Where a URL leads *)

Definition is_alpha (c : ascii) : bool :=
  let n := nat_of_ascii c in ((65 <=? n) && (n <=? 90) || (97 <=? n) && (n <=? 122))%nat.
Definition scheme_char (c : ascii) : bool :=
  let n := nat_of_ascii c in is_alpha c || ((48 <=? n) && (n <=? 57))%nat || bool_decide (c ∈ to_list "+-.").

Fixpoint drop_control (l : list ascii) : list ascii :=
  match l with
  | [] => []
  | c :: l' => if (nat_of_ascii c <=? 32)%nat then drop_control l' else l
  end.

(** The text before the first of "/?#". *)
Fixpoint until_path (l : list ascii) : list ascii :=
  match l with
  | [] => []
  | c :: l => if bool_decide (c ∈ to_list "/?#") then [] else c :: until_path l
  end.

Section Urls.
Context (bracket_ok : string → bool).

(** The scheme and network location [urlsplit] finds. *)
Definition urlsplit (url : string) : result (string * string) :=
  let l := List.filter (λ c, negb (bool_decide (nat_of_ascii c ∈ [9; 10; 13]%nat))) (drop_control (to_list url)) in
  let '(scheme, l) := match cut ":" l with
    | (s, Some rest) =>
        match s with
        | c :: _ => if is_alpha c && forallb scheme_char s then (lower (of_list s), rest) else ("", l)
        | [] => ("", l)
        end
    | (_, None) => ("", l)
    end in
  let netloc := match l with
    | a :: b :: rest => if Ascii.eqb a "/" && Ascii.eqb b "/" then until_path rest else []
    | _ => [] end in
  let opens := bool_decide ("["%char ∈ netloc) in
  let closes := bool_decide ("]"%char ∈ netloc) in
  rguard (Bool.eqb opens closes && (negb opens || bracket_ok (of_list netloc))) ValueError;;
  Ok (scheme, of_list netloc).

(** [_origin]. *)
Definition origin_of (url : string) : result (string * string) :=
  p ← urlsplit url;
  Ok (p.1, lower p.2).
End Urls.

Record http_call := mk_call {
  hc_post : bool;
  hc_url : string;
  hc_headers : list (string * string);
  hc_json : json }.

Record http_response := mk_response {
  hr_status : Z;
  hr_content : string }.

Record RemoteResult := mk_remote {
  rr_state : string;
  rr_text : string;
  rr_data : list json;
  rr_raw : jdict }.

(** ** Reading a task *)

(** [_parts_text] of a list of parts. *)
Definition part_text (part : json) : option string :=
  match part with
  | JObj p => match obj_field "text" p with JStr s => Some s | _ => None end
  | _ => None
  end.
Definition parts_text (parts : json) : result (list string) :=
  l ← py_iter (jor parts (JArr []));
  Ok (omap part_text (l : list json)).

(** [_task_state]. *)
Definition task_state (task : jdict) : result string :=
  let state := match obj_field "status" task with JObj s => obj_field "state" s | _ => JNull end in
  match obj_field "id" task, state with
  | JStr _, JStr s => Ok s
  | _, _ => Raise (A2AClientError "remote returned a malformed task")
  end.

Definition part_data (part : json) : option json :=
  match part with JObj p => obj_get "data" p | _ => None end.

(** The texts and data of one artifact. *)
Definition artifact_parts (a : json) : result (list string * list json) :=
  match a with
  | JObj a =>
      texts ← parts_text (obj_field "parts" a);
      l ← py_iter (jor (obj_field "parts" a) (JArr []));
      Ok (texts, omap part_data (l : list json))
  | _ => Ok ([], [])
  end.

Definition newline : string := String (ascii_of_nat 10) EmptyString.

(** [_task_result]. *)
Definition task_result (task : jdict) : result RemoteResult :=
  state ← task_state task;
  let message := match obj_field "status" task with JObj s => obj_field "message" s | _ => JNull end in
  said ← match message with JObj m => parts_text (obj_field "parts" m) | _ => Ok [] end;
  arts ← py_iter (jor (obj_field "artifacts" task) (JArr []));
  arts ← rmap artifact_parts arts;
  Ok (mk_remote state (join newline (said ++ List.concat arts.*1)) (List.concat arts.*2) task).

(** ** The client *)

Record A2AClient := mk_client {
  cl_base : string;
  cl_token : option string }.

(** [A2AClient(url, token=...)]. *)
Definition new_client (url : string) (token : option string) : A2AClient := mk_client (rstrip_chars url "/") token.

(** [_headers]: an empty token is none. *)
Definition headers (c : A2AClient) : list (string * string) :=
  [("A2A-Version", A2A_VERSION); ("Accept", "application/json")]
  ++ match cl_token c with
     | Some t => if truthy_str t then [("Authorization", "Bearer " +:+ t)] else []
     | None => []
     end.

Section Client.
Context {X : Type} (transport : http_call → X → (string + http_response) * X).
Context (json_loads : string → result json) (py_str : json → string) (bracket_ok : string → bool).

Record net := mk_net {
  nt_state : X;
  nt_sent : list http_call }.

Definition say (v : json) : string := match v with JStr s => s | _ => py_str v end.

(** One call; an [httpx.HTTPError] is the name of its class. *)
Definition http (h : http_call) : M net (string + http_response) := λ n,
  let '(r, x) := transport h (nt_state n) in (Ok r, mk_net x (nt_sent n ++ [h])).

Definition fetch_failed {A} (why : string) : result A := Raise (A2AClientError ("agent card fetch failed: " +:+ why)).

(** What [fetch_card] makes of the answer. *)
Definition read_card (r : string + http_response) : result jdict :=
  match r with
  | inl name => fetch_failed name
  | inr resp =>
      if negb (hr_status resp =? 200) then fetch_failed ("HTTP " +:+ py_int (hr_status resp))
      else match json_loads (hr_content resp) with
           | Raise ValueError => fetch_failed "invalid JSON"
           | Raise e => Raise e
           | Ok (JObj body) => Ok body
           | Ok _ => fetch_failed "card is not an object"
           end
  end.

Definition fetch_card (c : A2AClient) : M net jdict :=
  r ← http (mk_call false (cl_base c +:+ AGENT_CARD_PATH) (headers c) JNull);
  mlift (read_card r).

(** [v in JSONRPC_BINDINGS]. *)
Definition known_binding (v : json) : result bool :=
  match v with
  | JArr _ | JObj _ => Raise TypeError
  | JStr s => Ok (bool_decide (s ∈ JSONRPC_BINDINGS))
  | _ => Ok false
  end.

(** The condition on one interface: the URL to call, if it qualifies. *)
Definition usable (c : A2AClient) (interface : json) : result (option string) :=
  match interface with
  | JObj i =>
      known ← known_binding (obj_field "protocolBinding" i);
      if known && is_str (obj_field "protocolVersion" i) A2A_VERSION then
        match obj_field "url" i with
        | JStr url =>
            if startswith url "http://" || startswith url "https://" then
              a ← origin_of bracket_ok url;
              b ← origin_of bracket_ok (cl_base c);
              Ok (if bool_decide (a = b) then Some url else None)
            else Ok None
        | _ => Ok None
        end
      else Ok None
  | _ => Ok None
  end.

Fixpoint first_usable (c : A2AClient) (l : list json) : result string :=
  match l with
  | [] => Raise (A2AClientError "agent has no JSON-RPC 1.0 interface on its own host")
  | i :: l =>
      u ← usable c i;
      match u with Some url => Ok url | None => first_usable c l end
  end.

(** [_pick_interface]. *)
Definition pick_interface (c : A2AClient) (card : jdict) : result string :=
  l ← py_iter (jor (obj_field "supportedInterfaces" card) (JArr []));
  first_usable c l.

Definition call_failed {A} (method why : string) : result A :=
  Raise (A2AClientError (method +:+ " failed: " +:+ why)).

(** What [_call] makes of the answer. *)
Definition read_reply (method : string) (r : string + http_response) : result jdict :=
  match r with
  | inl name => call_failed method name
  | inr resp =>
      if negb (hr_status resp =? 200) then call_failed method ("HTTP " +:+ py_int (hr_status resp))
      else if MAX_RESPONSE_BYTES <? Z.of_nat (String.length (hr_content resp))
      then call_failed method "response too large"
      else match json_loads (hr_content resp) with
           | Raise ValueError => call_failed method "invalid JSON"
           | Raise e => Raise e
           | Ok (JObj payload) =>
               match obj_field "error" payload with
               | JObj error => call_failed method (say (obj_field "code" error) +:+ " "
                   +:+ of_list (take 200 (to_list (say (obj_field "message" error)))))
               | _ => match obj_field "result" payload with
                      | JObj result => Ok result
                      | _ => call_failed method "missing result"
                      end
               end
           | Ok _ => call_failed method "invalid response"
           end
  end.

(** [_call] with the drawn request id. *)
Definition rpc_call (c : A2AClient) (rpc_url id method : string) (params : jdict) : M net jdict :=
  r ← http (mk_call true rpc_url (headers c)
        (JObj [("jsonrpc", JStr "2.0"); ("id", JStr id); ("method", JStr method); ("params", JObj params)]));
  mlift (read_reply method r).

(** [except A2AClientError]. *)
Definition quietly {A} (m : M net A) (k : A → A) (dflt : A) : M net A := λ n,
  match m n with
  | (Ok a, n') => (Ok (k a), n')
  | (Raise (A2AClientError _), n') => (Ok dflt, n')
  | (Raise e, n') => (Raise e, n')
  end.

Definition offers_extended (c : A2AClient) (card : jdict) : bool :=
  truthy_str (or_else (cl_token c) "") &&
  match obj_field "capabilities" card with
  | JObj caps => bool_decide (obj_field "extendedAgentCard" caps = JBool true)
  | _ => false
  end.

Definition with_skills (card extended : jdict) : jdict :=
  match obj_field "skills" extended with
  | JArr l => obj_set "skills" (JArr l) card
  | _ => card
  end.

(** [connect]: the URL for calls, and the card. *)
Definition connect (c : A2AClient) (id : string) : M net (string * jdict) :=
  card ← fetch_card c;
  url ← mlift (pick_interface c card);
  if offers_extended c card then
    card ← quietly (rpc_call c url id "GetExtendedAgentCard" []) (with_skills card) card;
    mret (url, card)
  else mret (url, card).

Definition cancel_quietly (c : A2AClient) (url req_id : string) (task : json) : M net unit :=
  quietly (rpc_call c url req_id "CancelTask" [("id", task)]) (λ r, r) [];;
  mret tt.

(** One test of the deadline in the loop of [execute], with the ids its calls draw. *)
Record turn := mk_turn {
  tn_overdue : bool;
  tn_id : string }.

(** The loop of [execute]; [None] when the turns run out. *)
Fixpoint await (c : A2AClient) (url : string) (task : jdict) (turns : list turn) : M net (option RemoteResult) :=
  state ← mlift (task_state task);
  if bool_decide (state ∈ STOP_STATES) then r ← mlift (task_result task); mret (Some r)
  else match turns with
       | [] => mret None
       | t :: turns =>
           if tn_overdue t then
             cancel_quietly c url (tn_id t) (obj_field "id" task);;
             mraise (A2AClientError "timed out waiting for remote task")
           else
             task ← rpc_call c url (tn_id t) "GetTask" [("id", obj_field "id" task)];
             await c url task turns
       end.

(** The message of [execute]. *)
Definition message_for (mid skill : string) (payload : jdict) : jdict :=
  let text := strip (join " " (omap (λ kv, match kv.2 with JStr s => Some s | _ => None end) payload)) in
  [("messageId", JStr mid); ("role", JStr ROLE_USER);
   ("parts", JArr ((if truthy_str text then [JObj [("text", JStr text)]] else [])
     ++ [JObj [("data", JObj [("skill", JStr skill); ("payload", JObj payload)])]]))].

(** What follows the answer to SendMessage: a message is the result, a task is awaited. *)
Definition follow_reply (c : A2AClient) (url : string) (turns : list turn) (reply : jdict) :
    M net (option RemoteResult) :=
  match obj_has "task" reply, obj_field "message" reply with
  | false, JObj m =>
      text ← mlift (parts_text (obj_field "parts" m));
      mret (Some (mk_remote STATE_COMPLETED (join newline text) [] m))
  | _, _ =>
      match obj_default "task" (JObj reply) reply with
      | JObj task => await c url task turns
      | _ => mraise AttributeError
      end
  end.

(** The rest of [execute], once the URL is known. *)
Definition submit (c : A2AClient) (url mid send_id skill : string) (payload : jdict) (turns : list turn) :
    M net (option RemoteResult) :=
  reply ← rpc_call c url send_id "SendMessage" [("message", JObj (message_for mid skill payload))];
  follow_reply c url turns reply.

(** [execute], connecting first when the client has no URL yet. *)
Definition execute (c : A2AClient) (rpc_url : option string) (connect_id mid send_id skill : string)
    (payload : jdict) (turns : list turn) : M net (option RemoteResult) :=
  url ← match rpc_url with
        | Some url => mret url
        | None => r ← connect c connect_id; mret r.1
        end;
  submit c url mid send_id skill payload turns.
End Client.

(** ** The gateway agent *)

Definition remote_id_char (c : ascii) : bool := is_word c || bool_decide (c ∈ to_list ".:-").

(** [SkillDefinition(...)]: the texts are stripped and must not be blank. *)
Definition validate_skill (s : SkillDefinition) : result SkillDefinition :=
  id ← validate_non_empty_str (skill_id s);
  d ← validate_non_empty_str (description s);
  rguard (unit_interval (avg_confidence s) && (0 <=? avg_latency_ms s)) ValueError;;
  Ok (mk_Skill id d (input_schema s) (output_schema s) (avg_confidence s) (avg_latency_ms s) (allowed_origins s)).

Record agent_status := mk_agent_status {
  as_name : string;
  as_ok : bool;
  as_error : option string;
  as_skills : list (string * string);
  as_allowed : option (list string) }.

(** [_clients] (with the URL each is connected to), [_skills], [_status], and the
    definitions collected for Pulsar. *)
Record gateway := mk_gateway {
  gw_clients : list (string * (A2AClient * string));
  gw_skills : list (string * (string * string));
  gw_status : list agent_status;
  gw_definitions : list SkillDefinition }.

Definition gateway_skill (name remote : string) : string := "wormhole." +:+ name +:+ "." +:+ remote.

Section Gateway.
Context {X : Type} (transport : http_call → X → (string + http_response) * X).
Context (json_loads : string → result json) (py_str : json → string) (bracket_ok : string → bool).
Context (model_dump : SkillManifest → json).

(** The remote skill an entry of a card stands for: its id and description. *)
Definition remote_skill (remote : json) : option (string * string) :=
  match remote with
  | JObj r =>
      match obj_field "id" r with
      | JStr rid =>
          if matches_plus remote_id_char rid then
            let d := obj_field "description" r in
            let d := strip (if truthy d then say py_str d else "") in
            Some (rid, if truthy_str d then d else rid)
          else None
      | _ => None
      end
  | _ => None
  end.

(** One entry of the card's skills, collected for [cfg]. *)
Definition add_remote (cfg : AgentConfig) (acc : list (string * (string * string)) * list (string * string)
    * list SkillDefinition) (remote : json) :
    result (list (string * (string * string)) * list (string * string) * list SkillDefinition) :=
  let '(targets, listed, defs) := acc in
  match remote_skill remote with
  | None => Ok acc
  | Some (rid, d) =>
      let sid := gateway_skill (a_name cfg) rid in
      def ← validate_skill (mk_Skill sid d [] [] (9 # 10) 1000 (a_allowed cfg));
      Ok (assoc_set sid (a_name cfg, rid) targets, listed ++ [(sid, d)], defs ++ [def])
  end.

Fixpoint add_remotes cfg acc (l : list json) :
    result (list (string * (string * string)) * list (string * string) * list SkillDefinition) :=
  match l with
  | [] => Ok acc
  | r :: l => acc ← add_remote cfg acc r; add_remotes cfg acc l
  end.

(** One turn of the loop of [__init__]: an agent that cannot be reached is skipped. *)
Definition join_agent (id : string) (cfg : AgentConfig) (g : gateway) : M (net (X:=X)) gateway := λ n,
  let c := new_client (a_url cfg) (a_token cfg) in
  let status ok err skills := mk_agent_status (a_name cfg) ok err skills (a_allowed cfg) in
  match connect transport json_loads py_str bracket_ok c id n with
  | (Raise (A2AClientError why), n) =>
      (Ok (mk_gateway (gw_clients g) (gw_skills g) (gw_status g ++ [status false (Some why) []]) (gw_definitions g)), n)
  | (Raise e, n) => (Raise e, n)
  | (Ok (url, card), n) =>
      (l ← py_iter (jor (obj_field "skills" card) (JArr []));
       r ← add_remotes cfg (gw_skills g, [], gw_definitions g) l;
       let '(targets, listed, defs) := r in
       Ok (mk_gateway (assoc_set (a_name cfg) (c, url) (gw_clients g)) targets
             (gw_status g ++ [status true None listed]) defs), n)
  end.

Fixpoint join_agents (ids : nat → string) (cfgs : list AgentConfig) (g : gateway) : M net gateway :=
  match cfgs with
  | [] => mret g
  | cfg :: cfgs => g ← join_agent (ids (length cfgs)) cfg g; join_agents ids cfgs g
  end.

Definition AGENT_ID : string := "wormhole".

(** What [__init__] tells Pulsar: the manifest, or the removal of a stale one. *)
Definition announce (now : time) (g : gateway) (r : registry) : registry :=
  match gw_definitions g with
  | [] => match get_agent AGENT_ID r with Some _ => deregister AGENT_ID r | None => r end
  | defs => register model_dump (mk_Manifest AGENT_ID "Wormhole A2A Gateway" "0.1.0" defs
              "http://wormhole:8000/health" now 30) r
  end.

(** [run] of the agent: confidence is one or zero. *)
Definition run_result (r : RemoteResult) : jdict :=
  let succeeded := String.eqb (rr_state r) STATE_COMPLETED in
  let confidence := JFloat (if succeeded then 1 else 0) in
  let gap := if truthy_str (rr_text r) then rr_text r else "remote task ended as " +:+ rr_state r in
  [("state", JStr (rr_state r)); ("text", JStr (rr_text r)); ("data", JArr (rr_data r)); ("artifacts", JArr []);
   ("summary", JStr (rr_text r)); ("writable", JBool false); ("confidence", confidence);
   ("confidence_breakdown", JObj [("structural", confidence); ("self_critique", confidence);
                                  ("historical", JFloat (1 # 2))]);
   ("gaps", if succeeded then JArr [] else JArr [JStr gap]); ("execution_result", JNull);
   ("externally_calibrated", JBool false)].

Definition run (g : gateway) (mid send_id skill : string) (payload : jdict) (turns : list turn) :
    M net (option jdict) :=
  match assoc_get skill (gw_skills g) with
  | None => mraise ValueError
  | Some (name, rid) =>
      match assoc_get name (gw_clients g) with
      | None => mraise KeyError
      | Some (c, url) =>
          r ← execute transport json_loads py_str bracket_ok c (Some url) "" mid send_id rid payload turns;
          mret (run_result <$> r)
      end
  end.
End Gateway.

(** ** Where tokens go *)

Section Tokens.
Context {X : Type} (transport : http_call → X → (string + http_response) * X).
Context (json_loads : string → result json) (py_str : json → string) (bracket_ok : string → bool).

(** A computation all of whose calls satisfy [P]. *)
Definition sends (P : http_call → Prop) {A} (m : M (net (X:=X)) A) : Prop :=
  ∀ n, ∃ new, nt_sent (m n).2 = nt_sent n ++ new ∧ Forall P new.

(** The same home: the scheme and host of the configured URL. *)
Definition same_home (c : A2AClient) (url : string) : Prop :=
  ∃ o, origin_of bracket_ok url = Ok o ∧ origin_of bracket_ok (cl_base c) = Ok o.

(** A call of [c]: to its card, or to its own host. *)
Definition at_home (c : A2AClient) (h : http_call) : Prop :=
  hc_headers h = headers c ∧ (hc_url h = cl_base c +:+ AGENT_CARD_PATH ∨ same_home c (hc_url h)).

Lemma sends_nothing {A} P (f : net → result A) : sends P (λ n, (f n, n)).
Proof. intros n. exists []. by rewrite app_nil_r. Qed.

Lemma sends_bind {A B} P (m : M net A) (k : A → M net B) :
  sends P m → (∀ n a n', m n = (Ok a, n') → ∃ new, nt_sent (k a n').2 = nt_sent n' ++ new ∧ Forall P new) →
  sends P (m ≫= k).
Proof.
  intros Hm Hk n. destruct (Hm n) as (new & E & F). unfold mbind, M_bind.
  destruct (m n) as [[a|e] n'] eqn:En; simpl in *; [|by exists new].
  destruct (Hk _ _ _ En) as (new' & -> & F'). exists (new ++ new'). rewrite E, app_assoc.
  split; [done|]. by apply Forall_app.
Qed.

Lemma sends_seq {A B} P (m : M net A) (k : A → M net B) : sends P m → (∀ a, sends P (k a)) → sends P (m ≫= k).
Proof. intros Hm Hk. apply sends_bind; [done|]. intros n a n' _. apply Hk. Qed.

Lemma sends_http (P : http_call → Prop) h : P h → sends P (http transport h).
Proof.
  intros Hh n. unfold http. destruct (transport h (nt_state n)). exists [h]. split; [done|]. by constructor.
Qed.

Lemma rpc_at_home c url id method params : same_home c url →
  sends (at_home c) (rpc_call transport json_loads py_str c url id method params).
Proof.
  intros Hu. unfold rpc_call. apply sends_seq; [|intros r; apply sends_nothing].
  apply sends_http. split; [done|by right].
Qed.

Lemma quietly_sends {A} P (m : M net A) k d : sends P m → sends P (quietly m k d).
Proof.
  intros Hm n. destruct (Hm n) as (new & E & F). exists new. split; [|done]. rewrite <-E.
  unfold quietly. destruct (m n) as [[a|[]] n']; done.
Qed.

Lemma first_usable_home c l url : first_usable bracket_ok c l = Ok url → same_home c url.
Proof.
  induction l as [|i l IH]; [done|]. simpl. intros H. apply rbind_ok in H as (u & Hu & H).
  destruct u as [url'|]; [|by apply IH]. injection H as ->. unfold usable in Hu.
  destruct i as [| | | | | |i]; try done. apply rbind_ok in Hu as (known & _ & Hu).
  destruct (known && _); [|done]. destruct (obj_field "url" i) as [| | | |s| |]; try done.
  destruct (startswith s "http://" || _); [|done]. apply rbind_ok in Hu as (a & Ha & Hu).
  apply rbind_ok in Hu as (b & Hb & Hu). case_bool_decide; simplify_eq. by exists b.
Qed.

Lemma connect_at_home c id : sends (at_home c) (connect transport json_loads py_str bracket_ok c id)
  ∧ ∀ n url card n', connect transport json_loads py_str bracket_ok c id n = (Ok (url, card), n') → same_home c url.
Proof.
  assert (Hfetch : sends (at_home c) (fetch_card transport json_loads c)).
  { unfold fetch_card. apply sends_seq; [|intros r; apply sends_nothing]. apply sends_http. split; [done|by left]. }
  assert (Hpick : ∀ card url, pick_interface bracket_ok c card = Ok url → same_home c url).
  { intros card url H. unfold pick_interface in H. apply rbind_ok in H as (l & _ & H). by eapply first_usable_home. }
  split.
  - unfold connect. apply sends_seq; [done|]. intros card. apply sends_bind; [apply sends_nothing|].
    intros n url n' Hu. unfold mlift in Hu. injection Hu as Hu _. apply Hpick in Hu.
    revert n'. change (sends (at_home c) (if offers_extended c card then
      card0 ← quietly (rpc_call transport json_loads py_str c url id "GetExtendedAgentCard" []) (with_skills card) card;
      mret (url, card0) else mret (url, card))).
    destruct (offers_extended c card); [|apply sends_nothing].
    apply sends_seq; [|intros ?; apply sends_nothing]. by apply quietly_sends, rpc_at_home.
  - intros n url card n' H. unfold connect in H. apply mbind_ok in H as (card0 & n1 & _ & H).
    apply mbind_ok in H as (url0 & n2 & Hu & H). unfold mlift in Hu. injection Hu as Hu ->.
    apply Hpick in Hu. destruct (offers_extended c card0).
    + apply mbind_ok in H as (card1 & n3 & _ & H). unfold mret, M_ret in H. by simplify_eq.
    + unfold mret, M_ret in H. by simplify_eq.
Qed.

Lemma await_at_home c url turns : same_home c url → ∀ task,
  sends (at_home c) (await transport json_loads py_str c url task turns).
Proof.
  intros Hu. induction turns as [|t turns IH]; intros task; simpl;
    (apply sends_seq; [apply sends_nothing|]; intros state; case_bool_decide;
      [apply sends_seq; [apply sends_nothing|intros r; apply sends_nothing]|]); [apply sends_nothing|].
  destruct (tn_overdue t).
  - apply sends_seq; [|intros ?; apply sends_nothing]. unfold cancel_quietly.
    apply sends_seq; [|intros ?; apply sends_nothing]. by apply quietly_sends, rpc_at_home.
  - apply sends_seq; [by apply rpc_at_home|done].
Qed.

Lemma follow_reply_at_home c url turns reply : same_home c url →
  sends (at_home c) (follow_reply transport json_loads py_str c url turns reply).
Proof.
  intros Hu. unfold follow_reply.
  assert (Ht : sends (at_home c) (match obj_default "task" (JObj reply) reply with
    | JObj task => await transport json_loads py_str c url task turns | _ => mraise AttributeError end)).
  { destruct (obj_default _ _ _); try apply sends_nothing. by apply await_at_home. }
  destruct (obj_has "task" reply); [exact Ht|]. destruct (obj_field "message" reply); try exact Ht.
  apply sends_seq; [apply sends_nothing|]. intros text. apply sends_nothing.
Qed.

(** C23: a token never leaves its host. Whatever the remote agent's card, answers
    and errors hold, every call a client makes while it connects, submits a task,
    polls it and cancels it goes to the card's path below the configured URL or to a
    URL of the same scheme and host, with that client's own headers. *)
Theorem tokens_stay_on_their_host c connect_id mid send_id skill payload turns n x n' :
  execute transport json_loads py_str bracket_ok c None connect_id mid send_id skill payload turns n = (x, n') →
  ∃ new, nt_sent n' = nt_sent n ++ new ∧ Forall (at_home c) new.
Proof.
  intros H. assert (Hs : sends (at_home c)
    (execute transport json_loads py_str bracket_ok c None connect_id mid send_id skill payload turns)).
  { unfold execute. apply sends_bind.
    - apply sends_seq; [apply connect_at_home|]. intros r. apply sends_nothing.
    - intros n0 url n1 Hc. apply mbind_ok in Hc as ([url' card] & n2 & Hc & Hr).
      unfold mret, M_ret in Hr. injection Hr as <- <-. apply connect_at_home in Hc.
      revert n2. change (sends (at_home c) (submit transport json_loads py_str c url' mid send_id skill payload turns)).
      apply sends_seq; [by apply rpc_at_home|]. intros reply. by apply follow_reply_at_home. }
  specialize (Hs n). by rewrite H in Hs.
Qed.
End Tokens.

(** ** A remote agent, and two hostile cards *)

Module WormholeDemo.

Definition interface (url : string) : json :=
  JObj [("url", JStr url); ("protocolBinding", JStr "JSONRPC"); ("protocolVersion", JStr "1.0")].

Definition task_in (state : string) : json :=
  JObj [("task", JObj [("id", JStr "t1"); ("status", JObj [("state", JStr state)])])].

(** What the remote agent's texts decode to. *)
Definition loads (s : string) : result json :=
  if String.eqb s "card" then Ok (JObj [("supportedInterfaces", JArr [interface "https://evil.example/rpc";
      interface "HTTPS://agent.example/rpc"; interface "https://Agent.Example/rpc"])])
  else if String.eqb s "broken card" then Ok (JObj [("supportedInterfaces", JArr [interface "http://["])])
  else if String.eqb s "strange card" then
    Ok (JObj [("supportedInterfaces", JArr [JObj [("protocolBinding", JArr [])]])])
  else if String.eqb s "working" then Ok (JObj [("result", task_in "TASK_STATE_WORKING")])
  else if String.eqb s "done" then
    Ok (JObj [("result", JObj [("id", JStr "t1"); ("status", JObj [("state", JStr STATE_COMPLETED);
        ("message", JObj [("parts", JArr [JObj [("text", JStr "pong")]])])])])])
  else Raise ValueError.

Definition method (h : http_call) : json := match hc_json h with JObj b => obj_field "method" b | _ => JNull end.

(** The state is the text of the card to serve. *)
Definition remote (h : http_call) (card : string) : (string + http_response) * string :=
  (inr (mk_response 200 (if is_str (method h) "SendMessage" then "working"
                         else if is_str (method h) "GetTask" then "done" else card)), card).

Definition client : A2AClient := new_client "https://agent.example/" (Some "secret").
Definition str_of (_ : json) : string := "".
Definition no_brackets (_ : string) : bool := false.
Definition asked : result (option RemoteResult) * net :=
  execute remote loads str_of no_brackets client None "i1" "m1" "i2" "ping" [("text", JStr "hello")]
    [mk_turn false "i3"] (mk_net "card" []).

Example the_task_is_followed :
  (match asked.1 with Ok (Some r) => Some (rr_state r, rr_text r) | _ => None end) = Some (STATE_COMPLETED, "pong")
  ∧ List.map hc_url (nt_sent asked.2) = ["https://agent.example/.well-known/agent-card.json";
      "https://Agent.Example/rpc"; "https://Agent.Example/rpc"].
Proof. split; vm_compute; reflexivity. Qed.
End WormholeDemo.

Lemma tokens_stay_on_their_host_witness : ∃ x n' new,
  WormholeDemo.asked = (x, n') ∧ nt_sent n' = [] ++ new ∧ length new = 3%nat
  ∧ Forall (at_home WormholeDemo.no_brackets WormholeDemo.client) new.
Proof.
  exists WormholeDemo.asked.1, WormholeDemo.asked.2.
  destruct (tokens_stay_on_their_host WormholeDemo.remote WormholeDemo.loads WormholeDemo.str_of
    WormholeDemo.no_brackets WormholeDemo.client "i1" "m1" "i2" "ping" [("text", JStr "hello")]
    [mk_turn false "i3"] (mk_net "card" []) WormholeDemo.asked.1 WormholeDemo.asked.2) as (new & E & F).
  - vm_compute. reflexivity.
  - exists new. split_and!; [by destruct WormholeDemo.asked|exact E| |exact F].
    rewrite <-(app_nil_l new). change [] with (nt_sent (mk_net (X:=string) "card" [])). rewrite <-E.
    vm_compute. reflexivity.
Defined.

(** An interface whose URL does not parse, or whose binding is a list, is no
    [A2AClientError]: the gateway's constructor, which catches nothing else, fails. *)
Example a_bad_card_stops_the_gateway :
  let cfg := mk_Agent "agent" "https://agent.example" None 60 None in
  let join card := (join_agent WormholeDemo.remote WormholeDemo.loads WormholeDemo.str_of WormholeDemo.no_brackets
    "i1" cfg (mk_gateway [] [] [] []) (mk_net card [])).1 in
  join "broken card" = Raise ValueError ∧ join "strange card" = Raise TypeError.
Proof. split; vm_compute; reflexivity. Qed.
