(* ===== verification/Limiter.v ===== *)
(** core/llm/limiter.py: at most so many calls of a provider at once.

    Every caller runs [ProviderLimiter.submit] in a thread of its own; between two of
    its actions on shared state any other thread may act. A thread is a [call] with the
    point of [submit] it has reached, and [act] is one atomic action: a block under the
    lock, an operation of the semaphore, the hand-over to the executor, or the end of a
    worker, which runs the callback that releases the semaphore. *)

From S2P Require Import Prelude.
Open Scope Z_scope.

(** ** State *)

(** [_Slot]: the cap of its semaphore and executor, the permits left and [waiting]. *)
Record slot := mk_slot {
  cap : Z;
  permits : Z;
  waiting : Z }.

(** Where a thread is in [submit]: it has its slot; it is counted as waiting; [acquire]
    has returned; it is no longer counted; its call runs; the call has ended; it raised. *)
Inductive phase :=
  | Found
  | Waiting
  | Answered (acquired : bool)
  | Counted (acquired : bool)
  | Running
  | Finished
  | Failed (e : exn).

Record call := mk_call {
  provider_key : string;
  at_phase : phase }.

Record limiter := mk_limiter {
  slots : gmap string slot;
  calls : list call }.

Definition empty_limiter : limiter := mk_limiter ∅ [].

(** ** Actions *)

Inductive action :=
  | Arrive (key : string) (max_concurrent : Z)
  | Enter (i : nat)
  | Acquire (i : nat)
  | WaitTimeout (i : nat)
  | Leave (i : nat)
  | Refuse (i : nat)
  | Launch (i : nat)
  | LaunchFails (i : nat)
  | WorkerEnds (i : nat).

(** [_slot]: the cap of the first call for a key is the one that stays;
    [BoundedSemaphore(n)] and [ThreadPoolExecutor(max_workers=n)] refuse what they cannot
    be built with. *)
Definition slot_for (key : string) (max_concurrent : Z) (l : limiter) : result (gmap string slot) :=
  match slots l !! key with
  | Some _ => Ok (slots l)
  | None =>
      rguard (0 <? max_concurrent) ValueError;;
      Ok (<[key := mk_slot max_concurrent max_concurrent 0]> (slots l))
  end.

Definition add_waiting (d : Z) (s : slot) : slot := mk_slot (cap s) (permits s) (waiting s + d).
Definition take_permit (s : slot) : slot := mk_slot (cap s) (permits s - 1) (waiting s).

(** [BoundedSemaphore.release]. *)
Definition release (s : slot) : result slot :=
  rguard (permits s <? cap s) ValueError;;
  Ok (mk_slot (cap s) (permits s + 1) (waiting s)).

(** Thread [i] moves to phase [p], having done [f] to its slot. *)
Definition move (i : nat) (p : phase) (f : slot → result slot) (l : limiter) : option (result limiter) :=
  c ← calls l !! i;
  s ← slots l !! provider_key c;
  Some (s' ← f s;
        Ok (mk_limiter (<[provider_key c := s']> (slots l)) (<[i := mk_call (provider_key c) p]> (calls l)))).

(** The phase of thread [i] and the permits of its slot. *)
Definition seen (i : nat) (l : limiter) : option (phase * Z) :=
  c ← calls l !! i;
  s ← slots l !! provider_key c;
  Some (at_phase c, permits s).

(** [None]: the action is not possible now; [Raise]: an operation raised what [submit]
    does not raise itself. *)
Definition act (a : action) (l : limiter) : option (result limiter) :=
  match a with
  | Arrive key n =>
      Some (m ← slot_for key n l;
            Ok (mk_limiter m (calls l ++ [mk_call key Found])))
  | Enter i =>
      match seen i l with
      | Some (Found, _) => move i Waiting (λ s, Ok (add_waiting 1 s)) l
      | _ => None
      end
  | Acquire i =>
      match seen i l with
      | Some (Waiting, n) => if 0 <? n then move i (Answered true) (λ s, Ok (take_permit s)) l else None
      | _ => None
      end
  | WaitTimeout i =>
      match seen i l with
      | Some (Waiting, _) => move i (Answered false) Ok l
      | _ => None
      end
  | Leave i =>
      match seen i l with
      | Some (Answered b, _) => move i (Counted b) (λ s, Ok (add_waiting (-1) s)) l
      | _ => None
      end
  | Refuse i =>
      match seen i l with
      | Some (Counted false, _) => move i (Failed RuntimeError) Ok l
      | _ => None
      end
  | Launch i =>
      match seen i l with
      | Some (Counted true, _) => move i Running Ok l
      | _ => None
      end
  | LaunchFails i =>
      match seen i l with
      | Some (Counted true, _) => move i (Failed RuntimeError) release l
      | _ => None
      end
  | WorkerEnds i =>
      match seen i l with
      | Some (Running, _) => move i Finished release l
      | _ => None
      end
  end.

(** One step of the program: some thread acts. An arrival that raises has changed nothing. *)
Inductive step (l : limiter) : limiter → Prop :=
  | step_act a l' : act a l = Some (Ok l') → step l l'.

Abbreviation reachable := (rtc step empty_limiter) (only parsing).

(** ** Counting threads *)

Definition count (f : call → bool) (cs : list call) : Z := Z.of_nat (length (List.filter f cs)).
Definition one (b : bool) : Z := if b then 1 else 0.

Lemma count_insert f cs : ∀ i c c', cs !! i = Some c →
  count f (<[i := c']> cs) = count f cs - one (f c) + one (f c').
Proof.
  unfold count, one. induction cs as [|x cs IH]; intros [|i] c c' H; simplify_eq/=.
  - destruct (f c), (f c'); simpl; lia.
  - specialize (IH i c c' H). destruct (f x), (f c), (f c'); simpl; lia.
Qed.

Lemma count_snoc f cs c : count f (cs ++ [c]) = count f cs + one (f c).
Proof. unfold count, one. rewrite List.filter_app, length_app. simpl. destruct (f c); simpl; lia. Qed.

Lemma count_pos f cs c : c ∈ cs → f c = true → 0 < count f cs.
Proof.
  intros [i Hi]%list_elem_of_lookup_1 Hf. unfold count. revert i Hi.
  induction cs as [|x cs IH]; intros [|i] Hi; simplify_eq/=; [rewrite Hf; simpl; lia|].
  specialize (IH i Hi). destruct (f x); simpl; lia.
Qed.

Definition holds_permit (p : phase) : bool :=
  match p with Answered true | Counted true | Running => true | _ => false end.
Definition is_waiting (p : phase) : bool :=
  match p with Waiting | Answered _ => true | _ => false end.
Definition is_running (p : phase) : bool := match p with Running => true | _ => false end.

Definition of_key (key : string) (f : phase → bool) (c : call) : bool :=
  String.eqb (provider_key c) key && f (at_phase c).

(** Threads of [key] in a phase that [f] accepts. *)
Definition threads (key : string) (f : phase → bool) (l : limiter) : Z := count (of_key key f) (calls l).

(** ** The invariant *)

Record limiter_ok (l : limiter) : Prop := {
  every_call_has_a_slot : ∀ c, c ∈ calls l → is_Some (slots l !! provider_key c);
  no_strangers : ∀ key f, slots l !! key = None → threads key f l = 0;
  permits_accounted : ∀ key s, slots l !! key = Some s →
    permits s + threads key holds_permit l = cap s ∧ 0 <= permits s ∧ 0 < cap s;
  waiting_accounted : ∀ key s, slots l !! key = Some s → waiting s = threads key is_waiting l }.

Lemma threads_nonneg key f l : 0 <= threads key f l.
Proof. unfold threads, count. lia. Qed.

Definition moved (i : nat) (c : call) (p : phase) (s' : slot) (l : limiter) : limiter :=
  mk_limiter (<[provider_key c := s']> (slots l)) (<[i := mk_call (provider_key c) p]> (calls l)).

Lemma move_inv i p f l l' : move i p f l = Some (Ok l') → ∃ c s s',
  calls l !! i = Some c ∧ slots l !! provider_key c = Some s ∧ f s = Ok s' ∧ l' = moved i c p s' l.
Proof.
  unfold move, moved. intros H. destruct (calls l !! i) as [c|]; [|done]. simpl in H.
  destruct (slots l !! provider_key c) as [s|] eqn:Es; [|done]. simpl in H. injection H as H.
  apply rbind_ok in H as (s' & Hf & H). injection H as <-. by exists c, s, s'.
Qed.

Lemma seen_inv i l p n : seen i l = Some (p, n) → ∃ c s,
  calls l !! i = Some c ∧ slots l !! provider_key c = Some s ∧ at_phase c = p ∧ permits s = n.
Proof.
  unfold seen. destruct (calls l !! i) as [c|]; [|done]. simpl.
  destruct (slots l !! provider_key c) as [s|] eqn:Es; [|done]. simpl. intros [= <- <-]. by exists c, s.
Qed.

Lemma threads_moved key f i c p s' l : calls l !! i = Some c →
  threads key f (moved i c p s' l)
  = threads key f l + (if String.eqb (provider_key c) key then one (f p) - one (f (at_phase c)) else 0).
Proof.
  intros Hc. unfold threads, moved. simpl. rewrite (count_insert _ _ _ _ _ Hc). unfold of_key. simpl.
  destruct (String.eqb (provider_key c) key); simpl; lia.
Qed.

Lemma moved_ok i c p s s' l : limiter_ok l → calls l !! i = Some c → slots l !! provider_key c = Some s →
  cap s' = cap s → 0 <= permits s' →
  permits s' = permits s - one (holds_permit p) + one (holds_permit (at_phase c)) →
  waiting s' = waiting s + one (is_waiting p) - one (is_waiting (at_phase c)) →
  limiter_ok (moved i c p s' l).
Proof.
  intros [H1 H2 H3 H4] Hc Hs Hcap Hpos Hp Hw. split.
  - intros d Hd. unfold moved in *. simpl in *.
    assert (Hk : is_Some (slots l !! provider_key d)).
    { apply list_elem_of_lookup_1 in Hd as [j Hj]. destruct (decide (i = j)) as [->|].
      - rewrite list_lookup_insert_eq in Hj by (by eapply lookup_lt_Some). injection Hj as <-. by exists s.
      - rewrite list_lookup_insert_ne in Hj by done. apply H1. by eapply list_elem_of_lookup_2. }
    destruct (decide (provider_key c = provider_key d)) as [->|]; [by rewrite lookup_insert_eq; eexists|].
    by rewrite lookup_insert_ne.
  - intros key f Hn. rewrite (threads_moved _ _ _ _ _ _ _ Hc). unfold moved in Hn. simpl in Hn.
    apply lookup_insert_None in Hn as [Hn Hne]. rewrite (H2 _ _ Hn).
    destruct (String.eqb_spec (provider_key c) key); [done|lia].
  - intros key t Ht. rewrite (threads_moved _ _ _ _ _ _ _ Hc). unfold moved in Ht. simpl in Ht.
    destruct (String.eqb_spec (provider_key c) key) as [<-|Hne].
    + rewrite lookup_insert_eq in Ht. injection Ht as <-. destruct (H3 _ _ Hs) as (? & ? & ?). lia.
    + rewrite lookup_insert_ne in Ht by done. destruct (H3 _ _ Ht) as (? & ? & ?). lia.
  - intros key t Ht. rewrite (threads_moved _ _ _ _ _ _ _ Hc). unfold moved in Ht. simpl in Ht.
    destruct (String.eqb_spec (provider_key c) key) as [<-|Hne].
    + rewrite lookup_insert_eq in Ht. injection Ht as <-. rewrite (H4 _ _ Hs) in Hw. lia.
    + rewrite lookup_insert_ne in Ht by done. rewrite (H4 _ _ Ht). lia.
Qed.

Lemma arrive_ok key n m l : limiter_ok l → slot_for key n l = Ok m →
  limiter_ok (mk_limiter m (calls l ++ [mk_call key Found])).
Proof.
  intros [H1 H2 H3 H4] Hm.
  assert (Ht : ∀ k f, threads k f (mk_limiter m (calls l ++ [mk_call key Found]))
    = threads k f l + one (String.eqb key k && f Found)).
  { intros k f. unfold threads. simpl. by rewrite count_snoc. }
  assert (Hh : ∀ k f, f Found = false → threads k f (mk_limiter m (calls l ++ [mk_call key Found])) = threads k f l).
  { intros k f Hf. rewrite Ht, Hf, andb_false_r. simpl. lia. }
  unfold slot_for in Hm. destruct (slots l !! key) as [s|] eqn:Es.
  - injection Hm as <-. split; simpl.
    + intros c [Hc| ->%list_elem_of_singleton]%elem_of_app; [by apply H1|by exists s].
    + intros k f Hk. rewrite Ht, (H2 _ _ Hk). destruct (String.eqb_spec key k) as [->|]; [congruence|done].
    + intros k t Hk. rewrite Hh by done. by apply H3.
    + intros k t Hk. rewrite Hh by done. by apply H4.
  - apply rbind_ok in Hm as ([] & Hn & Hm). apply rguard_ok in Hn. injection Hm as <-. split; simpl.
    + intros c [Hc| ->%list_elem_of_singleton]%elem_of_app; simpl.
      * destruct (decide (key = provider_key c)) as [->|]; [by rewrite lookup_insert_eq; eexists|].
        rewrite lookup_insert_ne by done. by apply H1.
      * rewrite lookup_insert_eq. by eexists.
    + intros k f Hk. apply lookup_insert_None in Hk as [Hk Hne]. rewrite Ht, (H2 _ _ Hk).
      by destruct (String.eqb_spec key k).
    + intros k t Hk. rewrite Hh by done. destruct (decide (key = k)) as [->|].
      * rewrite lookup_insert_eq in Hk. injection Hk as <-. simpl. rewrite (H2 _ _ Es). lia.
      * rewrite lookup_insert_ne in Hk by done. by apply H3.
    + intros k t Hk. rewrite Hh by done. destruct (decide (key = k)) as [->|].
      * rewrite lookup_insert_eq in Hk. injection Hk as <-. simpl. by rewrite (H2 _ _ Es).
      * rewrite lookup_insert_ne in Hk by done. by apply H4.
Qed.

(** A thread that holds a permit leaves room to give it back. *)
Lemma release_total l i c s : limiter_ok l → calls l !! i = Some c → slots l !! provider_key c = Some s →
  holds_permit (at_phase c) = true → release s = Ok (mk_slot (cap s) (permits s + 1) (waiting s)).
Proof.
  intros Hok Hc Hs Hh. destruct (permits_accounted _ Hok _ _ Hs) as (He & _ & _).
  assert (0 < threads (provider_key c) holds_permit l).
  { apply (count_pos _ _ c); [by eapply list_elem_of_lookup_2|]. unfold of_key. by rewrite String.eqb_refl, Hh. }
  unfold release, rguard. by replace (permits s <? cap s) with true by lia.
Qed.

(** The kinds of move [act] makes, one for each line of it. *)
Ltac invert_act H :=
  unfold act in H;
  repeat match type of H with
  | context [match seen ?i ?l with _ => _ end] => destruct (seen i l) as [[[| |[]|[]| | |] ?]|] eqn:?
  | context [if ?b then _ else _] => destruct b eqn:?
  end; try discriminate H;
  try (match goal with Hs : seen _ _ = Some _ |- _ => apply seen_inv in Hs as (? & ? & ? & ? & ? & ?) end;
       apply move_inv in H as (? & ? & ? & ? & ? & ? & ->); simplify_eq).

Lemma act_ok a l l' : limiter_ok l → act a l = Some (Ok l') → limiter_ok l'.
Proof.
  intros Hok H. destruct a; try (invert_act H).
  all: try (injection H as H; apply rbind_ok in H as (m & Hm & H); injection H as <-; by eapply arrive_ok).
  all: match goal with Hc : calls ?l !! _ = Some ?c, Hs : slots ?l !! _ = Some ?s |- _ =>
    destruct (permits_accounted _ Hok _ _ Hs) as (? & ? & ?);
    try (match goal with Hr : release _ = Ok _ |- _ =>
           erewrite release_total in Hr by (eassumption || (match goal with Hp : at_phase _ = _ |- _ => by rewrite Hp end));
           injection Hr as <- end);
    eapply moved_ok; [exact Hok|exact Hc|exact Hs|..] end; simplify_eq/=;
    repeat match goal with Hp : at_phase _ = _ |- _ => rewrite Hp end; simpl; try lia.
Qed.

Lemma reachable_ok l : reachable l → limiter_ok l.
Proof.
  intros H. cut (limiter_ok empty_limiter → limiter_ok l).
  { intros Hi. apply Hi. split; simpl; [by intros c Hc%elem_of_nil|done|by intros key s Hs%lookup_empty_Some..]. }
  induction H as [|l1 l2 l3 [a ? Ha] _ IH]; [done|]. intros Hok. apply IH. by eapply act_ok.
Qed.

(** ** What the limiter promises *)

(** A slot that is there stays, with its cap. *)
Lemma cap_stays key a l l' s : act a l = Some (Ok l') → slots l !! key = Some s →
  ∃ s', slots l' !! key = Some s' ∧ cap s' = cap s.
Proof.
  intros H Hs. destruct a; try (invert_act H).
  all: try (injection H as H; apply rbind_ok in H as (m & Hm & H); injection H as <-; simpl; exists s; split; [|done];
    unfold slot_for in Hm; case_match; [by injection Hm as <-|]; apply rbind_ok in Hm as (_ & _ & Hm);
    injection Hm as <-; by rewrite lookup_insert_ne by congruence).
  all: unfold moved; simpl; match goal with Hc : slots _ !! provider_key ?c = Some _ |- _ =>
    destruct (decide (provider_key c = key)) as [<-|]; [rewrite lookup_insert_eq|rewrite lookup_insert_ne by done; by exists s] end;
    eexists; (split; [done|]); simplify_eq/=; try done.
  all: match goal with Hr : release _ = Ok _ |- _ => apply rbind_ok in Hr as (_ & _ & Hr); by injection Hr as <- end.
Qed.

Lemma caps_stay key l l' s : rtc step l l' → slots l !! key = Some s → ∃ s', slots l' !! key = Some s' ∧ cap s' = cap s.
Proof.
  intros H. revert s. induction H as [|l1 l2 l3 [a ? Ha] _ IH]; intros s Hs; [by exists s|].
  destruct (cap_stays _ _ _ _ _ Ha Hs) as (s1 & H1 & <-). by apply IH.
Qed.

(** C36: never more calls run than the cap. When the first caller of a provider has asked for
    [n], then in every state that follows, whatever caps later callers ask for and whatever
    order the threads act in, at most [n] calls of the provider run; so a free worker of the
    executor, which has [n], is there for each. A call runs until its worker ends, whether or
    not its caller still waits. *)
Theorem running_calls_are_capped l0 l1 l key n :
  reachable l0 → slots l0 !! key = None → act (Arrive key n) l0 = Some (Ok l1) → rtc step l1 l →
  threads key is_running l <= n.
Proof.
  intros Hr Hnew Ha Hl. assert (reachable l) as Hreach by (etrans; [exact Hr|eapply rtc_l; [by eapply step_act|done]]).
  assert (slots l1 !! key = Some (mk_slot n n 0)) as Hs.
  { simpl in Ha. unfold slot_for in Ha. rewrite Hnew in Ha. injection Ha as H. apply rbind_ok in H as (m & Hm & H).
    apply rbind_ok in Hm as (_ & _ & Hm). injection Hm as <-. injection H as <-. simpl. by rewrite lookup_insert_eq. }
  destruct (caps_stay _ _ _ _ Hl Hs) as (s & Hs' & Hcap). simpl in Hcap. apply reachable_ok in Hreach.
  destruct (permits_accounted _ Hreach _ _ Hs') as (He & Hp & _).
  enough (threads key is_running l <= threads key holds_permit l) by lia.
  unfold threads, count. apply inj_le, filter_length_le. intros c _. unfold of_key.
  intros [-> Hrun]%andb_true_iff. by destruct (at_phase c).
Qed.

(** No permit is lost or returned twice: [release] never finds the semaphore full,
    [waiting] counts exactly the threads between their two lock sections, and when
    no call of a provider is under way every permit is back. *)
Theorem permits_are_conserved l a : reachable l →
  (∀ key n, a = Arrive key n → slots l !! key = None → 0 < n) →
  (∀ e, act a l ≠ Some (Raise e))
  ∧ ∀ key s, slots l !! key = Some s →
      waiting s = threads key is_waiting l
      ∧ (threads key holds_permit l = 0 → permits s = cap s).
Proof.
  intros Hr Ha. apply reachable_ok in Hr. split.
  - intros e H. destruct a; unfold act in H.
    1: { injection H as H. unfold slot_for in H. specialize (Ha _ _ eq_refl).
         destruct (slots l !! key); [done|]. simpl in H. unfold rguard in H.
         replace (0 <? max_concurrent) with true in H; [done|]. specialize (Ha eq_refl). lia. }
    all: destruct (seen i l) as [[ph n]|] eqn:Hs; [|done]; apply seen_inv in Hs as (c & s & Hc & Hs & <- & <-).
    all: assert (Hm : ∀ p f e', move i p f l = Some (Raise e') → f s = Raise e')
      by (intros p f e' Hm; unfold move in Hm; rewrite Hc in Hm; simpl in Hm; rewrite Hs in Hm; simpl in Hm;
          injection Hm as Hm; destruct (f s); [done|by injection Hm as ->]).
    all: pose proof (release_total _ _ _ _ Hr Hc Hs) as Hrel.
    all: destruct (at_phase c) as [| |[]|[]| | |] eqn:Hp; try done.
    all: repeat match type of H with context [if ?b then _ else _] => destruct b; try done end.
    all: apply Hm in H; try done; rewrite Hrel in H; done.
  - intros key s Hs. split; [by apply waiting_accounted|].
    destruct (permits_accounted _ Hr _ _ Hs) as (He & _). lia.
Qed.

(** ** A waiting call can always be served *)

Definition stands (i : nat) (key : string) (p : phase) (s : slot) (l : limiter) : Prop :=
  calls l !! i = Some (mk_call key p) ∧ slots l !! key = Some s.

(** The state [l'] comes from [l] by a step of thread [i] alone. *)
Definition alone (i : nat) (l l' : limiter) : Prop := ∀ j, j ≠ i → calls l' !! j = calls l !! j.

Lemma stands_move i key p s l q f s' : stands i key p s l → f s = Ok s' →
  ∃ l', move i q f l = Some (Ok l') ∧ stands i key q s' l' ∧ alone i l l'.
Proof.
  intros [Hc Hs] Hf. exists (moved i (mk_call key p) q s' l). split_and!.
  - unfold move. rewrite Hc. simpl. rewrite Hs. simpl. by rewrite Hf.
  - split; simpl; [by rewrite list_lookup_insert_eq by (by eapply lookup_lt_Some)|apply lookup_insert_eq].
  - intros j Hj. simpl. by rewrite list_lookup_insert_ne.
Qed.

Lemma stands_seen i key p s l : stands i key p s l → seen i l = Some (p, permits s).
Proof. intros [Hc Hs]. unfold seen. rewrite Hc. simpl. by rewrite Hs. Qed.

(** Thread [i] goes from phase [p] to [q] by action [a]. *)
Lemma stands_step i key p s l q f s' a : stands i key p s l → f s = Ok s' →
  (seen i l = Some (p, permits s) → act a l = move i q f l) →
  ∃ l', step l l' ∧ stands i key q s' l' ∧ alone i l l'.
Proof.
  intros H Hf Ha. destruct (stands_move _ _ _ _ _ q f s' H Hf) as (l' & Hm & ? & ?). exists l'. split; [|done].
  apply (step_act _ a). rewrite Ha by (by eapply stands_seen). done.
Qed.

(** A running call can end, and then there is a permit. *)
Lemma running_frees i key s l : limiter_ok l → stands i key Running s l →
  ∃ l' s', rtc step l l' ∧ stands i key Finished s' l' ∧ 0 < permits s' ∧ alone i l l'.
Proof.
  intros Hok H. pose proof H as [Hc Hs].
  pose proof (release_total l i _ s Hok Hc Hs eq_refl) as Hr.
  destruct (stands_step i key Running s l Finished release _ (WorkerEnds i) H Hr) as (l' & ? & ? & ?);
    [intros E; unfold act; by rewrite E|].
  exists l', (mk_slot (cap s) (permits s + 1) (waiting s)). split_and!; [by apply rtc_once|done| |done].
  destruct (permits_accounted _ Hok _ _ Hs) as (_ & ? & _). simpl. lia.
Qed.

Lemma counted_frees i key s l : limiter_ok l → stands i key (Counted true) s l →
  ∃ l' s', rtc step l l' ∧ stands i key Finished s' l' ∧ 0 < permits s' ∧ alone i l l'.
Proof.
  intros Hok H. destruct (stands_step i key _ s l Running Ok s (Launch i) H eq_refl) as (l1 & Hl & H1 & Ha);
    [intros E; unfold act; by rewrite E|].
  assert (Hok1 : limiter_ok l1) by (destruct Hl as [a l1 Hl]; by eapply act_ok).
  destruct (running_frees _ _ _ _ Hok1 H1) as (l' & s' & ? & ? & ? & Ha').
  exists l', s'. split_and!; [by eapply rtc_l|done..|]. intros j Hj. rewrite Ha', Ha; done.
Qed.

Lemma holder_frees i key p s l : limiter_ok l → stands i key p s l → holds_permit p = true →
  ∃ l' s' q, rtc step l l' ∧ stands i key q s' l' ∧ 0 < permits s' ∧ alone i l l'.
Proof.
  intros Hok H Hp. destruct p as [| |[]|[]| | |]; try done.
  - destruct (stands_step i key _ s l (Counted true) (λ s, Ok (add_waiting (-1) s)) _ (Leave i) H eq_refl)
      as (l1 & Hl & H1 & Ha); [intros E; unfold act; by rewrite E|].
    assert (Hok1 : limiter_ok l1) by (destruct Hl as [a l1 Hl]; by eapply act_ok).
    destruct (counted_frees _ _ _ _ Hok1 H1) as (l' & s' & ? & ? & ? & Ha').
    exists l', s', Finished. split_and!; [by eapply rtc_l|done..|]. intros j Hj. rewrite Ha', Ha; done.
  - destruct (counted_frees _ _ _ _ Hok H) as (l' & s' & ?). by exists l', s', Finished.
  - destruct (running_frees _ _ _ _ Hok H) as (l' & s' & ?). by exists l', s', Finished.
Qed.

Lemma count_zero_or f cs : count f cs = 0 ∨ ∃ i c, cs !! i = Some c ∧ f c = true.
Proof.
  induction cs as [|x cs [IH|(i & c & Hi & Hf)]]; [by left| |right; by exists (S i), c].
  destruct (f x) eqn:E; [right; by exists 0%nat, x|]. left. unfold count in *. simpl. by rewrite E.
Qed.

(** No caller starves for want of a permit: from every reachable state in which a
    thread waits, the calls under way can end so that the thread acquires one. *)
Theorem waiting_calls_can_be_served l i key s : reachable l → stands i key Waiting s l →
  ∃ l' s', rtc step l l' ∧ stands i key (Answered true) s' l'.
Proof.
  intros Hr H. apply reachable_ok in Hr.
  assert (Hserve : ∀ l1 s1, stands i key Waiting s1 l1 → 0 < permits s1 →
    ∃ l' s', step l1 l' ∧ stands i key (Answered true) s' l').
  { intros l1 s1 H1 Hp. destruct (stands_step i key _ s1 l1 (Answered true) (λ s, Ok (take_permit s)) _ (Acquire i) H1 eq_refl)
      as (l' & ? & ? & _); [|by eexists _, _].
    intros E. unfold act. rewrite E. by replace (0 <? permits s1) with true by lia. }
  destruct (Z.lt_ge_cases 0 (permits s)) as [Hp|Hp].
  { destruct (Hserve _ _ H Hp) as (l' & s' & ? & ?). exists l', s'. split; [by apply rtc_once|done]. }
  destruct H as [Hc Hs]. destruct (permits_accounted _ Hr _ _ Hs) as (He & _ & Hcap).
  destruct (count_zero_or (of_key key holds_permit) (calls l)) as [Hz|(j & [k p] & Hj & Hh)].
  { change (threads key holds_permit l = 0) in Hz. lia. }
  apply andb_true_iff in Hh as [Hk Hh]. apply String.eqb_eq in Hk. simpl in Hk, Hh. subst k.
  assert (Hij : i ≠ j) by (intros ->; rewrite Hj in Hc; by injection Hc as ->).
  destruct (holder_frees j key p s l Hr (conj Hj Hs) Hh) as (l1 & s1 & q & Hl & [_ Hs1] & Hp1 & Ha).
  destruct (Hserve l1 s1) as (l' & s' & ? & ?); [split; [by rewrite Ha|done]|done|].
  exists l', s'. split; [by eapply rtc_r|done].
Qed.

(** ** A provider with one slot *)

Module LimiterDemo.
Fixpoint run (l : limiter) (acts : list action) : option limiter :=
  match acts with
  | [] => Some l
  | a :: acts => match act a l with Some (Ok l) => run l acts | _ => None end
  end.

Lemma run_reachable acts : ∀ l l', run l acts = Some l' → rtc step l l'.
Proof.
  induction acts as [|a acts IH]; intros l l' H; simpl in H; [injection H as ->; apply rtc_refl|].
  destruct (act a l) as [[l1|]|] eqn:E; try done. eapply rtc_l; [by apply (step_act _ a)|by apply IH].
Qed.

(** Two callers, one permit: the first runs, the second waits. *)
Definition busy : option limiter := run empty_limiter
  [Arrive "ollama/m@" 1; Arrive "ollama/m@" 4; Enter 0; Acquire 0; Enter 1; Leave 0; Launch 0].

Example second_waits : ∃ l, busy = Some l ∧ act (Acquire 1) l = None
  ∧ slots l !! "ollama/m@" = Some (mk_slot 1 0 1).
Proof. eexists. split; [vm_compute; reflexivity|]. split; vm_compute; reflexivity. Qed.
End LimiterDemo.
Import LimiterDemo.

Lemma running_calls_are_capped_witness : ∃ l, busy = Some l ∧ threads "ollama/m@" is_running l <= 1.
Proof.
  destruct busy as [l|] eqn:E; [|vm_compute in E; discriminate E]. exists l. split; [reflexivity|].
  refine (running_calls_are_capped empty_limiter (mk_limiter {["ollama/m@" := mk_slot 1 1 0]} [mk_call "ollama/m@" Found]) l
    "ollama/m@" 1 (rtc_refl _ _) eq_refl _ (run_reachable
      [Arrive "ollama/m@" 4; Enter 0; Acquire 0; Enter 1; Leave 0; Launch 0] _ _ _)); [vm_compute; reflexivity|].
  rewrite <-E. vm_compute. reflexivity.
Defined.

Lemma permits_are_conserved_witness : ∃ l, busy = Some l ∧ ∀ e, act (WorkerEnds 0) l ≠ Some (Raise e).
Proof.
  destruct busy as [l|] eqn:E; [|vm_compute in E; discriminate E]. exists l. split; [reflexivity|].
  refine (proj1 (permits_are_conserved l (WorkerEnds 0) (run_reachable _ _ _ E) _)). discriminate.
Defined.

Lemma waiting_calls_can_be_served_witness : ∃ l l' s', busy = Some l ∧ rtc step l l'
  ∧ stands 1 "ollama/m@" (Answered true) s' l'.
Proof.
  destruct busy as [l|] eqn:E; [|vm_compute in E; discriminate E]. exists l.
  destruct (waiting_calls_can_be_served l 1 "ollama/m@" (mk_slot 1 0 1) (run_reachable _ _ _ E)) as (l' & s' & ? & ?).
  - vm_compute in E. injection E as <-. split; vm_compute; reflexivity.
  - by exists l', s'.
Defined.
