(* ===== verification/Provider.v ===== *)
(** core/llm/provider.py: the configuration of the language model and what a call
    sends, up to the limiter.

    The YAML reader, [str] of a configuration value that is no text, [int] of a text
    and the environment are arguments; so is the library that makes the call. *)

From S2P Require Import Prelude.
From S2P Require Import PyStr.
From S2P Require Import Json.
From S2P Require Import Limiter.
From Stdlib Require Import Ascii.
Open Scope Z_scope.

Record ProviderConfig := mk_provider {
  provider : string;
  model : string;
  api_key : option string;
  base_url : option string;
  max_concurrent : option Z }.

Definition effective_max_concurrent (c : ProviderConfig) : Z :=
  match max_concurrent c with
  | Some n => n
  | None => if String.eqb (provider c) "ollama" then 1 else 4
  end.

(** ** References to the environment *)

Fixpoint take_word (l : list ascii) : list ascii * list ascii :=
  match l with
  | c :: l' => if is_word c then let '(w, r) := take_word l' in (c :: w, r) else ([], l)
  | [] => ([], [])
  end.

(** The text up to the first closing brace, and what follows the brace. *)
Fixpoint to_brace (l : list ascii) : option (list ascii * list ascii) :=
  match l with
  | [] => None
  | c :: l' => if Ascii.eqb c "}" then Some ([], l') else '(d, r) ← to_brace l'; Some (c :: d, r)
  end.

(** A match of the pattern at the head of [l]: the name, the default if one is given,
    and the rest. A name is followed by no word character, so there is one way to match. *)
Definition env_ref (l : list ascii) : option (string * option string * list ascii) :=
  match l with
  | a :: b :: l =>
      if Ascii.eqb a "$" && Ascii.eqb b "{" then
        match take_word l with
        | ([], _) => None
        | (w, rest) =>
            match rest with
            | c :: r => if Ascii.eqb c "}" then Some (of_list w, None, r)
                        else match r with
                             | d :: r => if Ascii.eqb c ":" && Ascii.eqb d "-"
                                         then '(v, r) ← to_brace r; Some (of_list w, Some (of_list v), r)
                                         else None
                             | [] => None
                             end
            | [] => None
            end
        end
      else None
  | _ => None
  end.

Section Config.
Context (environ : string → option string).

(** What [replace] puts for a reference: an unset one without default stays as it is. *)
Definition env_value (name : string) (default : option string) : string :=
  or_else (environ name) (or_else default ("${" +:+ name +:+ "}")).

(** [re.sub]: the scan goes on after a match. [fuel] is the length of the text. *)
Fixpoint substitute (fuel : nat) (l : list ascii) : string :=
  match fuel, l with
  | S fuel, c :: l' =>
      match env_ref l with
      | Some (name, default, rest) => env_value name default +:+ substitute fuel rest
      | None => String c (substitute fuel l')
      end
  | _, _ => ""
  end.

Definition resolve_env_vars (value : string) : string :=
  let l := to_list value in substitute (length l) l.

Context (py_str : json → string) (int_text : string → option Z).

Definition text_of (v : json) : string := match v with JStr s => s | _ => py_str v end.

(** [_resolve_env_vars] of a configuration value: [re.sub] refuses what is no text. *)
Definition resolve_field (v : json) : result string :=
  match v with JStr s => Ok (resolve_env_vars s) | _ => Raise TypeError end.
Definition resolve_optional (v : json) : result (option string) :=
  if truthy v then s ← resolve_field v; Ok (Some s) else Ok None.

(** The cap: the environment first, then the file; blank is none. *)
Definition read_cap (v : json) : result (option Z) :=
  let raw := match environ "LLM_MAX_CONCURRENT" with
             | Some s => if truthy_str s then JStr s else v
             | None => v
             end in
  match raw with
  | JNull => Ok None
  | _ =>
      if truthy_str (strip (text_of raw)) then
        let n := or_else (int_text (text_of raw)) 0 in
        rguard (1 <=? n) ValueError;;
        Ok (Some n)
      else Ok None
  end.

(** [load_provider_config] on what the reader makes of the file. *)
Definition load_provider_config (raw : json) : result ProviderConfig :=
  match raw with
  | JObj raw =>
      match obj_default "llm" (JObj []) raw with
      | JObj llm =>
          let p := obj_field "provider" llm in
          let m := obj_field "model" llm in
          rguard (truthy p) ValueError;;
          rguard (truthy m) ValueError;;
          cap ← read_cap (obj_field "max_concurrent" llm);
          p ← resolve_field p;
          m ← resolve_field m;
          k ← resolve_optional (obj_field "api_key" llm);
          u ← resolve_optional (obj_field "base_url" llm);
          Ok (mk_provider p m k u cap)
      | _ => Raise AttributeError
      end
  | _ => Raise AttributeError
  end.
End Config.

(** ** The call *)

Fixpoint contains (needle l : list ascii) : bool :=
  bool_decide (take (length needle) l = needle)
  || match l with [] => false | _ :: l => contains needle l end.

(** Endpoints that take no message of the role "system". *)
Definition use_system_role (c : ProviderConfig) : bool :=
  negb (String.eqb (provider c) "anthropic"
        && match base_url c with
           | Some u => truthy_str u && negb (contains (to_list "api.anthropic.com") (to_list u))
           | None => false
           end).

Definition nl : string := String (ascii_of_nat 10) EmptyString.
Definition instruction_prefix (system_prompt : string) : string :=
  "System instructions:" +:+ nl +:+ system_prompt +:+ nl +:+ nl.

Definition message (role content : string) : jdict := [("role", JStr role); ("content", JStr content)].

(** The messages sent: the caller's list is copied, and its first message too when it
    is changed. *)
Definition messages_for (c : ProviderConfig) (system_prompt : string) (messages : list jdict) : list jdict :=
  if truthy_str system_prompt then
    if use_system_role c then message "system" system_prompt :: messages
    else
      let prefix := instruction_prefix system_prompt in
      match messages with
      | m :: rest =>
          match is_str (obj_field "role" m) "user", obj_field "content" m with
          | true, JStr text => obj_set "content" (JStr (prefix +:+ text)) m :: rest
          | _, _ => message "user" prefix :: messages
          end
      | [] => [message "user" prefix]
      end
  else messages.

Definition limiter_key (c : ProviderConfig) : string :=
  provider c +:+ "/" +:+ model c +:+ "@" +:+ or_else (base_url c) "".

(** [kwargs]; an empty key or URL is left out. *)
Definition completion_kwargs (c : ProviderConfig) (system_prompt : string) (messages : list jdict) (timeout_s : Q) :
    jdict :=
  let opt k o := match o with Some s => if truthy_str s then [(k, JStr s)] else [] | None => [] end in
  [("model", JStr (provider c +:+ "/" +:+ model c));
   ("messages", JArr (map JObj (messages_for c system_prompt messages)));
   ("timeout", JFloat timeout_s)]
  ++ opt "api_key" (api_key c) ++ opt "base_url" (base_url c).

(** A configuration that loads never stops a call from getting a slot: its cap, or the
    default of its provider, is at least one, so the first call of a provider can build
    the semaphore and the executor, and a later one finds them. *)
Theorem loaded_caps_are_usable environ py_str int_text raw c l :
  load_provider_config environ py_str int_text raw = Ok c →
  1 <= effective_max_concurrent c
  ∧ ∃ m, slot_for (limiter_key c) (effective_max_concurrent c) l = Ok m ∧ is_Some (m !! limiter_key c).
Proof.
  intros H. assert (Hcap : 1 <= effective_max_concurrent c).
  { unfold load_provider_config in H. destruct raw as [| | | | | |raw]; try discriminate H.
    destruct (obj_default "llm" (JObj []) raw) as [| | | | | |llm]; try discriminate H. cbv zeta in H.
    apply rbind_ok in H as (_ & _ & H). apply rbind_ok in H as (_ & _ & H).
    apply rbind_ok in H as (cap & Hc & H). rok. unfold effective_max_concurrent. simpl.
    destruct cap as [n|]; [|by destruct (String.eqb _ _)].
    unfold read_cap in Hc. cbv zeta in Hc. destruct (match environ _ with Some _ => _ | None => _ end); try discriminate Hc;
      destruct (truthy_str _); try discriminate Hc;
      apply rbind_ok in Hc as (_ & Hg%rguard_ok & Hc); injection Hc as <-; by apply Z.leb_le. }
  split; [done|]. unfold slot_for. destruct (slots l !! limiter_key c) as [s|] eqn:Es.
  - exists (slots l). split; [done|by exists s].
  - exists (<[limiter_key c := mk_slot (effective_max_concurrent c) (effective_max_concurrent c) 0]> (slots l)).
    split; [|rewrite lookup_insert_eq; by eexists]. simpl. unfold rguard.
    by replace (0 <? effective_max_concurrent c) with true by lia.
Qed.

Module ProviderDemo.
Definition env (name : string) : option string :=
  if String.eqb name "MODEL" then Some "llama3" else if String.eqb name "EMPTY" then Some "" else None.
Definition load (llm : jdict) : result ProviderConfig :=
  load_provider_config env (λ _, "2") (λ s, if String.eqb s "2" then Some 2 else None) (JObj [("llm", JObj llm)]).

Example references_are_resolved :
  load [("provider", JStr "ollama"); ("model", JStr "${MODEL}-${SIZE:-7b}-${TAG}"); ("max_concurrent", JInt 2)]
  = Ok (mk_provider "ollama" "llama3-7b-${TAG}" None None (Some 2)).
Proof. vm_compute. reflexivity. Qed.

(** The check for a provider comes before its text is resolved: an empty one loads. *)
Example an_empty_provider_loads :
  load [("provider", JStr "${EMPTY}"); ("model", JStr "m")] = Ok (mk_provider "" "m" None None None).
Proof. vm_compute. reflexivity. Qed.

(** The prompt goes before the first user message where the role is not accepted. *)
Example prompt_without_system_role :
  messages_for (mk_provider "anthropic" "m" None (Some "http://localhost:1234") None) "Be brief."
    [message "user" "Hello"]
  = [message "user" (instruction_prefix "Be brief." +:+ "Hello")].
Proof. vm_compute. reflexivity. Qed.
End ProviderDemo.

Lemma loaded_caps_are_usable_witness :
  1 <= effective_max_concurrent (mk_provider "ollama" "llama3" None None (Some 2)).
Proof.
  refine (proj1 (loaded_caps_are_usable ProviderDemo.env (λ _, "2") (λ s, if String.eqb s "2" then Some 2 else None)
    (JObj [("llm", JObj [("provider", JStr "ollama"); ("model", JStr "${MODEL}"); ("max_concurrent", JInt 2)])])
    _ empty_limiter _)).
  vm_compute. reflexivity.
Defined.
