(* ===== verification/Feedback.v ===== *)
(** Orion's event log: the feedback contracts of core/contracts/contracts.py and
    orion/storage/event_log.py, table by table.

    Text of [datetime('now')] and readings of the clock are arguments; a timestamp is
    a UTC time and is compared as the text SQLite stores. A stored dictionary is the
    JSON it denotes. *)

From S2P Require Import Prelude.
From S2P Require Import PyStr.
From S2P Require Import PyTime.
From S2P Require Import Json.
From S2P Require Import Contracts.
From Stdlib Require Import Ascii.
Open Scope Z_scope.

(** ** Contracts *)

Inductive OutcomeType := completed_ | failed_ | escalated_ | corrected_ | approved_ | rejected_.
#[export] Instance OutcomeType_eq_dec : EqDecision OutcomeType.
Proof. solve_decision. Defined.

Definition outcome_value (o : OutcomeType) : string :=
  match o with
  | completed_ => "completed" | failed_ => "failed" | escalated_ => "escalated"
  | corrected_ => "corrected" | approved_ => "approved" | rejected_ => "rejected"
  end.

Record FeedbackEvent := mk_feedback {
  fb_task : uuid;
  fb_category : string;
  fb_agent : string;
  fb_outcome : OutcomeType;
  fb_confidence : Q;
  fb_input : string;
  fb_output : jdict;
  fb_correction : option jdict;
  fb_verified : bool;
  fb_latency : Z;
  fb_time : time }.

(** The bounds pydantic checks. *)
Definition validate_feedback (e : FeedbackEvent) : result FeedbackEvent :=
  rguard (unit_interval (fb_confidence e) && (0 <=? fb_latency e)) ValueError;;
  Ok e.

Inductive RefineryOutcome := success | fail | partial.
#[export] Instance RefineryOutcome_eq_dec : EqDecision RefineryOutcome.
Proof. solve_decision. Defined.

Definition refinery_value (o : RefineryOutcome) : string :=
  match o with success => "success" | fail => "fail" | partial => "partial" end.

Record RefineryFeedbackEvent := mk_refinery {
  rf_task : uuid;
  rf_agent : string;
  rf_skill : string;
  rf_outcome : RefineryOutcome;
  rf_confidence : Q;
  rf_execution : option string;
  rf_verified : bool;
  rf_correction : option string;
  rf_latency : Z }.

(** [RefineryFeedbackEvent(...)]: the two names are stripped and must not be blank. *)
Definition validate_refinery (e : RefineryFeedbackEvent) : result RefineryFeedbackEvent :=
  a ← validate_non_empty_str (rf_agent e);
  s ← validate_non_empty_str (rf_skill e);
  rguard (unit_interval (rf_confidence e) && (0 <=? rf_latency e)) ValueError;;
  Ok (mk_refinery (rf_task e) a s (rf_outcome e) (rf_confidence e) (rf_execution e) (rf_verified e)
        (rf_correction e) (rf_latency e)).

Definition validate_feedback_event (e : RefineryFeedbackEvent) (m : SkillManifest) : result unit :=
  rguard (String.eqb (rf_agent e) (agent_id m)) ValueError;;
  rguard (bool_decide (rf_skill e ∈ map skill_id (skills m))) ValueError.

(** ** The tables *)

(** A row of [events]. *)
Record event_row := mk_event_row {
  ev_id : string;
  ev_task : string;
  ev_skill : string;
  ev_agent : string;
  ev_domain : string;
  ev_outcome : string;
  ev_confidence : Q;
  ev_verified : bool;
  ev_payload : option string;
  ev_result : option string;
  ev_correction : option string;
  ev_latency : option Z;
  ev_created : string;
  ev_quarantined : bool;
  ev_exported : option string }.

(** A row of [curated_events]. *)
Record curated_row := mk_curated {
  cu_source : string;
  cu_at : string;
  cu_domain : string }.

(** A row of [feedback_events]: the table has no column for [human_verified]. *)
Record feedback_row := mk_feedback_row {
  fr_id : uuid;
  fr_event : FeedbackEvent;
  fr_quarantined : bool }.

Record quarantine_row := mk_quarantine {
  qu_id : uuid;
  qu_event : uuid;
  qu_reason : string;
  qu_at : string }.

Record event_log := mk_log {
  events : list event_row;
  curated_events : list curated_row;
  feedback_events : list feedback_row;
  quarantine_log : list quarantine_row }.

Definition set_events (l : list event_row) (d : event_log) : event_log :=
  mk_log l (curated_events d) (feedback_events d) (quarantine_log d).
Definition set_feedback (l : list feedback_row) (d : event_log) : event_log :=
  mk_log (events d) (curated_events d) l (quarantine_log d).

(** ** Refinery events *)

Definition derive_domain (skill agent : string) : option string :=
  if String.eqb agent "rigel" || startswith skill "rigel." then Some "rigel"
  else if String.eqb agent "vega" || startswith skill "qa." then Some "vega"
  else None.

(** INSERT OR IGNORE on the primary key. *)
Definition insert_event (r : event_row) (l : list event_row) : list event_row :=
  if existsb (λ x, String.eqb (ev_id x) (ev_id r)) l then l else l ++ [r].

(** [append_event]: the columns it leaves out have their defaults. *)
Definition row_of_refinery (now : string) (e : RefineryFeedbackEvent) (quarantined : bool) : event_row :=
  mk_event_row (uuid_str (rf_task e)) (uuid_str (rf_task e)) (rf_skill e) (rf_agent e)
    (or_else (derive_domain (rf_skill e) (rf_agent e)) "__unknown__") (refinery_value (rf_outcome e))
    (rf_confidence e) (rf_verified e) None None (rf_correction e) (Some (rf_latency e)) now quarantined None.

Definition append_event (now : string) (e : RefineryFeedbackEvent) (quarantined : bool) : M event_log string :=
  mmodify (λ d, set_events (insert_event (row_of_refinery now e quarantined) (events d)) d);;
  mret (uuid_str (rf_task e)).

Definition by_created (a b : event_row) : bool := str_leb (ev_created a) (ev_created b).

(** The rows the WHERE clause of [get_uncurated_events] accepts. *)
Definition strong (r : event_row) : bool :=
  negb (ev_quarantined r)
  && (ev_verified r || Qle_bool (9 # 10) (ev_confidence r) && String.eqb (ev_outcome r) "success").
Definition is_curated (d : event_log) (id : string) : bool :=
  existsb (λ c, String.eqb (cu_source c) id) (curated_events d).
Definition get_uncurated_events (d : event_log) : list event_row :=
  py_sorted by_created (List.filter (λ r, strong r && negb (is_curated d (ev_id r))) (events d)).

(** INSERT OR IGNORE into [curated_events]. *)
Definition insert_curated (now domain : string) (l : list curated_row) (id : string) : list curated_row :=
  if existsb (λ c, String.eqb (cu_source c) id) l then l else l ++ [mk_curated id now domain].
Definition mark_curated (now : string) (ids : list string) (domain : string) (d : event_log) : event_log :=
  mk_log (events d) (foldl (insert_curated now domain) (curated_events d) ids) (feedback_events d) (quarantine_log d).

Definition unexported (r : event_row) : bool :=
  negb (ev_quarantined r) && match ev_exported r with None => true | Some _ => false end.
Definition get_unexported_events (d : event_log) : list event_row :=
  py_sorted by_created (List.filter unexported (events d)).

Definition export_row (at_ : string) (ids : list string) (r : event_row) : event_row :=
  if bool_decide (ev_id r ∈ ids) then
    mk_event_row (ev_id r) (ev_task r) (ev_skill r) (ev_agent r) (ev_domain r) (ev_outcome r) (ev_confidence r)
      (ev_verified r) (ev_payload r) (ev_result r) (ev_correction r) (ev_latency r) (ev_created r)
      (ev_quarantined r) (Some at_)
  else r.
Definition mark_exported (ids : list string) (at_ : string) (d : event_log) : event_log :=
  set_events (map (export_row at_ ids) (events d)) d.

Definition count_events (d : event_log) : Z :=
  Z.of_nat (length (List.filter (λ r, negb (ev_quarantined r)) (events d))).

(** [GROUP BY domain]: the groups come in the order of their names. *)
Definition count_unexported_by_domain (d : event_log) : list (string * Z) :=
  let rows := List.filter unexported (events d) in
  map (λ dom, (dom, Z.of_nat (length (List.filter (λ r, String.eqb (ev_domain r) dom) rows))))
      (py_sorted str_leb (remove_dups (map ev_domain rows))).

(** ** Migration of flat files *)

Definition is_hex (c : ascii) : bool :=
  let n := nat_of_ascii c in
  ((48 <=? n) && (n <=? 57) || (97 <=? n) && (n <=? 102) || (65 <=? n) && (n <=? 70))%nat.

(** The pattern of a UUID in its hyphenated form, in either case; like [re.match] with a
    final dollar sign it also takes a newline after it. *)
Definition is_uuid_text (s : string) : bool :=
  let l := match rev (to_list s) with
           | c :: r => if Ascii.eqb c (ascii_of_nat 10) then rev r else to_list s
           | [] => [] end in
  (length l =? 36)%nat
  && forallb (λ i, match l !! i with
                   | Some c => if bool_decide (i ∈ [8; 13; 18; 23]%nat) then Ascii.eqb c "-" else is_hex c
                   | None => false end) (seq 0 36).

Section Migrate.
Context (json_loads : string → result json) (py_str : json → string) (to_float : json → result Q)
  (float_repr : Q → string).

Definition str_of (v : json) : string := match v with JStr s => s | _ => py_str v end.

(** A value bound to a nullable column of text. *)
Definition opt_str (v : json) : result (option string) :=
  match v with
  | JNull => Ok None
  | JArr _ | JObj _ => Raise InterfaceError
  | v => Ok (Some (str_of v))
  end.

(** [json.dumps({k: v})]. *)
Definition dump_one (k : string) (v : json) : string := dumps_default float_repr (JObj [(k, v)]).

(** The row made of one line of a file; [None] when the line is skipped. *)
Definition migrate_line (stem now raw : string) : result (option event_row) :=
  let raw := strip raw in
  if negb (truthy_str raw) then Ok None
  else match json_loads raw with
       | Raise _ => Ok None
       | Ok (JObj data) =>
           let id := str_of (obj_default "feedback_event_id" (JStr "") data) in
           if negb (truthy_str id) then Ok None
           else
             let skill := str_of (obj_default "domain" (JStr stem) data) in
             let agent := if startswith skill "rigel" then "rigel" else "vega" in
             confidence ← to_float (obj_default "quality_score" (JFloat (3 # 4)) data);
             exported ← opt_str (obj_field "exported_at" data);
             Ok (Some (mk_event_row id id skill agent agent "success" confidence
               (is_str (obj_default "source" (JStr "") data) "human_correction")
               (Some (dump_one "prompt" (obj_default "prompt" (JStr "") data)))
               (Some (dump_one "completion" (obj_default "completion" (JStr "") data)))
               None None (str_of (obj_default "created_at" (JStr now) data)) false
               exported))
       | Ok _ => Raise AttributeError
       end.

Fixpoint migrate_lines (stem now : string) (lines : list string) : result (list event_row) :=
  match lines with
  | [] => Ok []
  | l :: lines =>
      r ← migrate_line stem now l;
      rs ← migrate_lines stem now lines;
      Ok (match r with Some r => r :: rs | None => rs end)
  end.

(** One directory entry: its stem, if its name ends in ".jsonl" and it is a file, and its
    lines, if it can be read. *)
Record flat_file := mk_flat {
  fl_stem : string;
  fl_lines : option (list string) }.

(** [migrate_flat_jsonl] on the files in the order of their names: how many rows were
    read; a file without rows is not touched. *)
Fixpoint migrate_files (now : string) (files : list flat_file) : M event_log Z :=
  match files with
  | [] => mret 0
  | f :: files =>
      match is_uuid_text (fl_stem f), fl_lines f with
      | false, Some lines =>
          rows ← mlift (migrate_lines (fl_stem f) now lines);
          mmodify (λ d, set_events (foldl (λ l r, insert_event r l) (events d) rows) d);;
          n ← migrate_files now files;
          mret (Z.of_nat (length rows) + n)
      | _, _ => migrate_files now files
      end
  end.
End Migrate.

(** ** Feedback events *)

(** The event a stored row is read back as: its verification is not stored. *)
Definition unverified (e : FeedbackEvent) : FeedbackEvent :=
  mk_feedback (fb_task e) (fb_category e) (fb_agent e) (fb_outcome e) (fb_confidence e) (fb_input e)
    (fb_output e) (fb_correction e) false (fb_latency e) (fb_time e).

(** [append]: the row keeps the columns of the table. *)
Definition append (fresh : uuid) (e : FeedbackEvent) : M event_log uuid :=
  d ← mget;
  mguard (negb (existsb (λ r, N.eqb (fr_id r) fresh) (feedback_events d))) IntegrityError;;
  mput (set_feedback (feedback_events d ++ [mk_feedback_row fresh (unverified e) false]) d);;
  mret fresh.

Definition quarantine (event fresh : uuid) (reason now : string) : M event_log unit :=
  mmodify (λ d,
    mk_log (events d) (curated_events d)
      (map (λ r, if N.eqb (fr_id r) event then mk_feedback_row (fr_id r) (fr_event r) true else r) (feedback_events d))
      (quarantine_log d ++ [mk_quarantine fresh event reason now])).

(** [datetime.isoformat()] of a naive UTC datetime: without the offset. *)
Definition naive_iso (t : time) : string :=
  let l := to_list (iso t) in of_list (take (length l - 6) l).

Definition row_to_event (r : feedback_row) : result FeedbackEvent := validate_feedback (fr_event r).

Definition since (cutoff : time) (r : feedback_row) : bool := str_leb (naive_iso cutoff) (iso (fb_time (fr_event r))).
Definition by_timestamp (a b : feedback_row) : bool :=
  str_leb (iso (fb_time (fr_event a))) (iso (fb_time (fr_event b))).

(** The body of the two window queries. *)
Definition select_window (where_ : FeedbackEvent → bool) (cutoff : time) (d : event_log) : result (list FeedbackEvent) :=
  rmap row_to_event (py_sorted by_timestamp
    (List.filter (λ r, where_ (fr_event r) && negb (fr_quarantined r) && since cutoff r) (feedback_events d))).

Definition hour_us : Z := 3600000000.

Definition get_window (category : string) (hours : Z) (now : time) (d : event_log) : result (list FeedbackEvent) :=
  cutoff ← dt_add now (- (hours * hour_us));
  select_window (λ e, String.eqb (fb_category e) category) cutoff d.

Definition get_by_agent (agent : string) (days : Z) (now : time) (d : event_log) : result (list FeedbackEvent) :=
  cutoff ← dt_add now (- (days * 24 * hour_us));
  select_window (λ e, String.eqb (fb_agent e) agent) cutoff d.

(** [SELECT DISTINCT]: the first of each. *)
Fixpoint distinct (seen : list string) (l : list string) : list string :=
  match l with
  | [] => []
  | x :: l => if bool_decide (x ∈ seen) then distinct seen l else x :: distinct (x :: seen) l
  end.

Definition list_domains (d : event_log) : list string :=
  distinct [] (map (λ r, fb_category (fr_event r)) (List.filter (λ r, negb (fr_quarantined r)) (feedback_events d))).
