(* ===== verification/Dataset.v ===== *)
(** orion/core/dataset_store.py: training examples, buffered in memory and flushed to
    numbered files, one directory for each domain.

    A directory is the list of the version files in it. The name of a file is its version
    and the date it was written; no other file matches the pattern of names. *)

From S2P Require Import Prelude.
From S2P Require Import PyStr.
From S2P Require Import Json.
Open Scope Z_scope.

Inductive domain := vega | rigel.
#[export] Instance domain_eq_dec : EqDecision domain.
Proof. solve_decision. Defined.

Definition domain_name (d : domain) : string := match d with vega => "vega" | rigel => "rigel" end.

(** [_validate_domain]. *)
Definition validate_domain (s : string) : result domain :=
  if String.eqb s "vega" then Ok vega else if String.eqb s "rigel" then Ok rigel else Raise ValueError.

Definition REQUIRED_EXAMPLE_KEYS : list string :=
  ["prompt"; "completion"; "skill_id"; "confidence"; "human_verified"; "task_id"; "created_at"].

Record version_file := mk_version {
  vf_version : Z;
  vf_date : string;
  vf_examples : list jdict }.

Definition file_name (f : version_file) : string :=
  "v" +:+ py_int (vf_version f) +:+ "_" +:+ vf_date f +:+ ".jsonl".

(** A domain: its buffer, its directory and where the link [latest] points. *)
Record dataset := mk_dataset {
  buffer : list jdict;
  files : list version_file;
  latest : option string }.

Record dataset_store := mk_store {
  ds_vega : dataset;
  ds_rigel : dataset }.

Definition ds (d : domain) (s : dataset_store) : dataset := match d with vega => ds_vega s | rigel => ds_rigel s end.
Definition set_ds (d : domain) (x : dataset) (s : dataset_store) : dataset_store :=
  match d with vega => mk_store x (ds_rigel s) | rigel => mk_store (ds_vega s) x end.

Definition empty_dataset : dataset := mk_dataset [] [] None.
Definition empty_store : dataset_store := mk_store empty_dataset empty_dataset.

(** [append_example]. *)
Definition append_example (name : string) (example : jdict) : M dataset_store unit :=
  d ← mlift (validate_domain name);
  mguard (forallb (λ k, obj_has k example) REQUIRED_EXAMPLE_KEYS) ValueError;;
  mmodify (λ s, set_ds d (mk_dataset (buffer (ds d s) ++ [example]) (files (ds d s)) (latest (ds d s))) s).

(** [_versions], in the order of the versions. *)
Definition versions (x : dataset) : list version_file :=
  py_sorted (λ a b, vf_version a <=? vf_version b) (files x).
Definition next_version (x : dataset) : Z :=
  match last (versions x) with Some f => vf_version f + 1 | None => 1 end.

(** [flush]: the path returned is the name of the file within the directory. *)
Definition flush (name today : string) : M dataset_store string :=
  d ← mlift (validate_domain name);
  s ← mget;
  let x := ds d s in
  let f := mk_version (next_version x) today (buffer x) in
  mput (set_ds d (mk_dataset [] (files x ++ [f]) (Some (file_name f))) s);;
  mret (file_name f).

Definition is_verified (example : jdict) : bool := truthy (obj_field "human_verified" example).

Definition should_flush (name : string) (s : dataset_store) : result bool :=
  d ← validate_domain name;
  let l := buffer (ds d s) in
  Ok ((100 <=? Z.of_nat (length (List.filter is_verified l))) || (500 <=? Z.of_nat (length l))).

Definition get_latest_path (name : string) (s : dataset_store) : result (option string) :=
  d ← validate_domain name;
  Ok (match latest (ds d s) with
      | Some f => Some f
      | None => file_name <$> last (versions (ds d s))
      end).

Definition stats (name : string) (s : dataset_store) : result (Z * Z * Z * option string) :=
  d ← validate_domain name;
  path ← get_latest_path name s;
  let vs := versions (ds d s) in
  Ok (Z.of_nat (length (buffer (ds d s))), Z.of_nat (length vs), or_else (vf_version <$> last vs) 0, path).

(** ** What the store holds *)

(** The examples of a domain, oldest first: those in its files, then those in its buffer. *)
Definition held (x : dataset) : list jdict := List.concat (map vf_examples (files x)) ++ buffer x.

(** The versions are 1, 2, 3, ... and the link points to the last of them. *)
Record dataset_ok (x : dataset) : Prop := {
  numbered : map vf_version (files x) = map Z.of_nat (seq 1 (length (files x)));
  linked : latest x = file_name <$> last (files x) }.

Definition store_ok (s : dataset_store) : Prop := ∀ d, dataset_ok (ds d s).

Lemma ds_set d x s d' : ds d' (set_ds d x s) = if bool_decide (d = d') then x else ds d' s.
Proof. by destruct d, d'. Qed.

Lemma validate_domain_name d : validate_domain (domain_name d) = Ok d.
Proof. by destruct d. Qed.

Lemma validate_domain_ok s d : validate_domain s = Ok d → s = domain_name d.
Proof.
  unfold validate_domain. destruct (String.eqb_spec s "vega") as [->|]; [by intros [= <-]|].
  destruct (String.eqb_spec s "rigel") as [->|]; [by intros [= <-]|done].
Qed.

Lemma empty_store_ok : store_ok empty_store.
Proof. by intros []. Qed.

Lemma seq_sorted n : ∀ k, StronglySorted (λ a b, (a <=? b) = true) (map Z.of_nat (seq k n)).
Proof.
  induction n as [|n IH]; intros k; simpl; constructor; [apply IH|].
  apply Forall_forall. intros z (i & -> & Hi)%list_elem_of_fmap. apply elem_of_seq in Hi. lia.
Qed.

Lemma sorted_map {A B} (f : A → B) (R : B → B → Prop) l : StronglySorted R (map f l) →
  StronglySorted (λ a b, R (f a) (f b)) l.
Proof.
  induction l as [|a l IH]; intros H; [constructor|]. simpl in H. inversion H as [|? ? Hs Ha]; subst.
  constructor; [by apply IH|]. apply Forall_forall. intros b Hb.
  by apply (proj1 (Forall_forall _ _) Ha), list_elem_of_fmap_2.
Qed.

(** The files are listed as they were written. *)
Lemma versions_id x : dataset_ok x → versions x = files x.
Proof.
  intros [Hn _]. apply py_sorted_id, (sorted_map vf_version (λ a b, (a <=? b) = true)).
  rewrite Hn. apply seq_sorted.
Qed.

Lemma next_version_ok x : dataset_ok x → next_version x = Z.of_nat (S (length (files x))).
Proof.
  intros H. unfold next_version. rewrite (versions_id x H). destruct H as [Hn _].
  destruct (files x) as [|f l _] using rev_ind; [done|].
  rewrite last_snoc, length_app. rewrite map_app, length_app, seq_app, map_app in Hn.
  apply app_inj_2 in Hn as [_ Hn]; [|done]. injection Hn as Hn. rewrite Hn. simpl. lia.
Qed.

(** [append_example] adds its example at the end of the buffer of its domain. *)
Lemma append_example_ok name e s s' : append_example name e s = (Ok tt, s') → ∃ d, name = domain_name d
  ∧ s' = set_ds d (mk_dataset (buffer (ds d s) ++ [e]) (files (ds d s)) (latest (ds d s))) s.
Proof.
  intros H. unfold append_example in H. apply mbind_ok in H as (d & s1 & Hd & H).
  unfold mlift in Hd. injection Hd as Hd <-. apply mbind_ok in H as ([] & s2 & Hg & H).
  unfold mguard, mlift in Hg. injection Hg as _ <-. unfold mmodify in H. injection H as <-.
  exists d. split; [by apply validate_domain_ok|done].
Qed.

Lemma append_keeps_ok name e s x s' : store_ok s → append_example name e s = (x, s') → store_ok s'.
Proof.
  intros Hok H. destruct x as [[]|err].
  - apply append_example_ok in H as (d & _ & ->). intros d'. rewrite ds_set. case_bool_decide; [subst|done].
    destruct (Hok d') as [Hn Hl]. by split.
  - unfold append_example, mguard in H. munfold. crunch_match; done.
Qed.

(** [flush] writes the buffer to the next version, whatever is in it. *)
Lemma flush_ok name today s path s' : flush name today s = (Ok path, s') → ∃ d, name = domain_name d
  ∧ let f := mk_version (next_version (ds d s)) today (buffer (ds d s)) in
    path = file_name f ∧ s' = set_ds d (mk_dataset [] (files (ds d s) ++ [f]) (Some (file_name f))) s.
Proof.
  intros H. unfold flush in H. apply mbind_ok in H as (d & s1 & Hd & H).
  unfold mlift in Hd. injection Hd as Hd <-. exists d. split; [by apply validate_domain_ok|].
  munfold. by simplify_eq.
Qed.

Lemma flush_keeps_ok name today s path s' : store_ok s → flush name today s = (Ok path, s') → store_ok s'.
Proof.
  intros Hok H. apply flush_ok in H as (d & _ & _ & ->). intros d'. rewrite ds_set. case_bool_decide; [subst d'|done].
  pose proof (Hok d) as Hd. split; simpl.
  - rewrite map_app, length_app, seq_app, map_app. rewrite (numbered _ Hd). simpl. by rewrite (next_version_ok _ Hd).
  - by rewrite last_snoc.
Qed.

(** A flush moves examples, it loses none. *)
Lemma flush_held name today s path s' d : flush name today s = (Ok path, s') → held (ds d s') = held (ds d s).
Proof.
  intros H. apply flush_ok in H as (d' & _ & _ & ->). rewrite ds_set. case_bool_decide; [subst|done].
  unfold held. simpl. rewrite map_app, concat_app. simpl. by rewrite !app_nil_r.
Qed.

(** ** Flushed data is never rewritten *)

(** The operations of the store that change it. *)
Inductive store_step : dataset_store → dataset_store → Prop :=
  | step_append name e s s' : append_example name e s = (Ok tt, s') → store_step s s'
  | step_flush name today s path s' : flush name today s = (Ok path, s') → store_step s s'.

Lemma step_keeps s s' d : store_ok s → store_step s s' →
  store_ok s' ∧ files (ds d s) `prefix_of` files (ds d s') ∧ held (ds d s) `prefix_of` held (ds d s').
Proof.
  intros Hok H. destruct H as [name e s s' H|name today s path s' H].
  - split; [by eapply append_keeps_ok|]. apply append_example_ok in H as (d' & _ & ->). rewrite ds_set.
    case_bool_decide; [subst; simpl|done]. split; [done|]. unfold held. simpl. rewrite app_assoc. by eexists.
  - split; [by eapply flush_keeps_ok|]. split; [|by rewrite (flush_held _ _ _ _ _ d H)].
    apply flush_ok in H as (d' & _ & _ & ->). rewrite ds_set. case_bool_decide; [subst; simpl; by eexists|done].
Qed.

(** Datasets are versioned and append-only. Whatever is appended and flushed, the files of
    a domain are numbered 1, 2, 3, ... without a gap, a file once written is never changed
    or removed, [latest] is the file with the largest number, and every example that was
    accepted is still held, in the order of its acceptance. *)
Theorem datasets_are_append_only s s' d :
  rtc store_step empty_store s → rtc store_step s s' →
  map vf_version (files (ds d s')) = map Z.of_nat (seq 1 (length (files (ds d s'))))
  ∧ files (ds d s) `prefix_of` files (ds d s')
  ∧ held (ds d s) `prefix_of` held (ds d s')
  ∧ get_latest_path (domain_name d) s' = Ok (file_name <$> last (files (ds d s'))).
Proof.
  intros H0 H.
  assert (Hgen : ∀ a b, rtc store_step a b → store_ok a →
    store_ok b ∧ files (ds d a) `prefix_of` files (ds d b) ∧ held (ds d a) `prefix_of` held (ds d b)).
  { clear. induction 1 as [a|a b c Hab _ IH]; intros Ha; [done|].
    destruct (step_keeps a b d Ha Hab) as (Hb & Hf & Hh). destruct (IH Hb) as (Hc & Hf' & Hh').
    split_and!; [done|by etrans|by etrans]. }
  destruct (Hgen _ _ H0 empty_store_ok) as (Hs & _ & _). destruct (Hgen _ _ H Hs) as (Hs' & Hf & Hh).
  split_and!; [apply (numbered _ (Hs' d))|done|done|].
  unfold get_latest_path. rewrite validate_domain_name. cbn [mbind rbind].
  rewrite (linked _ (Hs' d)), (versions_id _ (Hs' d)). by destruct (file_name <$> last (files (ds d s'))).
Qed.

Module DatasetDemo.
Definition example (v : bool) (id : string) : jdict :=
  [("prompt", JStr "p"); ("completion", JStr "c"); ("skill_id", JStr "rigel.skill.x"); ("confidence", JFloat (9 # 10));
   ("human_verified", JBool v); ("task_id", JStr id); ("created_at", JStr "2026-01-01")].
Definition one : dataset_store := (append_example "rigel" (example true "t1") empty_store).2.
Definition flushed : dataset_store := (flush "rigel" "2026-01-02" one).2.

Example refused_examples :
  (append_example "gamma" (example true "t") one).1 = Raise ValueError
  ∧ (append_example "vega" [("prompt", JStr "p")] one).1 = Raise ValueError.
Proof. by vm_compute. Qed.
End DatasetDemo.
Import DatasetDemo.

Lemma datasets_are_append_only_witness :
  get_latest_path "rigel" flushed = Ok (Some "v1_2026-01-02.jsonl") ∧ held (ds rigel flushed) = [example true "t1"].
Proof.
  assert (H1 : rtc store_step empty_store one).
  { apply rtc_once. apply (step_append "rigel" (example true "t1")). vm_compute. reflexivity. }
  assert (H2 : rtc store_step one flushed).
  { apply rtc_once. apply (step_flush "rigel" "2026-01-02" one "v1_2026-01-02.jsonl"). vm_compute. reflexivity. }
  destruct (datasets_are_append_only one flushed rigel H1 H2) as (_ & _ & _ & Hl).
  split; [exact Hl|]. vm_compute. reflexivity.
Defined.
