(* ===== verification/Curation.v ===== *)
(** orion/__init__.py: what Orion takes in and which events become training examples.

    The service is its event log, its dataset store and its counts; the registry is
    an argument. [json.loads], texts of the clock and today's date are arguments. *)

From S2P Require Import Prelude.
From S2P Require Import PyStr.
From S2P Require Import PyTime.
From S2P Require Import Json.
From S2P Require Import PyDict.
From S2P Require Import Contracts.
From S2P Require Import Registry.
From S2P Require Import Feedback.
From S2P Require Import Dataset.
From Stdlib Require Import Ascii.
Open Scope Z_scope.

Record orion := mk_orion {
  o_log : event_log;
  o_data : dataset_store;
  o_counts : list (string * Z) }.

Definition on_log {A} (m : M event_log A) : M orion A := λ s,
  let '(r, l) := m (o_log s) in (r, mk_orion l (o_data s) (o_counts s)).
Definition on_data {A} (m : M dataset_store A) : M orion A := λ s,
  let '(r, d) := m (o_data s) in (r, mk_orion (o_log s) d (o_counts s)).

(** f"{q:.3f}". *)
Definition fmt3 (q : Q) : string :=
  let n := round_div (Z.abs (Qnum q) * 1000) (Zpos (Qden q)) in
  (if Qnum q <? 0 then "-" else "") +:+ py_int (n / 1000) +:+ "." +:+ pad 3 (Z.to_N (n mod 1000)).

Section Curate.
Context (json_loads : string → result json).

(** A stored text as a dictionary; none, or an empty one, is empty. *)
Definition stored_dict (o : option string) : result jdict :=
  match o with
  | Some s =>
      if truthy_str s then
        v ← json_loads s;
        match v with JObj d => Ok d | _ => Raise AttributeError end
      else Ok []
  | None => Ok []
  end.

(** The example made of a row. *)
Definition example_for (r : event_row) : result jdict :=
  payload ← stored_dict (ev_payload r);
  res ← stored_dict (ev_result r);
  let prompt := jor (obj_field "prompt" payload)
    (JStr ("agent=" +:+ ev_agent r +:+ " skill=" +:+ ev_skill r +:+ " task=" +:+ ev_task r)) in
  let completion := jor (obj_field "completion" res)
    (JStr ("outcome=" +:+ ev_outcome r +:+ " confidence=" +:+ fmt3 (ev_confidence r))) in
  Ok [("prompt", prompt); ("completion", completion); ("skill_id", JStr (ev_skill r));
      ("confidence", JFloat (ev_confidence r)); ("human_verified", JBool (ev_verified r));
      ("task_id", JStr (ev_task r)); ("created_at", JStr (ev_created r))].

(** The example is kept unless the store refuses it. *)
Definition try_append (name : string) (ex : jdict) : M orion bool := λ s,
  match on_data (append_example name ex) s with
  | (Ok _, s') => (Ok true, s')
  | (Raise ValueError, s') => (Ok false, s')
  | (Raise e, s') => (Raise e, s')
  end.

Fixpoint curate_rows (name : string) (rows : list event_row) : M orion (list string) :=
  match rows with
  | [] => mret []
  | r :: rows =>
      ex ← mlift (example_for r);
      kept ← try_append name ex;
      ids ← curate_rows name rows;
      mret (if kept : bool then ev_id r :: ids else ids)
  end.

Definition CURATE_DOMAINS : list string := ["vega"; "rigel"].

(** [by_domain]: the domains in the order of their first rows, each with its rows. *)
Definition by_domain (rows : list event_row) : list (string * list event_row) :=
  map (λ n, (n, List.filter (λ r, String.eqb (ev_domain r) n) rows))
      (distinct [] (List.filter (λ n, bool_decide (n ∈ CURATE_DOMAINS)) (map ev_domain rows))).

(** One turn of the loop over the domains. *)
Definition curate_domain (now today : string) (g : string * list event_row) : M orion unit :=
  ids ← curate_rows g.1 g.2;
  match ids with
  | [] => mret tt
  | _ =>
      on_log (mmodify (mark_curated now ids g.1));;
      s ← mget;
      full ← mlift (should_flush g.1 (o_data s));
      if full : bool then on_data (flush g.1 today);; mret tt else mret tt
  end.

(** [_curate_from_events]. *)
Definition curate_from_events (now today : string) : M orion unit :=
  s ← mget;
  miter (curate_domain now today) (by_domain (get_uncurated_events (o_log s))).

(** ** Intake *)

Definition execution_failed (e : RefineryFeedbackEvent) : bool :=
  match rf_execution e with
  | Some x => bool_decide (x ∈ ["fail"; "timeout"; "error"])
  | None => false
  end.

Definition eligible (e : RefineryFeedbackEvent) : bool :=
  rf_verified e
  || bool_decide (rf_outcome e ≠ fail) && Qle_bool (3 # 4) (rf_confidence e) && negb (execution_failed e).

Record ingested := mk_ingested {
  in_eligible : bool;
  in_skill : string;
  in_count : Z }.

(** The agent must be registered and offer the skill, when there is a registry. *)
Definition known_event (reg : option registry) (e : RefineryFeedbackEvent) : result unit :=
  match reg with
  | None => Ok tt
  | Some reg =>
      match get_agent (rf_agent e) reg with
      | None => Raise ValueError
      | Some m => validate_feedback_event e m
      end
  end.

(** [ingest]: [sql_now] is the default of [created_at]. *)
Definition ingest (reg : option registry) (sql_now now today : string) (e : RefineryFeedbackEvent) :
    M orion ingested :=
  mlift (known_event reg e);;
  if eligible e then
    on_log (append_event sql_now e false);;
    s ← mget;
    let n := or_else (assoc_get (rf_skill e) (o_counts s)) 0 + 1 in
    mput (mk_orion (o_log s) (o_data s) (assoc_set (rf_skill e) n (o_counts s)));;
    curate_from_events now today;;
    mret (mk_ingested true (rf_skill e) n)
  else
    on_log (append_event sql_now e true);;
    mret (mk_ingested false (rf_skill e) 0).
End Curate.

(** ** Theorems

    What the curation of stored events guarantees on its own ([Curation]): run without
    interruption, it makes at most one training example of an event, and only of a strong
    one. The other writers of the datasets, and tasks that interrupt each other, are in
    [OrionService]. *)

Section Once.
Context (json_loads : string → result json).

(** A row whose stored texts, if any, are dictionaries. *)
Definition row_good (r : event_row) : Prop := ev_task r = ev_id r ∧ ∃ ex, example_for json_loads r = Ok ex.

(** [c] records the curation of a strong row, of its domain, whose example is [ex]. *)
Definition trains (rows : list event_row) (ex : jdict) (c : curated_row) : Prop :=
  ∃ r, r ∈ rows ∧ ev_id r = cu_source c ∧ strong r = true ∧ ev_domain r = cu_domain c
       ∧ example_for json_loads r = Ok ex.

Definition curated_in (d : domain) (l : list curated_row) : list curated_row :=
  List.filter (λ c, String.eqb (cu_domain c) (domain_name d)) l.

Record orion_ok (s : orion) : Prop := {
  ids_distinct : NoDup (map ev_id (events (o_log s)));
  rows_good : Forall row_good (events (o_log s));
  curated_distinct : NoDup (map cu_source (curated_events (o_log s)));
  held_curated : ∀ d, Forall2 (trains (events (o_log s))) (held (ds d (o_data s)))
                               (curated_in d (curated_events (o_log s)));
  curated_domains : Forall (λ c, ∃ d, cu_domain c = domain_name d) (curated_events (o_log s)) }.

(** ** Rows *)

Lemma set_ds_same d s : set_ds d (mk_dataset (buffer (ds d s)) (files (ds d s)) (latest (ds d s))) s = s.
Proof. destruct s as [[] []], d; done. Qed.

Lemma example_keys r ex : example_for json_loads r = Ok ex → forallb (λ k, obj_has k ex) REQUIRED_EXAMPLE_KEYS = true.
Proof. intros H. unfold example_for in H. rok. reflexivity. Qed.

Lemma try_append_ok d ex s : forallb (λ k, obj_has k ex) REQUIRED_EXAMPLE_KEYS = true →
  try_append (domain_name d) ex s
  = (Ok true, mk_orion (o_log s)
      (set_ds d (mk_dataset (buffer (ds d (o_data s)) ++ [ex]) (files (ds d (o_data s))) (latest (ds d (o_data s)))) (o_data s))
      (o_counts s)).
Proof.
  intros Hk. unfold try_append, on_data, append_example, mguard, mlift, mmodify, mbind, M_bind.
  rewrite validate_domain_name, Hk. done.
Qed.

Lemma curate_rows_ok d rows : Forall row_good rows → ∃ exs, rmap (example_for json_loads) rows = Ok exs ∧ ∀ s,
  curate_rows json_loads (domain_name d) rows s
  = (Ok (map ev_id rows), mk_orion (o_log s)
      (set_ds d (mk_dataset (buffer (ds d (o_data s)) ++ exs) (files (ds d (o_data s))) (latest (ds d (o_data s)))) (o_data s))
      (o_counts s)).
Proof.
  induction 1 as [|r rows [_ [ex Hex]] _ IH].
  { exists []. split; [done|]. intros s. rewrite app_nil_r, set_ds_same. by destruct s. }
  destruct IH as (exs & Hexs & IH). exists (ex :: exs). split; [simpl; rewrite Hex; simpl; by rewrite Hexs|].
  intros s. simpl. unfold mlift, mbind, M_bind. rewrite Hex, (try_append_ok _ _ _ (example_keys _ _ Hex)), IH.
  simpl. rewrite !ds_set, !bool_decide_eq_true_2 by done. simpl. rewrite <-app_assoc.
  by destruct d.
Qed.

(** ** Marks *)

Lemma insert_curated_fresh now dom l id : id ∉ map cu_source l → insert_curated now dom l id = l ++ [mk_curated id now dom].
Proof.
  intros Hn. unfold insert_curated. destruct (existsb _ l) eqn:E; [|done].
  apply existsb_exists in E as (c & Hc & He). apply String.eqb_eq in He. subst.
  destruct Hn. apply list_elem_of_In in Hc. by apply list_elem_of_fmap_2.
Qed.

Lemma mark_fresh now dom ids : ∀ l, NoDup ids → (∀ i, i ∈ ids → i ∉ map cu_source l) →
  foldl (insert_curated now dom) l ids = l ++ map (λ i, mk_curated i now dom) ids.
Proof.
  induction ids as [|i ids IH]; intros l Hnd Hf; simpl; [by rewrite app_nil_r|].
  apply NoDup_cons in Hnd as [Hi Hnd]. rewrite insert_curated_fresh by (apply Hf; by left).
  rewrite IH; [by rewrite <-app_assoc|done|]. intros j Hj. rewrite map_app. intros [Hin|Hin]%elem_of_app.
  - by apply (Hf j); [right|].
  - apply list_elem_of_singleton in Hin. simpl in Hin. by subst.
Qed.

Lemma sources_new now dom ids : map cu_source (map (λ i, mk_curated i now dom) ids) = ids.
Proof. rewrite map_map. apply map_id. Qed.

Lemma curated_in_app d l l' : curated_in d (l ++ l') = curated_in d l ++ curated_in d l'.
Proof. apply List.filter_app. Qed.

Lemma curated_in_new d d' now ids : curated_in d (map (λ i, mk_curated i now (domain_name d')) ids)
  = if bool_decide (d' = d) then map (λ i, mk_curated i now (domain_name d')) ids else [].
Proof.
  induction ids as [|i ids IH]; simpl; [by case_bool_decide|]. rewrite IH. by destruct d, d'.
Qed.

(** ** One domain *)

(** The rows of a group are rows of the table, strong, of the domain and not curated. *)
Definition group_ok (s : orion) (g : string * list event_row) : Prop :=
  (∃ d, g.1 = domain_name d) ∧ NoDup (map ev_id g.2)
  ∧ Forall (λ r, r ∈ events (o_log s) ∧ strong r = true ∧ ev_domain r = g.1
                 ∧ ev_id r ∉ map cu_source (curated_events (o_log s))) g.2.

Definition rows_curated (now : string) (g : string * list event_row) (s : orion) : event_log :=
  mk_log (events (o_log s)) (curated_events (o_log s) ++ map (λ i, mk_curated i now g.1) (map ev_id g.2))
    (feedback_events (o_log s)) (quarantine_log (o_log s)).

Lemma forall2_examples rows exs (l : list curated_row) now dom ev :
  rmap (example_for json_loads) rows = Ok exs →
  Forall (λ r, r ∈ ev ∧ strong r = true ∧ ev_domain r = dom) rows →
  Forall2 (trains ev) exs (map (λ i, mk_curated i now dom) (map ev_id rows)).
Proof.
  revert exs. induction rows as [|r rows IH]; intros exs H Hr; simpl in H; rok; [constructor|].
  apply Forall_cons_1 in Hr as [(? & ? & ?) Hr]. simpl. constructor; [|by apply IH]. by exists r.
Qed.

Lemma curate_domain_ok now today g s : orion_ok s → group_ok s g →
  ∃ data, curate_domain json_loads now today g s = (Ok tt, mk_orion (rows_curated now g s) data (o_counts s))
    ∧ orion_ok (mk_orion (rows_curated now g s) data (o_counts s)).
Proof.
  intros Hok ([d Hd] & Hnd & Hg). destruct g as [n rows]. simpl in *. subst n.
  assert (Hgood : Forall row_good rows).
  { eapply Forall_impl; [exact Hg|]. intros r (Hr & _). by apply (proj1 (Forall_forall _ _) (rows_good _ Hok)). }
  destruct (curate_rows_ok d rows Hgood) as (exs & Hexs & Hrun).
  assert (Hcur : rows_curated now (domain_name d, rows) s
    = mark_curated now (map ev_id rows) (domain_name d) (o_log s)).
  { unfold rows_curated, mark_curated. simpl. rewrite mark_fresh; [done|done|].
    intros i (r & -> & Hr)%list_elem_of_fmap. by apply (proj1 (Forall_forall _ _) Hg). }
  assert (Hinv : ∀ data, (∀ d', held (ds d' data) = held (ds d' (o_data s)) ++ (if bool_decide (d = d') then exs else [])) →
    orion_ok (mk_orion (rows_curated now (domain_name d, rows) s) data (o_counts s))).
  { intros data Hheld. destruct Hok as [H1 H2 H3 H4 H5]. split; simpl; try done.
    - rewrite map_app. apply NoDup_app. split_and!; [done| |].
      + intros i Hc Hi. rewrite sources_new in Hi. apply list_elem_of_fmap in Hi as (r & -> & Hr).
        by apply (proj1 (Forall_forall _ _) Hg) in Hr as (_ & _ & _ & Hn).
      + by rewrite sources_new.
    - intros d'. rewrite Hheld, curated_in_app, curated_in_new. apply Forall2_app; [apply H4|].
      case_bool_decide as E; [|constructor]. subst d'. apply (forall2_examples _ _ [] _ _ _ Hexs).
      eapply Forall_impl; [exact Hg|]. intros r (? & ? & ? & _). done.
    - apply Forall_app. split; [done|]. apply Forall_forall. intros c (i & -> & _)%list_elem_of_fmap. by exists d. }
  unfold curate_domain. simpl. rewrite (mbind_step _ _ _ _ _ (Hrun s)).
  set (data1 := set_ds d _ (o_data s)).
  assert (Hheld1 : ∀ d', held (ds d' data1) = held (ds d' (o_data s)) ++ (if bool_decide (d = d') then exs else [])).
  { intros d'. unfold data1. rewrite ds_set. case_bool_decide as E; [subst|by rewrite app_nil_r].
    unfold held. simpl. by rewrite app_assoc. }
  destruct rows as [|r rows].
  { simpl in Hexs. injection Hexs as <-. exists data1. split; [|by apply Hinv]. unfold mret, M_ret.
    unfold rows_curated. simpl. rewrite app_nil_r. by destruct s as [[]]. }
  cbn [map]. change (ev_id r :: map ev_id rows) with (map ev_id (r :: rows)).
  unfold on_log at 1, mmodify, mbind at 1, M_bind at 1. simpl o_log. rewrite <-Hcur.
  unfold mget, mbind at 1, M_bind at 1. simpl o_data. unfold mlift, mbind at 1, M_bind at 1.
  unfold should_flush. rewrite validate_domain_name. cbn [mbind rbind].
  destruct (_ || _).
  - unfold on_data. simpl o_data. destruct (flush (domain_name d) today data1) as [[p|e] data2] eqn:Ef.
    + exists data2. unfold mbind, M_bind. simpl. rewrite Ef. split; [done|]. apply Hinv. intros d'.
      by rewrite (flush_held _ _ _ _ _ d' Ef).
    + exfalso. unfold flush in Ef. munfold. rewrite validate_domain_name in Ef. by simplify_eq.
  - exists data1. split; [done|by apply Hinv].
Qed.

(** ** All domains *)

Lemma domain_key_inj {A B} (f : A → B) l a b : NoDup (map f l) → a ∈ l → b ∈ l → f a = f b → a = b.
Proof.
  induction l as [|x l IH]; intros Hnd Ha Hb E; [by apply elem_of_nil in Ha|].
  apply NoDup_cons in Hnd as [Hn Hnd].
  apply elem_of_cons in Ha as [->|Ha], Hb as [->|Hb]; [done| | |by apply IH]; destruct Hn.
  - rewrite E. by apply list_elem_of_fmap_2.
  - rewrite <-E. by apply list_elem_of_fmap_2.
Qed.

Lemma group_survives now g g' s data : orion_ok s → g.1 ≠ g'.1 → group_ok s g → group_ok s g' →
  group_ok (mk_orion (rows_curated now g s) data (o_counts s)) g'.
Proof.
  intros Hok Hne (_ & _ & Hg) (Hd & Hnd & Hg'). split_and!; [done|done|].
  apply Forall_forall. intros r Hr. destruct (proj1 (Forall_forall _ _) Hg' _ Hr) as (He & Hs & Hdom & Hn).
  split_and!; [done..|]. simpl. rewrite map_app, sources_new. intros [?|Hin]%elem_of_app; [done|].
  apply list_elem_of_fmap in Hin as (r' & Eid & Hr').
  destruct (proj1 (Forall_forall _ _) Hg _ Hr') as (He' & _ & Hdom' & _).
  apply (domain_key_inj _ _ _ _ (ids_distinct _ Hok) He He') in Eid. subst r'. congruence.
Qed.

(** What a pass over [gs] leaves: the log with all their rows marked. *)
Definition all_sources (s : orion) : list string := map cu_source (curated_events (o_log s)).

Lemma curate_groups_ok now today gs : ∀ s, orion_ok s → NoDup (map fst gs) → Forall (group_ok s) gs →
  ∃ s', miter (curate_domain json_loads now today) gs s = (Ok tt, s') ∧ orion_ok s'
    ∧ events (o_log s') = events (o_log s) ∧ o_counts s' = o_counts s
    ∧ all_sources s' = all_sources s ++ List.concat (map (λ g, map ev_id g.2) gs).
Proof.
  induction gs as [|g gs IH]; intros s Hok Hnd Hg.
  { exists s. simpl. rewrite app_nil_r. done. }
  apply Forall_cons_1 in Hg as [Hg Hgs]. apply NoDup_cons in Hnd as [Hn Hnd].
  destruct (curate_domain_ok now today g s Hok Hg) as (data & Hrun & Hok1).
  destruct (IH _ Hok1 Hnd) as (s' & Hrun' & Hok' & He & Hc & Ha).
  { apply Forall_forall. intros g' Hg'. apply group_survives; [done| |done|by apply (proj1 (Forall_forall _ _) Hgs)].
    intros E. destruct Hn. rewrite E. by apply list_elem_of_fmap_2. }
  exists s'. simpl. rewrite (mbind_step _ _ _ _ _ Hrun). split_and!; try done. rewrite Ha.
  unfold all_sources. simpl. by rewrite map_app, sources_new, app_assoc.
Qed.

Lemma distinct_spec l : ∀ seen, NoDup (distinct seen l) ∧ ∀ x, x ∈ distinct seen l ↔ x ∈ l ∧ x ∉ seen.
Proof.
  induction l as [|y l IH]; intros seen; simpl.
  { split; [constructor|]. intros x. rewrite elem_of_nil. naive_solver. }
  case_bool_decide as Hy.
  - destruct (IH seen) as [H1 H2]. split; [done|]. intros x. rewrite H2, elem_of_cons. naive_solver.
  - destruct (IH (y :: seen)) as [H1 H2]. split.
    + constructor; [rewrite H2; set_solver|done].
    + intros x. rewrite elem_of_cons, H2, elem_of_cons. destruct (decide (x = y)); set_solver.
Qed.

Lemma filter_subset {A} (p : A → bool) l x : x ∈ List.filter p l ↔ x ∈ l ∧ p x = true.
Proof. by rewrite !list_elem_of_In, List.filter_In. Qed.

Lemma filter_ids {A B} (f : A → B) (p : A → bool) l : NoDup (map f l) → NoDup (map f (List.filter p l)).
Proof.
  induction l as [|x l IH]; intros Hnd; [done|]. apply NoDup_cons in Hnd as [Hn Hnd]. simpl.
  destruct (p x); [|by apply IH]. constructor; [|by apply IH].
  intros (y & Hy & [Hin _]%filter_subset)%list_elem_of_fmap. destruct Hn. rewrite Hy. by apply list_elem_of_fmap_2.
Qed.

Lemma is_curated_iff d id : is_curated d id = true ↔ id ∈ map cu_source (curated_events d).
Proof.
  unfold is_curated. rewrite existsb_exists. split.
  - intros (c & Hc & E). apply String.eqb_eq in E. subst. apply list_elem_of_In in Hc. by apply list_elem_of_fmap_2.
  - intros (c & -> & Hc)%list_elem_of_fmap. exists c. by rewrite <-list_elem_of_In, String.eqb_refl.
Qed.

Lemma uncurated_iff d r : r ∈ get_uncurated_events d ↔
  r ∈ events d ∧ strong r = true ∧ ev_id r ∉ map cu_source (curated_events d).
Proof.
  unfold get_uncurated_events. rewrite elem_of_py_sorted, filter_subset, andb_true_iff, negb_true_iff.
  rewrite <-is_curated_iff. destruct (is_curated d (ev_id r)); naive_solver.
Qed.

Lemma curate_domains_iff n : n ∈ CURATE_DOMAINS ↔ ∃ d, n = domain_name d.
Proof.
  unfold CURATE_DOMAINS. rewrite !elem_of_cons, elem_of_nil. split; [|intros [[] ->]; tauto].
  intros [->|[->|[]]]; [by exists vega|by exists rigel].
Qed.

Lemma by_domain_ok s : orion_ok s →
  NoDup (map fst (by_domain (get_uncurated_events (o_log s))))
  ∧ Forall (group_ok s) (by_domain (get_uncurated_events (o_log s))).
Proof.
  intros Hok. set (rows := get_uncurated_events (o_log s)). unfold by_domain. split.
  { rewrite map_map. simpl. rewrite map_id. apply distinct_spec. }
  apply Forall_forall. intros g (n & -> & Hn)%list_elem_of_fmap. apply distinct_spec in Hn as [Hn _].
  apply filter_subset in Hn as [_ Hn]. apply bool_decide_eq_true in Hn. split_and!; simpl.
  - by apply curate_domains_iff.
  - apply filter_ids. unfold rows, get_uncurated_events.
    rewrite (Permutation_map ev_id (py_sorted_perm by_created _)). apply filter_ids, (ids_distinct _ Hok).
  - apply Forall_forall. intros r [Hr Hd]%filter_subset. apply uncurated_iff in Hr as (? & ? & ?).
    apply String.eqb_eq in Hd. done.
Qed.

(** Nothing is left to curate. *)
Definition settled (s : orion) : Prop :=
  ∀ r, r ∈ events (o_log s) → strong r = true → ev_domain r ∈ CURATE_DOMAINS → ev_id r ∈ all_sources s.

Lemma curate_from_events_ok now today s : orion_ok s →
  ∃ s', curate_from_events json_loads now today s = (Ok tt, s') ∧ orion_ok s' ∧ settled s'
    ∧ events (o_log s') = events (o_log s) ∧ o_counts s' = o_counts s.
Proof.
  intros Hok. destruct (by_domain_ok s Hok) as [Hnd Hg].
  destruct (curate_groups_ok now today _ s Hok Hnd Hg) as (s' & Hrun & Hok' & He & Hc & Ha).
  exists s'. split_and!; try done. intros r Hr Hs Hd. rewrite He in Hr. rewrite Ha.
  destruct (decide (ev_id r ∈ all_sources s)) as [|Hn]; [by apply elem_of_app; left|].
  apply elem_of_app. right. apply list_elem_of_In, in_concat. exists (map ev_id
    (List.filter (λ x, String.eqb (ev_domain x) (ev_domain r)) (get_uncurated_events (o_log s)))).
  rewrite <-!list_elem_of_In. assert (Hu : r ∈ get_uncurated_events (o_log s)) by (by apply uncurated_iff). split.
  - apply list_elem_of_fmap. exists (ev_domain r, List.filter (λ x, String.eqb (ev_domain x) (ev_domain r))
      (get_uncurated_events (o_log s))). split; [done|]. apply list_elem_of_fmap. exists (ev_domain r). split; [done|].
    apply distinct_spec. split; [|by intros ?%elem_of_nil]. apply filter_subset.
    split; [by apply list_elem_of_fmap_2|by apply bool_decide_eq_true].
  - apply list_elem_of_fmap_2, filter_subset. by rewrite String.eqb_refl.
Qed.

(** ** New rows *)

Definition with_events (l : list event_row) (s : orion) : orion :=
  mk_orion (set_events l (o_log s)) (o_data s) (o_counts s).

Lemma insert_event_cases r l : insert_event r l = l ∧ ev_id r ∈ map ev_id l
  ∨ insert_event r l = l ++ [r] ∧ ev_id r ∉ map ev_id l.
Proof.
  unfold insert_event. destruct (existsb _ l) eqn:E; [left|right]; split; try done.
  - apply existsb_exists in E as (x & Hx & Ex). apply String.eqb_eq in Ex. rewrite <-Ex.
    apply list_elem_of_fmap_2. by apply list_elem_of_In.
  - intros (x & Ex & Hx)%list_elem_of_fmap. rewrite existsb_false_iff in E. specialize (E _ Hx).
    by rewrite Ex, String.eqb_refl in E.
Qed.

Lemma insert_ok r s : orion_ok s → row_good r → orion_ok (with_events (insert_event r (events (o_log s))) s).
Proof.
  intros [H1 H2 H3 H4 H5] Hr. destruct (insert_event_cases r (events (o_log s))) as [[-> _]|[-> Hn]].
  { destruct s as [[]]. by split. }
  split; simpl; try done.
  - rewrite map_app. apply NoDup_app. split_and!; [done| |apply NoDup_singleton].
    intros i Hi Hi2%list_elem_of_singleton. by subst.
  - apply Forall_app. split; [done|]. by apply Forall_singleton.
  - intros d. eapply Forall2_impl; [apply H4|]. intros ex c (r' & Hr' & Hrest).
    exists r'. split; [by apply elem_of_app; left|done].
Qed.

Lemma refinery_row_good now e q : row_good (row_of_refinery now e q).
Proof. split; [done|]. unfold example_for. simpl. by eexists. Qed.

Lemma append_event_ok now e q s : orion_ok s →
  on_log (append_event now e q) s
  = (Ok (uuid_str (rf_task e)), with_events (insert_event (row_of_refinery now e q) (events (o_log s))) s)
  ∧ orion_ok (with_events (insert_event (row_of_refinery now e q) (events (o_log s))) s).
Proof. intros Hok. split; [done|]. apply insert_ok; [done|apply refinery_row_good]. Qed.

Lemma counts_irrelevant s c : orion_ok s → orion_ok (mk_orion (o_log s) (o_data s) c).
Proof. intros [H1 H2 H3 H4 H5]. by split. Qed.

(** What taking in an event does. *)
Lemma ingest_ok reg sql_now now today e s : orion_ok s → ∃ x s', ingest json_loads reg sql_now now today e s = (x, s')
  ∧ orion_ok s'
  ∧ match known_event reg e with
    | Raise err => x = Raise err ∧ s' = s
    | Ok _ => events (o_log s') = insert_event (row_of_refinery sql_now e (negb (eligible e))) (events (o_log s))
        ∧ if eligible e then ∃ n, x = Ok (mk_ingested true (rf_skill e) n) ∧ settled s'
          else x = Ok (mk_ingested false (rf_skill e) 0) ∧ o_data s' = o_data s ∧ all_sources s' = all_sources s
    end.
Proof.
  intros Hok. unfold ingest. destruct (known_event reg e) as [[]|err] eqn:Ek.
  2: { exists (Raise err), s. unfold mlift, mbind, M_bind. done. }
  destruct (append_event_ok sql_now e (negb (eligible e)) s Hok) as [Happ Hok1].
  unfold mlift, mbind at 1, M_bind at 1. destruct (eligible e) eqn:El; simpl negb in *.
  - rewrite (mbind_step _ _ _ _ _ Happ). unfold mget, mput, mbind at 1 2, M_bind at 1 2.
    set (s1 := mk_orion _ _ _).
    assert (Hok2 : orion_ok s1) by apply counts_irrelevant, Hok1.
    destruct (curate_from_events_ok now today s1 Hok2) as (s' & Hrun & Hok' & Hset & He & _).
    eexists _, s'. rewrite (mbind_step _ _ _ _ _ Hrun). split; [done|]. split; [done|].
    rewrite He. split; [done|]. by eexists.
  - eexists _, _. rewrite (mbind_step _ _ _ _ _ Happ). done.
Qed.

(** ** Migrated rows *)

Context (py_str : json → string) (to_float : json → result Q) (float_repr : Q → string).

(** What [json.dumps] writes for an object, [json.loads] reads as an object. *)
Hypothesis loads_object : ∀ d, ∃ d', json_loads (dumps_default float_repr (JObj d)) = Ok (JObj d').

Lemma stored_dict_dump k v : ∃ d, stored_dict json_loads (Some (dump_one float_repr k v)) = Ok d.
Proof.
  destruct (loads_object [(k, v)]) as [d Hd]. exists d. unfold stored_dict, dump_one. rewrite Hd. done.
Qed.

Lemma migrate_line_good stem now raw r :
  migrate_line json_loads py_str to_float float_repr stem now raw = Ok (Some r) → row_good r.
Proof.
  intros H. unfold migrate_line in H. cbv zeta in H. destruct (negb (truthy_str (strip raw))); [done|].
  destruct (json_loads (strip raw)) as [[| | | | | |data]|]; try done.
  destruct (negb (truthy_str (str_of py_str _))); [done|]. rok. split; [done|].
  unfold example_for. simpl ev_payload. simpl ev_result.
  destruct (stored_dict_dump "prompt" (obj_default "prompt" (JStr "") data)) as [p ->].
  destruct (stored_dict_dump "completion" (obj_default "completion" (JStr "") data)) as [c ->]. by eexists.
Qed.

Lemma migrate_lines_good stem now lines : ∀ rows,
  migrate_lines json_loads py_str to_float float_repr stem now lines = Ok rows → Forall row_good rows.
Proof.
  induction lines as [|l lines IH]; intros rows H; simpl in H; rok; [constructor|].
  destruct x as [r|]; [constructor; [by eapply migrate_line_good|]|]; by apply IH.
Qed.

Lemma inserts_ok rows : Forall row_good rows → ∀ s, orion_ok s →
  orion_ok (with_events (foldl (λ l r, insert_event r l) (events (o_log s)) rows) s).
Proof.
  induction 1 as [|r rows Hr _ IH]; intros s Hok; simpl; [by destruct s as [[]]|].
  apply (IH (with_events (insert_event r (events (o_log s))) s)), insert_ok; done.
Qed.

Lemma migrate_ok now fs : ∀ s, orion_ok s →
  orion_ok (on_log (migrate_files json_loads py_str to_float float_repr now fs) s).2.
Proof.
  induction fs as [|f fs IH]; intros s Hok; [by destruct s|]. simpl.
  destruct (is_uuid_text (fl_stem f)); [by apply IH|]. destruct (fl_lines f) as [lines|]; [|by apply IH].
  unfold on_log, mlift, mbind, M_bind. 
  destruct (migrate_lines _ _ _ _ _ _ lines) as [rows|err] eqn:E; [|by destruct s].
  unfold mmodify. specialize (IH _ (inserts_ok _ (migrate_lines_good _ _ _ _ E) s Hok)).
  unfold on_log in IH. simpl in IH.
  destruct (migrate_files _ _ _ _ now fs _) as [[n|err] l]; simpl in *; done.
Qed.

(** ** The theorems *)

(** The event path on its own: no other task of the service runs between its parts, and the
    signals and the training endpoint add nothing. *)
Inductive event_step (s : orion) : orion → Prop :=
  | step_ingest reg sql_now now today e : event_step s (ingest json_loads reg sql_now now today e s).2
  | step_curate now today : event_step s (curate_from_events json_loads now today s).2
  | step_migrate now fs : event_step s (on_log (migrate_files json_loads py_str to_float float_repr now fs) s).2.

Definition no_orion : orion := mk_orion (mk_log [] [] [] []) empty_store [].

Lemma orion_reachable_ok s : rtc event_step no_orion s → orion_ok s.
Proof.
  intros H. cut (orion_ok no_orion → orion_ok s).
  { intros Hc. apply Hc. split; simpl; try constructor. by intros []; constructor. }
  induction H as [|s1 s2 s3 Hs _ IH]; [done|]. intros Hok. apply IH. destruct Hs as [reg sn now today e|now today|now fs].
  - destruct (ingest_ok reg sn now today e s1 Hok) as (x & s' & -> & ? & _). done.
  - destruct (curate_from_events_ok now today s1 Hok) as (s' & -> & ? & _). done.
  - by apply migrate_ok.
Qed.

Lemma trains_rows ev exs cs : Forall2 (trains ev) exs cs → ∃ rows,
  rmap (example_for json_loads) rows = Ok exs ∧ map ev_id rows = map cu_source cs
  ∧ Forall (λ r, r ∈ ev ∧ strong r = true) rows ∧ map ev_domain rows = map cu_domain cs.
Proof.
  induction 1 as [|ex c exs cs (r & Hr & Hid & Hs & Hd & Hex) _ (rows & H1 & H2 & H3 & H4)]; [by exists []|].
  exists (r :: rows). simpl. rewrite Hex. simpl. rewrite H1. split_and!; [done|simpl; congruence|by constructor|simpl; congruence].
Qed.

(** On its own, the event path trains on an event at most once, and only when it is strong:
    the examples a domain holds are the examples of distinct events, in the order they were
    marked as curated, none of them quarantined, each verified by a human or a success of
    confidence at least 0.9. *)
Theorem event_path_alone_trains_once s d : rtc event_step no_orion s →
  ∃ rows, rmap (example_for json_loads) rows = Ok (held (ds d (o_data s)))
    ∧ NoDup (map ev_id rows)
    ∧ map ev_id rows = map cu_source (curated_in d (curated_events (o_log s)))
    ∧ ∀ r, r ∈ rows → r ∈ events (o_log s) ∧ ev_domain r = domain_name d ∧ ev_quarantined r = false
        ∧ (ev_verified r = true ∨ ev_outcome r = "success" ∧ (9 # 10 <= ev_confidence r)%Q).
Proof.
  intros Hr. apply orion_reachable_ok in Hr as [_ _ Hnd Hheld _].
  destruct (trains_rows _ _ _ (Hheld d)) as (rows & H1 & H2 & H3 & H4). exists rows. split_and!; [done| |done|].
  - rewrite H2. by apply filter_ids.
  - intros r Hr. destruct (proj1 (Forall_forall _ _) H3 _ Hr) as [Hin Hs]. split; [done|]. split.
    + apply (list_elem_of_fmap_2 ev_domain) in Hr. change (ev_domain <$> rows) with (map ev_domain rows) in Hr.
      rewrite H4 in Hr. apply list_elem_of_fmap in Hr as (c & -> & [_ Hc]%filter_subset). by apply String.eqb_eq in Hc.
    + unfold strong in Hs. apply andb_true_iff in Hs as [Hq Hs]. apply negb_true_iff in Hq. split; [done|].
      apply orb_true_iff in Hs as [?|[Hc Ho]%andb_true_iff]; [by left|right].
      by apply String.eqb_eq in Ho; apply Qle_bool_iff in Hc.
Qed.

(** Intake keeps what is good enough. An event of an unknown agent or skill is
    refused and changes nothing. Any other is stored under its task, unless the task
    already has an event: quarantined, and without effect on the datasets, when it is not
    eligible; else every strong event of the two domains is curated when the call
    returns. *)
Theorem intake_decides reg sql_now now today e s : rtc event_step no_orion s →
  ∃ x s', ingest json_loads reg sql_now now today e s = (x, s')
  ∧ match known_event reg e with
    | Raise err => x = Raise err ∧ s' = s
    | Ok _ =>
        (∃ r, r ∈ events (o_log s') ∧ ev_id r = uuid_str (rf_task e)
           ∧ (r ∈ events (o_log s) ∨ ev_quarantined r = negb (eligible e)))
        ∧ if eligible e then (∃ n, x = Ok (mk_ingested true (rf_skill e) n)) ∧ settled s'
          else x = Ok (mk_ingested false (rf_skill e) 0) ∧ o_data s' = o_data s
    end.
Proof.
  intros Hr. apply orion_reachable_ok in Hr.
  destruct (ingest_ok reg sql_now now today e s Hr) as (x & s' & Hrun & _ & Hcase).
  exists x, s'. split; [done|]. destruct (known_event reg e) as [[]|err]; [|done]. destruct Hcase as [He Hcase].
  split; [|by destruct (eligible e); naive_solver]. rewrite He.
  destruct (insert_event_cases (row_of_refinery sql_now e (negb (eligible e))) (events (o_log s))) as [[-> Hin]|[-> _]].
  - apply list_elem_of_fmap in Hin as (r & Hid & Hr'). exists r. split_and!; [done|by rewrite <-Hid|by left].
  - eexists. split; [apply elem_of_app; right; by apply list_elem_of_singleton|]. by split; [|right].
Qed.
End Once.

(** ** A demonstration *)

Module OrionDemo.
Definition loads (_ : string) : result json := Ok (JObj []).
Definition str_of_json (_ : json) : string := "x".
Definition float_of (_ : json) : result Q := Ok (3 # 4)%Q.
Definition repr (_ : Q) : string := "0.75".

Definition event (task : uuid) (verified : bool) (q : Q) (correction : option string) : RefineryFeedbackEvent :=
  mk_refinery task "rigel" "rigel.skill.code_generation" (if verified then fail else success) q None verified correction 12.
Definition sql_now : string := "2026-01-01 10:00:00".
Definition iso_now : string := "2026-01-01T10:00:00+00:00".
Definition today : string := "2026-01-01".
Definition take_in (e : RefineryFeedbackEvent) (s : orion) : orion :=
  (ingest loads None sql_now iso_now today e s).2.

Definition strong_one : RefineryFeedbackEvent := event 1 false (95 # 100) None.
Definition weak_one : RefineryFeedbackEvent := event 2 false (80 # 100) None.
Definition corrected_one : RefineryFeedbackEvent := event 3 true (30 # 100) (Some "sort the keys").
Definition three : orion := take_in corrected_one (take_in weak_one (take_in strong_one no_orion)).

Lemma three_reached : rtc (event_step loads str_of_json float_of repr) no_orion three.
Proof.
  eapply rtc_l; [apply (step_ingest _ _ _ _ _ None sql_now iso_now today strong_one)|].
  eapply rtc_l; [apply (step_ingest _ _ _ _ _ None sql_now iso_now today weak_one)|].
  apply rtc_once, (step_ingest _ _ _ _ _ None sql_now iso_now today corrected_one).
Qed.

(** Of three eligible events two are curated. The correction a human wrote appears
    nowhere: the example of the corrected task has a summary of its row as completion. *)
Example corrections_are_not_learnt :
  map (obj_field "completion") (held (ds rigel (o_data three)))
  = [JStr "outcome=success confidence=0.950"; JStr "outcome=fail confidence=0.300"].
Proof. vm_compute. reflexivity. Qed.

(** The correction of a task that was ingested before is ignored. *)
Example a_later_correction_is_ignored :
  held (ds rigel (o_data (take_in (event 1 true 1 (Some "sort the keys")) three))) = held (ds rigel (o_data three)).
Proof. vm_compute. reflexivity. Qed.

(** A restart of the process keeps the tables and the files, not the buffers. *)
Definition restarted (s : orion) : orion :=
  let forget x := mk_dataset [] (files x) (latest x) in
  mk_orion (o_log s) (mk_store (forget (ds_vega (o_data s))) (forget (ds_rigel (o_data s)))) [].

(** What was buffered is lost for good: the events stay marked as curated. *)
Example a_restart_loses_examples :
  let s := (curate_from_events loads "later" "2026-01-02" (restarted three)).2 in
  held (ds rigel (o_data s)) = [] ∧ length (curated_events (o_log s)) = 2%nat.
Proof. split; vm_compute; reflexivity. Qed.
End OrionDemo.
Import OrionDemo.

Lemma event_path_alone_trains_once_witness : ∃ rows, NoDup (map ev_id rows)
  ∧ rmap (example_for loads) rows = Ok (held (ds rigel (o_data three))).
Proof.
  destruct (event_path_alone_trains_once loads str_of_json float_of repr (λ d, ex_intro _ [] eq_refl) three rigel three_reached)
    as (rows & H1 & H2 & _).
  exact (ex_intro _ rows (conj H2 H1)).
Defined.

Lemma intake_decides_witness : ∃ x s', ingest loads None "t" "t" "d" weak_one three = (x, s') ∧ settled s'.
Proof.
  destruct (intake_decides loads str_of_json float_of repr (λ d, ex_intro _ [] eq_refl) None "t" "t" "d" weak_one three three_reached)
    as (x & s' & Hrun & _ & _ & Hs).
  exact (ex_intro _ x (ex_intro _ s' (conj Hrun Hs))).
Defined.
