(* ===== verification/Signals.v ===== *)
(** Orion's second path: orion/pipeline/signal_extraction.py, which summarises a window
    of feedback events, and orion/pipeline/dataset_curation.py, which makes examples of
    them.

    Averages and rates are exact, rounded to four decimals as the code does. [json.dumps]
    of floats and the text of the clock are arguments. *)

From S2P Require Import Prelude.
From S2P Require Import PyStr.
From S2P Require Import PyTime.
From S2P Require Import Json.
From S2P Require Import PyDict.
From S2P Require Import Contracts.
From S2P Require Import Feedback.
From S2P Require Import Dataset.
From Stdlib Require Import QArith Lqa.
Close Scope Q_scope.
Open Scope Z_scope.

(** ** Signals *)

Record SignalRecord := mk_signal {
  sg_domain : string;
  sg_start : time;
  sg_end : time;
  sg_total : Z;
  sg_completed : Z;
  sg_failed : Z;
  sg_escalated : Z;
  sg_corrected : Z;
  sg_confidence : Q;
  sg_correction_rate : Q;
  sg_escalation_rate : Q;
  sg_high_quality : list FeedbackEvent;
  sg_pairs : list (FeedbackEvent * jdict) }.

(** One step of [_deduplicate]: [best] by input hash. *)
Definition keep_best (best : list (string * FeedbackEvent)) (e : FeedbackEvent) : list (string * FeedbackEvent) :=
  match assoc_get (fb_input e) best with
  | Some b => if Qltb (fb_confidence b) (fb_confidence e) then assoc_set (fb_input e) e best else best
  | None => assoc_set (fb_input e) e best
  end.
Definition deduplicate (events : list FeedbackEvent) : list FeedbackEvent :=
  map snd (foldl keep_best [] events).

Definition round4 (q : Q) : Q := (round_div (Qnum q * 10000) (Zpos (Qden q)) # 10000).

Definition sum_confidence (l : list FeedbackEvent) : Q := foldr (λ e q, (fb_confidence e + q)%Q) 0%Q l.

(** [x / total if total else 0.0]. *)
Definition per (x : Q) (total : Z) : Q := if total =? 0 then 0%Q else (x / inject_Z total)%Q.

Definition count_outcome (o : OutcomeType) (l : list FeedbackEvent) : Z :=
  Z.of_nat (length (List.filter (λ e, bool_decide (fb_outcome e = o)) l)).

Definition is_high_quality (e : FeedbackEvent) : bool :=
  Qltb (9 # 10) (fb_confidence e) && match fb_correction e with None => true | Some _ => false end.
Definition correction_pair (e : FeedbackEvent) : option (FeedbackEvent * jdict) :=
  match fb_outcome e, fb_correction e with corrected_, Some c => Some (e, c) | _, _ => None end.

Definition summarize (domain : string) (start end_ : time) (l : list FeedbackEvent) : SignalRecord :=
  let total := Z.of_nat (length l) in
  mk_signal domain start end_ total (count_outcome completed_ l) (count_outcome failed_ l)
    (count_outcome escalated_ l) (count_outcome corrected_ l)
    (round4 (per (sum_confidence l) total))
    (round4 (per (inject_Z (count_outcome corrected_ l)) total))
    (round4 (per (inject_Z (count_outcome escalated_ l)) total))
    (List.filter is_high_quality l) (omap correction_pair l).

(** [extract]: one reading of the clock for the window, one for the query. *)
Definition extract (domain : string) (window_hours : Z) (now now' : time) (d : event_log) : result SignalRecord :=
  start ← dt_add now (- (window_hours * hour_us));
  l ← get_window domain window_hours now' d;
  Ok (summarize domain start now (deduplicate l)).

Definition extract_all_domains (window_hours : Z) (now now' : time) (d : event_log) : result (list SignalRecord) :=
  rmap (λ dom, extract dom window_hours now now' d) (list_domains d).

(** ** The trend of an agent *)

Definition mean (l : list Q) : Q := per (foldr Qplus 0%Q l) (Z.of_nat (length l)).

Definition day_us : Z := 86400000000.

(** [_daily_averages], oldest day first. *)
Definition daily_averages (events : list FeedbackEvent) (days : nat) (now : time) : list Q :=
  map (λ i, round4 (mean (map fb_confidence
        (List.filter (λ e, (now - fb_time e) / day_us =? Z.of_nat i) events))))
      (rev (seq 0 days)).

Definition classify_trend (daily : list Q) : string :=
  let populated := List.filter (λ v, Qltb 0 v) daily in
  if (length populated <? 2)%nat then "stable"
  else
    let mid := (length populated / 2)%nat in
    let delta := (mean (drop mid populated) - mean (take mid populated))%Q in
    if Qltb (2 # 100) delta then "improving"
    else if Qltb delta (- (2 # 100))%Q then "declining"
    else "stable".

Record agent_trend := mk_trend {
  at_agent : string;
  at_daily : list Q;
  at_direction : string;
  at_baseline : Q;
  at_current : Q;
  at_drift : Q }.

Definition get_agent_trend (agent : string) (days : nat) (now : time) (d : event_log) : result agent_trend :=
  recent ← get_by_agent agent (Z.of_nat days) now d;
  month ← get_by_agent agent 30 now d;
  let current := mean (map fb_confidence recent) in
  let baseline := mean (map fb_confidence month) in
  let daily := daily_averages recent days now in
  Ok (mk_trend agent daily (classify_trend daily) (round4 baseline) (round4 current)
        (round4 (current - baseline)%Q)).

(** ** Curation of a signal *)

Definition domain_for_task_type (task_type : string) (agent : option string) : option string :=
  let named a := match agent with Some x => String.eqb x a | None => false end in
  if startswith task_type "qa." || named "vega" then Some "vega"
  else if startswith task_type "rigel." || named "rigel" then Some "rigel"
  else None.
Definition domain_for_event (e : FeedbackEvent) : option string := domain_for_task_type (fb_category e) (Some (fb_agent e)).

(** The first of the keys that is there, as a dictionary, else the whole output. *)
Fixpoint pick_payload (keys : list string) (output : jdict) : jdict :=
  match keys with
  | [] => output
  | k :: keys => match obj_get k output with
                 | Some (JObj d) => d
                 | Some v => [(k, v)]
                 | None => pick_payload keys output
                 end
  end.
Definition task_payload (e : FeedbackEvent) : jdict := pick_payload ["task_payload"; "payload"; "input"] (fb_output e).
Definition result_payload (e : FeedbackEvent) : jdict := pick_payload ["result_payload"; "result"; "output"] (fb_output e).

(** [_is_success]: of the outcomes of a feedback event only one counts. *)
Definition is_success (o : OutcomeType) : bool := bool_decide (outcome_value o ∈ ["success"; "completed"]).

Record CurationResult := mk_curation {
  cr_domain : string;
  cr_added : Z;
  cr_corrections : Z;
  cr_successes : Z;
  cr_skipped : Z;
  cr_total : Z }.

Section Curate.
Context (float_repr : Q → string) (now : string).

(** [_example_for_event]. *)
Definition example_for_event (e : FeedbackEvent) (domain : string) (completion : jdict) (weight : Q) : option jdict :=
  match task_payload e, completion with
  | [], _ | _, [] => None
  | prompt, _ =>
      Some [("prompt", JStr (dumps_default float_repr (JObj prompt)));
            ("completion", JStr (dumps_default float_repr (JObj completion)));
            ("skill_id", JStr (fb_category e)); ("confidence", JFloat (fb_confidence e));
            ("human_verified", JBool (fb_verified e)); ("task_id", JStr (uuid_str (fb_task e)));
            ("created_at", JStr now); ("domain", JStr domain); ("quality_weight", JFloat weight)]
  end.

(** What a loop has done so far: examples added, events skipped, domains touched. *)
Record tally := mk_tally {
  tl_added : Z;
  tl_skipped : Z;
  tl_touched : list string }.

Definition skip (t : tally) : tally := mk_tally (tl_added t) (tl_skipped t + 1) (tl_touched t).
Definition touch (d : string) (t : tally) : tally :=
  mk_tally (tl_added t + 1) (tl_skipped t) (if bool_decide (d ∈ tl_touched t) then tl_touched t else tl_touched t ++ [d]).

(** The common end of both loops: find the domain, build the example, append it. *)
Definition add_event (e : FeedbackEvent) (completion : jdict) (weight : Q) (t : tally) : M dataset_store tally :=
  match domain_for_event e with
  | None => mret (skip t)
  | Some dom =>
      match example_for_event e dom completion weight with
      | None => mret (skip t)
      | Some ex => append_example dom ex;; mret (touch dom t)
      end
  end.

Definition curate_pair (t : tally) (p : FeedbackEvent * jdict) : M dataset_store tally :=
  if fb_verified p.1 then add_event p.1 p.2 1%Q t else mret (skip t).

Definition curate_success (t : tally) (e : FeedbackEvent) : M dataset_store tally :=
  if fb_verified e then mret t
  else if negb (is_success (fb_outcome e)) || Qltb (fb_confidence e) (9 # 10) then mret (skip t)
  else add_event e (result_payload e) (fb_confidence e) t.

Fixpoint mfold {A} (f : tally → A → M dataset_store tally) (t : tally) (l : list A) : M dataset_store tally :=
  match l with
  | [] => mret t
  | a :: l => t ← f t a; mfold f t l
  end.

Definition flush_if_full (today dom : string) : M dataset_store unit :=
  s ← mget;
  full ← mlift (should_flush dom s);
  if full : bool then flush dom today;; mret tt else mret tt.

(** [_domain_from_signal]. *)
Fixpoint first_domain (l : list FeedbackEvent) : option string :=
  match l with
  | [] => None
  | e :: l => match domain_for_event e with Some d => Some d | None => first_domain l end
  end.
Definition domain_from_signal (s : SignalRecord) : option string :=
  match first_domain (sg_high_quality s) with
  | Some d => Some d
  | None => match first_domain (map fst (sg_pairs s)) with
            | Some d => Some d
            | None => domain_for_task_type (sg_domain s) None
            end
  end.

(** [DatasetCurator.curate]. *)
Definition curate (today : string) (s : SignalRecord) : M dataset_store CurationResult :=
  t1 ← mfold curate_pair (mk_tally 0 0 []) (sg_pairs s);
  t2 ← mfold curate_success (mk_tally 0 (tl_skipped t1) (tl_touched t1)) (sg_high_quality s);
  miter (flush_if_full today) (tl_touched t2);;
  st ← mget;
  total ← mlift (match domain_from_signal s with
                 | Some d => r ← stats d st; Ok r.1.1.1
                 | None => Ok 0
                 end);
  mret (mk_curation (or_else (domain_from_signal s) "unknown") (tl_added t1 + tl_added t2) (tl_added t1)
          (tl_added t2) (tl_skipped t2) total).
End Curate.

(** ** Theorems

    What a signal says about a window of feedback, and what its curation adds to the
    datasets ([Signals]). *)

(** ** Means *)

Lemma sum_between lo hi l : Forall (λ q, (lo <= q <= hi)%Q) l →
  (inject_Z (Z.of_nat (length l)) * lo <= foldr Qplus 0 l <= inject_Z (Z.of_nat (length l)) * hi)%Q.
Proof.
  induction 1 as [|q l Hq Hl IH]; [change (inject_Z _) with 0%Q; simpl; lra|].
  cbn [length foldr]. rewrite Nat2Z.inj_succ, <-Z.add_1_r, inject_Z_plus.
  set (n := inject_Z (Z.of_nat (length l))) in *. change (inject_Z 1) with 1%Q. lra.
Qed.

Lemma mean_between lo hi l : l ≠ [] → Forall (λ q, (lo <= q <= hi)%Q) l → (lo <= mean l <= hi)%Q.
Proof.
  intros Hne Hl. pose proof (sum_between lo hi l Hl) as [H1 H2]. unfold mean, per.
  destruct (Z.eqb_spec (Z.of_nat (length l)) 0) as [E|E]; [by destruct l|].
  assert (Hpos : (0 < inject_Z (Z.of_nat (length l)))%Q) by (unfold Qlt; simpl; lia).
  split; [apply Qle_shift_div_l|apply Qle_shift_div_r]; try done; lra.
Qed.

(** ** Deduplication *)

(** What [best] holds after the events of [done]: for each hash the first of the most
    confident ones. *)
Record best_of (done : list FeedbackEvent) (best : list (string * FeedbackEvent)) : Prop := {
  best_keys : NoDup (map fst best);
  best_in : ∀ k b, (k, b) ∈ best → b ∈ done ∧ fb_input b = k;
  best_max : ∀ e, e ∈ done → ∃ b, assoc_get (fb_input e) best = Some b ∧ (fb_confidence e <= fb_confidence b)%Q }.

Lemma keep_best_ok done best e : best_of done best → best_of (done ++ [e]) (keep_best best e).
Proof.
  intros [Hk Hin Hmax]. unfold keep_best.
  assert (Hold : ∀ k b, (k, b) ∈ best → b ∈ done ++ [e] ∧ fb_input b = k).
  { intros k b Hb. destruct (Hin _ _ Hb). split; [by apply elem_of_app; left|done]. }
  assert (Hset : (∀ b, assoc_get (fb_input e) best = Some b → (fb_confidence b <= fb_confidence e)%Q) →
    best_of (done ++ [e]) (assoc_set (fb_input e) e best)).
  { intros Hle. split.
    - by apply assoc_set_nodup.
    - intros k b Hb. apply (assoc_get_iff _ _ _ (assoc_set_nodup _ e _ Hk)) in Hb. rewrite assoc_get_set in Hb.
      destruct (String.eqb_spec k (fb_input e)) as [->|]; [|by apply Hold, assoc_get_in].
      injection Hb as <-. split; [|done]. apply elem_of_app. right. by apply list_elem_of_singleton.
    - intros x [Hx| ->%list_elem_of_singleton]%elem_of_app.
      + destruct (Hmax _ Hx) as (b & Hb & Hxb). rewrite assoc_get_set.
        destruct (String.eqb_spec (fb_input x) (fb_input e)) as [E|]; [|by exists b].
        exists e. split; [done|]. rewrite E in Hb. eapply Qle_trans; [exact Hxb|by apply Hle].
      + exists e. rewrite assoc_get_set, String.eqb_refl. split; [done|apply Qle_refl]. }
  destruct (assoc_get (fb_input e) best) as [b|] eqn:Eb; [|by apply Hset].
  destruct (Qltb (fb_confidence b) (fb_confidence e)) eqn:El.
  - apply Hset. intros b' [= <-]. by apply Qlt_le_weak, Qltb_lt.
  - split; [done|exact Hold|]. intros x [Hx| ->%list_elem_of_singleton]%elem_of_app; [by apply Hmax|].
    exists b. split; [done|]. unfold Qltb in El. apply negb_false_iff, Qle_bool_iff in El. done.
Qed.

Lemma fold_best_ok l : ∀ done best, best_of done best → best_of (done ++ l) (foldl keep_best best l).
Proof.
  induction l as [|e l IH]; intros done best H; simpl; [by rewrite app_nil_r|].
  rewrite (cons_middle e done l), app_assoc. by apply IH, keep_best_ok.
Qed.

Lemma deduplicate_spec l : NoDup (map fb_input (deduplicate l))
  ∧ (∀ e, e ∈ deduplicate l → e ∈ l)
  ∧ ∀ e, e ∈ l → ∃ b, b ∈ deduplicate l ∧ fb_input b = fb_input e ∧ (fb_confidence e <= fb_confidence b)%Q.
Proof.
  assert (H : best_of l (foldl keep_best [] l)).
  { apply (fold_best_ok l [] []). split; [constructor|by intros ? ? ?%elem_of_nil|by intros ? ?%elem_of_nil]. }
  destruct H as [Hk Hin Hmax]. unfold deduplicate. split_and!.
  - rewrite map_map. rewrite (map_ext_in _ fst); [done|]. intros [k b] Hb. apply list_elem_of_In in Hb.
    by apply (Hin k b).
  - intros e ([k b] & -> & Hb)%list_elem_of_fmap. by apply (Hin k b).
  - intros e He. destruct (Hmax _ He) as (b & Hb & Hle). apply assoc_get_in in Hb. exists b.
    split_and!; [by apply (list_elem_of_fmap_2 snd) in Hb|by apply (Hin _ _ Hb)|done].
Qed.

(** ** Rates *)

Lemma round4_mono p q : (p <= q)%Q → (round4 p <= round4 q)%Q.
Proof.
  intros H. unfold round4, Qle. simpl. apply Z.mul_le_mono_nonneg_r; [done|].
  apply round_div_mono; [done|done|]. unfold Qle in H. nia.
Qed.

Lemma round4_unit q : (0 <= q <= 1)%Q → (0 <= round4 q <= 1)%Q.
Proof.
  intros [H1 H2]. apply round4_mono in H1, H2. change (round4 0) with (0 # 10000)%Q in H1.
  change (round4 1) with (10000 # 10000)%Q in H2. split; [eapply Qle_trans; [|exact H1]|eapply Qle_trans; [exact H2|]]; done.
Qed.

Lemma per_unit x n : (0 <= x <= inject_Z n)%Q → 0 <= n → (0 <= per x n <= 1)%Q.
Proof.
  intros [H1 H2] Hn. unfold per. destruct (Z.eqb_spec n 0); [split; discriminate|].
  assert (Hpos : (0 < inject_Z n)%Q) by (unfold Qlt; simpl; lia).
  split; [apply Qle_shift_div_l|apply Qle_shift_div_r]; try done; lra.
Qed.

Lemma sum_confidence_bounds l : Forall (λ e, (0 <= fb_confidence e <= 1)%Q) l →
  (0 <= sum_confidence l <= inject_Z (Z.of_nat (length l)))%Q.
Proof.
  induction 1 as [|e l [H1 H2] _ IH]; [split; discriminate|]. cbn [length sum_confidence foldr].
  rewrite Nat2Z.inj_succ, <-Z.add_1_r, inject_Z_plus. change (foldr _ _ l) with (sum_confidence l).
  change (inject_Z 1) with 1%Q. lra.
Qed.

Lemma count_outcome_bounds o l : 0 <= count_outcome o l <= Z.of_nat (length l).
Proof. unfold count_outcome. pose proof (List.filter_length_le (λ e, bool_decide (fb_outcome e = o)) l). lia. Qed.

Lemma outcomes_disjoint l :
  count_outcome completed_ l + count_outcome failed_ l + count_outcome escalated_ l + count_outcome corrected_ l
  <= Z.of_nat (length l).
Proof.
  unfold count_outcome. induction l as [|e l IH]; simpl; [done|].
  destruct (fb_outcome e); simpl; repeat case_bool_decide; try done; simpl; lia.
Qed.

(** A validated window. *)
Lemma window_valid where_ cutoff d l : select_window where_ cutoff d = Ok l →
  Forall (λ e, (0 <= fb_confidence e <= 1)%Q ∧ where_ e = true
    ∧ ∃ r, r ∈ feedback_events d ∧ fr_event r = e ∧ fr_quarantined r = false) l.
Proof.
  unfold select_window. set (rows := py_sorted _ _).
  assert (Hrows : ∀ r, r ∈ rows → r ∈ feedback_events d ∧ where_ (fr_event r) = true ∧ fr_quarantined r = false).
  { intros r Hr. unfold rows in Hr. rewrite elem_of_py_sorted in Hr.
    apply list_elem_of_In, List.filter_In in Hr as [Hr Hw]. apply list_elem_of_In in Hr.
    apply andb_true_iff in Hw as [[? Hq%negb_true_iff]%andb_true_iff _]. done. }
  revert l Hrows. generalize rows. clear. intros rows. induction rows as [|r rows IH]; intros l Hrows H; simpl in H; rok;
    [constructor|].
  constructor; [|by apply IH; [intros; apply Hrows; right|]].
  destruct (Hrows r) as (Hin & Hw & Hq); [by left|]. unfold row_to_event, validate_feedback in H0. rok.
  unfold unit_interval in *. repeat match goal with Hb : (_ && _) = true |- _ => apply andb_true_iff in Hb as [? ?] end.
  split_and!; try (by apply Qle_bool_iff); [done|]. by exists r.
Qed.

(** A signal is a faithful summary. It is made of stored, unquarantined events of the
    domain, one for each input and as confident as any event of the window with that
    input; its counts do not overlap; its average and its rates lie in the unit
    interval; and no event is both of high quality and a correction. *)
Theorem signals_are_faithful domain hours now now' d s :
  extract domain hours now now' d = Ok s →
  ∃ l window, get_window domain hours now' d = Ok window ∧ s = summarize domain (sg_start s) now l
    ∧ sg_total s = Z.of_nat (length l) ∧ NoDup (map fb_input l)
    ∧ (∀ e, e ∈ l → fb_category e = domain ∧ e ∈ window
         ∧ ∃ r, r ∈ feedback_events d ∧ fr_event r = e ∧ fr_quarantined r = false)
    ∧ (∀ e, e ∈ window → ∃ b, b ∈ l ∧ fb_input b = fb_input e ∧ (fb_confidence e <= fb_confidence b)%Q)
    ∧ sg_completed s + sg_failed s + sg_escalated s + sg_corrected s <= sg_total s
    ∧ (0 <= sg_confidence s <= 1)%Q ∧ (0 <= sg_correction_rate s <= 1)%Q ∧ (0 <= sg_escalation_rate s <= 1)%Q
    ∧ ∀ e c, (e, c) ∈ sg_pairs s → e ∈ l ∧ (e ∉ sg_high_quality s) ∧ fb_correction e = Some c.
Proof.
  intros H. unfold extract in H. apply rbind_ok in H as (start & _ & H). apply rbind_ok in H as (window & Hw & H).
  injection H as <-. exists (deduplicate window), window.
  destruct (deduplicate_spec window) as (Hnd & Hsub & Hmax).
  assert (Hv : ∀ e, e ∈ deduplicate window → (0 <= fb_confidence e <= 1)%Q ∧ fb_category e = domain
    ∧ ∃ r, r ∈ feedback_events d ∧ fr_event r = e ∧ fr_quarantined r = false).
  { intros e He. unfold get_window in Hw. apply rbind_ok in Hw as (cutoff & _ & Hw). apply window_valid in Hw.
    destruct (proj1 (Forall_forall _ _) Hw e (Hsub _ He)) as (? & Hc & ?). by apply String.eqb_eq in Hc. }
  assert (Hsum := sum_confidence_bounds (deduplicate window) (proj2 (Forall_forall _ _) (λ e He, (proj1 (Hv e He))))).
  assert (Hrate : ∀ o, (0 <= inject_Z (count_outcome o (deduplicate window))
    <= inject_Z (Z.of_nat (length (deduplicate window))))%Q).
  { intros o. pose proof (count_outcome_bounds o (deduplicate window)). unfold Qle. simpl. lia. }
  assert (Hlen : 0 <= Z.of_nat (length (deduplicate window))) by lia.
  do 4 (split; [done|]). split.
  { intros e He. destruct (Hv _ He) as (_ & ? & ?). split_and!; [done|by apply Hsub|done]. }
  split; [done|]. split; [apply outcomes_disjoint|]. do 3 (split; [by apply round4_unit, per_unit|]).
  intros e c Hin. apply list_elem_of_omap in Hin as (e' & He' & Hp). unfold correction_pair in Hp.
  destruct (fb_outcome e') eqn:Eo; try done. destruct (fb_correction e') as [c'|] eqn:Ec; [|done].
  injection Hp as <- <-. split_and!; [done| |done]. intros Hq. apply list_elem_of_In, List.filter_In in Hq as [_ Hq].
  unfold is_high_quality in Hq. rewrite Ec in Hq. by rewrite andb_false_r in Hq.
Qed.

(** ** What curation adds *)

Section Accounting.
Context (float_repr : Q → string) (now today : string).

Definition size (s : dataset_store) : Z :=
  Z.of_nat (length (held (ds vega s)) + length (held (ds rigel s))).

(** From [t] and [s] to [t'] and [s'] with [n] events accounted for. *)
Record progress (n : Z) (t : tally) (s : dataset_store) (t' : tally) (s' : dataset_store) : Prop := {
  all_counted : tl_added t' + tl_skipped t' = tl_added t + tl_skipped t + n;
  added_held : size s' = size s + (tl_added t' - tl_added t);
  skipped_grow : tl_skipped t <= tl_skipped t';
  touched_named : Forall (λ d, ∃ x, d = domain_name x) (tl_touched t) →
                  Forall (λ d, ∃ x, d = domain_name x) (tl_touched t') }.

Lemma progress_skip t s : progress 1 t s (skip t) s.
Proof. split; simpl; [lia|lia|lia|done]. Qed.

Lemma domain_for_named e dom : domain_for_event e = Some dom → ∃ x, dom = domain_name x.
Proof.
  unfold domain_for_event, domain_for_task_type. intros H.
  destruct (_ || _) in H; [injection H as <-; by exists vega|].
  destruct (_ || _) in H; [injection H as <-; by exists rigel|done].
Qed.

Lemma append_size d ex s : forallb (λ k, obj_has k ex) REQUIRED_EXAMPLE_KEYS = true →
  ∃ s', append_example (domain_name d) ex s = (Ok tt, s') ∧ size s' = size s + 1.
Proof.
  intros Hk. eexists. split.
  - unfold append_example, mguard, mlift, mmodify, mbind, M_bind. by rewrite validate_domain_name, Hk.
  - unfold size, held. destruct s as [[] []], d; simpl; rewrite !length_app; simpl; rewrite ?length_app; simpl; lia.
Qed.

Lemma example_for_event_keys e dom c w ex : example_for_event float_repr now e dom c w = Some ex →
  forallb (λ k, obj_has k ex) REQUIRED_EXAMPLE_KEYS = true.
Proof.
  unfold example_for_event. destruct (task_payload e), c; intros H; try discriminate H. injection H as <-. reflexivity.
Qed.

Lemma add_event_ok e c w t s : ∃ t' s', add_event float_repr now e c w t s = (Ok t', s') ∧ progress 1 t s t' s'.
Proof.
  unfold add_event. destruct (domain_for_event e) as [dom|] eqn:Ed; [|exists (skip t), s; split; [done|apply progress_skip]].
  destruct (example_for_event _ _ e dom c w) as [ex|] eqn:Ee; [|exists (skip t), s; split; [done|apply progress_skip]].
  apply domain_for_named in Ed as [x ->]. apply example_for_event_keys in Ee.
  destruct (append_size x ex s Ee) as (s' & Hrun & Hsz). exists (touch (domain_name x) t), s'.
  rewrite (mbind_step _ _ _ _ _ Hrun). split; [done|]. split; simpl; [lia|lia|lia|]. intros Ht. case_bool_decide; [done|].
  apply Forall_app. split; [done|]. apply Forall_singleton. by exists x.
Qed.

Lemma mfold_ok {A} (f : tally → A → M dataset_store tally) (count : A → Z) l : 
  (∀ a t s, a ∈ l → ∃ t' s', f t a s = (Ok t', s') ∧ progress (count a) t s t' s') → ∀ t s,
  ∃ t' s', mfold f t l s = (Ok t', s') ∧ progress (foldr (λ a n, count a + n) 0 l) t s t' s'.
Proof.
  induction l as [|a l IH]; intros Hf t s; simpl.
  { exists t, s. split; [done|]. split; [lia|lia|lia|done]. }
  destruct (Hf a t s) as (t1 & s1 & H1 & [P1 P2 P4 P3]); [by left|].
  destruct (IH (λ a t s Ha, Hf a t s (proj2 (elem_of_cons _ _ _) (or_intror Ha))) t1 s1) as (t2 & s2 & H2 & [Q1 Q2 Q4 Q3]).
  exists t2, s2. rewrite (mbind_step _ _ _ _ _ H1). split; [done|]. split; [lia|lia|lia|auto].
Qed.

Lemma flush_size names : Forall (λ d, ∃ x, d = domain_name x) names → ∀ s,
  ∃ s', miter (flush_if_full today) names s = (Ok tt, s') ∧ size s' = size s.
Proof.
  induction 1 as [|n names [x ->] _ IH]; intros s; [by exists s|]. simpl.
  assert (Hone : ∃ s1, flush_if_full today (domain_name x) s = (Ok tt, s1) ∧ size s1 = size s).
  { unfold flush_if_full, mget, mlift, mbind at 1 2, M_bind at 1 2. unfold should_flush.
    rewrite validate_domain_name. cbn [mbind rbind]. destruct (_ || _); [|by exists s].
    destruct (flush (domain_name x) today s) as [[p|e] s1] eqn:Ef.
    - exists s1. unfold mbind, M_bind. rewrite Ef. split; [done|]. unfold size.
      by rewrite (flush_held _ _ _ _ _ vega Ef), (flush_held _ _ _ _ _ rigel Ef).
    - exfalso. unfold flush in Ef. munfold. rewrite validate_domain_name in Ef. by simplify_eq. }
  destruct Hone as (s1 & H1 & E1). destruct (IH s1) as (s2 & H2 & E2). exists s2.
  rewrite (mbind_step _ _ _ _ _ H1). split; [done|]. by rewrite E2.
Qed.

Lemma curate_pair_ok t s p : ∃ t' s', curate_pair float_repr now t p s = (Ok t', s') ∧ progress 1 t s t' s'.
Proof.
  unfold curate_pair. destruct (fb_verified p.1); [apply add_event_ok|].
  exists (skip t), s. split; [done|apply progress_skip].
Qed.

Definition unverified_one (e : FeedbackEvent) : Z := if fb_verified e then 0 else 1.

Lemma curate_success_ok t s e : ∃ t' s', curate_success float_repr now t e s = (Ok t', s')
  ∧ progress (unverified_one e) t s t' s'.
Proof.
  unfold curate_success, unverified_one. destruct (fb_verified e); [exists t, s; split; [done|split; [lia|lia|lia|done]]|].
  destruct (_ || _); [exists (skip t), s; split; [done|apply progress_skip]|apply add_event_ok].
Qed.

Lemma foldr_ones {A} (l : list A) : foldr (λ _ n, 1 + n) 0 l = Z.of_nat (length l).
Proof. induction l as [|a l IH]; [done|]. simpl foldr. rewrite IH. cbn [length]. lia. Qed.

Lemma first_domain_named l dom : first_domain l = Some dom → ∃ x, dom = domain_name x.
Proof.
  induction l as [|e l IH]; [done|]. simpl. destruct (domain_for_event e) eqn:E; [|done].
  intros [= <-]. by eapply domain_for_named.
Qed.

Lemma signal_domain_named s dom : domain_from_signal s = Some dom → ∃ x, dom = domain_name x.
Proof.
  unfold domain_from_signal. destruct (first_domain _) eqn:E1; [intros [= <-]; by eapply first_domain_named|].
  destruct (first_domain (map fst _)) eqn:E2; [intros [= <-]; by eapply first_domain_named|].
  unfold domain_for_task_type. intros H. destruct (_ || _) in H; [injection H as <-; by exists vega|].
  destruct (_ || _) in H; [injection H as <-; by exists rigel|done].
Qed.

Lemma curate_run sg s t1 s1 :
  mfold (curate_pair float_repr now) (mk_tally 0 0 []) (sg_pairs sg) s = (Ok t1, s1) →
  progress (Z.of_nat (length (sg_pairs sg))) (mk_tally 0 0 []) s t1 s1 →
  ∃ r s', curate float_repr now today sg s = (Ok r, s') ∧ cr_corrections r = tl_added t1
    ∧ cr_added r = cr_corrections r + cr_successes r ∧ tl_skipped t1 <= cr_skipped r
    ∧ cr_added r + cr_skipped r
      = Z.of_nat (length (sg_pairs sg)) + foldr (λ e n, unverified_one e + n) 0 (sg_high_quality sg)
    ∧ size s' = size s + cr_added r.
Proof.
  intros H1 [P1 P2 _ P3]. unfold curate.
  destruct (mfold_ok (curate_success float_repr now) unverified_one (sg_high_quality sg)
    (λ e t s _, curate_success_ok t s e) (mk_tally 0 (tl_skipped t1) (tl_touched t1)) s1) as (t2 & s2 & H2 & [Q1 Q2 Q4 Q3]).
  destruct (flush_size (tl_touched t2) (Q3 (P3 (Forall_nil_2 _))) s2) as (s3 & H3 & E3).
  assert (Htot : ∃ n, match domain_from_signal sg with Some d => r ← stats d s3; Ok r.1.1.1 | None => Ok 0 end = Ok n).
  { destruct (domain_from_signal sg) as [d|] eqn:Ed; [|by eexists]. apply signal_domain_named in Ed as [x ->].
    unfold stats, get_latest_path. rewrite validate_domain_name. by eexists. }
  destruct Htot as [n Hn]. eexists _, s3.
  rewrite (mbind_step _ _ _ _ _ H1), (mbind_step _ _ _ _ _ H2), (mbind_step _ _ _ _ _ H3).
  unfold mget, mlift, mbind at 1 2, M_bind at 1 2. rewrite Hn. split; [done|]. simpl in *. split_and!; lia.
Qed.

Lemma pairs_run sg s : ∃ t1 s1, mfold (curate_pair float_repr now) (mk_tally 0 0 []) (sg_pairs sg) s = (Ok t1, s1)
  ∧ progress (Z.of_nat (length (sg_pairs sg))) (mk_tally 0 0 []) s t1 s1.
Proof.
  rewrite <-foldr_ones. apply (mfold_ok (curate_pair float_repr now) (λ _, 1)). intros p t s' _. apply curate_pair_ok.
Qed.

(** Curation loses no event and never fails. Whatever the signal and the state of the
    store, [curate] returns; every correction and every unverified event of high quality
    was added or skipped; and the datasets hold exactly as many examples more as it says
    were added. *)
Theorem curation_accounts_for_every_event sg s : ∃ r s', curate float_repr now today sg s = (Ok r, s')
  ∧ cr_added r = cr_corrections r + cr_successes r
  ∧ cr_added r + cr_skipped r
    = Z.of_nat (length (sg_pairs sg)) + foldr (λ e n, unverified_one e + n) 0 (sg_high_quality sg)
  ∧ size s' = size s + cr_added r.
Proof.
  destruct (pairs_run sg s) as (t1 & s1 & H1 & P). destruct (curate_run sg s t1 s1 H1 P) as (r & s' & Hr & _ & ? & _ & ? & ?).
  by exists r, s'.
Qed.

(** ** Verified feedback *)

(** The calls that change the feedback table. *)
Inductive feedback_step (d : event_log) : event_log → Prop :=
  | step_fb_append fresh e : feedback_step d (append fresh e d).2
  | step_fb_quarantine event fresh reason at_ : feedback_step d (quarantine event fresh reason at_ d).2.

Definition all_unverified (d : event_log) : Prop := Forall (λ r, fb_verified (fr_event r) = false) (feedback_events d).

Lemma feedback_unverified d d' : rtc feedback_step d d' → all_unverified d → all_unverified d'.
Proof.
  induction 1 as [|d d1 d2 Hs _ IH]; [done|]. intros Hd. apply IH. unfold all_unverified in *.
  destruct Hs as [fresh e|event fresh reason at_].
  - unfold append. munfold. destruct (negb _); simpl; [|done]. apply Forall_app. split; [done|]. by apply Forall_singleton.
  - simpl. apply Forall_forall. intros r (r' & -> & Hr)%list_elem_of_fmap.
    apply (proj1 (Forall_forall _ _) Hd) in Hr. by destruct (N.eqb _ _).
Qed.

Lemma mfold_unverified ps : (∀ p, p ∈ ps → fb_verified p.1 = false) → ∀ t s,
  mfold (curate_pair float_repr now) t ps s = (Ok (mk_tally (tl_added t) (tl_skipped t + Z.of_nat (length ps)) (tl_touched t)), s).
Proof.
  induction ps as [|p ps IH]; intros Hp t s; simpl.
  { destruct t. simpl. by rewrite Z.add_0_r. }
  assert (Hone : curate_pair float_repr now t p s = (Ok (skip t), s)).
  { unfold curate_pair. by rewrite (Hp p) by (by left). }
  rewrite (mbind_step _ _ _ _ _ Hone), IH by (intros q Hq; apply Hp; by right). cbn [length tl_added tl_skipped tl_touched skip]. by replace (tl_skipped t + 1 + Z.of_nat (length ps)) with (tl_skipped t + Z.of_nat (S (length ps))) by lia.
Qed.

(** Corrections never train. The table of feedback events has no column for the
    verification by a human, so every event is read back unverified: whatever was
    appended, no signal of any window ever yields a correction example, and every
    correction pair is skipped. *)
Theorem corrections_never_train d domain hours now1 now2 sg s :
  rtc feedback_step (mk_log [] [] [] []) d → extract domain hours now1 now2 d = Ok sg →
  ∃ r s', curate float_repr now today sg s = (Ok r, s') ∧ cr_corrections r = 0
    ∧ Z.of_nat (length (sg_pairs sg)) <= cr_skipped r.
Proof.
  intros Hd He. apply feedback_unverified in Hd; [|by constructor].
  destruct (signals_are_faithful _ _ _ _ _ _ He) as (l & w & _ & _ & _ & _ & Hl & _ & _ & _ & _ & _ & Hp).
  assert (Hun : ∀ p, p ∈ sg_pairs sg → fb_verified p.1 = false).
  { intros [e c] Hin. apply Hp in Hin as (Hin & _). apply Hl in Hin as (_ & _ & r & Hr & <- & _).
    by apply (proj1 (Forall_forall _ _) Hd). }
  destruct (pairs_run sg s) as (t1 & s1 & H1 & P).
  destruct (curate_run sg s t1 s1 H1 P) as (r & s' & Hr & Hc & _ & Hs & _).
  rewrite (mfold_unverified _ Hun) in H1. injection H1 as <- <-. exists r, s'. simpl in *. split_and!; [done|done|lia].
Qed.
End Accounting.

(** ** A demonstration *)

Module SignalDemo.
Definition repr (_ : Q) : string := "0.95".
Definition event (task : uuid) (input : string) (q : Q) (o : OutcomeType) (c : option jdict) : FeedbackEvent :=
  mk_feedback task "rigel.skill.refactor" "rigel" o q input [("payload", JObj [("x", JInt 1)]); ("result", JStr "ok")]
    c true 5 63900000000000000.
(** Two events of one input, and a correction a human verified. *)
Definition log : event_log :=
  (append 12 (event 3 "b" (1 # 2) corrected_ (Some [("result", JStr "better")]))
    (append 11 (event 2 "a" (97 # 100) completed_ None)
      (append 10 (event 1 "a" (95 # 100) completed_ None) (mk_log [] [] [] [])).2).2).2.
Definition noon : time := 63900000000000000 + hour_us.

Lemma log_reached : rtc feedback_step (mk_log [] [] [] []) log.
Proof.
  eapply rtc_l; [apply (step_fb_append _ 10)|]. eapply rtc_l; [apply (step_fb_append _ 11)|].
  apply rtc_once, (step_fb_append _ 12).
Qed.

Definition signal : result SignalRecord := extract "rigel.skill.refactor" 24 noon noon log.

Example the_signal : match signal with
  | Ok s => sg_total s = 2 ∧ map fb_task (sg_high_quality s) = [2%N] ∧ sg_correction_rate s = (5000 # 10000)%Q
  | Raise _ => False end.
Proof. vm_compute. done. Qed.

(** The next cycle, an hour later, adds the same event again: nothing marks what a
    signal has already contributed. *)
Definition twice : dataset_store :=
  match signal with
  | Ok s => (curate repr "t2" "d2" s (curate repr "t1" "d1" s empty_store).2).2
  | Raise _ => empty_store
  end.
Example cycles_duplicate_examples :
  map (obj_field "task_id") (held (ds rigel twice)) = [JStr (uuid_str 2); JStr (uuid_str 2)].
Proof. vm_compute. reflexivity. Qed.
End SignalDemo.
Import SignalDemo.

Lemma signals_are_faithful_witness : ∃ s, signal = Ok s ∧ (0 <= sg_confidence s <= 1)%Q.
Proof.
  destruct signal as [s|e] eqn:E; [|vm_compute in E; discriminate E]. exists s. split; [reflexivity|].
  destruct (signals_are_faithful "rigel.skill.refactor" 24 noon noon log s E)
    as (l & w & _ & _ & _ & _ & _ & _ & _ & H & _). exact H.
Defined.

Lemma corrections_never_train_witness : ∃ s r s', signal = Ok s ∧ curate repr "t" "d" s empty_store = (Ok r, s')
  ∧ cr_corrections r = 0.
Proof.
  destruct signal as [s|e] eqn:E; [|vm_compute in E; discriminate E]. exists s.
  destruct (corrections_never_train repr "t" "d" log "rigel.skill.refactor" 24 noon noon s empty_store log_reached E)
    as (r & s' & Hr & Hc & _).
  exact (ex_intro _ r (ex_intro _ s' (conj eq_refl (conj Hr Hc)))).
Defined.
