(* ===== verification/Ingestion.v ===== *)
(** orion/pipeline/ingestion.py: what happens to the messages of Orion's streams.

    A message is its id and its fields, texts as Redis returns them. What pydantic makes
    of decoded data, [json.loads], the text of an exception and drawn identifiers are
    arguments; the network is left out, but what is acknowledged and what is announced is
    recorded. *)

From S2P Require Import Prelude.
From S2P Require Import PyStr.
From S2P Require Import PyTime.
From S2P Require Import Json.
From S2P Require Import PyDict.
From S2P Require Import Contracts.
From S2P Require Import Registry.
From S2P Require Import Feedback.
From S2P Require Import Dataset.
From S2P Require Import Curation.
Open Scope Z_scope.

Record stream_message := mk_stream_message {
  sm_id : string;
  sm_fields : list (string * string) }.

Section Ingestion.
Context (json_loads : string → result json).

(** A flat field: text that looks like JSON is decoded if it is JSON. *)
Definition decode_value (v : string) : json :=
  let stripped := strip v in
  match to_list stripped with
  | c :: _ =>
      if bool_decide (c ∈ to_list ("{[" +:+ quote)) then
        match json_loads stripped with Ok d => d | Raise _ => JStr v end
      else JStr v
  | [] => JStr v
  end.

(** [_decode_fields]: the envelope, or every field by itself. *)
Definition decode_fields (fields : list (string * string)) : result json :=
  match assoc_get "data" fields with
  | Some data => json_loads data
  | None => Ok (JObj (map (λ kv, (kv.1, decode_value kv.2)) fields))
  end.

(** [Model( **data)]: only a dictionary can be spread. *)
Definition spread (data : json) : result jdict :=
  match data with JObj d => Ok d | _ => Raise TypeError end.

(** Pydantic: the event that the data denote, or a [ValidationError]. *)
Context (parse_feedback : jdict → result FeedbackEvent) (parse_refinery : jdict → result RefineryFeedbackEvent)
        (explain : jdict → string).

(** Drawn for one message: the row, the sentinel task, its row in the log, and the time. *)
Record draws := mk_draws {
  dr_row : uuid;
  dr_sentinel : uuid;
  dr_log : uuid;
  dr_now : time }.

(** The row that stands for a message that could not be read. *)
Definition sentinel (u : draws) (fields : list (string * string)) : FeedbackEvent :=
  mk_feedback (dr_sentinel u) "__invalid__" "__unknown__" failed_ 0 ""
    [("raw", JObj (map (λ kv, (kv.1, JStr kv.2)) fields))] None false 0 (dr_now u).

(** [except Exception] that only logs. *)
Definition only_logged {S} (m : M S unit) : M S unit := λ s, (Ok tt, (m s).2).

(** [_quarantine_raw]. *)
Definition quarantine_raw (u : draws) (m : stream_message) (reason : string) : M event_log unit :=
  only_logged (
    row ← append (dr_row u) (sentinel u (sm_fields m));
    quarantine row (dr_log u) ("msg_id=" +:+ sm_id m +:+ " | " +:+ reason) (iso (dr_now u))).

Definition set_outcome (d : jdict) : jdict := obj_set "outcome" (JStr (outcome_value escalated_)) d.

(** [_process_feedback] and [_process_escalation], which overrides the outcome. *)
Definition process (escalation : bool) (u : draws) (m : stream_message) : M event_log unit :=
  match (data ← decode_fields (sm_fields m); spread data) with
  | Raise _ => mret tt
  | Ok d =>
      let d := if escalation then set_outcome d else d in
      match parse_feedback d with
      | Raise _ => quarantine_raw u m (explain d)
      | Ok e => only_logged (append (dr_row u) e;; mret tt)
      end
  end.

Definition STREAM_FEEDBACK : string := "aether:task.feedback".
Definition STREAM_ESCALATED : string := "aether:task.escalated".
Definition STREAM_REFINERY_VEGA : string := "galaxz.feedback.vega".
Definition STREAM_REFINERY_RIGEL : string := "galaxz.feedback.rigel".

(** The worker: Orion, what was announced as ready and what was acknowledged. *)
Record worker := mk_worker {
  wk_orion : orion;
  wk_ready : list (string * Z);
  wk_acked : list (string * string) }.

Definition on_events {A} (m : M event_log A) : M worker A := λ w,
  let '(r, o) := on_log m (wk_orion w) in (r, mk_worker o (wk_ready w) (wk_acked w)).

(** [_process_refinery_event]: whatever [ingest] raises is logged. *)
Definition process_refinery (reg : option registry) (sql_now now today : string) (m : stream_message) : M worker unit :=
  λ w,
  match (data ← decode_fields (sm_fields m); d ← spread data; parse_refinery d) with
  | Raise _ => (Ok tt, w)
  | Ok e =>
      match ingest json_loads reg sql_now now today e (wk_orion w) with
      | (Raise _, o) => (Ok tt, mk_worker o (wk_ready w) (wk_acked w))
      | (Ok r, o) =>
          let ready := in_eligible r && (0 <? in_count r) && (in_count r mod 100 =? 0) in
          (Ok tt, mk_worker o (if ready then wk_ready w ++ [(rf_skill e, in_count r)] else wk_ready w) (wk_acked w))
      end
  end.

(** The handler of a stream. *)
Definition handle (reg : option registry) (sql_now now today : string) (stream : string) (u : draws)
    (m : stream_message) : M worker unit :=
  if String.eqb stream STREAM_FEEDBACK then on_events (process false u m)
  else if String.eqb stream STREAM_ESCALATED then on_events (process true u m)
  else process_refinery reg sql_now now today m.

(** [try: handler ... except Exception ... finally: ack]. *)
Definition handle_and_ack (reg : option registry) (sql_now now today stream : string) (um : draws * stream_message) :
    M worker unit :=
  only_logged (handle reg sql_now now today stream um.1 um.2);;
  mmodify (λ w, mk_worker (wk_orion w) (wk_ready w) (wk_acked w ++ [(stream, sm_id um.2)])).

(** The messages of one read. *)
Definition handle_batch (reg : option registry) (sql_now now today stream : string)
    (l : list (draws * stream_message)) : M worker unit :=
  miter (handle_and_ack reg sql_now now today stream) l.

(** ** Invalid messages are kept aside *)

(** What analysis and curation see of the feedback table. *)
Definition visible (d : event_log) : list feedback_row := List.filter (λ r, negb (fr_quarantined r)) (feedback_events d).

(** No row of a message is drawn twice. *)
Definition fresh_row (u : draws) (d : event_log) : Prop := ∀ r, r ∈ feedback_events d → fr_id r ≠ dr_row u.

Lemma append_fresh u e d : fresh_row u d →
  append (dr_row u) e d = (Ok (dr_row u), set_feedback (feedback_events d ++ [mk_feedback_row (dr_row u) (unverified e) false]) d).
Proof.
  intros Hf. unfold append, mget, mguard, mlift, mput, mbind at 1 2, M_bind at 1 2.
  destruct (existsb _ _) eqn:E; [|done]. apply existsb_exists in E as (r & Hr & Er%N.eqb_eq).
  apply list_elem_of_In in Hr. by destruct (Hf r).
Qed.

Lemma quarantine_new u d row reason now : fresh_row u d → fr_id row = dr_row u →
  (quarantine (dr_row u) (dr_log u) reason now (set_feedback (feedback_events d ++ [row]) d)).2
  = mk_log (events d) (curated_events d) (feedback_events d ++ [mk_feedback_row (dr_row u) (fr_event row) true])
      (quarantine_log d ++ [mk_quarantine (dr_log u) (dr_row u) reason now]).
Proof.
  intros Hf Hid. unfold quarantine, mmodify. simpl. f_equal. rewrite map_app. simpl. rewrite Hid, N.eqb_refl. f_equal.
  rewrite <-(map_id (feedback_events d)) at 2. apply map_ext_in. intros r Hr. apply list_elem_of_In in Hr.
  destruct (N.eqb_spec (fr_id r) (dr_row u)); [|done]. by destruct (Hf r).
Qed.

(** A message of the feedback streams is read, kept aside or dropped. The call never
    raises. Data that make an event add one visible row, that event without its
    verification; data that do not add one quarantined row with the raw fields and one
    entry of the log, and change nothing that is visible; what is no dictionary of data
    changes nothing. *)
Theorem messages_are_read_or_kept_aside escalation u m d : fresh_row u d →
  ∃ d', process escalation u m d = (Ok tt, d')
  ∧ events d' = events d ∧ curated_events d' = curated_events d
  ∧ match (data ← decode_fields (sm_fields m); spread data) with
    | Raise _ => d' = d
    | Ok data =>
        match parse_feedback (if escalation then set_outcome data else data) with
        | Ok e => feedback_events d' = feedback_events d ++ [mk_feedback_row (dr_row u) (unverified e) false]
                  ∧ quarantine_log d' = quarantine_log d
        | Raise _ =>
            visible d' = visible d
            ∧ (∃ r, feedback_events d' = feedback_events d ++ [r] ∧ fr_quarantined r = true
                 ∧ obj_field "raw" (fb_output (fr_event r)) = JObj (map (λ kv, (kv.1, JStr kv.2)) (sm_fields m)))
            ∧ ∃ q, quarantine_log d' = quarantine_log d ++ [q] ∧ qu_event q = dr_row u
        end
    end.
Proof.
  intros Hf. unfold process. destruct (decode_fields (sm_fields m) ≫= spread) as [data|err]; [|by exists d].
  destruct (parse_feedback _) as [e|err].
  - eexists. split; [reflexivity|]. rewrite (mbind_step _ _ _ _ _ (append_fresh u e d Hf)). done.
  - eexists. split; [reflexivity|]. unfold visible.
    rewrite (mbind_step _ _ _ _ _ (append_fresh u (sentinel u (sm_fields m)) d Hf)), quarantine_new by done.
    simpl. rewrite List.filter_app. simpl. rewrite app_nil_r. split_and!; try done; by eexists.
Qed.

(** Every message of a batch is acknowledged, once and in order, whatever its handler
    does: nothing a message holds stops the listener or is delivered again. *)
Theorem every_message_is_acknowledged reg sql_now now today stream l w : ∃ w',
  handle_batch reg sql_now now today stream l w = (Ok tt, w')
  ∧ wk_acked w' = wk_acked w ++ map (λ um, (stream, sm_id um.2)) l.
Proof.
  assert (Hk : ∀ u m, keeps wk_acked (handle reg sql_now now today stream u m)).
  { intros u m w0. unfold handle. destruct (String.eqb stream STREAM_FEEDBACK);
      [unfold on_events; by destruct (on_log _ _)|].
    destruct (String.eqb stream STREAM_ESCALATED); [unfold on_events; by destruct (on_log _ _)|].
    unfold process_refinery. destruct (_ ≫= _) as [e|]; [|done]. by destruct (ingest _ _ _ _ _ _ _) as [[r|] o]. }
  unfold handle_batch. revert w. induction l as [|um l IH]; intros w; simpl.
  { exists w. by rewrite app_nil_r. }
  set (w1 := mk_worker (wk_orion (handle reg sql_now now today stream um.1 um.2 w).2)
    (wk_ready (handle reg sql_now now today stream um.1 um.2 w).2) (wk_acked w ++ [(stream, sm_id um.2)])).
  assert (H1 : handle_and_ack reg sql_now now today stream um w = (Ok tt, w1)).
  { unfold handle_and_ack, only_logged, mmodify, mbind, M_bind, w1. by rewrite (Hk um.1 um.2 w). }
  destruct (IH w1) as (w' & Hw & Ha). exists w'. rewrite (mbind_step _ _ _ _ _ H1). split; [done|].
  rewrite Ha. simpl. by rewrite <-app_assoc.
Qed.
End Ingestion.

Lemma messages_are_read_or_kept_aside_witness : ∃ d',
  process (λ _, Raise ValueError) (λ _, Raise ValueError) (λ _, "bad") false (mk_draws 1 2 3 63900000000000000)
    (mk_stream_message "1-0" [("task_id", "t")]) (mk_log [] [] [] []) = (Ok tt, d') ∧ visible d' = [].
Proof.
  destruct (messages_are_read_or_kept_aside (λ _, Raise ValueError) (λ _, Raise ValueError) (λ _, "bad") false
    (mk_draws 1 2 3 63900000000000000) (mk_stream_message "1-0" [("task_id", "t")]) (mk_log [] [] [] []))
    as (d' & Hd & _ & _ & Hv & _).
  - intros r Hr. by apply elem_of_nil in Hr.
  - exact (ex_intro _ d' (conj Hd Hv)).
Defined.
