(* ===== verification/Heuristics.v ===== *)
(** orion/pipeline/heuristic_generator.py, which turns feedback into routing weights, with
    the loader of orion/core/weights_loader.py, and the checks of
    orion/pipeline/heuristic_generation.py.

    The weights file is the mapping its YAML denotes; a run reads the clock once. [float]
    and [int] of a text, and the text of the time of a run, are arguments. *)

From S2P Require Import Prelude.
From S2P Require Import PyStr.
From S2P Require Import PyTime.
From S2P Require Import Json.
From S2P Require Import PyDict.
From S2P Require Import Contracts.
From S2P Require Import Feedback.
From S2P Require Import Signals.
From S2P Require Import Orchestrator.
From Stdlib Require Import QArith Qabs Lqa.
Close Scope Q_scope.
Open Scope Z_scope.

Definition SUCCESS_OUTCOMES : list string := ["success"; "completed"; "approved"].
Definition HUMAN_ESCALATION_OUTCOMES : list string := ["escalated"; "approved"; "rejected"].
Definition DEFAULT_AGENT_IDS : list string := ["vega"; "rigel"].

(** The columns a query selects. *)
Record heuristic_row := mk_hrow {
  hr_agent : string;
  hr_outcome : string;
  hr_confidence : Q }.

Definition row_of (r : feedback_row) : heuristic_row :=
  mk_hrow (fb_agent (fr_event r)) (outcome_value (fb_outcome (fr_event r))) (fb_confidence (fr_event r)).

(** [_query_events]: timestamps are compared as text. *)
Definition query_events (skill : string) (window_hours before_hours : Z) (now : time) (d : event_log) :
    result (list heuristic_row) :=
  window_end ← dt_add now (- (before_hours * hour_us));
  window_start ← dt_add window_end (- (window_hours * hour_us));
  let within r := let t := iso (fb_time (fr_event r)) in
    str_leb (iso window_start) t && String.ltb t (iso window_end) in
  Ok (map row_of (py_sorted by_timestamp
    (List.filter (λ r, String.eqb (fb_category (fr_event r)) skill && within r && negb (fr_quarantined r))
       (feedback_events d)))).

Record analysis := mk_analysis {
  an_count : Z;
  an_confidence : Q;
  an_success : Q;
  an_escalation : Q;
  an_cold : bool }.

Definition count_rows (f : heuristic_row → bool) (l : list heuristic_row) : Z := Z.of_nat (length (List.filter f l)).

(** [_group_confidence_by_agent]. *)
Definition add_score (g : list (string * list Q)) (r : heuristic_row) : list (string * list Q) :=
  assoc_set (hr_agent r) (or_else (assoc_get (hr_agent r) g) [] ++ [hr_confidence r]) g.
Definition group_confidence_by_agent (rows : list heuristic_row) : list (string * list Q) := foldl add_score [] rows.

(** [max(x, 0.0)]. *)
Definition qmax0 (q : Q) : Q := if Qltb q 0 then 0%Q else q.

(** [dict.setdefault(a, 0.0)]. *)
Definition default_zero (scores : list (string * Q)) (a : string) : list (string * Q) :=
  match assoc_get a scores with Some _ => scores | None => assoc_set a 0%Q scores end.

Definition sum_scores (l : list (string * Q)) : Q := foldr (λ kv q, (kv.2 + q)%Q) 0%Q l.

Definition pair_leb (a b : string * Q) : bool := str_leb a.1 b.1.

(** The weights for these scores. *)
Definition normalize_scores (scores : list (string * Q)) : list (string * Q) :=
  let total := sum_scores scores in
  if Qle_bool total 0 then
    map (λ kv, (kv.1, round4 (1 / inject_Z (Z.of_nat (length scores)))%Q)) (py_sorted pair_leb scores)
  else map (λ kv, (kv.1, round4 (kv.2 / total)%Q)) (py_sorted pair_leb scores).

Section Generator.
Context (float_text : string → result Q) (int_text : string → result Z).

(** [int(v)]. *)
Definition to_int (v : json) : result Z :=
  match v with
  | JInt z => Ok z
  | JBool b => Ok (if b then 1 else 0)
  | JFloat q => Ok (Z.quot (Qnum q) (Zpos (Qden q)))
  | JStr s => int_text s
  | _ => Raise TypeError
  end.

Definition cold_start_threshold (data : jdict) : result Z := to_int (obj_default "cold_start_threshold" (JInt 50) data).
Definition last_version (data : jdict) : result Z := to_int (obj_default "version" (JInt 0) data).

Definition analyze (skill : string) (now : time) (d : event_log) (data : jdict) : result analysis :=
  rows ← query_events skill 168 0 now d;
  let n := Z.of_nat (length rows) in
  cold ← cold_start_threshold data;
  Ok (mk_analysis n (round4 (mean (map hr_confidence rows)))
        (round4 (per (inject_Z (count_rows (λ r, bool_decide (hr_outcome r ∈ SUCCESS_OUTCOMES)) rows)) n))
        (round4 (per (inject_Z (count_rows (λ r, bool_decide (hr_outcome r ∈ HUMAN_ESCALATION_OUTCOMES)
                                                || String.eqb (hr_agent r) "human_reviewer") rows)) n))
        (n <? cold)).

(** [_suggested_weights]. *)
Definition suggested_weights (skill : string) (now : time) (d : event_log) (data : jdict) :
    result (list (string * Q)) :=
  rows ← query_events skill 168 0 now d;
  match rows with
  | [] => Ok []
  | _ =>
      w ← get_weights float_text data skill;
      let scores := map (λ kv, (kv.1, qmax0 (mean kv.2))) (group_confidence_by_agent rows) in
      let agents := match w with [] => DEFAULT_AGENT_IDS | _ => map fst w end in
      Ok (normalize_scores (foldl default_zero scores agents))
  end.

(** [_weights_match]. *)
Definition weights_match (current suggested : list (string * Q)) : bool :=
  match map fst current ++ map fst suggested with
  | [] => false
  | agents => forallb (λ a, Qle_bool (Qabs (weight_of a current - weight_of a suggested)) (5 # 100)) agents
  end.

(** [_last_avg_confidence]. *)
Definition last_avg_confidence (skill : string) (now : time) (d : event_log) (data : jdict) : result Q :=
  let otherwise :=
    v ← last_version data;
    if v =? 0 then Ok 0%Q else a ← analyze skill now d data; Ok (an_confidence a) in
  match obj_default "last_update_metrics" (JObj []) data with
  | JObj metrics =>
      match obj_default skill (JObj []) metrics with
      | JObj m => match obj_get "avg_confidence" m with Some v => py_float float_text v | None => otherwise end
      | _ => otherwise
      end
  | _ => otherwise
  end.

Definition should_update_weights (skill : string) (now : time) (d : event_log) (data : jdict) : result bool :=
  a ← analyze skill now d data;
  cold ← cold_start_threshold data;
  if an_count a <? cold then Ok false
  else
    suggested ← suggested_weights skill now d data;
    match suggested with
    | [] => Ok false
    | _ =>
        current ← get_weights float_text data skill;
        previous ← last_avg_confidence skill now d data;
        let improved := Qltb (5 # 100) (an_confidence a - previous)%Q in
        if weights_match current suggested then v ← last_version data; Ok ((v =? 0) && improved)
        else Ok improved
    end.

Definition generate_weight_update (skill : string) (now : time) (d : event_log) (data : jdict) :
    result (option (list (string * Q))) :=
  yes ← should_update_weights skill now d data;
  if yes : bool then w ← suggested_weights skill now d data; Ok (Some w) else Ok None.

(** ** Drift *)

Record drift := mk_drift {
  df_skill : string;
  df_baseline : Q;
  df_current : Q;
  df_drop : Q;
  df_agent : string }.

(** One agent of the loop of [detect_drift]. *)
Definition agent_drift (skill : string) (baseline : list (string * list Q)) (best : option drift)
    (kv : string * list Q) : option drift :=
  match assoc_get kv.1 baseline with
  | None | Some [] => best
  | Some scores =>
      let base := mean scores in
      let cur := mean kv.2 in
      let drop := (base - cur)%Q in
      if Qle_bool drop (10 # 100) then best
      else
        let x := mk_drift skill (round4 base) (round4 cur) (round4 drop) kv.1 in
        match best with
        | None => Some x
        | Some b => if Qltb (df_drop b) (df_drop x) then Some x else best
        end
  end.

Definition detect_drift (skill : string) (now : time) (d : event_log) : result (option drift) :=
  current ← query_events skill 24 0 now d;
  baseline ← query_events skill 144 24 now d;
  match current, baseline with
  | [], _ | _, [] => Ok None
  | _, _ => Ok (foldl (agent_drift skill (group_confidence_by_agent baseline)) None (group_confidence_by_agent current))
  end.

(** ** A run *)

(** [dict(v)] of a value of the file: a mapping, or a list of pairs whose keys are texts. *)
Definition dict_of (v : json) : result jdict :=
  match v with
  | JObj d => Ok d
  | JArr l =>
      pairs ← rmap (λ p, match p with JArr [JStr k; v] => Ok (k, v) | _ => Raise TypeError end) l;
      Ok (foldl (λ d kv, obj_set kv.1 kv.2 d) [] pairs)
  | _ => Raise TypeError
  end.

Definition skill_ids (data : jdict) : list string :=
  match obj_default "weights" (JObj []) data with JObj w => map fst w | _ => [] end.

Record run_state := mk_run {
  rn_weights : jdict;
  rn_metrics : jdict;
  rn_updated : list string;
  rn_drift : list drift;
  rn_cold : list string }.

Definition weights_json (w : list (string * Q)) : json := JObj (map (λ kv, (kv.1, JFloat kv.2)) w).

(** One skill of the loop of [run]; [self._weights_data] does not change during it. *)
Definition run_skill (now : time) (d : event_log) (data : jdict) (s : run_state) (skill : string) : result run_state :=
  a ← analyze skill now d data;
  let cold := if an_cold a then rn_cold s ++ [skill] else rn_cold s in
  update ← generate_weight_update skill now d data;
  x ← detect_drift skill now d;
  let drifts := match x with Some x => rn_drift s ++ [x] | None => rn_drift s end in
  Ok (match update with
      | Some w =>
          mk_run (obj_set skill (weights_json w) (rn_weights s))
            (obj_set skill (JObj [("avg_confidence", JFloat (an_confidence a)); ("event_count", JInt (an_count a))])
               (rn_metrics s))
            (rn_updated s ++ [skill]) drifts cold
      | None => mk_run (rn_weights s) (rn_metrics s) (rn_updated s) drifts cold
      end).

Fixpoint run_skills (now : time) (d : event_log) (data : jdict) (s : run_state) (l : list string) : result run_state :=
  match l with
  | [] => Ok s
  | skill :: l => s ← run_skill now d data s skill; run_skills now d data s l
  end.

(** The mapping [run] writes. *)
Definition new_weights_data (now : time) (version : Z) (s : run_state) (data : jdict) : jdict :=
  obj_set "last_update_metrics" (JObj (rn_metrics s))
    (obj_set "weights" (JObj (rn_weights s))
      (obj_set "updated_at" (JStr (iso now))
        (obj_set "source" (JStr "heuristic_generator") (obj_set "version" (JInt version) data)))).

(** [run] on the file: its new content, when a skill was updated, and the summary. *)
Definition run_generator (now : time) (d : event_log) (data : jdict) : result (jdict * run_state) :=
  w ← dict_of (obj_default "weights" (JObj []) data);
  m ← dict_of (obj_default "last_update_metrics" (JObj []) data);
  s ← run_skills now d data (mk_run w m [] [] []) (skill_ids data);
  match rn_updated s with
  | [] => Ok (data, s)
  | _ => v ← last_version data; Ok (new_weights_data now (v + 1) s data, s)
  end.
End Generator.

(** ** Theorems

    What Orion's heuristics guarantee ([Heuristics]): weights are shares, and a run only
    changes the skills it has the evidence for. *)

(** ** Rounding *)

Lemma round_div_close n d : 0 < d → - d <= 2 * (round_div n d * d - n) <= d.
Proof.
  intros Hd. unfold round_div. cbv zeta. pose proof (Z.div_mod n d ltac:(lia)). pose proof (Z.mod_pos_bound n d Hd).
  set (f := n / d) in *. set (r := n mod d) in *. clearbody f r.
  destruct (Z.ltb_spec (2 * r) d); [nia|]. destruct (Z.ltb_spec d (2 * r)); [nia|]. destruct (Z.even f); nia.
Qed.

Lemma round4_close q : (q - (1 # 20000) <= round4 q <= q + (1 # 20000))%Q.
Proof.
  destruct q as [n d]. pose proof (round_div_close (n * 10000) (Zpos d) ltac:(lia)) as H.
  unfold round4, Qle, Qminus, Qplus, Qopp. cbn -[Z.mul Z.opp Pos.mul round_div]. set (r := round_div _ _) in *. clearbody r.
  rewrite !Pos2Z.inj_mul. split; lia.
Qed.

Lemma mean_nonneg_max l : (0 <= qmax0 (mean l))%Q.
Proof. unfold qmax0. destruct (Qltb _ _) eqn:E; [done|]. unfold Qltb in E. by apply negb_false_iff, Qle_bool_iff in E. Qed.

(** ** Shares *)

Lemma sum_scores_perm l l' : l ≡ₚ l' → (sum_scores l == sum_scores l')%Q.
Proof. induction 1; simpl; lra. Qed.

Definition nonneg (l : list (string * Q)) : Prop := Forall (λ kv, (0 <= kv.2)%Q) l.

Lemma sum_scores_nonneg l : nonneg l → (0 <= sum_scores l)%Q.
Proof. induction 1; simpl; lra. Qed.

Lemma score_le_sum l kv : nonneg l → kv ∈ l → (kv.2 <= sum_scores l)%Q.
Proof.
  induction 1 as [|x l Hx Hl IH]; [by intros ?%elem_of_nil|]. pose proof (sum_scores_nonneg l Hl).
  intros [->|Hin]%elem_of_cons; simpl; [lra|]. specialize (IH Hin). lra.
Qed.

Definition times (n : nat) (q : Q) : Q := (inject_Z (Z.of_nat n) * q)%Q.

Lemma times_S n q : (times (S n) q == times n q + q)%Q.
Proof. unfold times. rewrite Nat2Z.inj_succ, <-Z.add_1_r, inject_Z_plus. ring. Qed.

(** Rounding every share moves the sum by at most half a unit for each. *)
Lemma sum_rounded (f : string * Q → Q) l :
  (Qabs (sum_scores (map (λ kv, (kv.1, round4 (f kv))) l) - sum_scores (map (λ kv, (kv.1, f kv)) l))
   <= times (length l) (1 # 20000))%Q.
Proof.
  induction l as [|x l IH]; [unfold times; simpl; done|].
  cbn [map length sum_scores foldr snd]. change (foldr _ 0%Q ?l) with (sum_scores l). rewrite times_S.
  pose proof (round4_close (f x)) as [H1 H2]. apply Qabs_Qle_condition in IH as [H3 H4].
  apply Qabs_Qle_condition. split; lra.
Qed.

Lemma sum_shares total l : ~ (total == 0)%Q →
  (sum_scores (map (λ kv, (kv.1, (kv.2 / total)%Q)) l) == sum_scores l / total)%Q.
Proof.
  intros Ht. induction l as [|x l IH]; [simpl; field; done|].
  cbn [map sum_scores foldr snd]. change (foldr _ 0%Q ?l) with (sum_scores l). rewrite IH. field. done.
Qed.

Lemma sum_equal c l : (sum_scores (map (λ kv, ((kv : string * Q).1, c)) l) == times (length l) c)%Q.
Proof.
  induction l as [|x l IH]; [unfold times; simpl; ring|].
  cbn [map length sum_scores foldr snd]. change (foldr _ 0%Q ?l) with (sum_scores l). rewrite IH, times_S. ring.
Qed.

Lemma pair_leb_total a b : pair_leb a b = true ∨ pair_leb b a = true.
Proof. apply str_leb_total. Qed.
Lemma pair_leb_trans a b c : pair_leb a b = true → pair_leb b c = true → pair_leb a c = true.
Proof. apply str_leb_trans. Qed.

Lemma inject_length_pos {A} (l : list A) : l ≠ [] → (0 < inject_Z (Z.of_nat (length l)))%Q.
Proof. intros Hl. destruct l; [done|]. unfold Qlt. simpl. lia. Qed.

(** What [normalize_scores] makes of non-negative scores. *)
Lemma normalize_spec scores : scores ≠ [] → nonneg scores → let w := normalize_scores scores in
  map fst w = map fst (py_sorted pair_leb scores)
  ∧ Forall (λ kv, (0 <= kv.2 <= 1)%Q) w
  ∧ (Qabs (sum_scores w - 1) <= times (length scores) (1 # 20000))%Q.
Proof.
  intros Hne Hnn. cbv zeta. unfold normalize_scores. set (total := sum_scores scores). set (l := py_sorted pair_leb scores).
  assert (Hp : l ≡ₚ scores) by apply py_sorted_perm.
  assert (Hlen : length l = length scores) by (by rewrite Hp).
  pose proof (inject_length_pos _ Hne) as Hpos.
  destruct (Qle_bool total 0) eqn:Et.
  - set (c := (1 / inject_Z (Z.of_nat (length scores)))%Q).
    assert (Hone : (times (length scores) c == 1)%Q) by (unfold times, c; field; intros E; rewrite E in Hpos; by apply Qlt_irrefl in Hpos).
    split_and!; [by rewrite map_map| |].
    + apply Forall_forall. intros kv (x & -> & _)%list_elem_of_fmap. simpl. apply round4_unit.
      unfold c. assert (H1 : (1 <= inject_Z (Z.of_nat (length scores)))%Q).
      { destruct scores; [done|]. unfold Qle. simpl. lia. }
      split; [apply Qle_shift_div_l|apply Qle_shift_div_r]; try done; lra.
    + pose proof (sum_rounded (λ _, c) l) as H. rewrite Hlen in H. pose proof (sum_equal c l) as E. rewrite Hlen in E.
      apply Qabs_Qle_condition in H as [H1 H2]. apply Qabs_Qle_condition. split; lra.
  - assert (Ht : (0 < total)%Q).
    { destruct (Qlt_le_dec 0 total) as [|Hle]; [done|]. apply Qle_bool_iff in Hle. congruence. }
    assert (Ht0 : ~ (total == 0)%Q) by (intros E; rewrite E in Ht; by apply Qlt_irrefl in Ht).
    split_and!; [by rewrite map_map| |].
    + apply Forall_forall. intros kv (x & -> & Hx)%list_elem_of_fmap. simpl. apply round4_unit.
      rewrite Hp in Hx. pose proof (score_le_sum _ _ Hnn Hx) as Hle. apply (proj1 (Forall_forall _ _) Hnn) in Hx.
      change (sum_scores scores) with total in Hle. simpl in Hx.
      split; [apply Qle_shift_div_l|apply Qle_shift_div_r]; try done; lra.
    + pose proof (sum_rounded (λ kv, (kv.2 / total)%Q) l) as H. rewrite Hlen in H.
      pose proof (sum_shares total l Ht0) as E. pose proof (sum_scores_perm _ _ Hp) as Es.
      assert (Eone : (sum_scores l / total == 1)%Q) by (rewrite Es; unfold total; field; exact Ht0).
      rewrite Eone in E. apply Qabs_Qle_condition in H as [H1 H2]. apply Qabs_Qle_condition. split; lra.
Qed.

(** ** Suggested weights *)

Lemma group_keys_nodup rows : ∀ g, NoDup (map fst g) → NoDup (map fst (foldl add_score g rows)).
Proof. induction rows as [|r rows IH]; intros g Hg; [done|]. by apply IH, assoc_set_nodup. Qed.

Lemma group_has rows : ∀ g a, a ∈ map fst g ∨ (∃ r, r ∈ rows ∧ hr_agent r = a) → a ∈ map fst (foldl add_score g rows).
Proof.
  induction rows as [|r rows IH]; intros g a H; simpl; [destruct H as [|(r & Hr%elem_of_nil & _)]; done|].
  apply IH. unfold add_score. rewrite assoc_set_keys. destruct H as [H|(r' & [->|Hr]%elem_of_cons & <-)].
  - left. case_bool_decide; [done|by apply elem_of_app; left].
  - left. case_bool_decide; [done|]. apply elem_of_app. right. by apply list_elem_of_singleton.
  - right. by exists r'.
Qed.

Lemma defaults_spec agents : ∀ scores, NoDup (map fst scores) → nonneg scores →
  let s := foldl default_zero scores agents in
  NoDup (map fst s) ∧ nonneg s ∧ (∀ a, a ∈ map fst scores ∨ a ∈ agents → a ∈ map fst s)
  ∧ (scores ≠ [] ∨ agents ≠ [] → s ≠ []).
Proof.
  induction agents as [|a agents IH]; intros scores Hnd Hnn; cbv zeta; simpl.
  { split_and!; [done|done|by intros a [|?%elem_of_nil]|by intros [|]]. }
  assert (H1 : NoDup (map fst (default_zero scores a)) ∧ nonneg (default_zero scores a)
    ∧ (∀ b, b ∈ map fst scores ∨ b = a → b ∈ map fst (default_zero scores a)) ∧ default_zero scores a ≠ []).
  { unfold default_zero. destruct (assoc_get a scores) as [q|] eqn:E.
    - apply assoc_get_in in E. split_and!; [done|done| |by intros ->; apply elem_of_nil in E].
      intros b [| ->]; [done|]. by apply (list_elem_of_fmap_2 fst) in E.
    - split_and!; [by apply assoc_set_nodup| | |].
      + apply Forall_forall. intros [k v] Hkv. apply (assoc_get_iff _ _ _ (assoc_set_nodup _ _ _ Hnd)) in Hkv.
        rewrite assoc_get_set in Hkv. destruct (String.eqb k a); [by injection Hkv as <-|].
        apply assoc_get_in in Hkv. by apply (proj1 (Forall_forall _ _) Hnn) in Hkv.
      + intros b Hb. rewrite assoc_set_keys. case_bool_decide as Ha; [by destruct Hb as [| ->]|].
        apply elem_of_app. destruct Hb as [| ->]; [by left|right; by apply list_elem_of_singleton].
      + intros Hn. apply (f_equal (assoc_get a)) in Hn. by rewrite assoc_get_set, String.eqb_refl in Hn. }
  destruct H1 as (H1 & H2 & H3 & H4). destruct (IH _ H1 H2) as (I1 & I2 & I3 & I4). split_and!; [done|done| |].
  - intros b [Hb|[->|Hb]%elem_of_cons]; apply I3; [left; apply H3; by left|left; apply H3; by right|by right].
  - intros _. apply I4. by left.
Qed.

Section Run.
Context (float_text : string → result Q) (int_text : string → result Z).

(** Suggested weights are shares. When there is anything to go by, the weights of a
    skill name, in order and once each, every agent that had an event in the window and
    every agent configured for the skill; each lies in the unit interval; and they add
    up to one, but for half a unit of the fourth decimal for each agent. *)
Theorem suggested_weights_are_shares skill now d data w : suggested_weights float_text skill now d data = Ok w → w ≠ [] →
  StronglySorted (λ a b, str_leb a b = true) (map fst w) ∧ NoDup (map fst w)
  ∧ Forall (λ kv, (0 <= kv.2 <= 1)%Q) w
  ∧ (Qabs (sum_scores w - 1) <= times (length w) (1 # 20000))%Q
  ∧ ∀ rows configured, query_events skill 168 0 now d = Ok rows → get_weights float_text data skill = Ok configured →
      ∀ a, (∃ r, r ∈ rows ∧ hr_agent r = a) ∨ a ∈ map fst configured → a ∈ map fst w.
Proof.
  intros H Hne. unfold suggested_weights in H. apply rbind_ok in H as (rows & Hr & H).
  destruct rows as [|r0 rows]; [by injection H as <-|]. apply rbind_ok in H as (conf & Hc & H). injection H as <-.
  set (groups := group_confidence_by_agent (r0 :: rows)) in *.
  set (agents := match conf with [] => DEFAULT_AGENT_IDS | _ => map fst conf end) in *.
  set (scores0 := map (λ kv, (kv.1, qmax0 (mean kv.2))) groups) in *.
  assert (Hk0 : map fst scores0 = map fst groups) by (unfold scores0; by rewrite map_map).
  assert (Hnd0 : NoDup (map fst scores0)).
  { rewrite Hk0. apply group_keys_nodup. constructor. }
  assert (Hnn0 : nonneg scores0).
  { apply Forall_forall. intros kv (x & -> & _)%list_elem_of_fmap. apply mean_nonneg_max. }
  destruct (defaults_spec agents scores0 Hnd0 Hnn0) as (Hnd & Hnn & Hhas & Hn0).
  set (scores := foldl default_zero scores0 agents) in *.
  assert (Hs : scores ≠ []) by (apply Hn0; right; unfold agents; by destruct conf).
  destruct (normalize_spec scores Hs Hnn) as (Hkeys & Hunit & Hsum).
  assert (Hlen : length (normalize_scores scores) = length scores).
  { apply (f_equal length) in Hkeys. rewrite !length_map in Hkeys. by rewrite Hkeys, (py_sorted_perm pair_leb scores). }
  split_and!; [|..|].
  - rewrite Hkeys. assert (Hsorted := py_sorted_sorted pair_leb pair_leb_total pair_leb_trans scores).
    clear -Hsorted. induction Hsorted as [|x l _ IH Hx]; simpl; constructor; [done|].
    apply Forall_forall. intros k (y & -> & Hy)%list_elem_of_fmap. by apply (proj1 (Forall_forall _ _) Hx).
  - rewrite Hkeys. by rewrite (Permutation_map fst (py_sorted_perm pair_leb scores)).
  - done.
  - by rewrite Hlen.
  - intros rows' conf' Hrows' Hconf' a Ha. rewrite Hr in Hrows'. injection Hrows' as <-. rewrite Hc in Hconf'. injection Hconf' as <-.
    rewrite Hkeys, (Permutation_map fst (py_sorted_perm pair_leb scores)). apply Hhas. destruct Ha as [Hrow|Hin].
    + left. rewrite Hk0. apply group_has. by right.
    + right. unfold agents. clear -Hin. destruct conf; [by apply elem_of_nil in Hin|exact Hin].
Qed.

(** ** A run *)

(** What [run_skills] keeps: untouched skills keep their entry; updated ones have the
    suggested weights, and the evidence for them. *)
Definition supported (now : time) (d : event_log) (data : jdict) (k : string) : Prop :=
  ∃ a t q, analyze int_text k now d data = Ok a ∧ cold_start_threshold int_text data = Ok t ∧ t <= an_count a
    ∧ last_avg_confidence float_text int_text k now d data = Ok q ∧ (q + (5 # 100) < an_confidence a)%Q.

Definition kept (now : time) (d : event_log) (data : jdict) (w0 : jdict) (s : run_state) : Prop :=
  (∀ k, k ∉ rn_updated s → obj_get k (rn_weights s) = obj_get k w0)
  ∧ ∀ k, k ∈ rn_updated s → supported now d data k
      ∧ ∃ w, suggested_weights float_text k now d data = Ok w ∧ w ≠ [] ∧ obj_get k (rn_weights s) = Some (weights_json w).

Lemma update_supported skill now d data w : generate_weight_update float_text int_text skill now d data = Ok (Some w) →
  supported now d data skill ∧ suggested_weights float_text skill now d data = Ok w ∧ w ≠ [].
Proof.
  unfold generate_weight_update, should_update_weights. intros H.
  apply rbind_ok in H as (yes & Hy & H). destruct yes; [|discriminate].
  apply rbind_ok in H as (w' & Hw & [= ->]).
  apply rbind_ok in Hy as (a & Ha & Hy). apply rbind_ok in Hy as (t & Ht & Hy).
  destruct (Z.ltb_spec (an_count a) t) as [|Hcount]; [discriminate|].
  rewrite Hw in Hy. cbn [mbind rbind] in Hy. destruct w as [|kv w]; [discriminate|].
  apply rbind_ok in Hy as (cur & _ & Hy). apply rbind_ok in Hy as (q & Hq & Hy). cbv zeta in Hy.
  assert (Himp : Qltb (5 # 100) (an_confidence a - q)%Q = true).
  { destruct (weights_match _ _); [|by injection Hy].
    apply rbind_ok in Hy as (v & _ & [= Hy]). by apply andb_true_iff in Hy as [_ Hy]. }
  split_and!; [|done|done]. exists a, t, q. split_and!; [done|done|done|done|].
  unfold Qltb in Himp. apply negb_true_iff in Himp.
  destruct (Qlt_le_dec (5 # 100) (an_confidence a - q)) as [Hlt|Hle]; [lra|]. apply Qle_bool_iff in Hle. congruence.
Qed.

Lemma run_skill_kept now d data w0 s skill s' : run_skill float_text int_text now d data s skill = Ok s' →
  kept now d data w0 s → kept now d data w0 s'.
Proof.
  unfold run_skill. intros H [K1 K2]. apply rbind_ok in H as (a & _ & H). cbv zeta in H.
  apply rbind_ok in H as (u & Hu & H). apply rbind_ok in H as (x & _ & [= <-]).
  destruct u as [w|]; [|by split]. apply update_supported in Hu as (Hs & Hw & Hne). split; simpl; intros k Hk; rewrite obj_get_set.
  - apply not_elem_of_app in Hk as [Hk Hk']. destruct (String.eqb_spec k skill) as [->|_]; [|by apply K1].
    destruct Hk'. by apply list_elem_of_singleton.
  - destruct (String.eqb_spec k skill) as [->|Hn]; [split; [done|by exists w]|].
    apply K2. apply elem_of_app in Hk as [|Hk%list_elem_of_singleton]; done.
Qed.

Lemma run_skills_kept now d data w0 l : ∀ s s', run_skills float_text int_text now d data s l = Ok s' →
  kept now d data w0 s → kept now d data w0 s'.
Proof.
  induction l as [|k l IH]; intros s s' H K; [by injection H as <-|].
  apply rbind_ok in H as (s1 & H1 & H). eapply IH; [done|]. by eapply run_skill_kept.
Qed.

(** A run changes what it has the evidence for, and nothing else. A run that updates no
    skill leaves the file as it is; one that does adds one to its version. A skill it
    does not update keeps its weights. A skill it updates had at least the configured
    number of events in the week, and a mean confidence more than five hundredths above
    the last one recorded; its weights are then those suggested for it. *)
Theorem runs_need_evidence now d data w0 data' s :
  dict_of (obj_default "weights" (JObj []) data) = Ok w0 →
  run_generator float_text int_text now d data = Ok (data', s) →
  (rn_updated s = [] → data' = data)
  ∧ (rn_updated s ≠ [] → ∃ v, last_version int_text data = Ok v ∧ last_version int_text data' = Ok (v + 1)
       ∧ obj_get "weights" data' = Some (JObj (rn_weights s)))
  ∧ (∀ k, k ∉ rn_updated s → obj_get k (rn_weights s) = obj_get k w0)
  ∧ ∀ k, k ∈ rn_updated s → supported now d data k
      ∧ ∃ w, suggested_weights float_text k now d data = Ok w ∧ w ≠ [] ∧ obj_get k (rn_weights s) = Some (weights_json w).
Proof.
  intros Hw H. unfold run_generator in H. rewrite Hw in H. cbn [mbind rbind] in H.
  apply rbind_ok in H as (m & _ & H). apply rbind_ok in H as (s1 & Hs & H).
  assert (K : kept now d data w0 s1).
  { eapply run_skills_kept; [exact Hs|]. split; [done|]. by intros k ?%elem_of_nil. }
  destruct (rn_updated s1) as [|u us] eqn:Eu.
  - injection H as <- <-. split_and!; [done|by rewrite Eu|apply K|apply K].
  - apply rbind_ok in H as (v & Hv & [= <- <-]). split_and!; [by rewrite Eu| |apply K|apply K].
    intros _. exists v. split_and!; [done| |]; unfold last_version, obj_default, new_weights_data;
      rewrite !obj_get_set; reflexivity.
Qed.

End Run.

(** ** A demonstration *)

Module HeuristicDemo.
Definition no_float (_ : string) : result Q := Raise ValueError.
Definition no_int (_ : string) : result Z := Raise ValueError.
Definition skill : string := "rigel.skill.refactor".
Definition event (task : uuid) (agent : string) (q : Q) (t : time) : FeedbackEvent :=
  mk_feedback task skill agent approved_ q "h" [] None true 0 t.
Definition log_of (l : list (string * Q)) : event_log :=
  foldl (λ d x, (append (N.of_nat (length (feedback_events d))) (event 7 x.1 x.2 63900000000000000) d).2) (mk_log [] [] [] []) l.
Definition config : jdict :=
  [("version", JInt 0); ("cold_start_threshold", JInt 3);
   ("weights", JObj [(skill, JObj [("vega", JInt 0); ("rigel", JInt 1)]); ("qa.regression", JObj [("vega", JInt 1)])])].
Definition noon : time := 63900000000000000 + hour_us.

(** Feedback of the agents themselves: three events, and the weights follow. *)
Definition agents_log : event_log := log_of [("rigel", 9 # 10); ("vega", 3 # 10); ("rigel", 8 # 10)]%Q.
Definition ran (d : event_log) : result (jdict * run_state) := run_generator no_float no_int noon d config.

Example agents_share : suggested_weights no_float skill noon agents_log config
  = Ok [("rigel", 7391 # 10000); ("vega", 2609 # 10000)]%Q.
Proof. vm_compute. reflexivity. Qed.

Example one_skill_updated : match ran agents_log with
  | Ok (data, s) => rn_updated s = [skill] ∧ rn_cold s = ["qa.regression"] ∧ obj_get "version" data = Some (JInt 1)
  | Raise _ => False end.
Proof. vm_compute. done. Qed.

(** The reviews of people are recorded under the name "human_reviewer", which the
    generator takes for an agent: it gets the whole weight, and the agents none. *)
Definition reviews_log : event_log := log_of [("human_reviewer", 1); ("human_reviewer", 1); ("human_reviewer", 1)]%Q.

Example reviewers_take_the_weight : suggested_weights no_float skill noon reviews_log config
  = Ok [("human_reviewer", 10000 # 10000); ("rigel", 0 # 10000); ("vega", 0 # 10000)]%Q.
Proof. vm_compute. reflexivity. Qed.
End HeuristicDemo.
Import HeuristicDemo.

Lemma suggested_weights_are_shares_witness : ∃ w, suggested_weights no_float skill noon agents_log config = Ok w
  ∧ (Qabs (sum_scores w - 1) <= times (length w) (1 # 20000))%Q.
Proof.
  destruct (suggested_weights no_float skill noon agents_log config) as [w|e] eqn:E; [|vm_compute in E; discriminate E].
  assert (Hne : w ≠ []) by (intros ->; vm_compute in E; discriminate E).
  exists w. split; [reflexivity|]. exact (proj1 (proj2 (proj2 (proj2 (suggested_weights_are_shares no_float skill noon agents_log config w E Hne))))).
Defined.

Lemma runs_need_evidence_witness : ∃ data s, ran agents_log = Ok (data, s) ∧ supported no_float no_int noon agents_log config skill.
Proof.
  destruct (ran agents_log) as [[data s]|e] eqn:E; [|vm_compute in E; discriminate E].
  exists data, s. split; [reflexivity|].
  pose proof (runs_need_evidence no_float no_int noon agents_log config _ data s eq_refl E) as H.
  apply (proj2 (proj2 (proj2 H))). vm_compute in E. injection E as _ <-. apply list_elem_of_here.
Defined.
