(* ===== verification/Repositories.v ===== *)
(** core/repositories/store.py: registered repositories and the commits their revisions
    were resolved to.

    The two tables are the lists of their rows. The file system (is a path a directory)
    and git (what [rev-parse] prints, if it succeeds) are arguments.
    [RepositoryAccessError] is a subclass of [PermissionError] and is represented by it. *)

From S2P Require Import Prelude.
From S2P Require Import PyStr.
From S2P Require Import PyTime.
Open Scope Z_scope.

Record RepositoryRecord := mk_repository {
  rp_id : string;
  rp_provider : string;
  rp_owner : string;
  rp_name : string;
  rp_scope : string;
  rp_path : option string;
  rp_active : bool;
  rp_created : string }.

Record revision_row := mk_revision {
  rr_repository : string;
  rr_requested : string;
  rr_sha : string;
  rr_at : string }.

Record repository_store := mk_repositories {
  repositories : list RepositoryRecord;
  revisions : list revision_row }.

(** UNIQUE(provider, owner, name, installation_scope). *)
Definition identity (r : RepositoryRecord) : string * string * string * string :=
  (rp_provider r, rp_owner r, rp_name r, rp_scope r).

Definition same_repository (k : string * string * string * string) (r : RepositoryRecord) : bool :=
  bool_decide (identity r = k).

(** ON CONFLICT ... DO UPDATE. *)
Definition moved_to (path : option string) (r : RepositoryRecord) : RepositoryRecord :=
  mk_repository (rp_id r) (rp_provider r) (rp_owner r) (rp_name r) (rp_scope r) path true (rp_created r).

Definition is_hex_char (c : Ascii.ascii) : bool := existsb (Ascii.eqb c) (to_list "0123456789abcdef").

Definition valid_sha (sha : string) : bool :=
  (Z.of_nat (String.length sha) =? 40) && forallb is_hex_char (to_list (lower sha)).

Section Store.
Context (is_dir : string → bool) (rev_parse : string → string → option string).

Definition register (fresh : string) (provider owner name scope : string) (local_path : option string) (now : time) :
    M repository_store RepositoryRecord :=
  let provider := strip provider in let owner := strip owner in
  let name := strip name in let scope := strip scope in
  mguard (forallb truthy_str [provider; owner; name; scope]) ValueError;;
  mguard (match local_path with Some p => is_dir p | None => true end) PermissionError;;
  s ← mget;
  let k := (provider, owner, name, scope) in
  match List.find (same_repository k) (repositories s) with
  | Some r =>
      mput (mk_repositories (map (λ r, if same_repository k r then moved_to local_path r else r) (repositories s))
              (revisions s));;
      mret (moved_to local_path r)
  | None =>
      mguard (negb (existsb (λ r, String.eqb (rp_id r) fresh) (repositories s))) IntegrityError;;
      let r := mk_repository fresh provider owner name scope local_path true (iso now) in
      mput (mk_repositories (repositories s ++ [r]) (revisions s));;
      mret r
  end.

Definition has_id (id : string) (r : RepositoryRecord) : bool := String.eqb (rp_id r) id.

Definition get_repository (access : RepositoryRecord → bool) (id : string) (s : repository_store) :
    result RepositoryRecord :=
  match List.find (has_id id) (repositories s) with
  | Some r => rguard (rp_active r) PermissionError;; rguard (access r) PermissionError;; Ok r
  | None => Raise PermissionError
  end.

Definition is_revision (id revision : string) (r : revision_row) : bool :=
  String.eqb (rr_repository r) id && String.eqb (rr_requested r) revision.

(** INSERT OR REPLACE. *)
Definition record_revision (r : revision_row) (s : repository_store) : repository_store :=
  mk_repositories (repositories s)
    (List.filter (λ x, negb (is_revision (rr_repository r) (rr_requested r) x)) (revisions s) ++ [r]).

Definition resolve_base (access : RepositoryRecord → bool) (id revision : string) (now : time) :
    M repository_store string :=
  r ← mread (get_repository access id);
  path ← mlift (match rp_path r with Some p => if truthy_str p then Ok p else Raise PermissionError
                | None => Raise PermissionError end);
  printed ← mlift (of_option PermissionError (rev_parse path (revision +:+ "^{commit}")));
  let sha := strip printed in
  mguard (valid_sha sha) PermissionError;;
  mmodify (record_revision (mk_revision (rp_id r) revision sha (iso now)));;
  mret sha.
End Store.

(** ** What the tables always satisfy *)

Definition revision_key (r : revision_row) : string * string := (rr_repository r, rr_requested r).

Definition repositories_ok (s : repository_store) : Prop :=
  NoDup (rp_id <$> repositories s) ∧ NoDup (identity <$> repositories s) ∧ NoDup (revision_key <$> revisions s)
  ∧ Forall (λ x, valid_sha (rr_sha x) = true ∧ rr_repository x ∈ (rp_id <$> repositories s)) (revisions s).

Inductive repository_step : repository_store → repository_store → Prop :=
  | step_register is_dir fresh p o n sc path now s :
      repository_step s (register is_dir fresh p o n sc path now s).2
  | step_resolve git access id revision now s :
      repository_step s (resolve_base git access id revision now s).2.

Lemma moved_identity path k r : identity (if same_repository k r then moved_to path r else r) = identity r.
Proof. by destruct (same_repository k r). Qed.
Lemma moved_id path k r : rp_id (if same_repository k r then moved_to path r else r) = rp_id r.
Proof. by destruct (same_repository k r). Qed.

Lemma map_fields {A} (g : RepositoryRecord → A) f l : (∀ r, g (f r) = g r) → (g <$> map f l) = (g <$> l).
Proof. intros Hf. induction l as [|r l IH]; [done|]. cbn. rewrite Hf. f_equal. exact IH. Qed.

(** What a call leaves of the tables, by what it did. *)
Lemma register_cases is_dir fresh p o n sc path now s :
  let s' := (register is_dir fresh p o n sc path now s).2 in
  s' = s ∨ (∃ k, s' = mk_repositories (map (λ r, if same_repository k r then moved_to path r else r) (repositories s)) (revisions s))
  ∨ ∃ r, (rp_id r ∉ (rp_id <$> repositories s)) ∧ (identity r ∉ (identity <$> repositories s))
      ∧ s' = mk_repositories (repositories s ++ [r]) (revisions s).
Proof.
  cbv zeta. unfold register. munfold. destruct (forallb _ _); [|by left].
  destruct (match path with Some p0 => is_dir p0 | None => true end); [|by left]. simpl.
  destruct (List.find _ (repositories s)) as [r|] eqn:Hf; [right; left; by eexists|].
  destruct (existsb _ _) eqn:He; [by left|]. right; right. simpl. eexists. split_and!; [| |reflexivity].
  - intros (x & Hx & Hin)%list_elem_of_fmap. assert (existsb (λ r, String.eqb (rp_id r) fresh) (repositories s) = true); [|congruence].
    apply existsb_exists. exists x. split; [by apply list_elem_of_In|]. apply String.eqb_eq. by rewrite <-Hx.
  - intros (x & Hx & Hin)%list_elem_of_fmap. apply list_elem_of_In in Hin. pose proof (List.find_none _ _ Hf x Hin) as Hn.
    unfold same_repository in Hn. by apply bool_decide_eq_false in Hn.
Qed.

Lemma resolve_cases git access id revision now s :
  let s' := (resolve_base git access id revision now s).2 in
  s' = s ∨ ∃ x, valid_sha (rr_sha x) = true ∧ rr_repository x ∈ (rp_id <$> repositories s) ∧ s' = record_revision x s.
Proof.
  cbv zeta. unfold resolve_base, get_repository. munfold.
  destruct (List.find (has_id id) (repositories s)) as [r|] eqn:Hf; [|by left].
  apply List.find_some in Hf as [Hin _].
  destruct (rp_active r); [|by left]. destruct (access r); [|by left]. simpl.
  destruct (rp_path r) as [path|]; [|by left]. destruct (truthy_str path); [|by left].
  destruct (git path _) as [printed|]; [|by left]. simpl.
  destruct (valid_sha (strip printed)) eqn:Hs; [|by left]. right.
  exists (mk_revision (rp_id r) revision (strip printed) (iso now)). split_and!; [done| |done].
  simpl. apply (list_elem_of_fmap_2 rp_id). by apply list_elem_of_In.
Qed.

Lemma not_revision r l : revision_key r ∉ (revision_key <$> List.filter (λ x, negb (is_revision (rr_repository r) (rr_requested r) x)) l).
Proof.
  intros (x & Hk & Hx)%list_elem_of_fmap. apply list_elem_of_In, List.filter_In in Hx as [_ Hx].
  unfold revision_key in Hk. injection Hk as H1 H2. unfold is_revision in Hx. by rewrite H1, H2, !String.eqb_refl in Hx.
Qed.

Lemma filter_keys_nodup (p : revision_row → bool) l : NoDup (revision_key <$> l) → NoDup (revision_key <$> List.filter p l).
Proof.
  induction l as [|x l IH]; [done|]. simpl. intros [Hx Hl]%NoDup_cons. destruct (p x); [|by apply IH].
  apply NoDup_cons. split; [|by apply IH]. intros (y & Hy & Hin)%list_elem_of_fmap.
  apply Hx. rewrite Hy. apply list_elem_of_fmap_2. apply list_elem_of_In, List.filter_In in Hin as [Hin _]. by apply list_elem_of_In.
Qed.

Lemma repository_step_ok s s' : repository_step s s' → repositories_ok s → repositories_ok s'.
Proof.
  intros Hs (H1 & H2 & H3 & H4). destruct Hs as [is_dir fresh p o n sc path now s|git access id revision now s].
  - destruct (register_cases is_dir fresh p o n sc path now s) as [->|[(k & ->)|(r & Hi & Hk & ->)]]; [done| |]; unfold repositories_ok; simpl.
    + rewrite !map_fields by (intros; by rewrite ?moved_id, ?moved_identity). done.
    + rewrite !fmap_app. split_and!; [| |done|].
      * apply NoDup_app. split_and!; [done| |apply NoDup_singleton]. by intros x Hx ->%list_elem_of_singleton.
      * apply NoDup_app. split_and!; [done| |apply NoDup_singleton]. by intros x Hx ->%list_elem_of_singleton.
      * eapply List.Forall_impl; [|exact H4]. intros x [Hx Hin]. split; [done|]. apply elem_of_app. by left.
  - destruct (resolve_cases git access id revision now s) as [->|(x & Hx & Hin & ->)]; [done|].
    unfold repositories_ok, record_revision. simpl. split_and!; [done|done| |].
    + rewrite fmap_app. apply NoDup_app. split_and!; [by apply filter_keys_nodup| |apply NoDup_singleton].
      intros k Hk ->%list_elem_of_singleton. by apply not_revision in Hk.
    + apply Forall_app. split; [|by constructor]. apply List.Forall_forall. intros y [Hy _]%List.filter_In.
      by apply (proj1 (List.Forall_forall _ _) H4).
Qed.

(** A registration is stable. Whatever is registered or resolved later, a registered
    repository keeps its id, its identity and the time it was first registered; two
    registered repositories never share an id or an identity; and every recorded
    revision is a full commit of a registered repository. *)
Theorem registrations_are_stable s s' r : repositories_ok s → rtc repository_step s s' → r ∈ repositories s →
  (∃ r', r' ∈ repositories s' ∧ rp_id r' = rp_id r ∧ identity r' = identity r ∧ rp_created r' = rp_created r)
  ∧ repositories_ok s'.
Proof.
  intros Hok Hs. revert r Hok. induction Hs as [|s s1 s' H1 _ IH]; intros r Hok Hr; [split; [by exists r|done]|].
  pose proof (repository_step_ok _ _ H1 Hok) as Hok1.
  assert (Hr1 : ∃ r', r' ∈ repositories s1 ∧ rp_id r' = rp_id r ∧ identity r' = identity r ∧ rp_created r' = rp_created r).
  { destruct H1 as [is_dir fresh p o n sc path now s|git access id revision now s].
    - destruct (register_cases is_dir fresh p o n sc path now s) as [->|[(k & ->)|(x & _ & _ & ->)]]; simpl.
      + by exists r.
      + exists (if same_repository k r then moved_to path r else r). split; [by apply (list_elem_of_fmap_2 (λ r, if same_repository k r then moved_to path r else r))|].
        by destruct (same_repository k r).
      + exists r. split; [|done]. apply elem_of_app. by left.
    - destruct (resolve_cases git access id revision now s) as [->|(x & _ & _ & ->)]; by exists r. }
  destruct Hr1 as (r1 & Hr1 & E1 & E2 & E3). destruct (IH r1 Hok1 Hr1) as [(r2 & Hr2 & F1 & F2 & F3) Hok'].
  split; [|done]. exists r2. by rewrite F1, F2, F3.
Qed.

Module RepositoryDemo.
Definition dir (p : string) : bool := String.eqb p "/work".
Definition git (path revision : string) : option string :=
  if String.eqb revision "HEAD^{commit}" then Some "0123456789abcdef0123456789abcdef01234567
" else None.
Definition none : repository_store := mk_repositories [] [].
Definition registered : repository_store := (register dir "r1" " github " "ann" "galaxz" "1" (Some "/work") 5 none).2.
Definition again : repository_store := (register dir "r2" "github" "ann" "galaxz" "1" None 9 registered).2.

Example resolved : (resolve_base git (λ _, true) "r1" "HEAD" 6 registered).1 = Ok "0123456789abcdef0123456789abcdef01234567".
Proof. vm_compute. reflexivity. Qed.
Example registered_again : map rp_id (repositories again) = ["r1"].
Proof. vm_compute. reflexivity. Qed.
End RepositoryDemo.
Import RepositoryDemo.

Lemma registrations_are_stable_witness : ∃ r', r' ∈ repositories again ∧ rp_id r' = "r1".
Proof.
  destruct (repositories registered) as [|r l] eqn:E; [vm_compute in E; discriminate E|].
  assert (Hok : repositories_ok registered).
  { apply (repository_step_ok none); [constructor|]. unfold repositories_ok. split_and!; constructor. }
  assert (Hr : r ∈ repositories registered) by (rewrite E; apply list_elem_of_here).
  destruct (registrations_are_stable registered again r Hok (rtc_once _ _ (step_register dir "r2" "github" "ann" "galaxz" "1" None 9 registered)) Hr)
    as [(r' & Hin & Hid & _) _].
  exists r'. split; [exact Hin|]. rewrite Hid. vm_compute in E. by injection E as <- _.
Defined.
