(* ===== verification/GoalService.v ===== *)
(** services/andromeda_service.py: the endpoints through which people act on goals and
    on the results escalated to them. A request runs over the goals and jobs of the
    coordinator, the queue of reviews, the task log, the policy grants, the repositories,
    and the stream of feedback.

    A request reads the clock once. Outside are [uuid5], the identifiers drawn, whether
    the stream can be written, git and the file system, and the planner, whose answer
    for a goal is an argument. An exception no handler names is answered with 500; it is
    the exception itself here. *)

From S2P Require Import Prelude.
From S2P Require Import CoordinatorTheorems.
From S2P Require Import PyStr.
From S2P Require Import PyTime.
From S2P Require Import Json.
From S2P Require Import Contracts.
From S2P Require Import JobRepository.
From S2P Require Import ReviewQueue.
From S2P Require Import GoalStore.
From S2P Require Import Coordinator.
From S2P Require Import Policy.
From S2P Require Import RoutingState.
From S2P Require Import TaskLog.
From S2P Require Import Planner.
From S2P Require Import A2AServer.
From S2P Require Import Feedback.
From S2P Require Import Repositories.
Open Scope Z_scope.

Record desk := mk_desk {
  dk_world : world;
  dk_reviews : queue;
  dk_log : list log_row;
  dk_grants : list grant;
  dk_feedback : list FeedbackEvent;
  dk_repositories : repository_store }.

Definition in_world {A} (m : M world A) : M desk A := λ d,
  let '(r, w) := m (dk_world d) in
  (r, mk_desk w (dk_reviews d) (dk_log d) (dk_grants d) (dk_feedback d) (dk_repositories d)).
Definition in_goals {A} (m : M gstore A) : M desk A := in_world (on_store m).
Definition in_reviews {A} (f : queue → A * queue) : M desk A := λ d,
  let '(a, q) := f (dk_reviews d) in
  (Ok a, mk_desk (dk_world d) q (dk_log d) (dk_grants d) (dk_feedback d) (dk_repositories d)).
Definition in_log (f : list log_row → list log_row) : M desk unit := λ d,
  (Ok tt, mk_desk (dk_world d) (dk_reviews d) (f (dk_log d)) (dk_grants d) (dk_feedback d) (dk_repositories d)).
Definition in_grants {A} (m : M (list grant) A) : M desk A := λ d,
  let '(r, g) := m (dk_grants d) in
  (r, mk_desk (dk_world d) (dk_reviews d) (dk_log d) g (dk_feedback d) (dk_repositories d)).
Definition in_repositories {A} (m : M repository_store A) : M desk A := λ d,
  let '(r, s) := m (dk_repositories d) in
  (r, mk_desk (dk_world d) (dk_reviews d) (dk_log d) (dk_grants d) (dk_feedback d) s).
Definition push_feedback (e : FeedbackEvent) : M desk unit := λ d,
  (Ok tt, mk_desk (dk_world d) (dk_reviews d) (dk_log d) (dk_grants d) (dk_feedback d ++ [e]) (dk_repositories d)).

Definition read_goal (g : uuid) : M desk (option GoalContract) := mread (λ d, get_goal g (w_store (dk_world d))).
Definition read_review (id : string) : M desk (option review) := mread (λ d, Ok (get_by_task_id id (dk_reviews d))).

(** [UUID(text)]. *)
Definition uuid_of (s : string) : result uuid := of_option ValueError (parse_uuid s).

(** [try: ... except cls: raise HTTPException(code)]. *)
Definition answering (codes : exn → option Z) {A} (m : M desk A) : M desk A := λ d,
  match m d with
  | (Raise e, d') => (Raise (match codes e with Some c => HTTPException c | None => e end), d')
  | r => r
  end.
Definition lookup_or_conflict (e : exn) : option Z :=
  match e with KeyError => Some 404 | ValueError => Some 409 | _ => None end.

(** The hold of a policy, when it is complete. *)
Definition policy_hold (item : review) : option (string * string * string) :=
  match rv_agent_output item with
  | JObj output =>
      match obj_field "policy_hold" output with
      | JObj hold =>
          match obj_field "origin" hold, obj_field "skill" hold, obj_field "digest" hold with
          | JStr o, JStr s, JStr d => Some (o, s, d)
          | _, _, _ => None
          end
      | _ => None
      end
  | _ => None
  end.

Definition DEFAULT_TTL_S : Z := 3600.

(** A dict field of an event, from [value or {}]. *)
Definition dict_field (v : json) : result jdict :=
  if truthy v then match v with JObj d => Ok d | _ => Raise ValueError end else Ok [].
(** A float field, from [value or 0.0]; text that reads as a number is not represented. *)
Definition float_field (v : json) : result Q :=
  match jnum (jor v (JFloat 0)) with Ok q => Ok q | Raise _ => Raise ValueError end.
(** A text field, from [value or dflt]. *)
Definition text_field (v : json) (dflt : string) : result string :=
  match jor v (JStr dflt) with JStr s => Ok s | _ => Raise ValueError end.

Definition truthy_opt (o : option string) : option string :=
  match o with Some s => if truthy_str s then Some s else None | None => None end.

Section Service.
Context (float_repr : Q → string) (exn_str : exn → string).
Context (per_goal_limit global_limit : Z) (fresh : uuid → uuid) (now : time).
Context (uuid5 : string → uuid) (grant_id : uuid) (outage : option exn).
Local Abbreviation start := (Coordinator.start float_repr exn_str per_goal_limit global_limit fresh now).
Local Abbreviation rerun := (Coordinator.rerun float_repr fresh now).

(** What the TEXT column [task_type] holds. *)
Definition column_text (v : json) : option string :=
  match bind_text float_repr v with Ok o => o | Raise _ => None end.

(** [_feedback_task_id]. *)
Definition feedback_task_id (id : string) (item : review) : result uuid :=
  match parse_uuid id with
  | Some u => Ok u
  | None => match truthy_opt (rv_goal_id item) with Some g => uuid_of g | None => Ok (uuid5 id) end
  end.

(** [_aether.publish_event(STREAM_FEEDBACK, ...)]. *)
Definition publish (e : FeedbackEvent) : M desk unit :=
  match outage with Some x => mraise x | None => push_feedback e end.

(** The event of a decision. *)
Definition publish_decision (id : string) (item : review) (outcome : OutcomeType) (confidence : result Q)
    (output : json) : M desk unit :=
  task ← mlift (feedback_task_id id item);
  event ← mlift (
    category ← text_field (rv_task_type item) "unknown";
    q ← confidence;
    out ← dict_field output;
    validate_feedback (mk_feedback task category "human_reviewer" outcome q id out None true 0 now));
  publish event.

(** [_resume_goal_from_review]. *)
Definition resume_goal_from_review (id goal : string) (approved : bool) : M desk unit :=
  g ← mlift (uuid_of goal);
  found ← read_goal g;
  match found with
  | None => mret tt
  | Some _ =>
      if startswith id "plan:" then
        if approved then in_world (start g "review") else in_goals (set_goal_status g g_failed)
      else
        item ← read_review id;
        let planned := item ≫= rv_planned_task_id in
        task ← mlift (uuid_of (or_else (truthy_opt planned) id));
        if approved then
          in_goals (update_task task [F_status t_complete]);;
          in_world (start g "review")
        else
          in_goals (update_task task [F_status t_failed; F_error (Some "rejected by reviewer")]);;
          in_goals (set_goal_status g g_failed)
  end.

(** [_issue_policy_grant]. *)
Definition issue_policy_grant (item : review) : M desk bool :=
  match policy_hold item with
  | None => mret false
  | Some (o, s, d) => in_grants (issue grant_id o s d DEFAULT_TTL_S (Some "review") now);; mret true
  end.

(** [try: rerun ... except (KeyError, ValueError, TypeError)]: the failure is logged. *)
Definition rerun_quietly (item : review) (goal : string) : M desk unit := λ d,
  match (g ← mlift (uuid_of goal);
         t ← mlift (match rv_planned_task_id item with Some t => uuid_of t | None => Raise TypeError end);
         in_world (rerun g t "review" (Some "policy hold approved"))) d with
  | (Raise KeyError, d') | (Raise ValueError, d') | (Raise TypeError, d') => (Ok tt, d')
  | r => r
  end.

(** [_release_goal_task_after_review]. *)
Definition release_goal_task_after_review (item : review) (goal : string) (held : bool) : M desk unit :=
  if held then rerun_quietly item goal else resume_goal_from_review (rv_task_id item) goal true.

(** What the three decisions share: the review is found, closed and logged. *)
Definition resolve_item (id verdict : string) (notes : option string) : M desk review :=
  item ← read_review id;
  item ← mlift (of_option (HTTPException 404) item);
  resolved ← in_reviews (resolve_review id verdict notes now);
  mguard resolved (HTTPException 409);;
  in_log (update_status id (column_text (rv_task_type item)) verdict now);;
  mret item.

Definition release (item : review) : M desk unit :=
  held ← issue_policy_grant item;
  match truthy_opt (rv_goal_id item) with
  | Some g => release_goal_task_after_review item g held
  | None => mret tt
  end.

Definition approve_task (id : string) (notes : option string) : M desk unit :=
  item ← resolve_item id "approved" notes;
  release item;;
  publish_decision id item approved_ (float_field (rv_confidence item)) (rv_payload item).

Definition accept_task (id : string) (notes : option string) : M desk unit :=
  item ← resolve_item id "accepted" notes;
  release item;;
  publish_decision id item approved_ (Ok 1%Q) (rv_agent_output item).

Definition reject_task (id : string) (notes : option string) : M desk unit :=
  item ← resolve_item id "rejected" notes;
  match truthy_opt (rv_goal_id item) with
  | Some g => resume_goal_from_review (rv_task_id item) g false
  | None => mret tt
  end;;
  publish_decision id item failed_ (Ok 0%Q) (rv_agent_output item).

(** [submit_task_feedback]; [result_json] is kept decoded in the log. *)
Definition submit_task_feedback (id outcome : string) : M desk unit :=
  mguard (String.eqb outcome "accepted" || String.eqb outcome "rejected") (HTTPException 400);;
  task ← mread (λ d, of_option (HTTPException 404) (TaskLog.get id (dk_log d)));
  let accepted := String.eqb outcome "accepted" in
  event ← mlift (
    t ← uuid_of id;
    validate_feedback (mk_feedback t (match truthy_opt (l_task_type task) with Some s => s | None => "unknown" end)
      "human_reviewer" (if accepted then approved_ else failed_) (if accepted then 1%Q else 0%Q) id
      (l_result task) None true 0 now));
  publish event.

(** ** Controlling a goal *)

(** Every control answers with the goal's tree. *)
Definition answer_tree (g : uuid) : M desk unit :=
  mread (λ d, goal_tree g (w_store (dk_world d)));; mret tt.

Definition resume_goal (goal : string) : M desk unit :=
  g ← mlift (of_option (HTTPException 404) (parse_uuid goal));
  found ← read_goal g;
  found ← mlift (of_option (HTTPException 404) found);
  mguard (bool_decide (g_status found ∈ [g_ready; g_paused])) (HTTPException 409);;
  in_world (start g "api");;
  answer_tree g.

Definition pause_goal (g : uuid) (reason : option string) : M desk unit :=
  answering lookup_or_conflict (in_world (pause now g "api" reason));; answer_tree g.

Definition cancel_goal (g : uuid) (reason : option string) : M desk unit :=
  answering lookup_or_conflict (in_world (Coordinator.cancel_goal now g "api" reason));; answer_tree g.

Definition rerun_goal_task (g t : uuid) (reason : option string) : M desk unit :=
  answering lookup_or_conflict (in_world (rerun g t "api" reason));; answer_tree g.

(** ** Creating a goal *)

Definition is_slug_char (c : Ascii.ascii) : bool :=
  existsb (Ascii.eqb c) (to_list "abcdefghijklmnopqrstuvwxyz0123456789").

(** [re.findall(r"\[a-z0-9\]+", s)]. *)
Fixpoint slug_words (cur : list Ascii.ascii) (l : list Ascii.ascii) : list string :=
  match l with
  | [] => match cur with [] => [] | _ => [of_list (rev cur)] end
  | c :: l =>
      if is_slug_char c then slug_words (c :: cur) l
      else match cur with [] => slug_words [] l | _ => of_list (rev cur) :: slug_words [] l end
  end.

Definition slug (objective : string) : string :=
  let s := join "-" (take 8 (slug_words [] (to_list (lower objective)))) in
  if truthy_str s then s else "goal".

Section Create.
Context (workspace : string) (path_join : string → string → string).
Context (rev_parse : string → string → option string) (plan : GoalContract → result PlanResult).

Definition goal_root (goal : GoalContract) : GoalContract :=
  if truthy_str workspace then
    mk_Goal (goal_id goal) (g_origin goal) (objective goal)
      (Some (path_join workspace (slug (objective goal) +:+ "-" +:+ String.substring 0 8 (uuid_str (goal_id goal)))))
      (g_threshold goal) (g_status goal) (plan_confidence goal) (g_created_at goal)
  else goal.

(** [get], [resolve_base] and [bind_repository]. *)
Definition bind_base (g : uuid) (repository revision : string) : M desk unit :=
  record ← in_repositories (mread (get_repository (λ _, true) repository));
  sha ← in_repositories (resolve_base rev_parse (λ _, true) (rp_id record) revision now);
  in_goals (bind_repository g (rp_id record) revision sha now).

(** A failure that fails the goal and is answered with a code. *)
Definition failing_goal (g : uuid) (codes : exn → option Z) {A} (m : M desk A) : M desk A := λ d,
  match m d with
  | (Raise e, d') =>
      match codes e with
      | Some c => (in_goals (set_goal_status g g_failed);; mraise (HTTPException c)) d'
      | None => (Raise e, d')
      end
  | r => r
  end.
Definition repository_errors (e : exn) : option Z :=
  match e with PermissionError | ValueError => Some 422 | _ => None end.
Definition planner_errors (e : exn) : option Z :=
  match e with PlanValidationError => Some 422 | _ => Some 502 end.

(** [create_goal]. *)
Definition create_goal (g : uuid) (objective_ : string) (threshold : Q) (repository : option string)
    (revision : string) : M desk unit :=
  goal ← mlift (validate_goal (mk_Goal g "api" objective_ None threshold g_planning None now));
  let goal := goal_root goal in
  in_goals (GoalStore.create_goal goal);;
  match truthy_opt repository with
  | Some r => failing_goal g repository_errors (bind_base g r revision)
  | None => mret tt
  end;;
  p ← failing_goal g planner_errors (mlift (plan goal));
  let gated := Qltb (pl_confidence p) (g_threshold goal) in
  in_goals (save_plan g (pl_projects p) (pl_tasks p) (pl_confidence p) gated);;
  (if gated then
     in_reviews (λ q, (tt, rq_enqueue ("plan:" +:+ uuid_str g) (JStr "goal.plan_review") (JFloat (pl_confidence p))
       (JObj [("objective", JStr (objective goal))]) "goal.plan_review" (JStr "") None None (Some (uuid_str g))
       None None now q))
   else in_world (start g "api"));;
  answer_tree g.
End Create.
End Service.

(** ** Theorems

    What the endpoints of [GoalService] guarantee: a review is counted once, a grant
    needs a review, and a decision reaches the task it is about. *)

(** ** What the parts of the desk keep *)

Lemma keeps_in_world {A T} (f : desk → T) (m : M world A) :
  (∀ d w, f (mk_desk w (dk_reviews d) (dk_log d) (dk_grants d) (dk_feedback d) (dk_repositories d)) = f d) →
  keeps f (in_world m).
Proof. intros Hf d. unfold in_world. destruct (m (dk_world d)) as [r w]. apply Hf. Qed.

(** The reviews, the grants and the feedback. *)
Definition records (d : desk) : queue * list grant * list FeedbackEvent := (dk_reviews d, dk_grants d, dk_feedback d).

Lemma keeps_records_world {A} (m : M world A) : keeps records (in_world m).
Proof. by apply keeps_in_world. Qed.
#[export] Hint Resolve keeps_records_world keeps_pure : galaxz.

Lemma keeps_answering {A T} (f : desk → T) codes (m : M desk A) : keeps f m → keeps f (answering codes m).
Proof. intros Hm d. specialize (Hm d). unfold answering. by destruct (m d) as [[a|e] d']. Qed.

(** Split a computation on the outcome of its first step. *)
Lemma bind_split {S A B} (P : result B * S → Prop) (m : M S A) (k : A → M S B) s :
  (∀ e s', m s = (Raise e, s') → P (Raise e, s')) → (∀ a s', m s = (Ok a, s') → P (k a s')) → P ((m ≫= k) s).
Proof. intros H1 H2. unfold mbind, M_bind. destruct (m s) as [[a|e] s'] eqn:E; [by apply H2|by apply H1]. Qed.

(** At most one grant more, for this hold. *)
Definition granted (h : option (string * string * string)) (d d' : desk) : Prop :=
  dk_reviews d' = dk_reviews d ∧ dk_feedback d' = dk_feedback d
  ∧ (dk_grants d' = dk_grants d
     ∨ ∃ g, h = Some (gr_origin g, gr_skill g, gr_digest g) ∧ dk_grants d' = dk_grants d ++ [g]).

Section Decisions.
Context (float_repr : Q → string) (exn_str : exn → string).
Context (per_goal_limit global_limit : Z) (fresh : uuid → uuid) (now : time).
Context (uuid5 : string → uuid) (grant_id : uuid) (outage : option exn).
Local Abbreviation resume_ := (resume_goal_from_review float_repr exn_str per_goal_limit global_limit fresh now).
Local Abbreviation release_ := (release float_repr exn_str per_goal_limit global_limit fresh now grant_id).
Local Abbreviation publish_decision_ := (publish_decision now uuid5 outage).
Local Abbreviation approve_ := (approve_task float_repr exn_str per_goal_limit global_limit fresh now uuid5 grant_id outage).
Local Abbreviation accept_ := (accept_task float_repr exn_str per_goal_limit global_limit fresh now uuid5 grant_id outage).
Local Abbreviation reject_ := (reject_task float_repr exn_str per_goal_limit global_limit fresh now uuid5 outage).

Lemma resume_keeps id g approved : keeps records (resume_ id g approved).
Proof.
  unfold resume_goal_from_review. apply keeps_bind; [apply keeps_pure|]. intros gid.
  apply keeps_bind; [apply keeps_pure|]. intros [goal|]; [|apply keeps_pure].
  destruct (startswith id "plan:"); [destruct approved; apply keeps_records_world|].
  apply keeps_bind; [apply keeps_pure|]. intros item. cbv zeta.
  apply keeps_bind; [apply keeps_pure|]. intros t.
  destruct approved; apply keeps_bind; try apply keeps_records_world; intros; apply keeps_records_world.
Qed.

Lemma rerun_quietly_keeps item g : keeps records (rerun_quietly float_repr fresh now item g).
Proof.
  intros d. unfold rerun_quietly.
  assert (H : keeps records (g ← mlift (uuid_of g);
    t ← mlift (match rv_planned_task_id item with Some t => uuid_of t | None => Raise TypeError end);
    in_world (Coordinator.rerun float_repr fresh now g t "review" (Some "policy hold approved")))).
  { apply keeps_bind; [apply keeps_pure|]. intros gid. apply keeps_bind; [apply keeps_pure|]. intros t. apply keeps_records_world. }
  specialize (H d). match type of H with records (?m d).2 = _ => destruct (m d) as [[a|e] d'] end; [done|]. by destruct e.
Qed.

(** What releasing does: at most one grant, for the hold of the item. *)
Lemma issue_granted item d : granted (policy_hold item) d (issue_policy_grant now grant_id item d).2.
Proof.
  unfold issue_policy_grant, granted. destruct (policy_hold item) as [[[o s] dg]|]; [|by auto].
  unfold in_grants, issue. munfold. destruct (dt_add now _) as [e|]; simpl; [|auto].
  destruct (existsb _ _); simpl; [auto|]. split_and!; [done|done|]. right. eexists. split; [|reflexivity]. done.
Qed.

Lemma release_cases item d : granted (policy_hold item) d (release_ item d).2.
Proof.
  unfold release. apply (bind_split (λ x, granted _ d x.2)); simpl.
  { intros e d1 H. pose proof (issue_granted item d) as Hg. by rewrite H in Hg. }
  intros held d1 H. pose proof (issue_granted item d) as Hg. rewrite H in Hg.
  assert (Hrest : keeps records (match truthy_opt (rv_goal_id item) with
     | Some g => release_goal_task_after_review float_repr exn_str per_goal_limit global_limit fresh now item g held
     | None => mret tt end)).
  { destruct (truthy_opt _) as [g|]; [|apply keeps_pure]. unfold release_goal_task_after_review.
    destruct held; [apply rerun_quietly_keeps|apply resume_keeps]. }
  specialize (Hrest d1). injection Hrest as H1 H2 H3. unfold granted in *. by rewrite H1, H2, H3.
Qed.

(** At most one event more, under the id of the review. *)
Definition reported (id : string) (d d' : desk) : Prop :=
  dk_reviews d' = dk_reviews d ∧ dk_grants d' = dk_grants d ∧ dk_world d' = dk_world d
  ∧ (dk_feedback d' = dk_feedback d ∨ ∃ e, fb_input e = id ∧ dk_feedback d' = dk_feedback d ++ [e]).

Lemma reported_refl id d : reported id d d.
Proof. unfold reported. auto. Qed.

Lemma publish_cases id item o q out d : reported id d (publish_decision_ id item o q out d).2.
Proof.
  unfold publish_decision. apply (bind_split (λ x, reported id d x.2)); unfold mlift; simpl.
  { intros e d1 [= _ <-]. apply reported_refl. }
  intros task d1 [= _ <-]. apply (bind_split (λ x, reported id d x.2)); simpl.
  { intros e d1 [= _ <-]. apply reported_refl. }
  intros ev d1 [= He <-].
  apply rbind_ok in He as (c & _ & He). apply rbind_ok in He as (x & _ & He). apply rbind_ok in He as (y & _ & He).
  unfold validate_feedback in He. apply rbind_ok in He as ([] & _ & [= <-]).
  unfold publish. destruct outage as [e|]; [apply reported_refl|]. unfold reported. simpl. split_and!; [done..|].
  right. eexists. split; [|reflexivity]. done.
Qed.

(** ** Closing a review *)

Definition decided (id : string) (q : queue) : bool := existsb (λ r, has_task id r && negb (is_pending r)) q.

(** The review is there, and pending. *)
Definition waiting (id : string) (q : queue) : bool := existsb (λ r, has_task id r && is_pending r) q.

Lemma not_found_not_waiting id q : get_by_task_id id q = None → waiting id q = false.
Proof.
  unfold get_by_task_id, waiting. induction q as [|r q IH]; [done|]. simpl. by destruct (has_task id r).
Qed.

Lemma resolve_item_cases id verdict notes d : 
  (∃ e, resolve_item float_repr now id verdict notes d = (Raise e, d) ∧ (e = HTTPException 404 ∨ e = HTTPException 409)
      ∧ waiting id (dk_reviews d) = false)
  ∨ ∃ item, get_by_task_id id (dk_reviews d) = Some item
      ∧ existsb (λ r, has_task id r && is_pending r) (dk_reviews d) = true
      ∧ resolve_item float_repr now id verdict notes d = (Ok item, mk_desk (dk_world d)
          (map (close_review id verdict notes now) (dk_reviews d))
          (update_status id (column_text float_repr (rv_task_type item)) verdict now (dk_log d)) (dk_grants d) (dk_feedback d)
          (dk_repositories d)).
Proof.
  unfold resolve_item, read_review, in_reviews, in_log, resolve_review. munfold.
  destruct (get_by_task_id id (dk_reviews d)) as [item|] eqn:Hget; simpl.
  2: { left. eexists. split_and!; [done|by left|]. by apply not_found_not_waiting. }
  destruct (existsb _ _) eqn:He; simpl.
  - right. exists item. by split_and!.
  - left. exists (HTTPException 409). split_and!; [|by right|done]. f_equal. destruct d as [w q l g f r]. simpl in *. f_equal.
    rewrite <-(map_id q) at 2. apply map_ext_in. intros x Hx. unfold close_review.
    destruct (has_task id x && is_pending x) eqn:Hb; [|done].
    assert (existsb (λ r, has_task id r && is_pending r) q = true); [|congruence]. apply existsb_exists. by exists x.
Qed.

(** The review is closed, with at most one event and, unless it was rejected, one grant. *)
Definition closed (id verdict : string) (item : review) (notes : option string) (at_ : time) (d d' : desk) : Prop :=
  dk_reviews d' = map (close_review id verdict notes at_) (dk_reviews d)
  ∧ (dk_feedback d' = dk_feedback d ∨ ∃ e, fb_input e = id ∧ dk_feedback d' = dk_feedback d ++ [e])
  ∧ (dk_grants d' = dk_grants d
     ∨ verdict ≠ "rejected" ∧ ∃ g, policy_hold item = Some (gr_origin g, gr_skill g, gr_digest g) ∧ dk_grants d' = dk_grants d ++ [g]).

(** What a decision leaves of the records: nothing changed, or the review was pending
    and is closed. *)
Definition decision (id verdict : string) (d d' : desk) : Prop :=
  records d' = records d ∧ waiting id (dk_reviews d) = false
  ∨ ∃ item notes at_, get_by_task_id id (dk_reviews d) = Some item
      ∧ existsb (λ r, has_task id r && is_pending r) (dk_reviews d) = true ∧ closed id verdict item notes at_ d d'.

Lemma decision_spec id verdict notes d (middle : review → M desk unit) o (q : review → result Q) (out : review → json) :
  (∀ item d1, granted (if String.eqb verdict "rejected" then None else policy_hold item) d1 (middle item d1).2) →
  decision id verdict d
    ((item ← resolve_item float_repr now id verdict notes; middle item;; publish_decision_ id item o (q item) (out item)) d).2.
Proof.
  intros Hmid. apply (bind_split (λ x, decision id verdict d x.2)).
  { intros e d1 H. left. destruct (resolve_item_cases id verdict notes d) as [(e' & H' & _ & Hw)|(item & _ & _ & H')]; [|congruence].
    rewrite H in H'. by injection H' as _ ->. }
  intros item d1 H. destruct (resolve_item_cases id verdict notes d) as [(e' & H' & _)|(item' & Hi & Hp & H')]; [congruence|].
  rewrite H in H'. injection H' as <- ->. set (d1 := mk_desk _ _ _ _ _ _).
  right. exists item, notes, now. split; [exact Hi|]. split; [exact Hp|].
  assert (Hg : ∀ d2, granted (if String.eqb verdict "rejected" then None else policy_hold item) d1 d2 →
    dk_grants d2 = dk_grants d ∨ verdict ≠ "rejected" ∧ ∃ g, policy_hold item = Some (gr_origin g, gr_skill g, gr_digest g) ∧ dk_grants d2 = dk_grants d ++ [g]).
  { intros d2 (_ & _ & [Hg|(g & Hh & Hg)]); [by left|right]. destruct (String.eqb_spec verdict "rejected"); [done|].
    split; [done|]. by exists g. }
  refine (bind_split (λ x, closed id verdict item notes now d x.2) (middle item) (λ _, publish_decision_ id item o (q item) (out item)) d1 _ _);
    unfold closed; cbn [snd].
  - intros e d2 H2. pose proof (Hmid item d1) as Hd. rewrite H2 in Hd. cbn [snd] in Hd. pose proof (Hg _ Hd).
    destruct Hd as (-> & -> & _). split_and!; [done|by left|done].
  - intros [] d2 H2. pose proof (Hmid item d1) as Hd. rewrite H2 in Hd. cbn [snd] in Hd. pose proof (Hg _ Hd) as Hg'.
    destruct Hd as (Hr & Hf & _). destruct (publish_cases id item o (q item) (out item) d2) as (-> & -> & _ & Hfb).
    rewrite Hr. split_and!; [done| |done]. rewrite Hf in Hfb. exact Hfb.
Qed.

Lemma approve_decision id notes d : decision id "approved" d (approve_ id notes d).2.
Proof. apply decision_spec. intros item d1. apply release_cases. Qed.
Lemma accept_decision id notes d : decision id "accepted" d (accept_ id notes d).2.
Proof. apply (decision_spec id "accepted" notes d release_ _ (λ _, Ok 1%Q)). intros item d1. apply release_cases. Qed.
Lemma reject_decision id notes d : decision id "rejected" d (reject_ id notes d).2.
Proof.
  apply (decision_spec id "rejected" notes d (λ item, match truthy_opt (rv_goal_id item) with
    | Some g => resume_ (rv_task_id item) g false | None => mret tt end) _ (λ _, Ok 0%Q)). intros item d1. simpl.
  assert (K : keeps records (match truthy_opt (rv_goal_id item) with
    | Some g => resume_ (rv_task_id item) g false | None => mret tt end)).
  { destruct (truthy_opt _); [apply resume_keeps|apply keeps_pure]. }
  specialize (K d1). injection K as H1 H2 H3. unfold granted. rewrite H1, H2, H3. auto.
Qed.
End Decisions.

(** ** Every review counts once *)

Definition reports (id : string) (d : desk) : nat := length (List.filter (λ e, String.eqb (fb_input e) id) (dk_feedback d)).

Definition hold_key (g : grant) : string * string * string := (gr_origin g, gr_skill g, gr_digest g).
Definition grants_for (k : string * string * string) (d : desk) : nat :=
  length (List.filter (λ g, bool_decide (hold_key g = k)) (dk_grants d)).

(** What can happen to the reviews and their records: one is closed with a verdict, feedback
    on a task is posted directly, one that was decided is purged. *)
Inductive happening :=
  | H_closed (id verdict : string) (hold : option (string * string * string))
  | H_posted (id : string)
  | H_purged (id : string).

(** A decision closes the review that waits for it. *)
Definition closing (id verdict : string) (d : desk) : list happening :=
  if waiting id (dk_reviews d) then [H_closed id verdict (get_by_task_id id (dk_reviews d) ≫= policy_hold)] else [].

Definition purging (old : review → bool) (q : queue) : list happening :=
  map (λ r, H_purged (rv_task_id r)) (List.filter (λ r, old r && negb (is_pending r)) q).

(** The requests of the service that reach the queue of reviews, the grants or the stream of
    feedback, the purge of old rows, and everything else. *)
Inductive desk_step : desk → list happening → desk → Prop :=
  | step_decide_approve repr err pg gl fresh now u5 gid out id notes d :
      desk_step d (closing id "approved" d) (approve_task repr err pg gl fresh now u5 gid out id notes d).2
  | step_decide_accept repr err pg gl fresh now u5 gid out id notes d :
      desk_step d (closing id "accepted" d) (accept_task repr err pg gl fresh now u5 gid out id notes d).2
  | step_decide_reject repr err pg gl fresh now u5 out id notes d :
      desk_step d (closing id "rejected" d) (reject_task repr err pg gl fresh now u5 out id notes d).2
  | step_feedback now out id outcome d x d' : submit_task_feedback now out id outcome d = (x, d') →
      desk_step d (match x with Ok _ => [H_posted id] | Raise _ => [] end) d'
  | step_escalate t tt_ c p s a o sla g pt at_ now d :
      desk_step d [] (mk_desk (dk_world d) (rq_enqueue t tt_ c p s a o sla g pt at_ now (dk_reviews d)) (dk_log d)
        (dk_grants d) (dk_feedback d) (dk_repositories d))
  | step_purge old d : desk_step d (purging old (dk_reviews d))
      (mk_desk (dk_world d) (List.filter (λ r, negb (old r)) (dk_reviews d)) (dk_log d) (dk_grants d) (dk_feedback d)
        (dk_repositories d))
  | step_use_grant o s dg now d : desk_step d [] (in_grants (consume o s dg now) d).2
  | step_elsewhere w l r d : desk_step d [] (mk_desk w (dk_reviews d) l (dk_grants d) (dk_feedback d) r).

Inductive desk_run : desk → list happening → desk → Prop :=
  | run_nil d : desk_run d [] d
  | run_step d tr1 d1 tr2 d2 : desk_step d tr1 d1 → desk_run d1 tr2 d2 → desk_run d (tr1 ++ tr2) d2.

Definition count (p : happening → bool) (tr : list happening) : nat := length (List.filter p tr).
Definition closings (id : string) : list happening → nat :=
  count (λ h, match h with H_closed i _ _ => String.eqb i id | _ => false end).
Definition postings (id : string) : list happening → nat :=
  count (λ h, match h with H_posted i => String.eqb i id | _ => false end).
Definition purges (id : string) : list happening → nat :=
  count (λ h, match h with H_purged i => String.eqb i id | _ => false end).
Definition releases (k : string * string * string) : list happening → nat :=
  count (λ h, match h with
              | H_closed _ v o => bool_decide (o = Some k) && (String.eqb v "approved" || String.eqb v "accepted")
              | _ => false
              end).

Definition one_if (b : bool) : nat := if b then 1 else 0.

(** How the records stand after what happened. *)
Record accounted (d : desk) (tr : list happening) (d' : desk) : Prop := {
  queue_stays : queue_ok (dk_reviews d');
  decided_once id : (closings id tr + one_if (decided id (dk_reviews d))
    = purges id tr + one_if (decided id (dk_reviews d')))%nat;
  reports_bounded id : (reports id d' ≤ reports id d + closings id tr + postings id tr)%nat;
  grants_bounded k : (grants_for k d' ≤ grants_for k d + releases k tr)%nat }.

Lemma count_app p a b : count p (a ++ b) = (count p a + count p b)%nat.
Proof. unfold count. by rewrite List.filter_app, length_app. Qed.

Lemma close_decided v n at_ id q : v ≠ "pending" → ∀ j, decided j (map (close_review id v n at_) q)
  = decided j q || (String.eqb j id && existsb (λ r, has_task id r && is_pending r) q).
Proof.
  intros Hv j. unfold decided. induction q as [|r q IH]; simpl; [by rewrite andb_false_r|]. rewrite IH. clear IH.
  unfold close_review. destruct (has_task id r && is_pending r) eqn:E; simpl; [|by rewrite orb_assoc].
  apply andb_true_iff in E as [Ht%has_task_iff Hp].
  assert (Hn : is_pending (mk_review (rv_task_id r) (rv_task_type r) (rv_skill_id r) (rv_agent_id r) (rv_agent_output r)
    (rv_sla_deadline r) (rv_confidence r) (rv_payload r) v (rv_created r) (Some at_) n (rv_goal_id r) (rv_planned_task_id r)
    (rv_attempt_id r)) = false) by (by apply String.eqb_neq).
  rewrite Hn, Hp. unfold has_task. simpl. rewrite Ht. rewrite (String.eqb_sym id j).
  destruct (String.eqb j id), (existsb _ q), (existsb _ q); reflexivity.
Qed.

Lemma pending_undecided id q : queue_ok q → existsb (λ r, has_task id r && is_pending r) q = true → decided id q = false.
Proof.
  unfold queue_ok, decided. induction q as [|r q IH]; [done|]. simpl. intros [Hr Hq]%NoDup_cons He.
  assert (Hno : has_task id r = true → ∀ p, existsb (λ r, has_task id r && p r) q = false).
  { intros Ht p. apply not_true_is_false. intros (x & Hx & [Hx2 _]%andb_true_iff)%existsb_exists. apply Hr.
    apply has_task_iff in Ht, Hx2. rewrite Ht, <-Hx2. apply list_elem_of_fmap_2. by apply list_elem_of_In. }
  destruct (has_task id r) eqn:Ht; simpl in *; [|by apply IH]. rewrite (Hno eq_refl) in He. rewrite (Hno eq_refl).
  rewrite orb_false_r in He. by rewrite He.
Qed.

Lemma decision_accounted id v d d' : v = "approved" ∨ v = "accepted" ∨ v = "rejected" →
  decision id v d d' → queue_ok (dk_reviews d) → accounted d (closing id v d) d'.
Proof.
  intros Hv [[H Hw]|(item & n & at_ & Hi & Hp & Hr & Hf & Hg)] Hq.
  { injection H as H1 H2 H3. unfold closing. rewrite Hw. split; unfold reports, grants_for, closings, purges, releases, count;
      rewrite ?H1, ?H2, ?H3; simpl; intros; try done; lia. }
  assert (Hvp : v ≠ "pending") by (by destruct Hv as [-> |[-> | ->]]).
  change (waiting id (dk_reviews d) = true) in Hp.
  unfold closing. rewrite Hp, Hi. simpl. split; unfold closings, purges, postings, releases, count; simpl.
  - rewrite Hr. change (map (close_review id v n at_) (dk_reviews d)) with (resolve_review id v n at_ (dk_reviews d)).2.
    by eapply step_queue_ok; [apply ReviewQueue.step_resolve|].
  - intros j. rewrite Hr, close_decided by done. change (existsb _ (dk_reviews d)) with (waiting id (dk_reviews d)).
    rewrite Hp, andb_true_r, (String.eqb_sym id). destruct (String.eqb_spec j id) as [->|]; simpl; [|by rewrite orb_false_r].
    by rewrite (pending_undecided _ _ Hq Hp).
  - intros j. unfold reports. destruct Hf as [->|(e & He & ->)]; [lia|]. rewrite List.filter_app, length_app. simpl. rewrite He.
    destruct (String.eqb id j); simpl; lia.
  - intros k. unfold grants_for. destruct Hg as [->|(Hnr & g & Hh & ->)]; [lia|]. rewrite List.filter_app, length_app, Hh. simpl.
    assert (String.eqb v "approved" || String.eqb v "accepted" = true) as ->
      by (destruct Hv as [-> |[-> | ->]]; [done|done|by destruct Hnr]).
    unfold hold_key. rewrite andb_true_r. case_bool_decide as H1; case_bool_decide as H2; simpl; try lia. congruence.
Qed.

Lemma filter_queue_ok (p : review → bool) q : queue_ok q → queue_ok (List.filter p q).
Proof.
  unfold queue_ok. induction q as [|r q IH]; [done|]. simpl. intros [Hr Hq]%NoDup_cons. destruct (p r); [|by apply IH].
  apply NoDup_cons. split; [|by apply IH]. intros (x & Ex & Hx)%list_elem_of_fmap. apply Hr. rewrite Ex.
  apply list_elem_of_fmap_2. apply list_elem_of_In, List.filter_In in Hx as [Hx _]. by apply list_elem_of_In.
Qed.

(** Purging forgets the decided reviews it removes, and no other. *)
Lemma purge_decided old id q : queue_ok q →
  one_if (decided id q) = (purges id (purging old q) + one_if (decided id (List.filter (λ r, negb (old r)) q)))%nat.
Proof.
  unfold queue_ok, decided, purges, count, purging. induction q as [|r q IH]; [done|]. simpl. intros [Hr Hq]%NoDup_cons.
  specialize (IH Hq). destruct (String.eqb_spec (rv_task_id r) id) as [E|E].
  - assert (∀ p (l : queue), (∀ x, x ∈ l → x ∈ q) → existsb (λ r, has_task id r && p r) l = false) as Hno.
    { intros p l Hl. apply not_true_is_false. intros (x & Hx & [Hx2%has_task_iff _]%andb_true_iff)%existsb_exists. apply Hr.
      rewrite E, <-Hx2. apply list_elem_of_fmap_2, Hl. by apply list_elem_of_In. }
    assert (Hfil : ∀ x, x ∈ List.filter (λ r, negb (old r)) q → x ∈ q).
    { intros x Hx%list_elem_of_In. apply List.filter_In in Hx as [Hx _]. by apply list_elem_of_In. }
    rewrite (Hno _ q) in * by done. rewrite (Hno _ (List.filter _ q)) in IH by done. simpl in IH.
    assert (has_task id r = true) as Ht by by apply has_task_iff.
    destruct (old r), (is_pending r) eqn:Ep; simpl; rewrite ?Ht, ?Ep, ?E, ?String.eqb_refl; simpl;
      rewrite ?(Hno _ (List.filter _ q)) by done; simpl; lia.
  - assert (has_task id r = false) as Ht by (apply not_true_is_false; by intros ?%has_task_iff).
    destruct (old r), (is_pending r) eqn:Ep; simpl; rewrite ?Ht, ?(proj2 (String.eqb_neq _ _) E); simpl; lia.
Qed.

Lemma consume_keys o s dg now l : hold_key <$> (consume o s dg now l).2 = hold_key <$> l.
Proof.
  unfold consume. destruct (oldest_usable o s dg now l) as [g|]; [|done]. simpl.
  induction l as [|x l IH]; [done|]. cbn. rewrite IH. f_equal. by destruct (gr_id x =? gr_id g)%N.
Qed.

Lemma grants_keys k l l' : hold_key <$> l' = hold_key <$> l →
  length (List.filter (λ g, bool_decide (hold_key g = k)) l') = length (List.filter (λ g, bool_decide (hold_key g = k)) l).
Proof.
  revert l'. induction l as [|x l IH]; intros [|y l'] H; try discriminate H; [done|]. cbn in H. injection H as H1 H2 H3 H4.
  simpl. assert (E : hold_key y = hold_key x) by (unfold hold_key; congruence). rewrite E.
  case_bool_decide; simpl; [f_equal|]; by apply IH.
Qed.

Lemma feedback_reported now out id outcome d x d' : submit_task_feedback now out id outcome d = (x, d') →
  dk_reviews d' = dk_reviews d ∧ dk_grants d' = dk_grants d
  ∧ match x with
    | Ok _ => ∃ e, fb_input e = id ∧ dk_feedback d' = dk_feedback d ++ [e]
    | Raise _ => dk_feedback d' = dk_feedback d
    end.
Proof.
  unfold submit_task_feedback. intros H.
  apply mbind_cases in H as [(err & H & ->)|([] & d1 & H1 & H)]; [by injection H as _ <-|injection H1 as _ <-].
  apply mbind_cases in H as [(err & H & ->)|(row & d1 & H1 & H)]; [by injection H as _ <-|injection H1 as _ <-].
  match type of H with (mlift ?r ≫= _) _ = _ => destruct r as [e|err] eqn:Ev end; [|by injection H as <- <-].
  change (publish out e d = (x, d')) in H. apply rbind_ok in Ev as (t & _ & Ev). unfold publish in H. destruct out as [err|]; [by injection H as <- <-|]. injection H as <- <-. split_and!; [done|done|].
  exists e. split; [|done]. unfold validate_feedback in Ev. by apply rbind_ok in Ev as ([] & _ & [= <-]).
Qed.

Lemma desk_step_accounted d tr d' : desk_step d tr d' → queue_ok (dk_reviews d) → accounted d tr d'.
Proof.
  destruct 1 as [| | |now out id outcome d x d' H|t tt_ c p s a o sla g pt at_ now d|old d|o s dg now d|w l r d]; intros Hq.
  - apply decision_accounted; [by left|apply approve_decision|done].
  - apply decision_accounted; [by right; left|apply accept_decision|done].
  - apply decision_accounted; [by right; right|apply reject_decision|done].
  - apply feedback_reported in H as (H1 & H2 & H3). split; unfold grants_for; rewrite ?H1, ?H2; [done| | |].
    + intros j. by destruct x.
    + intros j. unfold reports. destruct x as [[]|]; [destruct H3 as (e & He & ->)|rewrite H3; lia].
      rewrite List.filter_app, length_app. unfold postings, count. simpl. rewrite He. destruct (String.eqb id j); simpl; lia.
    + intros k. destruct x; simpl; lia.
  - split; simpl; [by eapply step_queue_ok; [apply ReviewQueue.step_enqueue|]| |intros; unfold reports; simpl; lia
      |intros; unfold grants_for; simpl; lia].
    intros id. unfold rq_enqueue. destruct (existsb (has_task t) _); [done|]. unfold decided. rewrite existsb_app. simpl.
    by rewrite andb_false_r, !orb_false_r.
  - split; simpl; [|intros id|intros; unfold reports; simpl; lia|intros; unfold grants_for; simpl; lia].
    + by apply filter_queue_ok.
    + assert (closings id (purging old (dk_reviews d)) = 0%nat) as ->; [|simpl; by apply purge_decided].
      unfold closings, count, purging. by induction (List.filter _ (dk_reviews d)).
  - unfold in_grants. pose proof (consume_keys o s dg now (dk_grants d)) as Hk.
    destruct (consume o s dg now (dk_grants d)) as [x gs]. simpl in Hk. split; simpl; [done|done|intros; unfold reports; simpl; lia|].
    intros k. unfold grants_for. simpl. rewrite (grants_keys k _ _ Hk). lia.
  - split; simpl; [done|done|intros; unfold reports; simpl; lia|intros; unfold grants_for; simpl; lia].
Qed.

Lemma desk_run_accounted d tr d' : desk_run d tr d' → queue_ok (dk_reviews d) → accounted d tr d'.
Proof.
  induction 1 as [d|d tr1 d1 tr2 d2 Hs _ IH]; intros Hq.
  { split; [done|done|intros; lia|intros; lia]. }
  apply desk_step_accounted in Hs as [Q1 D1 R1 G1]; [|done]. destruct (IH Q1) as [Q2 D2 R2 G2].
  split; [done| | |]; intros i; unfold closings, purges, postings, releases in *; rewrite !count_app.
  - specialize (D1 i). specialize (D2 i). lia.
  - specialize (R1 i). specialize (R2 i). lia.
  - specialize (G1 i). specialize (G2 i). lia.
Qed.

(** C14: a review counts once, and a grant needs one. However people decide, post feedback
    and let old rows be purged, and whatever happens in between: a review is closed once,
    and again only under the id of one that was purged after its decision; an event on the
    feedback stream about an id is one of a review of it that was closed, at most one for
    each, or was posted as feedback on the task; and for every origin, skill and digest
    there are at most as many new grants as reviews of exactly that hold that were
    approved or accepted. *)
Theorem each_review_counts_once d tr d' : queue_ok (dk_reviews d) → desk_run d tr d' →
  queue_ok (dk_reviews d')
  ∧ (∀ id, closings id tr + one_if (decided id (dk_reviews d)) = purges id tr + one_if (decided id (dk_reviews d')))%nat
  ∧ (∀ id, reports id d' ≤ reports id d + closings id tr + postings id tr)%nat
  ∧ ∀ k, (grants_for k d' ≤ grants_for k d + releases k tr)%nat.
Proof. intros Hq [H1 H2 H3 H4]%desk_run_accounted; done. Qed.

(** ** A decision reaches its task *)

Lemma close_found id v n at_ q : get_by_task_id id (map (close_review id v n at_) q) = close_review id v n at_ <$> get_by_task_id id q.
Proof.
  unfold get_by_task_id. induction q as [|r q IH]; [done|]. simpl. unfold has_task at 1. rewrite close_review_id.
  fold (has_task id r). destruct (has_task id r); [done|exact IH].
Qed.

Lemma close_planned id v n at_ r : rv_planned_task_id (close_review id v n at_ r) = rv_planned_task_id r.
Proof. unfold close_review. by destruct (_ && _). Qed.

Lemma start_ok repr err pg gl fresh now g actor w w' : unique_ids (w_store w) →
  Coordinator.start repr err pg gl fresh now g actor w = (Ok tt, w') →
  ∃ goal, get_goal g (w_store w) = Ok (Some goal) ∧ g_status goal ∈ [g_ready; g_paused; g_running]
    ∧ evolves reconcile_edge (w_store w) (w_store w').
Proof.
  intros Hu H. unfold Coordinator.start in H. apply mbind_ok in H as (goal & w1 & H1 & H).
  unfold required_goal, read_store, mread, mlift in H1. apply mbind_ok in H1 as (o & w2 & H1 & H2).
  injection H1 as Ho ->. destruct o as [goal'|]; [|discriminate H2]. injection H2 as -> ->.
  exists goal. split; [done|]. apply mbind_ok in H as ([] & w2 & H2 & H). unfold mguard, mlift in H2.
  injection H2 as Hs ->. apply rguard_ok, bool_decide_eq_true in Hs. split; [done|].
  apply mbind_ok in H as ([] & w3 & H3 & H). apply mbind_ok in H as ([] & w4 & H4 & H).
  injection H3 as <-. injection H4 as <-.
  apply reconcile_evolves in H as [He _]; [exact He|exact Hu].
Qed.

Section Reach.
Context (float_repr : Q → string) (exn_str : exn → string).
Context (per_goal_limit global_limit : Z) (fresh : uuid → uuid) (now : time).
Context (uuid5 : string → uuid) (grant_id : uuid) (outage : option exn).
Local Abbreviation resume_ := (resume_goal_from_review float_repr exn_str per_goal_limit global_limit fresh now).
Local Abbreviation accept_ := (accept_task float_repr exn_str per_goal_limit global_limit fresh now uuid5 grant_id outage).
Local Abbreviation reject_ := (reject_task float_repr exn_str per_goal_limit global_limit fresh now uuid5 outage).

(** The review is one of a task of this goal. *)
Definition reviews_task (item : review) (id : string) (g t : uuid) : Prop :=
  policy_hold item = None ∧ startswith id "plan:" = false ∧ (∃ s, truthy_opt (rv_goal_id item) = Some s ∧ uuid_of s = Ok g)
  ∧ uuid_of (or_else (truthy_opt (rv_planned_task_id item)) id) = Ok t.

Definition updated (t : uuid) (fs : list field) (w : world) : world :=
  mk_world (set_tasks (map (upd t fs)) (w_store w)) (w_jobs w).

Lemma resume_approved item id s g t d d' : uuid_of s = Ok g → startswith id "plan:" = false →
  get_by_task_id id (dk_reviews d) = Some item → uuid_of (or_else (truthy_opt (rv_planned_task_id item)) id) = Ok t →
  is_Some (goal_status_at g (w_store (dk_world d))) →
  resume_ id s true d = (Ok tt, d') →
  Coordinator.start float_repr exn_str per_goal_limit global_limit fresh now g "review" (updated t [F_status t_complete] (dk_world d))
    = (Ok tt, dk_world d').
Proof.
  intros Hg Hp Hi Ht [st Hst] H. unfold resume_goal_from_review in H. rewrite Hg in H.
  apply mbind_ok in H as (g' & d1 & [= <- <-] & H). apply mbind_ok in H as (found & d2 & H2 & H).
  injection H2 as Hf <-. destruct found as [goal|].
  2:{ unfold get_goal in Hf. unfold goal_status_at in Hst. destruct (List.find _ _); [|done]. by apply rbind_ok in Hf as (? & _ & [=]). }
  rewrite Hp in H. apply mbind_ok in H as (i & d3 & H3 & H). injection H3 as Hi' <-. rewrite Hi in Hi'. subst i. cbv zeta in H.
  apply mbind_ok in H as (t' & d4 & H4 & H). injection H4 as Ht' <-. cbn [mbind option_bind] in Ht'. rewrite Ht in Ht'. injection Ht' as <-.
  apply mbind_ok in H as ([] & d5 & H5 & H). injection H5 as <-. unfold in_world in H. cbn [dk_world] in H.
  unfold updated. match type of H with context [Coordinator.start ?a ?b ?c ?d ?e ?f ?g ?h ?w] => destruct (Coordinator.start a b c d e f g h w) as [r w1] eqn:E end.
  injection H as -> <-. simpl. exact E.
Qed.

Lemma resume_rejected item id s g t d d' : uuid_of s = Ok g → startswith id "plan:" = false →
  get_by_task_id id (dk_reviews d) = Some item → uuid_of (or_else (truthy_opt (rv_planned_task_id item)) id) = Ok t →
  is_Some (goal_status_at g (w_store (dk_world d))) →
  resume_ id s false d = (Ok tt, d') →
  dk_world d' = mk_world (set_goals (map (λ x, if is_goal g x then goal_with_status g_failed x else x))
      (w_store (updated t [F_status t_failed; F_error (Some "rejected by reviewer")] (dk_world d)))) (w_jobs (dk_world d)).
Proof.
  intros Hg Hp Hi Ht [st Hst] H. unfold resume_goal_from_review in H. rewrite Hg in H.
  apply mbind_ok in H as (g' & d1 & [= <- <-] & H). apply mbind_ok in H as (found & d2 & H2 & H).
  injection H2 as Hf <-. destruct found as [goal|].
  2:{ unfold get_goal in Hf. unfold goal_status_at in Hst. destruct (List.find _ _); [|done]. by apply rbind_ok in Hf as (? & _ & [=]). }
  rewrite Hp in H. apply mbind_ok in H as (i & d3 & H3 & H). injection H3 as Hi' <-. rewrite Hi in Hi'. subst i. cbv zeta in H.
  apply mbind_ok in H as (t' & d4 & H4 & H). injection H4 as Ht' <-. cbn [mbind option_bind] in Ht'. rewrite Ht in Ht'. injection Ht' as <-.
  apply mbind_ok in H as ([] & d5 & H5 & H). injection H5 as <-. injection H as <-. reflexivity.
Qed.

(** What a decision that is answered did: the review was pending, and its middle ran
    on the goals as they were. *)
Lemma decided_run id verdict notes d d' item (middle : review → M desk unit) o q (out : review → json) :
  get_by_task_id id (dk_reviews d) = Some item →
  (item ← resolve_item float_repr now id verdict notes; middle item;; publish_decision now uuid5 outage id item o (q item) (out item)) d
    = (Ok tt, d') →
  ∃ d1 d2, dk_world d1 = dk_world d ∧ get_by_task_id id (dk_reviews d1) = Some (close_review id verdict notes now item)
    ∧ middle item d1 = (Ok tt, d2) ∧ dk_world d' = dk_world d2.
Proof.
  intros Hi H. apply mbind_ok in H as (item' & d1 & H1 & H).
  destruct (resolve_item_cases float_repr now id verdict notes d) as [(e & H' & _)|(item2 & Hi2 & _ & H')]; [congruence|].
  rewrite Hi in Hi2. injection Hi2 as <-. rewrite H1 in H'. injection H' as -> ->.
  apply mbind_ok in H as ([] & d2 & H2 & H). eexists _, d2. split; [|split; [|split; [exact H2|]]]; [done| |].
  - simpl. by rewrite close_found, Hi.
  - pose proof (publish_cases now uuid5 outage id item o (q item) (out item) d2) as (_ & _ & Hw & _). by rewrite H in Hw.
Qed.

(** C15: a decision reaches the task it is about. When accepting the escalated result of a
    task is answered, its goal could still run, the task is complete, and every other
    task moved only as a pass of the coordinator moves it. When rejecting one is
    answered, the task and its goal have failed, and no other task and no job changed. *)
Theorem decisions_reach_the_task id notes item g t d d' :
  unique_ids (w_store (dk_world d)) → get_by_task_id id (dk_reviews d) = Some item → reviews_task item id g t →
  is_Some (goal_status_at g (w_store (dk_world d))) →
  (accept_ id notes d = (Ok tt, d') →
     (∃ goal, get_goal g (w_store (dk_world d)) = Ok (Some goal) ∧ g_status goal ∈ [g_ready; g_paused; g_running])
     ∧ (status_at (w_store (dk_world d)) t ≠ None → status_at (w_store (dk_world d')) t = Some t_complete)
     ∧ ∀ u r, u ≠ t → row (w_store (dk_world d)) u = Some r → ∃ r', row (w_store (dk_world d')) u = Some r'
         ∧ same_task r r' ∧ (r' = r ∨ reconcile_edge (pt_status (tk r)) (pt_status (tk r'))))
  ∧ (reject_ id notes d = (Ok tt, d') →
     goal_status_at g (w_store (dk_world d')) = Some g_failed ∧ w_jobs (dk_world d') = w_jobs (dk_world d)
     ∧ (status_at (w_store (dk_world d)) t ≠ None → status_at (w_store (dk_world d')) t = Some t_failed)
     ∧ ∀ u, u ≠ t → row (w_store (dk_world d')) u = row (w_store (dk_world d)) u).
Proof.
  intros Hu Hi (Hh & Hp & (s & Hs & Hg) & Ht) Hgoal.
  assert (Hid : rv_task_id item = id) by (by apply List.find_some in Hi as [_ Hi%has_task_iff]).
  assert (Hupd : ∀ fs u w, row (w_store (updated t fs w)) u = upd t fs <$> row (w_store w) u).
  { intros fs u w. apply row_map. intros r. apply upd_same. }
  assert (Hother : ∀ fs u r, u ≠ t → row (w_store (dk_world d)) u = Some r → upd t fs r = r).
  { intros fs u r Hne Hr%row_id. unfold upd, is_task. destruct (N.eqb_spec (pt_id (tk r)) t); congruence. }
  assert (Hself : ∀ fs r, row (w_store (dk_world d)) t = Some r → pt_status (tk (upd t fs r)) = field_status (pt_status (tk r)) fs).
  { intros fs r Hr%row_id. unfold upd, is_task. rewrite Hr, N.eqb_refl. apply apply_fields_status. }
  split; intros H.
  - destruct (decided_run _ _ _ _ _ _ _ _ (λ _, Ok 1%Q) (λ i, rv_agent_output i) Hi H) as (d1 & d2 & Hw & Hi1 & Hm & ->).
    unfold release, issue_policy_grant in Hm. rewrite Hh in Hm. apply mbind_ok in Hm as (held & d3 & [= <- <-] & Hm).
    rewrite Hs in Hm. unfold release_goal_task_after_review in Hm. rewrite Hid in Hm.
    apply (resume_approved (close_review id "accepted" notes now item) id s g t) in Hm; [|done|done|exact Hi1|by rewrite close_planned|by rewrite Hw].
    rewrite Hw in Hm. apply start_ok in Hm as (goal & Hgl & Hst & He); [|by apply unique_upd].
    split_and!; [by exists goal| |].
    + unfold status_at. intros Hr. destruct (row (w_store (dk_world d)) t) as [r|] eqn:Er; [|done].
      eapply (evolves_keeps reconcile_edge); [exact He|by intros b [[? _]|[? _]]|].
      unfold status_at. rewrite Hupd, Er. simpl. by rewrite Hself.
    + intros u r Hne Hr. pose proof (He u) as Heu. rewrite Hupd, Hr in Heu. simpl in Heu. rewrite (Hother _ u) in Heu by done.
      destruct (row (w_store (dk_world d2)) u) as [r'|]; [|done]. exists r'. by destruct Heu.
  - destruct (decided_run _ _ _ _ _ _ (λ item, match truthy_opt (rv_goal_id item) with
      | Some g => resume_ (rv_task_id item) g false | None => mret tt end) _ (λ _, Ok 0%Q) (λ i, rv_agent_output i) Hi H)
      as (d1 & d2 & Hw & Hi1 & Hm & ->).
    cbv beta in Hm. rewrite Hs, Hid in Hm.
    apply (resume_rejected (close_review id "rejected" notes now item) id s g t) in Hm; [|done|done|exact Hi1|by rewrite close_planned|by rewrite Hw].
    rewrite Hw in Hm. set (fs := [F_status t_failed; F_error (Some "rejected by reviewer")]) in *.
    assert (Hrow : ∀ u, row (w_store (dk_world d2)) u = upd t fs <$> row (w_store (dk_world d)) u).
    { intros u. rewrite Hm. exact (Hupd fs u (dk_world d)). }
    split_and!; [|by rewrite Hm| |].
    + destruct Hgoal as [st Hst]. rewrite Hm. cbn [w_store]. rewrite goal_status_set. unfold updated, goal_status_at in *. simpl. by rewrite Hst.
    + unfold status_at. intros Hr. destruct (row (w_store (dk_world d)) t) as [r|] eqn:Er; [|done].
      rewrite Hrow, Er. simpl. by rewrite Hself.
    + intros u Hne. rewrite Hrow. destruct (row (w_store (dk_world d)) u) as [r|] eqn:Er; [|done]. simpl. by rewrite (Hother fs u r).
Qed.
End Reach.

(** ** Demonstrations *)

Module ServiceDemo.
Definition repr (q : Q) : string := "0.5".
Definition err (e : exn) : string := "error".
Definition new_id (t : uuid) : uuid := (t + 1000)%N.
Definition u5 (_ : string) : uuid := 77%N.
Definition after {A} (m : M desk A) (d : desk) : desk := (m d).2.
Definition task_21 : string := uuid_str 21.

(** A goal whose first task escalated, and the review of its result. *)
Definition escalated_goal : gstore := (update_task 21 [F_status t_escalated] demo_saved).2.
Definition desk0 : desk :=
  mk_desk (mk_world escalated_goal empty_db)
    (rq_enqueue task_21 (JStr "s.a") (JFloat (1#2)) (JObj []) "s.a" (JStr "rigel") (Some [("status", JStr "complete")]) None
       (Some (uuid_str 7)) (Some task_21) None 5 [])
    [] [] [] (mk_repositories [] []).

Definition accept (id : string) : M desk unit := accept_task repr err 4 32 new_id 10 u5 900 None id None.
Definition approve (id : string) : M desk unit := approve_task repr err 4 32 new_id 10 u5 900 None id None.
Definition reject (id : string) : M desk unit := reject_task repr err 4 32 new_id 10 u5 None id None.
Definition cancelled : desk := after (cancel_goal 8 7 None) desk0.
Definition desk1 : desk := after (accept task_21) desk0.

Example accepted_goal_goes_on : (accept task_21 desk0).1 = Ok tt
  ∧ status_at (w_store (dk_world desk1)) 21%N = Some t_complete
  ∧ status_at (w_store (dk_world desk1)) 20%N = Some t_running ∧ map fb_outcome (dk_feedback desk1) = [approved_].
Proof. vm_compute. done. Qed.

(** The review is closed before its goal is released: accepting the result of a
    cancelled goal raises, but the task is complete, the review is used up and no
    feedback was recorded; a second try is a conflict. *)
Example a_failed_release_uses_up_the_review :
  (accept task_21 cancelled).1 = Raise ValueError
  ∧ status_at (w_store (dk_world (after (accept task_21) cancelled))) 21%N = Some t_complete
  ∧ dk_feedback (after (accept task_21) cancelled) = []
  ∧ (accept task_21 (after (accept task_21) cancelled)).1 = Raise (HTTPException 409).
Proof. vm_compute. done. Qed.

(** Rejecting sets the status of the goal whatever it was: a cancelled goal is shown as
    failed. *)
Example rejecting_overwrites_a_cancelled_goal :
  goal_status_at 7 (w_store (dk_world cancelled)) = Some g_cancelled
  ∧ goal_status_at 7 (w_store (dk_world (after (reject task_21) cancelled))) = Some g_failed.
Proof. vm_compute. done. Qed.

(** A plan below the threshold waits for its review with the goal paused, but resuming
    the goal starts it all the same. *)
Definition weak_plan (goal : GoalContract) : result PlanResult := Ok (mk_plan [] demo_plan (1 # 10)).
Definition gated : desk :=
  after (create_goal repr err 4 32 new_id 10 "" (λ a b, a) (λ _ _, None) weak_plan 7 "build it" (1#2) None "HEAD")
    (mk_desk (mk_world empty_gstore empty_db) [] [] [] [] (mk_repositories [] [])).
Example resuming_skips_the_plan_review :
  goal_status_at 7 (w_store (dk_world gated)) = Some g_paused
  ∧ map rv_status (dk_reviews gated) = ["pending"]
  ∧ (resume_goal repr err 4 32 new_id 12 (uuid_str 7) gated).1 = Ok tt
  ∧ status_at (w_store (dk_world (after (resume_goal repr err 4 32 new_id 12 (uuid_str 7)) gated))) 21%N = Some t_running.
Proof. vm_compute. done. Qed.

(** Feedback on a task is taken however often it is posted, also on one whose review counted
    already. *)
Definition logged : desk :=
  mk_desk (dk_world desk1) (dk_reviews desk1)
    [TaskLog.mk_log task_21 (Some "s.a") (Some "rigel") "accepted" None 0 false None None None [] []] (dk_grants desk1)
    (dk_feedback desk1) (dk_repositories desk1).
Definition thumbs_up : desk → desk := after (submit_task_feedback 11 None task_21 "accepted").
Example feedback_may_be_repeated : reports task_21 logged = 1%nat ∧ reports task_21 (thumbs_up (thumbs_up logged)) = 3%nat.
Proof. vm_compute. done. Qed.
End ServiceDemo.
Import ServiceDemo.

Lemma each_review_counts_once_witness : dk_feedback desk1 ≠ [] ∧ (reports task_21 desk1 ≤ 1)%nat.
Proof.
  split; [vm_compute; discriminate|].
  assert (queue_ok (dk_reviews desk0)) as Hq by (unfold queue_ok; solve_nodup).
  pose proof (run_step _ _ _ _ _ (step_decide_accept repr err 4 32 new_id 10 u5 900 None task_21 None desk0) (run_nil desk1)) as Hr.
  exact (proj1 (proj2 (proj2 (each_review_counts_once desk0 _ desk1 Hq Hr))) task_21).
Defined.

Lemma decisions_reach_the_task_witness : status_at (w_store (dk_world desk1)) 21%N = Some t_complete.
Proof.
  destruct (get_by_task_id task_21 (dk_reviews desk0)) as [item|] eqn:E; [|vm_compute in E; discriminate E].
  assert (Hu : unique_ids (w_store (dk_world desk0))) by (unfold unique_ids; solve_nodup).
  assert (Hi : reviews_task item task_21 7 21).
  { vm_compute in E. injection E as <-. unfold reviews_task. split; [reflexivity|]. split; [reflexivity|]. split; [|reflexivity].
    eexists. split; reflexivity. }
  assert (Hg : is_Some (goal_status_at 7 (w_store (dk_world desk0)))) by (eexists; vm_compute; reflexivity).
  assert (H : accept task_21 desk0 = (Ok tt, desk1)).
  { unfold desk1, after. destruct (accept task_21 desk0) as [r d] eqn:Er. simpl.
    assert (Hr : (accept task_21 desk0).1 = Ok tt) by (vm_compute; reflexivity). rewrite Er in Hr. simpl in Hr. by rewrite Hr. }
  pose proof (decisions_reach_the_task repr err 4 32 new_id 10 u5 900 None task_21 None item 7 21 desk0 desk1 Hu E Hi Hg) as [Ha _].
  apply Ha; [exact H|]. vm_compute. discriminate.
Defined.
