(* ===== verification/FineTuning.v ===== *)
(** orion/core/candidate_store.py, candidate_client.py and finetune_detector.py, the
    domain files of orion/storage/dataset_store.py, the engine of
    orion/pipeline/heuristic_generation.py, and the endpoints of
    services/andromeda_service.py that review a candidate.

    The candidates are the rows of their table; the domain files are kept by name, as
    lists of lines. [json.loads], the texts of numbers and the times of a run are
    arguments, and so is whether a message can be sent. *)

From S2P Require Import Prelude.
From S2P Require Import PyStr.
From S2P Require Import PyTime.
From S2P Require Import Json.
From S2P Require Import PyDict.
From S2P Require Import Contracts.
From S2P Require Import Feedback.
From S2P Require Import Signals.
From Stdlib Require Import QArith Ascii.
From Stdlib Require Import QArith Qabs Lqa.
Close Scope Q_scope.
Open Scope Z_scope.

(** ** Candidates *)

Record FinetuneCandidate := mk_candidate {
  cd_id : string;
  cd_agent : string;
  cd_examples : Z;
  cd_quality : Q;
  cd_emitted : string;
  cd_status : string;
  cd_reviewed_at : option string;
  cd_reviewed_by : option string;
  cd_note : option string }.

Abbreviation candidates := (list FinetuneCandidate) (only parsing).

Definition of_agent (a : string) (c : FinetuneCandidate) : bool := String.eqb (cd_agent c) a.
Definition has_candidate (a : string) (s : candidates) : bool := existsb (of_agent a) s.
Definition get_candidate_of (a : string) (s : candidates) : option FinetuneCandidate := List.find (of_agent a) s.

(** [CandidateStore.add]. *)
Definition add_candidate (id a : string) (examples : Z) (quality : Q) (now : string) : M candidates FinetuneCandidate :=
  let c := mk_candidate id a examples quality now "pending" None None None in
  s ← mget;
  mguard (negb (existsb (λ x, String.eqb (cd_id x) id) s)) IntegrityError;;
  mput (s ++ [c]);;
  mret c.

Definition pending_candidate (c : FinetuneCandidate) : bool := String.eqb (cd_status c) "pending".
Definition by_emitted (a b : FinetuneCandidate) : bool := str_leb (cd_emitted a) (cd_emitted b).
Definition list_pending (s : candidates) : list FinetuneCandidate := py_sorted by_emitted (List.filter pending_candidate s).

Definition with_id (id : string) (c : FinetuneCandidate) : bool := String.eqb (cd_id c) id.
Definition get_candidate (id : string) (s : candidates) : option FinetuneCandidate := List.find (with_id id) s.

Definition review_candidate (status now by_ : string) (note : option string) (c : FinetuneCandidate) : FinetuneCandidate :=
  mk_candidate (cd_id c) (cd_agent c) (cd_examples c) (cd_quality c) (cd_emitted c) status (Some now) (Some by_) note.

(** The UPDATE of [approve] and [reject]: only a pending row. *)
Definition decide_candidate (id status now by_ : string) (note : option string) (s : candidates) : candidates :=
  map (λ c, if with_id id c && pending_candidate c then review_candidate status now by_ note c else c) s.

(** [CandidateClient.approve] and [reject]; [CandidateNotFoundError] is a [KeyError] here. *)
Definition client_decide (id status now by_ : string) (note : option string) : M candidates unit :=
  mread (λ s, of_option KeyError (get_candidate id s));;
  mmodify (decide_candidate id status now by_ note).

(** The first half of an endpoint: the candidate as it is read. *)
Definition check_candidate (id : string) : M candidates unit :=
  c ← mread (λ s, of_option (HTTPException 404) (get_candidate id s));
  mguard (pending_candidate c) (HTTPException 409).

(** The second half. *)
Definition commit_candidate (id status now by_ : string) (note : option string) : M candidates string := λ s,
  match client_decide id status now by_ note s with
  | (Ok _, s) => (Ok status, s)
  | (Raise KeyError, s) => (Raise (HTTPException 404), s)
  | (Raise e, s) => (Raise e, s)
  end.

Definition approve_finetune_candidate (id now by_ : string) (note : option string) : M candidates string :=
  check_candidate id;; commit_candidate id "approved" now by_ note.
Definition reject_finetune_candidate (id now by_ : string) (note : option string) : M candidates string :=
  check_candidate id;; commit_candidate id "rejected" now by_ note.

(** ** The detector *)

(** [_query_agent_stats]: per agent, in the order SQLite groups, which is that of the
    names, the number of events and their mean confidence. *)
Definition agents_of (l : list event_row) : list string := py_sorted str_leb (remove_dups (map ev_agent l)).

Definition query_agent_stats (d : event_log) : list (string * Z * Q) :=
  let l := List.filter (λ e, negb (ev_quarantined e)) (events d) in
  map (λ a, let mine := List.filter (λ e, String.eqb (ev_agent e) a) l in
            (a, Z.of_nat (length mine), mean (map ev_confidence mine))) (agents_of l).

Section Detector.
Context (min_examples : Z) (min_quality : Q) (new_id : nat → string) (now : string).

(** One agent of [check]: a message that cannot be sent is only logged. *)
Definition check_agent (i : nat) (x : string * Z * Q) : M candidates (list FinetuneCandidate) :=
  let '(a, n, q) := x in
  s ← mget;
  if (n <? min_examples) || Qltb q min_quality then mret []
  else if has_candidate a s then mret []
  else c ← add_candidate (new_id i) a n q now; mret [c].

Fixpoint check_agents (i : nat) (l : list (string * Z * Q)) : M candidates (list FinetuneCandidate) :=
  match l with
  | [] => mret []
  | x :: l => c ← check_agent i x; cs ← check_agents (S i) l; mret (c ++ cs)
  end.

Definition check (d : event_log) : M candidates (list FinetuneCandidate) := check_agents 0 (query_agent_stats d).
End Detector.

(** ** Domain files *)

Definition domain_path (domain : string) : string := domain +:+ ".jsonl".
Definition snapshot_path (domain version : string) : string := domain +:+ "_" +:+ version +:+ ".jsonl".

Abbreviation domain_files := (list (string * list string)) (only parsing).

Inductive ExampleSource := human_correction_ | high_confidence_success_.

Record TrainingExample := mk_training {
  te_prompt : string;
  te_completion : string;
  te_domain : string;
  te_source : ExampleSource;
  te_quality : Q;
  te_event : uuid;
  te_created : time;
  te_exported : option time }.

(** [TrainingExample(...)]. *)
Definition validate_training (e : TrainingExample) : result TrainingExample :=
  rguard (unit_interval (te_quality e)) ValueError;; Ok e.

(** [append_example]; [model_dump_json] is the library's. *)
Definition append_training (model_dump_json : TrainingExample → string) (e : TrainingExample) (f : domain_files) : domain_files :=
  let path := domain_path (te_domain e) in
  assoc_set path (or_else (assoc_get path f) [] ++ [model_dump_json e]) f.

(** [list_domains]: the stems without an underscore. *)
Definition stem_of (name : string) : option string :=
  let n := String.length name in
  if (6 <=? n)%nat && String.eqb (String.substring (n - 6) 6 name) ".jsonl" then Some (String.substring 0 (n - 6) name) else None.
Definition list_file_domains (f : domain_files) : list string :=
  List.filter (λ s, negb (existsb (Ascii.eqb "_") (to_list s))) (omap (λ kv : string * list string, stem_of kv.1) f).

Record domain_stats := mk_domain_stats {
  dst_count : Z;
  dst_corrections : Z;
  dst_quality : Q }.

Section Files.
Context (json_loads : string → result json).

(** One line of a file; numbers of [quality_score] are summed exactly. *)
Definition count_line (st : domain_stats) (raw : string) : result domain_stats :=
  let raw := strip raw in
  if negb (truthy_str raw) then Ok st
  else
    v ← json_loads raw;
    data ← of_option AttributeError (as_dict v);
    q ← jnum (obj_default "quality_score" (JFloat 0) data);
    Ok (mk_domain_stats (dst_count st + 1)
          (dst_corrections st + if is_str (obj_field "source" data) "human_correction" then 1 else 0) (dst_quality st + q)%Q).

Fixpoint count_lines (st : domain_stats) (l : list string) : result domain_stats :=
  match l with
  | [] => Ok st
  | raw :: l => st ← count_line st raw; count_lines st l
  end.

Definition get_domain_stats (domain : string) (f : domain_files) : result domain_stats :=
  match assoc_get (domain_path domain) f with
  | None => Ok (mk_domain_stats 0 0 0)
  | Some l =>
      st ← count_lines (mk_domain_stats 0 0 0) l;
      Ok (mk_domain_stats (dst_count st) (dst_corrections st) (round4 (per (dst_quality st) (dst_count st))))
  end.

(** [snapshot]: the copy is made when there is something to copy; the path is returned
    in any case. *)
Definition snapshot (domain version : string) (f : domain_files) : string * domain_files :=
  let dst := snapshot_path domain version in
  (dst, match assoc_get (domain_path domain) f with Some l => assoc_set dst l f | None => f end).

(** ** The engine *)

Record OrionConfig := mk_orion_config {
  routing_min_sample_size : Z;
  routing_confidence_delta : Q;
  drift_confidence_drop : Q;
  fine_tune_correction_count : Z;
  fine_tune_correction_rate : Q }.

Definition STREAM_ROUTING_UPDATE : string := "aether:routing.heuristic_update".
Definition STREAM_DRIFT_ALERT : string := "aether:orion.drift_alert".
Definition STREAM_FINE_TUNE_READY : string := "aether:orion.fine_tune_ready".

Record engine := mk_engine {
  en_files : domain_files;
  en_sent : list (string * jdict) }.

Section Engine.
Context (cfg : OrionConfig) (float_str : Q → string) (fmt4 : Q → string) (now : time) (version : string).
Context (outage : option exn).

(** [xadd]. *)
Definition send (stream : string) (payload : jdict) : M engine unit :=
  match outage with
  | Some e => mraise e
  | None => mmodify (λ s, mk_engine (en_files s) (en_sent s ++ [(stream, payload)]))
  end.

Definition collect (g : list (string * list Q)) (e : FeedbackEvent) : list (string * list Q) :=
  assoc_set (fb_agent e) (or_else (assoc_get (fb_agent e) g) [] ++ [fb_confidence e]) g.

Definition signal_events (s : SignalRecord) : list FeedbackEvent := sg_high_quality s ++ map fst (sg_pairs s).

(** The agents by mean confidence, the best first; [sorted] with [reverse] is stable. *)
Definition ranked (s : SignalRecord) : list (string * Q) :=
  py_sorted (λ a b, Qle_bool b.2 a.2)
    (map (λ kv, (kv.1, mean kv.2)) (foldl collect [] (signal_events s))).

Definition routing_reason (best : string) (delta : Q) (s : SignalRecord) : string :=
  "agent " +:+ best +:+ " leads by " +:+ fmt4 delta +:+ " confidence over " +:+ py_int (sg_total s)
    +:+ " tasks in domain=" +:+ sg_domain s.

Definition routing_update (s : SignalRecord) (best reason : string) : jdict :=
  [("domain", JStr (sg_domain s)); ("preferred_agent", JStr best);
   ("confidence_delta", JStr (float_str (routing_confidence_delta cfg))); ("reason", JStr reason);
   ("timestamp", JStr (iso now))].

Definition check_routing (s : SignalRecord) : M engine Z :=
  if sg_total s <? routing_min_sample_size cfg then mret 0
  else match ranked s with
       | (best, q1) :: (_, q2) :: _ =>
           let delta := round4 (q1 - q2)%Q in
           if Qle_bool (routing_confidence_delta cfg) delta then
             send STREAM_ROUTING_UPDATE (routing_update s best (routing_reason best delta s));; mret 1
           else mret 0
       | _ => mret 0
       end.

(** [_collect_agent_ids]: a set; its order is not fixed. *)
Definition collect_agent_ids (signals : list SignalRecord) : list string :=
  remove_dups (concat (map (λ s, map fb_agent (signal_events s)) signals)).

Definition is_drifting (t : agent_trend) : bool := Qle_bool (at_drift t) (- drift_confidence_drop cfg)%Q.

Definition drift_alert (a : string) (delta : Q) (t : agent_trend) : jdict :=
  [("agent_id", JStr a); ("baseline_30d", JStr (float_str (at_baseline t)));
   ("current_7d", JStr (float_str (at_current t))); ("drift_delta", JStr (float_str delta)); ("timestamp", JStr (iso now))].

Definition check_drift (d : event_log) (a : string) : M engine Z :=
  t ← mlift (get_agent_trend a 7 now d);
  if is_drifting t then send STREAM_DRIFT_ALERT (drift_alert a (at_drift t) t);; mret 1 else mret 0.

(** [_has_conflicting_corrections]: [seen] by input hash, as canonical JSON. *)
Fixpoint conflicting (seen : list (string * json)) (pairs : list (FeedbackEvent * jdict)) : bool :=
  match pairs with
  | [] => false
  | (e, c) :: pairs =>
      let c := canon (JObj c) in
      match assoc_get (fb_input e) seen with
      | Some c' => if bool_decide (c' = c) then conflicting (assoc_set (fb_input e) c seen) pairs else true
      | None => conflicting (assoc_set (fb_input e) c seen) pairs
      end
  end.
Definition has_conflicting_corrections (s : SignalRecord) : bool := conflicting [] (sg_pairs s).

Definition fine_tune_ready (domain path : string) (st : domain_stats) : jdict :=
  [("domain", JStr domain); ("snapshot_path", JStr path); ("example_count", JStr (py_int (dst_count st)));
   ("timestamp", JStr (iso now))].

Definition check_fine_tune (s : SignalRecord) : M engine Z :=
  st ← mread (λ x, get_domain_stats (sg_domain s) (en_files x));
  if (fine_tune_correction_count cfg <=? dst_corrections st)
     || Qle_bool (fine_tune_correction_rate cfg) (sg_correction_rate s) then
    x ← mget;
    let '(path, f) := snapshot (sg_domain s) version (en_files x) in
    mput (mk_engine f (en_sent x));;
    st ← mread (λ x, get_domain_stats (sg_domain s) (en_files x));
    send STREAM_FINE_TUNE_READY (fine_tune_ready (sg_domain s) path st);;
    mret 1
  else mret 0.

Fixpoint msum {S A} (f : A → M S Z) (l : list A) : M S Z :=
  match l with
  | [] => mret 0
  | a :: l => n ← f a; m ← msum f l; mret (n + m)
  end.

Record HeuristicCycleResult := mk_cycle {
  cy_routing : Z;
  cy_drift : Z;
  cy_fine_tune : Z;
  cy_domains : Z;
  cy_agents : Z }.

Definition run_cycle (window_hours : Z) (d : event_log) : M engine HeuristicCycleResult :=
  signals ← mlift (extract_all_domains window_hours now now d);
  let agents := collect_agent_ids signals in
  routing ← msum check_routing signals;
  drift ← msum (check_drift d) agents;
  ready ← msum (λ s, if has_conflicting_corrections s then mret 0 else check_fine_tune s) signals;
  mret (mk_cycle routing drift ready (Z.of_nat (length signals)) (Z.of_nat (length agents))).
End Engine.
End Files.

(** ** Theorems

    What the detection of fine-tuning candidates and the heuristic engine guarantee
    ([FineTuning]). *)

(** ** Candidates *)

Section Candidates.
Context (min_examples : Z) (min_quality : Q).

Inductive candidate_step : list FinetuneCandidate → list FinetuneCandidate → Prop :=
  | step_detect new_id now d s : candidate_step s (check min_examples min_quality new_id now d s).2
  | step_approve_candidate id now by_ note s : candidate_step s (commit_candidate id "approved" now by_ note s).2
  | step_reject_candidate id now by_ note s : candidate_step s (commit_candidate id "rejected" now by_ note s).2.

(** One candidate for an agent, with the evidence it takes. *)
Record candidates_ok (s : list FinetuneCandidate) : Prop := {
  one_per_agent : NoDup (cd_agent <$> s);
  ids_distinct : NoDup (cd_id <$> s);
  enough : Forall (λ c, min_examples <= cd_examples c ∧ (min_quality <= cd_quality c)%Q) s }.

(** [c'] is what [c] became. *)
Definition became (c c' : FinetuneCandidate) : Prop :=
  cd_id c' = cd_id c ∧ cd_agent c' = cd_agent c ∧ cd_examples c' = cd_examples c ∧ cd_quality c' = cd_quality c
  ∧ (cd_status c ≠ "pending" → c' = c).

Lemma became_refl c : became c c.
Proof. unfold became. auto. Qed.

Lemma became_trans a b c : became a b → became b c → became a c.
Proof.
  intros (H1 & H2 & H3 & H4 & H5) (G1 & G2 & G3 & G4 & G5). unfold became. split_and!; try congruence.
  intros Hp. specialize (H5 Hp). subst b. by apply G5.
Qed.

Definition step_spec (s s' : list FinetuneCandidate) : Prop :=
  (candidates_ok s → candidates_ok s') ∧ ∀ c, c ∈ s → ∃ c', c' ∈ s' ∧ became c c'.

Lemma step_spec_refl s : step_spec s s.
Proof. split; [done|]. intros c Hc. exists c. by split; [|apply became_refl]. Qed.

Lemma step_spec_trans s1 s2 s3 : step_spec s1 s2 → step_spec s2 s3 → step_spec s1 s3.
Proof.
  intros [H1 H2] [G1 G2]. split; [auto|]. intros c Hc. destruct (H2 c Hc) as (c2 & Hc2 & B2).
  destruct (G2 c2 Hc2) as (c3 & Hc3 & B3). exists c3. split; [done|by eapply became_trans].
Qed.

Lemma existsb_not_elem {A} (f : A → string) (x : string) (l : list A) :
  existsb (λ a, String.eqb (f a) x) l = false → x ∉ f <$> l.
Proof.
  intros He (a & -> & Ha)%list_elem_of_fmap. assert (existsb (λ b, String.eqb (f b) (f a)) l = true); [|congruence].
  apply existsb_exists. exists a. split; [by apply list_elem_of_In|apply String.eqb_refl].
Qed.

Lemma check_agent_spec new_id now i x s : step_spec s (check_agent min_examples min_quality new_id now i x s).2.
Proof.
  destruct x as [[a n] q]. unfold check_agent, add_candidate. munfold.
  destruct (_ || _) eqn:Et; [apply step_spec_refl|]. apply orb_false_iff in Et as [Hn%Z.ltb_ge Hq].
  destruct (has_candidate a s) eqn:Ha; [apply step_spec_refl|]. simpl.
  destruct (existsb _ s) eqn:Hi; simpl; [apply step_spec_refl|].
  unfold Qltb in Hq. apply negb_false_iff, Qle_bool_iff in Hq. split.
  - intros [H1 H2 H3]. split.
    + rewrite fmap_app. apply NoDup_app. split_and!; [done| |apply NoDup_singleton].
      intros y Hy ->%list_elem_of_singleton. by apply existsb_not_elem in Ha.
    + rewrite fmap_app. apply NoDup_app. split_and!; [done| |apply NoDup_singleton].
      intros y Hy ->%list_elem_of_singleton. by apply existsb_not_elem in Hi.
    + apply Forall_app. split; [done|]. by repeat constructor.
  - intros c Hc. exists c. split; [apply elem_of_app; by left|apply became_refl].
Qed.

Lemma check_agents_spec new_id now l : ∀ i s, step_spec s (check_agents min_examples min_quality new_id now i l s).2.
Proof.
  induction l as [|x l IH]; intros i s; [apply step_spec_refl|]. simpl. unfold mbind at 1, M_bind.
  pose proof (check_agent_spec new_id now i x s) as H.
  destruct (check_agent _ _ _ _ i x s) as [[c|e] s1]; [|done]. unfold mbind, M_bind.
  pose proof (IH (S i) s1) as H2. destruct (check_agents _ _ _ _ (S i) l s1) as [[cs|e] s2]; by eapply step_spec_trans.
Qed.

Lemma decide_spec id status now by_ note s : step_spec s (commit_candidate id status now by_ note s).2.
Proof.
  unfold commit_candidate, client_decide. munfold.
  destruct (get_candidate id s) as [c0|]; simpl; [|apply step_spec_refl].
  set (f := λ c, if with_id id c && pending_candidate c then review_candidate status now by_ note c else c).
  change (decide_candidate id status now by_ note s) with (f <$> s).
  assert (Hf : ∀ c, became c (f c)).
  { intros c. unfold f. destruct (with_id id c && pending_candidate c) eqn:E; [|apply became_refl].
    apply andb_true_iff in E as [_ Hp%String.eqb_eq]. by split_and!. }
  split.
  - intros [H1 H2 H3]. split.
    + rewrite <-list_fmap_compose. erewrite list_fmap_ext; [exact H1|]. intros _ c _. simpl. by destruct (Hf c) as (_ & ? & _).
    + rewrite <-list_fmap_compose. erewrite list_fmap_ext; [exact H2|]. intros _ c _. simpl. by destruct (Hf c) as (? & _).
    + apply Forall_forall. intros c (x & -> & Hx)%list_elem_of_fmap. apply (proj1 (Forall_forall _ _) H3) in Hx.
      by destruct (Hf x) as (_ & _ & -> & -> & _).
  - intros c Hc. exists (f c). split; [by apply list_elem_of_fmap_2|apply Hf].
Qed.

(** A candidate is emitted once and decided once. However detection and reviews
    interleave, an agent has at most one candidate, with the number of examples and the
    mean quality required; no candidate is lost or changed but by its review; and once
    reviewed it never changes. *)
Theorem candidates_are_decided_once s s' : candidates_ok s → rtc candidate_step s s' →
  candidates_ok s' ∧ ∀ c, c ∈ s → ∃ c', c' ∈ s' ∧ became c c'.
Proof.
  intros Hok Hs. assert (H : step_spec s s').
  { clear Hok. induction Hs as [s|s s1 s2 H1 _ IH]; [apply step_spec_refl|]. eapply step_spec_trans; [|exact IH].
    destruct H1; [apply check_agents_spec|apply decide_spec|apply decide_spec]. }
  destruct H as [H1 H2]. split; [by apply H1|exact H2].
Qed.
End Candidates.

(** ** Routing updates *)

Definition means (s : SignalRecord) : list (string * Q) := map (λ kv, (kv.1, mean kv.2)) (foldl collect [] (signal_events s)).

Lemma collect_nodup l : ∀ g, NoDup (map fst g) → NoDup (map fst (foldl collect g l)).
Proof. induction l as [|e l IH]; intros g Hg; [done|]. by apply IH, assoc_set_nodup. Qed.

Lemma collect_values (P : Q → Prop) l : (∀ e, e ∈ l → P (fb_confidence e)) → ∀ g, NoDup (map fst g) →
  (∀ k v, (k, v) ∈ g → v ≠ [] ∧ Forall P v) → ∀ k v, (k, v) ∈ foldl collect g l → v ≠ [] ∧ Forall P v.
Proof.
  induction l as [|e l IH]; intros Hl g Hnd Hg; [done|]. simpl. apply IH; [|by apply assoc_set_nodup|].
  { intros x Hx. apply Hl. by right. }
  intros k v Hkv. apply (assoc_get_iff _ _ _ (assoc_set_nodup _ _ _ Hnd)) in Hkv. rewrite assoc_get_set in Hkv.
  destruct (String.eqb k (fb_agent e)); [|by apply Hg with k, assoc_get_in].
  injection Hkv as <-. split; [by destruct (or_else _ _)|]. apply Forall_app. split; [|constructor; [apply Hl; by left|constructor]].
  destruct (assoc_get (fb_agent e) g) as [old|] eqn:E; [|constructor]. simpl. apply assoc_get_in in E. by apply Hg in E as [_ ?].
Qed.

Lemma means_between lo hi s k q : (∀ e, e ∈ signal_events s → (lo <= fb_confidence e <= hi)%Q) → (k, q) ∈ means s → (lo <= q <= hi)%Q.
Proof.
  intros Hl ([k' v] & [= -> ->] & Hkv)%list_elem_of_fmap. simpl.
  destruct (collect_values (λ q, (lo <= q <= hi)%Q) (signal_events s) Hl [] (NoDup_nil_2) ltac:(by intros ? ? ?%elem_of_nil) k' v Hkv).
  by apply mean_between.
Qed.

Lemma ranked_sorted s : StronglySorted (λ a b, (b.2 <= a.2)%Q) (ranked s).
Proof.
  unfold ranked. assert (H := py_sorted_sorted (λ a b : string * Q, Qle_bool b.2 a.2)).
  assert (T : ∀ a b : string * Q, Qle_bool b.2 a.2 = true ∨ Qle_bool a.2 b.2 = true).
  { intros a b. rewrite !Qle_bool_iff. destruct (Qlt_le_dec a.2 b.2); [right; by apply Qlt_le_weak|by left]. }
  specialize (H T). assert (R : ∀ a b c : string * Q, Qle_bool b.2 a.2 = true → Qle_bool c.2 b.2 = true → Qle_bool c.2 a.2 = true).
  { intros a b c. rewrite !Qle_bool_iff. intros H1 H2. by eapply Qle_trans. }
  specialize (H R (means s)). change (py_sorted _ _) with (py_sorted (λ a b : string * Q, Qle_bool b.2 a.2) (means s)).
  induction H as [|x l _ IH Hx]; constructor; [done|]. apply Forall_forall. intros y Hy.
  by apply Qle_bool_iff, (proj1 (Forall_forall _ _) Hx).
Qed.

Lemma ranked_means s kv : kv ∈ ranked s ↔ kv ∈ means s.
Proof. unfold ranked. by rewrite elem_of_py_sorted. Qed.

Section Routing.
Context (cfg : OrionConfig) (float_str fmt4 : Q → string) (now : time) (outage : option exn).

(** A routing update is earned. The engine answers a signal by doing nothing, or by
    sending one update for the domain: then the domain had the number of events asked
    for, and the mean confidence of the preferred agent, over the events the signal
    keeps, exceeds that of every other agent by the configured difference. With a
    difference above one tenth, as configured by default, some of those events are
    corrections: confident events alone never make an update. *)
Theorem routing_updates_are_earned domain hours at_ at_' d s x x' n :
  extract domain hours at_ at_' d = Ok s → check_routing cfg float_str fmt4 now outage s x = (Ok n, x') →
  (n = 0 ∧ x' = x)
  ∨ (n = 1 ∧ routing_min_sample_size cfg <= sg_total s ∧ en_files x' = en_files x
     ∧ ∃ best q, (best, q) ∈ means s
        ∧ (∃ reason, en_sent x' = en_sent x ++ [(STREAM_ROUTING_UPDATE, routing_update cfg float_str now s best reason)])
        ∧ (∀ a q', (a, q') ∈ means s → a ≠ best → (routing_confidence_delta cfg <= round4 (q - q'))%Q)
        ∧ ((1 # 10) < routing_confidence_delta cfg → sg_pairs s ≠ [])%Q).
Proof.
  intros Hs H. unfold check_routing in H. destruct (Z.ltb_spec (sg_total s) (routing_min_sample_size cfg)) as [|Hmin].
  { left. by injection H as <- <-. }
  pose proof (ranked_sorted s) as Hsort.
  destruct (ranked s) as [|[best q1] [|[second q2] rest]] eqn:Er; [left; by injection H as <- <-..|]. cbv zeta in H.
  destruct (Qle_bool (routing_confidence_delta cfg) (round4 (q1 - q2))) eqn:Ed; [|left; by injection H as <- <-].
  apply Qle_bool_iff in Ed. right. unfold send in H. destruct outage as [e|]; [discriminate H|]. injection H as <- <-.
  assert (Hb : (best, q1) ∈ means s) by (apply ranked_means; rewrite Er; by left).
  assert (H2 : (second, q2) ∈ means s) by (apply ranked_means; rewrite Er; right; by left).
  split; [done|]. split; [done|]. split; [done|]. exists best, q1. split; [done|]. split; [by eexists|]. split.
  - intros a q' Ha Hne. apply ranked_means in Ha. rewrite Er in Ha.
    assert (Hq : (q' <= q2)%Q).
    { apply elem_of_cons in Ha as [[= -> _]|Ha]; [done|]. inversion Hsort as [|? ? Hs2 _]; subst.
      apply elem_of_cons in Ha as [[= _ ->]|Ha]; [apply Qle_refl|]. inversion Hs2 as [|? ? _ Hall]; subst.
      by apply (proj1 (Forall_forall _ _) Hall) in Ha. }
    eapply Qle_trans; [exact Ed|]. apply round4_mono. lra.
  - intros Hbig Hnone. assert (Hconf : ∀ e, e ∈ signal_events s → ((9 # 10) <= fb_confidence e <= 1)%Q).
    { intros e He. unfold signal_events in He. rewrite Hnone, app_nil_r in He.
      unfold extract in Hs. apply rbind_ok in Hs as (start & _ & Hs). apply rbind_ok in Hs as (window & Hw & [= <-]).
      simpl in He. apply list_elem_of_In, List.filter_In in He as [He Hh]. apply list_elem_of_In in He.
      apply (proj1 (proj2 (deduplicate_spec window))) in He. unfold get_window in Hw. apply rbind_ok in Hw as (cutoff & _ & Hw).
      apply window_valid in Hw. destruct (proj1 (Forall_forall _ _) Hw e He) as ((_ & Hle) & _).
      unfold is_high_quality in Hh. apply andb_true_iff in Hh as [Hh%Qltb_lt _]. split; [by apply Qlt_le_weak|done]. }
    pose proof (means_between _ _ _ _ _ Hconf Hb) as [_ Hhi]. pose proof (means_between _ _ _ _ _ Hconf H2) as [Hlo _].
    assert (Hd : (round4 (q1 - q2) <= round4 (1 # 10))%Q) by (apply round4_mono; lra).
    assert (He : (round4 (1 # 10) == 1 # 10)%Q) by reflexivity. lra.
Qed.
End Routing.

(** ** Conflicting corrections *)

Lemma conflicting_distinct ps : ∀ seen, NoDup (map (λ p, fb_input p.1) ps) →
  (∀ p, p ∈ ps → assoc_get (fb_input p.1) seen = None) → conflicting seen ps = false.
Proof.
  induction ps as [|[e c] ps IH]; intros seen Hnd Hseen; [done|]. simpl in *.
  pose proof (Hseen (e, c) ltac:(by left)) as Hec. simpl in Hec. rewrite Hec. apply NoDup_cons in Hnd as [He Hnd]. apply IH; [done|].
  intros p Hp. rewrite assoc_get_set. destruct (String.eqb_spec (fb_input p.1) (fb_input e)) as [E|_].
  - destruct He. rewrite <-E. by apply (list_elem_of_fmap_2 (λ p, fb_input p.1)).
  - apply Hseen. by right.
Qed.

(** Conflicting corrections are never found. A signal holds one event of an input, so
    the check that is to keep contradictory corrections from triggering a training
    passes every signal. *)
Theorem conflicts_are_never_found domain hours now now' d s :
  extract domain hours now now' d = Ok s → has_conflicting_corrections s = false.
Proof.
  intros H. unfold extract in H. apply rbind_ok in H as (start & _ & H). apply rbind_ok in H as (window & _ & [= <-]).
  apply conflicting_distinct; [|done]. simpl. destruct (deduplicate_spec window) as (Hnd & _).
  induction (deduplicate window) as [|e l IH]; [constructor|]. simpl in *. apply NoDup_cons in Hnd as [He Hnd].
  destruct (correction_pair e) as [[e' c]|] eqn:Ep; simpl; [|by apply IH]. apply NoDup_cons. split; [|by apply IH].
  assert (E : e' = e).
  { unfold correction_pair in Ep. destruct (fb_outcome e), (fb_correction e); try discriminate Ep. by injection Ep as -> _. }
  subst e'. intros ([e2 c2] & Heq & Hp)%list_elem_of_fmap. simpl in Heq. apply He. rewrite Heq.
  apply list_elem_of_omap in Hp as (y & Hy & Hyp).
  assert (E : e2 = y).
  { unfold correction_pair in Hyp. destruct (fb_outcome y), (fb_correction y); try discriminate Hyp. by injection Hyp as <- _. }
  subst y. by apply (list_elem_of_fmap_2 fb_input).
Qed.

(** ** Demonstrations *)

Module FineTuneDemo.
Definition str_of_q (_ : Q) : string := "0.15".
Definition noon : time := 63900000000000000 + hour_us.
Definition defaults (sample : Z) : OrionConfig := mk_orion_config sample (15 # 100) (20 # 100) 200 (40 # 100).
Definition event (task : uuid) (agent input : string) (q : Q) (o : OutcomeType) (c : option jdict) : FeedbackEvent :=
  mk_feedback task "qa.regression" agent o q input [] c true 5 63900000000000000.
Definition log_of (l : list FeedbackEvent) : event_log :=
  foldl (λ d e, (append (N.of_nat (length (feedback_events d))) e d).2) (mk_log [] [] [] []) l.
Definition better (s : string) : option jdict := Some [("result", JStr s)].

(** One agent is confident, the other was corrected twice on the same input, each time
    differently. *)
Definition log : event_log :=
  log_of [event 1 "vega" "a" (95 # 100) completed_ None; event 2 "rigel" "b" (1 # 2) corrected_ (better "x");
          event 3 "rigel" "b" (1 # 2) corrected_ (better "y")].
Definition start : engine := mk_engine [] [].
Definition signal : result SignalRecord := extract "qa.regression" 24 noon noon log.
Definition routed (s : SignalRecord) := check_routing (defaults 2) str_of_q str_of_q noon None s start.

Example contradictions_pass : match signal with
  | Ok s => has_conflicting_corrections s = false ∧ map snd (sg_pairs s) = [[("result", JStr "x")]]
  | Raise _ => False end.
Proof. vm_compute. done. Qed.

(** The announcement names the snapshot even when there was nothing to copy. *)
Definition announced (s : SignalRecord) := check_fine_tune (λ _, Raise ValueError) (defaults 2) noon "v1" None s start.
Example announced_snapshot_does_not_exist : match signal with
  | Ok s => (announced s).1 = Ok 1 ∧ en_files (announced s).2 = []
      ∧ map (λ m, obj_field "snapshot_path" m.2) (en_sent (announced s).2) = [JStr "qa.regression_v1.jsonl"]
  | Raise _ => False end.
Proof. vm_compute. done. Qed.

(** Two reviewers read a pending candidate before either decides: both are answered
    with success, and one of the answers is wrong. *)
Definition one : list FinetuneCandidate := [mk_candidate "c1" "rigel" 120 (9 # 10) "t0" "pending" None None None].
Definition raced : result string * list FinetuneCandidate :=
  (check_candidate "c1";; check_candidate "c1";; commit_candidate "c1" "approved" "t1" "ann" None;;
   commit_candidate "c1" "rejected" "t2" "bob" None) one.
Example both_reviewers_succeed : raced.1 = Ok "rejected" ∧ map cd_status raced.2 = ["approved"].
Proof. vm_compute. done. Qed.

Definition rows (n : nat) : event_log :=
  mk_log (map (λ i, mk_event_row (py_int (Z.of_nat i)) "t" "s" "rigel" "rigel" "success" (9 # 10) false None None None None "d" false None) (seq 0 n))
    [] [] [].
Definition ids (n : nat) : string := py_int (Z.of_nat n).
Definition detected : list FinetuneCandidate := (check 100 (85 # 100) ids "t0" (rows 120) []).2.
Definition reviewed : list FinetuneCandidate := (commit_candidate "0" "rejected" "t1" "ann" None detected).2.
Example detected_once : map cd_status detected = ["pending"]
  ∧ (check 100 (85 # 100) ids "t2" (rows 130) reviewed).2 = reviewed.
Proof. vm_compute. done. Qed.
End FineTuneDemo.
Import FineTuneDemo.

Lemma candidates_are_decided_once_witness : length detected = 1%nat ∧ candidates_ok 100 (85 # 100) reviewed.
Proof.
  split; [vm_compute; reflexivity|].
  assert (H0 : candidates_ok 100 (85 # 100) []) by (split; constructor).
  apply (candidates_are_decided_once 100 (85 # 100) [] reviewed H0).
  eapply rtc_l; [apply (step_detect _ _ ids "t0" (rows 120))|].
  apply rtc_once, (step_reject_candidate _ _ "0" "t1" "ann" None).
Defined.

Lemma routing_updates_are_earned_witness : ∃ s n x, signal = Ok s ∧ routed s = (Ok n, x) ∧ n = 1 ∧ sg_pairs s ≠ [].
Proof.
  destruct signal as [s|e] eqn:E; [|vm_compute in E; discriminate E].
  destruct (routed s) as [[n|e] x] eqn:Er; [|vm_compute in E; injection E as <-; vm_compute in Er; discriminate Er].
  exists s, n, x. split; [reflexivity|]. split; [exact Er|].
  destruct (routing_updates_are_earned (defaults 2) str_of_q str_of_q noon None _ _ _ _ _ s start x n E Er)
    as [(_ & Hx)|(Hn & _ & _ & best & q & _ & _ & _ & Hp)].
  - exfalso. vm_compute in E. injection E as <-. vm_compute in Er. injection Er as _ <-. discriminate Hx.
  - split; [exact Hn|]. apply Hp. vm_compute. reflexivity.
Defined.

Lemma conflicts_are_never_found_witness : ∃ s, signal = Ok s ∧ has_conflicting_corrections s = false.
Proof.
  destruct signal as [s|e] eqn:E; [|vm_compute in E; discriminate E]. exists s. split; [reflexivity|].
  exact (conflicts_are_never_found _ _ _ _ _ s E).
Defined.
