(* ===== verification/Workspace.v ===== *)
(** Files of a workspace: services/file_writer.py, workspace/file_writer.py and
    workspace/config.py, over the paths of [pathlib].

    The files are the texts written, by path; directories, and the errors of the
    operating system, are an argument, as are what a path resolves to (symbolic links)
    and the variables of the environment. *)

From S2P Require Import Prelude.
From S2P Require Import PyStr.
From S2P Require Import Json.
From S2P Require Import PyDict.
From S2P Require Import Provider.
From Stdlib Require Import Ascii.
Open Scope Z_scope.

(** ** Paths *)

Record path := mk_path {
  root : string;
  parts : list string }.

#[export] Instance path_eq_dec : EqDecision path.
Proof. solve_decision. Defined.

(** [Path(s)]: empty parts and single dots are dropped; two leading slashes are kept. *)
Definition path_of (s : string) : path :=
  mk_path (if startswith s "///" then "/" else if startswith s "//" then "//" else if startswith s "/" then "/" else "")
    (List.filter (λ p, negb (String.eqb p "" || String.eqb p ".")) (split "/" s)).

(** [str(p)]. *)
Definition path_str (p : path) : string :=
  match parts p with
  | [] => if truthy_str (root p) then root p else "."
  | l => root p +:+ join "/" l
  end.

(** [a / b]: an absolute [b] replaces [a]. *)
Definition path_div (a b : path) : path :=
  if truthy_str (root b) then b else mk_path (root a) (parts a ++ parts b).

Fixpoint prefix_parts (a b : list string) : bool :=
  match a, b with
  | [], _ => true
  | x :: a, y :: b => String.eqb x y && prefix_parts a b
  | _, _ => false
  end.

(** [p.is_relative_to(base)]. *)
Definition is_relative_to (p base : path) : bool := String.eqb (root p) (root base) && prefix_parts (parts base) (parts p).

(** The last suffix of the name, with its dot; a leading dot is no suffix. *)
Fixpoint last_dot (l : list ascii) (i : nat) (found : option nat) : option nat :=
  match l with
  | [] => found
  | c :: l => last_dot l (S i) (if Ascii.eqb c "." then Some i else found)
  end.
Definition suffix_of (p : path) : string :=
  match last (parts p) with
  | None => ""
  | Some name =>
      match last_dot (to_list name) 0 None with
      | Some i => if (0 <? i)%nat && (i <? String.length name - 1)%nat then of_list (drop i (to_list name)) else ""
      | None => ""
      end
  end.

Abbreviation files := (list (string * string)) (only parsing).

(** ** services/file_writer.py *)

Definition EXT_TO_LANGUAGE : list (string * string) :=
  [(".py", "python"); (".ts", "typescript"); (".js", "javascript"); (".md", "markdown"); (".json", "json");
   (".yaml", "yaml"); (".yml", "yaml"); (".txt", "text")].

Definition infer_language_from_extension (filename : string) : string :=
  or_else (assoc_get (lower (suffix_of (path_of filename))) EXT_TO_LANGUAGE) "text".

Section Service.
Context (resolve : path → path) (exists_ : path → bool) (os_error : path → string → option string).
Context (not_text : json → string).

(** [FileWriter(workspace_root)]; [FileNotFoundError] is an [OSError]. *)
Definition file_writer (workspace_root : string) : result path :=
  let r := resolve (path_of workspace_root) in
  rguard (exists_ r) OSError;; Ok r.

(** The text to write, or the message of the exception. *)
Definition content_of (a : jdict) : string + string :=
  match obj_get "content" a with
  | None => inl "'content'"
  | Some (JStr s) => inr s
  | Some v => inl (not_text v)
  end.

(** One artifact of [write]: what it failed with is in its result. *)
Definition write_one (base : path) (a : jdict) : M files jdict :=
  name ← mlift (of_option KeyError (obj_get "filename" a));
  filename ← mlift (match name with JStr s => Ok s | _ => Raise TypeError end);
  let full := path_div base (path_of filename) in
  let outcome written error : jdict :=
    [("filename", JStr filename); ("path", JStr (path_str full)); ("written", JBool written);
     ("artifact_type", obj_default "artifact_type" (JStr "") a); ("language", obj_default "language" (JStr "") a);
     ("error", error)] in
  match content_of a with
  | inl e => mret (outcome false (JStr e))
  | inr s =>
      match os_error full s with
      | Some e => mret (outcome false (JStr e))
      | None => mmodify (assoc_set (path_str full) s);; mret (outcome true JNull)
      end
  end.

Definition write_artifacts (base : path) (artifacts : list jdict) (subdir : option string) : M files (list jdict) :=
  let base := match subdir with Some s => if truthy_str s then path_div base (path_of s) else base | None => base end in
  mmapM (write_one base) artifacts.
End Service.

(** ** workspace/file_writer.py *)

Definition STOP_WORDS : list string :=
  ["a"; "an"; "the"; "to"; "for"; "of"; "in"; "on"; "at"; "with"; "and"; "or"; "is"; "are"; "that"; "this"; "it";
   "be"; "as"; "by"; "from"; "into"].

Record WrittenArtifact := mk_written {
  wa_filename : string;
  wa_absolute : string;
  wa_relative : string;
  wa_size : Z }.

(** [len(content.encode("utf-8"))]. *)
Definition utf8_length (s : string) : Z :=
  foldr (λ c n, (if (nat_of_ascii c <? 128)%nat then 1 else 2) + n) 0 (to_list s).

Section Workspace.
Context (resolve : path → path) (os_error : path → string → bool).

Definition workspace_write (workspace_root filename content : string) : M files WrittenArtifact :=
  let base := path_of workspace_root in
  let full := resolve (path_div base (path_of filename)) in
  mguard (is_relative_to full (resolve base)) ValueError;;
  mguard (negb (os_error full content)) OSError;;
  mmodify (assoc_set (path_str full) content);;
  mret (mk_written filename (path_str full) filename (utf8_length content)).
End Workspace.

(** [s.split()]. *)
Fixpoint fields_from (cur : list ascii) (l : list ascii) : list string :=
  match l with
  | [] => match cur with [] => [] | _ => [of_list (rev cur)] end
  | c :: l => if is_space c then match cur with [] => fields_from [] l | _ => of_list (rev cur) :: fields_from [] l end
              else fields_from (c :: cur) l
  end.
Definition fields (s : string) : list string := fields_from [] (to_list s).

Definition plain_char (c : ascii) : bool :=
  let n := nat_of_ascii c in ((48 <=? n) && (n <=? 57) || (97 <=? n) && (n <=? 122))%nat.

Fixpoint drop_underscores (l : list ascii) : list ascii :=
  match l with
  | [] => []
  | c :: l' => if Ascii.eqb c "_" then drop_underscores l' else l
  end.

(** The words kept, joined, cut to forty characters and trimmed. *)
Definition slug_of (task_description : string) : list ascii :=
  let filtered := map (λ w, of_list (List.filter plain_char (to_list w)))
    (List.filter (λ w, negb (bool_decide (w ∈ STOP_WORDS))) (fields (lower task_description))) in
  rev (drop_underscores (rev (take 40 (to_list (join "_" (List.filter truthy_str filtered)))))).

Definition infer_filename (task_description skill : string) : string :=
  let slug := of_list (slug_of task_description) in
  if negb (truthy_str slug) then "output_" +:+ skill +:+ ".py"
  else if String.eqb skill "test_writing" then "test_" +:+ slug +:+ ".py"
  else slug +:+ ".py".

(** ** workspace/config.py *)

Record WorkspaceConfig := mk_workspace {
  ws_root : string;
  ws_enabled : bool }.

Section Config.
Context (py_str : json → string) (is_dir : string → bool) (environ : string → option string).

(** [resolve]: a text that is one environment reference, and nothing else, is replaced. *)
Definition resolve_value (v : json) : json :=
  match v with
  | JStr s =>
      match env_ref (to_list s) with
      | Some (name, default, []) => JStr (or_else (environ name) (or_else default ""))
      | _ => v
      end
  | _ => v
  end.

(** [load_workspace_config] on the parsed file, when there is one. *)
Definition load_workspace_config (raw : option jdict) : result WorkspaceConfig :=
  match raw with
  | None => Ok (mk_workspace "" false)
  | Some raw =>
      let r := resolve_value (jor (obj_field "workspace_root" raw) (JStr "")) in
      let enabled := match resolve_value (obj_default "enabled" (JBool false) raw) with
                     | JStr s => bool_decide (lower (strip s) ∈ ["1"; "true"; "yes"; "on"])
                     | v => truthy v
                     end in
      let cfg := mk_workspace (match r with JStr s => s | v => py_str v end) enabled in
      rguard (negb enabled || truthy_str (ws_root cfg)) ValueError;;
      rguard (negb enabled || is_dir (ws_root cfg)) ValueError;;
      Ok cfg
  end.
End Config.

(** ** Properties *)

(** The files a computation changes all satisfy [P]. *)
Definition changes_only (P : string → Prop) (fs fs' : files) : Prop :=
  ∀ p, assoc_get p fs' ≠ assoc_get p fs → P p.

(** Writing of the workspace stays inside it. Whatever the name and however links
    resolve, a write changes at most the file it reports, that file is below the root,
    and it holds the text; a write that raises changes nothing. *)
Theorem workspace_writes_stay_inside resolve os_error ws filename content fs x fs' :
  workspace_write resolve os_error ws filename content fs = (x, fs') →
  match x with
  | Ok w => ∃ full, is_relative_to full (resolve (path_of ws)) = true ∧ wa_absolute w = path_str full
      ∧ assoc_get (path_str full) fs' = Some content ∧ changes_only (λ p, p = path_str full) fs fs'
  | Raise _ => fs' = fs
  end.
Proof.
  unfold workspace_write. munfold. intros H.
  destruct (is_relative_to _ _) eqn:Hin; simpl in H; [|by injection H as <- <-].
  destruct (os_error _ _); simpl in H; injection H as <- <-; [done|].
  eexists. split_and!; [exact Hin|done|by rewrite assoc_get_set, String.eqb_refl|].
  intros p. rewrite assoc_get_set. by destruct (String.eqb_spec p (path_str (resolve (path_div (path_of ws) (path_of filename))))).
Qed.

Lemma drop_underscores_sub l c : c ∈ drop_underscores l → c ∈ l.
Proof.
  induction l as [|x l IH]; [done|]. simpl. destruct (Ascii.eqb x "_"); [|done]. intros H. apply elem_of_cons. right. by apply IH.
Qed.

Lemma drop_underscores_length l : (length (drop_underscores l) ≤ length l)%nat.
Proof. induction l as [|x l IH]; [done|]. simpl. destruct (Ascii.eqb x "_"); simpl; lia. Qed.

Lemma join_chars sep l c : c ∈ to_list (join sep l) → c ∈ to_list sep ∨ ∃ s, s ∈ l ∧ c ∈ to_list s.
Proof.
  induction l as [|s l IH]; simpl; [by intros ?%elem_of_nil|]. destruct l as [|s' l].
  - intros H. right. exists s. split; [by left|done].
  - rewrite !to_list_app. intros [H|[H|H]%elem_of_app]%elem_of_app; [right; exists s; split; [by left|done]|by left|].
    destruct (IH H) as [|(x & Hx & Hc)]; [by left|right]. exists x. split; [by right|done].
Qed.

Definition slug_char (c : ascii) : bool := plain_char c || Ascii.eqb c "_".

Lemma slug_chars t c : c ∈ slug_of t → slug_char c = true.
Proof.
  unfold slug_of. intros H. apply list_elem_of_In, in_rev, list_elem_of_In, drop_underscores_sub in H.
  apply list_elem_of_In, in_rev, list_elem_of_In in H. apply list_elem_of_lookup in H as (i & H).
  apply lookup_take_Some in H as [H _]. apply list_elem_of_lookup_2 in H. apply join_chars in H as [H|(s & Hs & H)].
  - apply list_elem_of_singleton in H as ->. reflexivity.
  - apply list_elem_of_In, List.filter_In in Hs as [Hs _]. apply in_map_iff in Hs as (w & <- & _).
    rewrite to_of_list in H. apply list_elem_of_In, List.filter_In in H as [_ H]. unfold slug_char. by rewrite H.
Qed.

(** An inferred file name is plain. Whatever the task says, the name made from its words
    has at most forty characters of lower-case letters, digits and underscores before
    the extension, so it names a file directly below the root. *)
Theorem inferred_names_are_plain task skill : slug_of task ≠ [] →
  ∃ stem, infer_filename task skill = (if String.eqb skill "test_writing" then "test_" else "") +:+ of_list stem +:+ ".py"
    ∧ (0 < length stem ≤ 40)%nat ∧ Forall (λ c, slug_char c = true) stem.
Proof.
  intros Hne. exists (slug_of task). split_and!.
  - unfold infer_filename. cbv zeta. assert (Ht : truthy_str (of_list (slug_of task)) = true).
    { unfold truthy_str. destruct (slug_of task); [done|]. reflexivity. }
    rewrite Ht. simpl. by destruct (String.eqb skill "test_writing").
  - destruct (slug_of task); [done|]. simpl. lia.
  - unfold slug_of. rewrite length_rev. etransitivity; [apply drop_underscores_length|]. rewrite length_rev, length_take. lia.
  - apply Forall_forall. intros c. apply slug_chars.
Qed.

Module WorkspaceDemo.
(** Without links: [..] drops a part. *)
Definition dots (p : path) : path :=
  mk_path (root p) (rev (foldl (λ l x, if String.eqb x ".." then tail l else x :: l) [] (parts p))).
Definition no_error (_ : path) (_ : string) : bool := false.
Definition work : path := path_of "/work/".
Definition artifact_named (name : string) : jdict := [("filename", JStr name); ("content", JStr "x")].

Example path_texts : path_str (path_div work (path_of "./a//b.py")) = "/work/a/b.py"
  ∧ infer_language_from_extension "src/A.PY" = "python" ∧ infer_language_from_extension ".py" = "text".
Proof. vm_compute. done. Qed.
Example inferred : infer_filename "Write a parser for the CSV files" "code_generation" = "write_parser_csv_files.py".
Proof. vm_compute. reflexivity. Qed.
Example inside : (workspace_write dots no_error "/work" "a/../b.py" "x" []).2 = [("/work/b.py", "x")]
  ∧ (workspace_write dots no_error "/work" "../b.py" "x" []).1 = Raise ValueError.
Proof. vm_compute. done. Qed.

(** The writer the service uses does not look where a name leads: an absolute name, or
    one with dots, is written outside the workspace. *)
Example names_escape_the_workspace :
  (write_artifacts (λ _ _, None) (λ _, "") work [artifact_named "/etc/cron.d/job"; artifact_named "../job"] None []).2
  = [("/etc/cron.d/job", "x"); ("/work/../job", "x")].
Proof. vm_compute. reflexivity. Qed.
End WorkspaceDemo.
Import WorkspaceDemo.

Lemma workspace_writes_stay_inside_witness :
  changes_only (λ p, p = "/work/b.py") [] [("/work/b.py", "x")].
Proof.
  destruct (workspace_write dots no_error "/work" "a/../b.py" "x" []) as [w fs] eqn:E.
  pose proof (workspace_writes_stay_inside dots no_error "/work" "a/../b.py" "x" [] w fs E) as H.
  vm_compute in E. injection E as <- <-. destruct H as (full & _ & Hp & _ & Hc). simpl in Hp. rewrite <-Hp in Hc. exact Hc.
Defined.

Lemma inferred_names_are_plain_witness : ∃ stem, infer_filename "Write a parser" "test_writing" = "test_" +:+ of_list stem +:+ ".py"
  ∧ (length stem ≤ 40)%nat.
Proof.
  destruct (inferred_names_are_plain "Write a parser" "test_writing") as (stem & H & [_ Hl] & _); [vm_compute; discriminate|].
  exists stem. split; [exact H|exact Hl].
Defined.
