(* ===== verification/TaskText.v ===== *)
(** services/andromeda_service.py: what a submitted task is turned into before it is
    routed, that is which skill is chosen for its words, and which prompt and payload
    are made of it and of the session it continues. *)

From S2P Require Import Prelude.
From S2P Require Import PyStr.
From S2P Require Import PyTime.
From S2P Require Import Json.
From S2P Require Import PyDict.
From S2P Require Import Contracts.
From S2P Require Import Registry.
From S2P Require Import RoutingState.
From S2P Require Import Orchestrator.
From S2P Require Import ArtifactScan.
From S2P Require Import Provider.
From Stdlib Require Import Ascii.
Open Scope Z_scope.

(** [sub in s]. *)
Definition has_text (sub s : string) : bool := contains (to_list sub) (to_list s).

(** ** Skills *)

Definition SHORT_SKILL_ALIASES : list (string * string) :=
  [("code_generation", "rigel.skill.code_generation"); ("debug_triage", "rigel.skill.debug_triage");
   ("pr_review", "rigel.skill.pr_review"); ("refactor", "rigel.skill.refactor"); ("scaffold", "rigel.skill.scaffold");
   ("test_writing", "rigel.skill.test_writing");
   ("requirements_to_test_cases", "vega.skill.requirements_to_test_cases");
   ("test_case_execution", "vega.skill.test_case_execution"); ("defect_reporting", "vega.skill.defect_reporting")].

(** [_normalize_skill_id]. *)
Definition normalize_skill_id (reg : registry) (skill : string) : string :=
  if String.eqb skill "auto" || has_text "." skill then skill
  else match get_agents_for_skill skill None reg with
       | _ :: _ => skill
       | [] => or_else (assoc_get skill SHORT_SKILL_ALIASES) ("rigel.skill." +:+ skill)
       end.

Definition among_skills (skill : string) (l : list string) : bool := bool_decide (skill ∈ l).

Definition failing_case (text : string) : json :=
  JArr [JObj [("tc_id", JStr "UI-001"); ("status", JStr "fail"); ("actual_result", JStr text)]].

(** [_payload_for_skill]. *)
Definition payload_for_skill (skill text : string) : jdict :=
  [("spec", JStr text); ("task", JStr text)] ++
  (if String.eqb skill "rigel.skill.pr_review" then [("diff", JStr text)]
   else if String.eqb skill "rigel.skill.debug_triage" then [("error_trace", JStr text)]
   else if String.eqb skill "rigel.skill.test_writing" then [("code", JStr text)]
   else if String.eqb skill "rigel.skill.refactor" then [("code", JStr text); ("refactor_intent", JStr text)]
   else if String.eqb skill "rigel.skill.scaffold" then [("project_type", JStr "service"); ("stack", JStr text)]
   else if among_skills skill ["requirements_to_test_cases"; "vega.skill.requirements_to_test_cases"]
        then [("raw_requirements", JStr text); ("source_type", JStr "plain")]
   else if among_skills skill ["test_case_execution"; "vega.skill.test_case_execution"]
        then [("test_results", failing_case text)]
   else if among_skills skill ["defect_reporting"; "vega.skill.defect_reporting"]
        then [("raw_requirements", JStr text); ("test_results", failing_case text)]
   else []).

(** ** The words of a task *)

Definition any_in (markers : list string) (text : string) : bool := existsb (λ m, has_text m text) markers.

Definition CODE_MARKERS : list string := ["write"; "create"; "build"; "script"; "program"; "python"].
Definition QA_MARKERS : list string := ["test case"; "test cases"; "istqb"; "qa"; "testing"].

(** [_is_auto_route]. *)
Definition is_auto_route (skill : string) (route_mode : option string) : bool :=
  match route_mode with
  | Some m => String.eqb m "auto" && among_skills skill ["auto"; "rigel.skill.code_generation"; "code_generation"]
  | None => false
  end.

Definition needs_code_then_qa (task : string) : bool :=
  any_in CODE_MARKERS (lower task) && any_in QA_MARKERS (lower task).
Definition needs_qa_only (task : string) : bool :=
  any_in QA_MARKERS (lower task) && negb (any_in CODE_MARKERS (lower task)).

Definition SKILL_KEYWORD_RULES : list (list string * string) :=
  [(["defect report"; "bug report"; "jira ticket"; "failed test"], "vega.skill.defect_reporting");
   (["execute test"; "run test"; "test execution"; "test results"; "pass rate"; "pass/fail"], "vega.skill.test_case_execution");
   (["istqb"; "test case"; "test cases"; "test suite"; "write tests for requirement"], "vega.skill.requirements_to_test_cases");
   (["stakeholder brief"; "executive brief"; "executive summary for"; "business case"], "pm.skill.stakeholder_brief");
   (["prioriti"; "moscow"; "rice framework"; "backlog"; "feature list"], "pm.skill.prioritization");
   (["user stor"; "acceptance criteria"; "as a user"; "gherkin"; "given when then"], "pm.skill.user_stories");
   (["product requirements"; "prd"; "product requirement"; "requirements document"; "write a prd"], "pm.skill.prd");
   (["accessibility"; "wcag"; "aria"; "screen reader"; "a11y"; "color contrast"], "lumina.skill.accessibility_audit");
   (["style guide"; "brand guide"; "brand identity"; "visual identity"], "lumina.skill.style_guide");
   (["ux review"; "user experience review"; "usability"; "user flow review"; "ux audit"], "lumina.skill.ux_review");
   (["design system"; "design token"; "color token"; "typography scale"; "spacing token"], "lumina.skill.design_system");
   (["ui component"; "react component"; "vue component"; "generate component"; "component for"],
     "lumina.skill.component_generation");
   (["debug"; "error trace"; "stack trace"; "typeerror"; "exception"; "crash"; "fix bug"; "bug in"], "rigel.skill.debug_triage");
   (["code review"; "pr review"; "pull request review"; "review this"; "review the"], "rigel.skill.pr_review");
   (["refactor"; "clean up"; "extract"; "decompose"; "make composable"], "rigel.skill.refactor");
   (["unit test"; "write test"; "testing library"; "jest"; "pytest"; "mocha"], "rigel.skill.test_writing");
   (["scaffold"; "boilerplate"; "project structure"; "file structure"; "set up a project"], "rigel.skill.scaffold")].

Fixpoint first_rule (rules : list (list string * string)) (text : string) : option string :=
  match rules with
  | [] => None
  | (keywords, skill) :: rules => if any_in keywords text then Some skill else first_rule rules text
  end.
Definition keyword_classify_skill (task : string) : option string := first_rule SKILL_KEYWORD_RULES (lower task).

(** The skill [post_task] settles on when it does not run both steps. *)
Definition choose_skill (reg : registry) (task skill : string) (route_mode : option string) : string :=
  let skill := normalize_skill_id reg skill in
  normalize_skill_id reg
    (if is_auto_route skill route_mode then
       match keyword_classify_skill task with
       | Some k => normalize_skill_id reg k
       | None => if needs_qa_only task then "vega.skill.requirements_to_test_cases" else "rigel.skill.code_generation"
       end
     else skill).

(** ** Sessions *)

Record session_item := mk_item {
  si_role : option string;
  si_content : string;
  si_skill : option string;
  si_agent : option string;
  si_status : option string;
  si_confidence : option Q }.

Definition newline : string := String (ascii_of_nat 10) "".
Definition blank_line : string := newline +:+ newline.

Definition cut (n : Z) (s : string) : string := of_list (take (Z.to_nat n) (to_list s)).
Definition str_len (s : string) : Z := Z.of_nat (String.length s).

Definition truncate_context_value (value : string) : string :=
  let value := strip value in
  if str_len value <=? 5000 then value else cut 5000 value +:+ blank_line +:+ "[truncated]".

Definition truthy_text (o : option string) : option string :=
  match o with Some s => if truthy_str s then Some s else None | None => None end.

Definition meta_of (i : session_item) : list string :=
  omap id [(λ s, "skill=" +:+ s) <$> truthy_text (si_skill i); (λ s, "agent=" +:+ s) <$> truthy_text (si_agent i);
           (λ s, "status=" +:+ s) <$> truthy_text (si_status i); (λ q, "confidence=" +:+ fmt2 q) <$> si_confidence i].

(** One part; items without content are left out, but numbered. *)
Definition format_item (index : Z) (i : session_item) : option string :=
  let content := truncate_context_value (si_content i) in
  if truthy_str content then
    let label := or_else (truthy_text (si_role i)) "message" in
    let suffix := match meta_of i with [] => "" | m => " (" +:+ join ", " m +:+ ")" end in
    Some ("[" +:+ py_int index +:+ "] " +:+ label +:+ suffix +:+ newline +:+ content)
  else None.

Fixpoint format_items (index : Z) (l : list session_item) : list string :=
  match l with
  | [] => []
  | i :: l => match format_item index i with Some s => [s] | None => [] end ++ format_items (index + 1) l
  end.

(** [session_context\[-12:\]]. *)
Definition last_items (l : list session_item) : list session_item := drop (length l - 12) l.

Definition format_session_context (l : list session_item) : string := join blank_line (format_items 1 (last_items l)).

Definition task_text_with_session_context (task : string) (l : list session_item) : string :=
  let formatted := format_session_context l in
  if truthy_str formatted then
    "This request is part of an existing Task UI session. Continue the same task unless "
    +:+ "the current user message explicitly starts a new one. Use the prior user request "
    +:+ "and prior agent output as context for revision, redo, threshold, or follow-up requests. "
    +:+ "The current user message is authoritative for the requested operation, values, and output." +:+ blank_line
    +:+ "Current user message:" +:+ newline +:+ strip task +:+ blank_line
    +:+ "Prior Task UI session context:" +:+ newline +:+ formatted
  else task.

(** ** Prompts *)

(** The text before the first match, if there is one. *)
Fixpoint before_match (r : regex) (prev : option ascii) (l : list ascii) : option (list ascii) :=
  match ends r (prev, l) with
  | _ :: _ => Some []
  | [] => match l with c :: l' => (c ::.) <$> before_match r (Some c) l' | [] => None end
  end.

Definition then_words : regex := one_of
  [in_order [Boundary; any_case "then"; Boundary]; in_order [Boundary; any_case "after that"; Boundary];
   in_order [Boundary; any_case "using same requirements"; Boundary]].

Definition implementation_prompt (task : string) : string :=
  let part := strip (of_list (or_else (before_match then_words None (to_list task)) (to_list task))) in
  let part := if truthy_str part then part else strip task in
  "Implement only the Python program requested below. "
  +:+ "Do not create test cases, unit tests, QA artifacts, or ISTQB documentation in this step." +:+ blank_line
  +:+ "Implementation request:" +:+ newline +:+ part.

Definition truncate_for_agent_context (value : string) : string :=
  if str_len value <=? 12000 then value
  else cut 12000 value +:+ blank_line +:+ "[truncated for downstream QA context]".

Definition qa_prompt (text code : string) : string :=
  "Create ISTQB-style test cases from these requirements and the generated implementation." +:+ newline
  +:+ "Do not rewrite the implementation. Produce QA/test-case output only." +:+ newline
  +:+ "Create no more than 6 high-value test cases covering positive, negative, and edge paths." +:+ blank_line
  +:+ "Original user request and session context:" +:+ newline +:+ text +:+ blank_line
  +:+ "Generated implementation from Rigel:" +:+ newline +:+ code +:+ blank_line
  +:+ "Required QA output: ISTQB-style test cases for this implementation and its requirements.".

(** ** Properties *)

Lemma contains_spec n l : contains n l = true ↔ ∃ a b, l = a ++ n ++ b.
Proof.
  split.
  - induction l as [|c l IH]; simpl; rewrite orb_true_iff, bool_decide_eq_true.
    + intros [H|]; [|done]. exists [], []. rewrite app_nil_r. by rewrite take_nil in H.
    + intros [H|H]; [exists [], (drop (length n) (c :: l)); simpl; rewrite <-H at 1; by rewrite take_drop|].
      destruct (IH H) as (a & b & ->). by exists (c :: a), b.
  - intros (a & b & ->). induction a as [|c a IH]; simpl.
    + destruct (n ++ b) eqn:E; simpl; rewrite orb_true_iff; left; apply bool_decide_eq_true; rewrite <-E; by rewrite take_app_length.
    + rewrite IH. by rewrite orb_true_r.
Qed.

Lemma has_text_spec sub s : has_text sub s = true ↔ ∃ a b, to_list s = a ++ to_list sub ++ b.
Proof. apply contains_spec. Qed.

(** The keyword occurs in the text. *)
Definition occurs (keyword text : string) : Prop := ∃ a b, to_list text = a ++ to_list keyword ++ b.

Lemma any_in_spec ms text : any_in ms text = true ↔ ∃ m, m ∈ ms ∧ occurs m text.
Proof.
  unfold any_in. rewrite existsb_exists. split; intros (m & Hm & H); exists m; (split; [by apply list_elem_of_In|by apply has_text_spec]).
Qed.

(** A task is classified by its first rule: the skill found for its words is that of the
    first rule of the table one of whose keywords occurs in the lowered text, anywhere,
    also inside a word; and none is found exactly when no keyword of any rule occurs. *)
Theorem classified_by_the_first_rule task :
  match keyword_classify_skill task with
  | Some skill => ∃ pre keywords post, SKILL_KEYWORD_RULES = pre ++ (keywords, skill) :: post
      ∧ (∃ k, k ∈ keywords ∧ occurs k (lower task))
      ∧ ∀ ks s k, (ks, s) ∈ pre → k ∈ ks → ~ occurs k (lower task)
  | None => ∀ ks s k, (ks, s) ∈ SKILL_KEYWORD_RULES → k ∈ ks → ~ occurs k (lower task)
  end.
Proof.
  unfold keyword_classify_skill. generalize SKILL_KEYWORD_RULES. intros rules.
  induction rules as [|[ks s] rules IH]; [by intros ? ? ? ?%elem_of_nil|]. simpl.
  destruct (any_in ks (lower task)) eqn:E.
  - exists [], ks, rules. split; [done|]. split; [by apply any_in_spec|]. by intros ? ? ? ?%elem_of_nil.
  - assert (Hno : ∀ k, k ∈ ks → ~ occurs k (lower task)).
    { intros k Hk Ho. assert (any_in ks (lower task) = true); [|congruence]. apply any_in_spec. by exists k. }
    destruct (first_rule rules (lower task)) as [skill|].
    + destruct IH as (pre & kw & post & -> & Hk & Hpre). exists ((ks, s) :: pre), kw, post. split; [done|]. split; [done|].
      intros ks' s' k [[= -> ->]|Hin]%elem_of_cons; [by apply Hno|by eapply Hpre].
    + intros ks' s' k [[= -> ->]|Hin]%elem_of_cons; [by apply Hno|by eapply IH].
Qed.

(** Substrings, not words: a task about variables is sent to the accessibility audit. *)
Example a_variable_is_no_screen_reader_attribute :
  keyword_classify_skill "Swap two variables in a function" = Some "lumina.skill.accessibility_audit"
  ∧ needs_code_then_qa "Write a script that lists the weather of Qatar" = true.
Proof. vm_compute. done. Qed.

Lemma normalize_dotted reg s : has_text "." s = true → normalize_skill_id reg s = s.
Proof. intros H. unfold normalize_skill_id. by rewrite H, orb_true_r. Qed.

Lemma aliases_dotted s x : assoc_get s SHORT_SKILL_ALIASES = Some x → has_text "." x = true.
Proof.
  intros H. apply assoc_get_in in H. revert s x H.
  assert (Hall : Forall (λ kv, has_text "." kv.2 = true) SHORT_SKILL_ALIASES) by (repeat constructor).
  intros s x H. by apply (proj1 (Forall_forall _ _) Hall (s, x)).
Qed.

(** Normalising a skill is idempotent: the three times [post_task] does it count as one. *)
Theorem normalize_idempotent reg s : normalize_skill_id reg (normalize_skill_id reg s) = normalize_skill_id reg s.
Proof.
  unfold normalize_skill_id at 2 3. destruct (String.eqb s "auto" || has_text "." s) eqn:E; [unfold normalize_skill_id; by rewrite E|].
  destruct (get_agents_for_skill s None reg) as [|m l] eqn:Er; [|unfold normalize_skill_id; by rewrite E, Er].
  apply normalize_dotted. destruct (assoc_get s SHORT_SKILL_ALIASES) as [x|] eqn:Ea; [by eapply aliases_dotted|].
  apply has_text_spec. exists (to_list "rigel"), (to_list "skill." ++ to_list s). reflexivity.
Qed.

Lemma format_items_length l : ∀ i, (length (format_items i l) ≤ length l)%nat.
Proof. induction l as [|x l IH]; intros i; simpl; [done|]. rewrite length_app. specialize (IH (i + 1)). destruct (format_item i x); simpl; lia. Qed.

Lemma str_len_app a b : str_len (a +:+ b) = str_len a + str_len b.
Proof. unfold str_len. induction a as [|c a IH]; [done|]. simpl in *. lia. Qed.

(** A session adds a bounded context: at most the last twelve messages, each cut to five
    thousand characters and a note that it was. *)
Theorem sessions_are_bounded l : (length (format_items 1 (last_items l)) ≤ 12)%nat
  ∧ ∀ i, i ∈ last_items l → str_len (truncate_context_value (si_content i)) <= 5013.
Proof.
  split.
  - etransitivity; [apply format_items_length|]. unfold last_items. rewrite length_drop. lia.
  - intros i _. unfold truncate_context_value. cbv zeta. destruct (Z.leb_spec (str_len (strip (si_content i))) 5000); [lia|].
    rewrite !str_len_app. assert (H1 : str_len (cut 5000 (strip (si_content i))) <= 5000).
    { unfold str_len, cut. rewrite length_of_list, length_take. lia. }
    change (str_len blank_line) with 2. change (str_len "[truncated]") with 11. lia.
Qed.
