(* ===== verification/RigelExecution.v ===== *)
(** agents/rigel/execution.py: running generated code in a container.

    The commands given to the container engine are recorded in order; what the engine
    answers is an argument, as are what a path resolves to, the temporary directory, the
    name of the container and the time a run takes. An output the engine captured is the
    text [_coerce_output] makes of it. *)

From S2P Require Import Prelude.
From S2P Require Import PyStr.
From S2P Require Import Json.
From S2P Require Import Provider.
From S2P Require Import Security.
From S2P Require Import Workspace.
From Stdlib Require Import Ascii.
Open Scope Z_scope.

Record NetworkPolicy := mk_network {
  np_mode : string;
  np_allowlist : list string;
  np_approved : bool }.

Definition default_network : NetworkPolicy := mk_network "deny-all" [] false.

(** [NetworkPolicy.validate]. *)
Definition validate_network (p : NetworkPolicy) : result unit :=
  let listed := match np_allowlist p with [] => false | _ => true end in
  rguard (negb (String.eqb (np_mode p) "deny-all" && listed)) ValueError;;
  rguard (negb (String.eqb (np_mode p) "allowlist" && (negb listed || negb (np_approved p)))) ValueError.

Record ExecutionResult := mk_execution {
  ex_exit_code : Z;
  ex_stdout : string;
  ex_stderr : string;
  ex_outcome : string;
  ex_duration_ms : Z;
  ex_executed_from : string;
  ex_network_policy : string }.

(** What running a command comes to: it ended, it was killed at the time limit, it could
    not be started (an [OSError]), or another exception with its text. *)
Inductive engine_answer :=
  | Completed (code : Z) (stdout stderr : option string)
  | TimedOut (stdout stderr : option string)
  | Unstartable
  | Broken (message : string).

(** *** Files *)

(** [repr] of a text without quotes. *)
Definition plain_repr (s : string) : string := "'" +:+ s +:+ "'".

Definition runner_lines (test_filename : string) : list string :=
  ["import asyncio";
   "import importlib.util";
   "import inspect";
   "import pathlib";
   "import sys";
   "import traceback";
   "";
   "ROOT = pathlib.Path(__file__).resolve().parent";
   "TEST_PATH = ROOT / " +:+ plain_repr test_filename;
   "";
   "def _load_module(name, path):";
   "    spec = importlib.util.spec_from_file_location(name, path)";
   "    if spec is None or spec.loader is None:";
   "        raise RuntimeError(f" +:+ quote +:+ "Unable to load module {name} from {path}" +:+ quote +:+ ")";
   "    module = importlib.util.module_from_spec(spec)";
   "    sys.modules[name] = module";
   "    spec.loader.exec_module(module)";
   "    return module";
   "";
   "try:";
   "    module = _load_module(" +:+ quote +:+ "test_generated" +:+ quote +:+ ", TEST_PATH)";
   "    tests = []";
   "    for name, value in vars(module).items():";
   "        if name.startswith(" +:+ quote +:+ "test_" +:+ quote +:+ ") and callable(value):";
   "            tests.append((name, value))";
   "";
   "    if not tests:";
   "        print(" +:+ quote +:+ "no tests discovered" +:+ quote +:+ ", file=sys.stderr)";
   "        sys.exit(1)";
   "";
   "    for name, test_fn in tests:";
   "        result = test_fn()";
   "        if inspect.isawaitable(result):";
   "            asyncio.run(result)";
   "        print(f" +:+ quote +:+ "PASS {name}" +:+ quote +:+ ")";
   "";
   "    sys.exit(0)";
   "except AssertionError:";
   "    traceback.print_exc()";
   "    sys.exit(1)";
   "except Exception:";
   "    traceback.print_exc()";
   "    sys.exit(1)"].

Definition eol : string := String (ascii_of_nat 10) "".

(** [_runner_source]. *)
Definition runner_source (test_filename : string) : string := join eol (runner_lines test_filename) +:+ eol.

(** [prefix + v]. *)
Definition concat_json (prefix : string) (v : json) : result json :=
  match v with JStr s => Ok (JStr (prefix +:+ s)) | _ => Raise TypeError end.

(** [_build_execution_files]: the contents are written as they are, whatever their type. *)
Definition build_execution_files (skill : string) (payload r : jdict) : result (option (list (string * json))) :=
  let files module code tests :=
    if negb (truthy code) || negb (truthy tests) then Ok None
    else
      t ← concat_json ("from " +:+ module +:+ " import *" +:+ eol +:+ eol) tests;
      Ok (Some [(module +:+ ".py", code); ("test_generated.py", t); ("runner.py", JStr (runner_source "test_generated.py"))]) in
  if String.eqb skill "rigel.skill.code_generation" then
    let language := obj_default "language" (obj_default "language" (JStr "python") payload) r in
    if negb (is_str language "python") then Ok None
    else files "generated_module" (obj_field "code" r) (jor (obj_field "tests" payload) (obj_field "test_code" payload))
  else if String.eqb skill "rigel.skill.test_writing" then
    files "source_module" (obj_field "code" payload) (obj_field "tests" r)
  else Ok None.

Section Execution.
Context (resolve : path → path) (engine : list string → engine_answer).
Context (container_name : string) (elapsed_ms : Z) (message : exn → string).
(** The temporary directory with these files, [Raise OSError] when it cannot be made, and
    [TypeError] for a content that is no text. *)
Context (temp_dir : list (string * json) → result path).

(** [_docker_workspace_run_command]; the limits are those of [ResourceLimits]. *)
Definition docker_workspace_run_command (workspace : path) (image : string) (script : path) (np : NetworkPolicy) :
    result (list string) :=
  validate_network np;;
  let command := ["python"; path_str (path_div (path_of "/workspace") script)] in
  validate_command default_execution_policy command;;
  let workspace_path := path_str (resolve workspace) in
  Ok (["docker"; "run"; "--rm"; "--name"; container_name; "--network"; "none"; "--read-only"; "--cap-drop"; "ALL";
       "--security-opt"; "no-new-privileges"; "--pids-limit"; "64"; "--memory"; "256m"; "--cpus"; "0.5";
       "--user"; "65534:65534";
       "--mount"; "type=bind,src=" +:+ workspace_path +:+ ",dst=/workspace,readonly";
       "--workdir"; "/workspace"; "-e"; "PYTHONDONTWRITEBYTECODE=1"; image] ++ command).

(** [_docker_run_command]. *)
Definition docker_run_command (workspace : path) (image : string) (np : NetworkPolicy) : result (list string) :=
  docker_workspace_run_command workspace image (path_of "runner.py") np.

Definition coerce_output (v : option string) : string := or_else v "".

(** [_docker_unavailable]. *)
Definition docker_unavailable (stderr : string) : bool :=
  let lowered := to_list (lower stderr) in
  existsb (λ m, contains (to_list m) lowered)
    ["cannot connect to the docker daemon"; "error during connect";
     "permission denied while trying to connect to the docker api"; "is the docker daemon running"; "docker.sock"].

Local Abbreviation trace := (list (list string)).

(** [subprocess.run]. *)
Definition subprocess_run (command : list string) : M trace engine_answer := λ t, (Ok (engine command), t ++ [command]).

(** [_cleanup_container]. *)
Definition cleanup_container : M trace unit := λ t, (Ok tt, t ++ [["docker"; "rm"; "-f"; container_name]]).

Definition not_completed (np : NetworkPolicy) (outcome stdout stderr : string) : ExecutionResult :=
  mk_execution (-1) stdout stderr outcome elapsed_ms "sandbox" (np_mode np).

(** The [except] clauses of a run: the code, the two outputs, or the result to return. *)
Definition guarded_run (np : NetworkPolicy) (command : result (list string)) :
    M trace (ExecutionResult + (Z * string * string)) :=
  match command with
  | Raise PermissionError | Raise OSError => mraise ExecutionSandboxUnavailable
  | Raise e => mret (inl (not_completed np "error" "" (message e)))
  | Ok command =>
      answer ← subprocess_run command;
      match answer with
      | Completed code out err => mret (inr (code, or_else out "", or_else err ""))
      | TimedOut out err =>
          cleanup_container;; mret (inl (not_completed np "timeout" (coerce_output out) (coerce_output err)))
      | Unstartable => mraise ExecutionSandboxUnavailable
      | Broken m => mret (inl (not_completed np "error" "" m))
      end
  end.

Definition completed_run (np : NetworkPolicy) (code : Z) (out err : string) : ExecutionResult :=
  mk_execution code out err (if code =? 0 then "pass" else "fail") elapsed_ms "sandbox" (np_mode np).

(** [p.relative_to(base)]. *)
Definition relative_to (p base : path) : option path :=
  if is_relative_to p base then Some (mk_path "" (drop (length (parts base)) (parts p))) else None.

(** [_execute_in_workspace]. *)
Definition execute_in_workspace (file_path workspace_root image : string) (np : NetworkPolicy) : M trace ExecutionResult :=
  match relative_to (resolve (path_of file_path)) (resolve (path_of workspace_root)) with
  | None => mret (mk_execution (-1) "" "execution file escapes workspace" "error" 0 "sandbox" (np_mode np))
  | Some relative_file =>
      r ← guarded_run np (docker_workspace_run_command (path_of workspace_root) image relative_file np);
      match r with
      | inl res => mret res
      | inr (code, out, err) => mret (completed_run np code out err)
      end
  end.

(** [execute_generated_output]. *)
Definition execute_generated_output (skill : string) (payload r : jdict) (image : string)
    (workspace_root file_path : option string) (network : option NetworkPolicy) : M trace (option ExecutionResult) :=
  let np := or_else network default_network in
  mlift (validate_network np);;
  match workspace_root with
  | Some ws =>
      match file_path with
      | None => mret None
      | Some f => res ← execute_in_workspace f ws image np; mret (Some res)
      end
  | None =>
      files ← mlift (build_execution_files skill payload r);
      match files with
      | None => mret None
      | Some files =>
          a ← guarded_run np (d ← temp_dir files; docker_run_command d image np);
          match a with
          | inl res => mret (Some res)
          | inr (code, out, err) =>
              mguard (negb ((code =? 125) || docker_unavailable err)) ExecutionSandboxUnavailable;;
              mret (Some (completed_run np code out err))
          end
      end
  end.

(** ** Properties *)

(** A command that removes a container, or runs one that is locked down: no network, a
    read-only root, no capabilities or new privileges, limits on processes, memory and
    time, an unprivileged user, and one bind mount, which is read-only. *)
Definition confined (image : string) (command : list string) : Prop :=
  command = ["docker"; "rm"; "-f"; container_name]
  ∨ ∃ mounted script,
      command = ["docker"; "run"; "--rm"; "--name"; container_name; "--network"; "none"; "--read-only"; "--cap-drop"; "ALL";
        "--security-opt"; "no-new-privileges"; "--pids-limit"; "64"; "--memory"; "256m"; "--cpus"; "0.5";
        "--user"; "65534:65534"; "--mount"; "type=bind,src=" +:+ mounted +:+ ",dst=/workspace,readonly";
        "--workdir"; "/workspace"; "-e"; "PYTHONDONTWRITEBYTECODE=1"; image; "python"; script]
      ∧ existsb interpolates ["python"; script] = false.

Lemma run_command_confined ws image script np c :
  docker_workspace_run_command ws image script np = Ok c → confined image c.
Proof.
  unfold docker_workspace_run_command, validate_command. intros Hc. rok. right. eexists _, _.
  split; [reflexivity|]. by apply negb_true_iff.
Qed.

Lemma guarded_run_spec np command image t x t' : (∀ c, command = Ok c → confined image c) →
  guarded_run np command t = (x, t') → ∃ cmds, t' = t ++ cmds ∧ Forall (confined image) cmds
  ∧ match x with
    | Ok (inl r) => ex_outcome r = "timeout" ∨ ex_outcome r = "error"
    | Ok (inr (code, out, err)) => ∃ c o e, c ∈ cmds ∧ engine c = Completed code o e
    | Raise e => e = ExecutionSandboxUnavailable
    end.
Proof.
  intros Hc. unfold guarded_run, subprocess_run, cleanup_container. munfold.
  destruct command as [c|e]; [|destruct e; intros [= <- <-]; exists []; rewrite app_nil_r; by auto].
  specialize (Hc c eq_refl). destruct (engine c) as [code o e|o e| |m] eqn:Ee; intros [= <- <-].
  - exists [c]. split_and!; [done|by constructor|]. exists c, o, e. split; [by left|done].
  - exists [c; ["docker"; "rm"; "-f"; container_name]]. rewrite <-app_assoc. split_and!; [done| |by left].
    constructor; [done|]. constructor; [by left|done].
  - exists [c]. split_and!; [done|by constructor|done].
  - exists [c]. split_and!; [done|by constructor|by right].
Qed.

Lemma completed_pass np code out err : ex_outcome (completed_run np code out err) = "pass" → code = 0.
Proof. unfold completed_run. simpl. by destruct (Z.eqb_spec code 0). Qed.

(** Generated code runs confined, and a pass is earned. Whatever it is given, an
    execution runs commands only to remove its container or to run it locked down; and a
    result that says pass stands on a container of that kind that ended with exit code
    zero. *)
Theorem generated_code_runs_confined skill payload r image ws file np t x t' :
  execute_generated_output skill payload r image ws file np t = (x, t') →
  ∃ cmds, t' = t ++ cmds ∧ Forall (confined image) cmds
  ∧ ∀ res, x = Ok (Some res) → ex_outcome res = "pass" →
      ex_exit_code res = 0 ∧ ∃ c o e, c ∈ cmds ∧ engine c = Completed 0 o e.
Proof.
  intros H. assert (Hnil : ∀ y : result (option ExecutionResult), (y, t) = (x, t') →
    (∀ res, y = Ok (Some res) → ex_outcome res ≠ "pass") →
    ∃ cmds, t' = t ++ cmds ∧ Forall (confined image) cmds
    ∧ ∀ res, x = Ok (Some res) → ex_outcome res = "pass" →
        ex_exit_code res = 0 ∧ ∃ c o e, c ∈ cmds ∧ engine c = Completed 0 o e).
  { intros y [= -> ->] Hn. exists []. rewrite app_nil_r. split_and!; [done..|]. intros res Hres Hp. by destruct (Hn res). }
  unfold execute_generated_output, execute_in_workspace in H. munfold. destruct (validate_network _); [|by eapply Hnil].
  destruct ws as [w|].
  - destruct file as [f|]; [|by eapply Hnil].
    destruct (relative_to _ _) as [rel|]; [|by eapply Hnil; [exact H|]; intros res [= <-]].
    destruct (guarded_run _ _ t) as [y t1] eqn:E. apply guarded_run_spec with (image := image) in E as (cmds & -> & Hc & Hy);
      [|intros c; apply run_command_confined].
    exists cmds. destruct y as [[res|[[code out] err]]|e]; injection H as <- <-; (split_and!; [done|done|]); [| |done].
    + intros res' [= <-] Hp. destruct Hy; congruence.
    + intros res [= <-] Hp. by apply completed_pass in Hp as ->.
  - destruct (build_execution_files _ _ _) as [[files|]|]; [|by eapply Hnil..].
    destruct (guarded_run _ _ t) as [y t1] eqn:E. apply guarded_run_spec with (image := image) in E as (cmds & -> & Hc & Hy);
      [|intros c Hd; apply rbind_ok in Hd as (d & _ & Hd); by apply run_command_confined in Hd].
    exists cmds. destruct y as [[res|[[code out] err]]|e]; simpl in H.
    + injection H as <- <-. split_and!; [done..|]. intros res' [= <-] Hp. destruct Hy; congruence.
    + destruct (negb _) in H; injection H as <- <-; (split_and!; [done..|]); [|done].
      intros res [= <-] Hp. by apply completed_pass in Hp as ->.
    + injection H as <- <-. by split_and!.
Qed.
End Execution.

(** ** Witnesses *)

Module ExecutionDemo.
Definition payload : jdict := [("spec", JStr "add"); ("tests", JStr "def test_one(): assert f() == 1")].
Definition code : jdict := [("code", JStr "def f(): return 1"); ("language", JStr "python")].
Definition temp (files : list (string * json)) : result path := Ok (path_of "/tmp/rigel-exec-1").
Definition run (engine : list string → engine_answer) (ws file : option string) : result (option ExecutionResult) * list (list string) :=
  execute_generated_output (λ p, p) engine "rigel-exec-1" 5 (λ _, "denied") temp "rigel.skill.code_generation" payload code
    "galaxz:latest" ws file None [].
Definition ok (_ : list string) : engine_answer := Completed 0 None None.
Definition no_daemon (_ : list string) : engine_answer := Completed 125 None (Some "Cannot connect to the Docker daemon").
Definition outcome_of (r : result (option ExecutionResult)) : result (option string) := match r with Ok o => Ok (ex_outcome <$> o) | Raise e => Raise e end.

Example passes : outcome_of (run ok None None).1 = Ok (Some "pass") ∧ length (run ok None None).2 = 1%nat.
Proof. vm_compute. done. Qed.

(** Without an engine the temporary run is unavailable, which is no verdict on the code; the
    run of a file of the workspace counts it as failing code. *)
Example a_missing_engine_fails_the_code :
  (run no_daemon None None).1 = Raise ExecutionSandboxUnavailable
  ∧ outcome_of (run no_daemon (Some "/work") (Some "/work/a.py")).1 = Ok (Some "fail").
Proof. vm_compute. done. Qed.

(** A file name the execution policy denies is reported as a sandbox that is missing. *)
Example a_denied_command_is_unavailable :
  run ok (Some "/work") (Some "/work/a;b.py") = (Raise ExecutionSandboxUnavailable, []).
Proof. vm_compute. done. Qed.
End ExecutionDemo.
Import ExecutionDemo.

Lemma generated_code_runs_confined_witness : ∃ cmds, (run ok None None).2 = cmds
  ∧ Forall (confined "rigel-exec-1" "galaxz:latest") cmds.
Proof.
  unfold run. destruct (execute_generated_output _ _ _ _ _ _ _ _ _ _ _ _ _ _) as [x t'] eqn:E.
  destruct (generated_code_runs_confined _ _ _ _ _ _ _ _ _ _ _ _ _ _ _ _ E) as (cmds & -> & Hc & _).
  exists cmds. split; [reflexivity|exact Hc].
Defined.
