(* ===== verification/Rigel.v ===== *)
(** agents/rigel: the skills, reading a model's answer, and [RigelAgent.run] of agent.py
    with its effects on the workspace, the container engine and the feedback stream.

    The language model, [json.loads], the Python parser and [str] of a JSON value are
    arguments; so is whether Redis takes an event, whose address is assumed well-formed. *)

From S2P Require Import Prelude.
From S2P Require Import PyStr.
From S2P Require Import PyTime.
From S2P Require Import Json.
From S2P Require Import PyDict.
From S2P Require Import Contracts.
From S2P Require Import Planner.
From S2P Require Import Completion.
From S2P Require Import Feedback.
From S2P Require Import Confidence.
From S2P Require Import ArtifactScan.
From S2P Require Import Workspace.
From S2P Require Import RigelExecution.
From Stdlib Require Import Ascii.
Open Scope Z_scope.

(** ** The text of an answer *)

(** [_fix_escapes]: a backslash before a character that JSON does not escape is doubled. *)
Definition escapable (c : ascii) : bool := bool_decide (c ∈ dquote :: to_list "\/bfnrtu").
Fixpoint fix_escapes_list (l : list ascii) : list ascii :=
  match l with
  | c :: ((d :: l'') as l') =>
      if Ascii.eqb c "\" && negb (escapable d) then "\"%char :: "\"%char :: d :: fix_escapes_list l''
      else c :: fix_escapes_list l'
  | l => l
  end.
Definition fix_escapes (s : string) : string := of_list (fix_escapes_list (to_list s)).

(** The text up to three quotes in a row, and what follows them. *)
Definition three_quotes (l : list ascii) : bool :=
  match l with a :: b :: c :: _ => Ascii.eqb a dquote && Ascii.eqb b dquote && Ascii.eqb c dquote | _ => false end.
Fixpoint until_quotes (l : list ascii) : option (list ascii * list ascii) :=
  if three_quotes l then Some ([], drop 3 l)
  else match l with
       | [] => None
       | c :: l => '(a, b) ← until_quotes l; Some (c :: a, b)
       end.

(** [escape_content], without the quotes around. *)
Definition json_escape (c : ascii) : list ascii :=
  if Ascii.eqb c "\" then ["\"; "\"]%char
  else if Ascii.eqb c dquote then ["\"%char; dquote]
  else let n := nat_of_ascii c in
  (if n =? 10 then ["\"; "n"]%char else if n =? 13 then ["\"; "r"]%char else if n =? 9 then ["\"; "t"]%char else [c])%nat.

(** [_fix_triple_quotes]; the fuel is the length of the text. *)
Fixpoint fix_triple_from (fuel : nat) (l : list ascii) : list ascii :=
  match fuel, l with
  | S fuel, c :: l' =>
      if three_quotes l then
        match until_quotes (drop 3 l) with
        | Some (content, rest) => dquote :: flat_map json_escape content ++ dquote :: fix_triple_from fuel rest
        | None => c :: fix_triple_from fuel l'
        end
      else c :: fix_triple_from fuel l'
  | _, _ => l
  end.
Definition fix_triple_quotes (s : string) : string := of_list (fix_triple_from (String.length s) (to_list s)).

(** The shortest prefix in which the braces, the first of them open, are closed again. *)
Fixpoint balanced_prefix (depth : Z) (l : list ascii) : option (list ascii) :=
  match l with
  | [] => None
  | c :: l =>
      let depth := if Ascii.eqb c "{" then depth + 1 else if Ascii.eqb c "}" then depth - 1 else depth in
      if Ascii.eqb c "}" && (depth =? 0) then Some [c]
      else (cons c) <$> balanced_prefix depth l
  end.

(** ** The names of files *)

(** [s.split(sep)\[0\]]. *)
Fixpoint first_piece (sep : list ascii) (l : list ascii) : list ascii :=
  if startswith (of_list l) (of_list sep) then []
  else match l with [] => [] | c :: l => c :: first_piece sep l end.
Definition before_first (sep s : string) : string := of_list (first_piece (to_list sep) (to_list s)).

(** The runs of lower-case letters and digits. *)
Fixpoint plain_words_from (cur : list ascii) (l : list ascii) : list string :=
  match l with
  | [] => match cur with [] => [] | _ => [of_list (rev cur)] end
  | c :: l =>
      if plain_char c then plain_words_from (c :: cur) l
      else match cur with [] => plain_words_from [] l | _ => of_list (rev cur) :: plain_words_from [] l end
  end.
Definition plain_words (s : string) : list string := plain_words_from [] (to_list s).

Definition FILLER_WORDS : list string :=
  ["create"; "generate"; "write"; "build"; "a"; "an"; "the"; "code"; "python"; "program"; "function"; "that"; "to";
   "for"; "in"; "of"; "please"].

Definition rstrip_underscores (l : list ascii) : list ascii := rev (drop_underscores (rev l)).

(** An underscore before every capital but the first character, then in lower case. *)
Definition snake_case (name : string) : string :=
  match to_list name with
  | [] => ""
  | c :: l => lower (of_list (c :: flat_map (λ c, if is_upper c then ["_"%char; c] else [c]) l))
  end.

Definition CODE_EXTENSIONS : list (string * string) :=
  [("python", ".py"); ("javascript", ".js"); ("typescript", ".ts"); ("java", ".java"); ("go", ".go"); ("rust", ".rs");
   ("html", ".html"); ("css", ".css"); ("bash", ".sh"); ("c", ".c"); ("cpp", ".cpp")].

Definition ARTIFACT_LANGUAGES : list (string * string) :=
  [(".py", "python"); (".ts", "typescript"); (".tsx", "typescript"); (".js", "javascript"); (".jsx", "javascript");
   (".go", "go"); (".rs", "rust"); (".java", "java"); (".yaml", "yaml"); (".yml", "yaml"); (".json", "json");
   (".md", "markdown"); (".sh", "bash"); (".html", "html"); (".css", "css")].

(** [_infer_language]. *)
Definition infer_language (filename : string) : string :=
  or_else (assoc_get (lower (suffix_of (path_of filename))) ARTIFACT_LANGUAGES) "text".

(** The words of the current request that are no filler, at most sixty characters of them. *)
Definition name_from_spec (spec : string) : string :=
  let spec := before_first (eol +:+ eol +:+ "Prior Task UI session context:") (after_last ("Current user message:" +:+ eol) spec) in
  let name := of_list (rstrip_underscores (take 60 (to_list (join "_"
    (List.filter (λ w, negb (bool_decide (w ∈ FILLER_WORDS))) (plain_words (lower spec))))))) in
  if truthy_str name then name else "generated_module".

(** ** Answers of the skills *)

(** Iterating over a value: a text gives its characters, an object its keys. *)
Definition iter_json (v : json) : result (list json) :=
  match v with
  | JArr l => Ok l
  | JStr s => Ok (map (λ c, JStr (of_list [c])) (to_list s))
  | JObj d => Ok (map (λ kv : string * json, JStr kv.1) d)
  | _ => Raise TypeError
  end.

(** [sep.join(v)]. *)
Definition join_json (sep : string) (v : json) : result string :=
  l ← iter_json v;
  l ← rmap (λ x, match x with JStr s => Ok s | _ => Raise TypeError end) l;
  Ok (join sep l).

(** [v\[k\]] of a value that should be an object. *)
Definition item (k : string) (v : json) : result json :=
  match v with JObj d => of_option KeyError (obj_get k d) | _ => Raise TypeError end.

(** [text.count(sub)]. *)
Fixpoint count_from (sub : list ascii) (skip : nat) (l : list ascii) : Z :=
  match l with
  | [] => 0
  | _ :: l' =>
      match skip with
      | S skip => count_from sub skip l'
      | O => if startswith (of_list l) (of_list sub) then 1 + count_from sub (pred (length sub)) l'
             else count_from sub 0 l'
      end
  end.
Definition count_text (sub s : string) : Z := count_from (to_list sub) 0 (to_list s).

Record normalized := mk_normalized {
  n_artifacts : list jdict;
  n_summary : json;
  n_writable : bool }.

Definition artifact_dict (filename content language artifact_type : json) : jdict :=
  [("filename", filename); ("content", content); ("language", language); ("artifact_type", artifact_type)].

Section Skills.
Context (json_loads : string → result json) (py_str : json → string) (float_text : string → result Q).
(** The names of the functions and classes at the top of a Python module, [None] for a
    [SyntaxError]. *)
Context (top_names : string → option (list string)).
(** The text a model answers with, if any, to a system and a user message. *)
Context (complete : string → string → result (option string)).
(** The long dash of the prompts, which is no code point below 256. *)
Context (dash : string).

Definition parses (s : string) : bool := match json_loads s with Ok _ => true | Raise _ => false end.

(** [try_parse_fixed]. *)
Definition try_parse_fixed (s : string) : option string :=
  let tq := fix_triple_quotes s in
  find parses [s; tq; fix_escapes s; fix_escapes tq].

(** The blocks that begin at an opening brace, from the left. *)
Fixpoint try_blocks (l : list ascii) : option string :=
  match l with
  | [] => None
  | c :: l' =>
      if Ascii.eqb c "{" then
        match (balanced_prefix 0 l ≫= λ b, try_parse_fixed (of_list b)) with
        | Some s => Some s
        | None => try_blocks l'
        end
      else try_blocks l'
  end.

(** [_extract_json]. *)
Definition extract_json (text : string) : string :=
  if negb (truthy_str text) then text
  else
    let stripped := strip text in
    match try_parse_fixed stripped with
    | Some s => s
    | None => or_else (try_blocks (to_list stripped)) stripped
    end.

(** [llm_client]. *)
Definition llm (system user : string) : result string :=
  text ← complete system user;
  Ok (match text with Some t => extract_json t | None => "" end).

(** A value in a formatted text. *)
Definition fmt_json (v : json) : string := match v with JStr s => s | v => py_str v end.

(** [_fallback_filename]. *)
Definition fallback_filename (code : string) (spec language : json) : result string :=
  let named := if is_str language "python" then or_else (head (or_else (top_names code) [])) "" else "" in
  name ← (if truthy_str named then Ok named
          else match spec with JStr s => Ok (name_from_spec s) | _ => Raise AttributeError end);
  extension ← match language with
              | JStr l => Ok (or_else (assoc_get l CODE_EXTENSIONS) ".txt")
              | JArr _ | JObj _ => Raise TypeError
              | _ => Ok ".txt"
              end;
  Ok (snake_case name +:+ extension).

(** [payload\[k\]]. *)
Definition required (k : string) (payload : jdict) : result json := of_option KeyError (obj_get k payload).

(** The answer without the fences a model adds. *)
Definition unfenced (code : string) : string := strip_fence code.

Definition quoted_text (s : string) : string := quote +:+ s +:+ quote.

(** The files and the memory a request brings. *)
Definition context_block (payload : jdict) : result string :=
  let files := obj_default "context_files" (JArr []) payload in
  files_block ←
    (if truthy files then
       l ← iter_json files;
       l ← rmap (λ f, match f with
                      | JObj d => Ok ("# " +:+ fmt_json (obj_default "path" (JStr "file") d) +:+ eol
                                      +:+ fmt_json (obj_default "content" (JStr "") d))
                      | _ => Raise AttributeError
                      end) l;
       Ok (eol +:+ eol +:+ "Existing code for conventions:" +:+ eol +:+ join (eol +:+ eol) l)
     else Ok "");
  let memory := obj_default "memory" (JArr []) payload in
  memory_block ←
    (if truthy memory then
       l ← iter_json memory;
       l ← rmap (λ m, c ← item "content" m; Ok ("- " +:+ fmt_json c)) l;
       Ok (eol +:+ eol +:+ "Relevant memory:" +:+ eol +:+ join eol l)
     else Ok "");
  Ok (files_block +:+ memory_block).

Definition code_prompt (spec language : json) (block : string) : string :=
  "Write complete " +:+ fmt_json language +:+ " code for the following spec." +:+ eol
  +:+ "Honor every language and version requirement in the spec exactly. "
  +:+ "Unless the spec explicitly requests Python 2, target Python 3. "
  +:+ "For example, Python 2 requires Python 2 syntax such as `print value`, "
  +:+ "not Python 3-only syntax such as `print(value)`." +:+ eol
  +:+ "The result must be directly runnable and must implement the concrete values "
  +:+ "in the spec. Do not invent undefined variables or placeholder names. "
  +:+ "For a request to add 2 + 2 in Python 2, output exactly `print 2 + 2`." +:+ eol
  +:+ "Return a JSON object with " +:+ quoted_text "filename" +:+ " and " +:+ quoted_text "code" +:+ " strings. Choose a concise, "
  +:+ "meaningful filename describing the specific domain and purpose of THIS request, "
  +:+ "as a developer would. Use snake_case for Python modules. Never use output.py "
  +:+ "or main.py as a generic default. Use the correct extension for the language, "
  +:+ "honor a filename explicitly requested in the current spec, and use a relative path. "
  +:+ "The code field must contain only source code. No markdown fences." +:+ eol +:+ eol
  +:+ "Spec:" +:+ eol +:+ fmt_json spec +:+ block.

Definition code_system : string :=
  "You are an expert software engineer. "
  +:+ "Preserve explicitly requested language versions and runtime compatibility. "
  +:+ "Generate complete runnable code with no undefined placeholders. "
  +:+ "Return JSON containing a meaningful filename and the complete source code.".

(** The code and the name in an answer: [ValueError] is that of text that is no JSON. *)
Definition read_code (code : string) : result (string * json) :=
  match json_loads code with
  | Ok (JObj d) =>
      match obj_get "code" d with Some (JStr c) => Ok (c, obj_field "filename" d) | _ => Ok (code, JNull) end
  | Ok _ | Raise ValueError => Ok (code, JNull)
  | Raise e => Raise e
  end.

(** A name that is no generic default. *)
Definition usable_name (v : json) : option string :=
  match v with
  | JStr f => if truthy_str (strip f) && negb (bool_decide (f ∈ ["output.py"; "main.py"])) then Some f else None
  | _ => None
  end.

Definition code_generation (payload : jdict) : result jdict :=
  spec ← required "spec" payload;
  let language := obj_default "language" (JStr "python") payload in
  block ← context_block payload;
  answer ← llm code_system (code_prompt spec language block);
  '(code, filename) ← read_code (unfenced answer);
  filename ← match usable_name filename with
             | Some f => Ok f
             | None => fallback_filename code spec language
             end;
  Ok [("filename", JStr filename); ("code", JStr code); ("language", language); ("notes", JStr "")].

Definition json_only : string :=
  "You MUST respond with ONLY this JSON object and nothing else " +:+ dash +:+ " no explanation, no markdown, no code fences:" +:+ eol.
Definition json_system (role : string) : string :=
  role +:+ "You always respond with a single valid JSON object and nothing else. "
  +:+ "Never use markdown. Never add explanation outside the JSON.".

(** An example object of a prompt: its members as they are written. *)
Definition example_object (members : list (string * string)) : string :=
  "{" +:+ join ", " (map (λ kv : string * string, quoted_text kv.1 +:+ ": " +:+ kv.2) members) +:+ "}".

(** [parsed.get(...)]: only an object has [get]. *)
Definition loads_object (response : string) : result jdict :=
  v ← json_loads response;
  match v with JObj d => Ok d | _ => Raise AttributeError end.

Definition debug_triage (payload : jdict) : result jdict :=
  error_trace ← required "error_trace" payload;
  let context := obj_default "context" (JStr "") payload in
  let language := obj_default "language" (JStr "") payload in
  let hint := if truthy language then " (" +:+ fmt_json language +:+ ")" else "" in
  let block := if truthy context then eol +:+ eol +:+ "Additional context:" +:+ eol +:+ fmt_json context else "" in
  response ← llm (json_system "You are an expert debugger. ")
    ("Triage the following error" +:+ hint +:+ "." +:+ block +:+ eol +:+ eol
     +:+ "Error trace:" +:+ eol +:+ fmt_json error_trace +:+ eol +:+ eol +:+ json_only
     +:+ example_object [("root_cause_hypothesis", quoted_text "<hypothesis>"); ("confidence", "0.0");
           ("suggested_fix_approach", quoted_text "<approach>"); ("next_step", quoted_text "code_generation")]);
  parsed ← json_loads response;
  cause ← item "root_cause_hypothesis" parsed;
  d ← of_option AttributeError (as_dict parsed);
  confidence ← to_float float_text (obj_default "confidence" (JFloat (1 # 2)) d);
  Ok [("root_cause_hypothesis", cause); ("confidence", JFloat confidence);
      ("suggested_fix_approach", obj_default "suggested_fix_approach" (JStr "") d);
      ("next_step", obj_default "next_step" (JStr "manual_review") d)].

Definition pr_review (payload : jdict) : result jdict :=
  diff ← required "diff" payload;
  let context := obj_default "codebase_context" (JStr "") payload in
  let block := if truthy context then eol +:+ eol +:+ "Codebase context:" +:+ eol +:+ fmt_json context else "" in
  response ← llm (json_system "You are a senior code reviewer. ")
    ("Review this pull request diff." +:+ block +:+ eol +:+ eol +:+ "Diff:" +:+ eol +:+ fmt_json diff +:+ eol +:+ eol +:+ json_only
     +:+ example_object [("findings", "[" +:+ example_object [("severity", quoted_text "high|medium|low");
             ("file", quoted_text "<file>"); ("line", "null"); ("issue", quoted_text "<issue>");
             ("suggestion", quoted_text "<suggestion>")] +:+ "]");
           ("summary", quoted_text "<summary>"); ("approved", "false")]);
  d ← loads_object response;
  Ok [("findings", obj_default "findings" (JArr []) d); ("summary", obj_default "summary" (JStr "") d);
      ("approved", JBool (truthy (obj_default "approved" (JBool false) d)))].

Definition refactor (payload : jdict) : result jdict :=
  code ← required "code" payload;
  intent ← required "refactor_intent" payload;
  let language := obj_default "language" (JStr "python") payload in
  refactored ← llm ("You are an expert software engineer specializing in clean code. "
      +:+ "Output only raw refactored code " +:+ dash +:+ " no explanation, no markdown, no JSON wrapper.")
    ("Refactor the following " +:+ fmt_json language +:+ " code." +:+ eol +:+ "Intent: " +:+ fmt_json intent +:+ eol
     +:+ "Output ONLY the refactored code " +:+ dash +:+ " no explanation, no markdown fences, no JSON." +:+ eol +:+ eol
     +:+ "Code:" +:+ eol +:+ fmt_json code);
  Ok [("refactored_code", JStr (unfenced refactored)); ("changes_made", JArr []); ("preserved_behavior", JBool true)].

Definition scaffold (payload : jdict) : result jdict :=
  project_type ← required "project_type" payload;
  stack ← required "stack" payload;
  let features := obj_default "features" (JArr []) payload in
  block ← (if truthy features
           then f ← join_json ", " features; Ok (eol +:+ eol +:+ "Required features: " +:+ f)
           else Ok "");
  response ← llm (json_system "You are an expert software architect. ")
    ("Scaffold a " +:+ fmt_json project_type +:+ " project using " +:+ fmt_json stack +:+ "." +:+ block +:+ eol +:+ eol +:+ json_only
     +:+ example_object [("file_tree", "{}");
           ("files", "[" +:+ example_object [("path", quoted_text "<path>"); ("content", quoted_text "<content>")] +:+ "]");
           ("instructions", quoted_text "<setup instructions>")]);
  d ← loads_object response;
  Ok [("file_tree", obj_default "file_tree" (JObj []) d); ("files", obj_default "files" (JArr []) d);
      ("instructions", obj_default "instructions" (JStr "") d)].

Definition test_count (tests : string) : Z :=
  count_text (eol +:+ "def test_") tests + count_text (eol +:+ "async def test_") tests
  + (if startswith tests "def test_" || startswith tests "async def test_" then 1 else 0).

Definition write_tests (payload : jdict) : result jdict :=
  code ← required "code" payload;
  let framework := obj_default "test_framework" (JStr "pytest") payload in
  let focus := obj_default "focus_areas" (JArr []) payload in
  block ← (if truthy focus then f ← join_json ", " focus; Ok (eol +:+ eol +:+ "Focus areas: " +:+ f) else Ok "");
  answer ← llm ("You are an expert in software testing. "
      +:+ "Output only raw test code " +:+ dash +:+ " no explanation, no markdown, no JSON wrapper.")
    ("Write " +:+ fmt_json framework +:+ " tests for the following code." +:+ block +:+ eol
     +:+ "Output ONLY the test code " +:+ dash +:+ " no explanation, no markdown fences, no JSON." +:+ eol +:+ eol
     +:+ "Code:" +:+ eol +:+ fmt_json code);
  let tests := unfenced answer in
  Ok [("tests", JStr tests); ("test_framework", framework); ("test_count", JInt (test_count tests))].

(** [SKILL_REGISTRY]. *)
Definition SKILL_REGISTRY : list (string * (jdict → result jdict)) :=
  [("rigel.skill.code_generation", code_generation); ("rigel.skill.pr_review", pr_review);
   ("rigel.skill.test_writing", write_tests); ("rigel.skill.refactor", refactor);
   ("rigel.skill.scaffold", scaffold); ("rigel.skill.debug_triage", debug_triage)].

(** [_normalize_skill_output]. *)
Definition ended_by_newline (v : json) : result json :=
  match v with
  | JStr s => Ok (JStr (if truthy_str s && negb (endswith s eol) then s +:+ eol else s))
  | v => if truthy v then Raise AttributeError else Ok v
  end.

Definition scaffold_artifact (f : json) : result jdict :=
  path ← item "path" f;
  content ← item "content" f;
  name ← match path with JStr s => Ok s | _ => Raise TypeError end;
  Ok (artifact_dict path content (JStr (infer_language name)) (JStr "code")).

Definition one_artifact (filename : json) (content : json) (language artifact_type : json) (summary : json) (writable : bool) :
    normalized := mk_normalized [artifact_dict filename content language artifact_type] summary writable.

Definition normalize_skill_output (skill_name : string) (r : jdict) : result normalized :=
  if String.eqb skill_name "code_generation" then
    c ← required "code" r;
    c ← ended_by_newline c;
    Ok (one_artifact (obj_default "filename" (JStr "output.py") r) c (obj_default "language" (JStr "python") r) (JStr "code")
          (obj_default "notes" (JStr "") r) true)
  else if String.eqb skill_name "refactor" then
    c ← required "refactored_code" r;
    Ok (one_artifact (JStr "refactored.py") c (JStr "python") (JStr "code") (obj_default "changes_made" (JStr "") r) true)
  else if String.eqb skill_name "scaffold" then
    files ← iter_json (obj_default "files" (JArr []) r);
    l ← rmap scaffold_artifact files;
    Ok (mk_normalized l (obj_default "instructions" (JStr "") r) true)
  else if String.eqb skill_name "test_writing" then
    t ← required "tests" r;
    Ok (one_artifact (JStr "test_output.py") t (obj_default "test_framework" (JStr "pytest") r) (JStr "tests")
          (JStr (fmt_json (obj_default "test_count" (JStr "?") r) +:+ " tests generated")) true)
  else if String.eqb skill_name "debug_triage" then
    Ok (one_artifact (JStr "debug_report.md") (obj_default "suggested_fix_approach" (JStr "") r) (JStr "markdown") (JStr "report")
          (obj_default "root_cause_hypothesis" (JStr "") r) false)
  else if String.eqb skill_name "pr_review" then
    Ok (one_artifact (JStr "review.md") (obj_default "findings" (JStr "") r) (JStr "markdown") (JStr "report")
          (obj_default "summary" (JStr "") r) false)
  else Raise ValueError.
End Skills.

(** ** What the agent offers *)

Definition input_keys (required_keys optional_keys : list string) : jdict :=
  [("required", JArr (map JStr required_keys)); ("optional", JArr (map JStr optional_keys))].
Definition rigel_skill (name description : string) (confidence : Q) (latency : Z) (required_keys optional_keys : list string) :
    SkillDefinition :=
  mk_Skill ("rigel.skill." +:+ name) description (input_keys required_keys optional_keys) [] confidence latency None.

(** [RigelAgent.SKILLS]. *)
Definition RIGEL_SKILLS : list SkillDefinition :=
  [rigel_skill "code_generation" "Generate code from spec or context" (86 # 100) 900 ["spec"] ["language"; "context_files"];
   rigel_skill "pr_review" "Review a pull request diff for issues" (84 # 100) 700 ["diff"] ["codebase_context"];
   rigel_skill "test_writing" "Generate tests for existing code" (83 # 100) 950 ["code"] ["test_framework"; "focus_areas"];
   rigel_skill "refactor" "Restructure code without changing behavior" (81 # 100) 1000 ["code"; "refactor_intent"] ["language"];
   rigel_skill "scaffold" "Generate project scaffolding and boilerplate" (79 # 100) 1100 ["project_type"; "stack"] ["features"];
   rigel_skill "debug_triage" "Analyze errors and hypothesize root cause" (82 # 100) 650 ["error_trace"] ["context"; "language"]].

(** [_load_active_skills]: the parsed file, [None] when there is none. *)
Definition load_active_skills (data : option json) : result (list SkillDefinition) :=
  match data with
  | None => Ok RIGEL_SKILLS
  | Some data =>
      d ← of_option AttributeError (as_dict data);
      d ← of_option AttributeError (as_dict (obj_default "skills" (JObj []) d));
      on ← rmap (λ kv : string * json, c ← of_option AttributeError (as_dict kv.2);
                   Ok ("rigel.skill." +:+ kv.1, truthy (obj_default "enabled" (JBool true) c))) d;
      Ok (List.filter (λ s, existsb (λ e : string * bool, String.eqb e.1 (skill_id s) && e.2) on) RIGEL_SKILLS)
  end.

(** [_build_manifest]. *)
Definition rigel_manifest (active : list SkillDefinition) (now : time) : SkillManifest :=
  mk_Manifest "rigel" "Rigel Engineering Agent" "0.1.0" active "http://rigel:8002/health" now 30.

(** ** The agent *)

(** What the agent changes: the files of workspaces, the commands given to the container
    engine, and the events sent to the feedback stream. *)
Record rigel_world := mk_rigel_world {
  rw_files : list (string * string);
  rw_commands : list (list string);
  rw_feedback : list RefineryFeedbackEvent }.

Record RigelConfig := mk_rigel_config {
  rc_execution_enabled : bool;
  rc_image : string;
  rc_parse_error_fallback : Q }.

Definition DESCRIPTION_KEYS : list (string * string) :=
  [("code_generation", "spec"); ("test_writing", "code"); ("refactor", "refactor_intent"); ("scaffold", "project_type");
   ("debug_triage", "error_trace"); ("pr_review", "diff")].

(** [_task_description]. *)
Definition task_description (skill_id : string) (payload : jdict) : json :=
  obj_default (or_else (assoc_get (last_segment skill_id) DESCRIPTION_KEYS) "") (JStr "") payload.

(** [_feedback_outcome]. *)
Definition feedback_outcome (r : option ExecutionResult) : RefineryOutcome :=
  match r with
  | None => success
  | Some r => if String.eqb (ex_outcome r) "pass" then success else fail
  end.

Definition execution_json (r : ExecutionResult) : json :=
  JObj [("exit_code", JInt (ex_exit_code r)); ("stdout", JStr (ex_stdout r)); ("stderr", JStr (ex_stderr r));
        ("outcome", JStr (ex_outcome r)); ("duration_ms", JInt (ex_duration_ms r));
        ("executed_from", JStr (ex_executed_from r)); ("network_policy", JStr (ex_network_policy r))].

Definition written_json (w : WrittenArtifact) : json :=
  JObj [("filename", JStr (wa_filename w)); ("absolute_path", JStr (wa_absolute w));
        ("relative_path", JStr (wa_relative w)); ("size_bytes", JInt (wa_size w))].

Section Agent.
Context (json_loads : string → result json) (py_str : json → string) (float_text : string → result Q)
  (float_repr : Q → string) (top_names : string → option (list string))
  (complete : string → string → result (option string)) (dash : string).
Context (scan_limit : Z) (resolve : path → path) (os_error : path → string → bool).
Context (engine : list string → engine_answer) (container_name : string) (elapsed_ms : Z)
  (message : exn → string) (temp_dir : list (string * json) → result path).
Context (weights : option (result json)) (published : RefineryFeedbackEvent → bool)
  (parse_uuid : json → option uuid) (fresh : uuid).
Context (cfg : RigelConfig).

Definition in_files {A} (m : M (list (string * string)) A) : M rigel_world A := λ w,
  let '(r, f) := m (rw_files w) in (r, mk_rigel_world f (rw_commands w) (rw_feedback w)).
Definition in_commands {A} (m : M (list (list string)) A) : M rigel_world A := λ w,
  let '(r, c) := m (rw_commands w) in (r, mk_rigel_world (rw_files w) c (rw_feedback w)).

(** [handler(payload, self.llm)]. *)
Definition handle (skill_id : string) (payload : jdict) : result jdict :=
  handler ← of_option ValueError (assoc_get skill_id
    (SKILL_REGISTRY json_loads py_str float_text top_names complete dash));
  handler payload.

(** The context a caller passes, when it is not empty. *)
Definition context_get (k : string) (context : option jdict) : json :=
  match context with Some d => obj_field k d | None => JNull end.

(** The path the caller asks for takes the place of the name of a single artifact. *)
Definition renamed (context : option jdict) (n : normalized) : list jdict :=
  match n_artifacts n with
  | [a] => let p := context_get "output_path" context in
           if truthy p then [obj_set "filename" p a] else [a]
  | l => l
  end.

(** The name an artifact is written under. *)
Definition file_name (skill_id : string) (payload : jdict) (context : option jdict) (single : bool) (a : jdict) : result json :=
  let asked := context_get "output_path" context in
  let skill_name := last_segment skill_id in
  if String.eqb skill_name "code_generation" then Ok (jor asked (obj_field "filename" a))
  else if single then
    if truthy asked then Ok asked
    else match task_description skill_id payload with
         | JStr t => Ok (JStr (infer_filename t skill_name))
         | _ => Raise AttributeError
         end
  else Ok (obj_field "filename" a).

(** [writer.write(filename, content)]. *)
Definition write_artifact (root : string) (filename content : json) : M rigel_world WrittenArtifact :=
  match filename, content with
  | JStr f, JStr c => in_files (workspace_write resolve os_error root f c)
  | JStr f, _ =>
      (* The path is checked before the text is written. *)
      mguard (is_relative_to (resolve (path_div (path_of root) (path_of f))) (resolve (path_of root))) ValueError;;
      mraise TypeError
  | _, _ => mraise TypeError
  end.

Definition write_files (skill_id : string) (payload : jdict) (context : option jdict) (root : json) (artifacts : list jdict) :
    M rigel_world (list WrittenArtifact) :=
  root ← mlift (match root with JStr r => Ok r | _ => Raise TypeError end);
  mmapM (λ a, name ← mlift (file_name skill_id payload context (match artifacts with [_] => true | _ => false end) a);
              write_artifact root name (obj_field "content" a)) artifacts.

(** What calibration found: the result, and whether the sandbox is missing. *)
Definition unavailable_result : ExecutionResult :=
  mk_execution (-1) "" "Execution sandbox unavailable" "error" 0 "sandbox" "deny-all".

Definition calibrate (skill_id : string) (payload r : jdict) (root : json) (written : list WrittenArtifact) :
    M rigel_world (option ExecutionResult * bool) :=
  if negb (rc_execution_enabled cfg) then mret (None, false)
  else
    (* A root that is no text has let nothing be written, and then it is not looked at. *)
    let ws := match root with JNull => None | JStr w => Some w | _ => Some "" end in
    λ w, match in_commands (execute_generated_output resolve engine container_name elapsed_ms message temp_dir skill_id payload r
                 (rc_image cfg) ws (wa_absolute <$> head written) None) w with
         | (Raise ExecutionSandboxUnavailable, w) => (Ok (Some unavailable_result, true), w)
         | (Raise e, w) => (Raise e, w)
         | (Ok x, w) => (Ok (x, false), w)
         end.

(** [_emit_feedback]: an event that is refused or cannot be sent is only logged. *)
Definition emit_feedback (task_id : json) (skill_id : string) (confidence : Q) (execution : option ExecutionResult) :
    M rigel_world unit :=
  let id := if truthy task_id then parse_uuid task_id else Some fresh in
  match id with
  | None => mret tt
  | Some id =>
      match validate_refinery (mk_refinery id "rigel" skill_id (feedback_outcome execution) confidence (ex_outcome <$> execution)
              false None (match execution with Some r => ex_duration_ms r | None => 0 end)) with
      | Raise _ => mret tt
      | Ok e => if published e
                then λ w, (Ok tt, mk_rigel_world (rw_files w) (rw_commands w) (rw_feedback w ++ [e]))
                else mret tt
      end
  end.

Definition task_result (r : jdict) (n : normalized) (artifacts : list jdict) (execution : option ExecutionResult)
    (unavailable : bool) (c : confidence_report) (written : list WrittenArtifact) : jdict :=
  let skill_confidence := obj_field "confidence" r in
  let r := List.filter (λ kv : string * json, negb (String.eqb kv.1 "confidence")) r in
  dict_merge r
    ([("confidence", JFloat (cf_confidence c));
      ("confidence_breakdown",
         JObj [("structural", JFloat (cf_structural c)); ("self_critique", JFloat (cf_critique c));
               ("historical", JFloat (cf_historical c)); ("soft_confidence", JFloat (cf_soft c));
               ("execution_outcome", match cf_outcome c with Some o => JStr o | None => JNull end)]);
      ("gaps", cf_gaps c);
      ("execution_result", match execution with Some x => execution_json x | None => JNull end);
      ("externally_calibrated", JBool (match execution with Some _ => negb unavailable | None => false end));
      ("artifacts", JArr (map JObj artifacts)); ("summary", n_summary n); ("writable", JBool (n_writable n))]
     ++ match skill_confidence with JNull => [] | v => [("skill_confidence", v)] end
     ++ [("executed_from", match execution with Some x => JStr (ex_executed_from x) | None => JNull end);
         ("written_artifacts", JArr (map written_json written))]
     ++ if unavailable then [("failure_reason", JStr "execution_sandbox_unavailable")] else []).

(** [RigelAgent.run]. *)
Definition rigel_run (skill_id : string) (payload : jdict) (context : option jdict) : M rigel_world jdict :=
  let memory := context_get "memory" context in
  let payload := if truthy memory then obj_set "memory" memory payload else payload in
  raw ← mlift (handle skill_id payload);
  n ← mlift (normalize_skill_output py_str (last_segment skill_id) raw);
  let artifacts := renamed context n in
  mlift (require_safe_artifacts py_str scan_limit artifacts);;
  let root := context_get "workspace_root" context in
  written ← (if truthy root && n_writable n then write_files skill_id payload context root artifacts else mret []);
  '(execution, unavailable) ← calibrate skill_id payload raw root written;
  c ← mlift (score_confidence float_repr json_loads float_text dash (llm json_loads complete) weights skill_id payload raw
               (1 # 2) (ex_outcome <$> execution) (rc_parse_error_fallback cfg));
  emit_feedback (context_get "task_id" context) skill_id (cf_confidence c) execution;;
  mret (task_result raw n artifacts execution unavailable c written).
End Agent.

(** ** Theorems

    What running a Rigel skill promises: nothing is changed before the artifacts are
    scanned, files stay inside the workspace and hold scanned text, code runs confined;
    and an object inside a model's answer is found. *)

(** ** Reading an answer *)

Section Extract.
Context (json_loads : string → result json).
Local Abbreviation parses_ := (parses json_loads).

Lemma find_parses l s : find parses_ l = Some s → parses_ s = true.
Proof. intros H. by apply find_some in H as [_ H]. Qed.

Lemma try_blocks_parses l s : try_blocks json_loads l = Some s → parses_ s = true.
Proof.
  induction l as [|c l IH]; [done|]. cbn [try_blocks]. destruct (Ascii.eqb c "{"); [|done].
  destruct (balanced_prefix 0 (c :: l)) as [b|]; simpl; [|done].
  destruct (try_parse_fixed json_loads (of_list b)) eqn:E; [|done]. intros [= <-]. by eapply find_parses.
Qed.

Lemma try_blocks_found pre block post : head block = Some "{"%char →
  balanced_prefix 0 (block ++ post) = Some block → is_Some (try_parse_fixed json_loads (of_list block)) →
  is_Some (try_blocks json_loads (pre ++ block ++ post)).
Proof.
  intros Hh Hb [s Hs]. induction pre as [|c pre IH].
  - destruct block as [|c block]; [done|]. injection Hh as ->. simpl app in *. cbn [try_blocks]. rewrite Hb.
    change (Ascii.eqb "{" "{") with true. unfold mbind, option_bind. rewrite Hs. by eexists.
  - simpl app. cbn [try_blocks]. destruct (Ascii.eqb c "{"); [|done].
    by destruct (balanced_prefix 0 (c :: pre ++ block ++ post) ≫= _).
Qed.

(** Objects are found in an answer. What is taken from a model's answer parses, or is the
    answer without the space around it; and it parses whenever the answer does, or holds a
    block of braces, closed for the first time at its end, that parses as it is or after
    one of the repairs. *)
Theorem objects_are_found text :
  (parses_ (extract_json json_loads text) = true ∨ extract_json json_loads text = strip text)
  ∧ (parses_ (strip text) = true → extract_json json_loads text = strip text)
  ∧ ∀ pre block post, to_list (strip text) = pre ++ block ++ post → head block = Some "{"%char →
      balanced_prefix 0 (block ++ post) = Some block → is_Some (try_parse_fixed json_loads (of_list block)) →
      parses_ (extract_json json_loads text) = true.
Proof.
  unfold extract_json. destruct (negb (truthy_str text)) eqn:Ht.
  { apply negb_true_iff, negb_false_iff, String.eqb_eq in Ht as ->. split_and!; [by right|done|].
    intros [|? ?] [|? ?] post Hl; [done|discriminate Hl..|]. done. }
  cbv zeta. split_and!.
  - destruct (try_parse_fixed _ _) as [s|] eqn:E; [left; by eapply find_parses|].
    destruct (try_blocks _ _) as [s|] eqn:Eb; [left; by eapply try_blocks_parses|by right].
  - intros Hp. unfold try_parse_fixed. cbn [find]. by rewrite Hp.
  - intros pre block post Hl Hh Hb Hs. destruct (try_parse_fixed _ (strip text)) as [s|] eqn:E; [by eapply find_parses|].
    rewrite Hl. destruct (try_blocks_found pre block post Hh Hb Hs) as [s Hf]. rewrite Hf. by eapply try_blocks_parses.
Qed.
End Extract.

(** ** What is offered *)

(** What is offered is handled. Whatever the configuration enables, every skill of the
    manifest Rigel registers has a handler, so a task that is matched to Rigel by one of
    its skills is never refused as unknown. *)
Theorem offered_skills_are_handled json_loads py_str float_text top_names complete dash data active now :
  load_active_skills data = Ok active →
  ∀ s, s ∈ skills (rigel_manifest active now) →
    is_Some (assoc_get (skill_id s) (SKILL_REGISTRY json_loads py_str float_text top_names complete dash)).
Proof.
  intros Ha s Hs. assert (Hin : s ∈ RIGEL_SKILLS).
  { unfold load_active_skills in Ha. remember RIGEL_SKILLS as all eqn:Hall. clear Hall. change (s ∈ active) in Hs. destruct data as [data|]; [|by injection Ha as <-].
    apply rbind_ok in Ha as (d & _ & Ha). apply rbind_ok in Ha as (d' & _ & Ha). apply rbind_ok in Ha as (on & _ & Ha).
    injection Ha as <-. apply list_elem_of_In, filter_In in Hs as [Hs _]. by apply list_elem_of_In. }
  clear Hs. unfold RIGEL_SKILLS in Hin. repeat (apply elem_of_cons in Hin as [->|Hin]; [by eexists|]). by apply not_elem_of_nil in Hin.
Qed.

(** ** Running a skill *)

Section Run.
Context (json_loads : string → result json) (py_str : json → string) (float_text : string → result Q)
  (float_repr : Q → string) (top_names : string → option (list string))
  (complete : string → string → result (option string)) (dash : string).
Context (scan_limit : Z) (resolve : path → path) (os_error : path → string → bool).
Context (engine : list string → engine_answer) (container_name : string) (elapsed_ms : Z)
  (message : exn → string) (temp_dir : list (string * json) → result path).
Context (weights : option (result json)) (published : RefineryFeedbackEvent → bool)
  (parse_uuid : json → option uuid) (fresh : uuid).
Context (cfg : RigelConfig).
Local Abbreviation run_ := (rigel_run json_loads py_str float_text float_repr top_names complete dash scan_limit resolve
  os_error engine container_name elapsed_ms message temp_dir weights published parse_uuid fresh cfg).
Local Abbreviation handle_ := (handle json_loads py_str float_text top_names complete dash).
Local Abbreviation calibrate_ := (calibrate resolve engine container_name elapsed_ms message temp_dir cfg).
Local Abbreviation writes_ := (write_files resolve os_error).

(** A file of the workspace that holds the text of one of the artifacts. *)
Definition written_from (root : string) (artifacts : list jdict) (p text : string) : Prop :=
  (∃ full, p = path_str full ∧ is_relative_to full (resolve (path_of root)) = true)
  ∧ ∃ a, a ∈ artifacts ∧ obj_field "content" a = JStr text.

(** The files that differ are such files. *)
Definition files_from (root : string) (artifacts : list jdict) (fs fs' : list (string * string)) : Prop :=
  ∀ p, assoc_get p fs' = assoc_get p fs ∨ ∃ text, assoc_get p fs' = Some text ∧ written_from root artifacts p text.

Lemma files_from_refl root artifacts fs : files_from root artifacts fs fs.
Proof. intros p. by left. Qed.

Lemma files_from_trans root artifacts a b c :
  files_from root artifacts a b → files_from root artifacts b c → files_from root artifacts a c.
Proof. intros Hab Hbc p. destruct (Hbc p) as [->|H]; [apply Hab|by right]. Qed.

Lemma write_artifact_files root filename a artifacts w x w' : a ∈ artifacts →
  write_artifact resolve os_error root filename (obj_field "content" a) w = (x, w') →
  rw_commands w' = rw_commands w ∧ rw_feedback w' = rw_feedback w ∧ files_from root artifacts (rw_files w) (rw_files w').
Proof.
  intros Ha H. assert (Hsame : w' = w → rw_commands w' = rw_commands w ∧ rw_feedback w' = rw_feedback w
    ∧ files_from root artifacts (rw_files w) (rw_files w')) by (intros ->; split_and!; [done..|apply files_from_refl]).
  unfold write_artifact in H. destruct filename as [| | | |f| |]; try (apply Hsame; by injection H).
  destruct (obj_field "content" a) as [| | | |c| |] eqn:Ec;
    try (apply Hsame; apply mlift_cases in H as [|(? & _ & H)]; [done|by injection H]).
  unfold in_files in H. destruct (workspace_write _ _ _ _ _ _) as [y fs] eqn:E.
  assert (w' = mk_rigel_world fs (rw_commands w) (rw_feedback w)) as -> by congruence. split_and!; [done..|].
  unfold workspace_write in E. apply mlift_cases in E as [->|(? & Hin%rguard_ok & E)]; [apply files_from_refl|].
  apply mlift_cases in E as [->|(? & _ & E)]; [apply files_from_refl|]. injection E as _ <-.
  intros p. simpl. rewrite assoc_get_set. destruct (String.eqb_spec p (path_str (resolve (path_div (path_of root) (path_of f))))) as [->|];
    [right; exists c|by left]. split; [done|]. split; [by eexists|by exists a].
Qed.

Lemma write_files_files skill payload ctx root artifacts w x w' : writes_ skill payload ctx root artifacts w = (x, w') →
  rw_commands w' = rw_commands w ∧ rw_feedback w' = rw_feedback w
  ∧ (w' = w ∨ ∃ r, root = JStr r ∧ files_from r artifacts (rw_files w) (rw_files w')).
Proof.
  unfold write_files. intros H. destruct root as [| | | |r| |]; try (injection H as _ <-; by auto).
  change (mmapM (λ a, name ← mlift (file_name skill payload ctx (match artifacts with [_] => true | _ => false end) a);
    write_artifact resolve os_error r name (obj_field "content" a)) artifacts w = (x, w')) in H.
  enough (rw_commands w' = rw_commands w ∧ rw_feedback w' = rw_feedback w ∧ files_from r artifacts (rw_files w) (rw_files w'))
    by (destruct_and!; split_and!; [done..|]; right; by exists r).
  revert H. generalize (match artifacts with [_] => true | _ => false end). intros single.
  assert (Hin : ∀ a, a ∈ artifacts → a ∈ artifacts) by done. revert Hin w x w'. generalize artifacts at 1 3 as l.
  induction l as [|a l IH]; intros Hin w x w' H; [injection H as _ <-; split_and!; [done..|apply files_from_refl]|].
  simpl in H. unfold mbind, M_bind in H. unfold mlift in H at 1. destruct (file_name _ _ _ _ _) as [name|e];
    [|injection H as _ <-; split_and!; [done..|apply files_from_refl]].
  destruct (write_artifact _ _ _ _ _ w) as [y w1] eqn:E.
  apply (write_artifact_files _ _ _ artifacts) in E as (E1 & E2 & E3); [|apply Hin; by left].
  destruct y as [wa|e]; [|injection H as _ <-; by split_and!].
  destruct (mmapM _ l w1) as [z w2] eqn:El. apply IH in El as (F1 & F2 & F3); [|intros b Hb; apply Hin; by right].
  assert (w' = w2) as -> by (by destruct z; injection H as _ <-).
  split_and!; [congruence..|]. by eapply files_from_trans.
Qed.

Lemma calibrate_commands skill payload r root written w x w' : calibrate_ skill payload r root written w = (x, w') →
  rw_files w' = rw_files w ∧ rw_feedback w' = rw_feedback w
  ∧ ∃ cmds, rw_commands w' = rw_commands w ++ cmds ∧ Forall (confined container_name (rc_image cfg)) cmds.
Proof.
  unfold calibrate. destruct (negb _); [intros [= _ <-]; split_and!; [done..|]; exists []; by rewrite app_nil_r|].
  cbv zeta. unfold in_commands. destruct (execute_generated_output _ _ _ _ _ _ _ _ _ _ _ _ _ _) as [y c] eqn:E.
  apply generated_code_runs_confined in E as (cmds & -> & Hc & _). intros H.
  assert (w' = mk_rigel_world (rw_files w) (rw_commands w ++ cmds) (rw_feedback w)) as ->
    by (destruct y as [|e]; [|destruct e]; by injection H as _ <-).
  split_and!; [done..|]. by exists cmds.
Qed.

Lemma emit_keeps task_id skill q execution : keeps (λ w, (rw_files w, rw_commands w))
  (emit_feedback published parse_uuid fresh task_id skill q execution).
Proof.
  intros w. unfold emit_feedback. cbv zeta. destruct (if truthy task_id then _ else _); [|done].
  destruct (validate_refinery _); [|done]. by destruct (published _).
Qed.

(** The artifacts a run works with. *)
Definition prepared (skill : string) (payload : jdict) (ctx : option jdict) (n : normalized) : Prop :=
  ∃ raw, handle_ skill (let memory := context_get "memory" ctx in
                        if truthy memory then obj_set "memory" memory payload else payload) = Ok raw
    ∧ normalize_skill_output py_str (last_segment skill) raw = Ok n.

Lemma required_safe artifacts scan : require_safe_artifacts py_str scan_limit artifacts = Ok scan →
  ∀ a rule, a ∈ artifacts → ¬ leaks rule (text_field py_str "content" a).
Proof.
  unfold require_safe_artifacts. intros H. rok. intros a rule Ha Hl. apply leak_found in Hl as (r & Hr & Hs).
  pose proof (scan_artifact_rule py_str scan_limit a rule r Hr Hs) as Hf.
  match goal with E : String.eqb _ _ = true |- _ => apply String.eqb_eq in E; rename E into Hnil end.
  change (status_of (List.filter (λ f, negb (accepted None f)) (flat_map (scan_artifact py_str scan_limit) artifacts)) = "passed") in Hnil.
  apply status_passed in Hnil.
  assert (Hin : mk_finding rule "critical" (text_field py_str "filename" a)
    ∈ List.filter (λ f, negb (accepted None f)) (flat_map (scan_artifact py_str scan_limit) artifacts)).
  { apply list_elem_of_In, filter_In. split; [|done]. apply in_flat_map. exists a. by rewrite <-!list_elem_of_In. }
  rewrite Hnil in Hin. by apply not_elem_of_nil in Hin.
Qed.

(** Nothing happens before the scan, and nothing outside. A run that changes a file or
    runs a command has artifacts that were scanned and hold no key; it changes only files
    below the workspace of its context, when the skill's result may be written, to the
    text of one of those artifacts; and every command runs or removes a container that is
    locked down. *)
Theorem rigel_changes_are_guarded skill payload ctx w x w' : run_ skill payload ctx w = (x, w') →
  (rw_files w' = rw_files w ∧ rw_commands w' = rw_commands w)
  ∨ ∃ n, prepared skill payload ctx n
    ∧ (∀ a rule, a ∈ renamed ctx n → ¬ leaks rule (text_field py_str "content" a))
    ∧ (rw_files w' = rw_files w ∨ ∃ root, context_get "workspace_root" ctx = JStr root ∧ n_writable n = true
         ∧ files_from root (renamed ctx n) (rw_files w) (rw_files w'))
    ∧ ∃ cmds, rw_commands w' = rw_commands w ++ cmds ∧ Forall (confined container_name (rc_image cfg)) cmds.
Proof.
  unfold rigel_run. intros H. cbv zeta in H. set (p := if truthy _ then _ else payload) in H.
  apply mlift_cases in H as [->|(raw & Hraw & H)]; [by left|].
  apply mlift_cases in H as [->|(n & Hn & H)]; [by left|].
  apply mlift_cases in H as [->|(scan & Hscan & H)]; [by left|].
  set (artifacts := renamed ctx n) in *. set (root := context_get "workspace_root" ctx) in *.
  assert (Hfiles : ∀ x w1, (if truthy root && n_writable n
      then writes_ skill p ctx root artifacts else mret []) w = (x, w1) →
    rw_commands w1 = rw_commands w ∧ (rw_files w1 = rw_files w ∨ ∃ r, root = JStr r ∧ n_writable n = true
      ∧ files_from r artifacts (rw_files w) (rw_files w1))).
  { intros y w1. destruct (truthy root && n_writable n) eqn:Et; [|intros [= _ <-]; by auto].
    apply andb_true_iff in Et as [_ Et]. intros Hw. apply write_files_files in Hw as (Hc & _ & [->|(r & Hr & Hf)]); [by auto|].
    split; [done|]. right. by exists r. }
  right. exists n. split; [by exists raw|]. split; [exact (required_safe _ _ Hscan)|].
  apply mbind_cases in H as [(e & H & ->)|(written & w1 & H1 & H)].
  { apply Hfiles in H as [Hc Hf]. split; [exact Hf|]. exists []. by rewrite Hc, app_nil_r. }
  apply Hfiles in H1 as [Hc1 Hf1].
  apply mbind_cases in H as [(e & H & ->)|([execution unavailable] & w2 & H2 & H)].
  { apply calibrate_commands in H as (Ef & _ & cmds & Ec & Hcmds). rewrite Ef, Ec, Hc1. split; [exact Hf1|]. by exists cmds. }
  apply calibrate_commands in H2 as (Ef & _ & cmds & Ec & Hcmds).
  enough (rw_files w' = rw_files w2 ∧ rw_commands w' = rw_commands w2) as [-> ->]
    by (rewrite Ef, Ec, Hc1; split; [exact Hf1|by exists cmds]).
  apply mlift_cases in H as [->|(c & _ & H)]; [done|].
  apply (keeps_result (λ w, (rw_files w, rw_commands w))) in H; [by injection H as -> ->|].
  apply keeps_bind; [apply emit_keeps|by intros [] w3].
Qed.
End Run.

(** ** Witnesses *)

Module RigelDemo.
(** Two texts are JSON: a scaffold of two files, and an object whose text holds a brace. *)
Definition brace : string := "{" +:+ quote +:+ "code" +:+ quote +:+ ": " +:+ quote +:+ "}" +:+ quote +:+ "}".
Definition file (path content : string) : json := JObj [("path", JStr path); ("content", JStr content)].
Definition loads (s : string) : result json :=
  if String.eqb s "{two files}" then Ok (JObj [("files", JArr [file "README.md" "# App"; file "app.py" "print(1)"])])
  else if String.eqb s brace then Ok (JObj [("code", JStr "}")])
  else Raise ValueError.
Definition answers (reply : string) (_ _ : string) : result (option string) := Ok (Some reply).
(** Python on a file that is no Python. *)
Definition engine (c : list string) : engine_answer :=
  if String.eqb (List.last c "") "/workspace/README.md" then Completed 1 None (Some "SyntaxError") else Completed 0 None None.
Definition config : RigelConfig := mk_rigel_config true "galaxz:latest" (75 # 100).
Definition start : rigel_world := mk_rigel_world [] [] [].
Abbreviation run reply skill payload ctx := (rigel_run loads (λ _, "") (λ _, Raise ValueError) (λ _, "0.5")
  (λ _, Some ["CsvReader"]) (answers reply) "-" 1000 (λ p, p) (λ _ _, false) engine "rigel-exec-1" 5 (λ _, "")
  (λ _, Ok (path_of "/tmp/x")) None (λ _, true) (λ _, None) 7%N config skill payload ctx start).
Definition context : option jdict := Some [("workspace_root", JStr "/work")].
Definition confidence_of_answer (r : result jdict) : option json := match r with Ok d => obj_get "confidence" d | Raise _ => None end.

Example the_file_is_named_after_its_class :
  let '(r, w) := run "class CsvReader: pass" "rigel.skill.code_generation" [("spec", JStr "read CSV")] context in
  rw_files w = [("/work/csv_reader.py", "class CsvReader: pass" +:+ eol)] ∧ length (rw_commands w) = 1%nat
  ∧ map rf_outcome (rw_feedback w) = [success].
Proof. vm_compute. done. Qed.

(** A scaffold is judged by running its first file as Python, whatever the file is. *)
Example a_readme_fails_the_scaffold :
  let '(r, w) := run "{two files}" "rigel.skill.scaffold" [("project_type", JStr "service"); ("stack", JStr "Flask")] context in
  confidence_of_answer r = Some (JFloat (180 # 1000)) ∧ map (λ c, List.last c "") (rw_commands w) = ["/workspace/README.md"]
  ∧ map rf_outcome (rw_feedback w) = [fail].
Proof. vm_compute. done. Qed.

(** Braces are counted inside strings too, so an object whose text holds one is missed. *)
Example a_brace_in_a_string_hides_the_object :
  parses loads (extract_json loads brace) = true ∧ parses loads (extract_json loads ("Here: " +:+ brace)) = false
  ∧ parses loads (extract_json loads ("Here: {two files} done")) = true.
Proof. vm_compute. done. Qed.

(** The repairs: a regular expression's backslash, and a Python string as a value. *)
Example repairs : fix_escapes "a\d\n" = "a\\d\n"
  ∧ fix_triple_quotes (of_list [dquote; dquote; dquote; "x"%char; dquote; dquote; dquote]) = quote +:+ "x" +:+ quote.
Proof. vm_compute. done. Qed.

Definition aws_line : string := "id = 'AKIA1234567890ABCDEF' # prod".
Example a_key_stops_the_run :
  let '(r, w) := run aws_line "rigel.skill.code_generation" [("spec", JStr "read CSV")] context in
  r = Raise ValueError ∧ w = start.
Proof. vm_compute. done. Qed.

Lemma one_command : length (rw_commands (run "class CsvReader: pass" "rigel.skill.code_generation" [("spec", JStr "read CSV")] context).2) = 1%nat.
Proof. vm_compute. reflexivity. Qed.
End RigelDemo.
Import RigelDemo.

Lemma rigel_changes_are_guarded_witness : ∃ cmds,
  rw_commands (run "class CsvReader: pass" "rigel.skill.code_generation" [("spec", JStr "read CSV")] context).2 = cmds
  ∧ cmds ≠ [] ∧ Forall (confined "rigel-exec-1" "galaxz:latest") cmds.
Proof.
  pose proof one_command as Hone.
  destruct (run "class CsvReader: pass" "rigel.skill.code_generation" [("spec", JStr "read CSV")] context) as [x w'] eqn:E.
  destruct (rigel_changes_are_guarded _ _ _ _ _ _ _ _ _ _ _ _ _ _ _ _ _ _ _ _ _ _ _ _ _ _ E) as [[_ Hc]|(n & _ & _ & _ & cmds & Hc & Hf)].
  - simpl in Hone, Hc. rewrite Hc in Hone. discriminate Hone.
  - exists cmds. simpl in *. split; [exact Hc|]. split; [|exact Hf]. intros ->. rewrite Hc in Hone. discriminate Hone.
Defined.

Lemma offered_skills_are_handled_witness :
  is_Some (assoc_get "rigel.skill.refactor"
    (SKILL_REGISTRY loads (λ _, "") (λ _, Raise ValueError) (λ _, None) (answers "") "-")).
Proof.
  apply (offered_skills_are_handled loads (λ _, "") (λ _, Raise ValueError) (λ _, None) (answers "") "-" None RIGEL_SKILLS 0 eq_refl
    (rigel_skill "refactor" "Restructure code without changing behavior" (81 # 100) 1000 ["code"; "refactor_intent"] ["language"])).
  do 3 apply list_elem_of_further. apply list_elem_of_here.
Defined.
