(* ===== verification/TaskService.v ===== *)
(** services/andromeda_service.py: submitting a task, now or as a durable job, and taking
    an artifact back to an earlier version.

    A request runs over the platform of [Route] and the durable jobs. The files of the
    workspace belong to the world the agents act on: an agent may write them while it runs,
    and the service writes them after the answer. [WorkspaceFiles] says where in that world
    they are, [GuardedAgents] what an agent promises about them, which Rigel keeps. Outside
    are what [Route] and [Workspace] take as arguments; the times and identifiers a request
    draws are given by the number of the call. An exception turned into an HTTP answer
    keeps its code. *)

From S2P Require Import Prelude.
From S2P Require Import TaskLog.
From S2P Require Import OrchestratorProps.
From S2P Require Import PyStr.
From S2P Require Import PyTime.
From S2P Require Import Json.
From S2P Require Import PyDict.
From S2P Require Import Contracts.
From S2P Require Import JobRepository.
From S2P Require Import Artifacts.
From S2P Require Import ReviewQueue.
From S2P Require Import Policy.
From S2P Require Import Registry.
From S2P Require Import RoutingState.
From S2P Require Import Orchestrator.
From S2P Require Import Route.
From S2P Require Import ArtifactScan.
From S2P Require Import Workspace.
From S2P Require Import TaskText.
From S2P Require Import Completion.
From S2P Require Import Feedback.
From S2P Require Import Confidence.
From S2P Require Import RigelExecution.
From S2P Require Import Rigel.
From Stdlib Require Import Ascii.
Open Scope Z_scope.

(** The files of the workspace, as a part of what the agents act on. *)
Class WorkspaceFiles (R : Type) := {
  files_of : R → list (string * string);
  put_files : list (string * string) → R → R;
  files_put : ∀ fs w, files_of (put_files fs w) = fs;
  put_own : ∀ w, put_files (files_of w) w = w }.

(** A text without any of the keys the scan knows. *)
Definition clean (text : string) : Prop := ∀ rule, ¬ leaks rule text.

(** Whatever is new is such a text. *)
Definition only_clean (fs fs' : list (string * string)) : Prop :=
  ∀ p text, assoc_get p fs' = Some text → assoc_get p fs = Some text ∨ clean text.

(** What the service relies on: an agent brings no key into the workspace. *)
Class GuardedAgents {R : Type} `{!WorkspaceFiles R} (agents : string → option (agent_run R)) : Prop :=
  agent_files a run skill payload ctx w : agents a = Some run →
    only_clean (files_of w) (files_of (run skill payload ctx w).2).

Record service (O R : Type) := mk_service {
  sv_platform : platform O R;
  sv_jobs : db }.
Arguments mk_service {O R}. Arguments sv_platform {O R}. Arguments sv_jobs {O R}.

Definition platform_files {O R : Type} `{!WorkspaceFiles R} (p : platform O R) : list (string * string) :=
  files_of (rt_ext (pl_routing p)).
Definition sv_files {O R : Type} `{!WorkspaceFiles R} (s : service O R) : list (string * string) :=
  platform_files (sv_platform s).
Definition with_files {O R : Type} `{!WorkspaceFiles R} (fs : list (string * string)) (s : service O R) : service O R :=
  let w := pl_routing (sv_platform s) in
  mk_service (set_routing (mk_rw (rt_grants w) (put_files fs (rt_ext w))) (sv_platform s)) (sv_jobs s).

Record task_request := mk_task_request {
  tr_task : string;
  tr_skill : string;
  tr_mode : option string;
  tr_session : list session_item;
  tr_override : option jdict }.

(** [item.model_dump(exclude_none=True)]. *)
Definition dump_item (i : session_item) : json :=
  let opt k (v : option json) := match v with Some v => [(k, v)] | None => [] end in
  JObj (opt "role" (JStr <$> si_role i) ++ [("content", JStr (si_content i))] ++ opt "skill_id" (JStr <$> si_skill i)
    ++ opt "assigned_agent" (JStr <$> si_agent i) ++ opt "status" (JStr <$> si_status i)
    ++ opt "confidence" (JFloat <$> si_confidence i)).

Definition finding_json (f : finding) : json :=
  JObj [("rule", JStr (f_rule f)); ("severity", JStr (f_severity f)); ("filename", JStr (f_filename f))].

(** [ArtifactScan.as_dict]. *)
Definition scan_json (s : ArtifactScan) : json :=
  JObj [("tool", JStr "galaxz-artifact-scan"); ("version", JStr "1.1"); ("status", JStr (sc_status s));
        ("findings", JArr (map finding_json (sc_findings s))); ("overridden", JArr (map finding_json (sc_overridden s)));
        ("reviewer_override",
          match sc_override s with
          | Some o => JObj [("reviewer", JStr (reviewer o)); ("decision", JStr (decision o));
                            ("findings", JArr (map JStr (ov_findings o)))]
          | None => JNull
          end)].

(** A number of a JSON value, booleans included, as [isinstance(v, (int, float))] takes it. *)
Definition number_of (v : json) : option Q :=
  match v with
  | JInt z => Some (inject_Z z)
  | JFloat q => Some q
  | JBool b => Some (if b then 1 else 0)%Q
  | _ => None
  end.

Section Service.
Context {O R : Type} `{ObjectStorage O} `{!WorkspaceFiles R}.
Context (sha256 : string → string) (configured : bool).
Context (agents : string → option (agent_run R)).
Context (rules : PolicyEngine) (digest : option string → string → jdict → string).
Context (float_text : string → result Q) (weights : jdict) (reg : registry) (arrow : string).
Context (completion_threshold failure_threshold : Q).
Context (parse_uuid : string → option uuid) (path_join : string → string → string)
  (mkdir : string → M R unit).
Context (workspace_config : result (option string)) (clock : nat → nat → time) (task_ids : nat → uuid).
Context (resolve : path → path) (exists_ : path → bool) (os_error : path → string → option string)
  (not_text : json → string).
Context (py_str : json → string) (scan_limit : Z) (mounted_host : string).
Local Abbreviation service_ := (service O R).

Definition on_platform {A} (m : M (platform O R) A) : M service_ A := λ s,
  let '(r, p) := m (sv_platform s) in (r, mk_service p (sv_jobs s)).
Definition on_files {A} (m : M (list (string * string)) A) : M service_ A := λ s,
  let '(r, f) := m (sv_files s) in (r, with_files f s).
Definition on_jobs {A} (m : M db A) : M service_ A := λ s,
  let '(r, d) := m (sv_jobs s) in (r, mk_service (sv_platform s) d).

(** [except ... as e: raise HTTPException(...)]. *)
Definition raise_as {A} (f : exn → exn) (m : M service_ A) : M service_ A := λ s,
  match m s with (Raise e, s) => (Raise (f e), s) | r => r end.
Definition or_500 {A} : M service_ A → M service_ A := raise_as (λ _, HTTPException 500).

(** [_read_workspace_path]: the empty text stands for none. *)
Definition read_workspace_path : result string := ws ← workspace_config; Ok (or_else ws "").

(** [_workspace_display_path]. *)
Definition workspace_display_path (p : string) : string :=
  let path := path_of p in let base := path_of "/workspace" in
  if truthy_str p && truthy_str mounted_host && is_relative_to path base then
    path_str (path_div (path_of mounted_host) (mk_path "" (drop (length (parts base)) (parts path))))
  else p.

(** *** Routing *)

Definition contract_of (i : nat) (skill text : string) : result TaskContract :=
  validate_task (mk_Task (task_ids i) "andromeda_api" skill (payload_for_skill skill text) (65 # 100) None None None None
    (clock i 0)).

(** The [i]-th route of a request. *)
Definition route_task (i : nat) (t : TaskContract) (ctx : option jdict) : M service_ jdict :=
  on_platform (route sha256 configured agents rules digest float_text weights reg arrow completion_threshold
    failure_threshold parse_uuid path_join mkdir workspace_config (clock i) (task_ids i)
    (mk_args (Some t) None [] None ctx "NORMAL")).

(** [_route_one]. *)
Definition route_one (i : nat) (skill text : string) (session : list session_item) : M service_ jdict :=
  t ← mlift (contract_of i skill (task_text_with_session_context text session));
  route_task i t (match session with
    | [] => None
    | _ => Some [("task_ui_session", JArr (map dump_item session)); ("current_user_message", JStr text)]
    end).

Definition is_complete (state : jdict) : bool := is_str (obj_field "status" state) "complete".

Definition dict_or_empty (v : json) : jdict := match v with JObj d => d | _ => [] end.

Definition min_of (l : list Q) : json :=
  match l with
  | [] => JFloat 0
  | q :: l => JFloat (foldl (λ a b, if Qltb b a then b else a) q l)
  end.

Definition step_json (state : jdict) (skill : string) : json :=
  JObj [("agent", obj_field "assigned_agent" state); ("skill", JStr skill); ("task_id", obj_field "task_id" state);
        ("status", obj_field "status" state); ("confidence", obj_field "confidence" state)].

(** The answer of the two steps. *)
Definition code_then_qa_answer (code_state qa_state : jdict) (generated : string) (language : json) : jdict :=
  let qa_skill := "vega.skill.requirements_to_test_cases" in
  let status := if is_complete qa_state then JStr "complete" else obj_default "status" (JStr "failed") qa_state in
  [("task_id", jor (obj_field "task_id" qa_state) (obj_field "task_id" code_state));
   ("task_type", JStr "code_then_qa");
   ("required_skills", JArr [JStr "rigel.skill.code_generation"; JStr qa_skill]);
   ("assigned_agent", JStr "rigel+vega");
   ("assignment_reason", JStr ("auto_route: Rigel code_generation " +:+ arrow +:+ " Vega requirements_to_test_cases"));
   ("status", status);
   ("confidence", min_of (omap number_of [obj_field "confidence" code_state; obj_field "confidence" qa_state]));
   ("confidence_breakdown",
      JObj [("rigel_code_generation", obj_default "confidence" (JFloat 0) code_state);
            ("vega_requirements_to_test_cases", obj_default "confidence" (JFloat 0) qa_state)]);
   ("gaps", JArr []);
   ("failure_reason", if is_str status "complete" then JNull else obj_field "failure_reason" qa_state);
   ("escalated_to_human",
      JBool (truthy (obj_field "escalated_to_human" code_state) || truthy (obj_field "escalated_to_human" qa_state)));
   ("issued_at", obj_field "issued_at" code_state);
   ("completed_at", jor (obj_field "completed_at" qa_state) (obj_field "completed_at" code_state));
   ("result",
      JObj [("code", JStr generated); ("language", language);
            ("notes", JStr "Auto-route completed: Rigel generated the Python program, then Vega generated ISTQB-style test cases.");
            ("qa_result", JObj (dict_or_empty (obj_field "result" qa_state)));
            ("steps", JArr [step_json code_state "rigel.skill.code_generation"; step_json qa_state qa_skill])])].

(** [_truncate_for_agent_context(str(code_result.get("code", "")))]. *)
Definition generated_code (code_result : jdict) : string :=
  truncate_for_agent_context (match obj_default "code" (JStr "") code_result with JStr s => s | v => py_str v end).

(** [_route_code_then_qa]. *)
Definition route_code_then_qa (text : string) (session : list session_item) : M service_ jdict :=
  let contextual := task_text_with_session_context text session in
  code_state ← route_one 0 "rigel.skill.code_generation" (implementation_prompt contextual) [];
  if negb (is_complete code_state) then mret code_state
  else
    let code_result := dict_or_empty (obj_field "result" code_state) in
    let generated := generated_code code_result in
    qa_state ← route_one 1 "vega.skill.requirements_to_test_cases" (qa_prompt contextual generated) [];
    mret (code_then_qa_answer code_state qa_state generated (obj_default "language" (JStr "python") code_result)).

(** *** Answering a task *)

(** [tuple(v)] of the findings of an override, as far as they can match a key. *)
Definition override_of (o : option jdict) : result (option ArtifactScanOverride) :=
  match o with
  | None | Some [] => Ok None
  | Some d =>
      findings ← match obj_default "findings" (JArr []) d with
                 | JArr l => Ok (omap (λ v, match v with JStr s => Some s | _ => None end) l)
                 | JStr s => Ok (map (λ c, String c "") (to_list s))
                 | JObj m => Ok (map fst m)
                 | _ => Raise TypeError
                 end;
      let text k := match obj_default k (JStr "") d with JStr s => s | v => py_str v end in
      Ok (Some (mk_override (text "reviewer") (text "decision") findings))
  end.

Definition artifacts_of (state : jdict) : result (list jdict) :=
  match obj_default "artifacts" (JArr []) state with
  | JArr l => rmap (λ a, of_option AttributeError (as_dict a)) l
  | _ => Raise TypeError
  end.

(** The workspace the task was given, or the configured one. *)
Definition workspace_of (state : jdict) : result string :=
  match obj_get "context" state with
  | None => read_workspace_path
  | Some (JObj c) =>
      match obj_default "workspace_root" (JStr "") c with
      | JStr s => Ok s
      | JNull => Ok ""
      | _ => Raise TypeError
      end
  | Some _ => Raise AttributeError
  end.

(** Writing, when there is a workspace and something to write; [None] when nothing was
    tried. A workspace that is gone is only logged. *)
Definition write_results (ws : string) (state : jdict) (artifacts : list jdict) : M service_ (option (list jdict)) :=
  if truthy_str ws && truthy (obj_field "writable" state) && match artifacts with [] => false | _ => true end then
    match file_writer resolve exists_ ws with
    | Raise _ => mret (Some [])
    | Ok base => l ← on_files (write_artifacts os_error not_text base artifacts None); mret (Some l)
    end
  else mret None.

(** The artifacts of the answer. *)
Definition shown_artifacts (artifacts : list jdict) (results : option (list jdict)) : list json :=
  match results with
  | None => map (λ a, JObj (obj_set "written" (JBool false) a)) artifacts
  | Some l =>
      map (λ x : jdict * jdict, JObj (obj_set "path"
        (match obj_field "path" x.2 with JStr p => JStr (workspace_display_path p) | v => v end) (dict_merge x.1 x.2)))
        (zip artifacts l)
  end.

Definition shown_answer (state : jdict) (ws : string) (artifacts : list json) (scan : ArtifactScan) : jdict :=
  dict_merge state
    [("artifacts", JArr artifacts);
     ("workspace_path", let p := workspace_display_path ws in if truthy_str p then JStr p else JNull);
     ("confidence_breakdown", jor (obj_field "confidence_breakdown" state) (JObj []));
     ("gaps", jor (obj_field "gaps" state) (JArr []));
     ("summary", jor (obj_field "summary" state) (JStr ""));
     ("artifact_scan", scan_json scan)].

(** What follows a route: the scan, the files, the answer. *)
Definition answer_task (req : task_request) (state : jdict) : M service_ jdict :=
  ws ← mlift (workspace_of state);
  override ← mlift (override_of (tr_override req));
  artifacts ← mlift (artifacts_of state);
  let scan := scan_artifacts py_str scan_limit override artifacts in
  mguard (negb (bool_decide (sc_status scan ∈ ["blocked"; "escalate"]))) (HTTPException 422);;
  results ← write_results ws state artifacts;
  mret (shown_answer state ws (shown_artifacts artifacts results) scan).

(** [post_task]. *)
Definition post_task (req : task_request) : M service_ jdict :=
  if is_auto_route (normalize_skill_id reg (tr_skill req)) (tr_mode req) && needs_code_then_qa (tr_task req) then
    or_500 (route_code_then_qa (tr_task req) (tr_session req))
  else
    state ← or_500 (route_one 0 (choose_skill reg (tr_task req) (tr_skill req) (tr_mode req)) (tr_task req) (tr_session req));
    answer_task req state.

(** *** Jobs *)

(** [post_job]. *)
Definition post_job (job_id : uuid) (req : task_request) (key : string) (priority : Z) (policy : RetryPolicy) : M service_ Job :=
  t ← mlift (contract_of 0 (normalize_skill_id reg (tr_skill req))
        (task_text_with_session_context (tr_task req) (tr_session req)));
  raise_as (λ e, match e with ValueError => HTTPException 422 | _ => e end)
    (on_jobs (enqueue job_id (t_task_id t) (Some t) key priority (Some policy) (clock 0 1))).

(** [cancel_job]: cancelling what is cancelled is answered like the first time. *)
Definition cancel_job (j : uuid) : M service_ Job := λ s,
  match on_jobs (JobRepository.cancel j (clock 0 0)) s with
  | (Raise KeyError, s) => (Raise (HTTPException 404), s)
  | (Raise ValueError, s) =>
      match get_job j (sv_jobs s) with
      | Ok (Some job) => if bool_decide (status job = cancelled) then (Ok job, s) else (Raise (HTTPException 409), s)
      | Ok None => (Raise (HTTPException 409), s)
      | Raise e => (Raise e, s)
      end
  | (Raise InvalidJobState, s) => (Raise (HTTPException 409), s)
  | r => r
  end.

(** *** Rollback *)

(** [rollback_artifact]. *)
Definition rollback_artifact (p workspace_root : string) (version : Z) (project org : option string) :
    M service_ (string * bool) :=
  row ← raise_as (λ e, match e with PermissionError => HTTPException 403 | _ => e end)
    (mread (λ s, get_version configured (identity_key workspace_root p) version project org (pl_artifacts (sv_platform s))));
  row ← mlift (of_option (HTTPException 404) row);
  ws ← mlift read_workspace_path;
  if truthy_str ws then
    match file_writer resolve exists_ ws with
    | Raise _ => mret (v_content row, false)
    | Ok base =>
        on_files (write_artifacts os_error not_text base
          [[("filename", JStr p); ("content", JStr (v_content row)); ("artifact_type", JStr (or_else (v_type row) ""));
            ("language", JStr (or_else (v_language row) ""))]] None);;
        mret (v_content row, true)
    end
  else mret (v_content row, false).
End Service.

(** ** Theorems

    What submitting a task promises: what reaches the workspace was scanned, the tests of
    an automatic route follow code that was completed, and going back to a version
    answers with that version. *)

(** ** The answer of a route *)

Lemma lift_confidence s : obj_get "confidence" (lift_output s) = Some (jopt_num (s_confidence s)).
Proof. unfold lift_output. by rewrite !obj_get_set. Qed.

(** An answer and the row the log holds for it. *)
Definition logged (st : jdict) (log : list log_row) : Prop :=
  ∃ row, row ∈ log ∧ obj_get "status" st = Some (JStr (l_status row)).

(** A step that is complete: the log says so, and its confidence reaches the threshold
    of every contract of the service. *)
Definition complete_step (st : jdict) (q : Q) (log : list log_row) : Prop :=
  (∃ row, row ∈ log ∧ l_status row = "complete")
  ∧ obj_get "confidence" st = Some (JFloat q) ∧ (65 # 100 <= q)%Q.

(** ** Scanning *)

Lemma passed_or_stopped fs : status_of fs ∈ ["blocked"; "escalate"] ∨ fs = [].
Proof.
  unfold status_of. destruct (existsb _ fs); [left; by left|]. destruct fs; [by right|]. left. right. by left.
Qed.

Lemma passed_leaks_accepted py_str limit o artifacts a rule :
  List.filter (λ f, negb (accepted o f)) (flat_map (scan_artifact py_str limit) artifacts) = [] →
  a ∈ artifacts → leaks rule (text_field py_str "content" a) →
  accepted o (mk_finding rule "critical" (text_field py_str "filename" a)) = true.
Proof.
  intros Hnil Ha Hl. apply leak_found in Hl as (r & Hr & Hs).
  pose proof (scan_artifact_rule py_str limit a rule r Hr Hs) as Hf.
  destruct (accepted o _) eqn:Hacc; [done|exfalso].
  assert (Hin : mk_finding rule "critical" (text_field py_str "filename" a)
    ∈ List.filter (λ f, negb (accepted o f)) (flat_map (scan_artifact py_str limit) artifacts)).
  { apply list_elem_of_In, filter_In. split; [|by rewrite Hacc]. apply in_flat_map. exists a. by rewrite <-!list_elem_of_In. }
  rewrite Hnil in Hin. by apply not_elem_of_nil in Hin.
Qed.

Section TaskServiceProps.
Context {O R : Type} `{ObjectStorage O} `{!WorkspaceFiles R}.
Context (sha256 : string → string) (configured : bool).
Context (agents : string → option (agent_run R)).
Context (rules : PolicyEngine) (digest : option string → string → jdict → string).
Context (float_text : string → result Q) (weights : jdict) (reg : registry) (arrow : string).
Context (completion_threshold failure_threshold : Q).
Context (parse_uuid : string → option uuid) (path_join : string → string → string)
  (mkdir : string → M R unit).
Context (workspace_config : result (option string)) (clock : nat → nat → time) (task_ids : nat → uuid).
Context (resolve : path → path) (exists_ : path → bool) (os_error : path → string → option string)
  (not_text : json → string).
Context (py_str : json → string) (scan_limit : Z) (mounted_host : string).
Local Abbreviation service_ := (service O R).
Local Abbreviation route_one_ := (route_one sha256 configured agents rules digest float_text weights reg arrow
  completion_threshold failure_threshold parse_uuid path_join mkdir workspace_config clock task_ids).
Local Abbreviation code_then_qa_ := (route_code_then_qa sha256 configured agents rules digest float_text weights reg
  arrow completion_threshold failure_threshold parse_uuid path_join mkdir workspace_config clock task_ids py_str).
Local Abbreviation answer_ := (answer_task workspace_config resolve exists_ os_error not_text py_str scan_limit mounted_host).
Local Abbreviation post_ := (post_task sha256 configured agents rules digest float_text weights reg arrow
  completion_threshold failure_threshold parse_uuid path_join mkdir workspace_config clock task_ids resolve exists_
  os_error not_text py_str scan_limit mounted_host).
Local Abbreviation rollback_ := (rollback_artifact configured workspace_config resolve exists_ os_error not_text).

Context `{!GuardedAgents agents} (mkdir_files : ∀ d w, files_of (mkdir d w).2 = files_of w).

Lemma sv_with_files fs (s : service_) : sv_files (with_files fs s) = fs.
Proof. apply files_put. Qed.
Lemma with_own_files (s : service_) : with_files (sv_files s) s = s.
Proof. destruct s as [[[] ? ? ? ? ?] ?]. unfold with_files, sv_files, platform_files. simpl. by rewrite put_own. Qed.

(** What a route may do: nothing to the jobs, and only clean texts to the files. *)
Definition guarded_platform (p p' : platform O R) : Prop := only_clean (platform_files p) (platform_files p').
Definition guarded (s s' : service_) : Prop := sv_jobs s' = sv_jobs s ∧ only_clean (sv_files s) (sv_files s').

#[local] Instance only_clean_pre : PreOrder only_clean.
Proof.
  split; [by left|]. intros a b c Hab Hbc p text Hc. destruct (Hbc p text Hc) as [Hb|]; [by apply Hab|by right].
Qed.
#[local] Instance guarded_platform_pre : PreOrder guarded_platform.
Proof. split; [by intros p; unfold guarded_platform|]. intros a b c. unfold guarded_platform. apply transitivity. Qed.
#[local] Instance guarded_pre : PreOrder guarded.
Proof. split; [by intros s; split|]. intros a b c [] []. split; [congruence|by etrans]. Qed.

Definition guarded_world (w w' : routing_world R) : Prop := only_clean (files_of (rt_ext w)) (files_of (rt_ext w')).
#[local] Instance guarded_world_pre : PreOrder guarded_world.
Proof. split; [by intros p; unfold guarded_world|]. intros a b c. unfold guarded_world. apply transitivity. Qed.

Definition guarded_ext (w w' : R) : Prop := only_clean (files_of w) (files_of w').
#[local] Instance guarded_ext_pre : PreOrder guarded_ext.
Proof. split; [by intros p; unfold guarded_ext|]. intros a b c. unfold guarded_ext. apply transitivity. Qed.

Lemma execute_guarded s : within guarded_ext (execute_node agents s).
Proof.
  unfold execute_node. apply within_bind; [apply _|apply within_lift; apply _|intros skill].
  destruct (assigned_agent s) as [a|]; [|go_within]. destruct (agents a) as [run|] eqn:E; [|go_within].
  intros w. unfold run_guarded. match goal with |- guarded_ext _ (let '(_, _) := run ?sk ?pl ?ctx _ in _).2 =>
    pose proof (agent_files a run sk pl ctx w E) as Hf; by destruct (run sk pl ctx w) end.
Qed.

Lemma on_ext_guarded {A} (m : M R A) : within guarded_ext m → within guarded_world (on_ext m).
Proof. intros Hm w. unfold on_ext. specialize (Hm (rt_ext w)). by destruct (m (rt_ext w)). Qed.

Lemma node_guarded n now s : within guarded_world (node_step agents rules digest float_text weights reg arrow n now s).
Proof.
  destruct n; simpl; try solve [go_within].
  - intros w. unfold on_grants, guarded_world. destruct (policy_node _ _ _ _ _). reflexivity.
  - apply on_ext_guarded, execute_guarded.
Qed.

Lemma invoke_guarded clk s : within guarded_world
  (invoke agents rules digest float_text weights reg arrow completion_threshold failure_threshold clk s).
Proof.
  unfold invoke. generalize recursion_limit as fuel, 0%nat as k, policy_check as n. intros fuel. revert s.
  induction fuel as [|fuel IH]; intros s k n; cbn [run_graph]; go_within; [apply node_guarded|apply IH].
Qed.

Lemma on_routing_guarded {A} (m : M (routing_world R) A) : within guarded_world m → within guarded_platform (on_routing (O := O) m).
Proof. intros Hm p. unfold on_routing. specialize (Hm (pl_routing p)). by destruct (m (pl_routing p)). Qed.

Lemma publish_guarded clk t s res : within guarded_platform (publish_answer (R := R) sha256 configured clk t s res).
Proof.
  unfold publish_answer. go_within; intros p; unfold in_artifacts, in_queue; unfold guarded_platform; try reflexivity.
  destruct (record _ _ _ _ _ _ _ _ _ _ _). reflexivity.
Qed.

Lemma route_guarded clk fresh a : within guarded_platform (route (O := O) sha256 configured agents rules digest float_text
  weights reg arrow completion_threshold failure_threshold parse_uuid path_join mkdir workspace_config clk fresh a).
Proof.
  unfold route. go_within; try (intros p; unfold guarded_platform; reflexivity); [| |apply publish_guarded].
  - unfold goal_folder. go_within; [intros p; unfold guarded_platform; reflexivity|]. apply on_routing_guarded, on_ext_guarded. intros w p text.
    rewrite mkdir_files. by left.
  - apply on_routing_guarded, invoke_guarded.
Qed.

Lemma route_one_guarded i skill text session : within guarded (route_one_ i skill text session).
Proof.
  unfold route_one. go_within. intros s. unfold route_task, on_platform.
  match goal with |- guarded _ (let '(_, _) := route ?a ?b ?c ?d ?e ?f ?g ?h ?i0 ?j ?k ?l ?m ?n ?o ?q ?fr ?ar _ in _).2 =>
    pose proof (route_guarded q fr ar (sv_platform s)) as Hg end.
  by destruct (route _ _ _ _ _ _ _ _ _ _ _ _ _ _ _ _ _ _ _).
Qed.

Lemma raise_as_guarded {A} g (m : M service_ A) : within guarded m → within guarded (raise_as g m).
Proof. intros Hm s. unfold raise_as. specialize (Hm s). by destruct (m s) as [[]]. Qed.

Lemma code_then_qa_guarded text session : within guarded (code_then_qa_ text session).
Proof. unfold route_code_then_qa. go_within; apply route_one_guarded. Qed.

(** After a route files change only in [write_artifacts]. *)
Lemma write_results_files ws state artifacts (s : service_) x s' :
  write_results resolve exists_ os_error not_text ws state artifacts s = (x, s') →
  s' = s ∨ ∃ base, s' = with_files (write_artifacts os_error not_text base artifacts None (sv_files s)).2 s.
Proof.
  unfold write_results. munfold. destruct (_ && _); [|intros [= <- <-]; naive_solver].
  destruct (file_writer _ _ _) as [base|]; [|intros [= <- <-]; naive_solver]. unfold on_files.
  destruct (write_artifacts _ _ _ _ _ _) as [r f] eqn:E. intros Hw.
  assert (s' = with_files f s) as -> by (by destruct r; simplify_eq). right. exists base. by rewrite E.
Qed.

(** What is written is the text of an artifact. *)
Lemma written_texts base artifacts fs p text :
  assoc_get p (write_artifacts os_error not_text base artifacts None fs).2 = Some text →
  assoc_get p fs = Some text ∨ ∃ a, a ∈ artifacts ∧ obj_get "content" a = Some (JStr text).
Proof.
  unfold write_artifacts. revert fs. induction artifacts as [|a l IH]; intros fs; [by left|]. cbn [mmapM]. munfold.
  assert (∀ text, assoc_get p (write_one os_error not_text base a fs).2 = Some text →
    assoc_get p fs = Some text ∨ obj_get "content" a = Some (JStr text)) as Ha.
  { intros t. unfold write_one, content_of. munfold. destruct (obj_get "filename" a) as [[]|]; simpl; try by left.
    destruct (obj_get "content" a) as [[]|]; simpl; try by left. destruct (os_error _ _); simpl; [by left|].
    rewrite assoc_get_set. destruct (String.eqb p _); [|by left]. intros [= ->]. by right. }
  destruct (write_one os_error not_text base a fs) as [[r|e] f]; simpl in Ha.
  - specialize (IH f). munfold. destruct (mmapM _ l f) as [[rs|e] f']; simpl in *; intros H1;
      (destruct (IH H1) as [H2|(x & Hx & Hc)]; [|right; exists x; split; [by right|done]]);
      (destruct (Ha _ H2) as [|Hc]; [by left|right; exists a; split; [by left|done]]).
  - intros [|]%Ha; [by left|right]. exists a. split; [by left|done].
Qed.

(** The artifacts of an answer that passed the scan. *)
Definition scanned (req : task_request) (state : jdict) (artifacts : list jdict) : Prop :=
  artifacts_of state = Ok artifacts
  ∧ ∃ o, override_of py_str (tr_override req) = Ok o
    ∧ sc_status (scan_artifacts py_str scan_limit o artifacts) = "passed"
    ∧ ∀ a rule, a ∈ artifacts → leaks rule (text_field py_str "content" a) →
        accepted o (mk_finding rule "critical" (text_field py_str "filename" a)) = true.

Lemma answer_files req state (s : service_) x s' : answer_ req state s = (x, s') →
  s' = s ∨ ∃ artifacts base, scanned req state artifacts
      ∧ s' = with_files (write_artifacts os_error not_text base artifacts None (sv_files s)).2 s.
Proof.
  unfold answer_task. munfold. destruct (workspace_of _ _) as [ws|]; simpl; [|intros [= <- <-]; by auto].
  destruct (override_of _ _) as [o|] eqn:Eo; simpl; [|intros [= <- <-]; by auto].
  destruct (artifacts_of _) as [artifacts|] eqn:Ea; simpl; [|intros [= <- <-]; by auto].
  destruct (bool_decide _) eqn:Eb; simpl; [intros [= <- <-]; by auto|]. apply bool_decide_eq_false in Eb.
  destruct (write_results _ _ _ _ _ _ _ s) as [r s1] eqn:Ew. apply write_results_files in Ew as Hf.
  intros Hx. assert (s' = s1) as -> by (by destruct r; simplify_eq).
  destruct Hf as [|(base & Hf)]; [by left|right]. exists artifacts, base. split; [|done]. split; [done|].
  exists o. split; [done|]. destruct (passed_or_stopped (List.filter (λ f, negb (accepted o f))
    (flat_map (scan_artifact py_str scan_limit) artifacts))) as [Hp|Hnil]; [by destruct (Eb Hp)|].
  split; [simpl; by apply status_passed|]. intros a rule. exact (passed_leaks_accepted py_str scan_limit o artifacts a rule Hnil).
Qed.

(** C13: only scanned work reaches the workspace, when the agents keep to what
    [GuardedAgents] says, as Rigel does. Submitting a task touches no durable job. While
    the route runs the agents bring only texts without a key into the files; after it the
    files change only by writing the artifacts of the answer, when the scan of exactly
    those artifacts passed. So every new text of the workspace with a key in it is one the
    reviewer the request names has accepted, for that rule and that artifact. *)
Theorem only_scanned_work_reaches_the_workspace req (s : service_) x s' : post_ req s = (x, s') →
  sv_jobs s' = sv_jobs s
  ∧ (∃ s1, only_clean (sv_files s) (sv_files s1)
     ∧ (sv_files s' = sv_files s1
        ∨ ∃ skill state artifacts base, route_one_ 0%nat skill (tr_task req) (tr_session req) s = (Ok state, s1)
          ∧ scanned req state artifacts
          ∧ sv_files s' = (write_artifacts os_error not_text base artifacts None (sv_files s1)).2))
  ∧ ∀ p text rule, assoc_get p (sv_files s') = Some text → leaks rule text → assoc_get p (sv_files s) ≠ Some text →
      ∃ o a, override_of py_str (tr_override req) = Ok o ∧ obj_get "content" a = Some (JStr text)
        ∧ accepted o (mk_finding rule "critical" (text_field py_str "filename" a)) = true.
Proof.
  intros Hp.
  assert (sv_jobs s' = sv_jobs s ∧ ∃ s1, only_clean (sv_files s) (sv_files s1)
    ∧ (sv_files s' = sv_files s1
       ∨ ∃ skill state artifacts base, route_one_ 0%nat skill (tr_task req) (tr_session req) s = (Ok state, s1)
         ∧ scanned req state artifacts
         ∧ sv_files s' = (write_artifacts os_error not_text base artifacts None (sv_files s1)).2)) as [Hj Hf].
  { revert Hp. unfold post_task. destruct (_ && _).
    - intros Hp. pose proof (raise_as_guarded (λ _, HTTPException 500) _ (code_then_qa_guarded (tr_task req) (tr_session req)) s) as Hg.
      unfold or_500 in Hp. rewrite Hp in Hg. destruct Hg as [Hj Hf]. split; [done|]. exists s'. by split; [|left].
    - set (skill := choose_skill _ _ _ _). unfold or_500, raise_as. munfold.
      pose proof (route_one_guarded 0 skill (tr_task req) (tr_session req) s) as [Hj Hf].
      destruct (route_one_ 0%nat skill _ _ s) as [[state|e] s1] eqn:Er; simpl in Hj, Hf.
      2: { intros [= <- <-]. split; [done|]. exists s1. by split; [|left]. }
      intros [->|(artifacts & base & Hs & ->)]%answer_files; (split; [done|]); exists s1; (split; [done|]); [by left|right].
      exists skill, state, artifacts, base. split_and!; [done|done|]. apply files_put. }
  split; [done|]. split; [done|]. intros p text rule Ht Hl Hn. destruct Hf as (s1 & Hc & Hf).
  assert (assoc_get p (sv_files s1) ≠ Some text) as Hn1.
  { intros H1. destruct (Hc p text H1) as [|Hclean]; [done|]. by destruct (Hclean rule). }
  destruct Hf as [Hf|(skill & state & artifacts & base & _ & (_ & o & Ho & _ & Hacc) & Hf)]; rewrite Hf in Ht; [done|].
  apply written_texts in Ht as [|(a & Ha & Htext)]; [done|]. exists o, a. split_and!; [done|done|].
  apply Hacc; [done|]. unfold text_field, obj_default. by rewrite Htext.
Qed.

(** ** Code, then tests *)

Lemma contract_threshold i skill text t : contract_of clock task_ids i skill text = Ok t →
  confidence_threshold t = (65 # 100)%Q ∧ execution_attempt_id t = None.
Proof. unfold contract_of, validate_task. intros H1. rok. done. Qed.

Lemma route_one_answer i skill text session (s : service_) st s' : route_one_ i skill text session s = (Ok st, s') →
  logged st (pl_log (sv_platform s'))
  ∧ (is_complete st = true → ∃ q, complete_step st q (pl_log (sv_platform s'))).
Proof.
  unfold route_one. intros Hr. apply mbind_ok in Hr as (t & s0 & Ht & Hr). unfold mlift in Ht. injection Ht as Ht <-.
  apply contract_threshold in Ht as [Hth Hatt]. unfold route_task, on_platform in Hr.
  destruct (route _ _ _ _ _ _ _ _ _ _ _ _ _ _ _ _ _ _ _) as [x p] eqn:E. injection Hr as -> <-. simpl.
  apply route_ok in E as (t' & s1 & r & rw & rw' & w1 & Ht & Hi & (_ & Hrq & _) & Hlog & _ & folder & Hres).
  injection Ht as <-. rewrite Hatt in Hres. apply published_answer in Hres as [El Hres].
  assert (Hrow : row_of_state s1 ∈ pl_log p) by (rewrite El, Hlog; apply upsert_elem).
  assert (Hst : obj_get "status" st = Some (JStr (s_status s1)) ∧ obj_get "confidence" st = Some (jopt_num (s_confidence s1))).
  { destruct (String.eqb _ _); destruct Hres as [-> _]; rewrite ?obj_get_set; by rewrite lift_status, lift_confidence. }
  destruct Hst as [Hst Hc]. split; [by exists (row_of_state s1)|].
  unfold is_complete, obj_field. rewrite Hst. simpl. intros Hs%String.eqb_eq.
  destruct (invoke_complete _ _ _ _ _ _ _ _ _ _ _ _ _ _ _ Hi Hs) as (_ & _ & _ & Hq).
  unfold threshold_of in Hq. rewrite Hrq, Hth in Hq. simpl in Hq. unfold confidence_of in Hq.
  destruct (s_confidence s1) as [q|]; [|by vm_compute in Hq]. exists q. split_and!; [|exact Hc|exact Hq].
  by exists (row_of_state s1).
Qed.

Lemma default_complete d : is_complete d = false → is_str (obj_default "status" (JStr "failed") d) "complete" = false.
Proof. unfold is_complete, obj_field, obj_default. by destruct (obj_get "status" d). Qed.

Lemma min_of_two a b : ∃ q, min_of [a; b] = JFloat q ∧ (q <= a)%Q ∧ (q <= b)%Q ∧ (q = a ∨ q = b).
Proof.
  simpl. destruct (Qltb b a) eqn:E; eexists; (split; [done|]).
  - apply Qltb_lt in E. split_and!; [by apply Qlt_le_weak|apply Qle_refl|by right].
  - split_and!; [apply Qle_refl| |by left]. apply Qnot_lt_le. intros Hlt. by rewrite (proj2 (Qltb_lt b a) Hlt) in E.
Qed.

Lemma answer_complete code qa generated language :
  is_complete (code_then_qa_answer arrow code qa generated language) = is_complete qa.
Proof.
  unfold is_complete at 1. unfold code_then_qa_answer, obj_field at 1. simpl.
  destruct (is_complete qa) eqn:E; [done|by apply default_complete].
Qed.

Lemma answer_confidence code qa generated language qc qq :
  obj_get "confidence" code = Some (JFloat qc) → obj_get "confidence" qa = Some (JFloat qq) →
  obj_get "confidence" (code_then_qa_answer arrow code qa generated language) = Some (min_of [qc; qq]).
Proof.
  intros Hc Hq. unfold code_then_qa_answer. simpl obj_get. unfold obj_field. rewrite Hc, Hq. done.
Qed.

(** Tests follow working code. An automatic route asks for code first. Code that is not
    complete is the whole answer, and no test is asked for; otherwise the tests are
    asked for with the generated code, after the log has the code complete. The answer
    is complete exactly when the tests are, and then both steps reached the threshold and
    its confidence is the smaller of the two. *)
Theorem tests_follow_working_code text session (s : service_) ans s' : code_then_qa_ text session s = (Ok ans, s') →
  ∃ code s1, route_one_ 0%nat "rigel.skill.code_generation"
      (implementation_prompt (task_text_with_session_context text session)) [] s = (Ok code, s1)
    ∧ (is_complete code = false ∧ ans = code ∧ s' = s1
       ∨ ∃ qa qc, complete_step code qc (pl_log (sv_platform s1))
         ∧ route_one_ 1%nat "vega.skill.requirements_to_test_cases"
             (qa_prompt (task_text_with_session_context text session)
                (generated_code py_str (dict_or_empty (obj_field "result" code)))) [] s1 = (Ok qa, s')
         ∧ is_complete ans = is_complete qa
         ∧ (is_complete ans = true → ∃ qq q, complete_step qa qq (pl_log (sv_platform s'))
             ∧ obj_get "confidence" ans = Some (JFloat q) ∧ (65 # 100 <= q)%Q ∧ (q <= qc)%Q ∧ (q <= qq)%Q)).
Proof.
  unfold route_code_then_qa. intros Hr. apply mbind_ok in Hr as (code & s1 & Hcode & Hr). exists code, s1. split; [done|].
  pose proof (route_one_answer _ _ _ _ _ _ _ Hcode) as [_ Hc].
  destruct (is_complete code); simpl in Hr; [right|left; by injection Hr as <- <-].
  apply mbind_ok in Hr as (qa & s2 & Hqa & Hr). injection Hr as <- <-. destruct (Hc eq_refl) as [qc Hqc].
  pose proof (route_one_answer _ _ _ _ _ _ _ Hqa) as [_ Hq].
  exists qa, qc. split; [exact Hqc|]. split; [exact Hqa|]. rewrite answer_complete. split; [done|].
  intros Hdone. destruct (Hq Hdone) as [qq Hqq]. destruct (min_of_two qc qq) as (q & Hm & Hl & Hr & Hor). exists qq, q.
  destruct Hqc as (_ & Ec & Hc1), Hqq as (Hrow & Eq & Hq1).
  rewrite (answer_confidence _ _ _ _ _ _ Ec Eq), Hm. split_and!; [done..| |done|done]. by destruct Hor as [->| ->].
Qed.

(** ** Going back to a version *)

Lemma raise_as_ok {A} g (m : M service_ A) s a s' : raise_as g m s = (Ok a, s') → m s = (Ok a, s').
Proof. unfold raise_as. destruct (m s) as [[]]; congruence. Qed.

Lemma single_write base p text rest fs r fs' :
  write_artifacts os_error not_text base [("filename", JStr p) :: ("content", JStr text) :: rest] None fs = (Ok r, fs') →
  fs' = match os_error (path_div base (path_of p)) text with
        | Some _ => fs
        | None => assoc_set (path_str (path_div base (path_of p))) text fs
        end.
Proof.
  unfold write_artifacts, write_one. simpl. munfold. simpl. destruct (os_error _ _); by intros [= <- <-].
Qed.

(** Going back answers with the version asked for. The text is that of the version the
    store holds under the file's identity, which the caller may see; the stores are as
    they were; and when the answer says the workspace was written, it is by the writer
    given that text under the file's own name. *)
Theorem rollback_restores_the_version p root_ version project org (s : service_) text written s' :
  rollback_ p root_ version project org s = (Ok (text, written), s') →
  ∃ row, get_version configured (identity_key root_ p) version project org (pl_artifacts (sv_platform s)) = Ok (Some row)
    ∧ text = v_content row ∧ s' = with_files (sv_files s') s
    ∧ (written = false → s' = s)
    ∧ (written = true → ∃ ws base full, workspace_config = Ok (Some ws) ∧ file_writer resolve exists_ ws = Ok base
        ∧ full = path_div base (path_of p)
        ∧ (os_error full text = None → assoc_get (path_str full) (sv_files s') = Some text)
        ∧ changes_only (λ q, q = path_str full) (sv_files s) (sv_files s')).
Proof.
  unfold rollback_artifact. intros Hr. apply mbind_ok in Hr as (o & s1 & Hv & Hr). apply raise_as_ok in Hv.
  injection Hv as Hv <-. apply mbind_ok in Hr as (row & s1 & Hrow & Hr). injection Hrow as Hrow <-.
  destruct o as [row'|]; [|done]. injection Hrow as ->. exists row. split; [exact Hv|].
  apply mbind_ok in Hr as (ws & s1 & Hws & Hr). injection Hws as Hws <-. unfold read_workspace_path in Hws.
  destruct (truthy_str ws) eqn:Et; [|injection Hr as <- <- <-; split_and!; try done; symmetry; apply with_own_files].
  assert (Hcfg : workspace_config = Ok (Some ws)).
  { destruct workspace_config as [[w|]|]; simpl in Hws; simplify_eq; done. }
  destruct (file_writer _ _ _) as [base|] eqn:Ew;
    [|injection Hr as <- <- <-; split_and!; try done; symmetry; apply with_own_files].
  apply mbind_ok in Hr as (out & s1 & Hw & Hr). injection Hr as <- <- <-. unfold on_files in Hw.
  destruct (write_artifacts _ _ _ _ _ _) as [r f] eqn:Ef. injection Hw as -> <-. rewrite sv_with_files.
  split_and!; [done..|].
  intros _. eexists ws, base, _. split_and!; [exact Hcfg|exact Ew|reflexivity| |];
    apply single_write in Ef; destruct (os_error _ _); subst f; try done; rewrite ?assoc_get_set, ?String.eqb_refl; try done.
  - intros q Hq. by destruct Hq.
  - intros q. rewrite assoc_get_set. by destruct (String.eqb_spec q (path_str (path_div base (path_of p)))).
Qed.
End TaskServiceProps.

(** ** Rigel keeps the promise *)

(** Decided by the rules of the scan. *)
Lemma unmatched_is_clean text : forallb (λ r, negb (search r.2 text)) SECRET_RULES = true → clean text.
Proof.
  intros H rule (r & Hr%list_elem_of_In & Hs)%leak_found. apply (proj1 (forallb_forall _ _) H) in Hr.
  cbn [snd] in Hr. by rewrite Hs in Hr.
Qed.

#[export] Instance rigel_files : WorkspaceFiles rigel_world.
Proof.
  refine {| files_of := rw_files; put_files := λ fs w, mk_rigel_world fs (rw_commands w) (rw_feedback w) |};
    [done|by intros []].
Defined.

Section RigelGuarded.
Context (json_loads : string → result json) (py_str : json → string) (float_text : string → result Q) (float_repr : Q → string).
Context (top_names : string → option (list string)) (complete : string → string → result (option string)).
Context (dash : string) (scan_limit : Z).
Context (resolve : path → path) (os_error : path → string → bool).
Context (engine : list string → engine_answer) (container_name : string) (elapsed_ms : Z)
  (message : exn → string) (temp_dir : list (string * json) → result path).
Context (weights : option (result json)) (published : RefineryFeedbackEvent → bool)
  (parse_uuid : json → option uuid) (fresh : uuid).
Context (cfg : RigelConfig).

(** [agent.run(skill, payload, context)]. *)
Definition rigel_agent : agent_run rigel_world := λ skill payload context w,
  let '(r, w') := rigel_run json_loads py_str float_text float_repr top_names complete dash scan_limit resolve
    os_error engine container_name elapsed_ms message temp_dir weights published parse_uuid fresh cfg skill payload (Some context) w in
  (match r with Ok answer => inr answer | Raise e => inl (message e) end, w').

Lemma rigel_brings_clean_texts skill payload context w :
  only_clean (rw_files w) (rw_files (rigel_agent skill payload context w).2).
Proof.
  unfold rigel_agent. destruct (rigel_run _ _ _ _ _ _ _ _ _ _ _ _ _ _ _ _ _ _ _ _ _ _ _ _) as [x w'] eqn:E. simpl.
  apply rigel_changes_are_guarded in E as [[-> _]|(n & _ & Hn & Hf & _)]; [by left|].
  destruct Hf as [->|(root & _ & _ & Hf)]; [by left|]. intros p text Hp.
  destruct (Hf p) as [Hsame|(t & Ht & _ & a & Ha & Hc)]; [left; by rewrite <-Hsame|right].
  rewrite Hp in Ht. injection Ht as <-. intros rule Hl. apply (Hn a rule Ha).
  unfold text_field, obj_default. unfold obj_field in Hc. destruct (obj_get "content" a); [|done]. by rewrite Hc.
Qed.

(** With agents that keep the promise already, Rigel beside them keeps it. *)
#[export] Instance rigel_is_guarded (others : string → option (agent_run rigel_world)) `{!GuardedAgents others} :
  GuardedAgents (λ a, if String.eqb a "rigel" then Some rigel_agent else others a).
Proof.
  intros a run skill payload ctx w. destruct (String.eqb a "rigel"); [|by apply agent_files].
  intros [= <-]. apply rigel_brings_clean_texts.
Qed.
End RigelGuarded.

(** ** Witnesses *)

Module TaskDemo.
(** A workspace is its files. *)
#[export] Instance all_files : WorkspaceFiles (list (string * string)) :=
  {| files_of := λ w, w; put_files := λ fs _, fs; files_put := λ _ _, eq_refl; put_own := λ _, eq_refl |}.

(** An agent that answers with one artifact whose text is its task, and leaves a note. *)
Definition answer_with (confidence : Q) (p : jdict) : jdict :=
  [("confidence", JFloat confidence); ("writable", JBool true); ("code", JStr "x = 1");
   ("artifacts", JArr [JObj [("filename", JStr "a.py"); ("content", obj_field "spec" p)]])].
Definition writer : agent_run (list (string * string)) := λ _ p _ w,
  (inr (answer_with (9 # 10) p), assoc_set "/work/notes.md" "done" w).
#[export] Instance writer_guarded : GuardedAgents (λ _, Some writer).
Proof.
  intros a run skill payload ctx w [= <-] p text. simpl. rewrite assoc_get_set.
  destruct (String.eqb p "/work/notes.md"); [|by left]. intros [= <-]. right. by apply unmatched_is_clean.
Qed.
Definition vega : SkillManifest := mk_Manifest "vega" "Vega" "1.0"
  [mk_Skill "vega.skill.requirements_to_test_cases" "tests" [] [] (1 # 2) 100 None] "/health" 0 30.
Definition rigel : SkillManifest := mk_Manifest "rigel" "Rigel" "1.0"
  [RoutingDemo.skill; mk_Skill "rigel.skill.code_generation" "code" [] [] (1 # 2) 100 None] "/health" 0 30.
Definition reg : registry := mk_registry [("rigel", rigel); ("vega", vega)] [].
Definition storage : ObjectStorage filesystem := local_storage demo_sha (λ _, None) (mk_local ["srv"] 1000).
Definition start : service filesystem (list (string * string)) := mk_service (mk_platform (mk_rw [] []) [] [] (pl_goals (RouteDemo.start 0)) (pl_artifacts (RouteDemo.start 0)) []) empty_db.
Definition asked (text skill : string) : task_request := mk_task_request text skill None [] None.
Definition ids (i : nat) : uuid := N.of_nat (S i).
Definition at_ (i k : nat) : time := Z.of_nat (i + k).
Definition disk_full (_ : path) (_ : string) : option string := Some "No space left on device".
Definition no_error (_ : path) (_ : string) : option string := None.
Definition post (req : task_request) : M (service filesystem (list (string * string))) jdict :=
  post_task (H := storage) demo_sha false (λ _, Some writer) [] (λ _ _ _, "") RoutingDemo.no_text [] reg "->"
    (65 # 100) (40 # 100) (λ _, None) (λ a b, a +:+ "/" +:+ b) (λ _, mret tt) (Ok (Some "/work")) at_ ids
    (λ p, p) (λ _, true) no_error (λ _, "") (λ _, "") 1000 "" req.
Abbreviation both text := (
  route_code_then_qa (H := storage) demo_sha false (λ _, Some writer) [] (λ _ _ _, "") RoutingDemo.no_text [] reg "->"
    (65 # 100) (40 # 100) (λ _, None) (λ a b, a +:+ "/" +:+ b) (λ _, mret tt) (Ok (Some "/work")) at_ ids (λ _, "") text [] :
  M (service filesystem (list (string * string))) jdict).
Abbreviation rollback errors := (
  rollback_artifact (H := storage) false (Ok (Some "/work")) (λ p, p) (λ _, true) errors (λ _, "") "a.py" "/work" 1 None None :
  M (service filesystem (list (string * string))) (string * bool)).
Definition aws_line : string := "id = 'AKIA1234567890ABCDEF' # prod".

Definition status_of_answer (r : result jdict) : option json :=
  match r with Ok d => obj_get "status" d | Raise _ => None end.

Definition note : string * string := ("/work/notes.md", "done").

(** A task that is escalated for want of confidence has written already: its agent while it
    ran, and the service after the scan, before anyone has reviewed it. *)
Definition unsure_writer : agent_run (list (string * string)) := λ _ p _ w,
  (inr (answer_with (1 # 10) p), assoc_set "/work/notes.md" "done" w).
Example an_escalated_task_has_written :
  let '(r, s) := post_task (H := storage) demo_sha false (λ _, Some unsure_writer) [] (λ _ _ _, "") RoutingDemo.no_text [] reg "->"
    (65 # 100) (40 # 100) (λ _, None) (λ a b, a +:+ "/" +:+ b) (λ _, mret tt) (Ok (Some "/work")) at_ ids
    (λ p, p) (λ _, true) no_error (λ _, "") (λ _, "") 1000 "" (asked "print(1)" "s.a") start in
  status_of_answer r = Some (JStr "escalated") ∧ sv_files s = [note; ("/work/a.py", "print(1)")].
Proof. vm_compute. done. Qed.

(** What is asked for is written; the answer names the file. *)
Example a_task_is_written :
  let '(r, s) := post (asked "print(1)" "s.a") start in
  status_of_answer r = Some (JStr "complete") ∧ sv_files s = [note; ("/work/a.py", "print(1)")].
Proof. vm_compute. done. Qed.

(** A blocked artifact is already a version of the store when its scan stops the request,
    and going back to that version writes it unscanned. *)
Definition blocked : result jdict * service filesystem (list (string * string)) := post (asked aws_line "s.a") start.
Example blocked_work_can_be_rolled_back_to :
  blocked.1 = Raise (HTTPException 422) ∧ sv_files blocked.2 = [note]
  ∧ (rollback no_error blocked.2).1 = Ok (aws_line, true)
  ∧ sv_files (rollback no_error blocked.2).2 = [note; ("/work/a.py", aws_line)].
Proof. vm_compute. done. Qed.

(** The answer of going back says written although the disk refused the file. *)
Example a_failed_rollback_says_written :
  (rollback disk_full blocked.2).1 = Ok (aws_line, true) ∧ sv_files (rollback disk_full blocked.2).2 = [note].
Proof. vm_compute. done. Qed.

(** The artifacts of an automatic route stay in the store: none is written. *)
Example both_steps : let '(r, s) := both "Write a parser and test cases" start in
  status_of_answer r = Some (JStr "complete") ∧ sv_files s = [note]
  ∧ length (List.filter (λ row, String.eqb (l_status row) "complete") (pl_log (sv_platform s))) = 2%nat.
Proof. vm_compute. done. Qed.
Lemma written_file : sv_files (post (asked "print(1)" "s.a") start).2 = [note; ("/work/a.py", "print(1)")].
Proof. vm_compute. reflexivity. Qed.
Lemma both_answered : status_of_answer (both "Write a parser and test cases" start).1 = Some (JStr "complete").
Proof. vm_compute. reflexivity. Qed.
Lemma rolled_back : (rollback no_error blocked.2).1 = Ok (aws_line, true).
Proof. vm_compute. reflexivity. Qed.
End TaskDemo.
Import TaskDemo.

Lemma only_scanned_work_reaches_the_workspace_witness :
  sv_jobs (post (asked "print(1)" "s.a") start).2 = empty_db ∧ length (sv_files (post (asked "print(1)" "s.a") start).2) = 2%nat.
Proof.
  pose proof written_file as Hw. destruct (post (asked "print(1)" "s.a") start) as [x s'] eqn:E.
  eapply only_scanned_work_reaches_the_workspace in E as [Hj _]; [|apply writer_guarded|reflexivity].
  split; [exact Hj|]. simpl in *. by rewrite Hw.
Defined.

Lemma tests_follow_working_code_witness : ∃ code (s1 : service filesystem (list (string * string))),
  is_complete code = false ∨ ∃ qc, complete_step code qc (pl_log (sv_platform s1)).
Proof.
  pose proof both_answered as Hok.
  destruct (both "Write a parser and test cases" start) as [[ans|e] s'] eqn:E; [|discriminate Hok].
  destruct (tests_follow_working_code _ _ _ _ _ _ _ _ _ _ _ _ _ _ _ _ _ _ _ _ _ _ _ E)
    as (code & s1 & _ & [(Hc & _)|(qa & qc & Hc & _)]); exists code, s1; [by left|right; by exists qc].
Defined.

Lemma rollback_restores_the_version_witness :
  ∃ base, assoc_get (path_str (path_div base (path_of "a.py"))) (sv_files (rollback no_error blocked.2).2) = Some aws_line.
Proof.
  pose proof rolled_back as Hok.
  destruct (rollback no_error blocked.2) as [[[text written]|e] s'] eqn:E; [|discriminate Hok].
  destruct (rollback_restores_the_version _ _ _ _ _ _ _ _ _ _ _ _ _ _ _ E) as (row & _ & _ & _ & _ & Hw).
  injection Hok as -> ->. destruct (Hw eq_refl) as (ws & base & full & _ & _ & -> & Hf & _).
  exists base. exact (Hf eq_refl).
Defined.
