(* ===== verification/VegaStages.v ===== *)
(** agents/vega/stages: the three stages of the QA pipeline, from a prompt to a validated
    answer whose totals are computed again.

    The language model, [json.loads], [json.dumps] with indentation, the schema texts
    pydantic generates and its lax readings of booleans, integers and floats are
    arguments. A coverage summary is a dictionary built from a set: its order is left
    to the order of first appearance, which no theorem relies on. *)

From S2P Require Import Prelude.
From S2P Require Import PyStr.
From S2P Require Import PyTime.
From S2P Require Import Json.
From S2P Require Import PyDict.
From S2P Require Import Planner.
From S2P Require Import RigelExecution.
From Stdlib Require Import Ascii.
Open Scope Z_scope.

(** ** Data *)

Record Requirement := mk_requirement {
  rq_id : string;
  rq_title : string;
  rq_description : string;
  rq_category : string;
  rq_priority_ : string;
  rq_testable : bool;
  rq_ambiguity_flag : bool;
  rq_ambiguity_note : option string }.

Record AnalyzerOutput := mk_analyzer {
  an_requirements : list Requirement;
  an_total : Z;
  an_ambiguous : Z;
  an_untestable : Z;
  an_summary : string }.

Record TestCase := mk_case {
  tc_id : string;
  tc_req_id : string;
  tc_title : string;
  tc_preconditions : list string;
  tc_steps : list string;
  tc_expected : string;
  tc_type : string;
  tc_priority : string;
  tc_automated : bool }.

Record TestDesignerOutput := mk_designer {
  td_cases : list TestCase;
  td_total : Z;
  td_coverage : list (string * Z);
  td_uncovered : list string }.

Record TestResult := mk_test_result {
  tr_id : string;
  tr_status : string;
  tr_actual : option string;
  tr_error_log : option string }.

Record BugReport := mk_bug {
  bg_id : string;
  bg_tc_id : string;
  bg_req_id : string;
  bg_title : string;
  bg_severity : string;
  bg_description : string;
  bg_steps : list string;
  bg_expected : string;
  bg_actual : string;
  bg_suggested_fix : option string;
  bg_handoff : bool }.

Record BugReporterOutput := mk_reporter {
  br_reports : list BugReport;
  br_total : Z;
  br_critical : Z;
  br_handoffs : list string;
  br_pass_rate : Q }.

(** ** Reading an answer *)

(** The lines between the fences, when there are any. *)
Definition unfence (text : string) : string :=
  let cleaned := strip text in
  if startswith cleaned "```" then
    let lines := tl (splitlines cleaned) in
    let lines := match last lines with
                 | Some l => if startswith (strip l) "```" then removelast lines else lines
                 | None => lines
                 end in
    strip (join eol lines)
  else cleaned.

Fixpoint drop_until (c : ascii) (l : list ascii) : list ascii :=
  match l with
  | [] => []
  | x :: l' => if Ascii.eqb x c then l else drop_until c l'
  end.

(** From the first opening brace to the last closing one. *)
Definition between_braces (s : string) : option string :=
  match rev (drop_until "}" (rev (drop_until "{" (to_list s)))) with
  | [] => None
  | l => Some (of_list l)
  end.

Definition schema_like (v : json) : bool :=
  match v with
  | JObj d => obj_has "$defs" d || (obj_has "properties" d && obj_has "title" d && obj_has "type" d)
  | _ => false
  end.

(** The first of the keys under which there is an object. *)
Fixpoint unwrap_keys (keys : list string) (d : jdict) : json :=
  match keys with
  | [] => JObj d
  | k :: keys => match obj_get k d with Some (JObj c) => JObj c | _ => unwrap_keys keys d end
  end.
Definition unwrap_payload (keys : list string) (v : json) : json :=
  match v with JObj d => unwrap_keys keys d | v => v end.

(** ** Repairing test cases *)

Section Repair.
Context (py_str : json → string).
Definition text_of (v : json) : string := match v with JStr s => s | v => py_str v end.

(** [p.strip(" -\t")]. *)
Definition bullet (c : ascii) : bool := bool_decide (c ∈ [" "; "-"]%char) || (nat_of_ascii c =? 9)%nat.
Fixpoint drop_bullets (l : list ascii) : list ascii :=
  match l with c :: l' => if bullet c then drop_bullets l' else l | [] => [] end.
Definition strip_bullets (s : string) : string :=
  of_list (rev (drop_bullets (rev (drop_bullets (to_list s))))).

(** [_to_list]. *)
Definition to_text_list (v : json) : list string :=
  match v with
  | JArr l => List.filter truthy_str (map (λ x, strip (text_of x)) l)
  | JStr s =>
      let text := strip s in
      if negb (truthy_str text) || bool_decide (lower text ∈ ["none"; "n/a"; "na"]) then []
      else
        let no_cr := of_list (List.filter (λ c, negb (nat_of_ascii c =? 13)%nat) (to_list text)) in
        let parts := map strip_bullets (List.filter (λ p, truthy_str (strip p)) (split (ascii_of_nat 10) no_cr)) in
        match parts with _ :: _ :: _ => parts | _ => [text] end
  | _ => []
  end.

(** [str(value or "").strip().lower()]. *)
Definition word_of (v : json) : string := lower (strip (if truthy v then text_of v else "")).

Definition underscored (s : string) : string :=
  of_list (map (λ c, if Ascii.eqb c " " then "_"%char else c) (to_list s)).

Definition TEST_TYPES : list (string * string) :=
  [("positive", "positive"); ("functional", "positive"); ("happy_path", "positive"); ("negative", "negative");
   ("edge", "edge_case"); ("edgecase", "edge_case"); ("edge_case", "edge_case"); ("performance", "performance");
   ("load", "performance"); ("stress", "performance")].

Definition normalize_test_type (v : json) : string := or_else (assoc_get (underscored (word_of v)) TEST_TYPES) "positive".

Definition PRIORITIES : list string := ["critical"; "high"; "medium"; "low"].
Definition normalize_priority (v : json) : string :=
  let raw := word_of v in if bool_decide (raw ∈ PRIORITIES) then raw else "medium".

Definition normalize_automated (v : json) : bool :=
  match v with
  | JBool b => b
  | v => bool_decide (word_of v ∈ ["true"; "1"; "yes"; "y"; "automated"])
  end.

Definition normalize_case (tc : jdict) : jdict :=
  let tc := obj_set "preconditions" (JArr (map JStr (to_text_list (obj_field "preconditions" tc)))) tc in
  let tc := obj_set "steps" (JArr (map JStr (to_text_list (obj_field "steps" tc)))) tc in
  let tc := obj_set "test_type" (JStr (normalize_test_type (obj_field "test_type" tc))) tc in
  let tc := obj_set "priority" (JStr (normalize_priority (obj_field "priority" tc))) tc in
  obj_set "automated" (JBool (normalize_automated (obj_field "automated" tc))) tc.

(** [_normalize_test_designer_payload]. *)
Definition normalize_test_designer_payload (v : json) : json :=
  match v with
  | JObj d =>
      match obj_get "test_cases" d with
      | Some (JArr cases) => JObj (obj_set "test_cases" (JArr (map (λ c, JObj (normalize_case c)) (omap as_dict cases))) d)
      | _ => v
      end
  | v => v
  end.
End Repair.

(** ** Validation and the stages *)

Section Stages.
Context (json_loads : string → result json) (dumps_indent : json → string) (schema_text : string → string).
Context (lax_bool : json → option bool) (lax_int : json → option Z) (lax_float : json → option Q).
Context (py_str : json → string) (dash : string).
(** The model's reply to a system and a user message. *)
Context (ask : string → string → result string).

(** A field of a model; what is missing or of another type is a [ValidationError]. *)
Definition field {A} (read : json → option A) (k : string) (d : jdict) : result A :=
  of_option ValueError (obj_get k d ≫= read).
Definition text_of_json (v : json) : option string := match v with JStr s => Some s | _ => None end.
Definition literal (l : list string) (v : json) : option string :=
  match v with JStr s => if bool_decide (s ∈ l) then Some s else None | _ => None end.
Definition list_of {A} (read : json → option A) (v : json) : option (list A) :=
  match v with JArr l => mapM read l | _ => None end.
(** [Optional\[str\] = None]. *)
Definition optional_text (k : string) (d : jdict) : result (option string) :=
  match obj_get k d with
  | None | Some JNull => Ok None
  | Some (JStr s) => Ok (Some s)
  | Some _ => Raise ValueError
  end.
Definition model {A} (read : jdict → result A) (v : json) : result A :=
  match v with JObj d => read d | _ => Raise ValueError end.
Definition models {A} (read : jdict → result A) (k : string) (d : jdict) : result (list A) :=
  l ← field (list_of Some) k d;
  rmap (model read) l.

Definition CATEGORIES : list string := ["functional"; "non_functional"; "edge_case"].
Definition SEVERITIES : list string := ["critical"; "major"; "minor"; "trivial"].
Definition CASE_TYPES : list string := ["positive"; "negative"; "edge_case"; "performance"].
Definition RESULT_STATUSES : list string := ["pass"; "fail"; "blocked"; "skipped"].

Definition validate_requirement (d : jdict) : result Requirement :=
  i ← field text_of_json "req_id" d; t ← field text_of_json "title" d; de ← field text_of_json "description" d;
  c ← field (literal CATEGORIES) "category" d; p ← field (literal PRIORITIES) "priority" d;
  te ← field lax_bool "testable" d; a ← field lax_bool "ambiguity_flag" d; n ← optional_text "ambiguity_note" d;
  Ok (mk_requirement i t de c p te a n).

Definition validate_analyzer (v : json) : result AnalyzerOutput :=
  model (λ d, rs ← models validate_requirement "requirements" d; t ← field lax_int "total_count" d;
              a ← field lax_int "ambiguous_count" d; u ← field lax_int "untestable_count" d;
              s ← field text_of_json "summary" d; Ok (mk_analyzer rs t a u s)) v.

Definition validate_case (d : jdict) : result TestCase :=
  i ← field text_of_json "tc_id" d; r ← field text_of_json "req_id" d; t ← field text_of_json "title" d;
  p ← field (list_of text_of_json) "preconditions" d; s ← field (list_of text_of_json) "steps" d;
  e ← field text_of_json "expected_result" d; ty ← field (literal CASE_TYPES) "test_type" d;
  pr ← field (literal PRIORITIES) "priority" d; a ← field lax_bool "automated" d;
  Ok (mk_case i r t p s e ty pr a).

(** [dict\[str, int\]]. *)
Definition counts_of (v : json) : option (list (string * Z)) :=
  match v with JObj d => mapM (λ kv : string * json, n ← lax_int kv.2; Some (kv.1, n)) d | _ => None end.

Definition validate_designer (v : json) : result TestDesignerOutput :=
  model (λ d, cs ← models validate_case "test_cases" d; t ← field lax_int "total_count" d;
              c ← field counts_of "coverage_summary" d; u ← field (list_of text_of_json) "uncovered_reqs" d;
              Ok (mk_designer cs t c u)) v.

Definition validate_test_result (d : jdict) : result TestResult :=
  i ← field text_of_json "tc_id" d; s ← field (literal RESULT_STATUSES) "status" d;
  a ← optional_text "actual_result" d; e ← optional_text "error_log" d;
  Ok (mk_test_result i s a e).

Definition validate_bug (d : jdict) : result BugReport :=
  i ← field text_of_json "bug_id" d; t ← field text_of_json "tc_id" d; r ← field text_of_json "req_id" d;
  ti ← field text_of_json "title" d; s ← field (literal SEVERITIES) "severity" d; de ← field text_of_json "description" d;
  st ← field (list_of text_of_json) "steps_to_reproduce" d; e ← field text_of_json "expected" d;
  a ← field text_of_json "actual" d; f ← optional_text "suggested_fix" d;
  h ← match obj_get "rigel_handoff" d with None => Ok false | Some v => of_option ValueError (lax_bool v) end;
  Ok (mk_bug i t r ti s de st e a f h).

Definition validate_reporter (v : json) : result BugReporterOutput :=
  model (λ d, bs ← models validate_bug "bug_reports" d; t ← field lax_int "total_bugs" d;
              c ← field lax_int "critical_count" d; h ← field (list_of text_of_json) "rigel_handoffs" d;
              p ← field lax_float "pass_rate" d; Ok (mk_reporter bs t c h p)) v.

(** [_extract_json]. *)
Definition extract_object (text : string) : result json :=
  let cleaned := unfence text in
  match json_loads cleaned with
  | Raise ValueError => match between_braces cleaned with Some s => json_loads s | None => Raise ValueError end
  | r => r
  end.

(** [_parse_..._output]: an answer that is a schema is refused. *)
Definition parse_answer {A} (keys : list string) (repair : json → json) (validate : json → result A) (text : string) : result A :=
  v ← extract_object text;
  let v := repair (unwrap_payload keys v) in
  rguard (negb (schema_like v)) ValueError;;
  validate v.

(** One question, and a second one when the first answer cannot be read. *)
Definition ask_twice {A} (system first second : string) (parse : string → result A) : result A :=
  text ← ask system first;
  match parse text with
  | Ok o => Ok o
  | Raise _ => text ← ask system second; parse text
  end.

Definition no_schema : string := "Do NOT return JSON Schema metadata like $defs/properties/title/type.".
Definition schema_suffix (name : string) : string :=
  eol +:+ eol +:+ "Respond with ONLY a valid JSON object matching this schema " +:+ dash +:+ " "
  +:+ "no markdown, no explanation:" +:+ eol +:+ schema_text name.

(** *** Analyzer *)

Definition ANALYZER_PROMPT : string :=
  "You are a QA requirements analyst. You extract and structure software requirements from raw documentation. "
  +:+ "You respond only with valid JSON. Never include markdown code fences or explanations in your response.".

Definition analyzer_first (raw : string) (context : option string) : string :=
  "Requirements:" +:+ eol +:+ raw
  +:+ (let c := or_else context "" in if truthy_str c then eol +:+ eol +:+ "Context:" +:+ eol +:+ c else "")
  +:+ schema_suffix "AnalyzerOutput".

Definition analyzer_second (raw : string) : string :=
  "Requirements:" +:+ eol +:+ raw +:+ eol +:+ eol
  +:+ "Return ONLY a JSON object with these top-level keys:" +:+ eol
  +:+ "- requirements: array of objects with req_id, title, description, category, priority, testable, ambiguity_flag, ambiguity_note" +:+ eol
  +:+ "- total_count: integer" +:+ eol +:+ "- ambiguous_count: integer" +:+ eol +:+ "- untestable_count: integer" +:+ eol
  +:+ "- summary: string" +:+ eol +:+ eol +:+ no_schema.

Definition count_of {A} (p : A → bool) (l : list A) : Z := Z.of_nat (length (List.filter p l)).

(** The totals are computed from the requirements. *)
Definition recount_analyzer (o : AnalyzerOutput) : AnalyzerOutput :=
  let rs := an_requirements o in
  mk_analyzer rs (Z.of_nat (length rs)) (count_of rq_ambiguity_flag rs) (count_of (λ r, negb (rq_testable r)) rs) (an_summary o).

(** [run_analyzer]. *)
Definition run_analyzer (raw : string) (context : option string) : result AnalyzerOutput :=
  o ← ask_twice ANALYZER_PROMPT (analyzer_first raw context) (analyzer_second raw)
        (parse_answer ["analyzerOutput"; "analyzer_output"; "output"; "result"] id validate_analyzer);
  Ok (recount_analyzer o).

(** *** Test designer *)

Definition opt_json (o : option string) : json := match o with Some s => JStr s | None => JNull end.
Definition texts (l : list string) : json := JArr (map JStr l).

Definition requirement_json (r : Requirement) : json :=
  JObj [("req_id", JStr (rq_id r)); ("title", JStr (rq_title r)); ("description", JStr (rq_description r));
        ("category", JStr (rq_category r)); ("priority", JStr (rq_priority_ r)); ("testable", JBool (rq_testable r));
        ("ambiguity_flag", JBool (rq_ambiguity_flag r)); ("ambiguity_note", opt_json (rq_ambiguity_note r))].

Definition DESIGNER_PROMPT : string :=
  "You are a QA test design expert. You create thorough, traceable test cases from structured requirements. "
  +:+ "Each test case must link to exactly one requirement via req_id. You respond only with valid JSON. "
  +:+ "Never include markdown code fences or explanations.".

(** The strategy and the edge cases have their defaults in the pipeline. *)
Definition designer_head (rs : list Requirement) : string :=
  "Requirements:" +:+ eol +:+ dumps_indent (JArr (map requirement_json rs)) +:+ eol +:+ eol
  +:+ "Test strategy: traditional" +:+ eol +:+ "Include edge cases: True".

Definition designer_second (rs : list Requirement) : string :=
  designer_head rs +:+ eol +:+ eol +:+ "Return ONLY a JSON object with these keys:" +:+ eol
  +:+ "- test_cases: array of objects with tc_id, req_id, title, preconditions, steps, expected_result, test_type, priority, automated" +:+ eol
  +:+ "- total_count: integer" +:+ eol +:+ "- coverage_summary: object map req_id -> count" +:+ eol
  +:+ "- uncovered_reqs: array of req_id strings" +:+ eol +:+ eol +:+ no_schema.

Definition cover (tc : TestCase) (summary : list (string * Z)) : list (string * Z) :=
  match assoc_get (tc_req_id tc) summary with
  | Some n => assoc_set (tc_req_id tc) (n + 1) summary
  | None => summary
  end.
Definition coverage (rs : list Requirement) (cases : list TestCase) : list (string * Z) :=
  foldl (λ s tc, cover tc s) (foldl (λ s r, assoc_set (rq_id r) 0 s) [] rs) cases.

Definition recount_designer (rs : list Requirement) (o : TestDesignerOutput) : TestDesignerOutput :=
  let summary := coverage rs (td_cases o) in
  mk_designer (td_cases o) (Z.of_nat (length (td_cases o))) summary
    (map fst (List.filter (λ kv, kv.2 =? 0) summary)).

(** [run_test_designer]. *)
Definition run_test_designer (rs : list Requirement) : result TestDesignerOutput :=
  o ← ask_twice DESIGNER_PROMPT (designer_head rs +:+ schema_suffix "TestDesignerOutput") (designer_second rs)
        (parse_answer ["testDesignerOutput"; "test_designer_output"; "output"; "result"]
           (normalize_test_designer_payload py_str) validate_designer);
  Ok (recount_designer rs o).

(** *** Bug reporter *)

Definition case_json (c : TestCase) : json :=
  JObj [("tc_id", JStr (tc_id c)); ("req_id", JStr (tc_req_id c)); ("title", JStr (tc_title c));
        ("preconditions", texts (tc_preconditions c)); ("steps", texts (tc_steps c)); ("expected_result", JStr (tc_expected c));
        ("test_type", JStr (tc_type c)); ("priority", JStr (tc_priority c)); ("automated", JBool (tc_automated c))].
Definition test_result_json (r : TestResult) : json :=
  JObj [("tc_id", JStr (tr_id r)); ("status", JStr (tr_status r)); ("actual_result", opt_json (tr_actual r));
        ("error_log", opt_json (tr_error_log r))].

Definition REPORTER_PROMPT : string :=
  "You are a QA bug analysis expert. You write clear, actionable bug reports from test failures. "
  +:+ "Set rigel_handoff=true for bugs that require code changes to fix. You respond only with valid JSON. "
  +:+ "Never include markdown code fences or explanations.".

Definition failing (r : TestResult) : bool := bool_decide (tr_status r ∈ ["fail"; "blocked"]).
Definition passing (r : TestResult) : bool := String.eqb (tr_status r) "pass".
Definition pass_rate (results : list TestResult) : Q :=
  match results with
  | [] => 0
  | _ => (inject_Z (count_of passing results) / inject_Z (Z.of_nat (length results)))%Q
  end.

(** The cases of the failing results, and the requirements of those cases. *)
Definition relevant_cases (bad : list TestResult) (cases : list TestCase) : list TestCase :=
  List.filter (λ c, bool_decide (tc_id c ∈ map tr_id bad)) cases.
Definition relevant_requirements (cases : list TestCase) (rs : list Requirement) : list Requirement :=
  List.filter (λ r, bool_decide (rq_id r ∈ map tc_req_id cases)) rs.

Definition reporter_head (bad : list TestResult) (cases : list TestCase) (rs : list Requirement) : string :=
  let cases := relevant_cases bad cases in
  "Failing test results:" +:+ eol +:+ dumps_indent (JArr (map test_result_json bad)) +:+ eol +:+ eol
  +:+ "Corresponding test cases:" +:+ eol +:+ dumps_indent (JArr (map case_json cases)) +:+ eol +:+ eol
  +:+ "Related requirements:" +:+ eol +:+ dumps_indent (JArr (map requirement_json (relevant_requirements cases rs))).

Definition reporter_second (head : string) : string :=
  head +:+ eol +:+ eol +:+ "Return ONLY a JSON object with keys:" +:+ eol
  +:+ "- bug_reports: array of objects with bug_id, tc_id, req_id, title, severity, description, steps_to_reproduce, expected, actual, suggested_fix, rigel_handoff" +:+ eol
  +:+ "- total_bugs: integer" +:+ eol +:+ "- critical_count: integer" +:+ eol +:+ "- rigel_handoffs: array of bug_id strings" +:+ eol
  +:+ "- pass_rate: number" +:+ eol +:+ eol +:+ no_schema.

Definition recount_reporter (rate : Q) (o : BugReporterOutput) : BugReporterOutput :=
  let bs := br_reports o in
  mk_reporter bs (Z.of_nat (length bs)) (count_of (λ b, String.eqb (bg_severity b) "critical") bs)
    (map bg_id (List.filter bg_handoff bs)) rate.

(** [run_bug_reporter]. *)
Definition run_bug_reporter (results : list TestResult) (cases : list TestCase) (rs : list Requirement) :
    result BugReporterOutput :=
  let rate := pass_rate results in
  match List.filter failing results with
  | [] => Ok (mk_reporter [] 0 0 [] rate)
  | bad =>
      let head := reporter_head bad cases rs in
      o ← ask_twice REPORTER_PROMPT (head +:+ schema_suffix "BugReporterOutput") (reporter_second head)
            (parse_answer ["bugReporterOutput"; "bug_reporter_output"; "output"; "result"] id validate_reporter);
      Ok (recount_reporter rate o)
  end.
End Stages.
