(* ===== verification/Vega.v ===== *)
(** agents/vega: the lifecycle of a stage, the pipeline of the three stages with what it
    publishes, and [VegaAgent.run].

    What is published is kept in order; whether Redis takes a message is an argument, and
    its refusal is an [OSError]. The clock, the identifier of a run and the text of an
    exception are arguments, as are whether the provider's configuration loads and those of
    the stages. *)

From S2P Require Import Prelude.
From S2P Require Import PyStr.
From S2P Require Import PyTime.
From S2P Require Import Json.
From S2P Require Import PyDict.
From S2P Require Import Contracts.
From S2P Require Import Provider.
From S2P Require Import Feedback.
From S2P Require Import VegaStages.
From Stdlib Require Import QArith.
Open Scope Z_scope.

(** ** lifecycle.py *)

Inductive VegaStatus := v_pending | v_running | v_complete | v_failed | v_retrying.
Inductive VegaStage := analyzer | test_designer | bug_reporter.
#[export] Instance VegaStatus_eq_dec : EqDecision VegaStatus.
Proof. solve_decision. Defined.
#[export] Instance VegaStage_eq_dec : EqDecision VegaStage.
Proof. solve_decision. Defined.

Record VegaStageRecord := mk_stage {
  sg_run_id : string;
  sg_stage : VegaStage;
  sg_status : VegaStatus;
  sg_input : json;
  sg_output : option json;
  sg_started : option time;
  sg_completed : option time;
  sg_error : option string }.

(** [VALID_TRANSITIONS]. *)
Definition VALID_TRANSITIONS (s : VegaStatus) : list VegaStatus :=
  match s with
  | v_pending => [v_running]
  | v_running => [v_complete; v_retrying; v_failed]
  | v_retrying => [v_running; v_failed]
  | v_complete => []
  | v_failed => []
  end.

Definition set_status (s : VegaStatus) (started completed : option time) (r : VegaStageRecord) : VegaStageRecord :=
  mk_stage (sg_run_id r) (sg_stage r) s (sg_input r) (sg_output r) started completed (sg_error r).

Definition transition_status (now : time) (new : VegaStatus) (r : VegaStageRecord) : result VegaStageRecord :=
  rguard (bool_decide (new ∈ VALID_TRANSITIONS (sg_status r))) ValueError;;
  Ok (match new with
      | v_running => set_status new (Some now) (sg_completed r) r
      | v_complete | v_failed => set_status new (sg_started r) (Some now) r
      | _ => set_status new (sg_started r) (sg_completed r) r
      end).

(** [model_copy(update={"output": ...})] and [{"error": ...}]. *)
Definition with_output (o : json) (r : VegaStageRecord) : VegaStageRecord :=
  mk_stage (sg_run_id r) (sg_stage r) (sg_status r) (sg_input r) (Some o) (sg_started r) (sg_completed r) (sg_error r).
Definition with_error (e : string) (r : VegaStageRecord) : VegaStageRecord :=
  mk_stage (sg_run_id r) (sg_stage r) (sg_status r) (sg_input r) (sg_output r) (sg_started r) (sg_completed r) (Some e).

(** ** Test results *)

Definition STATUS_WORDS : list (string * string) :=
  [("pass", "pass"); ("passed", "pass"); ("ok", "pass"); ("success", "pass"); ("fail", "fail"); ("failed", "fail");
   ("error", "fail"); ("blocked", "blocked"); ("skip", "skipped"); ("skipped", "skipped")].

(** [f"{n:03d}"] of a positive number. *)
Definition pad3 (n : Z) : string := if n <? 1000 then pad 3 (Z.to_N n) else py_int n.

Section Results.
Context (py_str : json → string).

Definition status_word (v : json) : string :=
  or_else (assoc_get (lower (strip (text_of py_str v))) STATUS_WORDS) "fail".

Definition normalized_result (index : Z) (item : jdict) : jdict :=
  [("tc_id", jor (obj_field "tc_id" item) (jor (obj_field "test_id" item) (jor (obj_field "id" item)
      (JStr ("TC-" +:+ pad3 (index + 1))))));
   ("status", JStr (status_word (obj_default "status" (JStr "") item)));
   ("actual_result", jor (obj_field "actual_result" item) (obj_field "actual" item));
   ("error_log", jor (obj_field "error_log" item) (obj_field "error" item))].

(** What is no object is skipped, and keeps its number. *)
Fixpoint normalize_items (index : Z) (items : list json) : list jdict :=
  match items with
  | [] => []
  | JObj d :: items => normalized_result index d :: normalize_items (index + 1) items
  | _ :: items => normalize_items (index + 1) items
  end.

(** [_normalize_test_results] of pipeline.py. *)
Definition normalize_test_results (raw : json) : result (list jdict) :=
  match raw with
  | JObj d => match obj_get "results" d with Some (JArr l) => Ok (normalize_items 0 l) | _ => Raise ValueError end
  | JArr l => Ok (normalize_items 0 l)
  | _ => Raise ValueError
  end.

(** [VegaAgent._normalize_test_results]: what is under [results] is iterated over. *)
Definition agent_normalize_test_results (raw : json) : result (list jdict) :=
  match raw with
  | JObj d =>
      match obj_default "results" (JArr []) d with
      | JArr l => Ok (normalize_items 0 l)
      | JStr _ | JObj _ => Ok []
      | _ => Raise TypeError
      end
  | JArr l => Ok (normalize_items 0 l)
  | _ => Raise ValueError
  end.
End Results.

(** ** pipeline.py *)

(** What the pipeline publishes. *)
Record vega_world := mk_vega_world {
  vw_records : list VegaStageRecord;
  vw_feedback : list RefineryFeedbackEvent }.

Record pipeline_result := mk_pipeline {
  pp_run_id : string;
  pp_analyzer : AnalyzerOutput;
  pp_designer : TestDesignerOutput;
  pp_reporter : option BugReporterOutput }.

Definition analyzer_json (o : AnalyzerOutput) : json :=
  JObj [("requirements", JArr (map requirement_json (an_requirements o))); ("total_count", JInt (an_total o));
        ("ambiguous_count", JInt (an_ambiguous o)); ("untestable_count", JInt (an_untestable o));
        ("summary", JStr (an_summary o))].
Definition designer_json (o : TestDesignerOutput) : json :=
  JObj [("test_cases", JArr (map case_json (td_cases o))); ("total_count", JInt (td_total o));
        ("coverage_summary", JObj (map (λ kv : string * Z, (kv.1, JInt kv.2)) (td_coverage o)));
        ("uncovered_reqs", texts (td_uncovered o))].
Definition bug_json (b : BugReport) : json :=
  JObj [("bug_id", JStr (bg_id b)); ("tc_id", JStr (bg_tc_id b)); ("req_id", JStr (bg_req_id b)); ("title", JStr (bg_title b));
        ("severity", JStr (bg_severity b)); ("description", JStr (bg_description b)); ("steps_to_reproduce", texts (bg_steps b));
        ("expected", JStr (bg_expected b)); ("actual", JStr (bg_actual b)); ("suggested_fix", opt_json (bg_suggested_fix b));
        ("rigel_handoff", JBool (bg_handoff b))].
Definition reporter_json (o : BugReporterOutput) : json :=
  JObj [("bug_reports", JArr (map bug_json (br_reports o))); ("total_bugs", JInt (br_total o));
        ("critical_count", JInt (br_critical o)); ("rigel_handoffs", texts (br_handoffs o)); ("pass_rate", JFloat (br_pass_rate o))].

Section Pipeline.
Context (json_loads : string → result json) (dumps_indent : json → string) (schema_text : string → string).
Context (lax_bool : json → option bool) (lax_int : json → option Z) (lax_float : json → option Q).
Context (py_str : json → string) (dash : string) (ask : string → string → result string).
Context (clock : nat → time) (accepts : VegaStageRecord → bool) (takes : RefineryFeedbackEvent → bool).
Context (message : exn → string) (run_id : uuid) (elapsed_ms : Z) (provider : result unit).

(** [try: m except Exception as e: h(e)]. *)
Definition except {S A} (m : M S A) (h : exn → M S A) : M S A := λ s,
  match m s with (Raise e, s) => h e s | r => r end.

(** [aether.publish(contract)]. *)
Definition publish_record (r : VegaStageRecord) : M vega_world unit := λ w,
  if accepts r then (Ok tt, mk_vega_world (vw_records w ++ [r]) (vw_feedback w)) else (Raise OSError, w).

(** A reading of the clock: as many as records were published. *)
Definition now : M vega_world time := λ w, (Ok (clock (length (vw_records w))), w).

Definition transition (new : VegaStatus) (r : VegaStageRecord) : M vega_world VegaStageRecord :=
  t ← now; mlift (transition_status t new r).

(** The body of a stage; what it raises is published as its error, when the record may
    still fail, and raised again. *)
Definition run_stage {A} (stage : VegaStage) (input : json) (body : result A) (dump : A → json) : M vega_world A :=
  let contract := mk_stage (uuid_str run_id) stage v_pending input None None None None in
  publish_record contract;;
  running ← transition v_running contract;
  publish_record running;;
  let failing_with (e : exn) (c : VegaStageRecord) : M vega_world A :=
    failed ← transition v_failed c; publish_record (with_error (message e) failed);; mraise e in
  match body with
  | Raise e => failing_with e running
  | Ok out =>
      complete ← transition v_complete running;
      let complete := with_output (dump out) complete in
      except (publish_record complete;; mret out) (λ e, failing_with e complete)
  end.

(** [AnalyzerInput(...)]. *)
Definition analyzer_input (raw : string) (source_type : json) : result json :=
  match source_type with
  | JStr s => rguard (bool_decide (s ∈ ["markdown"; "plain"])) ValueError;;
              Ok (JObj [("raw_requirements", JStr raw); ("source_type", JStr s); ("context", JNull)])
  | _ => Raise ValueError
  end.

Definition designer_input (rs : list Requirement) : json :=
  JObj [("requirements", JArr (map requirement_json rs)); ("test_strategy", JStr "traditional"); ("include_edge_cases", JBool true)].
Definition reporter_input (results : list TestResult) (cases : list TestCase) (rs : list Requirement) : json :=
  JObj [("test_results", JArr (map test_result_json results)); ("test_cases", JArr (map case_json cases));
        ("requirements", JArr (map requirement_json rs))].

(** The third stage, on the results as they are given. *)
Definition run_reporter (v : json) (cases : list TestCase) (rs : list Requirement) : M vega_world BugReporterOutput :=
  normalized ← mlift (normalize_test_results py_str v);
  results ← mlift (rmap validate_test_result normalized);
  run_stage bug_reporter (reporter_input results cases rs)
    (run_bug_reporter json_loads dumps_indent schema_text lax_bool lax_int lax_float dash ask results cases rs) reporter_json.

(** The stages, in order: a stage runs when the one before it succeeded. *)
Definition run_stages (raw : string) (test_results : json) (source_type : json) : M vega_world pipeline_result :=
  input ← mlift (analyzer_input raw source_type);
  a ← run_stage analyzer input (run_analyzer json_loads schema_text lax_bool lax_int dash ask raw None) analyzer_json;
  let rs := an_requirements a in
  d ← run_stage test_designer (designer_input rs)
        (run_test_designer json_loads dumps_indent schema_text lax_bool lax_int py_str dash ask rs) designer_json;
  match test_results with
  | JNull => mret (mk_pipeline (uuid_str run_id) a d None)
  | v =>
      b ← run_reporter v (td_cases d) rs;
      mret (mk_pipeline (uuid_str run_id) a d (Some b))
  end.

(** The event of the run, sent whatever happened. *)
Definition pipeline_feedback (test_results : json) (finished : bool) : M vega_world unit := λ w,
  let given := match test_results with JNull => false | _ => true end in
  let outcome := if negb finished then fail else if given then success else partial in
  match validate_refinery (mk_refinery run_id "vega" (if given then "defect_reporting" else "requirements_to_test_cases") outcome
          (if finished then 80 # 100 else 0%Q) None false None elapsed_ms) with
  | Raise _ => (Ok tt, w)
  | Ok e => (Ok tt, if takes e then mk_vega_world (vw_records w) (vw_feedback w ++ [e]) else w)
  end.

(** The [try] of the pipeline; its [finally] sends the event. *)
Definition stages_with_feedback (raw : string) (test_results : json) (source_type : json) : M vega_world pipeline_result := λ w,
  let '(r, w) := run_stages raw test_results source_type w in
  let '(_, w) := pipeline_feedback test_results (match r with Ok _ => true | Raise _ => false end) w in
  (r, w).

(** [run_vega_pipeline]: the provider is read first. *)
Definition run_vega_pipeline (raw : string) (test_results : json) (source_type : json) : M vega_world pipeline_result :=
  mlift provider;; stages_with_feedback raw test_results source_type.

Definition pipeline_json (p : pipeline_result) : json :=
  JObj [("run_id", JStr (pp_run_id p)); ("analyzer", analyzer_json (pp_analyzer p)); ("test_designer", designer_json (pp_designer p));
        ("bug_reporter", match pp_reporter p with Some b => reporter_json b | None => JNull end)].
End Pipeline.

(** ** agent.py *)

Definition LEGACY_SKILL_ALIASES : list (string * string) :=
  [("requirements_to_test_cases", "vega.skill.requirements_to_test_cases");
   ("test_case_execution", "vega.skill.test_case_execution"); ("defect_reporting", "vega.skill.defect_reporting")].

Definition typed (t : string) : json := JObj [("type", JStr t)].
Definition object_schema (properties : jdict) (needed : list string) : jdict :=
  [("type", JStr "object"); ("properties", JObj properties); ("required", texts needed)].

Definition VEGA_SKILLS : list SkillDefinition :=
  [mk_Skill "vega.skill.requirements_to_test_cases" "Turn raw requirements into structured test cases."
     (object_schema [("raw_requirements", typed "string"); ("source_type", typed "string")] ["raw_requirements"])
     (object_schema [("test_cases", typed "array"); ("total_count", typed "integer")] ["test_cases"; "total_count"])
     (88 # 100) 1400 None;
   mk_Skill "vega.skill.test_case_execution" "Summarize execution results for a test case run."
     (object_schema [("test_results", typed "array")] ["test_results"])
     (object_schema [("total_count", typed "integer"); ("passed_count", typed "integer"); ("failed_count", typed "integer")]
        ["total_count"; "passed_count"; "failed_count"])
     (74 # 100) 300 None;
   mk_Skill "vega.skill.defect_reporting" "Generate defect reports from failing test execution data."
     (object_schema [("raw_requirements", typed "string"); ("test_results", JObj [("type", texts ["array"; "object"])])]
        ["raw_requirements"; "test_results"])
     (object_schema [("bug_reports", typed "array"); ("total_bugs", typed "integer")] ["bug_reports"; "total_bugs"])
     (84 # 100) 1600 None].

(** The same skill under its old name. *)
Definition renamed_skill (name : string) (s : SkillDefinition) : SkillDefinition :=
  mk_Skill name (description s) (input_schema s) (output_schema s) (avg_confidence s) (avg_latency_ms s) None.

(** [_build_manifest]. *)
Definition vega_manifest (now : time) : SkillManifest :=
  mk_Manifest "vega" "Vega QA Agent" "0.1.0"
    (VEGA_SKILLS ++ omap (λ a : string * string,
        renamed_skill a.1 <$> find (λ s, String.eqb (skill_id s) a.2) VEGA_SKILLS) LEGACY_SKILL_ALIASES)
    "http://vega:8080/health" now 30.

(** [_require_raw_requirements]. *)
Definition require_raw_requirements (payload : jdict) : result string :=
  let f k := obj_field k payload in
  match jor (f "raw_requirements") (jor (f "requirements") (jor (f "spec") (f "task"))) with
  | JStr s => rguard (truthy_str (strip s)) ValueError;; Ok s
  | _ => Raise ValueError
  end.

(** *** Cases for when the pipeline fails *)

(** A case without its number. *)
Definition fallback_case (title : string) (preconditions steps : list string) (expected test_type priority : string) : jdict :=
  [("req_id", JStr "REQ-001"); ("title", JStr title); ("preconditions", texts preconditions); ("steps", texts steps);
   ("expected_result", JStr expected); ("test_type", JStr test_type); ("priority", JStr priority); ("automated", JBool true)].

Definition word_cases : list jdict :=
  [fallback_case "Count repeated words in plain text" ["Word frequency counter is available"]
     ["Enter text: hello hello world"; "Run the word frequency counter"]
     "The output reports hello with count 2 and world with count 1." "positive" "high";
   fallback_case "Ignore punctuation while counting words" ["Word frequency counter is available"]
     ["Enter text: hello, hello! world."; "Run the word frequency counter"]
     "Punctuation does not create separate words; hello is counted twice and world once." "edge_case" "medium";
   fallback_case "Handle mixed-case words consistently" ["Word frequency counter is available"]
     ["Enter text: Apple apple APPLE"; "Run the word frequency counter"]
     "The counter applies the documented case handling consistently, preferably reporting apple with count 3." "edge_case" "medium";
   fallback_case "Handle empty input" ["Word frequency counter is available"]
     ["Submit empty text"; "Run the word frequency counter"]
     "The counter returns an empty result or a clear validation message without crashing." "negative" "medium"].

Definition conversion_cases : list jdict :=
  [fallback_case "Verify valid measurement conversion" ["Measurement converter is available"]
     ["Choose a supported source unit"; "Choose a supported target unit"; "Enter a valid numeric value"; "Run the conversion"]
     "The converter returns the mathematically correct converted value." "positive" "high";
   fallback_case "Reject unsupported measurement units" ["Measurement converter is available"]
     ["Choose an unsupported source or target unit"; "Enter a valid numeric value"; "Run the conversion"]
     "The converter rejects the request with a clear validation error." "negative" "medium";
   fallback_case "Reject non-numeric measurement values" ["Measurement converter is available"]
     ["Choose supported source and target units"; "Enter a non-numeric value"; "Run the conversion"]
     "The converter rejects the input with a clear validation error." "negative" "medium"].

Definition general_cases : list jdict :=
  [fallback_case "Verify the primary requested behavior" ["The generated program is available"]
     ["Prepare valid input matching the requirement"; "Run the program"]
     "The program produces output that satisfies the stated requirement." "positive" "high";
   fallback_case "Handle invalid or unexpected input" ["The generated program is available"]
     ["Provide invalid or malformed input"; "Run the program"]
     "The program handles the input gracefully without crashing." "negative" "medium";
   fallback_case "Handle boundary input" ["The generated program is available"]
     ["Provide minimal or empty input"; "Run the program"]
     "The program returns a clear and deterministic result." "edge_case" "medium"].

Definition celsius_case : jdict :=
  fallback_case "Convert Celsius to Fahrenheit" ["Measurement converter is available"]
     ["Enter 0 Celsius"; "Convert to Fahrenheit"]
     "The result is 32 Fahrenheit." "positive" "high".
Definition pounds_case : jdict :=
  fallback_case "Convert pounds to kilograms" ["Measurement converter is available"]
     ["Enter 1 pound"; "Convert to kilograms"]
     "The result is approximately 0.453592 kilograms." "positive" "high".

(** [sub in text]. *)
Definition mentions (sub text : string) : bool := contains (to_list sub) (to_list text).

(** [l.insert(n, x)]. *)
Definition insert_at {A} (n : nat) (x : A) (l : list A) : list A := take n l ++ x :: drop n l.

(** The cases a text calls for. *)
Definition fallback_choice (text : string) : list jdict :=
  let has w := mentions w text in
  if has "word frequency" || (has "word" && has "frequency") then word_cases
  else if has "celsius" || has "fahrenheit" || has "pound" || has "kilogram" then
    let cases := if has "celsius" && has "fahrenheit" then insert_at 1 celsius_case conversion_cases else conversion_cases in
    if has "pound" && has "kilogram" then insert_at 2 pounds_case cases else cases
  else general_cases.

(** [_fallback_test_cases]: the cases are numbered from one. *)
Definition fallback_test_cases (raw : string) : jdict :=
  let cases := imap (λ i c, JObj (("tc_id", JStr ("TC-" +:+ pad3 (Z.of_nat i + 1))) :: c)) (fallback_choice (lower raw)) in
  [("test_cases", JArr cases); ("total_count", JInt (Z.of_nat (length cases)));
   ("coverage_summary", JObj [("REQ-001", JInt (Z.of_nat (length cases)))]); ("uncovered_reqs", JArr [])].

(** *** run *)

Section Run.
Context (json_loads : string → result json) (dumps_indent : json → string) (schema_text : string → string).
Context (lax_bool : json → option bool) (lax_int : json → option Z) (lax_float : json → option Q).
Context (py_str : json → string) (dash : string) (ask : string → string → result string).
Context (clock : nat → time) (accepts : VegaStageRecord → bool) (takes : RefineryFeedbackEvent → bool).
Context (message : exn → string) (run_id : uuid) (elapsed_ms : Z) (provider : result unit).
Local Abbreviation pipeline_ := (run_vega_pipeline json_loads dumps_indent schema_text lax_bool lax_int lax_float py_str dash ask
  clock accepts takes message run_id elapsed_ms provider).

Definition vega_answer (r : json) (confidence : Q) (rest : jdict) : jdict :=
  [("result", r); ("confidence", JFloat confidence)] ++ rest.

Definition with_status (s : string) (l : list jdict) : Z := count_of (λ i, is_str (obj_field "status" i) s) l.

(** [VegaAgent.run]. *)
Definition vega_run (skill : string) (payload : jdict) : M vega_world jdict :=
  let source_type := obj_default "source_type" (JStr "plain") payload in
  if bool_decide (skill ∈ ["vega.skill.requirements_to_test_cases"; "requirements_to_test_cases"]) then
    raw ← mlift (require_raw_requirements payload);
    except
      (p ← pipeline_ raw JNull source_type;
       mret (vega_answer (designer_json (pp_designer p)) (88 # 100) [("artifacts", pipeline_json p)]))
      (λ e, mret (vega_answer (JObj (fallback_test_cases raw)) (66 # 100)
                    [("artifacts", JObj [("fallback_reason", JStr (message e))])]))
  else if bool_decide (skill ∈ ["vega.skill.test_case_execution"; "test_case_execution"]) then
    l ← mlift (agent_normalize_test_results py_str (obj_default "test_results" (JArr []) payload));
    mret (vega_answer (JObj [("total_count", JInt (Z.of_nat (length l))); ("passed_count", JInt (with_status "pass" l));
                             ("failed_count", JInt (with_status "fail" l)); ("blocked_count", JInt (with_status "blocked" l));
                             ("results", JArr (map JObj l))]) (74 # 100) [])
  else if bool_decide (skill ∈ ["vega.skill.defect_reporting"; "defect_reporting"]) then
    raw ← mlift (require_raw_requirements payload);
    p ← pipeline_ raw (obj_field "test_results" payload) source_type;
    mret (vega_answer (match pp_reporter p with
                       | Some b => reporter_json b
                       | None => JObj [("bug_reports", JArr []); ("total_bugs", JInt 0)]
                       end) (84 # 100) [("artifacts", pipeline_json p)])
  else mraise ValueError.
End Run.

(** ** Theorems

    What the QA pipeline promises: stages follow their lifecycle and their order, the
    totals of a stage are those of what it lists, and requirements are always answered. *)

Close Scope Q_scope.

(** ** Stages *)

(** The number of cases for a requirement. *)
Definition cases_for (r : string) (cases : list TestCase) : Z := count_of (λ c, String.eqb (tc_req_id c) r) cases.

Lemma count_of_cons {A} (p : A → bool) x l : count_of p (x :: l) = (if p x then 1 else 0) + count_of p l.
Proof. unfold count_of. simpl. destruct (p x); simpl; lia. Qed.

Lemma count_of_bounds {A} (p : A → bool) l : 0 <= count_of p l <= Z.of_nat (length l).
Proof. induction l as [|x l IH]; [done|]. rewrite count_of_cons. simpl length. destruct (p x); lia. Qed.

Lemma count_of_zero {A} (p : A → bool) l : count_of p l = 0 ↔ ∀ x, x ∈ l → p x = false.
Proof.
  induction l as [|x l IH]; [split; [by intros _ y ?%elem_of_nil|done]|]. rewrite count_of_cons.
  pose proof (count_of_bounds p l). split.
  - intros Hz y [->|Hy]%elem_of_cons; [destruct (p x); [lia|done]|]. apply IH; [destruct (p x); lia|done].
  - intros Hall. rewrite (Hall x) by apply list_elem_of_here. rewrite (proj2 IH); [done|].
    intros y Hy. apply Hall. by apply list_elem_of_further.
Qed.

Lemma initial_summary rs s r : assoc_get r (foldl (λ s r, assoc_set (rq_id r) 0 s) s rs)
  = if bool_decide (r ∈ map rq_id rs) then Some 0 else assoc_get r s.
Proof.
  revert s. induction rs as [|x rs IH]; intros s; [done|]. simpl foldl. rewrite IH, assoc_get_set. simpl map.
  destruct (String.eqb_spec r (rq_id x)) as [->|Hne].
  - rewrite (bool_decide_true (rq_id x ∈ rq_id x :: map rq_id rs)) by apply list_elem_of_here. by case_bool_decide.
  - repeat case_bool_decide; try done; exfalso; set_solver.
Qed.

Lemma covered rs cases r : assoc_get r (coverage rs cases)
  = if bool_decide (r ∈ map rq_id rs) then Some (cases_for r cases) else None.
Proof.
  unfold coverage. set (s0 := foldl _ [] rs).
  assert (H : ∀ s, (∀ k, is_Some (assoc_get k s) ↔ k ∈ map rq_id rs) →
    assoc_get r (foldl (λ s tc, cover tc s) s cases) = (λ n, n + cases_for r cases) <$> assoc_get r s).
  { induction cases as [|c cases IH]; intros s Hs.
    - simpl. destruct (assoc_get r s); simpl; [|done]. f_equal. unfold cases_for, count_of. simpl. lia.
    - simpl foldl. unfold cases_for. rewrite count_of_cons. unfold cover. destruct (assoc_get (tc_req_id c) s) as [n|] eqn:E.
      + rewrite IH; [|intros k; rewrite assoc_get_set, <-Hs; destruct (String.eqb_spec k (tc_req_id c)) as [->|]; [|done];
          rewrite E; split; by eexists].
        rewrite assoc_get_set, String.eqb_sym. destruct (String.eqb_spec (tc_req_id c) r) as [<-|]; [rewrite E|done]. simpl. f_equal. unfold cases_for. lia.
      + rewrite IH by done. destruct (String.eqb_spec (tc_req_id c) r) as [<-|]; [by rewrite E|]. done. }
  rewrite H; unfold s0.
  - rewrite initial_summary. case_bool_decide; [|done]. simpl. done.
  - intros k. rewrite initial_summary. case_bool_decide; simpl; [split; [done|by eexists]|]. split; [by intros [? ?]|done].
Qed.

Lemma coverage_nodup rs cases : NoDup (map fst (coverage rs cases)).
Proof.
  unfold coverage. assert (H0 : ∀ s, NoDup (map fst s) → NoDup (map fst (foldl (λ s r, assoc_set (rq_id r) 0 s) s rs))).
  { induction rs as [|r l IH]; [done|]. intros s Hs. apply IH. by apply assoc_set_nodup. }
  specialize (H0 [] (NoDup_nil_2)). revert H0. generalize (foldl (λ s r, assoc_set (rq_id r) 0 s) [] rs).
  induction cases as [|c cases IH]; intros s Hs; [done|]. apply IH. unfold cover.
  destruct (assoc_get _ _); [by apply assoc_set_nodup|done].
Qed.

Lemma pass_rate_spec results : results ≠ [] →
  (0 <= pass_rate results <= 1)%Q ∧ ((pass_rate results == 1)%Q ↔ ∀ r, r ∈ results → tr_status r = "pass").
Proof.
  intros Hne. pose proof (count_of_bounds passing results) as [Hlo Hhi].
  assert (Hlen : 0 < Z.of_nat (length results)) by (destruct results; [done|simpl; lia]).
  assert (Hq : pass_rate results = (inject_Z (count_of passing results) / inject_Z (Z.of_nat (length results)))%Q)
    by (by destruct results).
  rewrite Hq. set (n := Z.of_nat (length results)) in *. set (k := count_of passing results) in *.
  assert (Hn : (0 < inject_Z n)%Q) by (change 0%Q with (inject_Z 0); by rewrite <-Zlt_Qlt).
  assert (Hall : k = n ↔ ∀ r, r ∈ results → tr_status r = "pass").
  { unfold k, n. clear. induction results as [|r l IH]; [split; [|done]; intros _ r Hr; by apply elem_of_nil in Hr|].
    rewrite count_of_cons. simpl length. pose proof (count_of_bounds passing l). unfold passing at 1.
    destruct (String.eqb_spec (tr_status r) "pass") as [Hp|Hp].
    - split; [intros Hk x [->|Hx]%elem_of_cons; [done|apply IH; [lia|done]]|].
      intros Hx. rewrite (proj2 IH); [lia|]. intros y Hy. apply Hx. by apply list_elem_of_further.
    - split; [lia|]. intros Hx. destruct Hp. apply Hx. apply list_elem_of_here. }
  split.
  - split; [apply Qle_shift_div_l|apply Qle_shift_div_r]; try done.
    + rewrite Qmult_0_l. change 0%Q with (inject_Z 0). by rewrite <-Zle_Qle.
    + rewrite Qmult_1_l. by rewrite <-Zle_Qle.
  - rewrite <-Hall. split; [|intros ->; by apply Qmult_inv_r; intros Hz; rewrite Hz in Hn].
    intros He. assert (Hkn : (inject_Z k == inject_Z n)%Q).
    { rewrite <-(Qmult_div_r (inject_Z k) (inject_Z n)) by (intros Hz; by rewrite Hz in Hn). rewrite He. apply Qmult_1_r. }
    unfold Qeq in Hkn. simpl in Hkn. lia.
Qed.

Section StageProps.
Context (json_loads : string → result json) (dumps_indent : json → string) (schema_text : string → string).
Context (lax_bool : json → option bool) (lax_int : json → option Z) (lax_float : json → option Q).
Context (py_str : json → string) (dash : string) (ask : string → string → result string).
Local Abbreviation designer_ := (run_test_designer json_loads dumps_indent schema_text lax_bool lax_int py_str dash ask).
Local Abbreviation reporter_ := (run_bug_reporter json_loads dumps_indent schema_text lax_bool lax_int lax_float dash ask).

(** C38: coverage is computed, not believed. Whatever the model says of its own work, the summary
    of the designed cases has exactly the requirements it was given, each with the number
    of the cases that name it; the uncovered ones are those no case names; the total is
    the number of cases. *)
Theorem coverage_is_exact rs o : designer_ rs = Ok o →
  td_total o = Z.of_nat (length (td_cases o))
  ∧ (∀ r, assoc_get r (td_coverage o) = if bool_decide (r ∈ map rq_id rs) then Some (cases_for r (td_cases o)) else None)
  ∧ (∀ r, r ∈ td_uncovered o ↔ r ∈ map rq_id rs ∧ ∀ c, c ∈ td_cases o → tc_req_id c ≠ r).
Proof.
  unfold run_test_designer. intros H. apply rbind_ok in H as (o' & _ & H). injection H as <-. simpl.
  split_and!; [done|intros r; apply covered|]. intros r.
  transitivity (assoc_get r (coverage rs (td_cases o')) = Some 0).
  - rewrite assoc_get_iff by apply coverage_nodup. split.
    + intros ([k n] & -> & Hin)%list_elem_of_fmap. apply list_elem_of_In, filter_In in Hin as [Hin Hn%Z.eqb_eq].
      simpl in *. subst n. by apply list_elem_of_In.
    + intros Hin. apply list_elem_of_fmap. exists (r, 0). split; [done|]. by apply list_elem_of_In, filter_In; rewrite <-list_elem_of_In.
  - rewrite covered. unfold cases_for. case_bool_decide as Hr; [|split; [done|by intros []]].
    split; [|intros [_ Hc]; f_equal; apply count_of_zero; intros c Hin; by apply String.eqb_neq, Hc].
    intros [= Hz]. split; [done|]. intros c Hin He. rewrite count_of_zero in Hz. specialize (Hz c Hin).
    by apply String.eqb_neq in Hz.
Qed.

(** The pass rate is the share of the passing results, and a failure is never invented. The
    rate is between zero and one, and one exactly when every result passed; without a
    failing result no bug is reported; and the totals are those of
    the bugs listed. *)
Theorem bug_reports_add_up results cases rs o : results ≠ [] → reporter_ results cases rs = Ok o →
  (0 <= br_pass_rate o <= 1)%Q ∧ ((br_pass_rate o == 1)%Q ↔ ∀ r, r ∈ results → tr_status r = "pass")
  ∧ ((∀ r, r ∈ results → failing r = false) → br_reports o = [])
  ∧ br_total o = Z.of_nat (length (br_reports o)) ∧ 0 <= br_critical o <= br_total o
  ∧ ∀ b, b ∈ br_handoffs o → ∃ r, r ∈ br_reports o ∧ bg_id r = b ∧ bg_handoff r = true.
Proof.
  intros Hne H. assert (Hrate : br_pass_rate o = pass_rate results).
  { unfold run_bug_reporter in H. cbv zeta in H. destruct (List.filter failing results); [by injection H as <-|].
    apply rbind_ok in H as (o' & _ & H). by injection H as <-. }
  rewrite Hrate. destruct (pass_rate_spec results Hne) as [Hb H1]. split; [exact Hb|]. split; [exact H1|].
  unfold run_bug_reporter in H. cbv zeta in H. destruct (List.filter failing results) as [|bad l] eqn:Ef.
  { injection H as <-. simpl. split_and!; [done..|]. by intros b Hin%elem_of_nil. }
  apply rbind_ok in H as (o' & _ & H). injection H as <-. simpl.
  split; [|split_and!; [done|apply count_of_bounds..|]].
  - intros Hno. assert (Hin : bad ∈ List.filter failing results) by (rewrite Ef; apply list_elem_of_here).
    apply list_elem_of_In, filter_In in Hin as [Hin Hf]. rewrite Hno in Hf; [done|by apply list_elem_of_In].
  - intros b (r & -> & Hin)%list_elem_of_fmap. apply list_elem_of_In, filter_In in Hin as [Hin Hh].
    exists r. split; [by apply list_elem_of_In|done].
Qed.
End StageProps.

(** ** The pipeline *)

Section PipelineProps.
Context (json_loads : string → result json) (dumps_indent : json → string) (schema_text : string → string).
Context (lax_bool : json → option bool) (lax_int : json → option Z) (lax_float : json → option Q).
Context (py_str : json → string) (dash : string) (ask : string → string → result string).
Context (clock : nat → time) (accepts : VegaStageRecord → bool) (takes : RefineryFeedbackEvent → bool).
Context (message : exn → string) (run_id : uuid) (elapsed_ms : Z) (provider : result unit).
Local Abbreviation pipeline_ := (run_vega_pipeline json_loads dumps_indent schema_text lax_bool lax_int lax_float py_str dash ask
  clock accepts takes message run_id elapsed_ms provider).
Local Abbreviation stages_ := (run_stages json_loads dumps_indent schema_text lax_bool lax_int lax_float py_str dash ask
  clock accepts message run_id).

(** What one stage publishes: its record, from pending along the transitions, as far as
    it came. *)
Definition stage_trace (s : VegaStage) (l : list VegaStageRecord) : Prop :=
  Forall (λ r, sg_stage r = s ∧ sg_run_id r = uuid_str run_id) l
  ∧ map sg_status l ∈ [[]; [v_pending]; [v_pending; v_running]; [v_pending; v_running; v_complete];
                       [v_pending; v_running; v_failed]].

(** A stage that is complete: its last record says so and carries what it answered. *)
Definition stage_done {A} (dump : A → json) (a : A) (l : list VegaStageRecord) : Prop :=
  map sg_status l = [v_pending; v_running; v_complete] ∧ sg_output <$> last l = Some (Some (dump a)).

Lemma run_stage_trace {A} stage input body (dump : A → json) w x w' :
  run_stage clock accepts message run_id stage input body dump w = (x, w') →
  ∃ l, vw_records w' = vw_records w ++ l ∧ vw_feedback w' = vw_feedback w ∧ stage_trace stage l
    ∧ ∀ a, x = Ok a → body = Ok a ∧ stage_done dump a l.
Proof.
  unfold run_stage, publish_record, transition, now, except, transition_status. munfold.
  destruct (accepts _); simpl; [|intros [= <- <-]; exists []; rewrite app_nil_r; split_and!; [done..|by split; [constructor|left]|done]].
  destruct (accepts _); simpl.
  2: { intros [= <- <-]. eexists. split; [reflexivity|]. split_and!; [done|split; [by repeat constructor|right; left]|done]. }
  destruct body as [a|e]; simpl.
  - destruct (accepts _); simpl; intros [= <- <-]; eexists; (split; [by rewrite <-!app_assoc|]);
      (split_and!; [done|split; [by repeat constructor|simpl]|]).
    + do 3 right. left.
    + intros a' [= <-]. done.
    + do 2 right. left.
    + done.
  - destruct (accepts _); simpl; intros [= <- <-]; eexists; (split; [by rewrite <-!app_assoc|]);
      (split_and!; [done|split; [by repeat constructor|simpl]|done]).
    + do 4 right. left.
    + do 2 right. left.
Qed.

(** The records of a run: those of the three stages, in order, each begun only when the
    one before it was done. *)
Definition ordered (results : json) (la lt lb : list VegaStageRecord) : Prop :=
  stage_trace analyzer la ∧ stage_trace test_designer lt ∧ stage_trace bug_reporter lb
  ∧ (lt ≠ [] → ∃ a, stage_done analyzer_json a la)
  ∧ (lb ≠ [] → results ≠ JNull ∧ ∃ d, stage_done designer_json d lt).

Definition answered (results : json) (la lt lb : list VegaStageRecord) (p : pipeline_result) : Prop :=
  stage_done analyzer_json (pp_analyzer p) la ∧ stage_done designer_json (pp_designer p) lt
  ∧ match pp_reporter p with Some b => stage_done reporter_json b lb | None => results = JNull ∧ lb = [] end.

Lemma nil_trace s : stage_trace s [].
Proof. split; [constructor|left]. Qed.

Lemma reporter_trace v cases rs w x w' :
  run_reporter json_loads dumps_indent schema_text lax_bool lax_int lax_float py_str dash ask clock accepts message run_id
    v cases rs w = (x, w') →
  ∃ l, vw_records w' = vw_records w ++ l ∧ vw_feedback w' = vw_feedback w ∧ stage_trace bug_reporter l
    ∧ ∀ b, x = Ok b → stage_done reporter_json b l.
Proof.
  unfold run_reporter. unfold mbind, M_bind, mlift. intros H.
  destruct (normalize_test_results _ _) as [items|e];
    [|injection H as <- <-; exists []; rewrite app_nil_r; split_and!; [done..|apply nil_trace|done]].
  destruct (rmap _ _) as [results|e];
    [|injection H as <- <-; exists []; rewrite app_nil_r; split_and!; [done..|apply nil_trace|done]].
  apply run_stage_trace in H as (l & E1 & E2 & Ht & Hb). exists l. split_and!; [done..|]. intros b Hx. by apply Hb.
Qed.

Lemma stages_trace raw results src w x w' : stages_ raw results src w = (x, w') →
  ∃ la lt lb, vw_records w' = vw_records w ++ la ++ lt ++ lb ∧ vw_feedback w' = vw_feedback w
    ∧ ordered results la lt lb ∧ ∀ p, x = Ok p → answered results la lt lb p.
Proof.
  unfold run_stages. intros H. unfold mbind at 1, M_bind at 1, mlift at 1 in H.
  assert (Hnone : ∀ e : exn, (Raise e, w) = (x, w') → ∃ la lt lb, vw_records w' = vw_records w ++ la ++ lt ++ lb
    ∧ vw_feedback w' = vw_feedback w ∧ ordered results la lt lb ∧ ∀ p, x = Ok p → answered results la lt lb p).
  { intros e [= <- <-]. exists [], [], []. rewrite app_nil_r. split_and!; [done..| |done].
    split_and!; [apply nil_trace..|done|done]. }
  destruct (analyzer_input raw src) as [input|e]; [|by eapply Hnone].
  apply mbind_cases in H as [(e & H & ->)|(a & w1 & H1 & H)].
  { apply run_stage_trace in H as (la & E1 & E2 & Ht & _). exists la, [], []. rewrite E1, app_nil_r.
    split_and!; [done..| |done]. split_and!; [done|apply nil_trace..|done|done]. }
  apply run_stage_trace in H1 as (la & E1 & E2 & Hta & Ha). destruct (Ha a eq_refl) as [_ Hda]. clear Ha.
  apply mbind_cases in H as [(e & H & ->)|(d & w2 & H2 & H)].
  { apply run_stage_trace in H as (lt & F1 & F2 & Ht & _). exists la, lt, []. rewrite F1, E1, app_nil_r, <-app_assoc.
    split_and!; [done|congruence| |done]. split_and!; [done|done|apply nil_trace|by eexists|done]. }
  apply run_stage_trace in H2 as (lt & F1 & F2 & Htt & Hd). destruct (Hd d eq_refl) as [_ Hdd]. clear Hd.
  assert (Hends : ∀ lb, stage_trace bug_reporter lb → (lb ≠ [] → results ≠ JNull) → ordered results la lt lb)
    by (intros lb Hlb Hr; split_and!; [done..|by eexists|intros Hne; split; [by apply Hr|by exists d]]).
  assert (Hthird : results ≠ JNull → ∀ x w', (b ← run_reporter json_loads dumps_indent schema_text lax_bool lax_int lax_float
      py_str dash ask clock accepts message run_id results (td_cases d) (an_requirements a);
      mret (mk_pipeline (uuid_str run_id) a d (Some b))) w2 = (x, w') →
    ∃ la lt lb, vw_records w' = vw_records w ++ la ++ lt ++ lb ∧ vw_feedback w' = vw_feedback w
    ∧ ordered results la lt lb ∧ ∀ p, x = Ok p → answered results la lt lb p).
  { intros Hr y w3 H3. apply mbind_cases in H3 as [(e & H3 & ->)|(b & w4 & H3 & [= <- <-])];
      apply reporter_trace in H3 as (lb & G1 & G2 & Htb & Hb); exists la, lt, lb; rewrite G1, F1, E1, <-!app_assoc;
      (split_and!; [done|congruence|by apply Hends|]); [done|]. intros p [= <-]. split_and!; [done..|]. by apply Hb. }
  destruct results; try (by apply Hthird). injection H as <- <-.
  exists la, lt, []. rewrite F1, E1, app_nil_r, <-app_assoc.
  split_and!; [done|congruence|by apply Hends; [apply nil_trace|]|]. intros p [= <-]. by split_and!.
Qed.

Lemma refinery_fields e e' : validate_refinery e = Ok e' → rf_task e' = rf_task e ∧ rf_outcome e' = rf_outcome e.
Proof. unfold validate_refinery. intros H. rok. done. Qed.

(** Stages follow their lifecycle. A run publishes records of the analyzer, the designer and
    the reporter, in this order; those of a stage go from pending to running to complete
    or failed and no further, and a stage begins only when the one before it was done,
    the third only when there are results. A run that succeeds published what it answers
    with, stage by stage; and at most one event is sent, which says success, partial or
    failure as the run ended. *)
Theorem stages_follow_their_lifecycle raw results src w x w' : pipeline_ raw results src w = (x, w') →
  ∃ la lt lb lf, vw_records w' = vw_records w ++ la ++ lt ++ lb ∧ vw_feedback w' = vw_feedback w ++ lf
    ∧ ordered results la lt lb ∧ (∀ p, x = Ok p → answered results la lt lb p)
    ∧ (length lf ≤ 1)%nat
    ∧ ∀ e, e ∈ lf → rf_task e = run_id ∧
        rf_outcome e = match x, results with Raise _, _ => fail | Ok _, JNull => partial | Ok _, _ => success end.
Proof.
  unfold run_vega_pipeline. intros H. apply mbind_cases in H as [(e & [= _ <-] & ->)|(u & w1 & [= _ <-] & H)].
  { exists [], [], [], []. rewrite !app_nil_r. split_and!; try done; [|by auto|by intros e' He%elem_of_nil].
    split_and!; [apply nil_trace..|done|done]. }
  unfold stages_with_feedback in H. destruct (stages_ raw results src w) as [y w1] eqn:E.
  apply stages_trace in E as (la & lt & lb & E1 & E2 & Ho & Hp). exists la, lt, lb.
  unfold pipeline_feedback in H. destruct (validate_refinery _) as [ev|e] eqn:Ev.
  - destruct (takes ev).
    + injection H as <- <-. exists [ev]. simpl. rewrite E2. split_and!; [done..|auto|].
      intros e ->%list_elem_of_singleton. apply refinery_fields in Ev as [-> ->]. split; [done|]. by destruct y, results.
    + injection H as <- <-. exists []. rewrite app_nil_r. split_and!; [done..|auto|]. by intros e' He%elem_of_nil.
  - injection H as <- <-. exists []. rewrite app_nil_r. split_and!; [done..|auto|]. by intros e' He%elem_of_nil.
Qed.


Local Abbreviation agent_ := (vega_run json_loads dumps_indent schema_text lax_bool lax_int lax_float py_str dash ask
  clock accepts takes message run_id elapsed_ms provider).

(** Requirements are always answered. Whatever the model, the provider or Redis do, a task
    that states requirements is answered: with the cases the pipeline designed, or, when
    the pipeline raised, with at least three cases made for such a case, numbered from
    one, at a confidence that tells the two apart. *)
Theorem requirements_are_always_answered skill payload raw w : require_raw_requirements payload = Ok raw →
  skill ∈ ["vega.skill.requirements_to_test_cases"; "requirements_to_test_cases"] →
  ∃ d w', agent_ skill payload w = (Ok d, w')
  ∧ match pipeline_ raw JNull (obj_default "source_type" (JStr "plain") payload) w with
    | (Ok p, w1) => w' = w1 ∧ obj_get "result" d = Some (designer_json (pp_designer p))
                    ∧ obj_get "confidence" d = Some (JFloat (88 # 100))
    | (Raise e, w1) => w' = w1 ∧ obj_get "confidence" d = Some (JFloat (66 # 100))
        ∧ ∃ cases, obj_get "result" d = Some (JObj (fallback_test_cases raw))
          ∧ obj_get "test_cases" (fallback_test_cases raw) = Some (JArr cases) ∧ (3 ≤ length cases)%nat
          ∧ ∀ i c, cases !! i = Some (JObj c) → obj_get "tc_id" c = Some (JStr ("TC-" +:+ pad3 (Z.of_nat i + 1)))
    end.
Proof.
  intros Hraw Hskill. unfold vega_run. rewrite (bool_decide_true _ Hskill), Hraw.
  unfold mbind at 1, M_bind at 1, mlift at 1. unfold except. unfold mbind at 1, M_bind at 1.
  destruct (pipeline_ raw JNull _ w) as [[p|e] w1]; eexists _, _; (split; [reflexivity|]); [done|].
  split_and!; [done..|]. eexists. split_and!; [done|done| |].
  - rewrite length_imap. unfold fallback_choice. repeat case_match; simpl; lia.
  - intros i c. rewrite list_lookup_imap. destruct (fallback_choice (lower raw) !! i); simpl; [|done]. by intros [= <-].
Qed.
End PipelineProps.

(** ** Witnesses *)

Module VegaDemo.
Definition req (i : string) : json := JObj [("req_id", JStr i); ("title", JStr "t"); ("description", JStr "d");
  ("category", JStr "functional"); ("priority", JStr "high"); ("testable", JBool true); ("ambiguity_flag", JBool false)].
Definition case_for (i r : string) : json := JObj [("tc_id", JStr i); ("req_id", JStr r); ("title", JStr "t");
  ("steps", JStr "- open
- close"); ("expected_result", JStr "e"); ("test_type", JStr "Happy path"); ("priority", JStr "urgent"); ("automated", JStr "yes")].
(** The two answers, as they would be parsed; the totals the model states are wrong. *)
Definition loads (s : string) : result json :=
  if String.eqb s "{requirements}" then
    Ok (JObj [("output", JObj [("requirements", JArr [req "R1"; req "R2"]); ("total_count", JInt 7); ("ambiguous_count", JInt 7);
                               ("untestable_count", JInt 7); ("summary", JStr "s")])])
  else if String.eqb s "{cases}" then
    Ok (JObj [("test_cases", JArr [case_for "T1" "R1"; case_for "T2" "R1"; case_for "T3" "R9"]); ("total_count", JInt 9);
              ("coverage_summary", JObj [("R2", JInt 5)]); ("uncovered_reqs", JArr [])])
  else if String.eqb s "{bugs}" then
    Ok (JObj [("bug_reports", JArr []); ("total_bugs", JInt 4); ("critical_count", JInt 4); ("rigel_handoffs", JArr []);
              ("pass_rate", JFloat 1)])
  else Raise ValueError.
Definition lb (v : json) : option bool := match v with JBool b => Some b | _ => None end.
Definition li (v : json) : option Z := match v with JInt z => Some z | _ => None end.
Definition lf (v : json) : option Q := match v with JFloat q => Some q | _ => None end.
Definition model_up (system _ : string) : result string :=
  Ok (if String.eqb system ANALYZER_PROMPT then "Sure: {requirements}" else if String.eqb system DESIGNER_PROMPT then "{cases}" else "{bugs}").
Definition model_down (_ _ : string) : result string := Raise RuntimeError.
Definition empty : vega_world := mk_vega_world [] [].
Abbreviation designer answers := (run_test_designer loads (λ _, "") (λ _, "") lb li (λ _, "") "-" answers).
Abbreviation reporter answers := (run_bug_reporter loads (λ _, "") (λ _, "") lb li lf "-" answers).
Abbreviation pipeline answers results := (run_vega_pipeline loads (λ _, "") (λ _, "") lb li lf (λ _, "") "-" answers
  Z.of_nat (λ _, true) (λ _, true) (λ _, "down") 1%N 5 (Ok tt) "The user can log in" results (JStr "plain") empty).
Abbreviation agent answers skill payload := (vega_run loads (λ _, "") (λ _, "") lb li lf (λ _, "") "-" answers
  Z.of_nat (λ _, true) (λ _, true) (λ _, "down") 1%N 5 (Ok tt) skill payload empty).
Definition r1 : Requirement := mk_requirement "R1" "t" "d" "functional" "high" true false None.
Definition r2 : Requirement := mk_requirement "R2" "t" "d" "functional" "high" true false None.

(** The cases are repaired, and the summary is the true one. *)
Example designed : match designer model_up [r1; r2] with
  | Ok o => td_coverage o = [("R1", 2); ("R2", 0)] ∧ td_uncovered o = ["R2"] ∧ td_total o = 3
            ∧ map tc_steps (td_cases o) = [["open"; "close"]; ["open"; "close"]; ["open"; "close"]]
            ∧ map tc_type (td_cases o) = ["positive"; "positive"; "positive"] ∧ map tc_priority (td_cases o) = ["medium"; "medium"; "medium"]
  | Raise _ => False
  end.
Proof. vm_compute. done. Qed.

Example published : map (λ r, (sg_stage r, sg_status r)) (vw_records (pipeline model_up JNull).2)
  = [(analyzer, v_pending); (analyzer, v_running); (analyzer, v_complete);
     (test_designer, v_pending); (test_designer, v_running); (test_designer, v_complete)]
  ∧ map rf_outcome (vw_feedback (pipeline model_up JNull).2) = [partial].
Proof. vm_compute. done. Qed.

(** With the model down a task about requirements is answered with cases that have nothing
    to do with them, and the confidence is enough to complete the task. *)
Definition payload : jdict := [("raw_requirements", JStr "Count the frequency of each word")].
Example an_outage_completes_the_task :
  match (agent model_down "vega.skill.requirements_to_test_cases" payload).1 with
  | Ok d => obj_get "confidence" d = Some (JFloat (66 # 100)) ∧ Qle_bool (65 # 100) (66 # 100) = true
  | Raise _ => False
  end.
Proof. vm_compute. split; reflexivity. Qed.

Definition one_of_two : list TestResult := [mk_test_result "T1" "pass" None None; mk_test_result "T2" "blocked" None None].
Lemma designer_answers : is_Some (match designer model_up [r1; r2] with Ok o => Some o | Raise _ => None end).
Proof. vm_compute. by eexists. Qed.
Lemma reporter_answers : is_Some (match reporter model_up one_of_two [] [] with Ok o => Some o | Raise _ => None end).
Proof. vm_compute. by eexists. Qed.
End VegaDemo.
Import VegaDemo.

Lemma coverage_is_exact_witness : ∃ o, designer model_up [r1; r2] = Ok o ∧ td_total o = Z.of_nat (length (td_cases o)).
Proof.
  pose proof designer_answers as Ha. destruct (designer model_up [r1; r2]) as [o|e] eqn:E; [|destruct Ha as [? H]; discriminate H].
  exists o. split; [exact eq_refl|]. exact (proj1 (coverage_is_exact _ _ _ _ _ _ _ _ _ _ E)).
Defined.

Lemma bug_reports_add_up_witness : ∃ o, reporter model_up one_of_two [] [] = Ok o ∧ ¬ (br_pass_rate o == 1)%Q.
Proof.
  pose proof reporter_answers as Ha. destruct (reporter model_up one_of_two [] []) as [o|e] eqn:E; [|destruct Ha as [? H]; discriminate H].
  exists o. split; [exact eq_refl|].
  destruct (bug_reports_add_up _ _ _ _ _ _ _ _ _ _ _ _ (λ H : one_of_two = [], ltac:(discriminate H)) E) as (_ & H1 & _).
  intros Hp. apply H1 with (r := mk_test_result "T2" "blocked" None None) in Hp; [discriminate Hp|].
  apply list_elem_of_further, list_elem_of_here.
Defined.

Lemma stages_follow_their_lifecycle_witness : ∃ la lt lb, vw_records (pipeline model_up JNull).2 = la ++ lt ++ lb
  ∧ ordered 1%N JNull la lt lb.
Proof.
  destruct (pipeline model_up JNull) as [x w'] eqn:E.
  destruct (stages_follow_their_lifecycle _ _ _ _ _ _ _ _ _ _ _ _ _ _ _ _ _ _ _ _ _ _ E) as (la & lt & lb & lf & Hr & _ & Ho & _).
  exists la, lt, lb. split; [exact Hr|exact Ho].
Defined.

Lemma requirements_are_always_answered_witness : ∃ d w', agent model_down "requirements_to_test_cases" payload = (Ok d, w').
Proof.
  destruct (requirements_are_always_answered loads (λ _, "") (λ _, "") lb li lf (λ _, "") "-" model_down
    Z.of_nat (λ _, true) (λ _, true) (λ _, "down") 1%N 5 (Ok tt) "requirements_to_test_cases" payload
    "Count the frequency of each word" empty eq_refl ltac:(right; left)) as (d & w' & H & _).
  exists d, w'. exact H.
Defined.
