(* ===== verification/Base64.v ===== *)
(** [base64.urlsafe_b64encode] without its padding, and [base64.urlsafe_b64decode], which
    skips what is no character of the alphabet. Bytes are integers below 256. *)

From S2P Require Import Prelude.
From S2P Require Import PyStr.
From Stdlib Require Import Ascii.
Open Scope Z_scope.

Definition ALPHABET : list ascii :=
  to_list "ABCDEFGHIJKLMNOPQRSTUVWXYZabcdefghijklmnopqrstuvwxyz0123456789-_".

Definition sextet_char (v : Z) : ascii := nth (Z.to_nat v) ALPHABET "A"%char.

(** The value of a character; the standard alphabet's last two are read as well. *)
Definition sextet_value (c : ascii) : option Z :=
  let n := Z.of_nat (nat_of_ascii c) in
  if (65 <=? n) && (n <=? 90) then Some (n - 65)
  else if (97 <=? n) && (n <=? 122) then Some (n - 71)
  else if (48 <=? n) && (n <=? 57) then Some (n + 4)
  else if Ascii.eqb c "-" || Ascii.eqb c "+" then Some 62
  else if Ascii.eqb c "_" || Ascii.eqb c "/" then Some 63
  else None.

Definition byte (b : Z) : Prop := 0 <= b < 256.

(** Three bytes are four characters; one byte at the end is two, two bytes are three. *)
Fixpoint encode (l : list Z) : list ascii :=
  match l with
  | [] => []
  | [a] => [sextet_char (Z.shiftr a 2); sextet_char (Z.shiftl (Z.land a 3) 4)]
  | [a; b] => [sextet_char (Z.shiftr a 2); sextet_char (Z.lor (Z.shiftl (Z.land a 3) 4) (Z.shiftr b 4));
               sextet_char (Z.shiftl (Z.land b 15) 2)]
  | a :: b :: c :: l =>
      sextet_char (Z.shiftr a 2) :: sextet_char (Z.lor (Z.shiftl (Z.land a 3) 4) (Z.shiftr b 4))
      :: sextet_char (Z.lor (Z.shiftl (Z.land b 15) 2) (Z.shiftr c 6)) :: sextet_char (Z.land c 63) :: encode l
  end.

(** [binascii.a2b_base64]: the place in a group of four, the padding seen since the last
    character, the bits left over, and the bytes so far, last first. *)
Fixpoint a2b (quad pads : nat) (left : Z) (out : list Z) (l : list ascii) : option (list Z) :=
  match l with
  | [] => if (quad =? 0)%nat then Some (rev out) else None
  | c :: l =>
      if Ascii.eqb c "=" then
        if (2 <=? quad)%nat then
          if (4 <=? quad + S pads)%nat then Some (rev out) else a2b quad (S pads) left out l
        else a2b quad pads left out l
      else
        match sextet_value c with
        | None => a2b quad pads left out l
        | Some v =>
            match quad with
            | 0%nat => a2b 1 0 v out l
            | 1%nat => a2b 2 0 (Z.land v 15) (Z.lor (Z.shiftl left 2) (Z.shiftr v 4) :: out) l
            | 2%nat => a2b 3 0 (Z.land v 3) (Z.lor (Z.shiftl left 4) (Z.shiftr v 2) :: out) l
            | _ => a2b 0 0 0 (Z.lor (Z.shiftl left 6) v :: out) l
            end
        end
  end.

(** [value + "=" * (-len(value) % 4)]. *)
Definition padding (l : list ascii) : list ascii :=
  repeat "="%char (Z.to_nat (- Z.of_nat (length l) mod 4)).

Definition ascii_only (l : list ascii) : bool := forallb (λ c, (nat_of_ascii c <? 128)%nat) l.

Definition b64e (bytes : list Z) : string := of_list (encode bytes).
Definition b64d (value : string) : result (list Z) :=
  let l := to_list value in
  if ascii_only l then of_option ValueError (a2b 0 0 0 [] (l ++ padding l)) else Raise ValueError.

(** ** Properties *)

(** A check of all bytes below two bounds. *)
Definition below (n m : Z) (f : Z → Z → bool) : bool :=
  forallb (λ a, forallb (λ b, f a b) (map Z.of_nat (seq 0 (Z.to_nat m)))) (map Z.of_nat (seq 0 (Z.to_nat n))).

Lemma below_spec n m f a b : below n m f = true → 0 <= a < n → 0 <= b < m → f a b = true.
Proof.
  unfold below. intros H Ha Hb. rewrite forallb_forall in H.
  assert (Hin : ∀ k x, 0 <= x < k → In x (map Z.of_nat (seq 0 (Z.to_nat k)))).
  { intros k x Hx. apply in_map_iff. exists (Z.to_nat x). split; [lia|]. apply in_seq. lia. }
  specialize (H a (Hin _ _ Ha)). rewrite forallb_forall in H. apply H. by apply Hin.
Qed.

Definition sextet_ok (v : Z) : bool :=
  match sextet_value (sextet_char v) with Some w => w =? v | None => false end
  && negb (Ascii.eqb (sextet_char v) "=") && (nat_of_ascii (sextet_char v) <? 128)%nat.

Lemma sextet_inverse v : 0 <= v < 64 → sextet_value (sextet_char v) = Some v ∧ Ascii.eqb (sextet_char v) "=" = false
  ∧ (nat_of_ascii (sextet_char v) <? 128)%nat = true.
Proof.
  intros Hv. assert (H : sextet_ok v = true).
  { apply (below_spec 64 1 (λ v _, sextet_ok v) v 0); [vm_compute; reflexivity|done|lia]. }
  unfold sextet_ok in H. apply andb_true_iff in H as [[H1 H2]%andb_true_iff H3].
  split_and!; [|by apply negb_true_iff|done]. destruct (sextet_value _); [|done]. by apply Z.eqb_eq in H1 as ->.
Qed.

Definition in_sextet (v : Z) : bool := (0 <=? v) && (v <? 64).

(** The second character of a group, of a byte and the high half of the next. *)
Definition first_ok (a h : Z) : bool :=
  let s := Z.lor (Z.shiftl (Z.land a 3) 4) h in
  in_sextet (Z.shiftr a 2) && in_sextet s && (Z.lor (Z.shiftl (Z.shiftr a 2) 2) (Z.shiftr s 4) =? a) && (Z.land s 15 =? h).
(** The third, of a byte and the top of the next. *)
Definition second_ok (b t : Z) : bool :=
  let s := Z.lor (Z.shiftl (Z.land b 15) 2) t in
  in_sextet s && (Z.lor (Z.shiftl (Z.shiftr b 4) 4) (Z.shiftr s 2) =? b) && (Z.land s 3 =? t)
  && (0 <=? Z.shiftr b 4) && (Z.shiftr b 4 <? 16).
Definition third_ok (c _ : Z) : bool :=
  in_sextet (Z.land c 63) && (Z.lor (Z.shiftl (Z.shiftr c 6) 6) (Z.land c 63) =? c)
  && (0 <=? Z.shiftr c 6) && (Z.shiftr c 6 <? 4).

Lemma all_first : below 256 16 first_ok = true. Proof. vm_compute. reflexivity. Qed.
Lemma all_second : below 256 4 second_ok = true. Proof. vm_compute. reflexivity. Qed.
Lemma all_third : below 256 1 third_ok = true. Proof. vm_compute. reflexivity. Qed.

Ltac bits H := unfold first_ok, second_ok, third_ok, in_sextet in H; cbv zeta in H; rewrite ?andb_true_iff, ?Z.leb_le, ?Z.ltb_lt, ?Z.eqb_eq in H.

Lemma first_spec a h : byte a → 0 <= h < 16 → let s := Z.lor (Z.shiftl (Z.land a 3) 4) h in
  0 <= Z.shiftr a 2 < 64 ∧ 0 <= s < 64 ∧ Z.lor (Z.shiftl (Z.shiftr a 2) 2) (Z.shiftr s 4) = a ∧ Z.land s 15 = h.
Proof. intros Ha Hh. pose proof (below_spec _ _ _ _ _ all_first Ha Hh) as H. bits H. cbv zeta. tauto. Qed.

Lemma second_spec b t : byte b → 0 <= t < 4 → let s := Z.lor (Z.shiftl (Z.land b 15) 2) t in
  0 <= s < 64 ∧ Z.lor (Z.shiftl (Z.shiftr b 4) 4) (Z.shiftr s 2) = b ∧ Z.land s 3 = t ∧ 0 <= Z.shiftr b 4 < 16.
Proof. intros Hb Ht. pose proof (below_spec _ _ _ _ _ all_second Hb Ht) as H. bits H. cbv zeta. tauto. Qed.

Lemma third_spec c : byte c → 0 <= Z.land c 63 < 64 ∧ Z.lor (Z.shiftl (Z.shiftr c 6) 6) (Z.land c 63) = c ∧ 0 <= Z.shiftr c 6 < 4.
Proof. intros Hc. pose proof (below_spec _ _ _ c 0 all_third Hc ltac:(lia)) as H. bits H. cbv zeta. tauto. Qed.

Lemma a2b_char v quad pads left out l : 0 <= v < 64 →
  a2b quad pads left out (sextet_char v :: l) =
    match quad with
    | 0%nat => a2b 1 0 v out l
    | 1%nat => a2b 2 0 (Z.land v 15) (Z.lor (Z.shiftl left 2) (Z.shiftr v 4) :: out) l
    | 2%nat => a2b 3 0 (Z.land v 3) (Z.lor (Z.shiftl left 4) (Z.shiftr v 2) :: out) l
    | _ => a2b 0 0 0 (Z.lor (Z.shiftl left 6) v :: out) l
    end.
Proof. intros Hv. destruct (sextet_inverse v Hv) as (H1 & H2 & _). cbn [a2b]. by rewrite H2, H1. Qed.

(** The padding a text of this many bytes needs. *)
Definition pads_for (n : nat) : list ascii :=
  match (n mod 3)%nat with 0%nat => [] | 1%nat => ["="; "="]%char | _ => ["="]%char end.

Lemma a2b_encode l : Forall byte l → ∀ out, a2b 0 0 0 out (encode l ++ pads_for (length l)) = Some (rev out ++ l).
Proof.
  induction l as [l IH] using (induction_ltof1 _ (@length Z)). unfold ltof in IH. intros Hl out.
  destruct l as [|a [|b [|c l]]].
  - simpl. by rewrite app_nil_r.
  - apply Forall_inv in Hl. destruct (first_spec a 0 Hl ltac:(lia)) as (G0 & G1 & G2 & _). rewrite Z.lor_0_r in *.
    simpl encode. simpl app. rewrite a2b_char by done. rewrite a2b_char by done. simpl. by rewrite G2.
  - inversion Hl as [|? ? Ha Hl']. apply Forall_inv in Hl' as Hb. destruct (second_spec b 0 Hb ltac:(lia)) as (G0 & G1 & _ & Hh).
    rewrite Z.lor_0_r in *. destruct (first_spec a (Z.shiftr b 4) Ha Hh) as (G2 & G3 & G4 & G5).
    simpl encode. simpl app. do 3 (rewrite a2b_char by done). rewrite G4, G5, G1. simpl. by rewrite <-app_assoc.
  - inversion Hl as [|? ? Ha Hl1]. inversion Hl1 as [|? ? Hb Hl2]. inversion Hl2 as [|? ? Hc Hl3].
    destruct (third_spec c Hc) as (G0 & G1 & G2). destruct (second_spec b _ Hb G2) as (G3 & G4 & G5 & Hh).
    destruct (first_spec a _ Ha Hh) as (G6 & G7 & G8 & G9).
    simpl encode. cbn [app]. do 4 (rewrite a2b_char by done). rewrite G8, G9, G4, G5, G1.
    replace (pads_for (length (a :: b :: c :: l))) with (pads_for (length l)).
    + rewrite IH; [|simpl; lia|done]. simpl. by rewrite <-!app_assoc.
    + unfold pads_for. simpl length. replace (S (S (S (length l)))) with (length l + 1 * 3)%nat by lia. by rewrite Nat.Div0.mod_add.
Qed.

Lemma encode_length l : (length (encode l) + length (pads_for (length l)))%nat = (4 * ((length l + 2) / 3))%nat
  ∧ (length (pads_for (length l)) < 4)%nat.
Proof.
  induction l as [l IH] using (induction_ltof1 _ (@length Z)). unfold ltof in IH.
  destruct l as [|a [|b [|c l]]]; [simpl; lia..|].
  replace (pads_for (length (a :: b :: c :: l))) with (pads_for (length l)).
  - destruct (IH l) as [H1 H2]; [simpl; lia|]. split; [|done]. simpl length.
    replace (S (S (S (length l))) + 2)%nat with (length l + 2 + 1 * 3)%nat by lia. rewrite Nat.div_add by lia. lia.
  - unfold pads_for. simpl length. replace (S (S (S (length l)))) with (length l + 1 * 3)%nat by lia. by rewrite Nat.Div0.mod_add.
Qed.

Lemma padding_encode l : padding (encode l) = pads_for (length l).
Proof.
  destruct (encode_length l) as [H1 H2]. unfold padding.
  replace (Z.to_nat (- Z.of_nat (length (encode l)) mod 4)) with (length (pads_for (length l))).
  - unfold pads_for. by destruct (length l mod 3)%nat as [|[|]].
  - assert (Hz : - Z.of_nat (length (encode l)) mod 4 = Z.of_nat (length (pads_for (length l)))).
    { symmetry. apply Z.mod_unique with (q := - Z.of_nat ((length l + 2) / 3)); [lia|]. lia. }
    rewrite Hz. lia.
Qed.

Lemma sextet_char_ascii v : (nat_of_ascii (sextet_char v) <? 128)%nat = true.
Proof.
  unfold sextet_char. assert (Hall : forallb (λ c, (nat_of_ascii c <? 128)%nat) ALPHABET = true) by (vm_compute; reflexivity).
  rewrite forallb_forall in Hall. destruct (nth_in_or_default (Z.to_nat v) ALPHABET "A"%char) as [Hin| ->]; [by apply Hall|reflexivity].
Qed.

Lemma encode_ascii l : ascii_only (encode l) = true.
Proof.
  induction l as [l IH] using (induction_ltof1 _ (@length Z)). unfold ltof, ascii_only in *.
  destruct l as [|a [|b [|c l]]]; [done|..]; cbn [encode forallb]; rewrite !sextet_char_ascii, ?andb_true_l; try done.
  apply IH. simpl. lia.
Qed.

(** What is encoded is decoded. Any bytes come back from the text made of them. *)
Lemma decode_encode l : Forall byte l → b64d (b64e l) = Ok l.
Proof.
  intros Hl. unfold b64d, b64e. rewrite to_of_list, encode_ascii, padding_encode, a2b_encode by done. done.
Qed.

(** What is no character of the alphabet is skipped, and text after the padding dropped. *)
Example lenient : b64d "QU JD" = Ok [65; 66; 67] ∧ b64d "QQ==QUJD" = Ok [65] ∧ b64d "Q" = Raise ValueError
  ∧ b64e [65; 66; 67; 255] = "QUJD_w".
Proof. vm_compute. done. Qed.
