(* ===== verification/Scorecards.v ===== *)
(** core/scorecards and the scorecard endpoints of services/andromeda_service.py: the
    metrics of an agent at a skill, and the signed envelope they are published in.

    Arithmetic is exact, with the square root an argument. Keys and Ed25519 are those of
    the cryptography library, and are arguments with SHA-256, the canonical text of
    [json.dumps] and [json.loads]; a digest is a text, keys, texts and signatures are
    bytes. [ScorecardError] is a [ValueError]. *)

From S2P Require Import Prelude.
From S2P Require Import PyStr.
From S2P Require Import PyTime.
From S2P Require Import Json.
From S2P Require Import TaskLog.
From S2P Require Import Feedback.
From S2P Require Import Base64.
From Stdlib Require Import Ascii QArith Qminmax.
From Stdlib Require Import Ascii QArith Lqa.
Close Scope Q_scope.
Open Scope Z_scope.

(** ** Metrics *)

Definition MIN_TASKS : Z := 20.
Definition Z95 : Q := 196 # 100.

Definition ratio (a b : Z) : Q := (inject_Z a / inject_Z b)%Q.

(** [round(q, 4)]. *)
Definition round4 (q : Q) : Q := (round_div (Qnum q * 10000) (Zpos (Qden q)) # 10000)%Q.

Definition qmax (a b : Q) : Q := if Qle_bool a b then b else a.
Definition qmin (a b : Q) : Q := if Qle_bool b a then b else a.

(** A row of a group: outcome, confidence, verified, latency. *)
Record sample := mk_sample {
  sm_outcome : string;
  sm_confidence : Q;
  sm_verified : bool;
  sm_latency : option Z }.

Record Scorecard := mk_scorecard {
  sd_issuer : string;
  sd_agent : string;
  sd_skill : string;
  sd_issued_at : string;
  sd_from : string;
  sd_days : Z;
  sd_tasks : Z;
  sd_success_rate : Q;
  sd_ci95 : Q * Q;
  sd_partial_rate : Q;
  sd_fail_rate : Q;
  sd_avg_confidence : Q;
  sd_verified_rate : Q;
  sd_p50 : option Z;
  sd_p95 : option Z;
  sd_sufficient : bool }.

Section Metrics.
Context (sqrt : Q → Q).

(** [wilson_interval]. *)
Definition wilson_interval (successes n : Z) (z : Q) : Q * Q :=
  if n =? 0 then (0, 1)%Q
  else
    let p := ratio successes n in
    let nq := inject_Z n in
    let denominator := (1 + z * z / nq)%Q in
    let centre := (p + z * z / (2 * nq))%Q in
    let margin := (z * sqrt (p * (1 - p) / nq + z * z / (4 * nq * nq)))%Q in
    (qmax 0 ((centre - margin) / denominator), qmin 1 ((centre + margin) / denominator))%Q.

(** [math.ceil(q / 100 * n)]. *)
Definition rank_of (q : Z) (n : nat) : Z := Z.max 1 (- ((- (q * Z.of_nat n)) / 100)).
Definition percentile (sorted_values : list Z) (q : Z) : option Z :=
  match sorted_values with
  | [] => None
  | l => nth_error l (Z.to_nat (rank_of q (length l) - 1))
  end.

Definition count_outcome (o : string) (rows : list sample) : Z :=
  Z.of_nat (length (List.filter (λ r, String.eqb (sm_outcome r) o) rows)).
Definition sum_q (l : list Q) : Q := foldl Qplus 0%Q l.

(** [moment.isoformat().replace("+00:00", "Z")]. *)
Definition iso_z (t : time) : string :=
  let s := iso t in of_list (take (String.length s - 6) (to_list s)) +:+ "Z".

(** [_scorecard]; [now - timedelta(days)] before the year 1 is an [OverflowError]. *)
Definition scorecard (agent skill : string) (rows : list sample) (issuer : string) (days : Z) (now : time) : result Scorecard :=
  let tasks := Z.of_nat (length rows) in
  let successes := count_outcome "success" rows in
  let latencies := py_sorted Z.leb (omap sm_latency rows) in
  let '(low, high) := wilson_interval successes tasks Z95 in
  from ← dt_add now (- days * 86400000000);
  Ok (mk_scorecard issuer agent skill (iso_z now) (iso_z from) days tasks (round4 (ratio successes tasks))
        (round4 low, round4 high) (round4 (ratio (count_outcome "partial" rows) tasks))
        (round4 (ratio (count_outcome "fail" rows) tasks)) (round4 (sum_q (map sm_confidence rows) / inject_Z tasks)%Q)
        (round4 (ratio (Z.of_nat (length (List.filter sm_verified rows))) tasks))
        (percentile latencies 50) (percentile latencies 95) (MIN_TASKS <=? tasks)).

(** *** Selection and grouping *)

Definition in_window (cutoff : string) (skill : option string) (e : event_row) : bool :=
  negb (ev_quarantined e) && str_leb cutoff (ev_created e)
  && match skill with Some s => String.eqb (ev_skill e) s | None => true end.

Definition sample_of (e : event_row) : sample := mk_sample (ev_outcome e) (ev_confidence e) (ev_verified e) (ev_latency e).

Definition key_of (e : event_row) : string * string := (ev_skill e, ev_agent e).

(** [groups.setdefault(key, []).append(row)]. *)
Fixpoint add_to_group (k : string * string) (r : sample) (groups : list ((string * string) * list sample)) :
    list ((string * string) * list sample) :=
  match groups with
  | [] => [(k, [r])]
  | (k', l) :: groups => if bool_decide (k = k') then (k', l ++ [r]) :: groups else (k', l) :: add_to_group k r groups
  end.
Definition groups_of (rows : list event_row) : list ((string * string) * list sample) :=
  foldl (λ g e, add_to_group (key_of e) (sample_of e) g) [] rows.

(** The order of [sorted(groups.items())]: the keys are distinct, so they decide. *)
Definition group_leb (a b : (string * string) * list sample) : bool :=
  if String.eqb a.1.1 b.1.1 then str_leb a.1.2 b.1.2 else str_leb a.1.1 b.1.1.

(** [build_scorecards]: the rows of the database, [None] when there is none to read. *)
Definition build_scorecards (events : option (list event_row)) (days : Z) (issuer : string) (skill : option string)
    (now : time) : result (list Scorecard) :=
  match events with
  | None => Ok []
  | Some events =>
      from ← dt_add now (- days * 86400000000);
      let rows := List.filter (in_window (sql_datetime from) skill) events in
      rmap (λ g, scorecard g.1.2 g.1.1 g.2 issuer days now) (py_sorted group_leb (groups_of rows))
  end.
End Metrics.

(** [Scorecard] as the dictionary that is signed. *)
Definition jopt_int (o : option Z) : json := match o with Some z => JInt z | None => JNull end.
Definition scorecard_json (c : Scorecard) : json :=
  JObj [("version", JStr "1.0"); ("issuer", JStr (sd_issuer c));
        ("subject", JObj [("agent_id", JStr (sd_agent c)); ("skill_id", JStr (sd_skill c))]);
        ("issued_at", JStr (sd_issued_at c));
        ("window", JObj [("from", JStr (sd_from c)); ("to", JStr (sd_issued_at c)); ("days", JInt (sd_days c))]);
        ("metrics", JObj [("tasks", JInt (sd_tasks c)); ("success_rate", JFloat (sd_success_rate c));
           ("success_rate_ci95", JArr [JFloat (sd_ci95 c).1; JFloat (sd_ci95 c).2]); ("partial_rate", JFloat (sd_partial_rate c));
           ("fail_rate", JFloat (sd_fail_rate c)); ("avg_confidence", JFloat (sd_avg_confidence c));
           ("human_verified_rate", JFloat (sd_verified_rate c)); ("latency_ms_p50", jopt_int (sd_p50 c));
           ("latency_ms_p95", jopt_int (sd_p95 c))]);
        ("sample", JObj [("min_tasks", JInt MIN_TASKS); ("sufficient", JBool (sd_sufficient c))])].

(** ** Signing *)

(** Python's [==] of JSON values: numbers compare across their types, objects without
    their order. *)
Fixpoint py_eq (a b : json) {struct a} : bool :=
  match a, b with
  | JNull, JNull => true
  | JStr s, JStr t => String.eqb s t
  | JArr l, JArr m =>
      (fix go (l m : list json) : bool :=
         match l, m with
         | [], [] => true
         | x :: l, y :: m => py_eq x y && go l m
         | _, _ => false
         end) l m
  | JObj d, JObj e =>
      (length d =? length e)%nat
      && (fix go (d : jdict) : bool :=
            match d with
            | [] => true
            | (k, v) :: d => match obj_get k e with Some w => py_eq v w | None => false end && go d
            end) d
  | a, b => match jnum a, jnum b with Ok p, Ok q => Qeq_bool p q | _, _ => false end
  end.

Section Signing.
Context {key : Type} (public_raw : key → list Z) (ed_sign : key → list Z → list Z)
  (ed_verify : list Z → list Z → list Z → bool).
Context (sha256_hex : list Z → string) (canonical_json : json → list Z) (json_loads : list Z → result json).
(** A PEM text as a key: [None] when it is none, [Some None] for a key of another kind. *)
Context (load_pem : string → option (option key)).

Definition ALG : string := "Ed25519".

Definition key_id (public : list Z) : string := of_list (take 16 (to_list (sha256_hex public))).

Definition public_key_b64 (k : key) : string := b64e (public_raw k).

(** [ScorecardSigner.from_pem]. *)
Definition from_pem (pem : string) : result key :=
  match load_pem pem with Some (Some k) => Ok k | _ => Raise ValueError end.

Definition public_key_info (k : key) : jdict :=
  [("alg", JStr ALG); ("kid", JStr (key_id (public_raw k))); ("public_key", JStr (public_key_b64 k))].

(** [ScorecardSigner.sign]. *)
Definition sign (k : key) (card : json) : json :=
  let payload := canonical_json card in
  JObj [("payload", JStr (b64e payload)); ("scorecard", card);
        ("signature", JObj [("alg", JStr ALG); ("kid", JStr (key_id (public_raw k)));
                            ("value", JStr (b64e (ed_sign k payload)))])].

(** [load_signer]: a file's text is [None] when it cannot be read. *)
Definition load_signer (environ : string → option string) (read_file : string → option string) : result (option key) :=
  let set n := let v := or_else (environ n) "" in if truthy_str v then Some v else None in
  match set "GALAXZ_SCORECARD_KEY_PATH" with
  | Some path => pem ← of_option ValueError (read_file path); k ← from_pem pem; Ok (Some k)
  | None => match set "GALAXZ_SCORECARD_KEY" with
            | Some pem => k ← from_pem pem; Ok (Some k)
            | None => Ok None
            end
  end.

Definition text_at (k : string) (d : jdict) : result string :=
  match obj_get k d with Some (JStr s) => Ok s | _ => Raise ValueError end.
Definition dict_at (k : string) (d : jdict) : result jdict :=
  match obj_get k d with Some (JObj s) => Ok s | _ => Raise ValueError end.

(** [verify_envelope]. *)
Definition verify_envelope (envelope : json) (public_key : string) : result json :=
  e ← of_option ValueError (as_dict envelope);
  payload_b64 ← text_at "payload" e;
  signature ← dict_at "signature" e;
  rguard (is_str (obj_field "alg" signature) ALG) ValueError;;
  value ← text_at "value" signature;
  public ← b64d public_key;
  rguard (length public =? 32)%nat ValueError;;
  rguard (match obj_field "kid" signature with JNull => true | v => is_str v (key_id public) end) ValueError;;
  payload ← b64d payload_b64;
  sig ← b64d value;
  rguard (ed_verify public sig payload) ValueError;;
  card ← json_loads payload;
  rguard (match obj_get "scorecard" e with Some c => py_eq c card | None => true end) ValueError;;
  Ok card.

(** *** The endpoints *)

(** [_scorecard_signer]: once a key is loaded it is kept. *)
Definition scorecard_signer (environ : string → option string) (read_file : string → option string) :
    M (option key) (option key) := λ cache,
  match cache with
  | Some k => (Ok (Some k), cache)
  | None => match load_signer environ read_file with
            | Ok k => (Ok k, k)
            | Raise _ => (Ok None, None)
            end
  end.

Definition require_scorecard_signer environ read_file : M (option key) key :=
  k ← scorecard_signer environ read_file;
  mlift (of_option (HTTPException 503) k).

(** [list_scorecards] and [get_skill_scorecards]; the days were checked to be 1 to 365. *)
Definition signed_scorecards (sqrt : Q → Q) environ read_file (events : option (list event_row)) (days : Z)
    (skill : option string) (now : time) : M (option key) (list json) :=
  k ← require_scorecard_signer environ read_file;
  cards ← mlift (build_scorecards sqrt events days (or_else (environ "GALAXZ_SCORECARD_ISSUER") "galaxz") skill now);
  mret (map (λ c, sign k (scorecard_json c)) cards).

Definition get_skill_scorecards (sqrt : Q → Q) environ read_file events days skill now : M (option key) (list json) :=
  cards ← signed_scorecards sqrt environ read_file events days (Some skill) now;
  mguard (match cards with [] => false | _ => true end) (HTTPException 404);;
  mret cards.
End Signing.

(** ** Theorems

    What a scorecard promises: it counts exactly the events of its window, its rates are
    shares and its interval lies around them; and only what the key signed verifies. *)

(** ** Groups *)

(** The samples of the rows with a key. *)
Definition samples_at (k : string * string) (rows : list event_row) : list sample :=
  map sample_of (List.filter (λ e, bool_decide (key_of e = k)) rows).

Definition group_at (k : string * string) (g : list ((string * string) * list sample)) : list sample :=
  match find (λ x, bool_decide (x.1 = k)) g with Some x => x.2 | None => [] end.

Lemma add_to_group_at k r g k' :
  group_at k' (add_to_group k r g) = if bool_decide (k = k') then group_at k' g ++ [r] else group_at k' g.
Proof.
  unfold group_at. induction g as [|[k1 l] g IH]; simpl.
  - by destruct (bool_decide (k = k')).
  - destruct (bool_decide_reflect (k = k1)) as [->|Hne]; simpl.
    + by case_bool_decide.
    + destruct (bool_decide (k1 = k')) eqn:E; simpl; [|exact IH].
      apply bool_decide_eq_true in E as <-. by rewrite bool_decide_false.
Qed.

Lemma add_to_group_keys k r g : map fst (add_to_group k r g) = if bool_decide (k ∈ map fst g) then map fst g else map fst g ++ [k].
Proof.
  induction g as [|[k1 l] g IH]; simpl; [done|]. destruct (bool_decide_reflect (k = k1)) as [->|Hne]; simpl.
  - rewrite bool_decide_true; [done|apply list_elem_of_here].
  - rewrite IH. repeat case_bool_decide; try done; exfalso; set_solver.
Qed.

Lemma groups_spec rows : let g := groups_of rows in
  NoDup (map fst g) ∧ (∀ k, group_at k g = samples_at k rows) ∧ (∀ k, k ∈ map fst g ↔ ∃ e, e ∈ rows ∧ key_of e = k).
Proof.
  unfold groups_of. cbv zeta.
  induction rows as [|e rows IH] using rev_ind; [simpl; split_and!; [constructor|done|set_solver]|].
  rewrite foldl_app. simpl foldl. destruct IH as (Hn & Hg & Hk). split_and!.
  - rewrite add_to_group_keys. case_bool_decide as Hin; [done|]. apply NoDup_app. split_and!; [done| |apply NoDup_singleton].
    by intros x Hx ->%list_elem_of_singleton.
  - intros k. rewrite add_to_group_at, Hg. unfold samples_at. rewrite List.filter_app, map_app. simpl.
    by destruct (bool_decide (key_of e = k)); simpl; rewrite ?app_nil_r.
  - intros k. rewrite add_to_group_keys. transitivity (k ∈ map fst (foldl (λ g e, add_to_group (key_of e) (sample_of e) g) [] rows) ∨ key_of e = k).
    + case_bool_decide; set_solver.
    + rewrite Hk. split; [intros [(x & Hx & <-)|<-]; [exists x|exists e]; set_solver|]. intros (x & Hx & <-). set_solver.
Qed.

Lemma group_at_in k l g : NoDup (map fst g) → (k, l) ∈ g → group_at k g = l.
Proof.
  unfold group_at. induction g as [|[k1 l1] g IH]; [by intros _ H%elem_of_nil|]. simpl. intros [Hn1 Hn2]%NoDup_cons.
  intros [[= -> ->]|Hin]%elem_of_cons; [by rewrite bool_decide_true|].
  rewrite bool_decide_false; [by apply IH|]. intros ->. destruct Hn1. by apply (list_elem_of_fmap_2 fst) in Hin.
Qed.

(** ** Numbers *)

Lemma ratio_bounds a b : 0 <= a <= b → 0 < b → (0 <= ratio a b <= 1)%Q.
Proof.
  intros [H1 H2] Hb. unfold ratio. assert (Hq : (0 < inject_Z b)%Q) by (change 0%Q with (inject_Z 0); by rewrite <-Zlt_Qlt).
  split; [apply Qle_shift_div_l|apply Qle_shift_div_r]; try done.
  - rewrite Qmult_0_l. change 0%Q with (inject_Z 0). by rewrite <-Zle_Qle.
  - rewrite Qmult_1_l. by rewrite <-Zle_Qle.
Qed.

Lemma round4_le p q : (p <= q)%Q → (round4 p <= round4 q)%Q.
Proof.
  intros H. unfold round4, Qle. simpl. apply Zmult_le_compat_r; [|lia]. unfold Qle in H. apply round_div_mono; lia.
Qed.

Lemma round4_bounds q : (0 <= q <= 1)%Q → (0 <= round4 q <= 1)%Q.
Proof.
  intros [H0 H1]. apply round4_le in H0, H1. split.
  - eapply Qle_trans; [|exact H0]. discriminate.
  - eapply Qle_trans; [exact H1|]. discriminate.
Qed.

Lemma qmax_spec a b : (a <= qmax a b)%Q ∧ (b <= qmax a b)%Q ∧ (∀ c, (a <= c)%Q → (b <= c)%Q → (qmax a b <= c)%Q).
Proof.
  unfold qmax. destruct (Qle_bool a b) eqn:E; [apply Qle_bool_iff in E|].
  - split_and!; [done|apply Qle_refl|done].
  - assert (H : (b <= a)%Q) by (apply Qlt_le_weak, Qnot_le_lt; intros Hle; apply Qle_bool_iff in Hle; congruence).
    split_and!; [apply Qle_refl|done|done].
Qed.
Lemma qmin_spec a b : (qmin a b <= a)%Q ∧ (qmin a b <= b)%Q ∧ (∀ c, (c <= a)%Q → (c <= b)%Q → (c <= qmin a b)%Q).
Proof.
  unfold qmin. destruct (Qle_bool b a) eqn:E; [apply Qle_bool_iff in E|].
  - split_and!; [done|apply Qle_refl|done].
  - assert (H : (a <= b)%Q) by (apply Qlt_le_weak, Qnot_le_lt; intros Hle; apply Qle_bool_iff in Hle; congruence).
    split_and!; [apply Qle_refl|done|done].
Qed.

(** The interval is one: its ends are ordered and between zero and one. *)
Lemma wilson_bounds sqrt k n : (∀ x, (0 <= sqrt x)%Q) → 0 <= k <= n →
  let '(low, high) := wilson_interval sqrt k n Z95 in (0 <= low)%Q ∧ (low <= high)%Q ∧ (high <= 1)%Q.
Proof.
  intros Hsq [Hk Hn]. unfold wilson_interval. destruct (Z.eqb_spec n 0) as [->|Hz]; [split_and!; discriminate|].
  cbv zeta. set (p := ratio k n). set (nq := inject_Z n).
  assert (Hp : (0 <= p <= 1)%Q) by (apply ratio_bounds; lia).
  assert (Hnq : (0 < nq)%Q) by (unfold nq; change 0%Q with (inject_Z 0); rewrite <-Zlt_Qlt; lia).
  set (m := (Z95 * sqrt _)%Q). assert (Hm : (0 <= m)%Q) by (apply Qmult_le_0_compat; [discriminate|apply Hsq]).
  set (t := (Z95 * Z95 / nq)%Q).
  assert (Ht : (0 <= t)%Q) by (apply Qle_shift_div_l; [done|]; rewrite Qmult_0_l; discriminate).
  assert (Hhalf : (Z95 * Z95 / (2 * nq) == t * (1 # 2))%Q).
  { unfold t. field. intros H. rewrite H in Hnq. by apply Qlt_irrefl in Hnq. }
  set (c := (p + Z95 * Z95 / (2 * nq))%Q). assert (Hc : (c == p + t * (1 # 2))%Q) by (unfold c; by rewrite Hhalf).
  assert (Hd : (0 < 1 + t)%Q) by lra.
  assert (Hcd : (0 <= c / (1 + t) <= 1)%Q).
  { split; [apply Qle_shift_div_l|apply Qle_shift_div_r]; try done; rewrite Hc; lra. }
  assert (Hlo : ((c - m) / (1 + t) <= c / (1 + t))%Q) by (apply Qmult_le_compat_r; [lra|apply Qlt_le_weak, Qinv_lt_0_compat, Hd]).
  assert (Hhi : (c / (1 + t) <= (c + m) / (1 + t))%Q) by (apply Qmult_le_compat_r; [lra|apply Qlt_le_weak, Qinv_lt_0_compat, Hd]).
  pose proof (qmax_spec 0 ((c - m) / (1 + t))) as (A1 & A2 & A3).
  pose proof (qmin_spec 1 ((c + m) / (1 + t))) as (B1 & B2 & B3).
  split_and!; [done| |done]. apply A3; apply B3; lra.
Qed.

(** ** Scorecards *)

Section Cards.
Context (sqrt : Q → Q) (sqrt_nonneg : ∀ x, (0 <= sqrt x)%Q).

Lemma outcome_share_bounds o rows : 0 <= count_outcome o rows <= Z.of_nat (length rows).
Proof. unfold count_outcome. split; [lia|]. apply Nat2Z.inj_le. apply List.filter_length_le. Qed.

(** The median and the 95th percentile of a group are latencies of the group. *)
Definition a_latency (rows : list sample) (o : option Z) : Prop :=
  match o with Some v => Some v ∈ map sm_latency rows | None => ∀ v, Some v ∉ map sm_latency rows end.

Lemma percentile_latency rows q : 0 <= q <= 100 → a_latency rows (percentile (py_sorted Z.leb (omap sm_latency rows)) q).
Proof.
  intros Hq. set (l := py_sorted _ _). assert (Hl : ∀ v, v ∈ l ↔ Some v ∈ map sm_latency rows).
  { intros v. unfold l. rewrite elem_of_py_sorted, list_elem_of_omap. rewrite list_elem_of_fmap. naive_solver. }
  unfold percentile, a_latency. destruct l as [|a l'] eqn:El; [intros v Hv; apply Hl in Hv; by apply elem_of_nil in Hv|].
  rewrite <-El in *. assert (Hlen : (0 < length l)%nat) by (rewrite El; simpl; lia).
  assert (Hr : 1 <= rank_of q (length l) <= Z.of_nat (length l)).
  { unfold rank_of. assert (Hc : - (- (q * Z.of_nat (length l)) / 100) <= Z.of_nat (length l)); [|lia].
    assert (- Z.of_nat (length l) <= - (q * Z.of_nat (length l)) / 100); [|lia]. apply Z.div_le_lower_bound; nia. }
  destruct (nth_error l _) as [v|] eqn:En; [by apply nth_error_In, list_elem_of_In, Hl in En|].
  apply nth_error_None in En. lia.
Qed.

(** The card of a group: what it says of these samples. *)
Definition card_of (rows : list sample) (c : Scorecard) : Prop :=
  rows ≠ [] ∧ sd_tasks c = Z.of_nat (length rows)
  ∧ sd_success_rate c = round4 (ratio (count_outcome "success" rows) (Z.of_nat (length rows)))
  ∧ (0 <= sd_success_rate c <= 1)%Q ∧ (0 <= sd_partial_rate c <= 1)%Q ∧ (0 <= sd_fail_rate c <= 1)%Q
  ∧ (0 <= (sd_ci95 c).1)%Q ∧ ((sd_ci95 c).1 <= (sd_ci95 c).2)%Q ∧ ((sd_ci95 c).2 <= 1)%Q
  ∧ a_latency rows (sd_p50 c) ∧ a_latency rows (sd_p95 c)
  ∧ (sd_sufficient c = true ↔ 20 <= Z.of_nat (length rows)).

Lemma scorecard_ok agent skill rows issuer days now c : rows ≠ [] → scorecard sqrt agent skill rows issuer days now = Ok c →
  sd_agent c = agent ∧ sd_skill c = skill ∧ card_of rows c.
Proof.
  intros Hne H. unfold scorecard in H. cbv zeta in H.
  assert (Hlen : 0 < Z.of_nat (length rows)) by (destruct rows; [done|simpl; lia]).
  pose proof (wilson_bounds sqrt (count_outcome "success" rows) (Z.of_nat (length rows)) sqrt_nonneg (outcome_share_bounds _ _)) as Hw.
  destruct (wilson_interval _ _ _ _) as [low high]. destruct Hw as (W1 & W2 & W3).
  apply rbind_ok in H as (from & _ & H). injection H as <-. split; [done|]. split; [done|].
  assert (Hrate : ∀ o, (0 <= round4 (ratio (count_outcome o rows) (Z.of_nat (length rows))) <= 1)%Q)
    by (intros o; apply round4_bounds, ratio_bounds; [apply outcome_share_bounds|done]).
  split; [done|]. cbn [sd_tasks sd_success_rate sd_partial_rate sd_fail_rate sd_ci95 sd_p50 sd_p95 sd_sufficient fst snd].
  do 2 (split; [done|]). do 3 (split; [apply Hrate|]). split; [|split; [by apply round4_le|split]].
  - apply round4_bounds. split; [done|]. by eapply Qle_trans.
  - apply round4_bounds. split; [|done]. by eapply Qle_trans.
  - split_and!; [by apply percentile_latency|by apply percentile_latency|]. by rewrite Z.leb_le.
Qed.

Lemma rmap_forall2 {A B} (f : A → result B) l l' : rmap f l = Ok l' → Forall2 (λ a b, f a = Ok b) l l'.
Proof.
  revert l'. induction l as [|a l IH]; simpl; intros l'; [intros [= <-]; constructor|].
  intros H. apply rbind_ok in H as (b & Hb & H). apply rbind_ok in H as (bs & Hbs & H). injection H as <-.
  constructor; [done|by apply IH].
Qed.

(** The cards of sorted groups: one card of each group, under its names. *)
Lemma cards_of_groups rows issuer days now (groups : list ((string * string) * list sample)) cards :
  groups ≡ₚ groups_of rows → rmap (λ g, scorecard sqrt g.1.2 g.1.1 g.2 issuer days now) groups = Ok cards →
  map (λ c, (sd_skill c, sd_agent c)) cards = map fst groups
  ∧ ∀ c, c ∈ cards → card_of (samples_at (sd_skill c, sd_agent c) rows) c.
Proof.
  intros Hp H. destruct (groups_spec rows) as (Hn & Hg & Hk).
  assert (Hrows : ∀ g, g ∈ groups → g.2 = samples_at g.1 rows ∧ g.2 ≠ []).
  { intros [k l] Hin. rewrite Hp in Hin. pose proof (group_at_in _ _ _ Hn Hin) as Hl. rewrite Hg in Hl. simpl. split; [done|].
    apply (list_elem_of_fmap_2 fst), Hk in Hin as (e & He & Hke). simpl in Hke. subst k. rewrite <-Hl. intros Hnil.
    assert (Hs : sample_of e ∈ samples_at (key_of e) rows); [|rewrite Hnil in Hs; by apply elem_of_nil in Hs].
    apply list_elem_of_fmap. exists e. split; [done|]. apply list_elem_of_In, filter_In. split; [by apply list_elem_of_In|].
    by apply bool_decide_eq_true. }
  assert (Hcards : Forall2 (λ (g : (string * string) * list sample) c,
    (sd_skill c, sd_agent c) = g.1 ∧ card_of (samples_at g.1 rows) c) groups cards).
  { apply rmap_forall2 in H. clear Hp. induction H as [|g c gs cs Hc H IH]; constructor.
    - destruct (Hrows g) as [Hr Hne]; [left|]. destruct (scorecard_ok _ _ _ _ _ _ _ Hne Hc) as (Ha & Hs & Hof).
      rewrite Hr in Hof. rewrite Ha, Hs. by destruct g as [[sk ag] l].
    - apply IH. intros g' Hg'. apply Hrows. by right. }
  clear H Hrows. revert Hcards. clear. induction 1 as [|g c gs cs [Hk Hof] H [IH1 IH2]]; [split; [done|set_solver]|].
  simpl. rewrite Hk, IH1. split; [done|]. intros c' [->|Hin]%elem_of_cons; [by rewrite Hk|by apply IH2].
Qed.

(** Scorecards count every event once. The cards of a window are one for each skill and
    agent an event of the window names, and no other; each counts exactly the events with
    its names, its rates are shares of them, its interval is ordered and between zero and
    one, its percentiles are latencies that were measured, and it is called sufficient
    from twenty events on. *)
Theorem scorecards_count_every_event events days issuer skill now cards from :
  build_scorecards sqrt (Some events) days issuer skill now = Ok cards → dt_add now (- days * 86400000000) = Ok from →
  let rows := List.filter (Scorecards.in_window (sql_datetime from) skill) events in
  NoDup (map (λ c, (sd_skill c, sd_agent c)) cards)
  ∧ (∀ e, e ∈ rows → ∃ c, c ∈ cards ∧ (sd_skill c, sd_agent c) = key_of e)
  ∧ ∀ c, c ∈ cards → card_of (samples_at (sd_skill c, sd_agent c) rows) c.
Proof.
  unfold build_scorecards. intros H Hfrom. rewrite Hfrom in H. cbn [mbind rbind] in H. cbv zeta in *.
  set (rows := List.filter _ events) in *. destruct (groups_spec rows) as (Hn & Hg & Hk).
  pose proof (py_sorted_perm group_leb (groups_of rows)) as Hp.
  destruct (cards_of_groups rows _ _ _ _ _ Hp H) as [Hkeys Hcards]. rewrite Hkeys. split_and!; [by rewrite Hp| |done].
  intros e He. assert (Hin : key_of e ∈ map fst (groups_of rows)) by (apply Hk; by exists e).
  rewrite <-Hp, <-Hkeys in Hin. apply list_elem_of_fmap in Hin as (c & -> & Hc). by exists c.
Qed.
End Cards.

(** ** Signatures *)

Section Signed.
Context {key : Type} (public_raw : key → list Z) (ed_sign : key → list Z → list Z)
  (ed_verify : list Z → list Z → list Z → bool).
Context (sha256_hex : list Z → string) (canonical_json : json → list Z) (json_loads : list Z → result json).
(** Ed25519: keys of 32 bytes, and what a key signs verifies under it. *)
Context (raw_bytes : ∀ k, Forall byte (public_raw k) ∧ length (public_raw k) = 32%nat)
  (signature_bytes : ∀ k m, Forall byte (ed_sign k m))
  (signature_verifies : ∀ k m, ed_verify (public_raw k) (ed_sign k m) m = true)
  (text_bytes : ∀ j, Forall byte (canonical_json j))
  (loads_raises : ∀ m e, json_loads m = Raise e → e = ValueError).

(** A signed scorecard verifies. Under the public key its issuer publishes, the envelope
    of a card is accepted and gives what its text reads as, a card equal to the one signed
    when the text is read back as it was written. *)
Theorem signed_scorecards_verify k card card' :
  json_loads (canonical_json card) = Ok card' → py_eq card card' = true →
  verify_envelope ed_verify sha256_hex json_loads (sign public_raw ed_sign sha256_hex canonical_json k card)
    (public_key_b64 public_raw k) = Ok card'.
Proof.
  intros Hload Heq. destruct (raw_bytes k) as [Hraw Hlen].
  unfold verify_envelope, sign, public_key_b64. cbv zeta. simpl.
  rewrite (decode_encode _ Hraw). simpl. rewrite Hlen. simpl. unfold is_str.
  rewrite String.eqb_refl. simpl. rewrite (decode_encode _ (text_bytes card)). simpl.
  rewrite (decode_encode _ (signature_bytes k _)). simpl. rewrite signature_verifies. simpl. rewrite Hload. simpl. by rewrite Heq.
Qed.

Lemma b64d_raises s e : b64d s = Raise e → e = ValueError.
Proof. unfold b64d. destruct (ascii_only _); [|congruence]. destruct (a2b _ _ _ _ _); simpl; congruence. Qed.

Lemma text_at_raises k d e : text_at k d = Raise e → e = ValueError.
Proof. unfold text_at. repeat case_match; naive_solver. Qed.
Lemma dict_at_raises k d e : dict_at k d = Raise e → e = ValueError.
Proof. unfold dict_at. repeat case_match; naive_solver. Qed.
Lemma of_option_raises {A} (o : option A) e e' : of_option e o = Raise e' → e' = e.
Proof. destruct o; simpl; naive_solver. Qed.

(** Only what a key signed verifies, where Ed25519 cannot be forged. An envelope accepted
    under an issuer's key carries a text that issuer signed, the result is what that text
    reads as, and the card shown beside it, if any, is equal to it; an envelope that is
    not accepted is a [ScorecardError] and nothing else. *)
Theorem accepted_cards_were_signed (signed : key → list Z → Prop) :
  (∀ k s m, ed_verify (public_raw k) s m = true → signed k m) → ∀ k envelope,
  match verify_envelope ed_verify sha256_hex json_loads envelope (public_key_b64 public_raw k) with
  | Ok card => ∃ payload d, envelope = JObj d ∧ signed k payload ∧ json_loads payload = Ok card
               ∧ ∀ shown, obj_get "scorecard" d = Some shown → py_eq shown card = true
  | Raise e => e = ValueError
  end.
Proof.
  intros Hunf k envelope. destruct (raw_bytes k) as [Hraw Hlen]. unfold public_key_b64.
  destruct (verify_envelope _ _ _ _ _) as [card|e] eqn:H; unfold verify_envelope in H; rewrite (decode_encode _ Hraw) in H.
  - rok. match goal with H : of_option _ (as_dict envelope) = Ok ?d |- _ => destruct envelope as [| | | | | |d']; try done; injection H as <- end.
    eexists _, _. split; [done|]. split; [by eapply Hunf|]. split; [done|]. intros shown Hs.
    match goal with H : context [obj_get "scorecard" _] |- _ => by rewrite Hs in H end.
  - rraise; try done; eauto using b64d_raises, text_at_raises, dict_at_raises, of_option_raises.
Qed.
End Signed.

(** ** Examples *)

Module ScorecardDemo.

(** An integer square root of the numerator over the denominator. *)
Definition root (q : Q) : Q := (Z.sqrt (Qnum q * Zpos (Qden q)) # Qden q)%Q.
Lemma root_nonneg q : (0 <= root q)%Q.
Proof. unfold root, Qle. simpl. pose proof (Z.sqrt_nonneg (Qnum q * Zpos (Qden q))). lia. Qed.

Definition row (id skill agent outcome created : string) (latency : option Z) : event_row :=
  mk_event_row id id skill agent "rigel" outcome (8 # 10) false None None None latency created false None.

Definition rows : list event_row :=
  [row "e1" "rigel.py" "rigel" "success" "2025-11-20 10:00:00" (Some 900);
   row "e2" "rigel.py" "rigel" "fail" "2025-11-21 10:00:00" (Some 300);
   row "e3" "qa.run" "vega" "success" "2025-11-21 11:00:00" None;
   row "e4" "rigel.py" "rigel" "success" "2020-01-01 00:00:00" (Some 1);
   row "e5" "rigel.py" "rigel" "partial" "2025-11-22 10:00:00" (Some 500)].

Definition now : time := 63900000000000000.

Abbreviation cards := (build_scorecards root (Some rows) 30 "galaxz" None now).

(** Two groups; the old event counts in none. *)
Example two_cards :
  rmap (λ c, Ok (sd_skill c, sd_tasks c, sd_p50 c, sd_p95 c, sd_success_rate c, sd_sufficient c)) (match cards with Ok l => l | _ => [] end)
  = Ok [("qa.run", 1, None, None, (10000 # 10000)%Q, false); ("rigel.py", 3, Some 500, Some 900, (3333 # 10000)%Q, false)].
Proof. vm_compute. reflexivity. Qed.

Example window_starts : dt_add now (- 30 * 86400000000) = Ok 63897408000000000. Proof. reflexivity. Qed.

Abbreviation the_cards := (match cards with Ok l => l | Raise _ => [] end).
Example cards_ok : cards = Ok the_cards. Proof. vm_compute. reflexivity. Qed.

(** Keys by number; a text's signature is the key's number before it. *)
Definition pub (k : bool) : list Z := repeat (if k then 1 else 2) 32.
Definition card : json := JObj [("version", JStr "1.0"); ("tasks", JInt 3)].
Definition text (j : json) : list Z := if py_eq j card then [123; 125] else [110].
Definition read (m : list Z) : result json := match m with [123; 125] => Ok (JObj [("tasks", JFloat 3); ("version", JStr "1.0")]) | _ => Raise ValueError end.
Definition ed (k : bool) (m : list Z) : list Z := [if k then 1 else 2].
Definition checks (p s m : list Z) : bool := bool_decide (take 1 p = s).

Lemma pub_ok k : Forall byte (pub k) ∧ length (pub k) = 32%nat.
Proof. split; [|by destruct k]. apply List.Forall_forall. intros x Hx%repeat_spec. subst x. unfold byte. destruct k; lia. Qed.
Lemma ed_ok k m : Forall byte (ed k m).
Proof. constructor; [|constructor]. unfold byte. destruct k; lia. Qed.
Lemma checks_ok k m : checks (pub k) (ed k m) m = true.
Proof. by destruct k. Qed.
Lemma text_ok j : Forall byte (text j).
Proof. unfold text. destruct (py_eq j card); repeat constructor; unfold byte; lia. Qed.
Lemma read_raises m e : read m = Raise e → e = ValueError.
Proof. unfold read. repeat case_match; congruence. Qed.
End ScorecardDemo.

Lemma scorecards_count_every_event_witness :
  NoDup (map (λ c, (sd_skill c, sd_agent c)) ScorecardDemo.the_cards).
Proof.
  exact (proj1 (scorecards_count_every_event ScorecardDemo.root ScorecardDemo.root_nonneg ScorecardDemo.rows 30 "galaxz" None
    ScorecardDemo.now _ _ ScorecardDemo.cards_ok ScorecardDemo.window_starts)).
Defined.

Lemma signed_scorecards_verify_witness :
  ∃ card', verify_envelope ScorecardDemo.checks (λ _, "0123456789abcdef0") ScorecardDemo.read
    (sign ScorecardDemo.pub ScorecardDemo.ed (λ _, "0123456789abcdef0") ScorecardDemo.text true ScorecardDemo.card)
    (public_key_b64 ScorecardDemo.pub true) = Ok card'.
Proof.
  eexists. apply (signed_scorecards_verify ScorecardDemo.pub ScorecardDemo.ed ScorecardDemo.checks _ ScorecardDemo.text ScorecardDemo.read
    ScorecardDemo.pub_ok ScorecardDemo.ed_ok ScorecardDemo.checks_ok ScorecardDemo.text_ok true ScorecardDemo.card _ eq_refl).
  vm_compute. reflexivity.
Defined.

(** The card of an honest envelope was signed by the key it is checked under. *)
Lemma accepted_cards_were_signed_witness :
  ∃ payload, ScorecardDemo.ed true payload = [1] ∧ ScorecardDemo.read payload = Ok (JObj [("tasks", JFloat 3); ("version", JStr "1.0")]).
Proof.
  destruct (accepted_cards_were_signed ScorecardDemo.pub ScorecardDemo.checks (λ _, "0123456789abcdef0") ScorecardDemo.read
    ScorecardDemo.pub_ok ScorecardDemo.read_raises (λ k m, ScorecardDemo.checks (ScorecardDemo.pub k) (ScorecardDemo.ed k m) m = true)
    (λ k s m _, ScorecardDemo.checks_ok k m) true
    (sign ScorecardDemo.pub ScorecardDemo.ed (λ _, "0123456789abcdef0") ScorecardDemo.text true ScorecardDemo.card))
    as (payload & d & _ & _ & H & _).
  exists payload. split; [reflexivity|exact H].
Defined.
