(* ===== verification/Secrets.v ===== *)
(** core/secrets/store.py and core/security/service_identity.py: secrets bound to a scope,
    redaction, and the short-lived credentials of internal services.

    Fernet and HMAC are those of the libraries, and are arguments: [encrypt] takes the
    random bytes it draws, [digest] is the HMAC under the authority's secret. The clock and
    the drawn tokens and ids are arguments too. *)

From S2P Require Import Prelude.
From S2P Require Import PyStr.
From S2P Require Import A2A.
From Stdlib Require Import Ascii.
Open Scope Z_scope.

(** ** Secrets *)

Record SecretScope := mk_scope {
  sc_organization : string;
  sc_repository : string;
  sc_task : string;
  sc_policy : string }.

#[export] Instance scope_eq_dec : EqDecision SecretScope.
Proof. solve_decision. Defined.

(** [SecretScope.as_tuple]: the four fields, none of them blank. *)
Definition as_tuple (s : SecretScope) : result SecretScope :=
  rguard (forallb (λ v, truthy_str (strip v)) [sc_organization s; sc_repository s; sc_task s; sc_policy s]) ValueError;;
  Ok s.

(** A row of [secret_references]. *)
Record secret_row (blob : Type) := mk_secret {
  se_scope : SecretScope;
  se_ciphertext : blob;
  se_created : string }.
Arguments mk_secret {blob}.
Arguments se_scope {blob}.
Arguments se_ciphertext {blob}.
Arguments se_created {blob}.

(** What [put] returns. *)
Record reference := mk_reference {
  rf_id : string;
  rf_scope : SecretScope;
  rf_created : string }.

Section Store.
Context {blob nonce : Type} (encrypt : nonce → string → blob) (decrypt : blob → result string).

(** [EnvironmentKeyProvider.key]. *)
Definition environment_key (environ : string → option string) : result string :=
  match environ "GALAXZ_SECRETS_KEY" with
  | Some v => if truthy_str v then Ok v else Raise RuntimeError
  | None => Raise RuntimeError
  end.

(** [SecretStore.put]; [secret_id] is the drawn uuid. *)
Definition put (value : string) (scope : SecretScope) (secret_id created_at : string) (n : nonce) :
    M (gmap string (secret_row blob)) reference :=
  mguard (truthy_str value) ValueError;;
  scope ← mlift (as_tuple scope);
  db ← mget;
  mguard (bool_decide (db !! secret_id = None)) IntegrityError;;
  mput (<[secret_id := mk_secret scope (encrypt n value) created_at]> db);;
  mret (mk_reference secret_id scope created_at).

(** [SecretStore.resolve]. *)
Definition resolve (secret_id : string) (scope : SecretScope) (db : gmap string (secret_row blob)) : result string :=
  match db !! secret_id with
  | None => Raise PermissionError
  | Some row =>
      wanted ← as_tuple scope;
      rguard (bool_decide (se_scope row = wanted)) PermissionError;;
      decrypt (se_ciphertext row)
  end.
End Store.

(** [redact_secrets]. *)
Definition MARKER : string := "[REDACTED]".
Definition redact_secrets (text : string) (values : list string) : string :=
  foldl (λ redacted v, if truthy_str v then py_replace redacted v MARKER else redacted) text values.

(** ** Service identities *)

Record ServiceCredential := mk_credential {
  cr_identity : string;
  cr_scopes : list string;
  cr_expires : Z }.

Record authority := mk_authority {
  credentials : gmap string ServiceCredential;
  revoked : gset string }.

Definition new_authority : authority := mk_authority ∅ ∅.

Section Identity.
Context (digest : string → string).

(** [issue]; [token] is the drawn one, [now] the clock in seconds. *)
Definition issue (identity : string) (scopes : list string) (ttl_seconds : Z) (token : string) (now : Z) : M authority string :=
  mguard (truthy_str (strip identity) && negb (bool_decide (scopes = [])) && (0 <? ttl_seconds)) ValueError;;
  mmodify (λ a, mk_authority (<[digest token := mk_credential identity scopes (now + ttl_seconds)]> (credentials a)) (revoked a));;
  mret token.

(** [verify]. *)
Definition verify (token : string) (required_scope : option string) (now : Z) (a : authority) : result ServiceCredential :=
  match credentials a !! digest token with
  | None => Raise PermissionError
  | Some c =>
      rguard (negb (bool_decide (digest token ∈ revoked a)) && negb (cr_expires c <=? now)) PermissionError;;
      rguard (match required_scope with Some s => bool_decide (s ∈ cr_scopes c) | None => true end) PermissionError;;
      Ok c
  end.

(** [revoke]. *)
Definition revoke (token : string) : M authority unit :=
  mmodify (λ a, mk_authority (credentials a) ({[digest token]} ∪ revoked a)).
End Identity.

(** ** Redaction leaves no secret *)

Definition infix (v l : list ascii) : Prop := ∃ a b, l = a ++ v ++ b.

Lemma infix_skip v c l : infix v l → infix v (c :: l).
Proof. intros (a & b & ->). by exists (c :: a), b. Qed.

Lemma infix_cons v c l : infix v (c :: l) → infix v l ∨ ∃ b, c :: l = v ++ b.
Proof.
  intros ([|x a] & b & H); simpl in H; [right; by exists b|]. injection H as -> ->. left. by exists a, b.
Qed.

(** A value without a character lies on one side of it. *)
Lemma prefix_split (l v r b : list ascii) c : c ∉ v → l ++ c :: b = v ++ r → ∃ r', l = v ++ r'.
Proof.
  revert v r. induction l as [|z l IH]; intros [|y v] r Hc H; simpl in *; [by exists []| |by (eexists)|].
  - injection H as <- _. destruct Hc. by left.
  - injection H as <- H. apply IH in H as [r' ->]; [by exists r'|]. intros Hin. apply Hc. by right.
Qed.

Lemma infix_split v a c b : c ∉ v → infix v (a ++ c :: b) → infix v a ∨ infix v b.
Proof.
  intros Hc. induction a as [|x a IH]; simpl; intros H; apply infix_cons in H as [H|[r Hr]].
  - by right.
  - destruct v as [|y v]; [left; by exists [], []|]. injection Hr as <- _. destruct Hc. by left.
  - destruct (IH H) as [H'|H']; [left; by apply infix_skip|by right].
  - left. change (x :: a ++ c :: b) with ((x :: a) ++ c :: b) in Hr. apply prefix_split in Hr as [r' ->]; [|done]. by exists [], r'.
Qed.

(** A value the marker cannot hide: no bracket in it, and no part of REDACTED. *)
Definition plain (v : list ascii) : Prop :=
  v ≠ [] ∧ ("["%char ∉ v) ∧ ("]"%char ∉ v) ∧ ¬ infix v (to_list "REDACTED").

Abbreviation marked w := (replace_from w (to_list MARKER)).

Lemma infix_marker v l : plain v → infix v (to_list MARKER ++ l) → infix v l.
Proof.
  intros (Hne & Ho & Hc & Hr). change (to_list MARKER ++ l) with ([] ++ "["%char :: (to_list "REDACTED" ++ "]"%char :: l)).
  intros [(a & b & H)|[H|H]%infix_split]%infix_split; try done. by destruct a, v.
Qed.

Lemma marked_prefix w v b : "["%char ∉ v → ∀ l k, marked w k l = v ++ b → ∃ b', drop k l = v ++ b'.
Proof.
  intros Hv l. revert v Hv. induction l as [|c l IH]; intros v Hv k H.
  { rewrite drop_nil. destruct v; [by exists []|done]. }
  destruct k as [|k]; simpl in H; [|by apply (IH v Hv k)]. destruct (bool_decide _).
  - destruct v as [|x v]; [by eexists|]. injection H as <- _. destruct Hv. by left.
  - destruct v as [|x v]; [by eexists|]. injection H as <- H.
    destruct (IH v (λ Hin, Hv ltac:(by right)) 0%nat H) as [b' Hb]. simpl in Hb |- *. rewrite drop_0 in Hb. rewrite Hb. by exists b'.
Qed.

Lemma marked_keeps w v : plain v → ∀ l k, infix v (marked w k l) → infix v l.
Proof.
  intros Hp l. induction l as [|c l IH]; intros k H; [done|]. destruct k as [|k]; simpl in H.
  - destruct (bool_decide _).
    + apply infix_marker, IH in H; [by apply infix_skip|done].
    + apply infix_cons in H as [H%IH|[b H]]; [by apply infix_skip|].
      assert (Hv : "["%char ∉ v) by apply Hp. destruct v as [|x v]; [by destruct Hp|]. injection H as <- H.
      apply marked_prefix in H as [b' Hb]; [|intros Hin; apply Hv; by right]. rewrite drop_0 in Hb. subst l. by exists [], b'.
  - by apply infix_skip, (IH k).
Qed.

Lemma marked_removes w : plain w → ∀ l k, ¬ infix w (marked w k l).
Proof.
  intros Hp l. induction l as [|c l IH]; intros k H.
  { destruct H as (a & b & H). simpl in H. destruct Hp as [Hne _]. by destruct a, w. }
  destruct k as [|k]; simpl in H; [|by apply (IH k)]. case_bool_decide as Hm.
  - apply infix_marker in H; [|done]. by apply IH in H.
  - apply infix_cons in H as [H|[b H]]; [by apply IH in H|]. apply Hm.
    assert (Hv : "["%char ∉ w) by apply Hp. destruct w as [|x v]; [done|]. injection H as <- H.
    apply marked_prefix in H as [b' Hb]; [|intros Hin; apply Hv; by right]. rewrite drop_0 in Hb. subst l.
    simpl. by rewrite take_app_length.
Qed.

Definition occurs (v s : string) : Prop := infix (to_list v) (to_list s).

(** Redaction hides every value it is given. A value without brackets that is no part of
    the word REDACTED occurs nowhere in the redacted text, whatever the text, the other
    values and their order. *)
Theorem redaction_leaves_no_secret text values v :
  v ∈ values → plain (to_list v) → ¬ occurs v (redact_secrets text values).
Proof.
  intros Hv Hp. unfold redact_secrets. apply list_elem_of_split in Hv as (vs1 & vs2 & ->).
  rewrite foldl_app. cbn [foldl]. set (t1 := foldl _ _ vs1). clearbody t1.
  assert (Hgone : ¬ occurs v (if truthy_str v then py_replace t1 v MARKER else t1)).
  { destruct v as [|c v]; [by destruct Hp|]. change (truthy_str (String c v)) with true. cbv iota.
    unfold occurs, py_replace. rewrite to_of_list. by apply marked_removes. }
  set (t2 := if truthy_str v then _ else _) in *. clearbody t2. revert t2 Hgone.
  induction vs2 as [|w vs2 IH]; intros t2 Hgone; simpl; [done|]. apply IH.
  destruct (truthy_str w); [|done]. unfold occurs, py_replace. rewrite to_of_list.
  intros H. apply Hgone. by apply marked_keeps in H.
Qed.

(** ** Secrets stay in their scope *)

Section Scoped.
Context {blob nonce : Type} (encrypt : nonce → string → blob) (decrypt : blob → result string).
Context (decrypt_encrypt : ∀ n v, decrypt (encrypt n v) = Ok v).

(** One call of [put]. *)
Record put_call := mk_put {
  pc_value : string;
  pc_scope : SecretScope;
  pc_id : string;
  pc_at : string;
  pc_nonce : nonce }.

Definition do_put (p : put_call) : M (gmap string (secret_row blob)) reference :=
  put encrypt (pc_value p) (pc_scope p) (pc_id p) (pc_at p) (pc_nonce p).
Definition puts (ps : list put_call) : gmap string (secret_row blob) := foldl (λ db p, (do_put p db).2) ∅ ps.

(** The call stored its secret when the calls before it had run. *)
Definition stored (ps : list put_call) (i : nat) (p : put_call) : Prop :=
  ps !! i = Some p ∧ is_ok (do_put p (puts (take i ps))).1.

Lemma as_tuple_ok s s' : as_tuple s = Ok s' → s' = s.
Proof. unfold as_tuple. intros H. by rok. Qed.

Lemma put_result p db x db' : do_put p db = (x, db') →
  (∃ e, x = Raise e ∧ db' = db)
  ∨ is_ok x ∧ db !! pc_id p = None ∧ as_tuple (pc_scope p) = Ok (pc_scope p)
    ∧ db' = <[pc_id p := mk_secret (pc_scope p) (encrypt (pc_nonce p) (pc_value p)) (pc_at p)]> db.
Proof.
  unfold do_put, put. destruct p as [v sc id at_ n]. simpl. munfold.
  destruct (truthy_str v); [|intros [= <- <-]; left; by eexists].
  destruct (as_tuple sc) as [sc'|e] eqn:Hs; [|intros [= <- <-]; left; by eexists].
  pose proof (as_tuple_ok _ _ Hs) as ->. simpl. case_bool_decide; intros [= <- <-]; [right|left; by eexists].
  split_and!; try done. by eexists.
Qed.

Lemma puts_snoc ps p : puts (ps ++ [p]) = (do_put p (puts ps)).2.
Proof. unfold puts. by rewrite foldl_app. Qed.

Lemma put_keeps p db id row : db !! id = Some row → (do_put p db).2 !! id = Some row.
Proof.
  intros H. destruct (do_put p db) as [x db'] eqn:E. simpl.
  apply put_result in E as [(e & _ & ->)|(_ & Hn & _ & ->)]; [done|]. rewrite lookup_insert_ne; [done|]. intros Heq. congruence.
Qed.

(** The rows of the store are those of the calls that stored. *)
Lemma puts_rows ps id row : puts ps !! id = Some row ↔
  ∃ i p, stored ps i p ∧ pc_id p = id ∧ row = mk_secret (pc_scope p) (encrypt (pc_nonce p) (pc_value p)) (pc_at p).
Proof.
  revert id row. induction ps as [|p ps IH] using rev_ind; intros id row.
  { split; [done|]. intros (i & p & [Hi _] & _). done. }
  assert (Hold : ∀ i q, (i < length ps)%nat → stored (ps ++ [p]) i q ↔ stored ps i q).
  { intros i q Hi. unfold stored. rewrite lookup_app_l by done. by rewrite take_app_le by lia. }
  assert (Hnew : ∀ q, stored (ps ++ [p]) (length ps) q ↔ q = p ∧ is_ok (do_put p (puts ps)).1).
  { intros q. unfold stored. rewrite list_lookup_middle by done. rewrite take_app_length. naive_solver. }
  rewrite puts_snoc. destruct (do_put p (puts ps)) as [x db'] eqn:E. pose proof (put_result _ _ _ _ E) as Hr. simpl in *. split.
  - intros H. destruct (puts ps !! id) as [row0|] eqn:E0.
    + pose proof (put_keeps p _ _ _ E0) as Hk. rewrite E in Hk. simpl in Hk. assert (row0 = row) as -> by congruence.
      apply IH in E0 as (i & q & Hq & Hrow). exists i, q. split; [|done]. apply Hold; [|done].
      destruct Hq as [Hq _]. by apply lookup_lt_Some in Hq.
    + destruct Hr as [(e & _ & ->)|(Hok & _ & _ & ->)]; [congruence|]. exists (length ps), p. split; [by apply Hnew|].
      destruct (decide (pc_id p = id)) as [<-|Hne]; [rewrite lookup_insert_eq in H; by injection H as <-|].
      rewrite lookup_insert_ne in H by done. congruence.
  - intros (i & q & Hq & <- & ->). destruct (decide (i < length ps)%nat) as [Hi|Hi].
    + apply Hold in Hq; [|done]. assert (Hin : puts ps !! pc_id q = Some (mk_secret (pc_scope q) (encrypt (pc_nonce q) (pc_value q)) (pc_at q)))
        by (apply IH; by exists i, q). pose proof (put_keeps p _ _ _ Hin) as Hk. by rewrite E in Hk.
    + assert (i = length ps) as -> by (destruct Hq as [Hq%lookup_lt_Some _]; rewrite length_app in Hq; simpl in Hq; lia).
      apply Hnew in Hq as [-> [a Ha]]. destruct Hr as [(e & -> & _)|(_ & _ & _ & ->)]; [done|]. by rewrite lookup_insert_eq.
Qed.

(** C39: secrets stay in their scope. After any calls of [put], [resolve] gives a value under a
    scope exactly when a call stored that value under that scope and with that reference;
    in every other case it raises, and for an unknown reference or another scope's
    the error is the same. *)
Theorem secrets_stay_in_scope ps id scope :
  (∀ v, resolve decrypt id scope (puts ps) = Ok v ↔
     ∃ i p, stored ps i p ∧ pc_id p = id ∧ pc_scope p = scope ∧ pc_value p = v)
  ∧ (∀ e, as_tuple scope = Ok scope → resolve decrypt id scope (puts ps) = Raise e → e = PermissionError).
Proof.
  unfold resolve. destruct (puts ps !! id) as [row|] eqn:E.
  - apply puts_rows in E as E'. destruct E' as (i & p & Hp & <- & ->). cbn [se_scope se_ciphertext]. split.
    + intros v. split.
      * intros H. apply rbind_ok in H as (w & Hw & H). apply as_tuple_ok in Hw as ->. rok. rewrite decrypt_encrypt in H.
        match goal with H : bool_decide _ = true |- _ => apply bool_decide_eq_true in H end.
        exists i, p. split_and!; try done. by injection H.
      * intros (j & q & Hq & Hid & <- & <-). assert (Hrow : puts ps !! pc_id p = Some (mk_secret (pc_scope q) (encrypt (pc_nonce q) (pc_value q)) (pc_at q)))
          by (apply puts_rows; by exists j, q). rewrite E in Hrow. injection Hrow as Hs Hc _.
        destruct Hp as [_ [a Ha]]. destruct (do_put p (puts (take i ps))) as [x d'] eqn:Ep. simpl in Ha. subst x.
        apply put_result in Ep as [(e & [=] & _)|(_ & _ & Ht & _)]. rewrite Hs in Ht. rewrite Ht. cbn [mbind rbind].
        rewrite bool_decide_true by done. cbn [rguard mbind rbind]. rewrite Hc. apply decrypt_encrypt.
    + intros e Ht H. rewrite Ht in H. cbn [mbind rbind] in H. rraise; try done. by rewrite decrypt_encrypt in H.
  - split; [|by intros e _ [= <-]]. intros v. split; [done|]. intros (i & p & Hp & <- & <- & <-).
    assert (Hrow : is_Some (puts ps !! pc_id p)) by (eexists; apply puts_rows; by exists i, p).
    rewrite E in Hrow. by destruct Hrow.
Qed.
End Scoped.

(** ** Credentials are what was issued *)

Section Issued.
Context (digest : string → string) (digest_inj : ∀ a b, digest a = digest b → a = b).

(** What was asked of the authority. *)
Inductive request :=
  | Issue (identity : string) (scopes : list string) (ttl : Z) (token : string) (now : Z)
  | Revoke (token : string).

Definition serve (r : request) (a : authority) : authority :=
  match r with
  | Issue identity scopes ttl token now => (issue digest identity scopes ttl token now a).2
  | Revoke token => (revoke digest token a).2
  end.
Definition served (rs : list request) : authority := foldl (λ a r, serve r a) new_authority rs.

(** What the requests say of a token: the credential it was last issued with, and whether
    it was ever revoked. *)
Definition issued_as (token : string) (r : request) : option ServiceCredential :=
  match r with
  | Issue identity scopes ttl t now =>
      if String.eqb t token && truthy_str (strip identity) && negb (bool_decide (scopes = [])) && (0 <? ttl)
      then Some (mk_credential identity scopes (now + ttl)) else None
  | Revoke _ => None
  end.
Fixpoint last_issued (token : string) (rs : list request) : option ServiceCredential :=
  match rs with
  | [] => None
  | r :: rs => match last_issued token rs with Some c => Some c | None => issued_as token r end
  end.

Lemma last_issued_snoc token rs r : last_issued token (rs ++ [r]) =
  match issued_as token r with Some c => Some c | None => last_issued token rs end.
Proof. induction rs as [|r' rs IH]; simpl; [by destruct (issued_as token r)|]. rewrite IH. by destruct (issued_as token r). Qed.

Lemma served_spec rs token :
  credentials (served rs) !! digest token = last_issued token rs
  ∧ (digest token ∈ revoked (served rs) ↔ Revoke token ∈ rs).
Proof.
  induction rs as [|r rs [IH1 IH2]] using rev_ind; [split; [done|]; split; [by intros H%elem_of_empty|by intros H%elem_of_nil]|].
  unfold served in *. rewrite foldl_app. cbn [foldl]. set (a := foldl _ _ rs) in *. clearbody a. rewrite last_issued_snoc, elem_of_app, list_elem_of_singleton.
  destruct r as [identity scopes ttl t now|t]; simpl.
  - unfold issue. munfold. destruct (truthy_str (strip identity)), (bool_decide (scopes = [])), (0 <? ttl); simpl;
      rewrite ?andb_true_r, ?andb_false_r; (split; [|rewrite IH2; naive_solver]); try done.
    destruct (String.eqb_spec t token) as [->|Hne]; [by rewrite lookup_insert_eq|].
    rewrite lookup_insert_ne; [done|]. intros H%digest_inj. congruence.
  - unfold revoke. munfold. simpl. split; [done|]. rewrite elem_of_union, elem_of_singleton, IH2. split.
    + intros [H%digest_inj|H]; [right; congruence|by left].
    + intros [H|[= ->]]; [by right|by left].
Qed.

(** A credential is honoured exactly while it stands. Whatever was issued and revoked
    before, a token is accepted with a credential exactly when that is the one it was last
    issued with, it was never revoked, its time to live has not passed, and it has the
    scope that is asked for; otherwise it is a [PermissionError]. *)
Theorem credentials_stand_while_issued rs token required now :
  match verify digest token required now (served rs) with
  | Ok c => last_issued token rs = Some c ∧ (Revoke token ∉ rs) ∧ now < cr_expires c
            ∧ (∀ s, required = Some s → s ∈ cr_scopes c)
  | Raise e => e = PermissionError
               ∧ ∀ c, last_issued token rs = Some c → Revoke token ∈ rs ∨ cr_expires c <= now
                      ∨ ∃ s, required = Some s ∧ s ∉ cr_scopes c
  end.
Proof.
  destruct (served_spec rs token) as [Hc Hr]. unfold verify. rewrite Hc.
  destruct (last_issued token rs) as [c|]; [|done].
  destruct (bool_decide_reflect (digest token ∈ revoked (served rs))) as [H|H]; simpl.
  - split; [done|]. intros c' _. left. by apply Hr.
  - destruct (Z.leb_spec (cr_expires c) now) as [Hl|Hl]; simpl; [split; [done|]; intros c' [= <-]; right; by left|].
    destruct required as [s|]; simpl; [case_bool_decide as Hs|]; simpl.
    + split_and!; [done|by rewrite <-Hr|done|]. by intros s' [= <-].
    + split; [done|]. intros c' [= <-]. right. right. by exists s.
    + split_and!; [done|by rewrite <-Hr|done|done].
Qed.
End Issued.

(** ** Examples *)

Module SecretDemo.
Definition scope : SecretScope := mk_scope "org" "repo" "task" "ci".
Definition seal (n : nat) (v : string) : nat * string := (n, v).
Definition unseal (b : nat * string) : result string := Ok b.2.
Definition calls : list (put_call (nonce := nat)) :=
  [mk_put "hunter2" scope "s1" "t0" 0%nat; mk_put "" scope "s2" "t1" 1%nat; mk_put "again" scope "s1" "t2" 2%nat].

(** The empty value and the taken reference store nothing. *)
Example first_stays : resolve unseal "s1" scope (puts seal calls) = Ok "hunter2". Proof. vm_compute. reflexivity. Qed.
Example other_scope : resolve unseal "s1" (mk_scope "org" "other" "task" "ci") (puts seal calls) = Raise PermissionError.
Proof. vm_compute. reflexivity. Qed.

Example redacted : redact_secrets "key=hunter2&pw=swordfish" ["hunter2"; "swordfish"] = "key=[REDACTED]&pw=[REDACTED]".
Proof. vm_compute. reflexivity. Qed.
(** A value that is part of the marker is never gone. *)
Example part_of_the_marker : redact_secrets "pin ACT" ["ACT"] = "pin [REDACTED]". Proof. vm_compute. reflexivity. Qed.

Definition day : list request :=
  [Issue "worker" ["jobs:claim"] 900 "tok-a" 1000; Issue "api" ["goals:read"] 60 "tok-b" 1000; Revoke "tok-a"].

Lemma hunter_plain : plain (to_list "hunter2").
Proof.
  split_and!; [done|set_solver|set_solver|]. intros (a & b & H).
  assert (Hin : "h"%char ∈ to_list "REDACTED") by (rewrite H; apply elem_of_app; right; left). simpl in Hin. set_solver.
Qed.
End SecretDemo.

Lemma secrets_stay_in_scope_witness :
  resolve SecretDemo.unseal "s1" SecretDemo.scope (puts SecretDemo.seal SecretDemo.calls) = Ok "hunter2".
Proof.
  apply (proj1 (secrets_stay_in_scope SecretDemo.seal SecretDemo.unseal (λ n v, eq_refl) SecretDemo.calls "s1" SecretDemo.scope)).
  exists 0%nat, (mk_put "hunter2" SecretDemo.scope "s1" "t0" 0%nat). split_and!; try reflexivity.
  split; [reflexivity|]. eexists. vm_compute. reflexivity.
Defined.

Lemma redaction_leaves_no_secret_witness :
  ¬ occurs "hunter2" (redact_secrets "key=hunter2" ["swordfish"; "hunter2"]).
Proof.
  apply (redaction_leaves_no_secret "key=hunter2" ["swordfish"; "hunter2"] "hunter2"); [right; left|].
  exact SecretDemo.hunter_plain.
Defined.

Lemma credentials_stand_while_issued_witness :
  verify id "tok-b" (Some "goals:read") 1059 (served id SecretDemo.day) = Ok (mk_credential "api" ["goals:read"] 1060)
  ∧ last_issued "tok-b" SecretDemo.day = Some (mk_credential "api" ["goals:read"] 1060).
Proof.
  split; [vm_compute; reflexivity|].
  exact (proj1 (credentials_stand_while_issued id (λ a b H, H) SecretDemo.day "tok-b" (Some "goals:read") 1059)).
Defined.
