(* ===== verification/GitHub.v ===== *)
(** core/github and the GitHub endpoints of services/andromeda_service.py: the App's
    installation tokens, pull requests and check runs, and the ledger of webhook
    deliveries.

    The network is a state and a function that answers one HTTP call; what was sent is
    recorded with its answer. The clock is read once for a call. PyJWT, HMAC,
    [datetime.fromisoformat], [json.loads], [int] of a text and [str] of a JSON value that
    is no string are arguments. [GitHubAppError] is a [RuntimeError]. *)

From S2P Require Import Prelude.
From S2P Require Import PyStr.
From S2P Require Import Json.
From S2P Require Import A2A.
From S2P Require Import Heuristics.
From S2P Require Import Base64.
From Stdlib Require Import Ascii.
Open Scope Z_scope.

Definition REQUESTED_PERMISSIONS : list (string * string) :=
  [("metadata", "read"); ("contents", "write"); ("checks", "write"); ("pull_requests", "write")].

(** ** HTTP *)

Record request := mk_request {
  rq_method : string;
  rq_path : string;
  rq_headers : list (string * string);
  rq_body : option json }.

Record response := mk_response {
  rs_status : Z;
  rs_json : result json }.

(** A client of httpx: its answers, and what it sent. *)
Record network (W : Type) := mk_network {
  sent : list (request * response);
  world : W }.
Arguments mk_network {W}.
Arguments sent {W}.
Arguments world {W}.

Section Http.
Context {W : Type} (http : request → W → result response * W).

Definition send (r : request) : M (network W) response := λ n,
  match http r (world n) with
  | (Ok a, w) => (Ok a, mk_network (sent n ++ [(r, a)]) w)
  | (Raise e, w) => (Raise e, mk_network (sent n) w)
  end.

(** [response.raise_for_status()]: every status outside 200 to 299. *)
Definition raise_for_status (a : response) : result unit :=
  rguard ((200 <=? rs_status a) && (rs_status a <? 300)) HTTPStatusError.
End Http.

(** ** The App *)

Section App.
Context {W : Type} (http : request → W → result response * W).
Context (py_str : json → string) (jwt_encode : jdict → string → string) (timestamp : string → result Z).

Definition str_of (v : json) : string := match v with JStr s => s | _ => py_str v end.

Record GitHubAppClient := mk_app {
  app_id : string;
  private_key : string }.

(** [__init__]: a key from the environment has its newlines written as two characters. *)
Definition app_client (app_id key : string) : result GitHubAppClient :=
  rguard (truthy_str (strip app_id) && truthy_str (strip key)) ValueError;;
  Ok (mk_app app_id (py_replace key (of_list ["\"; "n"]%char) (of_list [ascii_of_nat 10]))).

(** The cached tokens of the client, with their expiry in microseconds, and the network. *)
Record app_state := mk_app_state {
  tokens : gmap Z (json * Z);
  net : network W }.

Definition on_net {A} (m : M (network W) A) : M app_state A := λ s,
  let '(x, n) := m (net s) in (x, mk_app_state (tokens s) n).

(** [_app_jwt]: valid from a minute ago for ten minutes. *)
Definition app_jwt (c : GitHubAppClient) (now : Z) : string :=
  let now := now / 1000000 in
  jwt_encode [("iat", JInt (now - 60)); ("exp", JInt (now + 540)); ("iss", JStr (app_id c))] (private_key c).

Definition base_headers : list (string * string) :=
  [("Accept", "application/vnd.github+json"); ("X-GitHub-Api-Version", "2022-11-28")].
Definition bearer (t : string) : list (string * string) := [("Authorization", "Bearer " +:+ t)].

(** [_request]; [auth] is the App itself, a token, or nothing. *)
Inductive auth := AsApp | WithToken (t : json) | Anonymous.
Definition do_request (c : GitHubAppClient) (now : Z) (method path : string) (a : auth) : M (network W) response :=
  let headers := base_headers ++ match a with
    | AsApp => bearer (app_jwt c now)
    | WithToken t => if truthy t then bearer (str_of t) else []
    | Anonymous => []
    end in
  r ← send http (mk_request method path headers None);
  mguard (negb (bool_decide (rs_status r ∈ [401; 403]))) RuntimeError;;
  mlift (raise_for_status r);;
  mret r.

Definition token_path (installation_id : Z) : string :=
  "/app/installations/" +:+ py_int installation_id +:+ "/access_tokens".

(** [_installation_token], also [installation_token]: a cached token with more than a
    minute left, or a new one. *)
Definition fetch_token (c : GitHubAppClient) (now installation_id : Z) : M app_state json :=
  r ← on_net (do_request c now "POST" (token_path installation_id) AsApp);
  payload ← mlift (rs_json r);
  d ← mlift (of_option AttributeError (as_dict payload));
  let t := obj_field "token" d in
  let expires_at := obj_field "expires_at" d in
  mguard (truthy t && truthy expires_at) RuntimeError;;
  text ← mlift (match expires_at with JStr e => Ok (py_replace e "Z" "+00:00") | _ => Raise AttributeError end);
  expiry ← mlift (timestamp text);
  mmodify (λ s, mk_app_state (<[installation_id := (t, expiry)]> (tokens s)) (net s));;
  mret t.

Definition installation_token (c : GitHubAppClient) (now installation_id : Z) : M app_state json :=
  s ← mget;
  match tokens s !! installation_id with
  | Some (t, expiry) => if now + 60000000 <? expiry then mret t else fetch_token c now installation_id
  | None => fetch_token c now installation_id
  end.

(** [list_installations], [list_repositories]. *)
Definition list_installations (c : GitHubAppClient) (now : Z) : M app_state json :=
  r ← on_net (do_request c now "GET" "/app/installations" AsApp);
  mlift (rs_json r).

Definition list_repositories (c : GitHubAppClient) (now installation_id : Z) : M app_state json :=
  t ← installation_token c now installation_id;
  r ← on_net (do_request c now "GET" "/installation/repositories" (WithToken t));
  payload ← mlift (rs_json r);
  d ← mlift (of_option AttributeError (as_dict payload));
  mret (obj_default "repositories" (JArr []) d).
End App.

(** ** Pull requests and check runs *)

Record PullRequestEvidence := mk_evidence {
  ev_goal : string;
  ev_tasks : list string;
  ev_artifacts : list string;
  ev_validation : string;
  ev_decision : string }.

Definition backtick : string := String (ascii_of_nat 96) "".
Definition newline : string := String (ascii_of_nat 10) "".
Definition coded (s : string) : string := backtick +:+ s +:+ backtick.
Definition listed (l : list string) : string := match l with [] => "none" | _ => Json.join ", " (map coded l) end.

Definition build_pr_body (e : PullRequestEvidence) : string :=
  "## Galaxz execution evidence" +:+ newline +:+ newline +:+ "- Goal: " +:+ coded (ev_goal e) +:+ newline
  +:+ "- Tasks: " +:+ listed (ev_tasks e) +:+ newline +:+ "- Artifacts: " +:+ listed (ev_artifacts e) +:+ newline
  +:+ "- Validation: " +:+ ev_validation e +:+ newline +:+ "- Review decision: " +:+ ev_decision e +:+ newline.

Section Client.
Context {W : Type} (http : request → W → result response * W).

(** [GitHubClient.__init__]: the headers of the client. *)
Definition github_client (token : string) : result (list (string * string)) :=
  rguard (truthy_str token && negb (existsb is_space (to_list token))) ValueError;;
  Ok [("Accept", "application/vnd.github+json"); ("Authorization", "Bearer " +:+ token); ("X-GitHub-Api-Version", "2022-11-28")].

Definition post_json (headers : list (string * string)) (path : string) (body : json) : M (network W) json :=
  r ← send http (mk_request "POST" path headers (Some body));
  mlift (raise_for_status r);;
  mlift (rs_json r).

Definition create_pull_request (headers : list (string * string)) (owner repo head base title : string) (e : PullRequestEvidence)
    (draft : bool) : M (network W) json :=
  post_json headers ("/repos/" +:+ owner +:+ "/" +:+ repo +:+ "/pulls")
    (JObj [("title", JStr title); ("head", JStr head); ("base", JStr base); ("body", JStr (build_pr_body e)); ("draft", JBool draft)]).

Definition create_check_run (headers : list (string * string)) (owner repo head_sha name : string) (passed : bool) (summary : string) :
    M (network W) json :=
  post_json headers ("/repos/" +:+ owner +:+ "/" +:+ repo +:+ "/check-runs")
    (JObj [("name", JStr name); ("head_sha", JStr head_sha); ("status", JStr "completed");
           ("conclusion", JStr (if passed then "success" else "failure"));
           ("output", JObj [("title", JStr name); ("summary", JStr (of_list (take (Z.to_nat 10000) (to_list summary))))])]).
End Client.

(** ** Webhook deliveries *)

(** A row of [github_pull_requests]. *)
Record pull_row := mk_pull {
  pu_state : string;
  pu_merged : bool;
  pu_branch_deleted : bool;
  pu_updated : string }.

Record webhook_db := mk_webhooks {
  deliveries : gmap string (string * string);
  pulls : gmap Z pull_row }.

Section Webhooks.
Context (py_str : json → string) (int_text : string → result Z).

(** [claim]: INSERT OR IGNORE, and whether a row came of it. *)
Definition claim (delivery_id action now : string) : M webhook_db bool :=
  d ← mget;
  match deliveries d !! delivery_id with
  | Some _ => mret false
  | None => mput (mk_webhooks (<[delivery_id := (action, now)]> (deliveries d)) (pulls d));; mret true
  end.

(** SQLite holds integers of 64 bits. *)
Definition sqlite_int (z : Z) : result Z := if (- 2 ^ 63 <=? z) && (z <? 2 ^ 63) then Ok z else Raise OverflowError.

(** [reconcile]; [now] and [now'] are the two readings of the clock. *)
Definition reconcile (delivery_id event : string) (payload : json) (now now' : string) : M webhook_db jdict :=
  p ← mlift (of_option AttributeError (as_dict payload));
  let action := str_of py_str (obj_default "action" (JStr event) p) in
  fresh ← claim delivery_id action now;
  if negb fresh then mret [("duplicate", JBool true); ("delivery_id", JStr delivery_id)]
  else
    let pull_request := jor (obj_field "pull_request" p) (JObj []) in
    number ← mlift (if truthy (obj_field "number" p) then Ok (obj_field "number" p)
                    else d ← of_option AttributeError (as_dict pull_request); Ok (obj_field "number" d));
    match number with
    | JNull => mret [("duplicate", JBool false); ("delivery_id", JStr delivery_id); ("ignored", JBool true)]
    | _ =>
        pr ← mlift (of_option AttributeError (as_dict pull_request));
        let merged := truthy (obj_field "merged" pr) in
        let state := if merged then "merged" else if String.eqb action "closed" then "closed" else "open" in
        let branch_deleted := truthy (obj_field "deleted" p) in
        n ← mlift (to_int int_text number);
        n ← mlift (sqlite_int n);
        mmodify (λ d, mk_webhooks (deliveries d) (<[n := mk_pull state merged branch_deleted now']> (pulls d)));;
        mret [("duplicate", JBool false); ("delivery_id", JStr delivery_id); ("number", JInt n); ("state", JStr state);
              ("merged", JBool merged); ("branch_deleted", JBool branch_deleted)]
    end.

(** ** The endpoints *)

Context (environ : string → option string).

Definition env_set (k : string) : option string :=
  match environ k with Some v => if truthy_str v then Some v else None | None => None end.

(** [_github_app]. *)
Definition github_app : result GitHubAppClient :=
  match env_set "GALAXZ_GITHUB_APP_ID", env_set "GALAXZ_GITHUB_APP_PRIVATE_KEY" with
  | Some i, Some k => app_client i k
  | _, _ => Raise (HTTPException 503)
  end.

(** The installation [_github_client] acts for: the one asked for, or that of the
    environment when the App is configured. *)
Definition chosen_installation (installation_id : option Z) : result (option Z) :=
  match installation_id, env_set "GALAXZ_GITHUB_APP_ID", env_set "GALAXZ_GITHUB_APP_PRIVATE_KEY" with
  | None, Some _, Some _ =>
      z ← int_text (or_else (environ "GALAXZ_GITHUB_INSTALLATION_ID") "0");
      Ok (if z =? 0 then None else Some z)
  | _, _, _ => Ok installation_id
  end.

(** [_github_client]: the App of a request has an empty cache. *)
Definition request_client {W} http jwt_encode timestamp (now : Z) (installation_id : option Z) : M (network W) (list (string * string)) :=
  chosen ← mlift (chosen_installation installation_id);
  match chosen with
  | Some i =>
      c ← mlift github_app;
      t ← (λ n, let '(x, s) := installation_token http py_str jwt_encode timestamp c now i (mk_app_state ∅ n) in (x, net s));
      mlift (match t with JStr token => github_client token | _ => Raise TypeError end)
  | None =>
      match env_set "GALAXZ_GITHUB_TOKEN" with
      | Some token => mlift (github_client token)
      | None => mraise (HTTPException 503)
      end
  end.

(** [github_webhook]: the signature and delivery headers, the event, the body;
    [compare_digest] refuses a text that is not ASCII. *)
Definition github_webhook (hmac_sha256_hex : string → string → string) (json_loads : string → result json)
    (signature : string) (delivery_id : option string) (event : option string) (body now now' : string) : M webhook_db jdict :=
  secret ← mlift (of_option (HTTPException 401) (env_set "GALAXZ_GITHUB_WEBHOOK_SECRET"));
  mguard (startswith signature "sha256=") (HTTPException 401);;
  mguard (ascii_only (to_list signature)) TypeError;;
  mguard (String.eqb signature ("sha256=" +:+ hmac_sha256_hex secret body)) (HTTPException 401);;
  payload ← mlift (match json_loads body with Ok v => Ok v | Raise _ => Raise (HTTPException 400) end);
  match delivery_id with
  | Some d => mguard (truthy_str d) (HTTPException 400);; reconcile d (or_else event "unknown") payload now now'
  | None => mraise (HTTPException 400)
  end.
End Webhooks.

(** ** Theorems

    What the GitHub integration promises: only a signed delivery reaches the ledger, each
    delivery counts once however often it is sent, and an installation's token is GitHub's
    own and is never used when it is about to expire. *)

(** ** Deliveries *)

Section Deliveries.
Context (py_str : json → string) (int_text : string → result Z).

Record delivery := mk_delivery {
  dl_id : string;
  dl_event : string;
  dl_payload : json;
  dl_now : string;
  dl_now' : string }.

Definition deliver (d : delivery) : M webhook_db jdict :=
  reconcile py_str int_text (dl_id d) (dl_event d) (dl_payload d) (dl_now d) (dl_now' d).
Definition delivered (ds : list delivery) (db : webhook_db) : webhook_db := foldl (λ db d, (deliver d db).2) db ds.

(** What a delivery says of itself: its action, and the row of its pull request. *)
Definition action_of (d : delivery) : option string :=
  str_of py_str ∘ obj_default "action" (JStr (dl_event d)) <$> as_dict (dl_payload d).

Definition number_of (p : jdict) : option Z :=
  let pr := jor (obj_field "pull_request" p) (JObj []) in
  let number := if truthy (obj_field "number" p) then Some (obj_field "number" p)
                else d ← as_dict pr; Some (obj_field "number" d) in
  match number with
  | None | Some JNull => None
  | Some v => match to_int int_text v with Ok n => if (- 2 ^ 63 <=? n) && (n <? 2 ^ 63) then Some n else None | Raise _ => None end
  end.

Definition pull_of (d : delivery) : option (Z * pull_row) :=
  p ← as_dict (dl_payload d);
  pr ← as_dict (jor (obj_field "pull_request" p) (JObj []));
  n ← number_of p;
  let merged := truthy (obj_field "merged" pr) in
  Some (n, mk_pull (if merged then "merged" else if String.eqb (str_of py_str (obj_default "action" (JStr (dl_event d)) p)) "closed" then "closed" else "open")
             merged (truthy (obj_field "deleted" p)) (dl_now' d)).

(** The first delivery with each id, those without a JSON object left aside. *)
Fixpoint firsts (seen : list string) (ds : list delivery) : list delivery :=
  match ds with
  | [] => []
  | d :: ds => match as_dict (dl_payload d) with
               | Some _ => if bool_decide (dl_id d ∈ seen) then firsts seen ds else d :: firsts (dl_id d :: seen) ds
               | None => firsts seen ds
               end
  end.

Definition record_delivery (db : webhook_db) (d : delivery) : webhook_db :=
  mk_webhooks (match action_of d with Some a => <[dl_id d := (a, dl_now d)]> (deliveries db) | None => deliveries db end)
    (match pull_of d with Some (n, r) => <[n := r]> (pulls db) | None => pulls db end).

(** The outcome of one delivery: what it did, and what it returned. *)
Lemma deliver_cases d db :
  (as_dict (dl_payload d) = None ∧ deliver d db = (Raise AttributeError, db))
  ∨ is_Some (as_dict (dl_payload d)) ∧ is_Some (deliveries db !! dl_id d)
    ∧ deliver d db = (Ok [("duplicate", JBool true); ("delivery_id", JStr (dl_id d))], db)
  ∨ is_Some (as_dict (dl_payload d)) ∧ deliveries db !! dl_id d = None ∧ (deliver d db).2 = record_delivery db d.
Proof.
  unfold deliver, reconcile, record_delivery, action_of, pull_of, number_of, claim.
  destruct d as [i ev p now now']. simpl. destruct (as_dict p) as [p'|] eqn:Ep; [|by left]. right.
  munfold. simpl. destruct (deliveries db !! i) as [r|] eqn:Ed; [left; split_and!; by eauto|]. right.
  split; [by eexists|]. split; [done|]. simpl.
  unfold sqlite_int. set (ti := to_int int_text). clearbody ti.
  destruct (as_dict (jor _ _)) as [pr|]; destruct (truthy (obj_field "number" p')); simpl; try done;
    destruct (obj_field "number" _); simpl; try done;
    destruct (ti _) as [n|]; simpl; try done; by destruct (_ && _).
Qed.

Definition known (db : webhook_db) (i : string) : Prop := is_Some (deliveries db !! i).

Lemma known_record db d i : is_Some (as_dict (dl_payload d)) → known (record_delivery db d) i ↔ i = dl_id d ∨ known db i.
Proof.
  intros [p Hp]. unfold known, record_delivery, action_of. rewrite Hp. simpl. rewrite lookup_insert_is_Some'. naive_solver.
Qed.

(** Redeliveries change nothing. However often GitHub sends a delivery, in whatever order
    and with whatever body, the ledger is what the first delivery with each id makes it:
    one row for each of them, and for each pull request the row of the last of them that
    is about it. A delivery whose body is no JSON object is in neither. *)
Theorem redeliveries_change_nothing ds db seen :
  (∀ i, i ∈ seen ↔ is_Some (deliveries db !! i)) →
  delivered ds db = foldl record_delivery db (firsts seen ds).
Proof.
  unfold delivered. revert db seen. induction ds as [|d ds IH]; intros db seen Hseen; [done|]. cbn [foldl firsts].
  destruct (deliver_cases d db) as [[Hn He]|[(Hs & Hk & He)|(Hs & Hk & He)]].
  - rewrite Hn, He. by apply IH.
  - destruct Hs as [p ->]. rewrite He, bool_decide_true by (by apply Hseen). by apply IH.
  - destruct Hs as [p Hp]. rewrite Hp, He, bool_decide_false by (rewrite Hseen, Hk; intros [? [=]]).
    cbn [foldl]. apply IH. intros i. rewrite elem_of_cons, Hseen. symmetry. apply known_record. by eexists.
Qed.

(** A delivery that fails is lost. Its id is taken before its body is read, so that when
    reading it raises, its redelivery is called a duplicate and applies nothing. *)
Theorem a_failed_delivery_is_lost d d' e db db' :
  deliveries db !! dl_id d = None → is_Some (as_dict (dl_payload d)) → deliver d db = (Raise e, db') →
  dl_id d' = dl_id d → is_Some (as_dict (dl_payload d')) →
  deliver d' db' = (Ok [("duplicate", JBool true); ("delivery_id", JStr (dl_id d))], db').
Proof.
  intros Hnew Hp H Hid Hp'. destruct (deliver_cases d db) as [[Hn _]|[(_ & [? Hk] & _)|(_ & _ & He)]];
    [rewrite Hn in Hp; by destruct Hp|congruence|]. rewrite H in He. simpl in He. subst db'.
  assert (Hknown : known (record_delivery db d) (dl_id d')) by (apply known_record; [done|by left]).
  destruct (deliver_cases d' (record_delivery db d)) as [[Hn _]|[(_ & _ & ->)|(_ & Hk & _)]]; [rewrite Hn in Hp'; by destruct Hp'|by rewrite Hid|].
  unfold known in Hknown. rewrite Hk in Hknown. by destruct Hknown.
Qed.

(** Only GitHub's deliveries are recorded. The endpoint leaves the ledger as it was unless
    the signature is the HMAC of the body under the configured secret and the delivery has
    an id; without the secret, or with another signature in ASCII, the answer is 401. *)
Theorem webhooks_need_the_secret environ hmac json_loads signature delivery_id event body now now' db :
  let '(x, db') := github_webhook py_str int_text environ hmac json_loads signature delivery_id event body now now' db in
  (db' ≠ db → ∃ secret i, env_set environ "GALAXZ_GITHUB_WEBHOOK_SECRET" = Some secret
     ∧ signature = "sha256=" +:+ hmac secret body ∧ delivery_id = Some i ∧ i ≠ "")
  ∧ ((∀ secret, env_set environ "GALAXZ_GITHUB_WEBHOOK_SECRET" = Some secret → signature ≠ "sha256=" +:+ hmac secret body) →
     ascii_only (to_list signature) = true → x = Raise (HTTPException 401) ∧ db' = db).
Proof.
  unfold github_webhook. destruct (env_set environ _) as [secret|]; [|by munfold]. munfold. simpl.
  destruct (startswith signature "sha256="); simpl; [|done]. destruct (ascii_only _); simpl; [|by split].
  destruct (String.eqb_spec signature ("sha256=" +:+ hmac secret body)) as [->|Hne]; simpl; [|by split].
  destruct (match json_loads body with Ok v => Ok v | Raise _ => Raise (HTTPException 400) end) as [payload|e]; simpl;
    [|split; [done|intros H; by destruct (H secret)]].
  destruct delivery_id as [i|]; simpl; [|split; [done|intros H; by destruct (H secret)]].
  destruct (String.eqb_spec i "") as [->|Hi]; simpl; [split; [done|intros H; by destruct (H secret)]|].
  unfold truthy_str. apply String.eqb_neq in Hi as Hi'. rewrite Hi'. simpl.
  destruct (reconcile _ _ _ _ _ _ _ _) as [x db']. split; [intros _; by exists secret, i|]. intros H. by destruct (H secret).
Qed.
End Deliveries.

(** ** Installation tokens *)

Section Tokens.
Context {W : Type} (http : request → W → result response * W).
Context (py_str : json → string) (jwt_encode : jdict → string → string) (timestamp : string → result Z).

(** GitHub answered a request for the installation's token with this one. *)
Definition issued (log : list (request * response)) (i : Z) (t : json) (expiry : Z) : Prop :=
  ∃ rq rs d text, (rq, rs) ∈ log ∧ rq_method rq = "POST" ∧ rq_path rq = token_path i ∧ rs_json rs = Ok (JObj d)
    ∧ obj_field "token" d = t ∧ obj_field "expires_at" d = JStr text ∧ timestamp (py_replace text "Z" "+00:00") = Ok expiry.

Definition cache_ok (s : app_state (W := W)) : Prop :=
  ∀ i t e, tokens s !! i = Some (t, e) → issued (sent (net s)) i t e.

Lemma issued_later log log' i t e : issued log i t e → issued (log ++ log') i t e.
Proof. intros (rq & rs & d & text & Hin & H). exists rq, rs, d, text. split; [by apply elem_of_app; left|done]. Qed.

(** A request that answered is the last one in the log. *)
Lemma do_request_ok c now method path a n r n' : do_request http py_str jwt_encode c now method path a n = (Ok r, n') →
  sent n' = sent n ++ [(mk_request method path (base_headers ++ match a with
    | AsApp => bearer (app_jwt jwt_encode c now) | WithToken t => if truthy t then bearer (str_of py_str t) else [] | Anonymous => [] end) None, r)].
Proof.
  unfold do_request, send. munfold. destruct (http _ _) as [[r'|e] w]; simpl; [|done].
  destruct (negb _); simpl; [|done]. destruct (raise_for_status r'); simpl; [|done]. by intros [= <- <-].
Qed.

Lemma fetch_token_ok c now i s t s' : cache_ok s → fetch_token http py_str jwt_encode timestamp c now i s = (Ok t, s') →
  cache_ok s' ∧ truthy t = true ∧ ∃ e rq rs, issued [(rq, rs)] i t e ∧ sent (net s') = sent (net s) ++ [(rq, rs)].
Proof.
  intros Hc H. unfold fetch_token in H. apply mbind_ok in H as (r & s1 & Hr & H).
  unfold on_net in Hr. destruct (do_request _ _ _ _ _ _ _ _ _) as [x n] eqn:E in Hr. injection Hr as -> <-.
  apply do_request_ok in E. unfold mlift, mguard, mmodify in H.
  apply mbind_ok in H as (v & s2 & [= Hv <-] & H). apply mbind_ok in H as (d & s3 & [= Hd <-] & H). cbv zeta in H.
  apply mbind_ok in H as ([] & s4 & [= Hg <-] & H). apply mbind_ok in H as (text & s5 & [= Ht <-] & H).
  apply mbind_ok in H as (e & s6 & [= He <-] & H). apply mbind_ok in H as ([] & s7 & [= <-] & [= <- <-]).
  destruct v as [| | | | | |d']; try done. injection Hd as <-. unfold rguard in Hg.
  destruct (truthy (obj_field "token" d')) eqn:Et; [|done].
  destruct (obj_field "expires_at" d') as [| | | |tx| |] eqn:Ee; try done. injection Ht as <-.
  assert (Hi : ∀ log, issued (log ++ [(mk_request "POST" (token_path i) (base_headers ++ bearer (app_jwt jwt_encode c now)) None, r)])
      i (obj_field "token" d') e).
  { intros log. eexists _, r, d', tx. split; [apply elem_of_app; right; by left|]. done. }
  simpl. split; [|split; [done|]].
  - intros j t e' Hj. simpl in Hj |- *. rewrite E. destruct (decide (j = i)) as [->|Hne].
    + rewrite lookup_insert_eq in Hj. injection Hj as <- <-. apply Hi.
    + rewrite lookup_insert_ne in Hj by done. apply issued_later. by apply Hc.
  - eexists e, _, _. split; [apply (Hi [])|exact E].
Qed.

(** Installation tokens are GitHub's and are never about to expire. When
    [list_repositories] answers, the request it asked with carried a token GitHub issued
    for that installation, either in answer to a request made just before or with more
    than a minute left; and what the cache holds stays so. *)
Theorem installation_tokens_are_fresh c now i s repos s' :
  cache_ok s → list_repositories http py_str jwt_encode timestamp c now i s = (Ok repos, s') →
  cache_ok s' ∧ ∃ t expiry new last, sent (net s') = sent (net s) ++ new ++ [last]
    ∧ rq_path last.1 = "/installation/repositories"
    ∧ rq_headers last.1 = base_headers ++ (if truthy t then bearer (str_of py_str t) else [])
    ∧ (new = [] ∧ issued (sent (net s)) i t expiry ∧ now + 60000000 < expiry
       ∨ truthy t = true ∧ ∃ rq, new = [rq] ∧ issued new i t expiry).
Proof.
  intros Hc H. unfold list_repositories in H. apply mbind_ok in H as (t & s1 & Ht & H).
  apply mbind_ok in H as (r & s2 & Hr & H). unfold on_net in Hr.
  destruct (do_request _ _ _ _ _ _ _ _ (net s1)) as [x n] eqn:E in Hr. injection Hr as -> <-. apply do_request_ok in E.
  unfold mlift in H. apply mbind_ok in H as (v & s3 & [= _ <-] & H). apply mbind_ok in H as (d & s4 & [= _ <-] & [= _ <-]).
  assert (Hold : ∀ e, tokens s !! i = Some (t, e) → issued (sent (net s)) i t e) by (intros e; apply Hc).
  assert (H1 : (s1 = s ∧ ∃ e, tokens s !! i = Some (t, e) ∧ now + 60000000 < e) ∨ fetch_token http py_str jwt_encode timestamp c now i s = (Ok t, s1)).
  { unfold installation_token in Ht. apply mbind_ok in Ht as (s0 & s0' & [= <- <-] & Ht).
    destruct (tokens s !! i) as [[t0 e0]|]; [|by right]. destruct (Z.ltb_spec (now + 60000000) e0); [|by right].
    injection Ht as <- <-. left. split; [done|]. by exists e0. }
  destruct H1 as [[-> (e & He & Hlt)]|Hf].
  - split; [intros j t' e' Hj; simpl in *; rewrite E; apply issued_later, Hc, Hj|].
    eexists t, e, [], _. split; [exact E|]. split; [done|]. split; [done|]. left. split_and!; try done. by apply Hold.
  - destruct (fetch_token_ok _ _ _ _ _ _ Hc Hf) as (Hc1 & Htr & e & rq & rs & Hi & Hs).
    split; [intros j t' e' Hj; simpl in *; rewrite E; apply issued_later, Hc1, Hj|].
    eexists t, e, [(rq, rs)], _. split; [simpl; rewrite E, Hs, <-app_assoc; done|]. split; [done|]. split; [done|].
    right. split; [done|]. by exists (rq, rs).
Qed.
End Tokens.

(** ** Examples *)

Module GitHubDemo.
Definition str_json (_ : json) : string := "?".
Definition int_text (_ : string) : result Z := Raise ValueError.
Definition no_db : webhook_db := mk_webhooks ∅ ∅.

Definition opened : json := JObj [("action", JStr "opened"); ("number", JInt 7); ("pull_request", JObj [("merged", JBool false)])].
Definition merged : json := JObj [("action", JStr "closed"); ("number", JInt 7); ("pull_request", JObj [("merged", JBool true)])].
Definition unreadable : json := JObj [("action", JStr "opened"); ("number", JStr "seven")].

Definition d1 := mk_delivery "a" "pull_request" opened "t1" "t1".
Definition d2 := mk_delivery "b" "pull_request" merged "t2" "t2".
Definition again := mk_delivery "a" "pull_request" opened "t3" "t3".
Definition bad := mk_delivery "c" "pull_request" unreadable "t4" "t4".
Definition resent := mk_delivery "c" "pull_request" opened "t5" "t5".

(** The late repeat of the first delivery does not open the pull request again. *)
Example merged_stays : pulls (delivered str_json int_text [d1; d2; again] no_db) !! 7 = Some (mk_pull "merged" true false "t2").
Proof. vm_compute. reflexivity. Qed.

(** GitHub's answers to the App. *)
Definition answer (r : request) (_ : unit) : result response * unit :=
  if String.eqb (rq_path r) "/app/installations/5/access_tokens"
  then (Ok (mk_response 201 (Ok (JObj [("token", JStr "ghs_1"); ("expires_at", JStr "2026-01-01T00:10:00Z")]))), tt)
  else (Ok (mk_response 200 (Ok (JObj [("repositories", JArr [JStr "galaxz"])]))), tt).
Definition at_ten (_ : string) : result Z := Ok 600000000.
Definition start : app_state (W := unit) := mk_app_state ∅ (mk_network [] tt).
Abbreviation listing := (list_repositories answer str_json (λ _ _, "jwt") at_ten (mk_app "1" "key") 0 5 start).
Example listing_ok : listing = (Ok (JArr [JStr "galaxz"]), listing.2). Proof. vm_compute. reflexivity. Qed.
Lemma cold_start_ok : cache_ok at_ten start. Proof. by intros i t e. Qed.
End GitHubDemo.

Lemma redeliveries_change_nothing_witness :
  delivered GitHubDemo.str_json GitHubDemo.int_text [GitHubDemo.d1; GitHubDemo.d2; GitHubDemo.again] GitHubDemo.no_db
  = foldl (record_delivery GitHubDemo.str_json GitHubDemo.int_text) GitHubDemo.no_db [GitHubDemo.d1; GitHubDemo.d2].
Proof.
  apply (redeliveries_change_nothing GitHubDemo.str_json GitHubDemo.int_text
    [GitHubDemo.d1; GitHubDemo.d2; GitHubDemo.again] GitHubDemo.no_db []).
  intros i. split; [intros H; inversion H|intros [x H]; discriminate H].
Defined.

Lemma a_failed_delivery_is_lost_witness :
  ∃ db', deliver GitHubDemo.str_json GitHubDemo.int_text GitHubDemo.bad GitHubDemo.no_db = (Raise ValueError, db')
  ∧ deliver GitHubDemo.str_json GitHubDemo.int_text GitHubDemo.resent db'
    = (Ok [("duplicate", JBool true); ("delivery_id", JStr "c")], db').
Proof.
  eexists. split; [vm_compute; reflexivity|].
  apply (a_failed_delivery_is_lost GitHubDemo.str_json GitHubDemo.int_text GitHubDemo.bad GitHubDemo.resent ValueError GitHubDemo.no_db);
    [reflexivity|by eexists|vm_compute; reflexivity|reflexivity|by eexists].
Defined.

Lemma webhooks_need_the_secret_witness :
  (github_webhook GitHubDemo.str_json GitHubDemo.int_text (λ _, None) (λ _ _, "00") (λ _, Raise ValueError)
    "sha256=00" (Some "a") None "{}" "t" "t" GitHubDemo.no_db).1 = Raise (HTTPException 401).
Proof.
  destruct (webhooks_need_the_secret GitHubDemo.str_json GitHubDemo.int_text (λ _, None) (λ _ _, "00") (λ _, Raise ValueError)
    "sha256=00" (Some "a") None "{}" "t" "t" GitHubDemo.no_db) as [_ H].
  apply H; [intros secret Hs; vm_compute in Hs; discriminate Hs|reflexivity].
Defined.

Lemma installation_tokens_are_fresh_witness :
  cache_ok GitHubDemo.at_ten GitHubDemo.listing.2.
Proof.
  exact (proj1 (installation_tokens_are_fresh GitHubDemo.answer GitHubDemo.str_json (λ _ _, "jwt") GitHubDemo.at_ten
    (mk_app "1" "key") 0 5 GitHubDemo.start _ _ GitHubDemo.cold_start_ok GitHubDemo.listing_ok)).
Defined.
