(* ===== verification/Catalog.v ===== *)
(** core/constellation/catalog.py: the catalog of agents that are installed by copying
    their YAML description among the configured ones.

    The catalog directory is what a reader sees of it: its folders in order of name, the
    versions of a folder that have an agent.yaml, in the order the directory lists them,
    and the texts. The agents directory is the state, a map from file names to texts.
    PyYAML and [str] of a value that is no string are arguments. Texts are bytes, so that a
    digit is an ASCII one. *)

From S2P Require Import Prelude.
From S2P Require Import PyStr.
From S2P Require Import Json.
From S2P Require Import ArtifactScan.
From Stdlib Require Import Ascii.
Open Scope Z_scope.

Definition RESERVED_AGENT_IDS : list string :=
  ["rigel"; "vega"; "andromeda"; "pulsar"; "orion"; "aether"; "quasar"; "wormhole"].

(** ** Patterns *)

(** The body a pattern ending in a dollar sees: it also matches before a final newline. *)
Definition before_newline (l : list ascii) : list ascii :=
  match rev l with
  | c :: r => if Ascii.eqb c (ascii_of_nat 10) then rev r else l
  | [] => l
  end.

Definition is_lower (c : ascii) : bool := let n := nat_of_ascii c in ((97 <=? n) && (n <=? 122))%nat.
Definition id_char (c : ascii) : bool := is_lower c || is_digit c || Ascii.eqb c "_".

(** [_ID]. *)
Definition id_matches (s : string) : bool :=
  match before_newline (to_list s) with c :: l => is_lower c && forallb id_char l | [] => false end.

(** [_VERSION], and its three parts. *)
Definition number_text (s : string) : bool := truthy_str s && forallb is_digit (to_list s).
Definition version_matches (s : string) : bool :=
  match split "." (of_list (before_newline (to_list s))) with
  | [a; b; c] => number_text a && number_text b && number_text c
  | _ => false
  end.

Definition digits_value (s : string) : Z :=
  foldl (λ n c, 10 * n + (Z.of_nat (nat_of_ascii c) - 48)) 0 (to_list s).
(** [_version_key] of a version: [int] skips a final newline. *)
Definition version_key (s : string) : list Z := map digits_value (split "." (of_list (before_newline (to_list s)))).

(** The order of tuples. *)
Fixpoint key_le (a b : list Z) : bool :=
  match a, b with
  | [], _ => true
  | _ :: _, [] => false
  | x :: a, y :: b => (x <? y) || ((x =? y) && key_le a b)
  end.
Definition version_leb (a b : string) : bool := key_le (version_key a) (version_key b).

(** ** Descriptions *)

Section Descriptions.
Context (py_str : json → string) (yaml_load : string → result json).

Definition text_of (v : json) : string := match v with JStr s => s | _ => py_str v end.

Definition visible_text (v : json) : bool := match v with JStr s => truthy_str (strip s) | _ => false end.

Definition step_ok (v : json) : bool :=
  match as_dict v with Some s => match obj_field "user" s with JStr _ => true | _ => false end | None => false end.

(** The body of the loop over the skills. *)
Definition skill_ok (agent_id : string) (v : json) : bool :=
  match as_dict v with
  | None => false
  | Some s =>
      match obj_field "skill_id" s with JStr i => startswith i (agent_id +:+ ".skill.") | _ => false end
      && visible_text (obj_field "description" s)
      && match obj_field "steps" s with JArr (x :: l) => forallb step_ok (x :: l) | _ => false end
  end.

(** [_validate]. *)
Definition validate (cfg : json) (agent_id version : string) : result jdict :=
  c ← of_option CatalogError (as_dict cfg);
  rguard (is_str (obj_field "agent_id" c) agent_id) CatalogError;;
  rguard (String.eqb (text_of (obj_field "version" c)) version) CatalogError;;
  rguard (visible_text (obj_field "agent_name" c)) CatalogError;;
  skills ← match obj_field "skills" c with JArr (x :: l) => Ok (x :: l) | _ => Raise CatalogError end;
  rguard (forallb (skill_ok agent_id) skills) CatalogError;;
  Ok c.

(** ** The catalog *)

Record catalog_dir := mk_catalog {
  folders : option (list string);
  entries : string → list string;
  agent_yaml : string → string → string }.

Context (catalog : catalog_dir).

(** [_versions]. *)
Definition versions (agent_id : string) : list string :=
  py_sorted version_leb (List.filter version_matches (entries catalog agent_id)).

(** [_load]. *)
Definition load (agent_id version : string) : result (jdict * string) :=
  let text := agent_yaml catalog agent_id version in
  cfg ← match yaml_load text with Ok v => Ok v | Raise _ => Raise CatalogError end;
  c ← validate cfg agent_id version;
  Ok (c, text).

Definition agent_file (agent_id : string) : string := agent_id +:+ ".yaml".

(** [_installed_version]. *)
Definition installed_version (agent_id : string) (agents : gmap string string) : json :=
  match agents !! agent_file agent_id with
  | None => JNull
  | Some text =>
      match yaml_load text with
      | Raise _ => JNull
      | Ok v => match as_dict (jor v (JObj [])) with
                | Some c => match obj_field "version" c with JNull => JStr "unknown" | w => JStr (text_of w) end
                | None => JStr "unknown"
                end
      end
  end.

(** The entry of a folder in [list]: [None] for one that is passed over. *)
Definition list_entry (agents : gmap string string) (agent_id : string) : result (option json) :=
  match last (versions agent_id) with
  | None => Ok None
  | Some newest =>
      if negb (id_matches agent_id) || bool_decide (agent_id ∈ RESERVED_AGENT_IDS) then Ok None
      else match load agent_id newest with
           | Raise _ => Ok None
           | Ok (cfg, _) =>
               meta ← of_option AttributeError (as_dict (jor (obj_field "catalog" cfg) (JObj [])));
               Ok (Some (JObj [("agent_id", JStr agent_id); ("agent_name", obj_field "agent_name" cfg); ("version", JStr newest);
                 ("versions", JArr (map JStr (versions agent_id))); ("description", obj_default "description" (JStr "") meta);
                 ("author", obj_default "author" (JStr "") meta); ("tags", obj_default "tags" (JArr []) meta);
                 ("skills", JArr (match obj_field "skills" cfg with
                    | JArr l => map (λ s, match as_dict s with Some d => obj_field "skill_id" d | None => JNull end) l | _ => [] end));
                 ("installed_version", installed_version agent_id agents)]))
           end
  end.

(** [Catalog.list]. *)
Definition list_catalog (agents : gmap string string) : result (list json) :=
  match folders catalog with
  | None => Ok []
  | Some l =>
      es ← (rmap (list_entry agents) (py_sorted str_leb l) : result (list (option json)));
      Ok (omap (M := list) id es)
  end.

Record installed := mk_installed {
  in_agent : string;
  in_version : string;
  in_status : string;
  in_restart : bool }.

(** The file is written beside its place and then moved there. *)
Definition write (agent_id text version : string) : M (gmap string string) installed :=
  let tmp := agent_id +:+ ".yaml.tmp" in
  mmodify (λ agents, <[tmp := text]> agents);;
  mmodify (λ agents, <[agent_file agent_id := text]> (delete tmp agents));;
  mret (mk_installed agent_id version "installed" true).

(** [Catalog.install]. *)
Definition install (agent_id : string) (version : option string) (force : bool) : M (gmap string string) installed :=
  mguard (id_matches agent_id) CatalogError;;
  mguard (negb (bool_decide (agent_id ∈ RESERVED_AGENT_IDS))) CatalogError;;
  mguard (match version with Some v => version_matches v | None => true end) CatalogError;;
  newest ← mlift (of_option CatalogNotFound (last (versions agent_id)));
  let version := or_else version newest in
  mguard (bool_decide (version ∈ versions agent_id)) CatalogNotFound;;
  cfg ← mlift (load agent_id version);
  let text := cfg.2 in
  agents ← mget;
  match agents !! agent_file agent_id with
  | Some old =>
      if String.eqb old text then mret (mk_installed agent_id version "unchanged" false)
      else mguard force CatalogConflict;; write agent_id text version
  | None => write agent_id text version
  end.
End Descriptions.

(** ** Properties *)

Lemma key_le_total a b : key_le a b = true ∨ key_le b a = true.
Proof.
  revert b. induction a as [|x a IH]; intros [|y b]; simpl; auto.
  destruct (Z.lt_trichotomy x y) as [H|[->|H]]; [left|rewrite Z.ltb_irrefl, Z.eqb_refl; apply IH|right];
    apply Z.ltb_lt in H; by rewrite H.
Qed.

Lemma key_le_trans a b c : key_le a b = true → key_le b c = true → key_le a c = true.
Proof.
  revert b c. induction a as [|x a IH]; intros [|y b] [|z c]; simpl; try done.
  rewrite !orb_true_iff, !andb_true_iff, !Z.ltb_lt, !Z.eqb_eq. intros [H1|[-> H1]] [H2|[-> H2]].
  - left. lia.
  - by left.
  - by left.
  - right. split; [done|]. by eapply IH.
Qed.

Lemma version_leb_total a b : version_leb a b = true ∨ version_leb b a = true.
Proof. apply key_le_total. Qed.
Lemma version_leb_trans a b c : version_leb a b = true → version_leb b c = true → version_leb a c = true.
Proof. apply key_le_trans. Qed.

(** The last element of a sorted list is a greatest one. *)
Lemma sorted_last {A} (R : A → A → Prop) l x : (∀ a, R a a) → StronglySorted R l → last l = Some x → ∀ y, y ∈ l → R y x.
Proof.
  intros Hr. induction 1 as [|a l Hs IH Ha]; [done|]. intros Hl y Hy. destruct l as [|b l].
  - injection Hl as <-. apply list_elem_of_singleton in Hy as ->. apply Hr.
  - change (last (b :: l) = Some x) in Hl. apply elem_of_cons in Hy as [->|Hy]; [|by apply IH].
    eapply Forall_forall; [exact Ha|]. by apply last_Some_elem_of.
Qed.

Section Installs.
Context (py_str : json → string) (yaml_load : string → result json) (catalog : catalog_dir).

Lemma newest_version agent_id v : last (versions catalog agent_id) = Some v →
  ∀ w, w ∈ versions catalog agent_id → version_leb w v = true.
Proof.
  intros Hv. apply (sorted_last (λ a b, version_leb a b = true)); [| |done].
  - intros a. by destruct (version_leb_total a a).
  - apply py_sorted_sorted; [apply version_leb_total|apply version_leb_trans].
Qed.

Lemma load_raises agent_id v e : load py_str yaml_load catalog agent_id v = Raise e → e = CatalogError.
Proof.
  unfold load, validate. intros H. rraise; try done; repeat case_match; simplify_eq/=; try done.
  by destruct (as_dict _); simplify_eq/=.
Qed.

Lemma file_names_differ agent_id : agent_file agent_id ≠ agent_id +:+ ".yaml.tmp".
Proof.
  unfold agent_file. intros H. apply (f_equal (λ s, length (to_list s))) in H.
  rewrite !to_list_app, !length_app in H. simpl in H. lia.
Qed.

(** What has to hold for version [v] with the text [text] to be put in place. *)
Definition ready (agent_id : string) (version : option string) (v text : string) : Prop :=
  id_matches agent_id = true ∧ (agent_id ∉ RESERVED_AGENT_IDS) ∧ v ∈ versions catalog agent_id
  ∧ match version with Some w => version_matches w = true ∧ v = w | None => last (versions catalog agent_id) = Some v end
  ∧ ∃ cfg, load py_str yaml_load catalog agent_id v = Ok (cfg, text).

(** The last step of [install]. *)
Definition place (agent_id v text : string) (force : bool) : M (gmap string string) installed := λ agents,
  match agents !! agent_file agent_id with
  | Some old => if String.eqb old text then (Ok (mk_installed agent_id v "unchanged" false), agents)
                else if force then write agent_id text v agents else (Raise CatalogConflict, agents)
  | None => write agent_id text v agents
  end.

Lemma install_cases agent_id version force agents :
  (∃ v text, ready agent_id version v text
     ∧ install py_str yaml_load catalog agent_id version force agents = place agent_id v text force agents)
  ∨ ∃ e, install py_str yaml_load catalog agent_id version force agents = (Raise e, agents) ∧ e ∈ [CatalogError; CatalogNotFound].
Proof.
  unfold install. munfold. simpl.
  destruct (id_matches agent_id) eqn:Hid; simpl; [|right; eexists; split; [done|left]].
  destruct (bool_decide_reflect (agent_id ∈ RESERVED_AGENT_IDS)) as [Hr|Hr]; simpl; [right; eexists; split; [done|left]|].
  destruct (match version with Some v => version_matches v | None => true end) eqn:Hm; simpl; [|right; eexists; split; [done|left]].
  destruct (last (versions catalog agent_id)) as [newest|] eqn:Hl; simpl; [|right; eexists; split; [done|right; left]].
  destruct (bool_decide_reflect (or_else version newest ∈ versions catalog agent_id)) as [Hv|Hv]; simpl;
    [|right; eexists; split; [done|right; left]].
  destruct (load _ _ _ _ _) as [[cfg text]|e] eqn:Hload; simpl;
    [|right; eexists; split; [done|]; rewrite (load_raises _ _ _ Hload); left].
  left. exists (or_else version newest), text. split.
  - split_and!; try done; [|by exists cfg]. by destruct version.
  - unfold place. destruct (agents !! agent_file agent_id) as [old|]; [|done]. destruct (String.eqb old text); [done|]. by destruct force.
Qed.

Lemma ready_again agent_id version v text : ready agent_id version v text → ready agent_id (Some v) v text.
Proof.
  intros (H1 & H2 & H3 & _ & H5). split_and!; try done. unfold versions in H3.
  apply elem_of_py_sorted, list_elem_of_In, filter_In in H3. apply H3.
Qed.

Lemma ready_text agent_id version v text text' : ready agent_id version v text → ready agent_id (Some v) v text' → text' = text.
Proof. intros (_ & _ & _ & _ & [c Hc]) (_ & _ & _ & _ & [c' Hc']). congruence. Qed.

(** A file that holds the text already is left alone. *)
Lemma install_again agent_id version v text force agents : ready agent_id version v text →
  agents !! agent_file agent_id = Some text →
  install py_str yaml_load catalog agent_id (Some v) force agents = (Ok (mk_installed agent_id v "unchanged" false), agents).
Proof.
  intros Hr Hfile. pose proof (ready_again _ _ _ _ Hr) as Hr'.
  destruct (install_cases agent_id (Some v) force agents) as [(w & text' & Hw & ->)|(e & H & _)].
  - assert (w = v) as -> by (destruct Hw as (_ & _ & _ & [_ Hw] & _); done).
    pose proof (ready_text _ _ _ _ _ Hr' Hw) as ->. unfold place. by rewrite Hfile, String.eqb_refl.
  - exfalso. destruct Hr' as (H1 & H2 & H3 & [H4 _] & [c H5]). revert H. unfold install. munfold. simpl.
    rewrite H1, bool_decide_false by done. simpl. rewrite H4. simpl.
    destruct (last (versions catalog agent_id)) as [newest|] eqn:Hl; simpl; [|apply last_None in Hl; rewrite Hl in H3; by apply elem_of_nil in H3].
    rewrite bool_decide_true by done. simpl. rewrite H5. simpl. by rewrite Hfile, String.eqb_refl.
Qed.

(** Installing is safe and repeatable. An installed agent has the name that was asked for,
    a valid one that is not reserved, in a version of the catalog: the one asked for, else
    the newest by its numbers; its file holds the validated description, no other file has
    changed but the temporary one, and a file with other content was replaced only when
    forced. A second installation finds nothing to do. What is refused leaves everything
    as it was. *)
Theorem installs_are_safe agent_id version force agents :
  let '(x, agents') := install py_str yaml_load catalog agent_id version force agents in
  match x with
  | Ok i =>
      id_matches agent_id = true ∧ (agent_id ∉ RESERVED_AGENT_IDS) ∧ in_agent i = agent_id
      ∧ in_version i ∈ versions catalog agent_id
      ∧ match version with Some v => in_version i = v
        | None => ∀ v, v ∈ versions catalog agent_id → version_leb v (in_version i) = true end
      ∧ (∃ cfg text, load py_str yaml_load catalog agent_id (in_version i) = Ok (cfg, text)
           ∧ agents' !! agent_file agent_id = Some text
           ∧ (force = false → ∀ old, agents !! agent_file agent_id = Some old → old = text))
      ∧ (∀ f, f ≠ agent_file agent_id → f ≠ agent_id +:+ ".yaml.tmp" → agents' !! f = agents !! f)
      ∧ install py_str yaml_load catalog agent_id (Some (in_version i)) force agents'
        = (Ok (mk_installed agent_id (in_version i) "unchanged" false), agents')
  | Raise e => agents' = agents ∧ e ∈ [CatalogError; CatalogConflict; CatalogNotFound]
  end.
Proof.
  destruct (install_cases agent_id version force agents) as [(v & text & Hr & ->)|(e & -> & He)].
  2: { split; [done|]. revert He. rewrite !elem_of_cons. naive_solver. }
  assert (Hplace : let '(x, agents') := place agent_id v text force agents in
    match x with
    | Ok i => in_agent i = agent_id ∧ in_version i = v ∧ agents' !! agent_file agent_id = Some text
        ∧ (force = false → ∀ old, agents !! agent_file agent_id = Some old → old = text)
        ∧ (∀ f, f ≠ agent_file agent_id → f ≠ agent_id +:+ ".yaml.tmp" → agents' !! f = agents !! f)
    | Raise e => agents' = agents ∧ e = CatalogConflict
    end).
  { unfold place, write. munfold. simpl. destruct (agents !! agent_file agent_id) as [old|] eqn:Ef.
    - destruct (String.eqb_spec old text) as [->|Hne]; [split_and!; try done; by intros _ ? [= <-]|].
      destruct force; [|done]. split_and!; try done; [by rewrite lookup_insert_eq|].
      intros f H1 H2. by rewrite lookup_insert_ne, lookup_delete_ne, lookup_insert_ne.
    - split_and!; try done; [by rewrite lookup_insert_eq|].
      intros f H1 H2. by rewrite lookup_insert_ne, lookup_delete_ne, lookup_insert_ne. }
  destruct (place agent_id v text force agents) as [[i|e] agents']; [|destruct Hplace as [-> ->]; split; [done|right; left]].
  destruct Hplace as (Ha & -> & Hfile & Hforce & Hother). pose proof Hr as (H1 & H2 & H3 & H4 & [cfg H5]).
  split_and!; try done.
  - destruct version; [apply H4|]. by apply newest_version.
  - by exists cfg, text.
  - by apply (install_again _ version _ text).
Qed.
End Installs.

(** ** Examples *)

Module CatalogDemo.
Definition describe (version : string) : json :=
  JObj [("agent_id", JStr "notes"); ("version", JStr version); ("agent_name", JStr "Notes");
        ("skills", JArr [JObj [("skill_id", JStr "notes.skill.take"); ("description", JStr "takes notes");
                               ("steps", JArr [JObj [("user", JStr "{text}")]])]])].
Definition cat : catalog_dir :=
  mk_catalog (Some ["notes"]) (λ a, if String.eqb a "notes" then ["1.10.0"; "1.9.0"; "draft"] else []) (λ _ v, v).
Definition yaml (text : string) : result json := Ok (describe text).
Definition none : gmap string string := ∅.

(** The newest version by number, not by text. *)
Example installs_the_newest :
  (install (λ _, "?") yaml cat "notes" None false none).1 = Ok (mk_installed "notes" "1.10.0" "installed" true).
Proof. vm_compute. reflexivity. Qed.
Example keeps_what_is_there :
  (install (λ _, "?") yaml cat "notes" (Some "1.9.0") false {["notes.yaml" := "1.10.0"]}).1 = Raise CatalogConflict.
Proof. vm_compute. reflexivity. Qed.
Example reserved_name : (install (λ _, "?") yaml cat "rigel" None true none).1 = Raise CatalogError.
Proof. vm_compute. reflexivity. Qed.
Example listed : rmap (λ e, Ok (match e with JObj d => obj_field "version" d | _ => JNull end))
  (match list_catalog (λ _, "?") yaml cat none with Ok l => l | Raise _ => [] end) = Ok [JStr "1.10.0"].
Proof. vm_compute. reflexivity. Qed.
End CatalogDemo.
