(* ===== verification/PostgresJobs.v ===== *)
(** core/jobs/postgres_repository.py: the job store on PostgreSQL.

    The tables are those of the SQLite store ([db] of JobRepository), with the columns of
    one read as the columns of the other, and a [with self.engine.begin()] block is a
    transaction. [locked] says which jobs other transactions hold, which FOR UPDATE SKIP
    LOCKED passes over. The operations the class lacks, [record_failure] and [fail], are an
    [AttributeError] at their callers. *)

From S2P Require Import Prelude.
From S2P Require Import JobInvariant.
From S2P Require Import JobEffects.
From S2P Require Import JobTheorems.
From S2P Require Import PyStr.
From S2P Require Import PyTime.
From S2P Require Import Json.
From S2P Require Import Contracts.
From S2P Require Import JobRepository.
Open Scope Z_scope.

(** [PostgresJobRepository.__init__]. *)
Definition postgres_url (url : string) : result string :=
  rguard (existsb (startswith url) ["postgres://"; "postgresql://"; "postgresql+"]) ValueError;;
  Ok url.

(** ** enqueue: the key is looked up and stored as it was given *)

Definition enqueue (fresh tid : uuid) (task : option TaskContract) (key : string)
    (prio : Z) (policy : option RetryPolicy) (now : time) : M db Job :=
  mguard (match task with Some t => bool_decide (t_task_id t = tid) | None => true end) ValueError;;
  let policy := or_else policy default_retry_policy in
  candidate ← mlift (validate_job (mk_Job fresh tid queued prio key policy now now now None None));
  transaction (
    d ← mget;
    match idem d !! key ≫= (λ jt, jobs d !! jt.1) with
    | Some r => mlift (job_from_row key r)
    | None =>
        insert_job (row_of candidate policy now);;
        insert_idem key (job_id candidate) now;;
        match task with Some t => insert_task (job_id candidate) t | None => mret tt end;;
        record_transition (job_id candidate) None queued "enqueue" now;;
        mret candidate
    end).

(** ** Reading *)

(** [list_jobs]: PostgreSQL refuses a negative LIMIT. *)
Definition list_jobs (limit : Z) (d : db) : result (list Job) :=
  rguard (0 <=? limit) DataError;;
  rmap (λ kr, job_from_row kr.1 kr.2) (take (Z.to_nat limit) (py_sorted newest_leb (joined_rows d))).

(** ** claim *)

Definition claim_candidate (locked : uuid → bool) (now : time) (d : db) : option (string * job_row) :=
  head (py_sorted (λ a b, claim_leb a.2 b.2)
    (filter (λ kr, claimable now kr.2 && negb (locked (jr_id kr.2)) = true) (joined_rows d))).

(** The statements of the block; the row is returned as it was read, with a new status. *)
Definition claim_tx (locked : uuid → bool) (fresh_attempt fresh_token : uuid) (worker : string) (lease_seconds : Q) (now : time) :
    M db (option (string * job_row * ExecutionAttempt)) :=
  d ← mget;
  match claim_candidate locked now d with
  | None => mret None
  | Some (key, r) =>
      expiry ← mlift (dt_add now (td_us lease_seconds));
      att ← mlift (validate_attempt (mk_Attempt fresh_attempt (jr_id r) (jr_attempt_count r + 1) worker
        (task_ref (jr_task r)) fresh_token expiry now None None None None None None));
      mlift (validate_job_transition queued running);;
      mmodify (set_jobs (alter (row_claim (attempt_id att) now) (jr_id r)));;
      insert_attempt att;;
      record_transition (jr_id r) (Some queued) running "claim" now;;
      mret (Some (key, row_claim (attempt_id att) (jr_updated r) r, att))
  end.

Definition claim (locked : uuid → bool) (fresh_attempt fresh_token : uuid) (worker : string) (lease_seconds : Q) (now : time) :
    M db (option (Job * ExecutionAttempt)) :=
  claimed ← transaction (claim_tx locked fresh_attempt fresh_token worker lease_seconds now);
  match claimed with
  | None => mret None
  | Some (key, row, att) => job ← mlift (job_from_row key row); mret (Some (job, att))
  end.

(** ** heartbeat *)

Definition heartbeat (j token : uuid) (lease_seconds : Q) (now : time) : M db ExecutionAttempt :=
  expiry ← mlift (dt_add now (td_us lease_seconds));
  extended ← transaction (
    d ← mget;
    match active_attempt d j token with
    | None => mraise LeaseConflict
    | Some att =>
        mguard (negb (lease_expires_at att <=? now)) LeaseConflict;;
        mmodify (set_attempts (alter (attempt_extend expiry) (attempt_id att)));;
        mret (attempt_extend expiry att)
    end);
  mlift (attempt_from_row extended).

(** ** complete *)

(** SET ended_at, outcome, output_ref, whether the attempt had ended or not. *)
Definition attempt_end (now : time) (o : AttemptOutcome) (out : option string) (a : ExecutionAttempt) : ExecutionAttempt :=
  mk_Attempt (attempt_id a) (at_job_id a) (attempt_number a) (worker_id a) (input_ref a)
    (lease_token a) (lease_expires_at a) (started_at a) (Some now) (Some o) (failure_kind a) (error_code a) (error a) out.

(** INSERT ... ON CONFLICT (job_id) DO UPDATE SET result_json. *)
Definition upsert_output (j : uuid) (res : option jdict) (now : time) : M db unit :=
  match res with
  | None => mret tt
  | Some res => mmodify (set_outputs (λ o, <[j := (canon (JObj res), match o !! j with Some (_, t) => t | None => now end)]> o))
  end.

Definition complete (j token : uuid) (out : string) (res : option jdict) (now : time) : M db (option Job) :=
  transaction (
    d ← mget;
    match jobs d !! j, key_of d j with
    | Some r, Some _ =>
        mguard (bool_decide (jr_status r = running)) InvalidJobState;;
        match active_attempt d j token with
        | None => mraise LeaseConflict
        | Some att =>
            mguard (negb (lease_expires_at att <=? now)) LeaseConflict;;
            upsert_output j res now;;
            mmodify (set_attempts (alter (attempt_end now o_completed (Some out)) (attempt_id att)));;
            mmodify (set_jobs (alter (λ r, row_release completed now (jr_available r) r) j));;
            record_transition j (Some running) completed "completed" now
        end
    | _, _ => mraise InvalidJobState
    end);;
  mread (get_job j).

(** ** cancel: of a job in any state *)

Definition end_by_id (a : option uuid) (now : time) (o : AttemptOutcome) : M db unit :=
  match a with
  | None => mret tt
  | Some a => mmodify (set_attempts (alter (λ att, attempt_end now o (output_ref att) att) a))
  end.

Definition cancel (j : uuid) (now : time) : M db (option Job) :=
  transaction (
    d ← mget;
    match jobs d !! j with
    | None => mraise KeyError
    | Some r =>
        if bool_decide (jr_status r = cancelled) then mret tt
        else
          (if bool_decide (jr_status r = running) then end_by_id (jr_active r) now o_cancelled else mret tt);;
          mmodify (set_jobs (alter (row_cancel now) j));;
          record_transition j (Some (jr_status r)) cancelled "cancel" now
    end);;
  mread (get_job j).

(** ** reclaim_expired: without a delay *)

Definition reclaim_one (now : time) (r : job_row) : M db unit :=
  let target := if max_attempts (jr_policy r) <=? jr_attempt_count r then failed else queued in
  end_by_id (jr_active r) now o_lease_expired;;
  mmodify (set_jobs (alter (row_release target now now) (jr_id r)));;
  record_transition (jr_id r) (Some running) target "lease_expired" now.

Definition reclaim_expired (locked : uuid → bool) (now : time) : M db (list (option Job)) :=
  ids ← transaction (
    d ← mget;
    let rows := filter (λ r, negb (locked (jr_id r)) = true) (expired_rows now d) in
    miter (reclaim_one now) rows;;
    mret (jr_id <$> rows));
  mread (λ d, rmap (λ j, get_job j d) ids).

(** ** The calls on the store *)

Inductive pg_op :=
  | PEnqueue (fresh tid : uuid) (task : option TaskContract) (key : string) (prio : Z) (policy : option RetryPolicy)
  | PClaim (locked : uuid → bool) (fresh_attempt fresh_token : uuid) (worker : string) (lease_seconds : Q)
  | PHeartbeat (j token : uuid) (lease_seconds : Q)
  | PComplete (j token : uuid) (out : string) (res : option jdict)
  | PCancel (j : uuid)
  | PReclaim (locked : uuid → bool)
  | PAcknowledge (j : uuid).

Definition pg_step (op : pg_op) (now : time) (d : db) : db :=
  match op with
  | PEnqueue fresh tid task key prio policy => (enqueue fresh tid task key prio policy now d).2
  | PClaim locked a t w ls => (claim locked a t w ls now d).2
  | PHeartbeat j t ls => (heartbeat j t ls now d).2
  | PComplete j t out res => (complete j t out res now d).2
  | PCancel j => (cancel j now d).2
  | PReclaim locked => (reclaim_expired locked now d).2
  | PAcknowledge j => (acknowledge_completion j now d).2
  end.
Definition pg_run (l : list (pg_op * time)) (d : db) : db := foldl (λ d on, pg_step on.1 on.2 d) d l.

(** ** Theorems

    What the PostgreSQL job store keeps of the SQLite one, and what it does not: the
    invariant of the tables holds as long as no finished job is cancelled, the common
    operations agree, and nothing is ever announced. *)

(** ** Control flow *)

(** A transaction and what is made of its result: committed, or nothing has changed. *)
Lemma transaction_cases {S A B} (m : M S A) (k : A → M S B) s : (∀ a s x s', k a s = (x, s') → s' = s) →
  ((transaction m ≫= k) s).2 = s ∨ ∃ a s', m s = (Ok a, s') ∧ ((transaction m ≫= k) s).2 = s'.
Proof.
  intros Hk. unfold mbind, M_bind, transaction. destruct (m s) as [[a|e] s'] eqn:E; [right|by left].
  exists a, s'. split; [done|]. destruct (k a s') as [x s''] eqn:Ek. by apply Hk in Ek.
Qed.

Lemma attempt_end_closes now o f : closes (λ x, attempt_end now o (f x) x).
Proof. split; intros x; simpl; try done; by eexists. Qed.

Lemma end_by_id_eq a now o d : end_by_id a now o d =
  (Ok tt, set_attempts (λ m, match a with Some a => alter (λ x, attempt_end now o (output_ref x) x) a m | None => m end) d).
Proof. destruct a; [done|]. by destruct d. Qed.

Lemma set_jobs_alter f j r d : jobs d !! j = Some r → set_jobs (alter f j) d = set_jobs <[j := f r]> d.
Proof. intros H. unfold set_jobs. by rewrite (alter_as_insert _ _ _ _ H). Qed.

(** ** The invariant *)

Section Keeps.
Context (d : db) (HI : Inv d) (now : time).

Lemma candidate_row locked k r : claim_candidate locked now d = Some (k, r) →
  jobs d !! jr_id r = Some r ∧ claimable now r = true ∧ key_of d (jr_id r) = Some k.
Proof.
  unfold claim_candidate. intros Hc. destruct (py_sorted _ _) as [|x l] eqn:E; [done|]. injection Hc as ->.
  assert (Hin : (k, r) ∈ py_sorted (λ a b : string * job_row, claim_leb a.2 b.2)
    (filter (λ kr, claimable now kr.2 && negb (locked (jr_id kr.2)) = true) (joined_rows d))) by (rewrite E; by left).
  apply elem_of_py_sorted, list_elem_of_filter in Hin as [[Hcl _]%andb_true_iff Hin]. simpl in Hcl.
  apply elem_of_joined in Hin as (j & Hj & Hk). by rewrite (jo_id _ _ _ (inv_job _ HI _ _ Hj)).
Qed.

Lemma pg_claim_tx_ok locked a t w ls o d' : claim_tx locked a t w ls now d = (Ok o, d') →
  (o = None ∧ d' = d)
  ∨ ∃ k r att, o = Some (k, row_claim a (jr_updated r) r, att) ∧ jobs d !! jr_id r = Some r ∧ key_of d (jr_id r) = Some k
      ∧ attempt_id att = a ∧ at_job_id att = jr_id r ∧ d' = claim_effect r att now d ∧ Inv d'.
Proof.
  intros H. unfold claim_tx in H. minv. destruct (claim_candidate locked now d) as [[k r]|] eqn:Hc; [right|left; by minv].
  destruct (candidate_row _ _ _ Hc) as (Hr & (Hq & _ & Hmax)%claimable_iff & Hk). minv.
  match goal with H : validate_attempt _ = _ |- _ => apply validate_attempt_ok in H as (-> & _ & _) end.
  match goal with H : insert_attempt _ _ = _ |- _ => apply insert_attempt_ok in H as (Hf & _ & Hu & ->) end. simpl in *.
  rewrite (set_jobs_alter _ _ _ _ Hr). eexists k, r, _. split_and!; try done. by apply start_inv.
Qed.

Lemma claim_keeps locked a t w ls : Inv (claim locked a t w ls now d).2.
Proof.
  unfold claim. match goal with |- Inv ((transaction ?m ≫= ?k) _).2 => destruct (transaction_cases m k d) as [->|(o & d' & H & ->)] end;
    [|done|].
  { intros [[[k r] att]|] s x s'; [|by intros [= _ <-]]. intros [?|(? & ? & [= _ <-])]%mlift_cases; congruence. }
  apply pg_claim_tx_ok in H as [[_ ->]|(k & r & att & _ & _ & _ & _ & _ & _ & HI')]; done.
Qed.

Lemma heartbeat_keeps j t ls : Inv (heartbeat j t ls now d).2.
Proof.
  unfold heartbeat. destruct (dt_add now (td_us ls)) as [expiry|e]; [|done].
  match goal with |- Inv ((mlift (Ok _) ≫= ?f) _).2 => change (Inv (f expiry d).2); cbv beta end.
  match goal with |- Inv ((transaction ?m ≫= ?k) _).2 => destruct (transaction_cases m k d) as [->|(o & d' & H & ->)] end;
    [by intros a s x s' [= _ <-]|done|].
  minv. destruct (active_attempt d j t) as [att|] eqn:Ha; [|by minv]. minv.
  destruct (active_attempt_row _ _ _ _ HI Ha) as (r & Hr & _).
  pose proof (touch_inv d HI j r Hr (attempt_id att) expiry (jr_updated r)) as Ht.
  assert (E : set_jobs (alter (row_touch (jr_updated r)) j) (set_attempts (alter (attempt_extend expiry) (attempt_id att)) d)
              = set_attempts (alter (attempt_extend expiry) (attempt_id att)) d); [|by rewrite E in Ht].
  unfold set_jobs, set_attempts. simpl. f_equal. rewrite (alter_as_insert _ _ _ _ Hr).
  apply insert_id. rewrite Hr. by destruct r.
Qed.

(** The tables after a completion. *)
Definition pg_complete_effect (j : uuid) (r : job_row) (att : ExecutionAttempt) (out : string) : db :=
  settle j (jr_status r) (row_release completed now (jr_available r) r) (jr_active r)
    (λ x, attempt_end now o_completed (Some out) x) "completed" now d.

Lemma complete_keeps j t out res : Inv (complete j t out res now d).2.
Proof.
  unfold complete. match goal with |- Inv ((transaction ?m ≫= ?k) _).2 => destruct (transaction_cases m k d) as [->|(o & d' & H & ->)] end;
    [by intros a s x s' [= _ <-]|done|].
  minv. destruct (jobs d !! j) as [r|] eqn:Hr; [|by minv]. destruct (key_of d j); [|by minv]. minv. reflect.
  destruct (active_attempt d j t) as [att|] eqn:Ha; [|by minv]. minv.
  destruct (active_attempt_row _ _ _ _ HI Ha) as (r0 & Hr0 & Hs & Hact & _). assert (r0 = r) as -> by congruence.
  assert (Hset : Inv (pg_complete_effect j r att out)).
  { unfold pg_complete_effect. apply settle_inv; try done.
    eapply release_settles; [by apply HI|done|set_solver]. }
  assert (Hrow : jobs (pg_complete_effect j r att out) !! j = Some (row_release completed now (jr_available r) r))
    by (simpl; by rewrite lookup_insert_eq).
  destruct res as [res|]; unfold upsert_output in *; minv; simpl in *.
  - pose proof (output_inv _ _ _ (canon (JObj res), match outputs d !! j with Some (_, t) => t | None => now end) Hset Hrow eq_refl) as Ho.
    match goal with |- Inv ?d1 => match type of Ho with Inv ?d2 => assert (d1 = d2) as ->; [|done] end end.
    unfold pg_complete_effect, settle, add_history, set_transitions, set_jobs, set_attempts, set_outputs. simpl.
    by rewrite (alter_as_insert _ _ _ _ Hr), Hs, Hact.
  - match goal with |- Inv ?d1 => match type of Hset with Inv ?d2 => assert (d1 = d2) as ->; [|done] end end.
    unfold pg_complete_effect, settle, add_history, set_transitions, set_jobs, set_attempts. simpl.
    by rewrite (alter_as_insert _ _ _ _ Hr), Hs, Hact.
Qed.

Lemma cancel_keeps j : (∀ r, jobs d !! j = Some r → jr_status r ∉ [completed; failed]) → Inv (cancel j now d).2.
Proof.
  intros Hnot. unfold cancel. match goal with |- Inv ((transaction ?m ≫= ?k) _).2 => destruct (transaction_cases m k d) as [->|(o & d' & H & ->)] end;
    [by intros a s x s' [= _ <-]|done|].
  minv. destruct (jobs d !! j) as [r|] eqn:Hr; [|by minv]. case_bool_decide as Hc; [by minv|].
  pose proof (inv_job _ HI _ _ Hr) as Hj.
  assert (E : (if bool_decide (jr_status r = running) then end_by_id (jr_active r) now o_cancelled else mret tt)
              = end_by_id (jr_active r) now o_cancelled).
  { case_bool_decide as Hrun; [done|]. by rewrite (jo_idle _ _ _ Hj Hrun). }
  rewrite E in H. apply mbind_ok in H as (? & ? & Hend & H). rewrite end_by_id_eq in Hend. injection Hend as <- <-. minv.
  assert (Hset : Inv (settle j (jr_status r) (row_cancel now r) (jr_active r) (λ x, attempt_end now o_cancelled (output_ref x) x) "cancel" now d)).
  { apply settle_inv; try done. eapply cancel_settles; [done|].
    specialize (Hnot _ eq_refl). destruct (jr_status r); try (by left); try (by right); set_solver. }
  match goal with |- Inv ?d1 => match type of Hset with Inv ?d2 => assert (d1 = d2) as ->; [|done] end end.
  unfold settle, add_history, set_transitions, set_jobs, set_attempts. simpl. by rewrite (alter_as_insert _ _ _ _ Hr).
Qed.
End Keeps.

Lemma reclaim_one_keeps now r d u d' : Inv d → jobs d !! jr_id r = Some r → jr_status r = running →
  reclaim_one now r d = (Ok u, d') → Inv d' ∧ ∀ j, j ≠ jr_id r → jobs d' !! j = jobs d !! j.
Proof.
  intros HI Hr Hs H. unfold reclaim_one in H. apply mbind_ok in H as (? & ? & Hend & H).
  rewrite end_by_id_eq in Hend. injection Hend as <- <-. minv.
  set (tgt := if max_attempts (jr_policy r) <=? jr_attempt_count r then failed else queued) in *.
  assert (Hset : Inv (settle (jr_id r) (jr_status r) (row_release tgt now now r) (jr_active r)
    (λ x, attempt_end now o_lease_expired (output_ref x) x) "lease_expired" now d)).
  { apply settle_inv; try done. eapply release_settles; [by apply HI|done|]. unfold tgt. destruct (_ <=? _); set_solver. }
  split.
  - match goal with |- Inv ?d1 => match type of Hset with Inv ?d2 => assert (d1 = d2) as ->; [|done] end end.
    unfold settle, add_history, set_transitions, set_jobs, set_attempts. simpl. by rewrite (alter_as_insert _ _ _ _ Hr), Hs.
  - intros j Hj. simpl. by rewrite lookup_alter_ne.
Qed.

Lemma reclaim_all_keeps now rows : ∀ d u d', Inv d → NoDup (jr_id <$> rows) →
  (∀ r, r ∈ rows → jobs d !! jr_id r = Some r ∧ jr_status r = running) →
  miter (reclaim_one now) rows d = (Ok u, d') → Inv d'.
Proof.
  induction rows as [|r rows IH]; intros d u d' HI Hnd Hrows H; simpl in H; [by minv|]. apply mbind_ok in H as (? & d1 & H1 & H).
  apply NoDup_cons in Hnd as [Hnin Hnd]. destruct (Hrows r) as [Hr Hs]; [by left|].
  apply reclaim_one_keeps in H1 as [HI1 Hrest]; [|done..]. eapply IH; [exact HI1|done| |exact H].
  intros r0 Hr0. destruct (Hrows r0) as [Hj Hs0]; [by right|]. split; [|done]. rewrite Hrest; [done|].
  intros E. apply Hnin. rewrite <-E. by apply list_elem_of_fmap_2.
Qed.

Lemma reclaim_keeps now locked d : Inv d → Inv (reclaim_expired locked now d).2.
Proof.
  intros HI. unfold reclaim_expired.
  match goal with |- Inv ((transaction ?m ≫= ?k) _).2 => destruct (transaction_cases m k d) as [->|(o & d' & H & ->)] end;
    [by intros a s x s' [= _ <-]|done|].
  apply mbind_ok in H as (? & ? & [= <- <-] & H). cbv zeta in H. apply mbind_ok in H as (? & ? & H & [= _ <-]).
  eapply reclaim_all_keeps; [exact HI| | |exact H].
  - apply (sublist_NoDup _ (jr_id <$> expired_rows now d)); [by apply expired_rows_NoDup|]. apply fmap_sublist, sublist_filter.
  - intros r [_ Hin]%list_elem_of_filter. apply elem_of_expired in Hin as [Hr He]; [|done]. split; [done|].
    by eapply lease_expired_running.
Qed.

(** ** Agreement with the SQLite store *)

Lemma transaction_bind {S A B} (m : M S A) (k : A → M S B) s :
  (transaction m ≫= k) s = match m s with (Ok a, s') => k a s' | (Raise e, _) => (Raise e, s) end.
Proof. unfold mbind, M_bind, transaction. by destruct (m s) as [[a|e] s']. Qed.

Lemma mget_bind {S A} (k : S → M S A) s : (mget ≫= k) s = k s s.
Proof. done. Qed.

Lemma mbind_same {S A B} (m : M S A) (k k' : A → M S B) s :
  (∀ a s', m s = (Ok a, s') → k a s' = k' a s') → (m ≫= k) s = (m ≫= k') s.
Proof. intros H. unfold mbind, M_bind. destruct (m s) as [[a|e] s']; [by apply H|done]. Qed.

Lemma transaction_same {S A} (m m' : M S A) s : m s = m' s → transaction m s = transaction m' s.
Proof. unfold transaction. by intros ->. Qed.

Lemma enqueue_agrees fresh tid task key prio policy now d : Inv d → strip key = key →
  enqueue fresh tid task key prio policy now d = JobRepository.enqueue fresh tid task key prio policy now d.
Proof.
  intros HI Hkey. unfold enqueue, JobRepository.enqueue. cbv zeta.
  apply mbind_same. intros [] d0 [= _ <-]. apply mbind_same. intros c d0 [= Hc <-].
  apply validate_job_ok in Hc as (_ & _ & _ & _ & ->). cbn [idempotency_key]. rewrite Hkey.
  apply transaction_same, mbind_same. intros ? ? [= <- <-].
  destruct (idem d !! key) as [[j t]|] eqn:Hk; [|done]. simpl.
  by destruct (ko_job _ _ _ (inv_key _ HI _ _ _ Hk)) as [r ->].
Qed.

(** The candidates: with no row locked they are the same. *)
Lemma insert_sorted_snd {A} (leb : A → A → bool) x (l : list (string * A)) :
  snd <$> insert_sorted (λ a b, leb a.2 b.2) x l = insert_sorted leb x.2 (snd <$> l).
Proof. induction l as [|y l IH]; [done|]. simpl. destruct (leb x.2 y.2); [done|]. rewrite !fmap_cons. by f_equal. Qed.

Lemma py_sorted_snd {A} (leb : A → A → bool) (l : list (string * A)) :
  snd <$> py_sorted (λ a b, leb a.2 b.2) l = py_sorted leb (snd <$> l).
Proof. induction l as [|x l IH]; [done|]. cbn [py_sorted]. by rewrite insert_sorted_snd, IH. Qed.

Lemma candidates_agree now d : snd <$> claim_candidate (λ _, false) now d = JobRepository.claim_candidate now d.
Proof.
  unfold claim_candidate, JobRepository.claim_candidate.
  assert (E : filter (λ r, claimable now r = true) (snd <$> joined_rows d)
              = snd <$> filter (λ kr : string * job_row, claimable now kr.2 && negb false = true) (joined_rows d)).
  { induction (joined_rows d) as [|[k r] l IH]; [done|]. rewrite fmap_cons, !filter_cons, IH. simpl. rewrite andb_true_r.
    by destruct (decide (claimable now r = true)). }
  rewrite E, <-py_sorted_snd. by destruct (py_sorted _ _).
Qed.

Lemma claim_tx_agrees a t w ls now d : Inv d →
  JobRepository.claim_tx a t w ls now d =
    (let '(x, d') := claim_tx (λ _, false) a t w ls now d in
     (match x with Ok o => Ok (snd <$> o) | Raise e => Raise e end, d')).
Proof.
  intros HI. unfold claim_tx, JobRepository.claim_tx. rewrite !mget_bind, <-candidates_agree. destruct (claim_candidate _ now d) as [[k r]|] eqn:Hc; [|done]. simpl.
  destruct (candidate_row d HI now _ _ _ Hc) as (Hr & (Hq & _)%claimable_iff & _). rewrite Hr, Hq. rewrite bool_decide_true by done.
  munfold. simpl. destruct (dt_add now (td_us ls)) as [expiry|e]; [|done]. destruct (validate_attempt _) as [att|e]; [|done]. simpl.
  rewrite (set_jobs_alter _ _ _ _ Hr). by destruct (insert_attempt att _) as [[[]|e] d1].
Qed.

(** A job read at a time of another update. *)
Definition updated_job (at_ : time) (j : Job) : Job :=
  mk_Job (job_id j) (task_id j) (status j) (priority j) (idempotency_key j) (retry_policy j)
    (created_at j) at_ (available_at j) (cancellation_requested_at j) (cancelled_at j).

Lemma claim_agrees a t w ls now d : Inv d → Qle_bool ls 0 = false →
  match claim (λ _, false) a t w ls now d with
  | (Ok None, d') => JobRepository.claim a t w ls now d = (Ok None, d')
  | (Ok (Some (job, att)), d') => JobRepository.claim a t w ls now d = (Ok (Some (updated_job now job, att)), d')
  | (Raise e, d') => JobRepository.claim a t w ls now d = (Raise e, d')
  end.
Proof.
  intros HI Hls. pose proof (claim_tx_agrees a t w ls now d HI) as Htx. unfold claim, JobRepository.claim. rewrite Hls.
  rewrite transaction_bind. change ((mguard (negb false) ValueError ≫= ?f) d) with (f tt d). cbv beta. rewrite transaction_bind, Htx.
  destruct (claim_tx (λ _, false) a t w ls now d) as [[o|e] d1] eqn:E; [|done].
  apply pg_claim_tx_ok in E as [[-> ->]|(k & r & att & -> & Hr & Hk & Ha & Hj & -> & HI')]; [done| |done].
  assert (Hrow : jobs (claim_effect r att now d) !! jr_id r = Some (row_claim a now r))
    by (unfold claim_effect; simpl; rewrite Ha; by rewrite lookup_insert_eq).
  destruct (key_of_job _ _ _ HI' Hrow) as (k' & t' & Hk' & _ & Hs & Htr).
  assert (k' = k) as -> by (unfold key_of in Hk', Hk; simpl in Hk'; congruence).
  destruct (return_job_ok _ _ _ HI' Hrow) as (k' & Hk'' & Hret). assert (k' = k) as -> by congruence.
  assert (Hjob : ∀ u, job_from_row k (row_claim a u r) = Ok (job_of k (row_claim a u r))).
  { intros u. pose proof (inv_job _ HI' _ _ Hrow) as Hok. unfold job_from_row. apply validate_job_complete; simpl; try done.
    - apply Hok.
    - destruct (jo_policy _ _ _ Hok) as (? & ? & ?). by apply validate_backoff_complete.
    - apply Hok. }
  simpl. rewrite Hj. unfold mbind, M_bind, mlift. rewrite Hjob, Hret. done.
Qed.

Lemma heartbeat_agrees j t ls now d att d' : Qle_bool ls 0 = false →
  heartbeat j t ls now d = (Ok att, d') →
  JobRepository.heartbeat j t ls now d = (Ok att, set_jobs (alter (row_touch now) j) d').
Proof.
  intros Hls H. unfold heartbeat, JobRepository.heartbeat, heartbeat_tx in *. rewrite Hls.
  change ((mguard (negb false) ValueError ≫= ?f) d) with (f tt d). cbv beta. rewrite transaction_bind, mget_bind.
  destruct (dt_add now (td_us ls)) as [expiry|e]; [|done].
  match type of H with (mlift (Ok _) ≫= ?f) _ = _ => change (f expiry d = (Ok att, d')) in H; cbv beta in H end.
  rewrite transaction_bind, mget_bind in H. destruct (active_attempt d j t) as [x|]; [|done]. munfold.
  destruct (negb (lease_expires_at x <=? now)); [|done]. simpl in *. destruct (attempt_from_row _); by simplify_eq.
Qed.

(** Reading a job back after the commit. *)
Lemma read_back j r d : Inv d → jobs d !! j = Some r →
  ∃ job, return_job j d = (Ok job, d) ∧ mread (get_job j) d = (Ok (Some job), d).
Proof.
  intros HI Hr. destruct (return_job_ok _ _ _ HI Hr) as (k & Hk & ->). exists (job_of k r). split; [done|].
  unfold mread. by rewrite (get_job_ok _ _ HI), Hr, Hk.
Qed.

Lemma alter_same {A} (f g : A → A) (m : gmap uuid A) a x : m !! a = Some x → f x = g x → alter f a m = alter g a m.
Proof. intros H E. rewrite !(alter_as_insert _ _ _ _ H). by rewrite E. Qed.

(** An attempt that is open is ended by both in the same way. *)
Lemma end_is_close d j r now o : Inv d → jobs d !! j = Some r → jr_status r = running →
  end_by_id (jr_active r) now o d = close_by_id (jr_active r) now o d.
Proof.
  intros HI Hr Hs. destruct (jo_live _ _ _ (inv_job _ HI _ _ Hr) Hs) as (a & att & -> & Hatt & _ & Hopen & _).
  rewrite end_by_id_eq, close_by_id_eq. unfold set_attempts. do 2 f_equal.
  apply (alter_same _ _ _ _ _ Hatt). unfold close_own. by rewrite attempt_close_open.
Qed.

Lemma cancel_agrees j now d : Inv d → (∀ r, jobs d !! j = Some r → jr_status r ∉ [completed; failed]) →
  cancel j now d = (let '(x, d') := JobRepository.cancel j now d in (match x with Ok job => Ok (Some job) | Raise e => Raise e end, d')).
Proof.
  intros HI Hnot. pose proof (cancel_keeps d HI now j Hnot) as HI'. unfold cancel, JobRepository.cancel, cancel_tx in *.
  rewrite transaction_bind, mget_bind in HI'. rewrite !transaction_bind, !mget_bind.
  destruct (jobs d !! j) as [r|] eqn:Hr; [|done]. case_bool_decide as Hc.
  { destruct (read_back j r d HI Hr) as (job & E1 & E2). simpl. by rewrite E1, E2. }
  assert (Hv : validate_job_transition (jr_status r) cancelled = Ok tt).
  { specialize (Hnot _ eq_refl). destruct (jr_status r); try done; set_solver. }
  rewrite Hv. change ((mlift (Ok tt) ≫= ?f) d) with (f tt d). cbv beta.
  assert (E : (if bool_decide (jr_status r = running) then end_by_id (jr_active r) now o_cancelled else mret tt) d
              = (if bool_decide (jr_status r = running) then close_by_id (jr_active r) now o_cancelled else mret tt) d).
  { case_bool_decide; [by eapply end_is_close|done]. }
  unfold mbind, M_bind in *. rewrite E in *.
  destruct ((if bool_decide (jr_status r = running) then close_by_id (jr_active r) now o_cancelled else mret tt) d) as [[[]|e] d1] eqn:E1;
    [|done]. simpl in *.
  assert (Hj : jobs d1 !! j = Some r).
  { case_bool_decide; [rewrite close_by_id_eq in E1|]; injection E1 as <-; done. }
  match goal with |- context [return_job j ?d2] => destruct (read_back j (row_cancel now r) d2 HI') as (job & -> & ->); [|done] end.
  simpl. by rewrite lookup_alter_eq, Hj.
Qed.

Definition with_output (j : uuid) (res : option jdict) (now : time) (o : gmap uuid (json * time)) : gmap uuid (json * time) :=
  match res with
  | None => o
  | Some res => <[j := (canon (JObj res), match o !! j with Some (_, t) => t | None => now end)]> o
  end.

Lemma upsert_eq j res now d : upsert_output j res now d = (Ok tt, set_outputs (with_output j res now) d).
Proof. destruct res; [done|]. by destruct d. Qed.

(** A result without evidence, where none was stored. *)
Lemma persist_plain j a res now d : outputs d !! j = None → (∀ v, res = Some v → needs_evidence v = false) →
  persist_result j a res now d = (Ok tt, set_outputs (with_output j res now) d).
Proof.
  intros H Hev. destruct res as [v|]; [|by destruct d]. unfold persist_result. munfold. simpl. rewrite H. simpl.
  rewrite (Hev _ eq_refl). unfold set_outputs. simpl. by rewrite H.
Qed.

Lemma complete_agrees j r t out res now d : Inv d → jobs d !! j = Some r → jr_status r = running →
  (∀ v, res = Some v → needs_evidence v = false) → (∀ att, active_attempt d j t = Some att → error att = None) →
  complete j t out res now d =
    (let '(x, d') := JobRepository.complete j t out res now d in (match x with Ok job => Ok (Some job) | Raise e => Raise e end, d')).
Proof.
  intros HI Hr Hs Hev Herr. pose proof (complete_keeps d HI now j t out res) as HI'.
  destruct (key_of_job _ _ _ HI Hr) as (k & ? & Hk & _).
  assert (Hout : outputs d !! j = None).
  { destruct (outputs d !! j) eqn:Ho; [|done]. destruct (inv_output _ HI _ _ Ho) as (r0 & Hr0 & Hc). congruence. }
  unfold complete, JobRepository.complete, finish, finish_tx in *. rewrite transaction_bind, mget_bind in HI'.
  rewrite !transaction_bind, !mget_bind. rewrite Hr, Hk, Hs in *. simpl in *.
  destruct (active_attempt d j t) as [att|] eqn:Ha; [|done].
  destruct (active_attempt_row _ _ _ _ HI Ha) as (r0 & Hr0 & _ & _ & Hatt & _ & _ & Hopen & _).
  assert (Hclose : alter (attempt_end now o_completed (Some out)) (attempt_id att) (attempts d)
    = alter (attempt_close now o_completed (failure_kind att) (error_code att) None (Some out)) (attempt_id att) (attempts d)).
  { apply (alter_same _ _ _ _ _ Hatt). rewrite attempt_close_open by done. unfold attempt_end. by rewrite (Herr _ eq_refl). }
  assert (Hjobs : alter (λ r, if bool_decide (jr_status r = running) then row_release completed now (jr_available r) r else r) j (jobs d)
    = alter (λ r, row_release completed now (jr_available r) r) j (jobs d)).
  { apply (alter_same _ _ _ _ _ Hr). by rewrite Hs. }
  unfold mbind, M_bind, mguard, mlift, rguard, record_transition, mmodify in *.
  destruct (negb (lease_expires_at att <=? now)); [|done]. rewrite upsert_eq in *. simpl in *.
  rewrite persist_plain by done. unfold set_outputs, set_attempts, set_jobs, set_transitions in *. simpl in *.
  rewrite Hjobs, <-Hclose.
  match goal with |- context [return_job j ?d2] => destruct (read_back j (row_release completed now (jr_available r) r) d2 HI') as (job & E1 & E2) end;
    [simpl; by rewrite lookup_alter_eq, Hr|]. by rewrite E1, E2.
Qed.

(** ** The theorems *)

(** The calls the invariant allows: keys without outer blanks, and no cancellation of a
    job that has completed or failed. *)
Definition pg_sound (op : pg_op) (d : db) : Prop :=
  match op with
  | PEnqueue _ _ _ key _ _ => strip key = key
  | PCancel j => ∀ r, jobs d !! j = Some r → jr_status r ∉ [completed; failed]
  | _ => True
  end.

(** The tables stay consistent on PostgreSQL too. Every call keeps the invariant of the
    SQLite store (which job runs under which attempt, numbers within the retry policy, keys
    and jobs in bijection, audit trails that are walks of the state machine) whatever rows
    are locked by others, except that a finished job must not be cancelled and a key must
    not have blanks around it. *)
Theorem postgres_keeps_the_invariant op now d : Inv d → pg_sound op d → Inv (pg_step op now d).
Proof.
  intros HI Hs. destruct op as [fresh tid task key prio policy|locked a t w ls|j t ls|j t out res|j|locked|j]; simpl in *.
  - rewrite enqueue_agrees by done. destruct (JobRepository.enqueue _ _ _ _ _ _ _ d) as [x d'] eqn:E.
    apply enqueue_cases in E as [[-> _]|[[-> _]|(_ & _ & _ & _ & _ & _ & _ & HI' & _)]]; done.
  - by apply claim_keeps.
  - by apply heartbeat_keeps.
  - by apply complete_keeps.
  - by apply cancel_keeps.
  - by apply reclaim_keeps.
  - by apply acknowledge_inv.
Qed.

(** C33: postgreSQL does what SQLite does, where it does. On consistent tables with no row
    locked, submitting a job under a key without outer blanks has the same outcome and
    leaves the same tables; so do cancelling a job that has not finished, and completing a
    running one with a result that needs no publication. A claim takes the same job under
    the same lease and leaves the same tables, but returns the job with its old update
    time, and a heartbeat extends the lease but leaves that time as it was. *)
Theorem postgres_agrees_with_sqlite d now : Inv d →
  (∀ fresh tid task key prio policy, strip key = key →
     enqueue fresh tid task key prio policy now d = JobRepository.enqueue fresh tid task key prio policy now d)
  ∧ (∀ a t w ls, Qle_bool ls 0 = false →
     match claim (λ _, false) a t w ls now d with
     | (Ok None, d') => JobRepository.claim a t w ls now d = (Ok None, d')
     | (Ok (Some (job, att)), d') => JobRepository.claim a t w ls now d = (Ok (Some (updated_job now job, att)), d')
     | (Raise e, d') => JobRepository.claim a t w ls now d = (Raise e, d')
     end)
  ∧ (∀ j t ls att d', Qle_bool ls 0 = false → heartbeat j t ls now d = (Ok att, d') →
     JobRepository.heartbeat j t ls now d = (Ok att, set_jobs (alter (row_touch now) j) d'))
  ∧ (∀ j r t out res, jobs d !! j = Some r → jr_status r = running → (∀ v, res = Some v → needs_evidence v = false) →
     (∀ att, active_attempt d j t = Some att → error att = None) →
     complete j t out res now d = (let '(x, d') := JobRepository.complete j t out res now d in
       (match x with Ok job => Ok (Some job) | Raise e => Raise e end, d')))
  ∧ (∀ j, (∀ r, jobs d !! j = Some r → jr_status r ∉ [completed; failed]) →
     cancel j now d = (let '(x, d') := JobRepository.cancel j now d in
       (match x with Ok job => Ok (Some job) | Raise e => Raise e end, d'))).
Proof.
  intros HI. split_and!; intros.
  - by apply enqueue_agrees.
  - by apply claim_agrees.
  - by apply heartbeat_agrees.
  - by eapply complete_agrees.
  - by apply cancel_agrees.
Qed.

(** ** What it does not do *)

Lemma keeps_transaction {S A T} (f : S → T) (m : M S A) : keeps f m → keeps f (transaction m).
Proof. intros H s. specialize (H s). unfold transaction. by destruct (m s) as [[a|e] s']. Qed.

Ltac keep :=
  repeat first
    [ apply keeps_transaction | apply keeps_bind; [|intros ?] | progress cbv zeta
    | match goal with |- keeps _ (match ?x with _ => _ end) => destruct x end
    | intros ?; reflexivity ].

Lemma keeps_insert_attempt att : keeps outbox (insert_attempt att).
Proof. unfold insert_attempt. keep. Qed.
Lemma keeps_insert_job r : keeps outbox (insert_job r).
Proof. unfold insert_job. keep. Qed.

Lemma keeps_reclaim now rows : keeps outbox (miter (reclaim_one now) rows).
Proof. induction rows as [|r rows IH]; simpl; [by intros ?|]. unfold reclaim_one, end_by_id. keep. apply IH. Qed.

Lemma pg_step_outbox op now d : outbox d = ∅ → outbox (pg_step op now d) = ∅.
Proof.
  intros H. destruct op as [fresh tid task key prio policy|locked a t w ls|j t ls|j t out res|j|locked|j]; simpl.
  7: { rewrite H. apply map_eq. intros i. rewrite lookup_alter. by case_decide. }
  all: rewrite <-H; clear H; revert d.
  - change (keeps outbox (enqueue fresh tid task key prio policy now)).
    unfold enqueue, insert_idem, insert_task, record_transition. keep. all: try apply keeps_insert_job.
  - change (keeps outbox (claim locked a t w ls now)). unfold claim, claim_tx, record_transition. keep.
    all: try apply keeps_insert_attempt.
  - change (keeps outbox (heartbeat j t ls now)). unfold heartbeat. keep.
  - change (keeps outbox (complete j t out res now)). unfold complete, upsert_output, record_transition. keep.
  - change (keeps outbox (cancel j now)). unfold cancel, end_by_id, record_transition. keep.
  - change (keeps outbox (reclaim_expired locked now)). unfold reclaim_expired. keep. apply keeps_reclaim.
Qed.

(** Nothing is announced on PostgreSQL. Whatever calls are made, in whatever order and at
    whatever times, no completion is ever pending: the publisher that records artifacts
    and opens reviews has nothing to do. *)
Theorem nothing_is_announced_on_postgres ops limit : pending_completions limit (pg_run ops empty_db) = [].
Proof.
  unfold pending_completions. assert (H : outbox (pg_run ops empty_db) = ∅); [|rewrite H, map_to_list_empty; simpl; by destruct limit].
  unfold pg_run. assert (H0 : outbox empty_db = ∅) by done. revert H0. generalize empty_db.
  induction ops as [|[op now] ops IH]; intros d H0; [done|]. simpl. by apply IH, pg_step_outbox.
Qed.

(** On PostgreSQL a finished job can be cancelled. A completed or failed job, whose state
    the SQLite store never changes again, is moved to cancelled. *)
Theorem postgres_cancels_finished_jobs j r now d :
  Inv d → jobs d !! j = Some r → jr_status r ∈ [completed; failed] →
  (∃ r', jobs (cancel j now d).2 !! j = Some r' ∧ jr_status r' = cancelled)
  ∧ JobRepository.cancel j now d = (Raise ValueError, d).
Proof.
  intros HI Hr Hs. unfold cancel, JobRepository.cancel, cancel_tx. rewrite !transaction_bind, !mget_bind, Hr.
  assert (Hc : jr_status r = completed ∨ jr_status r = failed) by set_solver. clear Hs.
  split.
  - exists (row_cancel now r). split; [|done]. destruct Hc as [-> | ->]; simpl; by rewrite lookup_alter_eq, Hr.
  - by destruct Hc as [-> | ->].
Qed.

(** ** Examples *)

Lemma demo_inv : Inv demo_enqueued ∧ Inv demo_running ∧ Inv demo_done.
Proof.
  assert (H : Inv demo_enqueued) by (apply reachable_inv; unfold demo_enqueued; repeat apply reach_step; apply reach_empty).
  split_and!; [done|apply reachable_inv, demo_running_reachable|apply reachable_inv, demo_done_reachable].
Qed.

Lemma postgres_keeps_the_invariant_witness : Inv (pg_step (PCancel 1) 50 demo_enqueued).
Proof.
  apply postgres_keeps_the_invariant; [apply demo_inv|]. intros r Hr. vm_compute in Hr. injection Hr as <-.
  intros H. apply elem_of_cons in H as [H|H]; [discriminate H|]. apply list_elem_of_singleton in H. discriminate H.
Defined.

(** SQLite's claim and PostgreSQL's of the same queue. *)
Lemma postgres_agrees_with_sqlite_witness :
  match claim (λ _, false) 100 200 "w1" 30 20 demo_enqueued with
  | (Ok (Some (job, att)), d') => JobRepository.claim 100 200 "w1" 30 20 demo_enqueued = (Ok (Some (updated_job 20 job, att)), d')
  | _ => False
  end.
Proof.
  exact (proj1 (proj2 (postgres_agrees_with_sqlite demo_enqueued 20 (proj1 demo_inv))) 100%N 200%N "w1" 30%Q eq_refl).
Defined.

Lemma postgres_cancels_finished_jobs_witness :
  JobRepository.cancel 2 60 demo_done = (Raise ValueError, demo_done).
Proof.
  eapply (postgres_cancels_finished_jobs 2 _ 60 demo_done (proj2 (proj2 demo_inv))); [vm_compute; reflexivity|left].
Defined.
