(* ===== verification/PostgresGoals.v ===== *)
(** core/goals/postgres_store.py: the goal store on PostgreSQL.

    The tables are those of the SQLite store ([gstore]) with the columns the migrations
    create: goals have no folder. A [with self.engine.begin()] block is a transaction.
    PostgreSQL promises no order beyond ORDER BY, so the order in which it reads a table
    is an argument. [goal_tree] and [rollup] do not exist here: calling them raises
    AttributeError. *)

From S2P Require Import Prelude.
From S2P Require Import PyStr.
From S2P Require Import PyTime.
From S2P Require Import Json.
From S2P Require Import Contracts.
From S2P Require Import GoalStore.
Open Scope Z_scope.

(** [PostgresGoalStore.__init__]. *)
Definition postgres_url (url : string) : result string :=
  rguard (existsb (startswith url) ["postgres://"; "postgresql://"; "postgresql+"]) ValueError;;
  Ok url.

(** UPDATE goals SET ... WHERE ... . *)
Definition update_goals (where_ : GoalContract → bool) (set_ : GoalContract → GoalContract) : M gstore unit :=
  mmodify (set_goals (map (λ x, if where_ x then set_ x else x))).

(** ** Goals *)

(** The columns of a goal: [workspace_root] is not one of them. *)
Definition goal_row (x : GoalContract) : GoalContract :=
  mk_Goal (goal_id x) (g_origin x) (objective x) None (g_threshold x) (g_status x)
    (plan_confidence x) (g_created_at x).

Definition create_goal (goal : GoalContract) : M gstore unit :=
  transaction (
    s ← mget;
    mguard (negb (existsb (is_goal (goal_id goal)) (gs_goals s))) IntegrityError;;
    mmodify (set_goals (λ l, l ++ [goal_row goal]))).

(** [_goal]. *)
Definition goal_of (row : GoalContract) : result GoalContract := validate_goal (goal_row row).

Definition get_goal (g : uuid) (s : gstore) : result (option GoalContract) :=
  match List.find (is_goal g) (gs_goals s) with
  | None => Ok None
  | Some row => goal ← goal_of row; Ok (Some goal)
  end.

(** ORDER BY created_at DESC, goal_id DESC. *)
Definition goal_leb (a b : GoalContract) : bool :=
  (g_created_at b <? g_created_at a) ||
  (g_created_at a =? g_created_at b) && (goal_id b <=? goal_id a)%N.

Definition list_goals (s : gstore) : result (list GoalContract) :=
  rmap goal_of (py_sorted goal_leb (gs_goals s)).

(** ORDER BY created_at DESC alone. *)
Definition list_active_goals (read : list GoalContract → list GoalContract) (s : gstore) : result (list GoalContract) :=
  rmap goal_of (py_sorted (λ a b, g_created_at b <=? g_created_at a)
    (List.filter (λ x, bool_decide (g_status x ∈ [g_ready; g_running; g_paused])) (read (gs_goals s)))).

Definition set_goal_status (g : uuid) (st : GoalStatus) : M gstore unit :=
  transaction (update_goals (is_goal g) (goal_with_status st)).

(** INSERT ... ON CONFLICT (goal_id) DO UPDATE. *)
Definition bind_repository (g : uuid) (repo revision commit : string) (now : time) : M gstore unit :=
  transaction (mmodify (set_repositories (partial_alter (λ _, Some (mk_binding repo revision commit now)) g))).

Definition repository_binding (g : uuid) (s : gstore) : option binding := gs_repositories s !! g.

Definition try_claim (g : uuid) : M gstore bool :=
  transaction (
    s ← mget;
    let where_ x := is_goal g x && bool_decide (g_status x ∈ [g_ready; g_paused]) in
    update_goals where_ (goal_with_status g_running);;
    mret (0 <? Z.of_nat (length (List.filter where_ (gs_goals s))))).

(** ** Plans *)

(** What a DOUBLE PRECISION column takes of a Python value: a boolean, a list or a dict
    is of another type, text is not a number (numeric text is not represented). *)
Definition bind_double (v : json) : result json :=
  match v with
  | JInt z => Ok (JFloat (inject_Z z))
  | JBool _ | JArr _ | JObj _ => Raise ProgrammingError
  | JStr _ => Raise DataError
  | _ => Ok v
  end.

Definition insert_project (p : ProjectNode) (i : Z) : M gstore unit :=
  s ← mget;
  mguard (negb (existsb (λ x, (project_id (fst x) =? project_id p)%N) (gs_projects s))) IntegrityError;;
  mmodify (set_projects (λ l, l ++ [(p, i)])).

Definition insert_planned (t : PlannedTask) (i : Z) : M gstore unit :=
  c ← mlift (bind_double (pt_confidence t));
  s ← mget;
  mguard (negb (existsb (is_task (pt_id t)) (gs_tasks s))) IntegrityError;;
  mmodify (set_tasks (λ l, l ++ [mk_task_row (mk_Planned (pt_id t) (pt_project t) (pt_goal t)
    (pt_skill t) (pt_payload t) (depends_on t) (pt_status t) c (pt_result t) (pt_error t))
    None None i])).

(** [enumerate]. *)
Definition enumerated {A} (l : list A) : list (Z * A) := zip (seqZ 0 (Z.of_nat (length l))) l.

Definition save_plan (g : uuid) (projects : list ProjectNode) (tasks : list PlannedTask)
    (confidence : Q) (gated : bool) : M gstore unit :=
  transaction (
    miter (λ ip, insert_project ip.2 ip.1) (enumerated projects);;
    miter (λ it, insert_planned it.2 it.1) (enumerated tasks);;
    update_goals (is_goal g) (λ x, mk_Goal (goal_id x) (g_origin x) (objective x) (g_workspace_root x)
      (g_threshold x) (if gated then g_paused else g_ready) (Some confidence) (g_created_at x))).

(** ** Tasks *)

Definition task_of (r : task_row) : result PlannedTask :=
  match pt_confidence (tk r) with
  | JNull | JFloat _ => Ok (tk r)
  | _ => Raise ValueError
  end.

Definition get_tasks (read : list task_row → list task_row) (g : uuid) (s : gstore) : result (list PlannedTask) :=
  rmap task_of (py_sorted (λ a b, tk_ordinal a <=? tk_ordinal b)
    (List.filter (λ r, (pt_goal (tk r) =? g)%N) (read (gs_tasks s)))).

Definition bind_field (f : field) : result field :=
  match f with
  | F_confidence v => v ← bind_double v; Ok (F_confidence v)
  | _ => Ok f
  end.

(** Without a field there is nothing to execute. *)
Definition update_task (t : uuid) (fields : list field) : M gstore unit :=
  match fields with
  | [] => mret tt
  | _ :: _ =>
      transaction (
        fields ← mlift (rmap bind_field fields);
        mmodify (set_tasks (map (λ r, if is_task t r then foldl (λ r f, set_field f r) r fields else r))))
  end.

Definition task_execution (t : uuid) (s : gstore) : result (option uuid * option jdict) :=
  match List.find (is_task t) (gs_tasks s) with
  | None => Raise KeyError
  | Some r => Ok (tk_job r, tk_resolved r)
  end.

(** ** Events *)

Definition record_event (g : uuid) (actor action : string) (reason : option string)
    (affected : option (list string)) (now : time) : M gstore unit :=
  transaction (mmodify (set_events (λ l, l ++ [mk_event g actor action reason (or_else affected []) now]))).

Definition events (g : uuid) (s : gstore) : list goal_event :=
  List.filter (λ e, (ev_goal e =? g)%N) (gs_events s).

(** ** The calls on the two stores *)

Inductive gop :=
  | GCreate (goal : GoalContract)
  | GStatus (g : uuid) (st : GoalStatus)
  | GClaim (g : uuid)
  | GBind (g : uuid) (repo revision commit : string)
  | GPlan (g : uuid) (projects : list ProjectNode) (tasks : list PlannedTask) (confidence : Q) (gated : bool)
  | GTask (t : uuid) (fields : list field)
  | GEvent (g : uuid) (actor action : string) (reason : option string) (affected : list string).

(** What a call returns: the answer of a claim, [true] otherwise. *)
Definition pg_call (op : gop) (now : time) : M gstore bool :=
  match op with
  | GCreate goal => create_goal goal;; mret true
  | GStatus g st => set_goal_status g st;; mret true
  | GClaim g => try_claim g
  | GBind g repo rev_ sha => bind_repository g repo rev_ sha now;; mret true
  | GPlan g ps ts c gated => save_plan g ps ts c gated;; mret true
  | GTask t fields => update_task t fields;; mret true
  | GEvent g actor action reason affected => record_event g actor action reason (Some affected) now;; mret true
  end.

Definition sqlite_call (op : gop) (now : time) : M gstore bool :=
  match op with
  | GCreate goal => GoalStore.create_goal goal;; mret true
  | GStatus g st => GoalStore.set_goal_status g st;; mret true
  | GClaim g => GoalStore.try_claim g
  | GBind g repo rev_ sha => GoalStore.bind_repository g repo rev_ sha now;; mret true
  | GPlan g ps ts c gated => GoalStore.save_plan g ps ts c gated;; mret true
  | GTask t fields => GoalStore.update_task t fields;; mret true
  | GEvent g actor action reason affected => GoalStore.record_event g actor action reason affected now;; mret true
  end.

(** ** Theorems

    The PostgreSQL goal store is the SQLite one with the folders of the goals forgotten:
    every call does to the tables without folders what SQLite does to those with them,
    and what is read back is the same but for the folder and the order of ties. *)

(** The tables of PostgreSQL for those of SQLite. *)
Definition forget (s : gstore) : gstore := set_goals (map goal_row) s.

Definition rcast {A B} (f : A → B) (r : result A) : result B :=
  match r with Ok a => Ok (f a) | Raise e => Raise e end.

(** A confidence both columns take in the same way. *)
Definition plain_number (v : json) : bool :=
  match v with JNull | JInt _ | JFloat _ => true | _ => false end.

Definition plain_call (op : gop) : bool :=
  match op with
  | GPlan _ _ ts _ _ => forallb (λ t, plain_number (pt_confidence t)) ts
  | GTask _ fields => negb (bool_decide (fields = [])) &&
      forallb (λ f, match f with F_confidence v => plain_number v | _ => true end) fields
  | _ => true
  end.

(** ** Forgetting commutes with every update *)

Lemma is_goal_row g x : is_goal g (goal_row x) = is_goal g x.
Proof. done. Qed.

Lemma forget_update (w : GoalContract → bool) (f : GoalContract → GoalContract) s :
  (∀ x, w (goal_row x) = w x) → (∀ x, f (goal_row x) = goal_row (f x)) →
  set_goals (map (λ x, if w x then f x else x)) (forget s) = forget (set_goals (map (λ x, if w x then f x else x)) s).
Proof.
  intros Hw Hf. unfold forget, set_goals. simpl. f_equal. rewrite !map_map. apply map_ext.
  intros x. rewrite Hw. destruct (w x); [apply Hf|done].
Qed.

Lemma existsb_forget (w : GoalContract → bool) s : (∀ x, w (goal_row x) = w x) →
  existsb w (gs_goals (forget s)) = existsb w (gs_goals s).
Proof. intros Hw. unfold forget. simpl. induction (gs_goals s) as [|x l IH]; [done|]. simpl. by rewrite Hw, IH. Qed.

Lemma existsb_count {A} (w : A → bool) l : (0 <? Z.of_nat (length (List.filter w l))) = existsb w l.
Proof. induction l as [|x l IH]; [done|]. simpl. destruct (w x); [done|exact IH]. Qed.

(** The state and the outcome of a call on the tables without folders. *)
Definition follows {A} (m m' : M gstore A) : Prop := ∀ s,
  m' (forget s) = match m s with
                  | (Ok a, s') => (Ok a, forget s')
                  | (Raise e, s') => (Raise e, forget s')
                  end.

Lemma follows_bind {A B} (m m' : M gstore A) (k k' : A → M gstore B) :
  follows m m' → (∀ a, follows (k a) (k' a)) → follows (m ≫= k) (m' ≫= k').
Proof.
  intros Hm Hk s. unfold mbind, M_bind. rewrite Hm. destruct (m s) as [[a|e] s']; [apply Hk|done].
Qed.

Lemma follows_pure {A} (r : result A) : follows (mlift r) (mlift r).
Proof. intros s. unfold mlift. by destruct r. Qed.

Lemma follows_modify (f f' : gstore → gstore) : (∀ s, f' (forget s) = forget (f s)) → follows (mmodify f) (mmodify f').
Proof. intros H s. unfold mmodify. by rewrite H. Qed.

Lemma follows_get {B} (k k' : gstore → M gstore B) :
  (∀ s, k' (forget s) (forget s) = match k s s with (Ok a, s') => (Ok a, forget s') | (Raise e, s') => (Raise e, forget s') end) →
  follows (mget ≫= k) (mget ≫= k').
Proof. intros H s. apply H. Qed.

Lemma insert_project_follows p i : follows (GoalStore.insert_project p i) (insert_project p i).
Proof. intros s. unfold GoalStore.insert_project, insert_project. mcrunch; done. Qed.

Lemma plain_bind v : plain_number v = true → bind_double v = bind_real v.
Proof. by destruct v. Qed.

Lemma insert_planned_follows t i : plain_number (pt_confidence t) = true →
  follows (GoalStore.insert_planned t i) (insert_planned t i).
Proof.
  intros Hp. unfold GoalStore.insert_planned, insert_planned. rewrite (plain_bind _ Hp).
  apply follows_bind; [apply follows_pure|]. intros c s. mcrunch; done.
Qed.

Lemma insert_all_miter {A} (f : A → Z → M gstore unit) l : ∀ i,
  insert_all f i l = miter (λ ia : Z * A, f ia.2 ia.1) (zip (seqZ i (Z.of_nat (length l))) l).
Proof.
  induction l as [|a l IH]; intros i; [done|].
  simpl length. rewrite Nat2Z.inj_succ, seqZ_cons by lia. simpl. rewrite IH.
  by replace (Z.pred (Z.succ (Z.of_nat (length l)))) with (Z.of_nat (length l)) by lia.
Qed.

Lemma follows_miter {A} (f f' : A → M gstore unit) l :
  (∀ a, a ∈ l → follows (f a) (f' a)) → follows (miter f l) (miter f' l).
Proof.
  induction l as [|a l IH]; intros Hf; [by apply (follows_pure (Ok tt))|].
  apply follows_bind; [apply Hf; by left|]. intros []. apply IH. intros b Hb. apply Hf. by right.
Qed.

Lemma follows_transaction {A} (m m' : M gstore A) : follows m m' → ∀ s,
  transaction m' (forget s) = match m s with
                              | (Ok a, s') => (Ok a, forget s')
                              | (Raise e, _) => (Raise e, forget s)
                              end.
Proof. intros H s. unfold transaction. rewrite H. by destruct (m s) as [[a|e] s']. Qed.

Lemma save_plan_follows g ps ts c gated : forallb (λ t, plain_number (pt_confidence t)) ts = true → ∀ s,
  save_plan g ps ts c gated (forget s) = match GoalStore.save_plan g ps ts c gated s with
    | (Ok a, s') => (Ok a, forget s') | (Raise e, _) => (Raise e, forget s) end.
Proof.
  intros Hp s. apply (follows_transaction (GoalStore.save_plan g ps ts c gated)). unfold GoalStore.save_plan.
  rewrite !insert_all_miter. apply follows_bind; [apply follows_miter; intros [i p] _; apply insert_project_follows|].
  intros []. apply follows_bind.
  - apply follows_miter. intros [i t] Hin%elem_of_zip_r. apply insert_planned_follows. simpl.
    rewrite forallb_forall in Hp. apply Hp. by apply list_elem_of_In.
  - intros []. apply follows_modify. intros s'. by apply forget_update.
Qed.

Lemma bind_fields_same fields :
  forallb (λ f, match f with F_confidence v => plain_number v | _ => true end) fields = true →
  rmap bind_field fields = rmap GoalStore.bind_field fields.
Proof.
  induction fields as [|f l IH]; [done|]. simpl. intros [Hf Hl]%andb_true_iff. rewrite (IH Hl).
  destruct f; try done. simpl. by rewrite (plain_bind _ Hf).
Qed.

Lemma update_task_follows t fields : plain_call (GTask t fields) = true → ∀ s,
  update_task t fields (forget s) = match GoalStore.update_task t fields s with
    | (Ok a, s') => (Ok a, forget s') | (Raise e, _) => (Raise e, forget s) end.
Proof.
  simpl. intros [Hn Hf]%andb_true_iff s. destruct fields as [|f l]; [done|]. unfold update_task.
  apply (follows_transaction (GoalStore.update_task t (f :: l))). rewrite (bind_fields_same _ Hf).
  apply follows_bind; [apply follows_pure|]. intros fs. apply follows_modify. by intros s'.
Qed.

Lemma bind_true_follows (m m' : M gstore unit) s :
  (m' (forget s) = match m s with (Ok a, s') => (Ok a, forget s') | (Raise e, _) => (Raise e, forget s) end) →
  (m';; mret true) (forget s) =
    match (m;; mret true) s with (Ok a, s') => (Ok a, forget s') | (Raise e, _) => (Raise e, forget s) end.
Proof. unfold mbind, M_bind. intros ->. by destruct (m s) as [[?|?] ?]. Qed.

Lemma update_goals_follows (w : GoalContract → bool) (f : GoalContract → GoalContract) :
  (∀ x, w (goal_row x) = w x) → (∀ x, f (goal_row x) = goal_row (f x)) →
  follows (mmodify (set_goals (map (λ x, if w x then f x else x)))) (update_goals w f).
Proof. intros Hw Hf. apply follows_modify. intros s. by apply forget_update. Qed.

Lemma try_claim_follows g : follows (GoalStore.try_claim g)
  (s ← mget;
   let where_ x := is_goal g x && bool_decide (g_status x ∈ [g_ready; g_paused]) in
   update_goals where_ (goal_with_status g_running);;
   mret (0 <? Z.of_nat (length (List.filter where_ (gs_goals s))))).
Proof.
  apply follows_get. intros s. cbv zeta. rewrite existsb_count.
  change (λ x, is_goal g x && bool_decide (g_status x ∈ [g_ready; g_paused])) with (claimable_goal g).
  rewrite existsb_forget by done. apply follows_bind; [by apply update_goals_follows|].
  intros []. apply (follows_pure (Ok _)).
Qed.

(** One call. *)
Lemma pg_call_follows op now s : plain_call op = true →
  pg_call op now (forget s) = match sqlite_call op now s with
    | (Ok b, s') => (Ok b, forget s') | (Raise e, _) => (Raise e, forget s) end.
Proof.
  intros Hp. destruct op; cbn [pg_call sqlite_call]; try apply bind_true_follows.
  - apply (follows_transaction (GoalStore.create_goal goal)). apply follows_get. intros s'.
    rewrite existsb_forget by done. apply follows_bind; [apply follows_pure|]. intros [].
    apply follows_modify. intros s''. unfold forget, set_goals. simpl. by rewrite map_app.
  - apply (follows_transaction (GoalStore.set_goal_status g st)). by apply update_goals_follows.
  - apply (follows_transaction (GoalStore.try_claim g)). apply try_claim_follows.
  - apply (follows_transaction (GoalStore.bind_repository g repo revision commit now)).
    by apply follows_modify.
  - by apply save_plan_follows.
  - by apply update_task_follows.
  - apply (follows_transaction (GoalStore.record_event g actor action reason affected now)).
    by apply follows_modify.
Qed.

(** ** Reading *)

Lemma goal_of_row x : goal_of (goal_row x) = rcast goal_row (validate_goal x).
Proof. unfold goal_of, rcast, validate_goal. simpl. munfold. crunch_match; done. Qed.

Lemma find_forget g s : List.find (is_goal g) (gs_goals (forget s)) = goal_row <$> List.find (is_goal g) (gs_goals s).
Proof.
  unfold forget. simpl. induction (gs_goals s) as [|x l IH]; [done|]. simpl. rewrite is_goal_row.
  by destruct (is_goal g x).
Qed.

Lemma find_self x l : NoDup (goal_id <$> l) → x ∈ l → List.find (is_goal (goal_id x)) l = Some x.
Proof.
  induction l as [|y l IH]; [by intros _ ?%not_elem_of_nil|].
  intros [Hy Hn]%NoDup_cons [->|Hx]%elem_of_cons; simpl; unfold is_goal at 1; [by rewrite N.eqb_refl|].
  destruct (N.eqb_spec (goal_id y) (goal_id x)) as [E|]; [|by apply IH].
  destruct Hy. rewrite E. by apply list_elem_of_fmap_2.
Qed.

Lemma get_goal_found s x : NoDup (goal_id <$> gs_goals s) → x ∈ gs_goals s →
  GoalStore.get_goal (goal_id x) s = (v ← validate_goal x; Ok (Some v)).
Proof. intros Hn Hx. unfold GoalStore.get_goal. by rewrite (find_self x). Qed.

Lemma list_goals_found s l : NoDup (goal_id <$> gs_goals s) → (∀ x, x ∈ l → x ∈ gs_goals s) →
  (found ← rmap (λ r, GoalStore.get_goal (goal_id r) s) l; Ok (omap id (found : list (option GoalContract)))) =
  rmap validate_goal l.
Proof.
  intros Hn. induction l as [|x l IH]; intros Hin; [done|]. simpl. specialize (IH ltac:(intros y Hy; apply Hin; by right)).
  rewrite get_goal_found by (done || (apply Hin; by left)).
  destruct (validate_goal x) as [v|e]; [|done]. simpl in *. rewrite <-IH.
  by destruct (rmap _ l).
Qed.

Lemma rmap_goal_of l : rmap goal_of (map goal_row l) =
  rcast (map goal_row) (rmap validate_goal l).
Proof.
  induction l as [|x l IH]; [done|]. simpl. rewrite goal_of_row. unfold rcast. rewrite IH.
  destruct (validate_goal x) as [v|e]; [|done]. simpl. by destruct (rmap validate_goal l).
Qed.

Lemma py_sorted_map {A B} (f : A → B) (R : B → B → bool) l :
  py_sorted R (map f l) = map f (py_sorted (λ a b, R (f a) (f b)) l).
Proof.
  induction l as [|x l IH]; [done|]. simpl. rewrite IH. generalize (py_sorted (λ a b, R (f a) (f b)) l).
  intros k. induction k as [|y k IHk]; [done|]. simpl. destruct (R (f x) (f y)); [done|]. simpl. by rewrite IHk.
Qed.

Lemma rev_reverse {A} (l : list A) : rev l = reverse l.
Proof. apply rev_alt. Qed.

Lemma list_goals_follows s : NoDup (goal_id <$> gs_goals s) → NoDup (g_created_at <$> gs_goals s) →
  list_goals (forget s) = rcast (map goal_row) (GoalStore.list_goals s).
Proof.
  intros Hi Hc. unfold GoalStore.list_goals. rewrite list_goals_found; [|done|].
  - unfold list_goals, forget. simpl. rewrite py_sorted_map, rmap_goal_of. f_equal. f_equal.
    apply (py_sorted_once (λ x, - g_created_at x) (λ a b, g_created_at b <= g_created_at a)); try (intros; unfold goal_leb in *; simpl in *; lia).
    + rewrite rev_reverse, reverse_Permutation. rewrite (list_fmap_compose g_created_at Z.opp).
      assert (Inj (=) (=) Z.opp) by (intros x y; lia). by apply NoDup_fmap_2.
    + by rewrite rev_reverse, reverse_Permutation.
  - intros x Hx. rewrite py_sorted_perm, rev_reverse, reverse_Permutation in Hx. done.
Qed.

Lemma get_tasks_follows read g s : (∀ l, read l ≡ₚ l) → NoDup (tk_ordinal <$> goal_rows g s) →
  get_tasks read g (forget s) = GoalStore.get_tasks g s.
Proof.
  intros Hread Hn. unfold get_tasks, GoalStore.get_tasks, goal_rows in *. rewrite py_sorted_perm in Hn. f_equal.
  apply (py_sorted_once tk_ordinal (λ a b, tk_ordinal a <= tk_ordinal b)); [done| |intros; lia..].
  apply filter_perm, Hread.
Qed.

(** ** Theorems *)

(** C34: the goal store on PostgreSQL is the SQLite one with the folders of the goals forgotten.
    Whatever calls SQLite completes, with confidences that are numbers or absent, PostgreSQL
    completes on the tables without folders with the same answers, and its tables are then
    those of SQLite without the folders. What is read from them is the same too: each goal
    but for its folder, its tasks and their execution, the events, the repository, and the
    list of goals, where no two goals were created at one time and no two tasks of the goal
    have one place. *)
Theorem postgres_goals_agree ops s bs s' : Forall (λ on, plain_call on.1 = true) ops →
  mmapM (λ on : gop * time, sqlite_call on.1 on.2) ops s = (Ok bs, s') →
  mmapM (λ on : gop * time, pg_call on.1 on.2) ops (forget s) = (Ok bs, forget s')
  ∧ (∀ g, get_goal g (forget s') = rcast (option_map goal_row) (GoalStore.get_goal g s'))
  ∧ (∀ g read, (∀ l, read l ≡ₚ l) → NoDup (tk_ordinal <$> goal_rows g s') →
      get_tasks read g (forget s') = GoalStore.get_tasks g s')
  ∧ (∀ t, task_execution t (forget s') = GoalStore.task_execution t s')
  ∧ (∀ g, events g (forget s') = GoalStore.events g s' ∧ repository_binding g (forget s') = GoalStore.repository_binding g s')
  ∧ (NoDup (goal_id <$> gs_goals s') → NoDup (g_created_at <$> gs_goals s') →
      list_goals (forget s') = rcast (map goal_row) (GoalStore.list_goals s')).
Proof.
  intros Hp H. split_and!.
  - revert s bs H. induction Hp as [|[op now] ops Hop _ IH]; intros s bs H; [by injection H as <- <-|].
    simpl in H. apply mbind_ok in H as (b & s1 & H1 & (bs' & s2 & H2 & [= <- ->])%mbind_ok).
    simpl. rewrite (mbind_step _ _ _ b (forget s1)); [|by rewrite pg_call_follows, H1].
    by rewrite (mbind_step _ _ _ bs' (forget s')); [|apply IH].
  - intros g. unfold get_goal, GoalStore.get_goal. rewrite find_forget.
    destruct (List.find (is_goal g) (gs_goals s')) as [x|]; [|done]. cbn [fmap option_fmap option_map].
    rewrite goal_of_row. unfold rcast. by destruct (validate_goal x).
  - intros g read. apply get_tasks_follows.
  - done.
  - done.
  - apply list_goals_follows.
Qed.

(** A call that SQLite refuses is refused by PostgreSQL with the same exception, and leaves
    nothing behind there: a plan is stored whole or not at all, while SQLite keeps the rows
    it had inserted before the one that failed. *)
Theorem refused_calls_leave_nothing op now s e s' : plain_call op = true →
  sqlite_call op now s = (Raise e, s') → pg_call op now (forget s) = (Raise e, forget s).
Proof. intros Hp H. by rewrite pg_call_follows, H. Qed.

(** ** Examples *)

Definition folder_goal : GoalContract := mk_Goal 7 "user" "build it" (Some "/work/build-it") (1#2)%Q g_planning None 5.
Definition demo_calls : list (gop * time) :=
  [(GCreate folder_goal, 1); (GPlan 7 [mk_Project 31 7 "p" ""] demo_plan (3#4)%Q false, 2);
   (GClaim 7, 3); (GTask 21 [F_status t_running; F_confidence (JFloat (1#2)%Q)], 4); (GClaim 7, 5)].

Lemma postgres_goals_agree_witness :
  let s' := (mmapM (λ on : gop * time, sqlite_call on.1 on.2) demo_calls empty_gstore).2 in
  (mmapM (λ on : gop * time, pg_call on.1 on.2) demo_calls (forget empty_gstore)).1 = Ok [true; true; true; true; false]
  ∧ get_goal 7 (forget s') = Ok (Some (mk_Goal 7 "user" "build it" None (1#2)%Q g_running (Some (3#4)%Q) 5)).
Proof.
  intros s'. unshelve epose proof (postgres_goals_agree demo_calls empty_gstore [true; true; true; true; false] s' _ _) as (H & Hg & _).
  - repeat constructor.
  - by vm_compute.
  - split; [by rewrite H|]. rewrite Hg. by vm_compute.
Defined.

(** The folder a goal was created with is not read back. *)
Example the_folder_is_lost :
  GoalStore.get_goal 7 (GoalStore.create_goal folder_goal empty_gstore).2 = Ok (Some folder_goal)
  ∧ get_goal 7 (create_goal folder_goal empty_gstore).2 = Ok (Some (goal_row folder_goal))
  ∧ goal_row folder_goal ≠ folder_goal.
Proof. by vm_compute. Qed.

(** A plan with one task twice: SQLite keeps the project and the first task. *)
Definition twice : gop := GPlan 7 [mk_Project 31 7 "p" ""] (take 1 demo_plan ++ take 1 demo_plan) (3#4)%Q false.

Lemma refused_calls_leave_nothing_witness :
  pg_call twice 2 (forget empty_gstore) = (Raise IntegrityError, forget empty_gstore)
  ∧ length (gs_tasks (sqlite_call twice 2 empty_gstore).2) = 1%nat.
Proof.
  split; [|by vm_compute]. eapply (refused_calls_leave_nothing twice 2 empty_gstore IntegrityError); by vm_compute.
Defined.
