(* ===== verification/PostgresShared.v ===== *)
(** core/storage/postgres_shared.py: the review queue, the task log and the artifact
    store on PostgreSQL, over the tables of [ReviewQueue], [TaskLog] and [Artifacts].

    PostgreSQL checks the types of a statement before it runs it: which values a column
    takes and which types can be compared are arguments ([assigns], [compares]), as are
    the text of an instant and its reading. A [with self.engine.begin()] block is a
    transaction; payloads are outside it. *)

From S2P Require Import Prelude.
From S2P Require Import PyStr.
From S2P Require Import PyTime.
From S2P Require Import Json.
From S2P Require Import RoutingState.
From S2P Require Import Artifacts.
From S2P Require Import ReviewQueue.
From S2P Require Import TaskLog.
Open Scope Z_scope.

(** The types of the parameters the driver sends and of the columns. *)
Inductive sql_type :=
  | sql_integer | sql_double | sql_text | sql_boolean | sql_timestamptz | sql_unknown.

(** Of a text parameter and of a null: literals without a type of their own. *)
Definition opt_type {A} (t : sql_type) (o : option A) : sql_type :=
  match o with Some _ => t | None => sql_unknown end.

Section Postgres.
Context (assigns compares : sql_type → sql_type → bool).
Context (show_time : time → string) (read_time : string → option time).

Definition well_typed (params : list (sql_type * sql_type)) : bool :=
  forallb (λ vc, assigns vc.1 vc.2) params.

(** ** PostgresReviewQueue *)

(** INSERT ... ON CONFLICT (task_id) DO NOTHING. *)
Definition pg_enqueue (task_id : string) (task_type confidence payload : json) (skill_id : string)
    (agent_id : json) (agent_output : option jdict) (sla_deadline goal_id planned_task_id attempt_id :
    option string) (now : time) (q : queue) : queue :=
  let row := mk_review task_id task_type skill_id agent_id (JObj (or_else agent_output [])) sla_deadline
    confidence payload "pending" now None None goal_id planned_task_id attempt_id in
  if bool_decide (task_id ∈ rv_task_id <$> q) then q else q ++ [row].

(** ORDER BY COALESCE(sla_deadline, '9999'), created_at, of the rows as they are read. *)
Definition pg_get_pending (read : queue → queue) (q : queue) : list review :=
  py_sorted pending_leb (List.filter (λ r, String.eqb (rv_status r) "pending") (read q)).

Definition pg_get_by_task_id (t : string) (q : queue) : option review :=
  List.find (λ r, String.eqb (rv_task_id r) t) q.

Definition pg_resolve (t new_status : string) (notes : option string) (now : time) (q : queue) : bool * queue :=
  let where_ r := String.eqb (rv_task_id r) t && String.eqb (rv_status r) "pending" in
  let set_ r := mk_review (rv_task_id r) (rv_task_type r) (rv_skill_id r) (rv_agent_id r) (rv_agent_output r)
    (rv_sla_deadline r) (rv_confidence r) (rv_payload r) new_status (rv_created r) (Some now) notes
    (rv_goal_id r) (rv_planned_task_id r) (rv_attempt_id r) in
  (0 <? Z.of_nat (length (List.filter where_ q)), map (λ r, if where_ r then set_ r else r) q).

(** [get_stats]: the deadline is a text and the instant is not. *)
Definition pg_get_stats (now : time) (q : queue) : result stats :=
  let counts st := length (List.filter (λ r, String.eqb (rv_status r) st) q) in
  let oldest := head (py_sorted Z.leb (rv_created <$> List.filter (λ r, String.eqb (rv_status r) "pending") q)) in
  rguard (compares sql_text sql_timestamptz) ProgrammingError;;
  let breached := length (List.filter (λ r, String.eqb (rv_status r) "pending" &&
    match rv_sla_deadline r with
    | Some s => match read_time s with Some t => t <? now | None => false end
    | None => false
    end) q) in
  Ok (mk_stats (counts "pending") (counts "approved") (counts "accepted") (counts "rejected")
    ((λ t, Z.quot (now - t) 60000000) <$> oldest) breached).

(** ** PostgresTaskLog *)

(** The parameters of [write] against the columns of tasks: [escalated_to_human] is an INTEGER. *)
Definition write_params (s : AndromedaState) : list (sql_type * sql_type) :=
  [(sql_unknown, sql_text); (sql_unknown, sql_text); (sql_unknown, sql_text); (sql_unknown, sql_text);
   (opt_type sql_double (s_confidence s), sql_double); (sql_integer, sql_integer); (sql_boolean, sql_integer);
   (sql_unknown, sql_text); (sql_unknown, sql_text); (sql_unknown, sql_text); (sql_unknown, sql_text); (sql_unknown, sql_text)].

Definition pg_write (s : AndromedaState) : M (list log_row) unit :=
  mguard (well_typed (write_params s)) ProgrammingError;;
  mmodify (upsert (row_of_state s)).

(** ORDER BY issued_at DESC LIMIT 1, of the rows as they are read: nulls come first. *)
Definition pg_issued_leb (a b : log_row) : bool :=
  match l_issued a, l_issued b with
  | None, _ => true
  | Some _, None => false
  | Some x, Some y => str_leb y x
  end.

Definition pg_get (read : list log_row → list log_row) (task : string) (t : list log_row) : option log_row :=
  head (py_sorted pg_issued_leb (List.filter (λ r, String.eqb (l_task r) task) (read t))).

(** [update_status]: ON CONFLICT (task_id, status) DO NOTHING. *)
Definition pg_update_status (task : string) (task_type : option string) (new_status : string) (now : time) :
    M (list log_row) unit :=
  mguard (well_typed [(sql_unknown, sql_text); (sql_unknown, sql_text); (sql_unknown, sql_text);
    (sql_timestamptz, sql_text); (sql_timestamptz, sql_text); (sql_unknown, sql_text); (sql_unknown, sql_text);
    (sql_integer, sql_integer); (sql_integer, sql_integer)]) ProgrammingError;;
  mmodify (λ t, let r := mk_log task task_type None new_status None 0 false None (Some (show_time now))
                           (Some (show_time now)) [] [] in
    if existsb (same_key r) t then t else t ++ [r]).

Definition pg_recent (read : list log_row → list log_row) (limit : Z) (t : list log_row) : result (list log_row) :=
  rguard (0 <=? limit) DataError;;
  Ok (take (Z.to_nat limit) (py_sorted pg_issued_leb (read t))).

(** [issued_at::timestamptz]: a text that is no instant is an error. *)
Definition issued_time (r : log_row) : result (option time) :=
  match l_issued r with
  | None => Ok None
  | Some s => t ← of_option DataError (read_time s); Ok (Some t)
  end.

Definition finished_row (r : log_row) : bool := bool_decide (l_status r ∈ ["complete"; "failed"; "escalated"]).

(** [throughput]: the hours, counted, in order. [bucket] is [to_char(date_trunc('hour', ..), ..)]. *)
Definition pg_throughput (bucket : time → string) (hours : Z) (now : time) (t : list log_row) :
    result (list (string * nat)) :=
  stamped ← rmap (λ r, i ← issued_time r; Ok (i, finished_row r)) t;
  let buckets := omap (λ tf : option time * bool, match tf with
    | (Some i, true) => if now - hours * 3600000000 <=? i then Some (bucket i) else None
    | _ => None
    end) stamped in
  Ok (map (λ b, (b, length (List.filter (String.eqb b) buckets))) (py_sorted str_leb (remove_dups buckets))).

Definition pg_log_stats (t : list log_row) : log_stats :=
  let counted st := length (List.filter (λ r, String.eqb (l_status r) st) t) in
  mk_log_stats (length t) (counted "complete") (counted "failed") (counted "escalated").
End Postgres.

(** ** PostgresArtifactStore *)

Section Store.
Context {O : Type} `{ObjectStorage O} (sha256 : string → string) (configured : bool).

Section Record_.
Context (workspace task_id skill : string) (attempt project org : option string).

Definition pg_attempt_key (key : string) : option string :=
  match attempt with
  | Some a => if truthy_str a then Some (a +:+ "::" +:+ key) else None
  | None => None
  end.

(** What the SELECTs of one iteration decide: an answer, or a version to write. *)
Inductive decision :=
  | Answer (r : recorded)
  | NewVersion (key : string) (version : Z) (filename content : string).

Definition attempt_row (ak : string) (m : gmap (string * Z) version_row) : option (string * Z) :=
  fst <$> List.find (λ kv, bool_decide (v_attempt_key kv.2 = Some ak)) (map_to_list m).

Definition decide_one (a : artifact) (m : gmap (string * Z) version_row) : result decision :=
  filename ← of_option KeyError (a_filename a);
  content ← of_option KeyError (a_content a);
  let key := workspace +:+ "::" +:+ filename in
  match pg_attempt_key key ≫= λ ak, attempt_row ak m with
  | Some (k, v) => Ok (Answer (mk_recorded k v false))
  | None =>
      let row := head (rows_of key m) in
      if match row with Some (_, r) => String.eqb (v_hash r) (sha256 content) | None => false end
      then Ok (Answer (mk_recorded key (from_option fst 0 row) false))
      else Ok (NewVersion key (from_option fst 0 row + 1) filename content)
  end.

(** The payload, the INSERT and, when it fails, the deletion of the payload. *)
Definition write_one (a : artifact) (now : time) (d : decision) : M (store O) recorded :=
  match d with
  | Answer r => mret r
  | NewVersion key v filename content =>
      md ← (if configured
            then md ← on_objects (put (key +:+ "/v" +:+ py_int v) content (a_media a)); mret (Some md)
            else mret None);
      insert_or_delete key v (mk_version (match md with Some _ => "" | None => content end) (sha256 content)
        filename (a_language a) (a_type a) task_id skill now (pg_attempt_key key) md project org);;
      mret (mk_recorded key v true)
  end.

Definition pg_record_one (a : artifact) (now : time) : M (store O) recorded :=
  s ← mget;
  d ← mlift (decide_one a (versions s));
  write_one a now d.

(** Each row carries the time it is written at. *)
Definition pg_record (artifacts : list (artifact * time)) : M (store O) (list recorded) :=
  with_conn (mmapM (λ an, pg_record_one an.1 an.2) artifacts).
End Record_.

(** DISTINCT ON (identity_key) ... ORDER BY identity_key, version DESC. *)
Definition pg_list_files (s : store O) : list ((string * Z) * version_row) :=
  first_per_key [] (py_sorted file_leb (map_to_list (versions s))).

Definition pg_history (key : string) (s : store O) : list (Z * version_row) := rows_of key (versions s).

Definition pg_get_version (key : string) (v : Z) (project org : option string) (s : store O) :
    result (option version_row) :=
  match versions s !! (key, v) with
  | None => Ok None
  | Some r =>
      match v_object r with
      | Some md =>
          if configured && truthy_str (om_id md) then
            authorize (v_project r) (v_org r) project org;;
            content ← os_get (om_id md) (objects s);
            Ok (Some (mk_version content (v_hash r) (v_filename r) (v_language r) (v_type r)
              (v_task_id r) (v_skill r) (v_created r) (v_attempt_key r) (v_object r)
              (v_project r) (v_org r)))
          else Ok (Some r)
      | None => Ok (Some r)
      end
  end.

(** MAX(version). *)
Definition pg_latest_version_number (key : string) (s : store O) : option Z :=
  head (py_sorted (λ a b, b <=? a)
    (omap (λ kv, if String.eqb kv.1.1 key then Some kv.1.2 else None) (map_to_list (versions s)))).

(** [diff]: the two texts compared, read without a scope. [unified] is difflib's. *)
Definition pg_diff (unified : string → string → string → string → string) (key : string) (from_ to_ : Z)
    (s : store O) : result string :=
  before ← pg_get_version key from_ None None s;
  after ← pg_get_version key to_ None None s;
  match before, after with
  | Some b, Some a =>
      Ok (unified (v_content b) (v_content a) (key +:+ "@v" +:+ py_int from_) (key +:+ "@v" +:+ py_int to_))
  | _, _ => Raise KeyError
  end.
End Store.

(** ** Theorems

    The review queue and the artifacts on PostgreSQL do what the SQLite ones do, outside
    the bookkeeping of attempts; the task log and the statistics of reviews do not pass
    PostgreSQL's type check; and the loser of a race to one version deletes the payload of
    the winner. *)

(** ** The review queue *)

Lemma existsb_count_pos {A} (w : A → bool) l : (0 <? Z.of_nat (length (List.filter w l))) = existsb w l.
Proof. induction l as [|x l IH]; [done|]. simpl. destruct (w x); [done|exact IH]. Qed.

(** The key of the order of pending reviews. *)
Definition pending_key (r : review) : string * time := (deadline r, rv_created r).

Lemma pending_leb_antisym a b : pending_leb a b = true → pending_leb b a = true → pending_key a = pending_key b.
Proof.
  rewrite !pending_leb_iff. unfold pending_key. intros [[H1 N1]|[E1 L1]] [[H2 N2]|[E2 L2]]; try congruence.
  - destruct N1. by apply str_leb_antisym.
  - f_equal; [done|lia].
Qed.

Lemma review_enqueue_agrees t tt c p sk a o sla g pt at_ now q :
  pg_enqueue t tt c p sk a o sla g pt at_ now q = rq_enqueue t tt c p sk a o sla g pt at_ now q.
Proof.
  unfold pg_enqueue, rq_enqueue. case_bool_decide as H; [rewrite (proj2 (existsb_task t q) H); done|].
  destruct (existsb (has_task t) q) eqn:E; [|done]. by apply existsb_task in E.
Qed.

Lemma resolve_agrees t st n now q : pg_resolve t st n now q = resolve_review t st n now q.
Proof.
  unfold pg_resolve, resolve_review. by rewrite existsb_count_pos.
Qed.

(** The review queue on PostgreSQL is the SQLite one. Queuing, deciding and looking up a
    review do the same; the pending reviews are the same, in the same order where no two
    of them have the same deadline and age, whatever order PostgreSQL reads them in. *)
Theorem postgres_reviews_agree q read : (∀ l, read l ≡ₚ l) →
  (∀ t tt c p sk a o sla g pt at_ now,
    pg_enqueue t tt c p sk a o sla g pt at_ now q = rq_enqueue t tt c p sk a o sla g pt at_ now q)
  ∧ (∀ t st n now, pg_resolve t st n now q = resolve_review t st n now q)
  ∧ (∀ t, pg_get_by_task_id t q = get_by_task_id t q)
  ∧ pg_get_pending read q ≡ₚ get_pending q
  ∧ (NoDup (pending_key <$> List.filter is_pending q) → pg_get_pending read q = get_pending q).
Proof.
  intros Hr. split_and!.
  - intros. apply review_enqueue_agrees.
  - intros. apply resolve_agrees.
  - done.
  - unfold pg_get_pending, get_pending. rewrite !py_sorted_perm. by apply filter_perm.
  - intros Hn. apply (py_sorted_once pending_key (λ a b, pending_leb a b = true)); try done.
    + by apply filter_perm.
    + apply pending_leb_antisym.
    + apply pending_leb_total.
    + apply pending_leb_trans.
    + apply pending_leb_total.
    + apply pending_leb_trans.
Qed.

(** ** What the types refuse *)

(** PostgreSQL takes no boolean for an integer and compares no text with an instant, so
    no state is ever logged there and the statistics of the reviews cannot be read. Every
    [write] of the task log raises and leaves the log as it was, and every [get_stats]
    raises, whatever the tables hold. *)
Theorem postgres_refuses_logs_and_statistics assigns compares read_time :
  assigns sql_boolean sql_integer = false → compares sql_text sql_timestamptz = false →
  (∀ s t, pg_write assigns s t = (Raise ProgrammingError, t))
  ∧ ∀ now q, pg_get_stats compares read_time now q = Raise ProgrammingError.
Proof.
  intros Ha Hc. split.
  - intros s t. unfold pg_write, well_typed, write_params, mbind, M_bind, mguard, mlift, rguard. cbn [forallb fst snd].
    by rewrite Ha, !andb_false_r.
  - intros now q. unfold pg_get_stats, rguard. by rewrite Hc.
Qed.

(** ** Artifacts *)

Section Agreement.
Context {O : Type} `{ObjectStorage O} (sha256 : string → string) (configured : bool).
Context (workspace task_id skill : string) (attempt project org : option string) (now : time).
Hypothesis no_attempt : or_else attempt "" = "".

(** A row as PostgreSQL stores it: without its text when the payload is elsewhere. *)
Definition blank_row (r : version_row) : version_row :=
  mk_version (match v_object r with Some _ => "" | None => v_content r end) (v_hash r) (v_filename r)
    (v_language r) (v_type r) (v_task_id r) (v_skill r) (v_created r) (v_attempt_key r) (v_object r)
    (v_project r) (v_org r).
Definition blank (s : store O) : store O := mk_store (blank_row <$> versions s) (links s) (objects s).

Lemma no_attempt_key key : attempt_key attempt key = None ∧ pg_attempt_key attempt key = None.
Proof. unfold attempt_key, pg_attempt_key. destruct attempt as [t|]; [|done]. simpl in no_attempt. by subst t. Qed.

Lemma latest_blank key m : head (rows_of key (blank_row <$> m)) = (λ vr, (vr.1, blank_row vr.2)) <$> head (rows_of key m).
Proof.
  destruct (head (rows_of key m)) as [[v r]|] eqn:E; destruct (head (rows_of key (blank_row <$> m))) as [[v' r']|] eqn:E'; simpl.
  - apply rows_head in E as [Hm Hmax]. apply rows_head in E' as [Hm' Hmax'].
    rewrite lookup_fmap in Hm'. destruct (m !! (key, v')) as [r0|] eqn:E0; simplify_eq/=.
    assert (Hv : v = v').
    { apply Hmax in E0. assert (v <= v'); [|lia]. eapply (Hmax' v (blank_row r)). by rewrite lookup_fmap, Hm. }
    subst v'. by simplify_eq.
  - apply rows_head in E as [Hm _]. eapply (rows_none _ _ v) in E'. rewrite lookup_fmap, Hm in E'. done.
  - apply rows_head in E' as [Hm _]. eapply (rows_none _ _ v') in E. by rewrite lookup_fmap, E in Hm.
  - done.
Qed.

(** The same outcome, on tables without the texts. *)
Definition blanks {A} (m m' : M (store O) A) : Prop := ∀ s, m' (blank s) = ((m s).1, blank (m s).2).

Lemma blanks_bind {A B} (m m' : M (store O) A) (k k' : A → M (store O) B) :
  blanks m m' → (∀ a, blanks (k a) (k' a)) → blanks (m ≫= k) (m' ≫= k').
Proof. intros Hm Hk s. unfold mbind, M_bind. rewrite Hm. destruct (m s) as [[a|e] s']; [apply Hk|done]. Qed.

Lemma blanks_pure {A} (r : result A) : blanks (mlift r) (mlift r).
Proof. by intros s. Qed.

Lemma blanks_objects {A} (m : M O A) : blanks (on_objects m) (on_objects m).
Proof. intros s. unfold on_objects. simpl. by destruct (m (objects s)). Qed.

Lemma insert_blanks key v r : v_attempt_key r = None → blanks (insert_version key v r) (insert_version key v (blank_row r)).
Proof.
  intros Hk s. unfold insert_version. rewrite Hk. change (v_attempt_key (blank_row r)) with (v_attempt_key r). rewrite Hk.
  unfold mbind, M_bind, mget, mguard, mlift, rguard, mmodify. simpl. rewrite lookup_fmap.
  rewrite !andb_true_r. destruct (versions s !! (key, v)) as [r0|] eqn:E.
  - by rewrite !bool_decide_eq_false_2.
  - rewrite !bool_decide_eq_true_2 by done. unfold blank, set_versions. simpl. by rewrite fmap_insert.
Qed.

Lemma insert_or_delete_blanks key v r : v_attempt_key r = None →
  blanks (insert_or_delete key v r) (insert_or_delete key v (blank_row r)).
Proof.
  intros Hk s. unfold insert_or_delete. rewrite (insert_blanks key v r Hk s).
  change (v_object (blank_row r)) with (v_object r).
  destruct (insert_version key v r s) as [[u|e] s']; [done|]. cbn [fst snd]. destruct (v_object r) as [md|]; [|done].
  apply (blanks_bind _ _ _ _ (blanks_objects _) (λ _, blanks_pure (Raise e))).
Qed.

(** The payload and the row of a new version. *)
Definition put_row (a : artifact) (key : string) (v : Z) (filename content : string) (text : option ObjectMetadata → string) : M (store O) recorded :=
  md ← (if configured then md ← on_objects (put (key +:+ "/v" +:+ py_int v) content (a_media a)); mret (Some md)
        else mret None);
  insert_or_delete key v (mk_version (text md) (sha256 content) filename (a_language a) (a_type a) task_id skill now
    None md project org);;
  mret (mk_recorded key v true).

Lemma put_row_blanks a key v f c :
  blanks (put_row a key v f c (λ _, c)) (put_row a key v f c (λ md, match md with Some _ => "" | None => c end)).
Proof.
  apply blanks_bind.
  - destruct configured; [|apply (blanks_pure (Ok None))].
    apply blanks_bind; [apply blanks_objects|]. intros md. apply (blanks_pure (Ok (Some md))).
  - intros md. apply blanks_bind; [|intros u; apply (blanks_pure (Ok _))].
    refine (insert_or_delete_blanks key v (mk_version c _ _ _ _ _ _ _ _ _ _ _) _). done.
Qed.

Lemma decide_value a f c m : a_filename a = Some f → a_content a = Some c →
  let key := identity_key workspace f in let row := head (rows_of key m) in
  decide_one sha256 workspace attempt a m =
    (if match row with Some (_, r) => String.eqb (v_hash r) (sha256 c) | None => false end
     then Ok (Answer (mk_recorded key (from_option fst 0 row) false))
     else Ok (NewVersion key (from_option fst 0 row + 1) f c)).
Proof.
  intros Ef Ec. unfold decide_one. rewrite Ef, Ec. cbn. unfold identity_key.
  by rewrite (proj2 (no_attempt_key (workspace +:+ "::" +:+ f))).
Qed.

Lemma record_one_value a f c s : a_filename a = Some f → a_content a = Some c →
  let key := identity_key workspace f in let row := head (rows_of key (versions s)) in
  record_one sha256 configured workspace task_id skill attempt project org now a s =
    (if match row with Some (_, r) => String.eqb (v_hash r) (sha256 c) | None => false end
     then (Ok (mk_recorded key (from_option fst 0 row) false), s)
     else put_row a key (from_option fst 0 row + 1) f c (λ _, c) s).
Proof.
  intros Ef Ec key row. unfold record_one. rewrite Ef, Ec.
  rewrite (mbind_step _ _ s f s), (mbind_step _ _ s c s), (mbind_step mget _ s s s) by done.
  fold key. rewrite (proj1 (no_attempt_key key)). cbn [mbind option_bind]. fold row.
  by destruct (match row with Some _ => _ | None => _ end).
Qed.

Lemma record_one_blanks a :
  blanks (record_one sha256 configured workspace task_id skill attempt project org now a)
    (pg_record_one sha256 configured workspace task_id skill attempt project org a now).
Proof.
  intros s. destruct (a_filename a) as [f|] eqn:Ef; [|by unfold record_one, pg_record_one, decide_one; rewrite Ef].
  destruct (a_content a) as [c|] eqn:Ec; [|by unfold record_one, pg_record_one, decide_one; rewrite Ef, Ec].
  rewrite (record_one_value a f c s Ef Ec). unfold pg_record_one.
  rewrite (mbind_step mget _ (blank s) (blank s) (blank s)) by done.
  rewrite (decide_value a f c _ Ef Ec). cbn [versions blank]. rewrite latest_blank.
  set (key := identity_key workspace f). set (row := head (rows_of key (versions s))).
  assert (Ev : from_option fst 0 ((λ vr, (vr.1, blank_row vr.2)) <$> row) = from_option fst 0 row) by by destruct row as [[? ?]|].
  rewrite Ev. assert (Eh : match (λ vr, (vr.1, blank_row vr.2)) <$> row with Some (_, r) => String.eqb (v_hash r) (sha256 c) | None => false end
    = match row with Some (_, r) => String.eqb (v_hash r) (sha256 c) | None => false end) by by destruct row as [[? ?]|].
  rewrite Eh. destruct (match row with Some _ => _ | None => _ end); [done|].
  rewrite (mbind_step (mlift (Ok _)) _ _ _ _ eq_refl). unfold write_one.
  rewrite (proj2 (no_attempt_key key)). apply put_row_blanks.
Qed.
End Agreement.

(** Artifacts recorded outside an attempt are recorded on PostgreSQL as on SQLite. [record]
    has the same outcome and leaves the same tables, without the texts whose payloads are in
    the object storage, and the same payloads; a version is then read with the same result,
    a refusal of its scope included. *)
Theorem postgres_artifacts_agree {O} `{ObjectStorage O} sha configured ws task sk attempt project org now arts
    (s : store O) : or_else attempt "" = "" →
  let r := record sha configured ws task sk attempt project org now arts s in
  pg_record sha configured ws task sk attempt project org (map (λ a, (a, now)) arts) (blank s) = (r.1, blank r.2)
  ∧ ∀ key v p o, (∀ row md, versions r.2 !! (key, v) = Some row → v_object row = Some md →
        configured && truthy_str (om_id md) = true) →
      pg_get_version configured key v p o (blank r.2) = get_version configured key v p o r.2.
Proof.
  intros Hat r. split.
  - assert (Hb : blanks (mmapM (record_one sha configured ws task sk attempt project org now) arts)
        (mmapM (λ an : artifact * time, pg_record_one sha configured ws task sk attempt project org an.1 an.2)
          (map (λ a, (a, now)) arts))).
    { induction arts as [|a l IH]; [apply (blanks_pure (Ok []))|].
      apply blanks_bind; [by apply record_one_blanks|]. intros b. apply blanks_bind; [exact IH|].
      intros bs. apply (blanks_pure (Ok _)). }
    unfold r, record, pg_record, with_conn. rewrite Hb. by destruct (mmapM _ _ s) as [[x|e] s'].
  - intros key v p o Hmd. unfold pg_get_version, get_version. cbn [versions blank]. rewrite lookup_fmap.
    destruct (versions r.2 !! (key, v)) as [row|] eqn:E; [|done]. cbn [fmap option_fmap option_map].
    change (v_object (blank_row row)) with (v_object row).
    destruct (v_object row) as [md|] eqn:Em; [by rewrite (Hmd row md)|]. unfold blank_row. rewrite Em. by destruct row; simpl in Em; subst.
Qed.

(** ** A race *)

Lemma object_id_truthy key v : truthy_str (key +:+ "/v" +:+ v) = true.
Proof. by destruct key. Qed.

Lemma write_new_ok {O} `{ObjectStorage O} sha task sk attempt project org a now key v f c (s s' : store O) r :
  write_one sha true task sk attempt project org a now (NewVersion key v f c) s = (Ok r, s') →
  ∃ row md o, put (key +:+ "/v" +:+ py_int v) c (a_media a) (objects s) = (Ok md, o)
    ∧ versions s' = <[(key, v) := row]> (versions s) ∧ v_object row = Some md.
Proof.
  unfold write_one. intros (md0 & s1 & Hp & (u & s2 & Hi & [= <- <-])%mbind_ok)%mbind_ok.
  apply mbind_ok in Hp as (md & s3 & Hp & [= <- <-]). unfold on_objects in Hp.
  destruct (put _ _ _ _) as [[m|e] o] eqn:Eo; [|done]. injection Hp as -> <-.
  apply insert_or_delete_ok in Hi as ->. by eexists _, md, o.
Qed.

(** The loser of a race to one version deletes the payload of the winner. Two writers of
    one file both find the same latest version and choose the same next one, whose payload
    has one id. After the first commits, the second overwrites the payload, its INSERT meets
    the primary key, and it deletes the payload: the committed version can be read by nobody
    any more. *)
Theorem a_lost_race_deletes_the_payload {O} `{ObjectStorageLaws O} sha ws t1 k1 at1 p1 o1 t2 k2 at2 p2 o2 now1 now2
    a1 a2 (s s1 s2 : store O) key v f1 c1 f2 c2 r1 x md o d :
  decide_one sha ws at1 a1 (versions s) = Ok (NewVersion key v f1 c1) →
  decide_one sha ws at2 a2 (versions s) = Ok (NewVersion key v f2 c2) →
  with_conn (write_one sha true t1 k1 at1 p1 o1 a1 now1 (NewVersion key v f1 c1)) s = (Ok r1, s1) →
  with_conn (write_one sha true t2 k2 at2 p2 o2 a2 now2 (NewVersion key v f2 c2)) s1 = (x, s2) →
  put (key +:+ "/v" +:+ py_int v) c2 (a_media a2) (objects s1) = (Ok md, o) →
  os_delete (key +:+ "/v" +:+ py_int v) o = (Ok tt, d) →
  (∀ c, os_get (key +:+ "/v" +:+ py_int v) d ≠ Ok c) →
  x = Raise IntegrityError ∧ is_Some (versions s2 !! (key, v)) ∧ ∀ p g row, pg_get_version true key v p g s2 ≠ Ok row.
Proof.
  intros Hd1 Hd2 Hw Hl Hput Hdel Hgone.
  apply (proj1 (with_conn_ok _ _ _ _)) in Hw.
  apply (write_new_ok sha) in Hw as (row1 & md1 & ob1 & Hp1 & Hv1 & Hr1).
  assert (Em1 : om_id md1 = key +:+ "/v" +:+ py_int v) by by apply (put_get _ _ _ _ _ _ Hp1).
  assert (Em : om_id md = key +:+ "/v" +:+ py_int v) by by apply (put_get _ _ _ _ _ _ Hput).
  assert (Hloser : write_one sha true t2 k2 at2 p2 o2 a2 now2 (NewVersion key v f2 c2) s1 =
    (Raise IntegrityError, mk_store (versions s1) (links s1) d)).
  { unfold write_one. rewrite (mbind_step _ _ s1 (Some md) (mk_store (versions s1) (links s1) o)).
    2: { rewrite (mbind_step _ _ s1 md (mk_store (versions s1) (links s1) o)); [done|]. unfold on_objects. by rewrite Hput. }
    unfold mbind at 1, M_bind at 1, insert_or_delete.
    assert (Hins : ∀ r, insert_version key v r (mk_store (versions s1) (links s1) o) = (Raise IntegrityError, mk_store (versions s1) (links s1) o)).
    { intros r. unfold insert_version. rewrite (mbind_step mget _ _ _ _ eq_refl). unfold mbind, M_bind, mguard, mlift, rguard.
      cbn [versions]. by rewrite Hv1, lookup_insert_eq. }
    rewrite Hins. cbn [v_object]. unfold mbind, M_bind, on_objects. cbn [objects]. by rewrite Em, Hdel. }
  unfold with_conn in Hl. rewrite Hloser in Hl. injection Hl as <- <-. cbn [versions links objects].
  split_and!; [done|by rewrite Hv1, lookup_insert_eq|]. intros p g row. unfold pg_get_version. cbn [versions].
  rewrite Hv1, lookup_insert_eq, Hr1, Em1, object_id_truthy. cbn [andb objects]. intros Hg.
  apply rbind_ok in Hg as ([] & _ & Hg). apply rbind_ok in Hg as (c & Hc & _). by apply (Hgone c).
Qed.

(** ** Examples *)

Definition pg_assigns (value column : sql_type) : bool :=
  match value, column with
  | sql_unknown, _ | sql_integer, sql_integer | sql_integer, sql_double | sql_double, sql_double
  | _, sql_text => true
  | _, _ => false
  end.
Definition pg_compares (a b : sql_type) : bool :=
  match a, b with
  | sql_text, sql_text | sql_timestamptz, sql_timestamptz | sql_unknown, _ | _, sql_unknown => true
  | _, _ => false
  end.

Lemma postgres_refuses_logs_and_statistics_witness :
  pg_write pg_assigns (initial_state demo_request "received" "i1") [] = (Raise ProgrammingError, [])
  ∧ pg_get_stats pg_compares (λ _, None) 5 demo_review = Raise ProgrammingError.
Proof.
  split.
  - by apply (postgres_refuses_logs_and_statistics pg_assigns pg_compares (λ _, None)).
  - by apply (postgres_refuses_logs_and_statistics pg_assigns pg_compares (λ _, None)).
Defined.

(** The row [update_status] writes does pass. *)
Example an_update_passes :
  length (pg_update_status pg_assigns iso "t1" None "cancelled" 5 []).2 = 1%nat.
Proof. by vm_compute. Qed.

Definition two_pending : queue :=
  rq_enqueue "t2" JNull JNull JNull "s" JNull None None None None None 3 demo_review.

Lemma postgres_reviews_agree_witness : pg_get_pending (rev (A:=review)) two_pending = get_pending two_pending
  ∧ length (get_pending two_pending) = 2%nat.
Proof.
  split; [|by vm_compute].
  apply (postgres_reviews_agree two_pending (rev (A:=review))).
  - intros l. symmetry. apply Permutation_rev.
  - solve_nodup.
Defined.

#[local] Instance race_storage : ObjectStorage filesystem := local_storage demo_sha (λ _, None) (mk_local ["srv"] 1000).
#[local] Instance race_laws : ObjectStorageLaws filesystem := local_storage_laws demo_sha (λ _, None) (mk_local ["srv"] 1000).

Lemma postgres_artifacts_agree_witness :
  let r := record demo_sha true "ws" "t" "sk" None None None 5 [demo_artifact "a.py" "x"; demo_artifact "b.py" "y"] empty_store in
  (pg_record demo_sha true "ws" "t" "sk" None None None
    (map (λ a, (a, 5)) [demo_artifact "a.py" "x"; demo_artifact "b.py" "y"]) (blank empty_store)).1 = r.1
  ∧ rec_version <$> (match r.1 with Ok l => l | Raise _ => [] end) = [1; 1].
Proof.
  intros r. split; [|by vm_compute].
  by rewrite (proj1 (postgres_artifacts_agree demo_sha true "ws" "t" "sk" None None None 5
    [demo_artifact "a.py" "x"; demo_artifact "b.py" "y"] empty_store eq_refl)).
Defined.

(** Two writers of the second version of a file. *)
Definition race_start : store filesystem :=
  (pg_record demo_sha true "ws" "t" "sk" None None None [(demo_artifact "a.py" "x", 1)] empty_store).2.
Definition race_write (c : string) (s : store filesystem) : result recorded * store filesystem :=
  with_conn (write_one demo_sha true "t" "sk" None None None (demo_artifact "a.py" c) 2 (NewVersion "ws::a.py" 2 "a.py" c)) s.

Lemma a_lost_race_deletes_the_payload_witness :
  let s2 := (race_write "z" (race_write "y" race_start).2).2 in
  is_Some (versions s2 !! ("ws::a.py", 2)) ∧ ∀ p g row, pg_get_version true "ws::a.py" 2 p g s2 ≠ Ok row.
Proof.
  intros s2. eapply (a_lost_race_deletes_the_payload demo_sha "ws" "t" "sk" None None None "t" "sk" None None None 2 2
    (demo_artifact "a.py" "y") (demo_artifact "a.py" "z") race_start (race_write "y" race_start).2 s2 "ws::a.py" 2 "a.py" "y" "a.py" "z").
  - by vm_compute.
  - by vm_compute.
  - by vm_compute.
  - by vm_compute.
  - by vm_compute.
  - by vm_compute.
  - intros c. by vm_compute.
Defined.

(** An attempt whose artifact was unchanged is not remembered: replayed after another
    version it writes a third, where SQLite answers with the first. *)
Definition replayed (rec_ : option string → string → time → store filesystem → store filesystem) : store filesystem :=
  rec_ (Some "a1") "x" 4 (rec_ None "y" 3 (rec_ (Some "a1") "x" 2 (rec_ None "x" 1 empty_store))).
Definition sqlite_rec (at_ : option string) (c : string) (now : time) (s : store filesystem) : store filesystem :=
  (record demo_sha false "ws" "t" "sk" at_ None None now [demo_artifact "a.py" c] s).2.
Definition postgres_rec (at_ : option string) (c : string) (now : time) (s : store filesystem) : store filesystem :=
  (pg_record demo_sha false "ws" "t" "sk" at_ None None [(demo_artifact "a.py" c, now)] s).2.

Example replayed_attempts_make_new_versions :
  latest_version_number "ws::a.py" (replayed sqlite_rec) = Some 2
  ∧ pg_latest_version_number "ws::a.py" (replayed postgres_rec) = Some 3.
Proof. by vm_compute. Qed.
