(* ===== verification/AgentLoader.v ===== *)
(** core/agent_loader.py: agents defined by YAML files, which are prompts around one call
    of the language model for each step of a skill; and the table of agents boot.py makes
    of them.

    The readings of YAML, of the provider's configuration and of pydantic (which numbers
    it takes) are arguments, as is the model, whose calls change a state. *)

From S2P Require Import Prelude.
From S2P Require Import PyStr.
From S2P Require Import PyTime.
From S2P Require Import Json.
From S2P Require Import PyDict.
From S2P Require Import Contracts.
From S2P Require Import Registry.
From S2P Require Import A2A.
From S2P Require Import Wormhole.
From S2P Require Import Planner.
From S2P Require Import Provider.
Open Scope Z_scope.

(** ** Text *)

(** [_render]: the variables one after another. *)
Definition render (py_str : json → string) (template : string) (vars : jdict) : string :=
  foldl (λ res kv, py_replace res ("{" +:+ kv.1 +:+ "}")
    (match kv.2 with JStr s => s | v => py_str v end)) template vars.

(** [_strip_fences]. *)
Definition strip_fences (text : string) : string :=
  let text := strip text in
  if negb (startswith text "```") then text
  else
    let lines := splitlines text in
    let end_ := if String.eqb (strip (List.last lines "")) "```" then (length lines - 1)%nat else length lines in
    strip (join Planner.newline (drop 1 (take end_ lines))).

(** ** An agent *)

(** [cfg\["k"\]]. *)
Definition item (k : string) (d : jdict) : result json := of_option KeyError (obj_get k d).

Record generic_agent := mk_generic {
  ga_cfg : jdict;
  ga_provider : ProviderConfig;
  ga_id : json;
  ga_name : json;
  ga_version : json;
  ga_skills : list (string * jdict) }.

Section Loader.
Context {X : Type} (call_llm : ProviderConfig → list jdict → json → M X (option string)).
Context (py_str : json → string) (model_dump : SkillManifest → json).
(** pydantic: the text, the number and the integer it reads. *)
Context (read_str : json → result string) (read_float : json → result Q) (read_int : json → result Z).

(** [{s\["skill_id"\]: s for s in ..}]: a later entry replaces an earlier one. *)
Fixpoint skill_table (d : list (string * jdict)) (l : list json) : result (list (string * jdict)) :=
  match l with
  | [] => Ok d
  | v :: l =>
      s ← of_option TypeError (as_dict v);
      i ← item "skill_id" s;
      match i with
      | JStr id => skill_table (assoc_set id s d) l
      | _ => Raise TypeError
      end
  end.

(** One [SkillDefinition(...)] of [_register_manifest]. *)
Definition skill_definition (v : json) : result SkillDefinition :=
  s ← of_option TypeError (as_dict v);
  i ← item "skill_id" s; i ← read_str i;
  d ← item "description" s; d ← read_str d;
  c ← read_float (obj_default "avg_confidence" (JFloat (8 # 10)) s);
  ms ← read_int (obj_default "avg_latency_ms" (JInt 1000) s);
  validate_skill (mk_Skill i d [] [] c ms None).

(** [SkillManifest(...)]; [metadata] is not one of its fields and is dropped. *)
Definition manifest_of (id name version_ : json) (defs : list SkillDefinition) (now : time) : result SkillManifest :=
  i ← read_str id; i' ← validate_non_empty_str i;
  n ← read_str name; n ← validate_non_empty_str n;
  v ← read_str version_; v ← validate_non_empty_str v;
  h ← validate_non_empty_str ("http://" +:+ (match id with JStr s => s | _ => py_str id end) +:+ ":8000/health");
  Ok (mk_Manifest i' n v defs h now 30).

(** [GenericLLMAgent.__init__]: the agent, and the registry with its manifest. *)
Definition generic_init (provider : result ProviderConfig) (now : time) (cfg : jdict) (r : registry) :
    result (generic_agent * registry) :=
  p ← provider;
  id ← item "agent_id" cfg;
  name ← item "agent_name" cfg;
  let version_ := obj_default "version" (JStr "0.1.0") cfg in
  sk ← item "skills" cfg; l ← py_iter sk;
  table ← skill_table [] l;
  defs ← rmap skill_definition l;
  m ← manifest_of id name version_ defs now;
  Ok (mk_generic cfg p id name version_ table, register model_dump m r).

(** [_render] of a value of the file: only a text has [replace]. *)
Definition rendered (v : json) (vars : jdict) : result json :=
  match v, vars with
  | JStr s, _ => Ok (JStr (render py_str s vars))
  | _, [] => Ok v
  | _, _ => Raise AttributeError
  end.

(** One step of [run]: a call of the model and the artifact made of its answer. *)
Definition run_step (g : generic_agent) (vars : jdict) (step : json) : M X jdict :=
  step ← mlift (of_option AttributeError (as_dict step));
  system ← mlift (rendered (obj_default "system" (JStr "") step) vars);
  user ← mlift (rendered (obj_default "user" (JStr "") step) vars);
  text ← call_llm (ga_provider g) [[("role", JStr "user"); ("content", user)]] system;
  text ← mlift (of_option AttributeError text);
  let text := if truthy (obj_default "strip_fences" (JBool false) step) then strip_fences text else strip text in
  filename ← mlift (rendered (obj_default "artifact_filename" (JStr "output.txt") step) vars);
  mret [("filename", filename); ("content", JStr text);
        ("language", obj_default "artifact_language" (JStr "text") step);
        ("artifact_type", obj_default "artifact_type" (JStr "report") step)].

Definition generic_answer (skill : jdict) (summary : json) (artifacts : list jdict) : jdict :=
  let avg := obj_default "avg_confidence" (JFloat (8 # 10)) skill in
  [("artifacts", JArr (map JObj artifacts)); ("summary", summary);
   ("writable", obj_default "writable" (JBool false) skill); ("confidence", avg);
   ("confidence_breakdown", JObj [("structural", avg); ("self_critique", avg); ("historical", JFloat (1 # 2))]);
   ("gaps", JArr []); ("execution_result", JNull); ("externally_calibrated", JBool false)].

(** [run]. *)
Definition generic_run (g : generic_agent) (skill_id_ : string) (payload : jdict) : M X jdict :=
  skill ← mlift (of_option ValueError (assoc_get skill_id_ (ga_skills g)));
  defaults ← mlift (of_option TypeError (as_dict (obj_default "payload_defaults" (JObj []) skill)));
  let vars := dict_merge defaults payload in
  let steps := obj_default "steps" (JArr []) skill in
  mguard (truthy steps) ValueError;;
  steps ← mlift (py_iter steps);
  artifacts ← mmapM (run_step g vars) steps;
  let tpl := obj_default "summary_template" (JStr "") skill in
  summary ← mlift (if truthy tpl then rendered tpl vars else Ok (JStr ""));
  mret (generic_answer skill summary artifacts).

(** ** Loading *)

(** One file of the directory: [yaml.safe_load] of its text, and the agent of it. *)
Definition load_one (provider : result ProviderConfig) (now : time) (file : result json)
    (acc : list (string * generic_agent) * registry) : list (string * generic_agent) * registry :=
  match (cfg ← file; cfg ← of_option TypeError (as_dict cfg); generic_init provider now cfg acc.2) with
  | Ok (g, r) =>
      match ga_id g with
      | JStr id => (assoc_set id g acc.1, r)
      | _ => (acc.1, r)
      end
  | Raise _ => acc
  end.

(** [load_yaml_agents]: the files in the order of their names; one that fails is skipped. *)
Definition load_yaml_agents (provider : result ProviderConfig) (now : time)
    (dir : option (list (string * result json))) (r : registry) : list (string * generic_agent) * registry :=
  match dir with
  | None => ([], r)
  | Some files => foldl (λ acc f, load_one provider now f.2 acc) ([], r) (py_sorted (λ a b, str_leb a.1 b.1) files)
  end.
End Loader.

(** ** boot.py *)

(** The agents Andromeda gets: a later entry of the same id replaces an earlier one. *)
Definition boot_agents {A} (rigel vega : string * A) (yaml quasar wormhole : list (string * A)) : list (string * A) :=
  foldl (λ d ka, assoc_set ka.1 ka.2 d) [] ([rigel; vega] ++ yaml ++ quasar ++ wormhole).

(** ** What the agents offer and answer *)

Lemma dict_get_set k k' m d : dict_get k (dict_set k' m d) = if String.eqb k k' then Some m else dict_get k d.
Proof.
  induction d as [|[k1 m1] d IH]; simpl; [done|]. destruct (String.eqb_spec k' k1) as [->|Hne]; simpl.
  - by destruct (String.eqb_spec k k1).
  - rewrite IH. destruct (String.eqb_spec k k1) as [->|]; [|done].
    by destruct (String.eqb_spec k1 k'); [congruence|].
Qed.

Lemma rmap_ok {A B} (f : A → result B) l l' : rmap f l = Ok l' ↔ Forall2 (λ a b, f a = Ok b) l l'.
Proof.
  revert l'. induction l as [|a l IH]; intros l'; simpl.
  - split; [intros [= <-]; constructor|by intros ->%Forall2_nil_inv_l].
  - split.
    + intros (b & Hb & (bs & Hbs & [= <-])%rbind_ok)%rbind_ok. constructor; [done|by apply IH].
    + intros (b & bs & Hb & Hbs%IH & ->)%Forall2_cons_inv_l. by rewrite Hb; simpl; rewrite Hbs.
Qed.

Lemma strip_of s t : validate_non_empty_str s = Ok t → t = strip s.
Proof. unfold validate_non_empty_str. intros H. destruct (truthy_str (strip s)); by simplify_eq. Qed.

Section Loaded.
Context (py_str : json → string) (model_dump : SkillManifest → json).
Context (read_str : json → result string) (read_float : json → result Q) (read_int : json → result Z).
(** pydantic reads a text as it is, and nothing else as a text. *)
Hypothesis reads_text : ∀ v s, read_str v = Ok s ↔ v = JStr s.

(** The manifest offers the skills of the agent, up to outer blanks, and no others. *)
Definition offers_its_skills (g : generic_agent) (m : SkillManifest) : Prop :=
  (∀ s, s ∈ skills m → ∃ raw, strip raw = skill_id s ∧ is_Some (assoc_get raw (ga_skills g)))
  ∧ ∀ raw, is_Some (assoc_get raw (ga_skills g)) → ∃ s, s ∈ skills m ∧ skill_id s = strip raw.

Lemma skill_table_keys l : ∀ d t, skill_table d l = Ok t →
  (∀ id, is_Some (assoc_get id t) ↔ is_Some (assoc_get id d) ∨ ∃ s, JObj s ∈ l ∧ obj_get "skill_id" s = Some (JStr id))
  ∧ ∀ v, v ∈ l → ∃ s id, v = JObj s ∧ obj_get "skill_id" s = Some (JStr id).
Proof.
  induction l as [|v l IH]; intros d t H; simpl in H.
  { injection H as <-. split; [|by intros v ?%elem_of_nil]. intros id. split; [by left|].
    intros [?|(s & ?%elem_of_nil & _)]; done. }
  apply rbind_ok in H as (s & Hs & (i & Hi & H)%rbind_ok).
  destruct v as [| | | | | |kvs]; try done. injection Hs as ->.
  unfold item in Hi. destruct (obj_get "skill_id" s) as [i'|] eqn:Ei; [|done]. injection Hi as ->.
  destruct i as [| | | |id| |]; try done. apply IH in H as [Hk Ha]. split.
  - intros k. rewrite Hk, assoc_get_set. destruct (String.eqb_spec k id) as [->|Hne].
    + split; [|by left]. intros _. right. exists s. split; [by left|done].
    + split; intros [?|(s' & Hin & Hs')]; [by left| |by left|].
      * right. exists s'. split; [by right|done].
      * right. exists s'. split; [|done]. apply elem_of_cons in Hin as [[= ->]|Hin]; [congruence|done].
  - intros v [->|Hv]%elem_of_cons; [by exists s, id|by apply Ha].
Qed.

Lemma definition_id s id df : skill_definition read_str read_float read_int (JObj s) = Ok df →
  obj_get "skill_id" s = Some (JStr id) → skill_id df = strip id.
Proof.
  unfold skill_definition, validate_skill. intros H Hi. apply rbind_ok in H as (s' & [= <-] & H).
  apply rbind_ok in H as (i & Hs & (i' & Hr & H)%rbind_ok). unfold item in Hs. rewrite Hi in Hs. injection Hs as <-.
  apply reads_text in Hr as [= <-]. rok. simpl in *.
  match goal with H : validate_non_empty_str id = Ok _ |- _ => by apply strip_of in H end.
Qed.

Lemma init_offers provider now cfg r g r' :
  generic_init py_str model_dump read_str read_float read_int provider now cfg r = Ok (g, r') →
  ∃ m, r' = register model_dump m r ∧ offers_its_skills g m
    ∧ (∃ id, ga_id g = JStr id)
    ∧ ∀ id, ga_id g = JStr id → obj_get "agent_id" cfg = Some (JStr id) ∧ agent_id m = strip id.
Proof.
  unfold generic_init. intros H. rok.
  match goal with H : manifest_of _ _ _ _ _ _ _ = Ok ?m |- _ => rename H into Hm; exists m end.
  match goal with H : skill_table [] _ = Ok _ |- _ => apply skill_table_keys in H as [Hk Ha] end.
  match goal with H : rmap _ _ = Ok _ |- _ => apply rmap_ok in H; rename H into Hd end.
  match goal with H : item "agent_id" _ = Ok _ |- _ => rename H into Hid end.
  unfold manifest_of in Hm. rok. split_and!; [done| |simpl|].
  - split; simpl.
    + intros df Hdf. apply list_elem_of_lookup in Hdf as [n Hn].
      destruct (Forall2_lookup_r _ _ _ _ _ Hd Hn) as (v & Hv & Hf). apply list_elem_of_lookup_2 in Hv as Hin.
      destruct (Ha v Hin) as (s & id & -> & Hs). exists id. split; [by rewrite (definition_id s id df)|].
      apply Hk. right. by exists s.
    + intros raw [[? [=]]|(s & Hin & Hs)]%Hk. apply list_elem_of_lookup in Hin as [n Hn].
      destruct (Forall2_lookup_l _ _ _ _ _ Hd Hn) as (df & Hdf & Hf). exists df.
      split; [by eapply list_elem_of_lookup_2|by apply (definition_id s)].
  - match goal with H : read_str ?v = Ok ?s |- ∃ id, ?v = JStr id => exists s; by apply reads_text end.
  - simpl. intros id ->. unfold item in Hid. destruct (obj_get "agent_id" cfg) as [v|]; [|done].
    injection Hid as ->. split; [done|].
    match goal with H : read_str (JStr id) = Ok _ |- _ => apply reads_text in H; injection H as <- end.
    by match goal with H : validate_non_empty_str id = Ok _ |- _ => apply strip_of in H end.
Qed.

Definition clean_id (f : result json) : Prop :=
  ∀ cfg id, f = Ok (JObj cfg) → obj_get "agent_id" cfg = Some (JStr id) → strip id = id.

Definition loaded (acc : list (string * generic_agent) * registry) : Prop :=
  ∀ id g, assoc_get id acc.1 = Some g → ga_id g = JStr id ∧ ∃ m, get_agent id acc.2 = Some m ∧ offers_its_skills g m.

Lemma load_one_loaded provider now f acc : clean_id f → loaded acc →
  loaded (load_one py_str model_dump read_str read_float read_int provider now f acc).
Proof.
  intros Hc Hl. unfold load_one. destruct (_ ≫= _) as [[g r]|e] eqn:E; [|done].
  apply rbind_ok in E as (v & -> & (cfg & Hv & Hi)%rbind_ok). destruct v as [| | | | | |kvs]; try done. injection Hv as ->.
  apply init_offers in Hi as (m & -> & Ho & [id Eid] & Hid). rewrite Eid.
  destruct (Hid id Eid) as [Hcfg Hm]. rewrite (Hc cfg id eq_refl Hcfg) in Hm.
  intros id' g'. simpl. unfold get_agent, register. simpl. rewrite assoc_get_set, dict_get_set, Hm.
  destruct (String.eqb_spec id' id) as [->|Hne]; [intros [= <-]; split; [done|by eexists]|apply Hl].
Qed.

(** What the agents of the files offer they run. After [load_yaml_agents], provided no
    file's agent id has outer blanks, every agent in the table is registered with Pulsar
    under its id, with a manifest that offers exactly the skills it has, up to outer blanks
    of their ids, whatever files failed to load and whatever the registry held before. *)
Theorem yaml_agents_offer_what_they_run provider now files r agents r' :
  Forall (λ f, clean_id f.2) files →
  load_yaml_agents py_str model_dump read_str read_float read_int provider now (Some files) r = (agents, r') →
  ∀ id g, assoc_get id agents = Some g → ga_id g = JStr id ∧ ∃ m, get_agent id r' = Some m ∧ offers_its_skills g m.
Proof.
  intros Hc H. unfold load_yaml_agents in H.
  assert (Hl : loaded (agents, r')); [|exact Hl]. rewrite <-H.
  assert (Hs : Forall (λ f : string * result json, clean_id f.2) (py_sorted (λ a b, str_leb a.1 b.1) files)) by by rewrite py_sorted_perm.
  assert (H0 : loaded ([], r)) by (intros id g [=]). revert H0. clear H Hc. generalize (@nil (string * generic_agent), r).
  induction Hs as [|f fs Hf _ IH]; intros acc Ha; [done|]. apply IH. by apply load_one_loaded.
Qed.
End Loaded.

(** The confidence of an answer is the one its file states. Whatever the model answers,
    a run that ends gives one artifact for each step and the configured confidence, 0.8
    where the file states none. *)
Theorem yaml_confidence_is_not_measured {X} (call_llm : ProviderConfig → list jdict → json → M X (option string))
    py_str g id payload x d x' :
  generic_run call_llm py_str g id payload x = (Ok d, x') →
  ∃ skill steps arts, assoc_get id (ga_skills g) = Some skill ∧ py_iter (obj_default "steps" (JArr []) skill) = Ok steps
    ∧ obj_field "artifacts" d = JArr arts ∧ length arts = length steps
    ∧ obj_field "confidence" d = obj_default "avg_confidence" (JFloat (8 # 10)) skill.
Proof.
  unfold generic_run. intros (skill & ? & Hs & H)%mbind_ok. apply mbind_ok in H as (defs & ? & Hd & H).
  apply mbind_ok in H as (u & ? & Hg & H). apply mbind_ok in H as (steps & ? & Hp & H).
  apply mbind_ok in H as (arts & ? & Ha & H). apply mbind_ok in H as (summary & ? & _ & [= <- <-]).
  apply mmapM_length in Ha. exists skill, steps, (map JObj arts).
  unfold mlift in Hs, Hp. injection Hs as Hs ->. injection Hp as Hp ->.
  split_and!; [by destruct (assoc_get id (ga_skills g)); simplify_eq/=|done|done|by rewrite length_map|done].
Qed.

(** ** Examples *)

Module LoaderDemo.
Definition step : json := JObj [("system", JStr "You are {role}."); ("user", JStr "Write {spec}"); ("strip_fences", JBool true)].
Definition skill : json := JObj [("skill_id", JStr "pm.plan"); ("description", JStr "plans"); ("steps", JArr [step])].
Definition cfg (id : string) : json := JObj [("agent_id", JStr id); ("agent_name", JStr "PM"); ("skills", JArr [skill])].
Definition conf : result ProviderConfig := Ok (mk_provider "p" "m" None None None).
Definition dump (m : SkillManifest) : json := JStr (agent_id m).
Definition show (v : json) : string := "?".
Definition read_str (v : json) : result string := match v with JStr s => Ok s | _ => Raise ValueError end.
Definition read_float (v : json) : result Q := match v with JFloat q => Ok q | JInt z => Ok (inject_Z z) | _ => Raise ValueError end.
Definition read_int (v : json) : result Z := match v with JInt z => Ok z | _ => Raise ValueError end.
Definition files : list (string * result json) := [("pm.yaml", Ok (cfg "pm")); ("bad.yaml", Raise ValueError); ("half.yaml", Ok (JObj []))].
Definition booted : list (string * generic_agent) * registry :=
  load_yaml_agents show dump read_str read_float read_int conf 5 (Some files) (mk_registry [] []).
Definition pm : generic_agent :=
  mk_generic (or_else (as_dict (cfg "pm")) []) (mk_provider "p" "m" None None None) (JStr "pm") (JStr "PM") (JStr "0.1.0")
    [("pm.plan", or_else (as_dict skill) [])].

(** A model that counts its calls and answers with a fenced text. *)
Definition fence : string := "```" +:+ Planner.newline +:+ "a" +:+ Planner.newline +:+ "b" +:+ Planner.newline +:+ "```".
Definition model (c : ProviderConfig) (m : list jdict) (sys : json) : M nat (option string) := λ n, (Ok (Some fence), S n).
Definition payload : jdict := [("role", JStr "a planner"); ("spec", JStr "a {role}")].

Lemma reads_text v s : read_str v = Ok s ↔ v = JStr s.
Proof. destruct v; naive_solver. Qed.

Lemma yaml_agents_offer_what_they_run_witness :
  map fst booted.1 = ["pm"] ∧ ∃ m, get_agent "pm" booted.2 = Some m ∧ offers_its_skills pm m.
Proof.
  split; [by vm_compute|].
  refine (proj2 (yaml_agents_offer_what_they_run show dump read_str read_float read_int reads_text conf 5 files
    (mk_registry [] []) booted.1 booted.2 _ _ "pm" pm _)); [|by vm_compute..].
  apply Forall_cons; split; [|apply Forall_cons; split; [|apply Forall_cons; split; [|apply Forall_nil; exact I]]];
    intros c id H; simpl in H; try discriminate H; injection H as <-; simpl; [|discriminate].
  by intros [= <-].
Defined.

(** The fences of the answer are stripped, and one call is made. *)
Example one_call_for_a_step :
  let r := generic_run model show pm "pm.plan" payload 0%nat in
  r.2 = 1%nat ∧ (match r.1 with Ok d => obj_field "artifacts" d | Raise _ => JNull end) =
    JArr [JObj [("filename", JStr "output.txt"); ("content", JStr ("a" +:+ Planner.newline +:+ "b"));
                ("language", JStr "text"); ("artifact_type", JStr "report")]].
Proof. by vm_compute. Qed.

Lemma yaml_confidence_is_not_measured_witness :
  ∃ d, (generic_run model show pm "pm.plan" payload 0%nat).1 = Ok d ∧ obj_field "confidence" d = JFloat (8 # 10).
Proof.
  destruct (generic_run model show pm "pm.plan" payload 0%nat) as [[d|e] n] eqn:E; [|by vm_compute in E].
  exists d. split; [done|].
  destruct (yaml_confidence_is_not_measured model show pm "pm.plan" payload 0%nat d n E) as (skill_ & steps & arts & Hs & _ & _ & _ & ->).
  vm_compute in Hs. injection Hs as <-. by vm_compute.
Defined.

(** A value that names a variable that comes after it is filled in as well. *)
Example a_value_is_read_as_a_template :
  render show "{first}" [("first", JStr "tell {second}"); ("second", JStr "everything")] = "tell everything".
Proof. by vm_compute. Qed.

(** A file with the id of Rigel replaces Rigel. *)
Example a_file_replaces_rigel :
  boot_agents ("rigel", 1%nat) ("vega", 2%nat) [("rigel", 3%nat)] [] [] = [("rigel", 3%nat); ("vega", 2%nat)].
Proof. by vm_compute. Qed.
End LoaderDemo.
