(* ===== verification/Lifecycle.v ===== *)
(** core/storage/lifecycle.py: retention windows, the purge of expired rows from the SQLite
    stores, and the export of the stores with a manifest of their digests.

    The stores are those of [JobRepository], [TaskLog], [GoalStore], [ReviewQueue] and
    [Artifacts]; one that is not configured or whose file is missing is [None]. A purge
    opens the files without foreign keys, so a row can go while others refer to it. An
    archive is the list of its files; SHA-256, JSON and the copy of a database are
    arguments. *)

From S2P Require Import Prelude.
From S2P Require Import JobTheorems.
From S2P Require Import JobQueue.
From S2P Require Import PyStr.
From S2P Require Import PyTime.
From S2P Require Import Json.
From S2P Require Import PyDict.
From S2P Require Import Contracts.
From S2P Require Import JobRepository.
From S2P Require Import JobInvariant.
From S2P Require Import ReviewQueue.
From S2P Require Import TaskLog.
From S2P Require Import GoalStore.
From S2P Require Import Artifacts.
Open Scope Z_scope.

(** ** RetentionPolicy *)

Definition DEFAULT_RETENTION_DAYS : list (string * Z) :=
  [("jobs", 90); ("tasks", 90); ("goals", 365); ("reviews", 365); ("artifacts", 365)].

(** [isinstance(value, int)] and not negative: booleans are integers. *)
Definition day_count (v : json) : option Z :=
  match v with
  | JInt z => if 0 <=? z then Some z else None
  | JBool b => Some (if b then 1 else 0)
  | _ => None
  end.

(** [__post_init__]. *)
Definition retention_policy (days : jdict) : result (list (string * Z)) :=
  rguard (forallb (λ kv, bool_decide (kv.1 ∈ map fst DEFAULT_RETENTION_DAYS)) days) ValueError;;
  rmap (λ kv, z ← of_option ValueError (day_count kv.2); Ok (kv.1, z)) days.

(** [from_file], given what the file holds. *)
Definition policy_from_file (payload : json) : result (list (string * Z)) :=
  d ← of_option AttributeError (as_dict payload);
  given ← of_option TypeError (as_dict (obj_default "retention_days" (JObj d) d));
  retention_policy (dict_merge (map (λ kv, (kv.1, JInt kv.2)) DEFAULT_RETENTION_DAYS) given).

(** [write], up to the text. *)
Definition written_policy (days : list (string * Z)) : json :=
  JObj [("retention_days", JObj (map (λ kv, (kv.1, JInt kv.2)) days))].

(** [policy.days.get(category, DEFAULT_RETENTION_DAYS\[category\])]. *)
Definition window (policy : list (string * Z)) (category : string) : Z :=
  or_else (assoc_get category policy) (or_else (assoc_get category DEFAULT_RETENTION_DAYS) 0).

(** [_cutoff]. *)
Definition cutoff (days : Z) (now : time) : result time := dt_add now (- (days * 86400000000)).

(** ** The purge *)

(** A table after [DELETE ... WHERE old], and the number of rows deleted. *)
Definition purge_map {K V} `{Countable K} (old : V → bool) (m : gmap K V) : gmap K V * nat :=
  (filter (λ kv, old kv.2 = false) m, size (filter (λ kv, old kv.2 = true) m)).
Definition purge_list {A} (old : A → bool) (l : list A) : list A * nat :=
  (List.filter (λ x, negb (old x)) l, length (List.filter old l)).

(** [timestamp IS NOT NULL AND timestamp < ?]. *)
Definition before (c : time) (t : option time) : bool := match t with Some t => t <? c | None => false end.
Definition text_before (c : string) (t : option string) : bool :=
  match t with Some t => negb (str_leb c t) | None => false end.

Definition purge_jobs (c : time) (d : db) : db * list (string * nat) :=
  let '(js, n1) := purge_map (λ r, jr_updated r <? c) (jobs d) in
  let '(ats, n2) := purge_map (λ a, before c (ended_at a)) (attempts d) in
  let '(trs, n3) := purge_list (λ t, tr_at t <? c) (transitions d) in
  let '(ids, n4) := purge_map (λ jt : uuid * time, jt.2 <? c) (idem d) in
  let '(outs, n5) := purge_map (λ o : json * time, o.2 <? c) (outputs d) in
  (mk_db js ids (job_tasks d) outs ats trs (outbox d),
   [("jobs", n1); ("execution_attempts", n2); ("job_transitions", n3); ("job_idempotency", n4); ("job_outputs", n5)]).

(** COALESCE(completed_at, issued_at), a text. *)
Definition purge_log (c : time) (t : list log_row) : list log_row * list (string * nat) :=
  let '(rows, n) := purge_list (λ r, text_before (iso c)
    (match l_completed r with Some s => Some s | None => l_issued r end)) t in
  (rows, [("tasks", n)]).

Definition purge_goals (c : time) (s : gstore) : gstore * list (string * nat) :=
  let '(gs, n1) := purge_list (λ g, g_created_at g <? c) (gs_goals s) in
  let '(es, n2) := purge_list (λ e, ev_at e <? c) (gs_events s) in
  (mk_gstore gs (gs_projects s) (gs_tasks s) es (gs_repositories s), [("goals", n1); ("goal_events", n2)]).

(** COALESCE(reviewed_at, created_at). *)
Definition purge_reviews (c : time) (q : queue) : queue * list (string * nat) :=
  let '(rows, n) := purge_list (λ r, or_else (rv_reviewed r) (rv_created r) <? c) q in
  (rows, [("review_queue", n)]).

Record stores := mk_stores {
  s_jobs : option db;
  s_tasks : option (list log_row);
  s_goals : option gstore;
  s_reviews : option queue }.

(** One category: its window, and what its purge makes of its store. *)
Definition purge_category {S} (policy : list (string * Z)) (category : string) (now : time) (dry : bool)
    (purge : time → S → S * list (string * nat)) (store : option S) : result (option S * list (string * nat)) :=
  match store with
  | None => Ok (None, [])
  | Some s =>
      c ← cutoff (window policy category) now;
      Ok (Some (if dry then s else (purge c s).1), (purge c s).2)
  end.

Definition set_s_jobs j s := mk_stores j (s_tasks s) (s_goals s) (s_reviews s).
Definition set_s_tasks t s := mk_stores (s_jobs s) t (s_goals s) (s_reviews s).
Definition set_s_goals g s := mk_stores (s_jobs s) (s_tasks s) g (s_reviews s).
Definition set_s_reviews q s := mk_stores (s_jobs s) (s_tasks s) (s_goals s) q.

(** A category is committed before the next one is opened. *)
Definition on_category {S} policy category now dry (purge : time → S → S * list (string * nat)) (get : stores → option S)
    (set : option S → stores → stores) : M stores (list (string * nat)) := λ s,
  match purge_category policy category now dry purge (get s) with
  | Ok (x, counts) => (Ok counts, set x s)
  | Raise e => (Raise e, s)
  end.

(** [purge_expired] on the tables. *)
Definition purge_tables (policy : list (string * Z)) (now : time) (dry : bool) : M stores (list (string * nat)) :=
  a ← on_category policy "jobs" now dry purge_jobs s_jobs set_s_jobs;
  b ← on_category policy "tasks" now dry purge_log s_tasks set_s_tasks;
  c ← on_category policy "goals" now dry purge_goals s_goals set_s_goals;
  d ← on_category policy "reviews" now dry purge_reviews s_reviews set_s_reviews;
  mret (a ++ b ++ c ++ d).

(** [purge_expired]: then the artifacts, where a store is given and the policy names them. *)
Definition purge_expired {O} `{Artifacts.ObjectStorage O} (configured : bool) (policy : list (string * Z)) (now : time) (dry : bool) :
    M (stores * option (Artifacts.store O)) (list (string * nat)) := λ w,
  match purge_tables policy now dry w.1 with
  | (Raise e, s) => (Raise e, (s, w.2))
  | (Ok counts, s) =>
      match w.2, assoc_get "artifacts" policy with
      | Some arts, Some days =>
          if dry then (Ok counts, (s, w.2)) else
          let '(r, arts') := (c ← mlift (cutoff days now);
            old ← Artifacts.delete_older_than configured c;
            orphans ← Artifacts.cleanup_orphans configured;
            mret (counts ++ [("artifact_objects", length old); ("artifact_orphans", length orphans)])) arts in
          (r, (s, Some arts'))
      | _, _ => (Ok counts, (s, w.2))
      end
  end.

(** ** Export *)

Section Exporting.
Context (sha256 : string → string) (json_dumps : json → string) (json_loads : string → result json).

(** The manifest's entry of one copied database. *)
Definition export_entry (category data : string) : json :=
  JObj [("file", JStr (category +:+ ".sqlite")); ("sha256", JStr (sha256 data)); ("size", JInt (Z.of_nat (String.length data)))].

Definition manifest (copies : list (string * string)) (now : time) : jdict :=
  [("format", JStr "galaxz-operational-export-v1"); ("created_at", JStr (iso now));
   ("stores", JObj (map (λ kv, (kv.1, export_entry kv.1 kv.2)) copies))].

(** [export]: the archive of the copies of the stores whose files exist. *)
Definition export (sources : list (string * option string)) (now : time) : list (string * string) :=
  let copies := omap (λ kv : string * option string, data ← kv.2; Some (kv.1, data)) sources in
  ("manifest.json", json_dumps (JObj (manifest copies now))) :: map (λ kv, (kv.1 +:+ ".sqlite", kv.2)) copies.

(** [archive.read(name)]. *)
Definition read_member (name : string) (archive : list (string * string)) : result string :=
  of_option KeyError (assoc_get name archive).

Definition verify_entry (archive : list (string * string)) (entry : json) : result unit :=
  e ← of_option TypeError (as_dict entry);
  name ← of_option KeyError (obj_get "file" e);
  name ← match name with JStr s => Ok s | _ => Raise TypeError end;
  data ← read_member name archive;
  digest ← of_option KeyError (obj_get "sha256" e);
  rguard (is_str digest (sha256 data)) ValueError.

(** [verify_export]. *)
Definition verify_export (archive : list (string * string)) : result json :=
  text ← read_member "manifest.json" archive;
  m ← json_loads text;
  d ← of_option TypeError (as_dict m);
  entries ← of_option KeyError (obj_get "stores" d);
  entries ← of_option AttributeError (as_dict entries);
  rmap (λ kv, verify_entry archive kv.2) entries;;
  Ok m.
End Exporting.

(** ** Theorems

    Purges remove exactly the rows older than their window and can be rehearsed and
    repeated; but the tables of jobs age one by one, so a live job can lose its key and
    with it everything that finds it. An exported archive verifies, and no longer does once
    the bytes of a store are changed. *)

(** ** One table *)

Lemma purge_map_lookup {K V} `{Countable K} (old : V → bool) (m : gmap K V) k v :
  (purge_map old m).1 !! k = Some v ↔ m !! k = Some v ∧ old v = false.
Proof. apply map_lookup_filter_Some. Qed.

Lemma purge_map_again {K V} `{Countable K} (old : V → bool) (m : gmap K V) :
  purge_map old (purge_map old m).1 = ((purge_map old m).1, 0%nat).
Proof.
  unfold purge_map. simpl. f_equal.
  - apply map_filter_id. intros k v Hv. by apply map_lookup_filter_Some in Hv as [_ ?].
  - apply map_size_empty_iff, map_empty_filter_2. intros k v Hv. apply map_lookup_filter_Some in Hv as [_ Hv].
    simpl in *. congruence.
Qed.

Lemma purge_map_count {K V} `{Countable K} (old : V → bool) (m : gmap K V) :
  size m = (size (purge_map old m).1 + (purge_map old m).2)%nat.
Proof.
  unfold purge_map. simpl. induction m as [|i x m Hi IH] using map_ind; [by rewrite !map_filter_empty, map_size_empty|].
  rewrite map_size_insert_None, !map_filter_insert, IH by done. simpl. rewrite (delete_id m i Hi).
  destruct (old x); simpl; (rewrite map_size_insert_None; [lia|]; apply map_lookup_filter_None; by left).
Qed.

Lemma purge_list_again {A} (old : A → bool) l : purge_list old (purge_list old l).1 = ((purge_list old l).1, 0%nat).
Proof.
  unfold purge_list. simpl. induction l as [|x l IH]; [done|]. simpl. destruct (old x) eqn:E; simpl; [done|].
  rewrite E. simpl. injection IH as IH1 IH2. by rewrite IH1, IH2.
Qed.

(** ** One category *)

(** Done again at the same time, a purge finds nothing. *)
Definition settles {S} (purge : S → S * list (string * nat)) : Prop := ∀ s,
  (purge (purge s).1).1 = (purge s).1 ∧ map fst (purge (purge s).1).2 = map fst (purge s).2
  ∧ Forall (λ kn, kn.2 = 0%nat) (purge (purge s).1).2.

Lemma purge_jobs_settles c : settles (purge_jobs c).
Proof.
  intros d. unfold purge_jobs.
  pose proof (purge_map_again (λ r, jr_updated r <? c) (jobs d)) as E1.
  pose proof (purge_map_again (λ a, before c (ended_at a)) (attempts d)) as E2.
  pose proof (purge_list_again (λ t, tr_at t <? c) (transitions d)) as E3.
  pose proof (purge_map_again (λ jt : uuid * time, jt.2 <? c) (idem d)) as E4.
  pose proof (purge_map_again (λ o : json * time, o.2 <? c) (outputs d)) as E5.
  destruct (purge_map _ (jobs d)) as [m1 n1], (purge_map _ (attempts d)) as [m2 n2], (purge_list _ (transitions d)) as [m3 n3],
    (purge_map _ (idem d)) as [m4 n4], (purge_map _ (outputs d)) as [m5 n5]. cbn [fst snd] in *; cbn [jobs attempts transitions idem outputs gs_goals gs_events].
  rewrite E1, E2, E3, E4, E5. repeat constructor.
Qed.

Lemma purge_log_settles c : settles (purge_log c).
Proof.
  intros t. unfold purge_log.
  pose proof (purge_list_again (λ r, text_before (iso c) (match l_completed r with Some s => Some s | None => l_issued r end)) t) as E.
  destruct (purge_list _ t) as [m n]. cbn [fst snd] in *. rewrite E. repeat constructor.
Qed.

Lemma purge_goals_settles c : settles (purge_goals c).
Proof.
  intros s. unfold purge_goals.
  pose proof (purge_list_again (λ g, g_created_at g <? c) (gs_goals s)) as E1.
  pose proof (purge_list_again (λ e, ev_at e <? c) (gs_events s)) as E2.
  destruct (purge_list _ (gs_goals s)) as [m1 n1], (purge_list _ (gs_events s)) as [m2 n2]. cbn [fst snd] in *; cbn [jobs attempts transitions idem outputs gs_goals gs_events].
  rewrite E1, E2. repeat constructor.
Qed.

Lemma purge_reviews_settles c : settles (purge_reviews c).
Proof.
  intros q. unfold purge_reviews.
  pose proof (purge_list_again (λ r, or_else (rv_reviewed r) (rv_created r) <? c) q) as E.
  destruct (purge_list _ q) as [m n]. cbn [fst snd] in *. rewrite E. repeat constructor.
Qed.

Section Category.
Context {T : Type} (policy : list (string * Z)) (category : string) (now : time).
Context (purge : time → T → T * list (string * nat)) (Hp : ∀ c, settles (purge c)).

Lemma category_rehearsed s x counts : purge_category policy category now false purge s = Ok (x, counts) →
  purge_category policy category now true purge s = Ok (s, counts).
Proof. destruct s as [s|]; simpl; [|by intros [= <- <-]]. destruct (cutoff _ _) as [c|]; [|done]. simpl. by intros [= _ <-]. Qed.

Lemma category_settles s x counts : purge_category policy category now false purge s = Ok (x, counts) →
  ∃ zeros, purge_category policy category now false purge x = Ok (x, zeros) ∧ map fst zeros = map fst counts
    ∧ Forall (λ kn, kn.2 = 0%nat) zeros.
Proof.
  destruct s as [s|]; simpl; [|intros [= <- <-]; by exists []]. destruct (cutoff _ _) as [c|] eqn:E; [|done].
  simpl. intros [= <- <-]. simpl. rewrite E. simpl. destruct (Hp c s) as (E1 & E2 & E3).
  eexists. split; [by rewrite E1|]. by split.
Qed.
End Category.

(** ** All categories *)

(** A purge in its four steps, each on its own store. *)
Lemma purge_tables_ok policy now dry s counts s' : purge_tables policy now dry s = (Ok counts, s') ↔
  ∃ a b c d, purge_category policy "jobs" now dry purge_jobs (s_jobs s) = Ok (s_jobs s', a)
    ∧ purge_category policy "tasks" now dry purge_log (s_tasks s) = Ok (s_tasks s', b)
    ∧ purge_category policy "goals" now dry purge_goals (s_goals s) = Ok (s_goals s', c)
    ∧ purge_category policy "reviews" now dry purge_reviews (s_reviews s) = Ok (s_reviews s', d)
    ∧ counts = a ++ b ++ c ++ d.
Proof.
  destruct s as [j t g q], s' as [j' t' g' q']. unfold purge_tables, on_category, mbind, M_bind, mret, M_ret. simpl.
  destruct (purge_category policy "jobs" _ _ _ _) as [[j1 a]|]; [|naive_solver].
  simpl. destruct (purge_category policy "tasks" _ _ _ _) as [[t1 b]|]; [|naive_solver].
  simpl. destruct (purge_category policy "goals" _ _ _ _) as [[g1 c]|]; [|naive_solver].
  simpl. destruct (purge_category policy "reviews" _ _ _ _) as [[q1 d]|]; [|naive_solver].
  simpl. unfold set_s_jobs, set_s_tasks, set_s_goals, set_s_reviews. simpl. split.
  - intros [= <- <- <- <- <-]. naive_solver.
  - intros (? & ? & ? & ? & [= -> ->] & [= -> ->] & [= -> ->] & [= -> ->] & ->). done.
Qed.

(** A purge can be rehearsed and repeated. A dry run reports the same counts and changes
    nothing; after the purge a second one at the same time finds nothing to remove; and of
    the jobs exactly those not updated since the cutoff are gone, as many as reported. *)
Theorem purges_are_exact_and_repeatable policy now s counts s' :
  purge_tables policy now false s = (Ok counts, s') →
  purge_tables policy now true s = (Ok counts, s)
  ∧ (∃ zeros, purge_tables policy now false s' = (Ok zeros, s') ∧ map fst zeros = map fst counts
      ∧ Forall (λ kn, kn.2 = 0%nat) zeros)
  ∧ ∀ d, s_jobs s = Some d → ∃ c d', cutoff (window policy "jobs") now = Ok c ∧ s_jobs s' = Some d'
      ∧ (∀ j r, jobs d' !! j = Some r ↔ jobs d !! j = Some r ∧ c <= jr_updated r)
      ∧ ∃ n, assoc_get "jobs" counts = Some n ∧ size (jobs d) = (size (jobs d') + n)%nat.
Proof.
  intros (a & b & c & d & Ha & Hb & Hc & Hd & ->)%purge_tables_ok. split_and!.
  - apply purge_tables_ok. exists a, b, c, d. by split_and!; try eapply category_rehearsed.
  - destruct (category_settles _ _ _ _ purge_jobs_settles _ _ _ Ha) as (za & ? & Ea & Fa).
    destruct (category_settles _ _ _ _ purge_log_settles _ _ _ Hb) as (zb & ? & Eb & Fb).
    destruct (category_settles _ _ _ _ purge_goals_settles _ _ _ Hc) as (zc & ? & Ec & Fc).
    destruct (category_settles _ _ _ _ purge_reviews_settles _ _ _ Hd) as (zd & ? & Ed & Fd).
    exists (za ++ zb ++ zc ++ zd). split_and!; [|by rewrite !map_app, Ea, Eb, Ec, Ed|by rewrite !Forall_app].
    apply purge_tables_ok. by exists za, zb, zc, zd.
  - intros d0 Ed. rewrite Ed in Ha. simpl in Ha. destruct (cutoff _ _) as [cut|]; [|done]. injection Ha as Ej <-.
    exists cut, (purge_jobs cut d0).1. split_and!; [done|done| |].
    + intros j r. rewrite <-Z.ltb_ge. apply (purge_map_lookup (λ r, jr_updated r <? cut) (jobs d0) j r).
    + exists (purge_map (λ r, jr_updated r <? cut) (jobs d0)).2. split; [done|]. apply purge_map_count.
Qed.

(** A purge can hide a live job. The rows of one job age one by one: when its key was
    stored before the cutoff and the job is still being updated, the job stays and its key
    goes, and from then on the job cannot be read by its id, is in no list, and is never
    claimed. *)
Theorem purged_keys_hide_live_jobs d k j t r c : Inv d → idem d !! k = Some (j, t) → jobs d !! j = Some r →
  t < c → c <= jr_updated r →
  let d' := (purge_jobs c d).1 in
  jobs d' !! j = Some r ∧ get_job j d' = Ok None ∧ (∀ kr, kr ∈ joined_rows d' → jr_id kr.2 ≠ j)
  ∧ ∀ now, from_option (λ r', jr_id r' ≠ j) True (claim_candidate now d').
Proof.
  intros HI Hk Hj Ht Hu d'.
  assert (Hkeep : ∀ j' r', jobs d' !! j' = Some r' ↔ jobs d !! j' = Some r' ∧ (jr_updated r' <? c) = false)
    by (intros j' r'; apply (purge_map_lookup (λ r, jr_updated r <? c) (jobs d) j' r')).
  assert (Hkeys : ∀ k' j' t', idem d' !! k' = Some (j', t') ↔ idem d !! k' = Some (j', t') ∧ (t' <? c) = false)
    by (intros k' j' t'; apply (purge_map_lookup (λ jt : uuid * time, jt.2 <? c) (idem d) k' (j', t'))).
  assert (Hjob : jobs d' !! j = Some r) by (apply Hkeep; split; [done|by apply Z.ltb_ge]).
  assert (Hnone : key_of d' j = None).
  { destruct (key_of d' j) as [k'|] eqn:E; [|done]. apply key_of_Some in E as [t' E]. apply Hkeys in E as [E Ht'].
    pose proof (key_of_eq d k j t HI Hk) as E1. pose proof (key_of_eq d k' j t' HI E) as E2.
    rewrite E1 in E2. injection E2 as <-. rewrite Hk in E. injection E as <-. lia. }
  assert (Hlist : ∀ kr, kr ∈ joined_rows d' → jr_id kr.2 ≠ j).
  { intros [k0 r0] ([j0 r1] & Hin%elem_of_map_to_list & H)%list_elem_of_omap. cbn [fst snd] in *.
    destruct (key_of d' j0) as [k1|] eqn:E; [|done]. injection H as <- <-.
    apply Hkeep in Hin as [Hin _]. pose proof (jo_id _ _ _ (inv_job _ HI _ _ Hin)) as Hid. rewrite Hid. intros ->. congruence. }
  split_and!; [done| |done|].
  - unfold get_job. by rewrite Hjob, Hnone.
  - intros now. destruct (claim_candidate now d') as [r'|] eqn:E; [|done]. simpl. unfold claim_candidate in E.
    apply head_Some_elem_of in E. rewrite elem_of_py_sorted, list_elem_of_filter in E. destruct E as [_ E].
    apply list_elem_of_fmap in E as (kr & -> & Hin). by apply Hlist.
Qed.

(** ** Archives *)

Section Exported.
Context (sha256 : string → string) (json_dumps : json → string) (json_loads : string → result json).
(** json reads the manifest it has written. *)
Definition reads_back (copies : list (string * string)) (now : time) : Prop :=
  json_loads (json_dumps (JObj (manifest sha256 copies now))) = Ok (JObj (manifest sha256 copies now)).

Definition copies_of (sources : list (string * option string)) : list (string * string) :=
  omap (λ kv : string * option string, data ← kv.2; Some (kv.1, data)) sources.

Definition member (kv : string * string) : string * string := (kv.1 +:+ ".sqlite", kv.2).

Lemma length_app_str (a b : string) : String.length (a +:+ b) = (String.length a + String.length b)%nat.
Proof. induction a as [|c a IH]; [done|]. simpl. by f_equal. Qed.

Lemma member_name_inj a b : a +:+ ".sqlite" = b +:+ ".sqlite" → a = b.
Proof.
  intros H. apply (f_equal to_list) in H. rewrite !to_list_app in H. apply app_inv_tail in H.
  by rewrite <-(of_to_list a), H, of_to_list.
Qed.

Lemma member_name_manifest a : a +:+ ".sqlite" ≠ "manifest.json".
Proof. intros H. apply (f_equal (λ s, rev (to_list s))) in H. rewrite to_list_app, rev_app_distr in H. done. Qed.

Lemma read_copy text copies k data : NoDup (map fst copies) → (k, data) ∈ copies →
  read_member (k +:+ ".sqlite") (("manifest.json", text) :: map member copies) = Ok data.
Proof.
  intros Hn Hin. unfold read_member. simpl. rewrite (proj2 (String.eqb_neq _ _) (member_name_manifest k)).
  assert (Hm : NoDup (map fst (map member copies))).
  { rewrite map_map. change (λ x, (member x).1) with ((λ k : string, k +:+ ".sqlite") ∘ (@fst string string)).
    change (map ?f copies) with (f <$> copies). rewrite list_fmap_compose.
    assert (Inj (=) (=) (λ k : string, k +:+ ".sqlite")) by (intros a b; apply member_name_inj).
    by apply NoDup_fmap_2. }
  rewrite (proj2 (assoc_get_iff (k +:+ ".sqlite") data _ Hm)); [done|].
  by apply (list_elem_of_fmap_2 member) in Hin.
Qed.

Lemma verify_archive copies now archive : reads_back copies now →
  read_member "manifest.json" archive = Ok (json_dumps (JObj (manifest sha256 copies now))) →
  verify_export sha256 json_loads archive =
    (rmap (λ kv, verify_entry sha256 archive kv.2) (map (λ kv, (kv.1, export_entry sha256 kv.1 kv.2)) copies);;
     Ok (JObj (manifest sha256 copies now))).
Proof. intros Hb H. unfold verify_export. rewrite H. simpl. by rewrite Hb. Qed.

Lemma verify_entry_eq archive k data : verify_entry sha256 archive (export_entry sha256 k data) =
  (data' ← read_member (k +:+ ".sqlite") archive; rguard (String.eqb (sha256 data) (sha256 data')) ValueError).
Proof. done. Qed.

Lemma rmap_unit {A} (f : A → result unit) l : (∀ a, a ∈ l → f a = Ok tt) → rmap f l = Ok (map (λ _, tt) l).
Proof.
  induction l as [|a l IH]; intros Hf; simpl; [done|]. rewrite (Hf a) by by left. simpl.
  rewrite IH; [done|]. intros b Hb. apply Hf. by right.
Qed.

Lemma rmap_fails {A} (f : A → result unit) e l : (∀ a, a ∈ l → f a = Ok tt ∨ f a = Raise e) →
  (∃ a, a ∈ l ∧ f a = Raise e) → rmap f l = Raise e.
Proof.
  induction l as [|a l IH]; intros Hf (b & Hb & Hfb); [by apply elem_of_nil in Hb|]. simpl.
  destruct (Hf a ltac:(by left)) as [E|E]; rewrite E; [|done]. simpl. rewrite IH; [done| |].
  - intros c Hc. apply Hf. by right.
  - apply elem_of_cons in Hb as [->|Hb]; [congruence|by exists b].
Qed.

(** C37: an export verifies, and a changed one does not. The archive [export] writes is accepted
    by [verify_export] with its manifest; when the bytes of one store in it are replaced by
    others of another digest, it is refused, whichever store it is. *)
Theorem exports_verify_until_changed sources now : NoDup (map fst (copies_of sources)) →
  reads_back (copies_of sources) now →
  let archive := export sha256 json_dumps sources now in
  verify_export sha256 json_loads archive = Ok (JObj (manifest sha256 (copies_of sources) now))
  ∧ ∀ k data data', (k, data) ∈ copies_of sources → sha256 data ≠ sha256 data' →
      verify_export sha256 json_loads (assoc_set (k +:+ ".sqlite") data' archive) = Raise ValueError.
Proof.
  intros Hn Hb archive. assert (Ea : archive = ("manifest.json", json_dumps (JObj (manifest sha256 (copies_of sources) now))) :: map member (copies_of sources)) by done.
  split.
  - rewrite (verify_archive (copies_of sources) now _ Hb) by by rewrite Ea. rewrite rmap_unit; [done|].
    intros kv ([k data] & -> & Hin)%list_elem_of_fmap. cbn [fst snd]. rewrite verify_entry_eq, Ea, (read_copy _ _ k data Hn Hin).
    simpl. by rewrite String.eqb_refl.
  - intros k data data' Hin Hd. rewrite (verify_archive (copies_of sources) now _ Hb).
    2: { unfold read_member. rewrite assoc_get_set. rewrite (proj2 (String.eqb_neq _ _)); [by rewrite Ea|].
      intros H. by apply (member_name_manifest k). }
    rewrite (rmap_fails _ ValueError); [done| |].
    + intros kv ([k' x] & -> & Hx)%list_elem_of_fmap. cbn [fst snd]. rewrite verify_entry_eq. unfold read_member. rewrite assoc_get_set.
      destruct (String.eqb_spec (k' +:+ ".sqlite") (k +:+ ".sqlite")) as [_|Hne]; cbv iota.
      * simpl. unfold rguard. destruct (String.eqb _ _); [by left|by right].
      * left. pose proof (read_copy (json_dumps (JObj (manifest sha256 (copies_of sources) now))) _ k' x Hn Hx) as Hr.
        unfold read_member in Hr. rewrite Ea, Hr. simpl. by rewrite String.eqb_refl.
    + exists (k, export_entry sha256 k data). split; [by apply (list_elem_of_fmap_2 (λ kv, (kv.1, export_entry sha256 kv.1 kv.2)) _ (k, data))|].
      cbn [snd]. rewrite verify_entry_eq. unfold read_member. rewrite assoc_get_set, String.eqb_refl. simpl.
      unfold rguard. by rewrite (proj2 (String.eqb_neq _ _) Hd).
Qed.
End Exported.

(** ** Examples *)

(** A policy is written and read back. *)
Example a_policy_is_read_back :
  policy_from_file (written_policy [("jobs", 7); ("tasks", 0)])
  = Ok [("jobs", 7); ("tasks", 0); ("goals", 365); ("reviews", 365); ("artifacts", 365)].
Proof. by vm_compute. Qed.

(** Two jobs that still wait are removed once they are older than the window, with their
    keys and transitions but not with their tasks. *)
Definition days (n : Z) : Z := n * 86400000000.
Definition waiting : stores := mk_stores (Some demo_enqueued) None None None.

Lemma purges_are_exact_and_repeatable_witness :
  let r := purge_tables [] (days 738100) false waiting in
  r.1 = Ok [("jobs", 2%nat); ("execution_attempts", 0%nat); ("job_transitions", 2%nat); ("job_idempotency", 2%nat); ("job_outputs", 0%nat)]
  ∧ purge_tables [] (days 738100) true waiting = (r.1, waiting).
Proof.
  intros r. assert (H : r.1 = Ok [("jobs", 2%nat); ("execution_attempts", 0%nat); ("job_transitions", 2%nat); ("job_idempotency", 2%nat); ("job_outputs", 0%nat)])
    by by vm_compute.
  split; [exact H|]. rewrite H. apply (purges_are_exact_and_repeatable [] (days 738100) waiting _ r.2).
  rewrite <-H. unfold r. apply surjective_pairing.
Defined.

(** A job enqueued long ago and claimed just now. *)
Definition claimed_late : db := run (Claim 100 200 "w1" 30) (days 150) demo_enqueued.

Lemma claimed_late_inv : Inv claimed_late.
Proof. apply reachable_inv. apply reach_step, demo_enqueued_reachable. Qed.

Lemma purged_keys_hide_live_jobs_witness :
  is_Some (jobs (purge_jobs (days 100) claimed_late).1 !! 2%N)
  ∧ get_job 2 (purge_jobs (days 100) claimed_late).1 = Ok None.
Proof.
  destruct (jobs claimed_late !! 2%N) as [r|] eqn:Hr; [|by vm_compute in Hr].
  destruct (purged_keys_hide_live_jobs claimed_late "second" 2 10 r (days 100) claimed_late_inv) as (H1 & H2 & _).
  - by vm_compute.
  - exact Hr.
  - by vm_compute.
  - vm_compute in Hr. injection Hr as <-. by vm_compute.
  - split; [by rewrite H1|exact H2].
Defined.

(** The key is free again: the same submission makes another job. *)
Example a_hidden_job_is_submitted_again :
  size (jobs (run (Enqueue 3 11 None "second" 9 None) (days 151) (purge_jobs (days 100) claimed_late).1)) = 2%nat.
Proof. by vm_compute. Qed.

Definition demo_hash (s : string) : string := s.
Definition demo_sources : list (string * option string) := [("jobs", Some "rows"); ("goals", Some "more rows"); ("reviews", None)].
Definition demo_dumps (v : json) : string := "{manifest}".
Definition demo_loads (s : string) : result json := Ok (JObj (manifest demo_hash (copies_of demo_sources) 5)).

Lemma exports_verify_until_changed_witness :
  verify_export demo_hash demo_loads (export demo_hash demo_dumps demo_sources 5) = Ok (JObj (manifest demo_hash (copies_of demo_sources) 5))
  ∧ verify_export demo_hash demo_loads (assoc_set "goals.sqlite" "fewer rows" (export demo_hash demo_dumps demo_sources 5)) = Raise ValueError.
Proof.
  destruct (exports_verify_until_changed demo_hash demo_dumps demo_loads demo_sources 5) as [H1 H2].
  - solve_nodup.
  - reflexivity.
  - split; [exact H1|]. apply (H2 "goals" "more rows"); [|discriminate].
    by right; left.
Defined.
