(* ===== verification/Migrations.v ===== *)
(** core/jobs/migrations.py: the schema of the SQLite job store, its upgrades and their
    rollback.

    A database is its tables with their columns, its indexes with their tables, and the
    rows of schema_migrations in order. The connection of core/jobs/repository.py is in
    autocommit mode, so [with connection:] opens no transaction and every statement stands
    for itself. *)

From S2P Require Import Prelude.
From S2P Require Import PyTime.
Open Scope Z_scope.

Record schema := mk_schema {
  sc_tables : gmap string (list string);
  sc_indexes : gmap string string;
  sc_versions : list (Z * time) }.

Definition empty_schema : schema := mk_schema ∅ ∅ [].

(** ** Statements *)

Inductive stmt :=
  | CreateTable (name : string) (columns : list string)
  | CreateIndex (name table : string)
  | DropTable (if_exists : bool) (name : string)
  | InsertVersion (v : Z) (now : time)
  | DeleteVersion (v : Z).

Definition exec (c : stmt) : M schema unit :=
  s ← mget;
  match c with
  | CreateTable name columns =>
      mguard (bool_decide (sc_tables s !! name = None)) OperationalError;;
      mput (mk_schema (<[name := columns]> (sc_tables s)) (sc_indexes s) (sc_versions s))
  | CreateIndex name table =>
      mguard (bool_decide (sc_indexes s !! name = None) && bool_decide (is_Some (sc_tables s !! table))) OperationalError;;
      mput (mk_schema (sc_tables s) (<[name := table]> (sc_indexes s)) (sc_versions s))
  | DropTable if_exists name =>
      mguard (if_exists || bool_decide (is_Some (sc_tables s !! name))) OperationalError;;
      mput (mk_schema (delete name (sc_tables s)) (filter (λ it, it.2 ≠ name) (sc_indexes s)) (sc_versions s))
  | InsertVersion v now =>
      mguard (negb (existsb (λ r, r.1 =? v) (sc_versions s))) IntegrityError;;
      mput (mk_schema (sc_tables s) (sc_indexes s) (sc_versions s ++ [(v, now)]))
  | DeleteVersion v =>
      mput (mk_schema (sc_tables s) (sc_indexes s) (List.filter (λ r, negb (r.1 =? v)) (sc_versions s)))
  end.

(** ** The migrations *)

Definition upgrade_v1 : list stmt :=
  [CreateTable "jobs" ["job_id"; "task_id"; "status"; "priority"; "max_attempts"; "backoff_seconds"; "max_backoff_seconds";
     "retryable_outcomes_json"; "attempt_count"; "active_attempt_id"; "created_at"; "updated_at"; "available_at";
     "cancellation_requested_at"; "cancelled_at"];
   CreateTable "execution_attempts" ["attempt_id"; "job_id"; "attempt_number"; "worker_id"; "input_ref"; "lease_token";
     "lease_expires_at"; "started_at"; "ended_at"; "outcome"; "failure_kind"; "error_code"; "error"; "output_ref"];
   CreateTable "job_transitions" ["transition_id"; "job_id"; "from_status"; "to_status"; "reason"; "created_at"];
   CreateTable "job_idempotency" ["idempotency_key"; "job_id"; "created_at"];
   CreateTable "job_tasks" ["job_id"; "task_json"];
   CreateTable "job_outputs" ["job_id"; "result_json"; "created_at"];
   CreateIndex "jobs_claim_order" "jobs";
   CreateIndex "attempts_active_lease" "execution_attempts"].

Definition downgrade_v1 : list stmt :=
  map (DropTable true) ["job_idempotency"; "job_outputs"; "job_tasks"; "job_transitions"; "execution_attempts"; "jobs"].

Definition upgrade_v2 : list stmt :=
  [CreateTable "completion_outbox" ["job_id"; "attempt_id"; "created_at"; "published_at"]].

Definition downgrade_v2 : list stmt := [DropTable false "completion_outbox"].

Definition MIGRATIONS : list (list stmt * list stmt) := [(upgrade_v1, downgrade_v1); (upgrade_v2, downgrade_v2)].
Definition latest : Z := Z.of_nat (length MIGRATIONS).

(** [MIGRATIONS\[v - 1\]]. *)
Definition migration (v : Z) : list stmt * list stmt := or_else (MIGRATIONS !! Z.to_nat (v - 1)) ([], []).

(** ** Versions *)

(** SELECT MAX(version); [int(row\[0\] or 0)]. *)
Definition current_version (s : schema) : Z := foldl Z.max 0 (map fst (sc_versions s)).

(** One turn of the loop of [upgrade], statement by statement. *)
Definition upgrade_script (now : time) (v : Z) : list stmt := (migration v).1 ++ [InsertVersion v now].

Definition upgrade (target : option Z) (now : time) : M schema Z :=
  let target := or_else target latest in
  mguard ((0 <=? target) && (target <=? latest)) ValueError;;
  s ← mget;
  let version := current_version s in
  miter (λ v, miter exec (upgrade_script now v)) (seqZ (version + 1) (target - version));;
  mread (λ s, Ok (current_version s)).

Definition rollback_script (v : Z) : list stmt := (migration v).2 ++ [DeleteVersion v].

Definition rollback (target : Z) : M schema Z :=
  s ← mget;
  let version := current_version s in
  mguard ((0 <=? target) && (target <=? version)) ValueError;;
  miter (λ v, miter exec (rollback_script v)) (rev (seqZ (target + 1) (version - target)));;
  mread (λ s, Ok (current_version s)).

(** ** Theorems *)

(** The schema of each version, with the times its migrations were applied at. *)
Definition schema_1 (t1 : time) : schema := (miter exec (upgrade_script t1 1) empty_schema).2.
Definition schema_2 (t1 t2 : time) : schema := (miter exec (upgrade_script t2 2) (schema_1 t1)).2.
Definition schema_at (v : Z) (t1 t2 : time) : schema :=
  match v with 0 => empty_schema | 1 => schema_1 t1 | _ => schema_2 t1 t2 end.

Lemma versions_at v t1 t2 : 0 <= v <= latest → current_version (schema_at v t1 t2) = v.
Proof. unfold latest. simpl. intros Hv. assert (v = 0 ∨ v = 1 ∨ v = 2) as [-> |[-> | ->]] by lia; by vm_compute. Qed.

Lemma one_up t1 t2 : miter exec (upgrade_script t1 1) empty_schema = (Ok tt, schema_1 t1)
  ∧ miter exec (upgrade_script t2 2) (schema_1 t1) = (Ok tt, schema_2 t1 t2).
Proof. split; by vm_compute. Qed.

Lemma one_down t1 t2 : miter exec (rollback_script 2) (schema_2 t1 t2) = (Ok tt, schema_1 t1)
  ∧ miter exec (rollback_script 1) (schema_1 t1) = (Ok tt, empty_schema).
Proof. split; by vm_compute. Qed.

#[local] Opaque schema_1 schema_2.

Lemma miter_step {S A} (f : A → M S unit) a l s s' : f a s = (Ok tt, s') → miter f (a :: l) s = miter f l s'.
Proof. intros H. simpl. by rewrite (mbind_step _ _ _ _ _ H). Qed.

(** The migrations go up and down as they say. From the schema of any version an upgrade
    ends in the schema of its target, or changes nothing when the target is not newer; a
    rollback from there ends in the schema it goes back to, with the times of the
    migrations that stay; and neither goes anywhere else. *)
Theorem migrations_go_up_and_down v target t1 t2 now : 0 <= v <= latest → 0 <= target <= latest →
  upgrade (Some target) now (schema_at v t1 t2) =
    (Ok (Z.max v target), schema_at (Z.max v target) (if v =? 0 then now else t1) (if v <=? 1 then now else t2))
  ∧ (target <= v → rollback target (schema_at v t1 t2) = (Ok target, schema_at target t1 t2))
  ∧ (v < target → rollback target (schema_at v t1 t2) = (Raise ValueError, schema_at v t1 t2)).
Proof.
  intros Hv Ht. pose proof (versions_at v t1 t2 Hv) as Ev. unfold upgrade, rollback. split_and!.
  - rewrite (mbind_step _ _ _ tt (schema_at v t1 t2)) by by apply mguard_true; simpl; lia.
    rewrite (mbind_step mget _ _ _ _ eq_refl), Ev.
    rewrite (mbind_step _ _ _ tt (schema_at (Z.max v target) (if v =? 0 then now else t1) (if v <=? 1 then now else t2))).
    { unfold mread. by rewrite versions_at by lia. }
    clear Ev. unfold latest in *. simpl in Hv, Ht.
    assert (v = 0 ∨ v = 1 ∨ v = 2) as [-> |[-> | ->]] by lia;
      assert (target = 0 ∨ target = 1 ∨ target = 2) as [-> |[-> | ->]] by lia. 1, 4, 5, 7, 8, 9: reflexivity.
    + change (seqZ (0 + 1) (1 - 0)) with [1]. rewrite (miter_step _ 1 [] _ (schema_1 now)) by apply (one_up now t2). done.
    + change (seqZ (0 + 1) (2 - 0)) with [1; 2]. rewrite (miter_step _ 1 [2] _ (schema_1 now)) by apply (one_up now now).
      rewrite (miter_step _ 2 [] _ (schema_2 now now)) by apply (one_up now now). done.
    + change (seqZ (1 + 1) (2 - 1)) with [2]. rewrite (miter_step _ 2 [] _ (schema_2 t1 now)) by apply (one_up t1 now). done.
  - intros Hle. rewrite (mbind_step mget _ _ _ _ eq_refl), Ev.
    rewrite (mbind_step _ _ _ tt (schema_at v t1 t2)) by (apply mguard_true; lia).
    rewrite (mbind_step _ _ _ tt (schema_at target t1 t2)).
    { unfold mread. by rewrite versions_at by lia. }
    clear Ev. unfold latest in *. simpl in Hv, Ht.
    assert (v = 0 ∨ v = 1 ∨ v = 2) as [-> |[-> | ->]] by lia;
      assert (target = 0 ∨ target = 1 ∨ target = 2) as [-> |[-> | ->]] by lia; try lia. 1, 3, 6: reflexivity.
    + change (rev (seqZ (0 + 1) (1 - 0))) with [1]. rewrite (miter_step _ 1 [] _ empty_schema) by apply (one_down t1 t2). done.
    + change (rev (seqZ (0 + 1) (2 - 0))) with [2; 1]. rewrite (miter_step _ 2 [1] _ (schema_1 t1)) by apply (one_down t1 t2).
      rewrite (miter_step _ 1 [] _ empty_schema) by apply (one_down t1 t2). done.
    + change (rev (seqZ (1 + 1) (2 - 1))) with [2]. rewrite (miter_step _ 2 [] _ (schema_1 t1)) by apply (one_down t1 t2). done.
  - intros Hlt. rewrite (mbind_step mget _ _ _ _ eq_refl), Ev. unfold mbind, M_bind, mguard, mlift, rguard.
    by rewrite (proj2 (andb_false_iff _ _)) by (right; lia).
Qed.

(** An upgrade that was cut off cannot be taken up again. When a process ends after some of
    the statements of the first migration, but before its version is recorded, every later
    upgrade raises at the table that is already there, and the store cannot be opened. *)
Theorem an_interrupted_upgrade_blocks n now now' : (0 < n ≤ length upgrade_v1)%nat →
  let s := (miter exec (take n (upgrade_script now 1)) empty_schema).2 in
  (upgrade None now' s).1 = Raise OperationalError ∧ (upgrade None now' s).2 = s.
Proof.
  intros Hn. assert (H : n = 1%nat ∨ n = 2%nat ∨ n = 3%nat ∨ n = 4%nat ∨ n = 5%nat ∨ n = 6%nat ∨ n = 7%nat ∨ n = 8%nat) by (simpl in Hn; lia).
  destruct H as [->|[->|[->|[->|[->|[->|[->| ->]]]]]]]; by vm_compute.
Qed.

Lemma migrations_go_up_and_down_witness :
  (upgrade (Some 2) 9 (schema_at 1 5 6)).1 = Ok 2
  ∧ map fst (map_to_list (sc_tables (upgrade (Some 2) 9 (schema_at 1 5 6)).2)) ≠ [].
Proof.
  destruct (migrations_go_up_and_down 1 2 5 6 9) as [H _]; [by vm_compute..|].
  rewrite H. split; [done|by vm_compute].
Defined.

Lemma an_interrupted_upgrade_blocks_witness :
  (upgrade None 9 (miter exec (take 3 (upgrade_script 5 1)) empty_schema).2).1 = Raise OperationalError.
Proof. apply (an_interrupted_upgrade_blocks 3 5 9). simpl. lia. Defined.
