(* ===== verification/Mcp.v ===== *)
(** core/quasar: the client of an MCP server over its standard streams (client.py) and the
    agent that offers the servers' tools as skills (agent.py).

    A server process is what the client observes of it: the successive results of
    [queue.get] ([p_out]: a line of output, the end of output, or a wait that timed out),
    whether a write fails and whether it still runs when it is asked. Each process has its own
    output, as each has its own inbox. The processes the next starts yield are a list too,
    [None] for one that cannot be started. The output is finite: it is what arrives while the
    calls under study run. The code sets no bound to it, neither to the other messages read
    while an answer is awaited nor to the pages of a listing. The lock makes one call a step.
    [json.loads] and [str] of a value are arguments. *)

From S2P Require Import Prelude.
From S2P Require Import AgentLoader.
From S2P Require Import PyStr.
From S2P Require Import PyTime.
From S2P Require Import Json.
From S2P Require Import PyDict.
From S2P Require Import Contracts.
From S2P Require Import Registry.
From S2P Require Import A2A.
From S2P Require Import Wormhole.
Open Scope Z_scope.

(** ** The process and the client *)

Inductive arrival := Line (s : string) | Eof | Silence.

Record process := mk_process {
  p_out : list arrival;
  p_writes : list bool;
  p_polls : list bool }.

(** The fields of [McpStdioClient], what was sent to the running process, and the
    processes to come. *)
Record mcp := mk_mcp {
  mc_proc : option process;
  mc_next_id : Z;
  mc_sent : list jdict;
  mc_stopped : nat;
  mc_starts : list (option process) }.

Definition PROTOCOL_VERSION : string := "2024-11-05".

Definition set_proc (p : process) (c : mcp) : mcp := mk_mcp (Some p) (mc_next_id c) (mc_sent c) (mc_stopped c) (mc_starts c).

(** [_stop]. *)
Definition stop : M mcp unit := mmodify (λ c,
  match mc_proc c with
  | None => c
  | Some _ => mk_mcp None (mc_next_id c) [] (S (mc_stopped c)) (mc_starts c)
  end).

Definition lost : exn := McpError "MCP server connection lost".
Definition exited : exn := McpError "MCP server exited unexpectedly".
Definition timed_out (method : string) : exn := McpError ("MCP " +:+ method +:+ " timed out").
Definition not_started : exn := McpError "failed to start MCP server".

(** [_send]: without a process there is no stdin. *)
Definition send (message : jdict) : M mcp unit := λ c,
  match mc_proc c with
  | None => (Raise AttributeError, c)
  | Some p =>
      match p_writes p with
      | false :: _ => (stop;; mraise lost) c
      | ws => (Ok tt, mk_mcp (Some (mk_process (p_out p) (tail ws) (p_polls p))) (mc_next_id c)
                        (mc_sent c ++ [message]) (mc_stopped c) (mc_starts c))
      end
  end.

Section Client.
Context (json_loads : string → result json) (py_str : json → string).

(** [message.get("id") != rid], of numbers. *)
Definition id_is (rid : Z) (v : json) : bool :=
  match v with
  | JInt z => z =? rid
  | JFloat q => Qeq_bool q (inject_Z rid)
  | JBool b => (if b then 1 else 0) =? rid
  | _ => false
  end.

(** [McpError(message\["error"\].get("message", "MCP error"))]. *)
Definition error_of (e : json) : exn :=
  match e with
  | JObj d => McpError (match obj_default "message" (JStr "MCP error") d with JStr s => s | v => py_str v end)
  | _ => AttributeError
  end.

(** What the loop of [_request] makes of a message: read on, or end. *)
Definition take_message (rid : Z) (m : json) : option (result json) :=
  match m with
  | JObj d =>
      if negb (id_is rid (obj_field "id" d)) || obj_has "method" d then None
      else match obj_get "error" d with
           | Some e => Some (Raise (error_of e))
           | None => Some (Ok (obj_default "result" (JObj []) d))
           end
  | _ => Some (Raise AttributeError)
  end.

(** The loop of [_request], and the output it leaves; [None]: the process is dropped. *)
Fixpoint await_reply (method : string) (rid : Z) (out : list arrival) : result json * option (list arrival) :=
  match out with
  | [] => (Raise (timed_out method), None)
  | Silence :: _ => (Raise (timed_out method), None)
  | Eof :: _ => (Raise exited, None)
  | Line s :: out =>
      match json_loads s with
      | Raise _ => await_reply method rid out
      | Ok JNull => (Raise exited, None)
      | Ok m =>
          match take_message rid m with
          | None => await_reply method rid out
          | Some r => (r, Some out)
          end
      end
  end.

Definition rpc (id : option Z) (method : string) (params : option jdict) : jdict :=
  [("jsonrpc", JStr "2.0")] ++ match id with Some i => [("id", JInt i)] | None => [] end
  ++ [("method", JStr method)] ++ match params with Some p => [("params", JObj p)] | None => [] end.

(** [_request]. *)
Definition request (method : string) (params : jdict) : M mcp json :=
  mmodify (λ c, mk_mcp (mc_proc c) (mc_next_id c + 1) (mc_sent c) (mc_stopped c) (mc_starts c));;
  c ← mget;
  let rid := mc_next_id c in
  send (rpc (Some rid) method (Some params));;
  c ← mget;
  match mc_proc c with
  | None => mraise AttributeError
  | Some p =>
      match await_reply method rid (p_out p) with
      | (r, None) => stop;; mlift r
      | (r, Some out) => mput (set_proc (mk_process out (p_writes p) (p_polls p)) c);; mlift r
      end
  end.

Definition initialize_params : jdict :=
  [("protocolVersion", JStr PROTOCOL_VERSION); ("capabilities", JObj []);
   ("clientInfo", JObj [("name", JStr "galaxz-quasar"); ("version", JStr "0.1.0")])].

(** [except McpError: self._stop(); raise]. *)
Definition stop_on_mcp_error {A} (m : M mcp A) : M mcp A := λ c,
  match m c with
  | (Raise (McpError s), c') => (stop;; mraise (McpError s)) c'
  | r => r
  end.

(** Starting a process and greeting it. *)
Definition start : M mcp unit :=
  stop;;
  c ← mget;
  match mc_starts c with
  | Some p :: rest =>
      mput (mk_mcp (Some p) 0 [] (mc_stopped c) rest);;
      stop_on_mcp_error (
        request "initialize" initialize_params;;
        send (rpc None "notifications/initialized" None))
  | None :: rest => mput (mk_mcp None (mc_next_id c) [] (mc_stopped c) rest);; mraise not_started
  | [] => mraise not_started
  end.

(** [self._proc is not None and self._proc.poll() is None]: when the polls run out it runs. *)
Definition running : M mcp bool := λ c,
  match mc_proc c with
  | None => (Ok false, c)
  | Some p => (Ok (match p_polls p with b :: _ => b | [] => true end),
               set_proc (mk_process (p_out p) (p_writes p) (tail (p_polls p))) c)
  end.

(** [_ensure_started]. *)
Definition ensure_started : M mcp unit :=
  alive ← running;
  if (alive : bool) then mret tt else start.

(** [_call]. *)
Definition call (method : string) (params : jdict) : M mcp json := ensure_started;; request method params.

(** [result.get(k, default)]. *)
Definition reply_field (k : string) (dflt : json) (v : json) : result json :=
  match v with JObj d => Ok (obj_default k dflt d) | _ => Raise AttributeError end.

(** [list_tools]: page by page; [None] when the pages run out. *)
Fixpoint list_pages (pages : nat) (cursor : json) (tools : list json) : M mcp (option (list json)) :=
  match pages with
  | O => mret None
  | S pages =>
      result ← call "tools/list" (if truthy cursor then [("cursor", cursor)] else []);
      page ← mlift (reply_field "tools" (JArr []) result);
      page ← mlift (py_iter page);
      cursor ← mlift (reply_field "nextCursor" JNull result);
      if truthy cursor then list_pages pages cursor (tools ++ page) else mret (Some (tools ++ page))
  end.

Definition list_tools (pages : nat) : M mcp (option (list json)) := list_pages pages JNull [].

Definition call_tool (name : json) (arguments : jdict) : M mcp json :=
  call "tools/call" [("name", name); ("arguments", JObj arguments)].
End Client.

(** The arrivals and processes a client has before it. *)
Definition supply (c : mcp) : nat :=
  (match mc_proc c with Some p => length (p_out p) | None => 0 end
   + sum_list_with (λ o, match o with Some p => S (length (p_out p)) | None => 1 end) (mc_starts c))%nat.

(** ** The agent *)

(** One entry of the configuration; the client of its command is an [mcp]. *)
Record server_config := mk_server_config {
  sv_name : option string;
  sv_command : option (list string);
  sv_allowed : option (list string) }.

Record server_status := mk_server_status {
  ss_name : string;
  ss_ok : bool;
  ss_error : option string;
  ss_tools : list (string * string);
  ss_allowed : option (list string) }.

(** [_clients], [_skills], [_server_status] and the definitions collected for Pulsar. *)
Record quasar := mk_quasar {
  q_clients : list (string * mcp);
  q_skills : list (string * (string * json));
  q_status : list server_status;
  q_definitions : list SkillDefinition }.

Section Agent.
Context (json_loads : string → result json) (py_str : json → string) (model_dump : SkillManifest → json).

(** [f"{v}"]. *)
Definition shown (v : json) : string := match v with JStr s => s | _ => py_str v end.

(** The skill of one tool: its id, its name at the server, and its definition. *)
Definition tool_skill (server : string) (allowed : option (list string)) (tool : json) :
    result (string * json * string * SkillDefinition) :=
  t ← of_option TypeError (as_dict tool);
  name ← of_option KeyError (obj_get "name" t);
  let id := "quasar." +:+ server +:+ "." +:+ shown name in
  d ← match jor (obj_field "description" t) name with JStr s => Ok s | _ => Raise ValueError end;
  schema ← of_option ValueError (as_dict (jor (obj_field "inputSchema" t) (JObj [])));
  def ← validate_skill (mk_Skill id d schema [] (9 # 10) 1000 allowed);
  Ok (id, name, d, def).

(** The tools of one server, added to the skills, the listing and the definitions. *)
Fixpoint add_tools (server : string) (allowed : option (list string)) (tools : list json)
    (acc : list (string * (string * json)) * list (string * string) * list SkillDefinition) :
    result (list (string * (string * json)) * list (string * string) * list SkillDefinition) :=
  match tools with
  | [] => Ok acc
  | tool :: tools =>
      r ← tool_skill server allowed tool;
      let '(id, name, d, def) := r in
      let '(skills, listed, defs) := acc in
      add_tools server allowed tools
        (assoc_set id (server, name) skills, listed ++ [(id, d)], defs ++ [def])
  end.

(** One turn of the loop of [__init__]: a server that fails is closed and passed over. *)
Definition join_server (pages : nat) (cfg : server_config) (c : mcp) (q : quasar) : result (option quasar) :=
  name ← of_option KeyError (sv_name cfg);
  _ ← of_option KeyError (sv_command cfg);
  let status ok err tools := mk_server_status name ok err tools (sv_allowed cfg) in
  match list_tools json_loads py_str pages c with
  | (Raise (McpError why), _) =>
      Ok (Some (mk_quasar (q_clients q) (q_skills q) (q_status q ++ [status false (Some why) []]) (q_definitions q)))
  | (Raise e, _) => Raise e
  | (Ok None, _) => Ok None
  | (Ok (Some tools), c) =>
      r ← add_tools name (sv_allowed cfg) tools (q_skills q, [], q_definitions q);
      let '(skills, listed, defs) := r in
      Ok (Some (mk_quasar (assoc_set name c (q_clients q)) skills (q_status q ++ [status true None listed]) defs))
  end.

Fixpoint join_servers (pages : nat) (servers : list (server_config * mcp)) (q : quasar) : result (option quasar) :=
  match servers with
  | [] => Ok (Some q)
  | (cfg, c) :: servers =>
      r ← join_server pages cfg c q;
      match r with None => Ok None | Some q => join_servers pages servers q end
  end.

Definition QUASAR_ID : string := "quasar".

(** What [__init__] tells Pulsar: the manifest, or the removal of a stale one. *)
Definition announce_tools (now : time) (q : quasar) (r : registry) : registry :=
  match q_definitions q with
  | [] => match get_agent QUASAR_ID r with Some _ => deregister QUASAR_ID r | None => r end
  | defs => register model_dump (mk_Manifest QUASAR_ID "Quasar MCP Tool Manager" "0.1.0" defs
              "http://quasar:8000/health" now 30) r
  end.

(** [QuasarAgent.__init__]. *)
Definition quasar_init (pages : nat) (servers : list (server_config * mcp)) (now : time) (r : registry) :
    result (option (quasar * registry)) :=
  q ← join_servers pages servers (mk_quasar [] [] [] []);
  Ok ((λ q, (q, announce_tools now q r)) <$> (q : option quasar)).

(** [c.get("text", "") for c in content if c.get("type") == "text"]. *)
Definition text_of_part (c : json) : result (option json) :=
  match c with
  | JObj d => Ok (if is_str (obj_field "type" d) "text" then Some (obj_default "text" (JStr "") d) else None)
  | _ => Raise AttributeError
  end.

Definition joined (parts : list json) : result string :=
  texts ← rmap (λ v, match v with JStr s => Ok s | _ => Raise TypeError end) parts;
  Ok (join newline texts).

(** The answer [run] makes of a result. *)
Definition tool_answer (result_ : json) : result jdict :=
  d ← of_option AttributeError (as_dict result_);
  let content := obj_default "content" (JArr []) d in
  let is_error := truthy (obj_field "isError" d) in
  items ← py_iter content;
  parts ← rmap text_of_part items;
  text ← joined (omap id (parts : list (option json)));
  let confidence := JFloat (if is_error then 0 else 1) in
  Ok [("content", content); ("is_error", JBool is_error); ("artifacts", JArr []); ("summary", JStr text);
      ("writable", JBool false); ("confidence", confidence);
      ("confidence_breakdown", JObj [("structural", confidence); ("self_critique", confidence); ("historical", JFloat (1 # 2))]);
      ("gaps", JArr (if is_error then [JStr text] else [])); ("execution_result", JNull); ("externally_calibrated", JBool false)].

(** [run]: the tool is called at the client its server's name stands for. *)
Definition quasar_run (skill : string) (payload : jdict) : M quasar jdict := λ q,
  match assoc_get skill (q_skills q) with
  | None => (Raise ValueError, q)
  | Some (server, tool) =>
      match assoc_get server (q_clients q) with
      | None => (Raise KeyError, q)
      | Some c =>
          let '(r, c) := call_tool json_loads py_str tool payload c in
          let q := mk_quasar (assoc_set server c (q_clients q)) (q_skills q) (q_status q) (q_definitions q) in
          (v ← r; tool_answer v, q)
      end
  end.

(** [close]. *)
Definition quasar_close (q : quasar) : quasar :=
  mk_quasar (map (λ nc, (nc.1, (stop nc.2).2)) (q_clients q)) (q_skills q) (q_status q) (q_definitions q).
End Agent.

(** ** Theorems

    The MCP client reads each answer for the request it belongs to: ids are never reused
    with one process, an answer with another id is passed over, and when a wait fails the
    process is dropped, so that no late answer is ever read. The agent offers exactly the
    tools it can run. *)

Section Client.
Context (json_loads : string → result json) (py_str : json → string).

(** ** Reading an answer *)

(** A line that is the answer to request [rid]. *)
Definition answers (rid : Z) (a : arrival) (d : jdict) : Prop :=
  ∃ s, a = Line s ∧ json_loads s = Ok (JObj d) ∧ id_is rid (obj_field "id" d) = true ∧ obj_has "method" d = false.

Lemma await_ends method rid out r o : await_reply json_loads py_str method rid out = (r, o) →
  match o with
  | None => r = Raise exited ∨ r = Raise (timed_out method)
  | Some rest => ∃ pre a, out = pre ++ a :: rest ∧
      (r = Raise AttributeError ∨ ∃ d, answers rid a d ∧
        match obj_get "error" d with
        | Some e => r = Raise (error_of py_str e)
        | None => r = Ok (obj_default "result" (JObj []) d)
        end) ∧ ∀ d, Exists (λ b, answers rid b d) pre → False
  end.
Proof.
  induction out as [|a out IH]; simpl; intros H; [simplify_eq; by right|].
  assert (Hskip : ∀ P : Prop, (∀ d, answers rid a d → False) → (match o with
      | None => r = Raise exited ∨ r = Raise (timed_out method)
      | Some rest => ∃ pre b, out = pre ++ b :: rest ∧
          (r = Raise AttributeError ∨ ∃ d, answers rid b d ∧ match obj_get "error" d with
            | Some e => r = Raise (error_of py_str e) | None => r = Ok (obj_default "result" (JObj []) d) end)
          ∧ ∀ d, Exists (λ b, answers rid b d) pre → False end) →
      match o with
      | None => r = Raise exited ∨ r = Raise (timed_out method)
      | Some rest => ∃ pre b, a :: out = pre ++ b :: rest ∧
          (r = Raise AttributeError ∨ ∃ d, answers rid b d ∧ match obj_get "error" d with
            | Some e => r = Raise (error_of py_str e) | None => r = Ok (obj_default "result" (JObj []) d) end)
          ∧ ∀ d, Exists (λ b, answers rid b d) pre → False end).
  { intros _ Hna. destruct o as [rest|]; [|done]. intros (pre & b & -> & Hr & Hpre). exists (a :: pre), b.
    split_and!; [done|done|]. intros d [Hd|Hd]%Exists_cons; [by eapply Hna|by eapply Hpre]. }
  destruct a as [s| |]; [|simplify_eq; by left|simplify_eq; by right].
  destruct (json_loads s) as [m|e] eqn:E.
  2: { apply (Hskip True); [intros d (s' & [= <-] & Hs & _); congruence|by apply IH]. }
  assert (Hnull : m = JNull ∨ m ≠ JNull) by (destruct m; auto). destruct Hnull as [->|Hm]; [simplify_eq; by left|].
  assert (H' : match take_message py_str rid m with None => await_reply json_loads py_str method rid out | Some r => (r, Some out) end = (r, o))
    by by destruct m.
  clear H. destruct (take_message py_str rid m) as [r'|] eqn:Et.
  - simplify_eq. exists [], (Line s). split_and!; [done| |by intros d Hd%Exists_nil].
    unfold take_message in Et. destruct m as [| | | | | |d]; try (simplify_eq; by left).
    destruct (negb _ || _) eqn:En; [done|]. reflect. right. exists d. split; [by exists s|].
    by destruct (obj_get "error" d); simplify_eq.
  - apply (Hskip True); [|by apply IH]. intros d (s' & [= <-] & Hs & Hid & Hmeth). rewrite E in Hs. injection Hs as ->.
    unfold take_message in Et. rewrite Hid, Hmeth in Et. simpl in Et. by destruct (obj_get "error" d).
Qed.

Lemma await_shorter method rid out r rest : await_reply json_loads py_str method rid out = (r, Some rest) →
  (length rest < length out)%nat.
Proof. intros H. apply await_ends in H as (pre & a & -> & _). rewrite length_app. simpl. lia. Qed.

(** ** Requests *)

(** The client after a request that ended with its process kept, and after one that lost it. *)
Definition kept (method : string) (params : jdict) (c : mcp) (p : process) (out : list arrival) : mcp :=
  mk_mcp (Some (mk_process out (tail (p_writes p)) (p_polls p))) (mc_next_id c + 1)
    (mc_sent c ++ [rpc (Some (mc_next_id c + 1)) method (Some params)]) (mc_stopped c) (mc_starts c).
Definition dropped (c : mcp) : mcp := mk_mcp None (mc_next_id c + 1) [] (S (mc_stopped c)) (mc_starts c).

Inductive request_ends (method : string) (params : jdict) (c : mcp) (p : process) : result json → mcp → Prop :=
  | ends_unwritten : request_ends method params c p (Raise lost) (dropped c)
  | ends_dropped r : r = Raise exited ∨ r = Raise (timed_out method) → request_ends method params c p r (dropped c)
  | ends_kept r out : await_reply json_loads py_str method (mc_next_id c + 1) (p_out p) = (r, Some out) →
      request_ends method params c p r (kept method params c p out).

Lemma request_cases method params c p r c' : mc_proc c = Some p →
  request json_loads py_str method params c = (r, c') → request_ends method params c p r c'.
Proof.
  destruct c as [pr n sent st starts]. simpl. intros -> H. unfold request in H.
  rewrite (mbind_step _ _ _ tt (mk_mcp (Some p) (n + 1) sent st starts)) in H by done.
  rewrite (mbind_step mget _ _ _ _ eq_refl) in H. cbn [mc_next_id] in H.
  apply mbind_cases in H as [(e & H & ->)|([] & c1 & Hs & H)].
  - unfold send in H. cbn [mc_proc] in H. destruct (p_writes p) as [|[] ws]; try discriminate H.
    unfold stop, mmodify, mraise, mbind, M_bind in H. injection H as <- <-. apply ends_unwritten.
  - assert (E : c1 = mk_mcp (Some (mk_process (p_out p) (tail (p_writes p)) (p_polls p))) (n + 1)
        (sent ++ [rpc (Some (n + 1)) method (Some params)]) st starts).
    { unfold send in Hs. cbn [mc_proc] in Hs. destruct (p_writes p) as [|[] ws]; simplify_eq/=; done. }
    subst c1. rewrite (mbind_step mget _ _ _ _ eq_refl) in H. cbn [mc_proc p_out p_writes p_polls] in H.
    destruct (await_reply json_loads py_str method (n + 1) (p_out p)) as [x [out|]] eqn:Ea.
    + unfold mput, mlift, mbind, M_bind in H. injection H as <- <-. by apply (ends_kept method params (mk_mcp (Some p) n sent st starts)).
    + unfold stop, mmodify, mlift, mbind, M_bind in H. injection H as <- <-.
      apply (ends_dropped method params (mk_mcp (Some p) n sent st starts)). by apply await_ends in Ea.
Qed.

(** ** Fresh ids *)

Definition id_of (m : jdict) : option Z := match obj_get "id" m with Some (JInt z) => Some z | _ => None end.

(** What was sent to the running process carries ids that differ and have all been drawn;
    without a process nothing is remembered. *)
Definition fresh (c : mcp) : Prop :=
  NoDup (omap id_of (mc_sent c)) ∧ Forall (λ z, z <= mc_next_id c) (omap id_of (mc_sent c))
  ∧ (mc_proc c = None → mc_sent c = []).

Lemma fresh_none p n st starts : fresh (mk_mcp p n [] st starts).
Proof. repeat split; constructor. Qed.

Lemma omap_snoc {A B} (f : A → option B) l a : omap f (l ++ [a]) = omap f l ++ match f a with Some b => [b] | None => [] end.
Proof. rewrite omap_app. simpl. by destruct (f a). Qed.

Lemma fresh_sent m p c : fresh c → (id_of m = None ∨ ∃ p0, mc_proc c = Some p0 ∧ id_of m = Some (mc_next_id c + 1)) →
  ∀ n, mc_next_id c <= n → (∀ z, id_of m = Some z → z <= n) →
  fresh (mk_mcp (Some p) n (mc_sent c ++ [m]) (mc_stopped c) (mc_starts c)).
Proof.
  intros (Hn & Hf & _) Hid n Hle Hz. repeat split; simpl; [| |done]; rewrite omap_snoc.
  - destruct Hid as [->|(p0 & _ & ->)]; [by rewrite app_nil_r|]. apply NoDup_app. split_and!; [done| |apply NoDup_singleton].
    intros z Hin ->%list_elem_of_singleton. rewrite Forall_forall in Hf. apply Hf in Hin. lia.
  - apply Forall_app. split; [eapply Forall_impl; [exact Hf|]; simpl; lia|].
    destruct (id_of m) as [z|]; [apply Forall_singleton; by apply Hz|constructor].
Qed.

Lemma request_fresh method params c p r c' : mc_proc c = Some p → fresh c → request_ends method params c p r c' →
  fresh c' ∧ (supply c' ≤ supply c)%nat
  ∧ (is_Some (mc_proc c') → ∃ out, c' = kept method params c p out ∧ (supply c' < supply c)%nat).
Proof.
  intros Hp Hf [|r' _|r' out Ha].
  - split_and!; [apply fresh_none|unfold supply, dropped; simpl; lia|by intros [? [=]]].
  - split_and!; [apply fresh_none|unfold supply, dropped; simpl; lia|by intros [? [=]]].
  - apply await_shorter in Ha.
    assert (Hs : (supply (kept method params c p out) < supply c)%nat) by (unfold supply, kept; rewrite Hp; simpl; lia).
    split_and!; [|lia|by exists out].
    apply (fresh_sent (rpc (Some (mc_next_id c + 1)) method (Some params))); [done|right; by exists p|lia|].
    by intros z [= <-].
Qed.

(** ** Starting *)

Lemma stop_fresh c : fresh c → fresh (stop c).2 ∧ mc_proc (stop c).2 = None ∧ mc_sent (stop c).2 = []
  ∧ mc_starts (stop c).2 = mc_starts c ∧ (supply (stop c).2 ≤ supply c)%nat.
Proof.
  intros Hf. unfold stop, mmodify. simpl. destruct (mc_proc c) as [p|] eqn:E; simpl.
  - split_and!; [apply fresh_none|done..|unfold supply; rewrite E; simpl; lia].
  - pose proof Hf as (_ & _ & Hs). split_and!; [done|done|by apply Hs|done|done].
Qed.

Lemma send_cases m c p r c' : mc_proc c = Some p → send m c = (r, c') →
  (r = Raise lost ∧ c' = mk_mcp None (mc_next_id c) [] (S (mc_stopped c)) (mc_starts c))
  ∨ (r = Ok tt ∧ c' = mk_mcp (Some (mk_process (p_out p) (tail (p_writes p)) (p_polls p))) (mc_next_id c)
      (mc_sent c ++ [m]) (mc_stopped c) (mc_starts c)).
Proof.
  intros Hp H. unfold send in H. rewrite Hp in H. destruct (p_writes p) as [|[] ws]; simpl in H; try (right; by simplify_eq).
  left. unfold stop, mmodify, mraise, mbind, M_bind in H. rewrite Hp in H. by simplify_eq.
Qed.

(** The greeting of a new process. *)
Lemma greet_cases c p r c' : mc_proc c = Some p → fresh c →
  (request json_loads py_str "initialize" initialize_params;; send (rpc None "notifications/initialized" None)) c = (r, c') →
  fresh c' ∧ (supply c' ≤ supply c)%nat ∧ match r with
  | Ok _ => mc_starts c' = mc_starts c ∧ ∃ p' seen, mc_proc c' = Some p' ∧ p_out p = seen ++ p_out p'
  | Raise (McpError _) => True
  | Raise e => e = AttributeError
  end.
Proof.
  intros Hp Hf H. apply mbind_cases in H as [(e & H & ->)|(v & c1 & Hr & H)].
  - apply (request_cases _ _ _ p _ _ Hp) in H. pose proof (request_fresh _ _ _ _ _ _ Hp Hf H) as (Hf' & Hs & _).
    split_and!; [done|done|]. inversion H as [E|r0 [E|E]|r0 out Ha]; simplify_eq; try done.
    apply await_ends in Ha as (pre & a & _ & [E|(d & _ & E)] & _); [by simplify_eq|].
    destruct (obj_get "error" d) as [x|]; [|done]. injection E as ->. unfold error_of. by destruct x.
  - apply (request_cases _ _ _ p _ _ Hp) in Hr. pose proof (request_fresh _ _ _ _ _ _ Hp Hf Hr) as (Hf' & Hs & Hk).
    inversion Hr as [|r0 [|]|r0 out Ha]; simplify_eq.
    destruct (send_cases _ (kept "initialize" initialize_params c p out) (mk_process out (tail (p_writes p)) (p_polls p)) _ _ eq_refl H) as [[-> ->]|[-> ->]].
    + split_and!; [apply fresh_none| |done]. unfold supply in *. simpl in *. lia.
    + apply await_ends in Ha as (pre & a & Eo & _).
      split_and!; [|unfold supply in *; simpl in *; lia|done|].
      2: { eexists _, (pre ++ [a]). split; [done|]. simpl. by rewrite Eo, <-app_assoc. }
      apply (fresh_sent _ _ (kept "initialize" initialize_params c p out)); [done|by left|done|done].
Qed.

Lemma start_cases c r c' : fresh c → start json_loads py_str c = (r, c') →
  fresh c' ∧ (supply c' ≤ supply c)%nat ∧ match r with
  | Ok _ => ∃ p0 p' seen, mc_starts c = Some p0 :: mc_starts c' ∧ mc_proc c' = Some p' ∧ p_out p0 = seen ++ p_out p'
  | Raise e => mc_proc c' = None ∨ e = AttributeError
  end.
Proof.
  intros Hf H. destruct (stop_fresh c Hf) as (Hf0 & Hp0 & Hs0 & Hst & Hsup). unfold start in H.
  rewrite (mbind_step stop _ c tt (stop c).2), (mbind_step mget _ _ _ _ eq_refl) in H by done.
  destruct (stop c).2 as [pr n sent st starts]. simpl in *. subst pr sent.
  destruct starts as [|[p|] rest].
  - unfold mraise in H. simplify_eq. by split_and!; try left.
  - rewrite (mbind_step _ _ _ tt (mk_mcp (Some p) 0 [] st rest)) in H by done.
    unfold stop_on_mcp_error in H.
    destruct ((request json_loads py_str "initialize" initialize_params;; send (rpc None "notifications/initialized" None))
      (mk_mcp (Some p) 0 [] st rest)) as [x c1] eqn:Eg.
    pose proof (greet_cases (mk_mcp (Some p) 0 [] st rest) p _ _ eq_refl (fresh_none _ _ _ _) Eg) as (Hf1 & Hs1 & Hx).
    assert (Hsup1 : (supply c1 ≤ supply c)%nat) by (unfold supply in *; simpl in *; lia).
    destruct x as [u|e].
    { destruct Hx as (Es & p' & seen & Hp' & Ho). simplify_eq. split_and!; [done|done|].
      exists p, p', seen. rewrite Es. split_and!; [by rewrite <-Hst|done|done]. }
    destruct e; simplify_eq; try (split_and!; [done|done|by right]).
    unfold mbind, M_bind in H. destruct (stop_fresh c1 Hf1) as (Hf2 & Hp2 & _ & _ & Hs2).
    destruct (stop c1) as [[u|e] c2] eqn:Es; unfold mraise in H; [|by unfold stop, mmodify in Es]. simplify_eq. simpl in *.
    split_and!; [done|lia|by left].
  - rewrite (mbind_step _ _ _ tt (mk_mcp None n [] st rest)) in H by done. unfold mraise in H. simplify_eq.
    split_and!; [apply fresh_none|unfold supply in *; simpl in *; lia|by left].
Qed.

(** The process a call is served by: the running one, with all its output still to be read,
    or the next one started, less what its greeting has read. *)
Definition served (c c1 : mcp) (p : process) : Prop :=
  (∃ p0, mc_proc c = Some p0 ∧ p_out p0 = p_out p ∧ mc_starts c1 = mc_starts c)
  ∨ ∃ p0 seen, mc_starts c = Some p0 :: mc_starts c1 ∧ p_out p0 = seen ++ p_out p.

(** Every call starts from, and leaves, fresh ids. *)
Lemma call_cases method params c r c' : fresh c → call json_loads py_str method params c = (r, c') →
  fresh c' ∧ match r with
  | Raise e => ∃ c1, (c' = c1 ∧ (mc_proc c' = None ∨ e = AttributeError))
      ∨ ∃ p, fresh c1 ∧ mc_proc c1 = Some p ∧ served c c1 p ∧ request_ends method params c1 p (Raise e) c'
  | Ok v => (supply c' < supply c)%nat ∧
      ∃ c1 p, fresh c1 ∧ mc_proc c1 = Some p ∧ served c c1 p ∧ request_ends method params c1 p (Ok v) c'
  end.
Proof.
  intros Hf H. unfold call in H. apply mbind_cases in H as [(e & H & ->)|([] & c1 & He & H)].
  - unfold ensure_started in H. apply mbind_cases in H as [(e' & H & _)|(alive & c0 & Hr & H)].
    { unfold running in H. by destruct (mc_proc c). }
    destruct alive; [done|].
    assert (Hf0 : fresh c0). { unfold running in Hr. destruct (mc_proc c) eqn:E; simplify_eq; [|done]. destruct Hf as (? & ? & _). by split_and!. }
    destruct (start_cases _ _ _ Hf0 H) as (Hf' & _ & Hx). split; [done|]. exists c'. by left.
  - assert (Hc1 : fresh c1 ∧ (supply c1 ≤ supply c)%nat ∧ ∃ p, mc_proc c1 = Some p ∧ served c c1 p).
    { unfold ensure_started in He. apply mbind_ok in He as (alive & c0 & Hr & H0).
      assert (Hc0 : fresh c0 ∧ (supply c0 ≤ supply c)%nat ∧ mc_starts c0 = mc_starts c
        ∧ (alive = true → ∃ p, mc_proc c0 = Some p ∧ served c c0 p)).
      { unfold running in Hr. destruct (mc_proc c) as [p|] eqn:E; simplify_eq; [|done]. destruct Hf as (? & ? & _).
        split_and!; [by split_and!|unfold supply, set_proc; rewrite E; simpl; lia|done|].
        intros _. eexists. split; [done|]. left. by exists p. }
      destruct Hc0 as (Hf0 & Hs0 & Hst & Ha0). destruct alive.
      - unfold mret, M_ret in H0. simplify_eq. split_and!; [done|done|by apply Ha0].
      - destruct (start_cases _ _ _ Hf0 H0) as (Hf1 & Hs1 & p0 & p & seen & E & Hp & Ho).
        split_and!; [done|lia|]. exists p. split; [done|]. right. exists p0, seen. by rewrite <-Hst. }
    destruct Hc1 as (Hf1 & Hs1 & p & Hp1 & Hserved). apply (request_cases _ _ _ p _ _ Hp1) in H.
    pose proof (request_fresh _ _ _ _ _ _ Hp1 Hf1 H) as (Hf' & Hs' & Hk). split; [done|].
    destruct r as [v|e].
    + split; [|by exists c1, p]. inversion H as [|? [|]|? out Ha]; simplify_eq.
      destruct (Hk ltac:(done)) as (out' & _ & Hlt). lia.
    + exists c1. right. by exists p.
Qed.

(** ** Theorems on the client *)

(** The line [a] was read by a call that led from [c] to [c'], from the process that was sent
    the request: of all the output of the process that was running, or of the one started for
    this call, only [seen], read when it was greeted, and [passed] came before it, and what
    comes after it is still to be read. No line that was passed over answers the request. *)
Definition read_from (c c' : mcp) (a : arrival) : Prop :=
  ∃ p0 p' seen passed,
    (mc_proc c = Some p0 ∧ mc_starts c' = mc_starts c ∧ seen = [] ∨ mc_starts c = Some p0 :: mc_starts c')
    ∧ mc_proc c' = Some p' ∧ p_out p0 = seen ++ passed ++ a :: p_out p'
    ∧ ∀ d, ¬ Exists (λ b, answers (mc_next_id c') b d) passed.

Lemma served_read method params c c1 p pre a out : served c c1 p → p_out p = pre ++ a :: out →
  (∀ d, Exists (λ b, answers (mc_next_id c1 + 1) b d) pre → False) →
  read_from c (kept method params c1 p out) a.
Proof.
  intros Hs Ho Hpre. destruct Hs as [(p0 & Hp0 & E & Hst)|(p0 & seen & Hst & E)].
  - eexists p0, _, [], pre. split_and!; [left; by split_and!|done|by rewrite E, Ho|done].
  - eexists p0, _, seen, pre. split_and!; [by right|done|by rewrite E, Ho|done].
Qed.

(** C35: an answer belongs to its request. A call that returns [v] has sent its request last,
    under an id the process had not been sent before, and [v] is the result of the first
    line with this id that the same process said since its greeting: a line of its own
    output, unread before, never of the output of a process that ran earlier. A call that
    raises [McpError] has no process any more, so nothing it still says will be read, or was
    answered with an error by such a line. Either way the ids stay fresh. *)
Theorem answers_belong_to_their_request method params c r c' : fresh c →
  call json_loads py_str method params c = (r, c') →
  fresh c' ∧ match r with
  | Ok v => ∃ sent a d,
      mc_sent c' = sent ++ [rpc (Some (mc_next_id c')) method (Some params)]
      ∧ (mc_next_id c' ∉ omap id_of sent)
      ∧ read_from c c' a ∧ answers (mc_next_id c') a d ∧ obj_get "error" d = None ∧ v = obj_default "result" (JObj []) d
  | Raise (McpError why) => mc_proc c' = None ∨ ∃ a d e, read_from c c' a ∧
      answers (mc_next_id c') a d ∧ obj_get "error" d = Some e ∧ error_of py_str e = McpError why
  | Raise _ => True
  end.
Proof.
  intros Hf H. destruct (call_cases _ _ _ _ _ Hf H) as [Hf' Hr]. split; [done|]. destruct r as [v|e].
  - destruct Hr as (_ & c1 & p & (_ & Hmax & _) & Hp & Hsv & Hends). inversion Hends as [|? [|]|? out Ha]; simplify_eq.
    apply await_ends in Ha as (pre & a & Ho & [|(d & Hd & E)] & Hpre); [done|].
    exists (mc_sent c1), a, d. split_and!; [done| |by eapply served_read|done| |].
    + intros Hin. rewrite Forall_forall in Hmax. apply Hmax in Hin. cbn [kept mc_next_id] in Hin. lia.
    + by destruct (obj_get "error" d).
    + destruct (obj_get "error" d); by simplify_eq.
  - destruct e; try done. destruct Hr as (c1 & [[-> [Hp|]]|(p & _ & Hp & Hsv & Hends)]); [by left|done|].
    inversion Hends as [|? [|]|? out Ha]; simplify_eq; try (by left).
    right. apply await_ends in Ha as (pre & a & Ho & [|(d & Hd & E)] & Hpre); [done|].
    destruct (obj_get "error" d) as [x|] eqn:Ex; [|done]. injection E as E. exists a, d, x.
    split_and!; [by eapply served_read|done..].
Qed.

Lemma list_pages_ends n : ∀ cursor tools c, fresh c → (supply c < n)%nat →
  (list_pages json_loads py_str n cursor tools c).1 ≠ Ok None.
Proof.
  induction n as [|n IH]; intros cursor tools c Hf Hn; [lia|]. simpl.
  destruct (call json_loads py_str "tools/list" (if truthy cursor then [("cursor", cursor)] else []) c) as [r c1] eqn:E.
  destruct (call_cases _ _ _ _ _ Hf E) as [Hf1 Hr]. unfold mbind at 1, M_bind at 1. rewrite E.
  destruct r as [v|e]; [|done]. destruct Hr as [Hs _].
  unfold mlift. unfold mbind, M_bind. destruct (reply_field "tools" (JArr []) v) as [page|]; [|done].
  destruct (py_iter page) as [l|]; [|done]. destruct (reply_field "nextCursor" JNull v) as [cur|]; [|done].
  destruct (truthy cur); [|done]. apply IH; [done|lia].
Qed.

(** No line is read for two pages: with a finite output, listing the tools takes at most one
    call for each line the server and the processes started in its place still have to say,
    and one more. Nothing else bounds it: a server that names a next page every time is
    asked for ever. *)
Lemma listing_reads_each_line_once c : fresh c → (list_tools json_loads py_str (S (supply c)) c).1 ≠ Ok None.
Proof. intros Hf. apply list_pages_ends; [done|lia]. Qed.

(** ** Theorems on the agent *)

Context (model_dump : SkillManifest → json).

Definition well_joined (q : quasar) : Prop :=
  (∀ sk server tool, assoc_get sk (q_skills q) = Some (server, tool) → is_Some (assoc_get server (q_clients q)))
  ∧ ∀ def, def ∈ q_definitions q → ∃ raw, strip raw = skill_id def ∧ is_Some (assoc_get raw (q_skills q)).

Lemma tool_skill_id server allowed tool id name d def : tool_skill py_str server allowed tool = Ok (id, name, d, def) →
  skill_id def = strip id.
Proof.
  unfold tool_skill, validate_skill. intros H. rok. simplify_eq. simpl in *.
  match goal with H : validate_non_empty_str (_ +:+ _) = Ok _ |- _ =>
    unfold validate_non_empty_str in H; destruct (truthy_str _); by simplify_eq end.
Qed.

Lemma add_tools_joined server allowed tools : ∀ skills listed defs skills' listed' defs',
  add_tools py_str server allowed tools (skills, listed, defs) = Ok (skills', listed', defs') →
  (∀ sk x, assoc_get sk skills' = Some x → assoc_get sk skills = Some x ∨ x.1 = server)
  ∧ (∀ sk, is_Some (assoc_get sk skills) → is_Some (assoc_get sk skills'))
  ∧ ∀ def, def ∈ defs' → def ∈ defs ∨ ∃ raw, strip raw = skill_id def ∧ is_Some (assoc_get raw skills').
Proof.
  induction tools as [|t tools IH]; intros skills listed defs skills' listed' defs' H; simpl in H.
  - simplify_eq. split_and!; auto.
  - apply rbind_ok in H as ([[[id name] d] def] & Ht & H). apply tool_skill_id in Ht. apply IH in H as (H1 & H2 & H3).
    split_and!.
    + intros sk x Hx. apply H1 in Hx as [Hx|Hx]; [|by right]. rewrite assoc_get_set in Hx.
      destruct (String.eqb sk id); [injection Hx as <-; by right|by left].
    + intros sk Hsk. apply H2. rewrite assoc_get_set. by destruct (String.eqb sk id).
    + intros x Hx. apply H3 in Hx as [Hx|Hx]; [|by right]. apply elem_of_app in Hx as [Hx|Hx]; [by left|].
      apply list_elem_of_singleton in Hx as ->. right. exists id. split; [done|]. apply H2.
      by rewrite assoc_get_set, String.eqb_refl.
Qed.

Lemma join_server_joined pages cfg c q q' : well_joined q → join_server json_loads py_str pages cfg c q = Ok (Some q') → well_joined q'.
Proof.
  intros [Hs Hd] H. unfold join_server in H. apply rbind_ok in H as (name & _ & (cmd & _ & H)%rbind_ok).
  destruct (list_tools json_loads py_str pages c) as [[[tools|]|e] c1]; [|done|].
  - apply rbind_ok in H as ([[skills listed] defs] & Ha & H). simplify_eq.
    apply add_tools_joined in Ha as (H1 & H2 & H3). split; simpl.
    + intros sk server tool Hsk. rewrite assoc_get_set. destruct (String.eqb_spec server name); [done|].
      apply H1 in Hsk as [Hsk|Hsk]; [by eapply Hs|done].
    + intros def Hdef. apply H3 in Hdef as [Hdef|Hdef]; [|done]. destruct (Hd def Hdef) as (raw & Hr & Hraw).
      exists raw. split; [done|by apply H2].
  - destruct e; simplify_eq. by split.
Qed.

Lemma dict_get_pop k d : dict_get k (dict_pop k d) = None.
Proof.
  induction d as [|[k' m] d IH]; [done|]. unfold dict_pop in *. simpl.
  destruct (String.eqb_spec k' k) as [->|Hne]; simpl; [done|]. by rewrite (proj2 (String.eqb_neq k k')).
Qed.

(** Quasar offers exactly the tools it can run. Every skill it knows has a client to run it
    at; Pulsar is told of skills Quasar knows, up to outer blanks, and of nothing when no
    tool was found, even if an earlier configuration had registered some. *)
Theorem quasar_offers_what_it_runs pages servers now r q r' :
  quasar_init json_loads py_str model_dump pages servers now r = Ok (Some (q, r')) →
  well_joined q
  ∧ match get_agent QUASAR_ID r' with
    | Some m => q_definitions q ≠ [] ∧ skills m = q_definitions q
    | None => q_definitions q = []
    end.
Proof.
  unfold quasar_init. intros (o & Hj & H)%rbind_ok. destruct o as [q0|]; [|done]. injection H as -> <-. split.
  - assert (H0 : well_joined (mk_quasar [] [] [] [])) by (split; [done|by intros def ?%elem_of_nil]).
    revert Hj H0. generalize (mk_quasar [] [] [] []). induction servers as [|[cfg c] servers IH]; intros q0 Hj H0; simpl in Hj.
    + by simplify_eq.
    + apply rbind_ok in Hj as (o & H1 & H2). destruct o as [q1|]; [|done]. apply (IH _ H2). by eapply join_server_joined.
  - unfold announce_tools. destruct (q_definitions q) as [|def defs] eqn:Ed.
    + destruct (get_agent QUASAR_ID r) as [m|] eqn:Er; [|by rewrite Er]. unfold get_agent, deregister. simpl. by rewrite dict_get_pop.
    + unfold get_agent, register. cbn [rg_agents]. by rewrite AgentLoader.dict_get_set, String.eqb_refl.
Qed.

(** A tool's answer is certain or worthless: its confidence is one when the server reports
    no error and zero when it does, with the text as the gap, so that a low confidence
    never has a tool with effects run again. *)
Theorem tool_answers_are_binary result_ d : tool_answer result_ = Ok d →
  ∃ kvs, result_ = JObj kvs ∧
    if truthy (obj_field "isError" kvs)
    then obj_field "confidence" d = JFloat 0 ∧ ∃ text, obj_field "gaps" d = JArr [JStr text] ∧ obj_field "summary" d = JStr text
    else obj_field "confidence" d = JFloat 1 ∧ obj_field "gaps" d = JArr [].
Proof.
  unfold tool_answer. intros (kvs & Hk & H)%rbind_ok. destruct result_ as [| | | | | |d0]; try done. injection Hk as ->.
  rok. exists kvs. split; [done|]. destruct (truthy _); [|done]. split; [done|]. by eexists.
Qed.
End Client.

(** ** Examples *)

Module McpDemo.
(** A reader of the lines below. *)
Definition reply (id : Z) (result_ : jdict) : json := JObj [("id", JInt id); ("result", JObj result_)].
Definition tools_page (names : list string) (next : json) : jdict :=
  [("tools", JArr (map (λ n, JObj [("name", JStr n)]) names)); ("nextCursor", next)].
Definition loads (s : string) : result json :=
  if String.eqb s "hello" then Ok (reply 1 [])
  else if String.eqb s "page1" then Ok (reply 2 (tools_page ["read"] (JStr "more")))
  else if String.eqb s "page2" then Ok (reply 3 (tools_page ["write"] JNull))
  else if String.eqb s "solo" then Ok (reply 2 (tools_page ["other"] JNull))
  else if String.eqb s "done" then Ok (reply 4 [("content", JArr [JObj [("type", JStr "text"); ("text", JStr "ok")]])])
  else if String.eqb s "notice" then Ok (JObj [("method", JStr "log")])
  else if String.eqb s "null" then Ok JNull
  else if String.eqb s "list" then Ok (JArr [])
  else Raise ValueError.
Definition show (v : json) : string := "?".
Definition dump (m : SkillManifest) : json := JStr (agent_id m).
Definition script (lines : list string) : process := mk_process (map Line lines) [] [].
Definition client (starts : list (option process)) : mcp := mk_mcp None 0 [] 0 starts.
Definition good : mcp := client [Some (script ["hello"; "noise"; "page1"; "notice"; "page2"; "done"])].
Definition cfg (name : string) : server_config := mk_server_config (Some name) (Some ["mcp"]) None.

Lemma fresh_client starts : fresh (client starts).
Proof. apply fresh_none. Qed.

Lemma answers_belong_to_their_request_witness :
  match call loads show "tools/list" [] good with
  | (Ok v, c') => mc_next_id c' = 2 ∧ ∃ a, read_from loads good c' a
  | _ => False
  end.
Proof.
  destruct (call loads show "tools/list" [] good) as [[v|e] c'] eqn:E; [|by vm_compute in E].
  destruct (answers_belong_to_their_request loads show "tools/list" [] good (Ok v) c' (fresh_client _) E)
    as (_ & sent & a & d & _ & _ & Hr & _).
  split; [|by exists a]. vm_compute in E. by injection E as _ <-.
Defined.

(** Other messages are read without a limit while an answer is awaited: the deadline is looked
    at only when no message is there. *)
Example noise_does_not_time_out :
  (call loads show "tools/list" [] (client [Some (script (["hello"] ++ replicate 1000 "notice" ++ ["solo"]))])).1
    = Ok (JObj (tools_page ["other"] JNull)).
Proof. by vm_compute. Qed.

(** Pages are asked for as long as the server names a next one. *)
Definition more_pages (s : string) : result json :=
  if String.eqb s "hello" then Ok (reply 1 []) else Ok (reply (Z.of_nat (String.length s)) (tools_page ["read"] (JStr "more"))).
Definition endless (n : nat) : mcp :=
  client [Some (script ("hello" :: map (λ i, of_list (replicate (2 + i) (Ascii.ascii_of_nat 112))) (seq 0 n)))].
Example every_page_names_another :
  (list_tools more_pages show 50 (endless 50)).1 = Ok None ∧ (list_tools more_pages show 100 (endless 100)).1 = Ok None.
Proof. by vm_compute. Qed.

Lemma quasar_offers_what_it_runs_witness :
  ∃ q r, quasar_init loads show dump 9 [(cfg "fs", good); (cfg "gone", client [None])] 5 (mk_registry [] []) = Ok (Some (q, r))
    ∧ map fst (q_skills q) = ["quasar.fs.read"; "quasar.fs.write"] ∧ skill_id <$> q_definitions q = ["quasar.fs.read"; "quasar.fs.write"]
    ∧ (skills <$> get_agent QUASAR_ID r) = Some (q_definitions q).
Proof.
  destruct (quasar_init loads show dump 9 [(cfg "fs", good); (cfg "gone", client [None])] 5 (mk_registry [] [])) as [[[q r]|]|e] eqn:E;
    [|by vm_compute in E..].
  exists q, r. split; [done|]. pose proof (quasar_offers_what_it_runs loads show dump 9 _ 5 _ q r E) as [_ H].
  assert (Hq : map fst (q_skills q) = ["quasar.fs.read"; "quasar.fs.write"] ∧ skill_id <$> q_definitions q = ["quasar.fs.read"; "quasar.fs.write"]).
  { vm_compute in E. injection E as <- <-. by vm_compute. }
  split_and!; [apply Hq|apply Hq|]. destruct (get_agent QUASAR_ID r) as [m|]; [simpl; f_equal; apply H|].
  rewrite H in Hq. by destruct Hq.
Defined.

Lemma tool_answers_are_binary_witness :
  ∃ d, tool_answer (JObj [("isError", JBool true)]) = Ok d ∧ obj_field "confidence" d = JFloat 0.
Proof.
  destruct (tool_answer (JObj [("isError", JBool true)])) as [d|e] eqn:E; [|by vm_compute in E].
  exists d. split; [done|]. destruct (tool_answers_are_binary _ d E) as (kvs & [= <-] & H). apply H.
Defined.

(** A line that is JSON but no object ends the call with AttributeError, which the agent
    does not catch: the gateway, and with it the boot, fails. *)
Example a_list_line_fails_the_boot :
  quasar_init loads show dump 9 [(cfg "fs", client [Some (script ["hello"; "list"])])] 5 (mk_registry [] []) = Raise AttributeError.
Proof. by vm_compute. Qed.

(** The line [null] is taken for the end of the output. *)
Example a_null_line_is_the_end :
  (call loads show "tools/list" [] (client [Some (script ["hello"; "null"; "page1"])])).1 = Raise exited.
Proof. by vm_compute. Qed.

(** Two servers of one name: the skills of the first are run at the second, whose client
    replaced its own, and the process of the first is never stopped. *)
Example a_repeated_name_takes_over :
  match quasar_init loads show dump 9 [(cfg "fs", good); (cfg "fs", client [Some (script ["hello"; "solo"])])] 5 (mk_registry [] []) with
  | Ok (Some (q, _)) => q_skills q = [("quasar.fs.read", ("fs", JStr "read")); ("quasar.fs.write", ("fs", JStr "write"));
                                      ("quasar.fs.other", ("fs", JStr "other"))]
                        ∧ map (λ nc, length (mc_sent nc.2)) (q_clients q) = [3%nat]
  | _ => False
  end.
Proof. by vm_compute. Qed.
End McpDemo.
