(* ===== verification/Forge.v ===== *)
(** core/scaffolder.py: the files of a new agent or skill, and the registration of a new
    agent with a Pulsar registry of its own.

    The file system is that of [Artifacts], without symbolic links; [cwd] is the working
    directory, [broken] says at which paths opening a file for writing fails, and the text of
    a float is an argument. Errors are recorded without the text of their cause. *)

From S2P Require Import Prelude.
From S2P Require Import PyStr.
From S2P Require Import PyTime.
From S2P Require Import Json.
From S2P Require Import Contracts.
From S2P Require Import Registry.
From S2P Require Import Artifacts.
From S2P Require Import A2A.
From S2P Require Import Planner.
From S2P Require Import ArtifactScan.
From S2P Require Import Catalog.
From Stdlib Require Import Ascii.
Open Scope Z_scope.

(** ** Parameters *)

Record AgentScaffoldParams := mk_agent_params {
  ap_id : string;
  ap_name : string;
  ap_description : string;
  ap_task_types : list string;
  ap_llm : option string;
  ap_threshold : Q }.

Record SkillScaffoldParams := mk_skill_params {
  sp_id : string;
  sp_name : string;
  sp_parent : string;
  sp_description : string;
  sp_input : list (string * string);
  sp_output : list (string * string) }.

(** [AgentScaffoldParams(...)] and [SkillScaffoldParams(...)]. *)
Definition agent_params (p : AgentScaffoldParams) : result AgentScaffoldParams :=
  rguard (id_matches (ap_id p) && truthy_str (ap_name p) && truthy_str (ap_description p)
    && negb (bool_decide (ap_task_types p = [])) && unit_interval (ap_threshold p)) ValueError;;
  Ok p.

Definition skill_params (p : SkillScaffoldParams) : result SkillScaffoldParams :=
  rguard (id_matches (sp_id p) && truthy_str (sp_name p) && truthy_str (sp_parent p) && truthy_str (sp_description p)
    && negb (bool_decide (sp_input p = [])) && negb (bool_decide (sp_output p = []))) ValueError;;
  Ok p.

Record ScaffoldResult := mk_scaffold {
  sr_success : bool;
  sr_files : list string;
  sr_agent : option string;
  sr_skill : option string;
  sr_error : option string;
  sr_warning : option string }.

(** ** Templates *)

Definition quoted (s : string) : string := quote +:+ s +:+ quote.
Definition quotes3 : string := quote +:+ quote +:+ quote.
Definition lines_of (l : list string) : string := String.concat newline l +:+ newline.

(** [part.capitalize()]. *)
Definition upper_char (c : ascii) : ascii := if is_lower c then ascii_of_nat (nat_of_ascii c - 32) else c.
Definition capitalize (s : string) : string :=
  match to_list (lower s) with [] => "" | c :: l => of_list (upper_char c :: l) end.

(** [_to_pascal_case]. *)
Definition to_pascal_case (snake : string) : string := String.concat "" (map capitalize (split "_" snake)).

(** [_AGENT_TEMPLATE.format(...)]. *)
Definition agent_py (threshold : string) (p : AgentScaffoldParams) : string := lines_of
  ["from core.contracts.contracts import TaskContract, SkillManifest, SkillEntry";
   "from core.pulsar.registry import PulsarRegistry";
   "from core.aether.client import AetherClient";
   "import logging"; "";
   "logger = logging.getLogger(__name__)"; "";
   "AGENT_ID = " +:+ quoted (ap_id p);
   "AGENT_NAME = " +:+ quoted (ap_name p);
   "VERSION = " +:+ quoted "0.1.0";
   "CONFIDENCE_THRESHOLD = " +:+ threshold; ""; "";
   "class " +:+ to_pascal_case (ap_id p) +:+ ":";
   "    " +:+ quotes3;
   "    " +:+ ap_description p; "";
   "    Task types: " +:+ String.concat ", " (ap_task_types p); "";
   "    Generated by Galaxz Forge. Implement execute() before registering";
   "    this agent for production routing.";
   "    " +:+ quotes3; "";
   "    def __init__(self, pulsar: PulsarRegistry, aether: AetherClient):";
   "        self.pulsar = pulsar";
   "        self.aether = aether";
   "        self._register()"; "";
   "    def _register(self) -> None:";
   "        manifest = SkillManifest(";
   "            agent_id=AGENT_ID,";
   "            agent_name=AGENT_NAME,";
   "            version=VERSION,";
   "            skills=[],";
   "            confidence_threshold=CONFIDENCE_THRESHOLD,";
   "        )";
   "        self.pulsar.register(manifest)";
   "        logger.info(f" +:+ quoted "[{AGENT_ID}] registered with Pulsar" +:+ ")"; "";
   "    def execute(self, contract: TaskContract) -> TaskContract:";
   "        # TODO: implement agent logic";
   "        raise NotImplementedError(";
   "            f" +:+ quoted "{AGENT_NAME} execute() is not yet implemented. ";
   "            " +:+ quoted ("See agents/" +:+ ap_id p +:+ "/agent.py");
   "        )"].

(** [_SKILL_TEMPLATE.format(...)] with the fields of the schemas. *)
Definition field_docs (fields : list (string * string)) : string :=
  String.concat "" (map (λ kv, "        " +:+ kv.1 +:+ " (" +:+ kv.2 +:+ ")" +:+ newline) fields).
Definition extractions (fields : list (string * string)) : string :=
  String.concat "" (map (λ kv, "    " +:+ kv.1 +:+ " = payload.get(" +:+ quoted kv.1 +:+ ")" +:+ newline) fields).

Definition skill_py (p : SkillScaffoldParams) : string := lines_of
  ["from typing import Any"; ""; "";
   "def " +:+ sp_id p +:+ "(payload: dict, llm_client: Any) -> dict:";
   "    " +:+ quotes3;
   "    " +:+ sp_description p; "";
   "    Input:";
   field_docs (sp_input p);
   "    Output:";
   field_docs (sp_output p);
   "    Generated by Galaxz Forge.";
   "    " +:+ quotes3;
   extractions (sp_input p);
   "    # TODO: implement skill logic using llm_client";
   "    raise NotImplementedError(";
   "        " +:+ quoted (sp_name p +:+ " is not yet implemented. ");
   "        " +:+ quoted ("See agents/" +:+ sp_parent p +:+ "/skills/" +:+ sp_id p +:+ ".py");
   "    )"].

(** ** The file system *)

(** One component of a path from a directory. *)
Definition onward (here : list string) (p : string) : list string :=
  if String.eqb p "" || String.eqb p "." then here else if String.eqb p ".." then removelast here else here ++ [p].

Definition is_dir (d : gset (list string)) (p : list string) : bool := bool_decide (p = []) || bool_decide (p ∈ d).

(** Enter directories one after another. *)
Fixpoint enter (d : gset (list string)) (here : list string) (parts : list string) : option (list string) :=
  match parts with
  | [] => Some here
  | p :: parts => let here := onward here p in if is_dir d here then enter d here parts else None
  end.

(** The directories of a path made where they are missing. *)
Fixpoint make_parts (here : list string) (parts : list string) (fs : filesystem) : result filesystem :=
  match parts with
  | [] => Ok fs
  | p :: parts =>
      let here := onward here p in
      if is_dir (dirs fs) here then make_parts here parts fs
      else if bool_decide (is_Some (files fs !! here)) then Raise OSError
      else make_parts here parts (mk_fs (files fs) ({[here]} ∪ dirs fs))
  end.

Section Forge.
Context (cwd : list string) (broken : list string → bool) (float_repr : Q → string).

Definition start (path : string) : list string := if startswith path "/" then [] else cwd.

(** The file a path names: its parents must be directories, itself need not exist. *)
Definition locate (d : gset (list string)) (path : string) : option (list string) :=
  let parts := split "/" path in
  m ← enter d (start path) (removelast parts);
  Some (onward m (List.last parts "")).

(** [os.path.exists]. *)
Definition exists_path (fs : filesystem) (path : string) : bool :=
  match locate (dirs fs) path with
  | Some p => is_dir (dirs fs) p || bool_decide (is_Some (files fs !! p))
  | None => false
  end.

(** [os.makedirs]. *)
Definition makedirs (path : string) (exist_ok : bool) : M filesystem unit := λ fs,
  if negb exist_ok && exists_path fs path then (Raise OSError, fs)
  else match make_parts (start path) (split "/" path) fs with
       | Ok fs' => (Ok tt, fs')
       | Raise e => (Raise e, fs)
       end.

(** [with open(path, "w") as f: f.write(text)]. *)
Definition write_file (path text : string) : M filesystem unit := λ fs,
  match locate (dirs fs) path with
  | Some p =>
      if broken p || is_dir (dirs fs) p then (Raise OSError, fs)
      else (Ok tt, mk_fs (<[p := text]> (files fs)) (dirs fs))
  | None => (Raise OSError, fs)
  end.

(** The files of a list, written one after another until one fails. *)
Fixpoint write_files (l : list (string * string)) (created : list string) : M filesystem (list string * bool) := λ fs,
  match l with
  | [] => (Ok (created, true), fs)
  | (path, text) :: l =>
      match write_file path text fs with
      | (Ok _, fs) => write_files l (created ++ [path]) fs
      | (Raise _, fs) => (Ok (created, false), fs)
      end
  end.

(** [except OSError]: the files created so far. *)
Definition create (dir : string) (exist_ok : bool) (l : list (string * string)) : M filesystem (list string * bool) := λ fs,
  match makedirs dir exist_ok fs with
  | (Ok _, fs) => write_files l [] fs
  | (Raise _, fs) => (Ok ([], false), fs)
  end.

(** ** scaffold_skill *)

Definition skill_dir (base : string) (p : SkillScaffoldParams) : string := base +:+ "/agents/" +:+ sp_parent p.
Definition skill_path (base : string) (p : SkillScaffoldParams) : string :=
  skill_dir base p +:+ "/skills/" +:+ sp_id p +:+ ".py".

Definition scaffold_skill (base : string) (p : SkillScaffoldParams) : M filesystem ScaffoldResult :=
  fs ← mget;
  if negb (exists_path fs (skill_dir base p)) then
    mret (mk_scaffold false [] None (Some (sp_id p))
      (Some ("Parent agent '" +:+ sp_parent p +:+ "' not found at " +:+ skill_dir base p)) None)
  else
    mguard (negb (exists_path fs (skill_path base p))) ForgeConflictError;;
    r ← create (skill_dir base p +:+ "/skills") true [(skill_path base p, skill_py p)];
    mret (mk_scaffold r.2 r.1 None (Some (sp_id p)) (if (r.2 : bool) then None else Some "File write failed") None).

(** ** scaffold_agent *)

Definition agent_dir (base : string) (p : AgentScaffoldParams) : string := base +:+ "/agents/" +:+ ap_id p.

Definition agent_files (base : string) (p : AgentScaffoldParams) : list (string * string) :=
  [(agent_dir base p +:+ "/__init__.py", "");
   (agent_dir base p +:+ "/agent.py", agent_py (float_repr (ap_threshold p)) p);
   (agent_dir base p +:+ "/skills/__init__.py", "")].

Context (model_dump : SkillManifest → json) (model_validate : json → result SkillManifest).

(** [PulsarRegistry().register(SkillManifest(...))]: over the table, not over the registry
    of a running process. *)
Definition register_new (p : AgentScaffoldParams) (now : time) (t : list Table.row) : result (list Table.row) :=
  r ← open_registry model_validate t;
  i ← validate_non_empty_str (ap_id p);
  n ← validate_non_empty_str (ap_name p);
  v ← validate_non_empty_str "0.1.0";
  h ← validate_non_empty_str ("local://agents/" +:+ ap_id p);
  Ok (rg_store (register model_dump (mk_Manifest i n v [] h now 30) r)).

Definition scaffold_agent (base : string) (p : AgentScaffoldParams) (now : time) :
    M (filesystem * list Table.row) ScaffoldResult := λ w,
  let '(fs, t) := w in
  if exists_path fs (agent_dir base p) then (Raise ForgeConflictError, w) else
  match create (agent_dir base p +:+ "/skills") false (agent_files base p) fs with
  | (Raise e, fs) => (Raise e, (fs, t))
  | (Ok (created, false), fs) =>
      (Ok (mk_scaffold false created (Some (ap_id p)) None (Some "File write failed") None), (fs, t))
  | (Ok (created, true), fs) =>
      match register_new p now t with
      | Raise _ =>
          (Ok (mk_scaffold false created (Some (ap_id p)) None (Some "Files scaffolded but Pulsar registration failed") None), (fs, t))
      | Ok t =>
          (Ok (mk_scaffold true created (Some (ap_id p)) None None
            (Some ("Agent '" +:+ ap_id p +:+ "' is registered but not yet routable. "
                   +:+ "Add it to Andromeda's routing config to enable task routing."))), (fs, t))
      end
  end.

(** ** The endpoints *)

(** The answer to a request: a conflict and a failure are errors. *)
Definition forge_answer (r : result ScaffoldResult) : result ScaffoldResult :=
  match r with
  | Raise ForgeConflictError => Raise (HTTPException 409)
  | Raise e => Raise e
  | Ok r => if sr_success r then Ok r else Raise (HTTPException 500)
  end.

(** [forge_agent] and [forge_skill] of services/andromeda_service.py: the base path is ["."]. *)
Definition forge_agent (p : AgentScaffoldParams) (now : time) : M (filesystem * list Table.row) ScaffoldResult := λ w,
  match agent_params p with
  | Raise _ => (Raise (HTTPException 422), w)
  | Ok p => let '(r, w) := scaffold_agent "." p now w in (forge_answer r, w)
  end.

Definition forge_skill (p : SkillScaffoldParams) : M filesystem ScaffoldResult := λ fs,
  match skill_params p with
  | Raise _ => (Raise (HTTPException 422), fs)
  | Ok p => let '(r, fs) := scaffold_skill "." p fs in (forge_answer r, fs)
  end.
End Forge.

(** ** Paths *)

Definition plain (p : string) : Prop := p ≠ "" ∧ p ≠ "." ∧ p ≠ "..".
Definition no_slash (p : string) : Prop := "/"%char ∉ to_list p.

Lemma onward_plain here p : plain p → onward here p = here ++ [p].
Proof. unfold onward. intros (H1 & H2 & H3). by apply String.eqb_neq in H1 as ->, H2 as ->, H3 as ->. Qed.

Lemma split_on_app c a b cur : split_on c cur (a ++ c :: b) = split_on c cur a ++ split_on c [] b.
Proof.
  revert cur. induction a as [|x a IH]; intros cur; simpl.
  - by rewrite Ascii.eqb_refl.
  - case_match; [by rewrite IH | apply IH].
Qed.

Lemma split_on_whole c a cur : c ∉ a → split_on c cur a = [of_list (rev cur ++ a)].
Proof.
  revert cur. induction a as [|x a IH]; intros cur Ha; simpl; [by rewrite app_nil_r|].
  apply not_elem_of_cons in Ha as [Hx Ha].
  rewrite (proj2 (Ascii.eqb_neq x c)) by done. rewrite IH by done. simpl. by rewrite <-app_assoc.
Qed.

Lemma split_slash a b : split "/" (a +:+ "/" +:+ b) = split "/" a ++ split "/" b.
Proof. unfold split. rewrite !to_list_app. apply split_on_app. Qed.

Lemma split_plain a : no_slash a → split "/" a = [a].
Proof. intros H. unfold split. rewrite split_on_whole by done. simpl. by rewrite of_to_list. Qed.

Lemma no_slash_app a b : no_slash a → no_slash b → no_slash (a +:+ b).
Proof. unfold no_slash. rewrite to_list_app. set_solver. Qed.

Lemma before_newline_spec l : before_newline l = l ∨ l = before_newline l ++ [ascii_of_nat 10].
Proof.
  unfold before_newline. destruct (rev l) as [|c r] eqn:E; [by left|].
  case_match eqn:Hc; [right|by left]. apply Ascii.eqb_eq in Hc as ->.
  rewrite <-(rev_involutive l), E. done.
Qed.

Lemma id_char_no_slash c : id_char c = true → c ≠ "/"%char.
Proof. by intros H ->. Qed.

(** An identifier the pattern accepts is one component of a path. *)
Lemma id_one_component s : id_matches s = true → no_slash s ∧ plain s.
Proof.
  unfold id_matches. destruct (before_newline (to_list s)) as [|c l] eqn:E; [done|].
  intros [Hc Hl]%andb_true_iff. rewrite forallb_forall in Hl.
  assert (Hns : "/"%char ∉ c :: l).
  { apply not_elem_of_cons. split; [by intros <-|]. intros Hin%list_elem_of_In. by apply Hl in Hin. }
  destruct (before_newline_spec (to_list s)) as [Hs|Hs]; rewrite E in Hs.
  - split; [unfold no_slash; by rewrite <-Hs|].
    split_and!; intros ->; simpl in Hs; simplify_eq; done.
  - split; [unfold no_slash; rewrite Hs; set_solver|].
    split_and!; intros ->; simpl in Hs; try (by destruct l); simplify_eq; by destruct l.
Qed.

Section Files.
Context (cwd : list string) (broken : list string → bool) (float_repr : Q → string)
        (model_dump : SkillManifest → json) (model_validate : json → result SkillManifest).
Implicit Types (fs : filesystem) (d : gset (list string)).

(** Parents of files are directories, and a file is no directory. *)
Record well_formed (fs : filesystem) : Prop := {
  wf_parents : ∀ p x, is_Some (files fs !! (p ++ x)) → x ≠ [] → is_dir (dirs fs) p = true;
  wf_files : ∀ p, is_Some (files fs !! p) → is_dir (dirs fs) p = false }.

Lemma enter_app d here a b : enter d here (a ++ b) = (m ← enter d here a; enter d m b).
Proof. revert here. induction a as [|p a IH]; intros here; simpl; [done|]. case_match; [apply IH|done]. Qed.

Lemma enter_lexical d here parts m : enter d here parts = Some m → m = foldl onward here parts.
Proof. revert here. induction parts as [|p l IH]; intros here; simpl; [congruence|]. case_match; [apply IH|done]. Qed.

(** Where a path ending in plain components leads. *)
Lemma locate_snoc d path a p : split "/" path = a ++ [p] →
  locate cwd d path = (m ← enter d (start cwd path) a; Some (onward m p)).
Proof. unfold locate. intros ->. by rewrite removelast_last, List.last_last. Qed.

Lemma locate_lexical d path p : locate cwd d path = Some p → p = foldl onward (start cwd path) (split "/" path).
Proof.
  destruct (split "/" path) as [|x a _] eqn:H using rev_ind.
  - unfold locate. rewrite H. simpl. by intros [= <-].
  - rewrite (locate_snoc _ _ _ _ H), foldl_app. intros (m & Hm & [= <-])%bind_Some.
    by rewrite (enter_lexical _ _ _ _ Hm).
Qed.

Lemma split_nonempty c s : split c s ≠ [].
Proof. unfold split. generalize (@nil ascii). induction (to_list s); intros cur; simpl; [done|]. by case_match. Qed.

(** An existing directory is entered. *)
Lemma exists_entered fs path p : locate cwd (dirs fs) path = Some p → is_dir (dirs fs) p = true →
  enter (dirs fs) (start cwd path) (split "/" path) = Some p.
Proof.
  intros Hp Hd. destruct (split "/" path) as [|x a _] eqn:H using rev_ind; [by apply split_nonempty in H|].
  rewrite (locate_snoc _ _ _ _ H) in Hp. apply bind_Some in Hp as (m & Hm & [= <-]).
  rewrite enter_app, Hm. simpl. by rewrite Hd.
Qed.

Lemma foldl_plain here l : Forall plain l → foldl onward here l = here ++ l.
Proof.
  intros H. revert here. induction H as [|p l Hp _ IH]; intros here; simpl; [by rewrite app_nil_r|].
  rewrite onward_plain, IH by done. by rewrite <-app_assoc.
Qed.

(** The directories above an existing file are entered. *)
Lemma entered_above fs here l x : well_formed fs → Forall plain l → x ≠ [] →
  is_Some (files fs !! (here ++ l ++ x)) → enter (dirs fs) here l = Some (here ++ l).
Proof.
  intros Hwf Hl Hx. revert here. induction Hl as [|p l Hp _ IH]; intros here Hf; simpl in *.
  - by rewrite app_nil_r.
  - rewrite onward_plain by done.
    replace (here ++ p :: l ++ x) with ((here ++ [p]) ++ l ++ x) in Hf by by rewrite <-app_assoc.
    rewrite (wf_parents fs Hwf _ _ Hf) by (by destruct l). rewrite IH by done. by rewrite <-app_assoc.
Qed.

(** Nothing is below a directory that is missing. *)
Lemma agent_fresh fs id x : well_formed fs → plain id → no_slash id →
  exists_path cwd fs ("./agents/" +:+ id) = false → x ≠ [] → files fs !! (cwd ++ ["agents"; id] ++ x) = None.
Proof.
  intros Hwf Hid Hns Hex Hx. apply eq_None_not_Some. intros Hf. revert Hex.
  apply not_false_iff_true. unfold exists_path.
  assert (split "/" ("./agents/" +:+ id) = ["."; "agents"] ++ [id]) as Hs.
  { change (split "/" ("./agents/" +:+ id)) with (["."; "agents"] ++ split "/" id). by rewrite split_plain. }
  rewrite (locate_snoc _ _ _ _ Hs). change (start cwd ("./agents/" +:+ id)) with cwd.
  assert (is_dir (dirs fs) cwd = true) as Hcwd by (apply (wf_parents fs Hwf _ _ Hf); done).
  change (enter (dirs fs) cwd ["."; "agents"]) with
    (if is_dir (dirs fs) cwd then enter (dirs fs) cwd ["agents"] else None). rewrite Hcwd.
  rewrite (entered_above fs cwd ["agents"] (id :: x)) by (try done; by repeat constructor).
  simpl. rewrite onward_plain by done.
  rewrite (wf_parents fs Hwf _ x); [done| |done]. by rewrite <-!app_assoc.
Qed.

Lemma skill_split parent f : no_slash f →
  split "/" (("./agents/" +:+ parent) +:+ "/skills/" +:+ f) = (split "/" ("./agents/" +:+ parent) ++ ["skills"]) ++ [f].
Proof.
  intros Hf. change ("/skills/" +:+ f) with ("/" +:+ ("skills" +:+ "/" +:+ f)).
  rewrite !split_slash, (split_plain f) by done. by rewrite app_assoc.
Qed.

Lemma skill_fresh fs parent m f : well_formed fs → plain f → no_slash f →
  locate cwd (dirs fs) ("./agents/" +:+ parent) = Some m →
  exists_path cwd fs (("./agents/" +:+ parent) +:+ "/skills/" +:+ f) = false → files fs !! (m ++ ["skills"; f]) = None.
Proof.
  intros Hwf Hf Hns Hm Hex. apply eq_None_not_Some. intros Hq. revert Hex.
  apply not_false_iff_true. unfold exists_path.
  rewrite (locate_snoc _ _ _ _ (skill_split parent f Hns)).
  change (start cwd (("./agents/" +:+ parent) +:+ "/skills/" +:+ f)) with (start cwd ("./agents/" +:+ parent)).
  rewrite enter_app, (exists_entered _ _ _ Hm) by (apply (wf_parents fs Hwf _ _ Hq); done). simpl.
  rewrite (onward_plain m) by done. rewrite (wf_parents fs Hwf (m ++ ["skills"]) [f]); [|by rewrite <-app_assoc|done].
  simpl. rewrite onward_plain, <-app_assoc by done. rewrite (bool_decide_eq_true_2 _ Hq). apply orb_true_r.
Qed.

(** ** Writing *)

Lemma make_parts_files here parts fs fs' : make_parts here parts fs = Ok fs' → files fs' = files fs.
Proof.
  revert here fs. induction parts as [|p l IH]; intros here fs; simpl; [congruence|].
  case_match; [apply IH|]. case_match; [done|]. intros Hp. by apply IH in Hp.
Qed.

Lemma makedirs_files path ok fs : files (makedirs cwd path ok fs).2 = files fs.
Proof.
  unfold makedirs. case_match; [done|]. case_match eqn:E; [|done]. simpl. by apply make_parts_files in E.
Qed.

(** Only the files of the list are written, each with its text. *)
Lemma write_files_spec l c fs r fs' : write_files cwd broken l c fs = (r, fs') →
  dirs fs' = dirs fs ∧
  (∀ q, files fs' !! q ≠ files fs !! q → ∃ path text, (path, text) ∈ l ∧ locate cwd (dirs fs) path = Some q) ∧
  ∃ done_ b, r = Ok (c ++ done_, b) ∧
    (b = true → done_ = l.*1 ∧
      ∃ qs, Forall2 (λ w q, locate cwd (dirs fs) w.1 = Some q) l qs ∧
            files fs' = foldl (λ m wq, <[wq.2 := wq.1]> m) (files fs) (zip l.*2 qs)).
Proof.
  revert c fs. induction l as [|[path text] l IH]; intros c fs; simpl.
  { intros [= <- <-]. split_and!; [done|done|]. exists [], true. rewrite app_nil_r. split; [done|].
    intros _. split; [done|]. by exists []. }
  assert (write_file cwd broken path text fs = (Raise OSError, fs) ∨ ∃ q, locate cwd (dirs fs) path = Some q ∧
    write_file cwd broken path text fs = (Ok tt, mk_fs (<[q := text]> (files fs)) (dirs fs))) as [->|(q & Hq & ->)].
  { unfold write_file. case_match; [|by left]. case_match; [by left|]. right. eauto. }
  { intros [= <- <-]. split_and!; [done|done|]. exists [], false. by rewrite app_nil_r. }
  intros H. apply IH in H as (Hd & Hn & dn & b & -> & Hb). simpl in *. split_and!; [done| |].
  - intros q' Hq'. destruct (decide (q' = q)) as [->|Hne]; [exists path, text; split; [left|done]|].
    destruct (Hn q') as (p & t & Hin & Hl); [by rewrite lookup_insert_ne by done|].
    exists p, t. split; [by right|done].
  - exists (path :: dn), b. split; [by rewrite <-app_assoc|]. intros ->. destruct (Hb eq_refl) as (-> & qs & Hqs & Hf).
    split; [done|]. exists (q :: qs). split; [by constructor|done].
Qed.

Lemma create_spec dir ok l fs r fs' : create cwd broken dir ok l fs = (r, fs') → ∃ d,
  (∀ q, files fs' !! q ≠ files fs !! q → ∃ path text, (path, text) ∈ l ∧ locate cwd d path = Some q) ∧
  ∃ done_ b, r = Ok (done_, b) ∧
    (b = true → done_ = l.*1 ∧
      ∃ qs, Forall2 (λ w q, locate cwd d w.1 = Some q) l qs ∧
            files fs' = foldl (λ m wq, <[wq.2 := wq.1]> m) (files fs) (zip l.*2 qs)).
Proof.
  unfold create. pose proof (makedirs_files dir ok fs) as Hm. destruct (makedirs cwd dir ok fs) as [[]  fs1]; simpl in Hm.
  - intros H. apply write_files_spec in H as (_ & Hn & Hr). rewrite Hm in *. by exists (dirs fs1).
  - intros [= <- <-]. exists (dirs fs). rewrite Hm. split; [done|]. by exists [], false.
Qed.

(** ** The endpoints change nothing that exists *)

Lemma kept_if_fresh (f g : gmap (list string) string) : (∀ q, g !! q ≠ f !! q → f !! q = None) → f ⊆ g.
Proof.
  intros H. apply map_subseteq_spec. intros q v Hq. destruct (decide (g !! q = f !! q)) as [->|Hne]; [done|].
  apply H in Hne. congruence.
Qed.

Definition agent_home (id : string) : list string := cwd ++ ["agents"; id].

Lemma agent_located d id rest q : plain id → no_slash id → Forall plain (split "/" rest) →
  locate cwd d (("./agents/" +:+ id) +:+ "/" +:+ rest) = Some q → q = agent_home id ++ split "/" rest.
Proof.
  intros Hid Hns Hf. intros ->%locate_lexical.
  change (start cwd (("./agents/" +:+ id) +:+ "/" +:+ rest)) with cwd.
  rewrite split_slash. change (split "/" ("./agents/" +:+ id)) with (["."; "agents"] ++ split "/" id).
  rewrite (split_plain id), foldl_app, (foldl_plain _ (split "/" rest)) by done. f_equal.
  change (foldl onward cwd (["."; "agents"] ++ [id])) with (foldl onward cwd ["agents"; id]).
  apply foldl_plain. repeat apply Forall_cons_2; done.
Qed.

Lemma plain_parts : Forall plain (split "/" "__init__.py") ∧ Forall plain (split "/" "agent.py") ∧
  Forall plain (split "/" "skills/__init__.py").
Proof. vm_compute. split_and!; by repeat constructor. Qed.

(** The paths of the files of a new agent. *)
Lemma agent_files_located d p path text q : plain (ap_id p) → no_slash (ap_id p) →
  (path, text) ∈ agent_files float_repr "." p → locate cwd d path = Some q →
  ∃ x, x ≠ [] ∧ q = agent_home (ap_id p) ++ x.
Proof.
  intros Hid Hns Hin Hl. destruct plain_parts as (H1 & H2 & H3). unfold agent_files in Hin.
  repeat (apply elem_of_cons in Hin as [[= -> ->]|Hin]); [..|by apply elem_of_nil in Hin];
    eapply agent_located in Hl; try done; eexists; (split; [|exact Hl]); done.
Qed.

(** The request for a new agent, case by case. *)
Lemma forge_agent_cases p now fs t r fs' t' :
  forge_agent cwd broken float_repr model_dump model_validate p now (fs, t) = (r, (fs', t')) →
  (fs' = fs ∧ t' = t ∧ (r = Raise (HTTPException 422) ∨ r = Raise (HTTPException 409))) ∨
  (id_matches (ap_id p) = true ∧ exists_path cwd fs ("./agents/" +:+ ap_id p) = false ∧
   ∃ c, create cwd broken (agent_dir "." p +:+ "/skills") false (agent_files float_repr "." p) fs = (c, fs') ∧
     (∀ a, r = Ok a → c = Ok (sr_files a, true) ∧ register_new model_dump model_validate p now t = Ok t') ∧
     (∀ e, r = Raise e → t' = t ∧ e = HTTPException 500)).
Proof.
  unfold forge_agent, agent_params, rguard. destruct (id_matches (ap_id p)) eqn:Hid; [|intros [=]; subst; auto].
  destruct (_ && unit_interval _); [|intros [=]; subst; auto]. cbn -[scaffold_agent].
  unfold scaffold_agent. change (agent_dir "." p) with ("./agents/" +:+ ap_id p).
  destruct (exists_path cwd fs _) eqn:Hex; [intros [=]; subst; auto|].
  intros H. right. split_and!; [done|done|].
  destruct (create _ _ _ _ _ _) as [r1 fs1] eqn:Hc. apply create_spec in Hc as (d & _ & c & b & -> & _).
  destruct b; [destruct (register_new _ _ _ _ _) eqn:Hr|]; simpl in H; injection H as <- <- <-;
    (eexists; split; [done|]; split; intros; by simplify_eq/=).
Qed.

Lemma plain_py f : plain (f +:+ ".py").
Proof. split_and!; intros H; destruct f as [|c [|c' f]]; simplify_eq/=; by destruct f. Qed.

(** Where the file of a skill goes. *)
Lemma skill_located fs d parent m f q : plain f → no_slash f →
  locate cwd (dirs fs) ("./agents/" +:+ parent) = Some m →
  locate cwd d (("./agents/" +:+ parent) +:+ "/skills/" +:+ f) = Some q → q = m ++ ["skills"; f].
Proof.
  intros Hf Hns ->%locate_lexical ->%locate_lexical. rewrite skill_split, !foldl_app by done.
  change (start cwd (("./agents/" +:+ parent) +:+ "/skills/" +:+ f)) with (start cwd ("./agents/" +:+ parent)).
  rewrite <-foldl_app. apply foldl_plain. repeat apply Forall_cons_2; done.
Qed.

(** A forged agent and a forged skill change no file that exists, whatever fails on the way;
    an agent only adds files below its own directory, and a refusal leaves everything as it
    was; once the request succeeded the three files are there with their texts and the agent is
    registered. *)
Theorem forge_overwrites_nothing fs (Hwf : well_formed fs) :
  (∀ p now t r fs' t',
    forge_agent cwd broken float_repr model_dump model_validate p now (fs, t) = (r, (fs', t')) →
    files fs ⊆ files fs' ∧
    (∀ q, files fs' !! q ≠ files fs !! q → ∃ x, q = agent_home (ap_id p) ++ x) ∧
    (r = Raise (HTTPException 422) ∨ r = Raise (HTTPException 409) → fs' = fs ∧ t' = t) ∧
    (is_ok r → register_new model_dump model_validate p now t = Ok t' ∧
      files fs' = <[agent_home (ap_id p) ++ ["skills"; "__init__.py"] := ""]>
        (<[agent_home (ap_id p) ++ ["agent.py"] := agent_py (float_repr (ap_threshold p)) p]>
          (<[agent_home (ap_id p) ++ ["__init__.py"] := ""]> (files fs))))) ∧
  (∀ p, files fs ⊆ files (forge_skill cwd broken p fs).2).
Proof.
  split.
  - intros p now t r fs' t' H. apply forge_agent_cases in H as [(-> & -> & Hr)|(Hid & Hex & c & Hc & Hok & Hko)].
    { split_and!; [done|by intros q|done|]. intros [a ->]. by destruct Hr. }
    apply id_one_component in Hid as [Hns Hid]. apply create_spec in Hc as (d & Hn & dn & b & -> & Hb).
    assert (∀ q, files fs' !! q ≠ files fs !! q → ∃ x, x ≠ [] ∧ q = agent_home (ap_id p) ++ x) as Hhome.
    { intros q Hq. destruct (Hn q Hq) as (path & text & Hin & Hl). eauto using agent_files_located. }
    split_and!.
    + apply kept_if_fresh. intros q Hq. destruct (Hhome q Hq) as (x & Hx & ->).
      unfold agent_home. rewrite <-app_assoc. by apply agent_fresh.
    + intros q Hq. destruct (Hhome q Hq) as (x & _ & ->). eauto.
    + intros [Hr|Hr]; by apply Hko in Hr as [_ ?].
    + intros [a ->]. destruct (Hok a eq_refl) as [[= -> ->] Hr]. split; [done|].
      destruct (Hb eq_refl) as (_ & qs & Hqs & ->). destruct plain_parts as (H1 & H2 & H3).
      unfold agent_files, agent_dir in Hqs.
      repeat (apply Forall2_cons_inv_l in Hqs as (? & ? & ?%agent_located & Hqs & ->); [|done..]).
      apply Forall2_nil_inv_l in Hqs as ->. by subst.
  - intros p. apply kept_if_fresh. unfold forge_skill, skill_params, rguard.
    destruct (id_matches (sp_id p)) eqn:Hid; [|done].
    destruct (_ && negb _); [|done]. cbn -[scaffold_skill].
    apply id_one_component in Hid as [Hns Hid].
    apply (no_slash_app _ ".py") in Hns; [|apply (bool_decide_unpack _); by vm_compute].
    unfold scaffold_skill, mbind, mget, mguard, M_bind, mlift, mret, M_ret, rguard. simpl.
    change (skill_dir "." p) with ("./agents/" +:+ sp_parent p). unfold exists_path at 1.
    destruct (locate cwd (dirs fs) _) as [m|] eqn:Hm; [|done]. destruct (_ || _); [simpl|done].
    destruct (exists_path _ _ _) eqn:Hex; [done|]. simpl.
    destruct (create _ _ _ _ _ _) as [c fs'] eqn:Hc. apply create_spec in Hc as (d & Hn & dn & b & -> & _).
    simpl. intros q Hq. destruct (Hn q Hq) as (path & text & Hin & Hl).
    apply list_elem_of_singleton in Hin as [= -> ->].
    apply (skill_located fs _ _ m) in Hl as ->; [|apply plain_py|done|done].
    apply (skill_fresh fs (sp_parent p)); [done|apply plain_py|done|done|exact Hex].
Qed.
End Files.

(** ** A repository *)

Module ForgeDemo.
Definition home : list string := ["srv"; "galaxz"].
Definition fs0 : filesystem := mk_fs
  {[ ["srv"; "galaxz"; "agents"; "vega"; "agent.py"] := "class Vega" ]}
  {[ ["srv"]; ["srv"; "galaxz"]; ["srv"; "galaxz"; "core"]; ["srv"; "galaxz"; "agents"]; ["srv"; "galaxz"; "agents"; "vega"] ]}.
Definition ok (p : list string) : bool := false.
Definition dump (m : SkillManifest) : json := JObj [("agent_id", JStr (agent_id m))].
Definition validate (v : json) : result SkillManifest := Raise ValueError.
Definition mira : AgentScaffoldParams := mk_agent_params "mira" "Mira" "Reads maps" ["map"] None (8 # 10).
Definition read_map (parent : string) : SkillScaffoldParams :=
  mk_skill_params "read_map" "Read map" parent "Reads a map" [("map", "str")] [("places", "list")].
Definition forge (broken : list string → bool) :=
  forge_agent home broken (λ _, "0.8") dump validate mira 0.

Lemma fs0_well_formed : well_formed fs0.
Proof.
  assert (∀ p, is_Some (files fs0 !! p) → p = ["srv"; "galaxz"; "agents"; "vega"; "agent.py"]) as Hone.
  { intros p [s Hs]. unfold fs0 in Hs. simpl in Hs. by apply lookup_singleton_Some in Hs as [<- _]. }
  split.
  - intros p x H Hx. apply Hone in H. do 5 (destruct p as [|? p]; [by vm_compute|]; simplify_eq/=; try by vm_compute).
    simplify_eq/=. by destruct p, x.
  - intros p ->%Hone. by vm_compute.
Qed.

Lemma forge_overwrites_nothing_witness :
  let '(r, w) := forge ok (fs0, []) in is_ok r ∧ files fs0 ⊆ files w.1.
Proof.
  destruct (forge ok (fs0, [])) as [r [fs' t']] eqn:E. split.
  - apply (f_equal fst) in E. simpl in E. subst r. eexists. by vm_compute.
  - exact (proj1 (proj1 (forge_overwrites_nothing home ok (λ _, "0.8") dump validate fs0 fs0_well_formed) mira 0 [] r fs' t' E)).
Defined.

(** A failure leaves the directory behind, and asking again is a conflict. *)
Definition disk_full (p : list string) : bool := bool_decide (last p = Some "agent.py").
Example failures_block_a_retry :
  let '(r, w) := forge disk_full (fs0, []) in
  r = Raise (HTTPException 500) ∧ (forge ok w).1 = Raise (HTTPException 409).
Proof. by vm_compute. Qed.

(** The name of a skill's parent is a path: it may lead out of the agents. *)
Example skills_may_leave_the_agents :
  let '(r, w) := forge_skill home ok (read_map "../core") fs0 in
  is_ok r ∧ is_Some (files w !! ["srv"; "galaxz"; "core"; "skills"; "read_map.py"]).
Proof. vm_compute. split; eauto. Qed.
End ForgeDemo.
