(* ===== verification/Evaluation.v ===== *)
(** core/evaluation and core/platform.py: how well confidence is calibrated, the comparison
    of experiments, benchmark fixtures, usage reports, and the checks of a hosted platform.

    Floats are rounded as the code's are, after every operation and from the left in a sum;
    the square root is an argument. Records of dicts are read at the types their fields are
    annotated with, and a length is a float: no list has [2 ^ 53] items. *)

From S2P Require Import Prelude.
From S2P Require Import PyStr.
From S2P Require Import PyTime.
From S2P Require Import Json.
From S2P Require Import PyDict.
From S2P Require Import Contracts.
From S2P Require Import Feedback.
From S2P Require Import Binary64.
From S2P Require Import Repositories.
From Stdlib Require Import Ascii QArith Qabs Qround Lqa.
Close Scope Q_scope.
Open Scope Z_scope.

(** ** Putting items into groups *)

(** Each item is appended to the group its number names. *)
Definition spread {A} (k : nat) (l : list (nat * A)) : list (list A) :=
  foldl (λ groups ix, alter (λ g, g ++ [ix.2]) ix.1 groups) (replicate k []) l.

(** ** Calibration *)

Record outcome_record := mk_outcome { oc_confidence : Q; oc_success : bool }.

Record report_bin := mk_bin {
  bn_lower : Q; bn_upper : Q; bn_count : Z; bn_confidence : Q; bn_accuracy : Q }.

Record CalibrationReport := mk_calibration {
  cr_samples : Z;
  cr_error : option Q;
  cr_bins : list report_bin;
  cr_insufficient : bool }.

(** [min(1.0, max(0.0, x))]. *)
Definition clamp (x : Q) : Q :=
  let y := if Qle_bool x 0 then 0%Q else x in if Qle_bool y 1 then y else 1%Q.

(** [min(bins - 1, int(confidence * bins))]. *)
Definition slot (bins : Z) (c : Q) : nat := Z.to_nat (Z.min (bins - 1) (Qfloor (fmul c (fl (inject_Z bins))))).

Definition calibration_groups (bins : Z) (records : list outcome_record) : list (list (Q * bool)) :=
  spread (Z.to_nat bins) (map (λ r, let c := clamp (fl (oc_confidence r)) in (slot bins c, (c, oc_success r))) records).

Definition mean_confidence (g : list (Q * bool)) : Q := fmean (map fst g).

(** The part of [l] that is true: a quotient of integers, rounded once. *)
Definition part (l : list bool) : Q :=
  fdiv (inject_Z (Z.of_nat (length (List.filter id l)))) (inject_Z (Z.of_nat (length l))).

Definition accuracy (g : list (Q * bool)) : Q := part (map snd g).

Definition bin_of (bins : Z) (i : nat) (g : list (Q * bool)) : list report_bin :=
  match g with
  | [] => []
  | _ => [mk_bin (fdiv (inject_Z (Z.of_nat i)) (inject_Z bins)) (fdiv (inject_Z (Z.of_nat i + 1)) (inject_Z bins))
            (Z.of_nat (length g)) (mean_confidence g) (accuracy g)]
  end.

Definition weighted_error (groups : list (list (Q * bool))) : Q :=
  foldl (λ e g, match g with
                | [] => e
                | _ => fadd e (fmul (Qabs (fsub (mean_confidence g) (accuracy g))) (inject_Z (Z.of_nat (length g))))
                end) 0%Q groups.

Definition calibrate (bins minimum_samples : Z) (records : list outcome_record) : result CalibrationReport :=
  rguard (negb (bins <=? 0)) ValueError;;
  let groups := calibration_groups bins records in
  let n := Z.of_nat (length records) in
  let enough := minimum_samples <=? n in
  Ok (mk_calibration n
        (if negb (bool_decide (records = [])) && enough then Some (fdiv (weighted_error groups) (inject_Z n)) else None)
        (concat (imap (bin_of bins) groups)) (negb enough)).

(** ** Experiments *)

Record metric := mk_metric { mt_mean : Q; mt_count : Z; mt_error : option Q }.

Section Experiments.
Context (sqrt : Q → Q).

Definition metric_of (values : list Q) : metric :=
  let n := Z.of_nat (length values) in
  let m := fmean values in
  mk_metric m n
    (if 1 <? n then Some (fdiv (sqrt (fmean (map (λ v, fmul (fsub v m) (fsub v m)) values))) (sqrt (inject_Z n))) else None).

Definition compare_experiments (minimum_samples : Z) (results : list (list (string * Q))) :
    Z * bool * list (string * metric) :=
  match results with
  | [] => (0, true, [])
  | _ =>
      let n := Z.of_nat (length results) in
      (n, n <? minimum_samples,
       omap (λ key, match omap (assoc_get key) results with [] => None | values => Some (key, metric_of (map fl values)) end)
         ["quality"; "latency_ms"; "cost_usd"; "escalated"])
  end.
End Experiments.

(** ** Fixtures, outcomes and releases *)

Record BenchmarkFixture := mk_fixture {
  fx_name : string;
  fx_language : string;
  fx_base_commit : string;
  fx_workflow : string;
  fx_acceptance : list string;
  fx_hidden_tests : list string }.

Definition validate_fixture (f : BenchmarkFixture) : result BenchmarkFixture :=
  rguard ((Z.of_nat (String.length (fx_base_commit f)) =? 40) && forallb is_hex_char (to_list (fx_base_commit f)))
    ValueError;;
  rguard (negb (bool_decide (fx_acceptance f = [])) && negb (bool_decide (fx_hidden_tests f = []))) ValueError;;
  Ok f.

Definition load_fixtures (payload : list BenchmarkFixture) : result (list BenchmarkFixture) := rmap validate_fixture payload.

(** Named checks and whether all of them hold. *)
Definition all_pass (checks : list (string * bool)) : bool := forallb snd checks.

Definition score_outcome (tests build lint security acceptance infrastructure_failure : bool) : option Q :=
  if infrastructure_failure then None
  else Some (part [tests; build; lint; security; acceptance]).

Record ReleaseEvidence := mk_release {
  re_tests : bool; re_security : bool; re_benchmark : bool; re_rollback : bool; re_critical : Z }.

Definition release_checks (e : ReleaseEvidence) : list (string * bool) :=
  [("tests", re_tests e); ("security", re_security e); ("benchmarks", re_benchmark e); ("rollback", re_rollback e);
   ("critical_findings", re_critical e =? 0)].

Definition evaluate_release (e : ReleaseEvidence) : string * list (string * bool) :=
  (if all_pass (release_checks e) then "approved" else "blocked", release_checks e).

(** ** Usage reports *)

Record GoalReport := mk_goal_report {
  gl_goal : string;
  gl_organization : string;
  gl_repository : string;
  gl_model : string;
  gl_input : Z;
  gl_output : Z;
  gl_cost : Q;
  gl_elapsed : Z;
  gl_outcome : string;
  gl_edits : Z;
  gl_failure : option string }.

Record usage_report := mk_usage {
  us_organization : string;
  us_repository : string;
  us_count : Z;
  us_input : Z;
  us_output : Z;
  us_cost : Q;
  us_elapsed : Z;
  us_outcomes : list (string * Z);
  us_failures : list (string * Z);
  us_goals : list GoalReport }.

(** [round(q, 8)]: the float nearest to the decimal that is nearest to [q]. *)
Definition round8 (q : Q) : Q := fl (round_div (Qnum q * 100000000) (Zpos (Qden q)) # 100000000).

Definition total (f : GoalReport → Z) (l : list GoalReport) : Z := foldl (λ s g, s + f g) 0 l.
Definition counted (p : GoalReport → bool) (l : list GoalReport) : Z := total (λ g, Z.b2z (p g)) l.
Definition in_scope (o r : string) (g : GoalReport) : bool :=
  String.eqb (gl_organization g) o && String.eqb (gl_repository g) r.

Definition build_usage_report (goals : list GoalReport) (organization repository : string) (can_read : bool) :
    result usage_report :=
  rguard can_read PermissionError;;
  let visible := List.filter (in_scope organization repository) goals in
  Ok (mk_usage organization repository (Z.of_nat (length visible)) (total gl_input visible) (total gl_output visible)
        (round8 (fsum (map gl_cost visible))) (total gl_elapsed visible)
        (map (λ o, (o, counted (λ g, String.eqb (gl_outcome g) o) visible)) ["accepted"; "rejected"; "edited"])
        (map (λ k, (k, counted (λ g, bool_decide (gl_failure g = Some k)) visible)) ["agent"; "infrastructure"])
        visible).

(** ** core/platform.py *)

Record MigrationPlan := mk_plan { mp_version : string; mp_tenants : list string; mp_reversible : bool }.

Definition validate_plan (p : MigrationPlan) : result unit :=
  rguard (truthy_str (mp_version p) && negb (bool_decide (mp_tenants p = [])) && bool_decide (NoDup (mp_tenants p)))
    ValueError.

Definition distribute_tenants (tenant_ids : list string) (worker_count : Z) : result (list (list string)) :=
  rguard (1 <=? worker_count) ValueError;;
  let k := Nat.min (Z.to_nat worker_count) (Nat.max 1 (length tenant_ids)) in
  Ok (spread k (imap (λ i t, (i mod k, t)%nat) tenant_ids)).

Definition gate (pass fail : string) (checks : list (string * bool)) : string * list (string * bool) :=
  (if all_pass checks then pass else fail, checks).

Definition hosted_readiness (billing backups restore_test monitoring : bool) : string * list (string * bool) :=
  gate "ready" "blocked" [("billing", billing); ("backups", backups); ("restore_test", restore_test); ("monitoring", monitoring)].

Definition deployment_plan (tls health_checks : bool) (rollback_version : option string) : string * list (string * bool) :=
  gate "ready" "blocked" [("tls", tls); ("health_checks", health_checks); ("rollback", match rollback_version with Some v => truthy_str v | None => false end)].

Definition certify_agent (tests security permissions : bool) : bool :=
  all_pass [("tests", tests); ("security", security); ("permissions", permissions)].

Definition disaster_recovery_objectives (backup restore failover : bool) : string * list (string * bool) :=
  gate "met" "at_risk" [("backup", backup); ("restore", restore); ("failover", failover)].

Definition enterprise_identity (sso provisioning audit : bool) : string * list (string * bool) :=
  gate "ready" "blocked" [("sso", sso); ("provisioning", provisioning); ("audit", audit)].

Definition retention_action (exported deleted within_policy : bool) : string :=
  if exported && deleted && within_policy then "complete" else "blocked".

(** [enforce_quota]: allowed, and what remains. *)
Definition enforce_quota (usage limit : Z) : result (bool * Z) :=
  rguard (negb ((limit <? 0) || (usage <? 0))) ValueError;;
  Ok (usage <? limit, Z.max 0 (limit - usage)).

(** [metered_charge]: the charge, and whether the plan covers it. *)
Definition metered_charge (units : Z) (unit_price : Q) (plan_limit : option Z) : result (Q * bool) :=
  rguard (negb (units <? 0) && Qle_bool 0 unit_price) ValueError;;
  Ok (round8 (fmul (fl (inject_Z units)) unit_price), match plan_limit with None => true | Some l => units <=? l end).

(** [load_test_result]: the error rate, and whether the test passed. *)
Definition load_test_result (tenants requests errors : Z) : result (Q * bool) :=
  rguard (negb ((Z.min (Z.min tenants requests) errors <? 0) || (requests <? errors))) ValueError;;
  Ok (if requests =? 0 then 0%Q else fdiv (inject_Z errors) (inject_Z requests), errors =? 0).

Definition tenant_scope (organization_id repository_id : string) (resource_scope : string * string) : bool :=
  String.eqb organization_id resource_scope.1 && String.eqb repository_id resource_scope.2.

Definition sprint_plan (number : Z) (deliverables : list string) : result (Z * list string) :=
  rguard (negb (number <? 1) && negb (bool_decide (deliverables = []))) ValueError;;
  Ok (number, deliverables).

(** ** Groups *)

Section Spread.
Context {A : Type}.
Implicit Types (l : list (nat * A)) (g : list (list A)).

Lemma spread_snoc k l ix : spread k (l ++ [ix]) = alter (λ c, c ++ [ix.2]) ix.1 (spread k l).
Proof. unfold spread. by rewrite foldl_app. Qed.

Lemma length_spread k l : length (spread k l) = k.
Proof.
  induction l as [|ix l IH] using rev_ind; [apply length_replicate|]. by rewrite spread_snoc, length_alter.
Qed.

(** A group holds the items with its number, in their order. *)
Lemma spread_lookup k l j : (j < k)%nat → spread k l !! j = Some (List.filter (λ ix, Nat.eqb ix.1 j) l).*2.
Proof.
  intros Hj. induction l as [|ix l IH] using rev_ind; [by apply lookup_replicate_2|].
  rewrite spread_snoc, List.filter_app, fmap_app. simpl. destruct (Nat.eqb_spec ix.1 j) as [->|Hne].
  - by rewrite list_lookup_alter_eq, IH.
  - by rewrite list_lookup_alter_ne, app_nil_r by done.
Qed.

Lemma concat_alter (x : A) i g : (i < length g)%nat → concat (alter (λ c, c ++ [x]) i g) ≡ₚ x :: concat g.
Proof.
  revert i. induction g as [|c g IH]; intros i Hi; simpl in Hi; [lia|]. destruct i as [|i].
  - simpl. rewrite <-app_assoc. apply Permutation_sym, Permutation_middle.
  - change (c ++ concat (alter (λ c, c ++ [x]) i g) ≡ₚ x :: c ++ concat g). rewrite IH by lia. apply Permutation_sym, Permutation_middle.
Qed.

Lemma spread_perm k l : Forall (λ ix, (ix.1 < k)%nat) l → concat (spread k l) ≡ₚ l.*2.
Proof.
  induction l as [|ix l IH] using rev_ind; intros H.
  - unfold spread. simpl. clear H. induction k as [|k IH]; [done|exact IH].
  - apply Forall_app in H as [Hl [Hx _]%Forall_cons_1]. rewrite spread_snoc, concat_alter by (rewrite length_spread; exact Hx).
    rewrite IH, fmap_app by done. simpl. by rewrite Permutation_app_comm.
Qed.
End Spread.

(** ** Calibration is sound *)















(** ** Tenants are shared out *)

Lemma count_mod n k j : (j < k)%nat →
  length (List.filter (λ i, Nat.eqb (i mod k) j) (seq 0 n)) = ((n + (k - 1 - j)) / k)%nat.
Proof.
  intros Hj. induction n as [|n IH]; [simpl; rewrite Nat.div_small; lia|].
  rewrite seq_S, List.filter_app, length_app, IH. simpl. pose proof (Nat.div_mod n k ltac:(lia)).
  pose proof (Nat.mod_upper_bound n k ltac:(lia)). set (q := (n / k)%nat) in *. set (m := (n mod k)%nat) in *.
  clearbody q m. destruct (Nat.eqb_spec m j) as [->|Hne]; simpl.
  - replace ((n + (k - 1 - j)) / k)%nat with q; [replace (S (n + (k - 1 - j)) / k)%nat with (S q); [lia|]|].
    + apply (Nat.div_unique _ _ _ 0); nia.
    + apply (Nat.div_unique _ _ _ (k - 1)); nia.
  - rewrite Nat.add_0_r. destruct (decide (m < j)%nat).
    + transitivity q; [symmetry|]; [apply (Nat.div_unique _ _ _ (m + (k - 1 - j)))|apply (Nat.div_unique _ _ _ (S m + (k - 1 - j)))]; nia.
    + transitivity (S q); [symmetry|]; [apply (Nat.div_unique _ _ _ (m - j - 1))|apply (Nat.div_unique _ _ _ (m - j))]; nia.
Qed.

Lemma imap_zip {A B} (f : nat → A → B) l : ∀ n, imap (λ i, f (n + i)%nat) l = zip_with f (seq n (length l)) l.
Proof.
  induction l as [|x l IH]; intros n; [done|]. cbn [imap seq length zip_with]. rewrite Nat.add_0_r. f_equal.
  rewrite <-IH. apply imap_ext. intros. simpl. by rewrite <-plus_n_Sm.
Qed.

Lemma filter_zip_length {A} (p : nat → bool) (f : nat → nat) (l : list A) n :
  length (List.filter (λ ix, p ix.1) (zip_with (λ i t, (f i, t)) (seq n (length l)) l)) =
  length (List.filter (λ i, p (f i)) (seq n (length l))).
Proof. revert n. induction l as [|x l IH]; intros n; [done|]. simpl. case_match; simpl; by rewrite IH. Qed.

(** Tenants are shared out among at most as many buckets as there are workers: each tenant is in
    one bucket, the sizes of two buckets differ by one at most, and none is empty unless
    there is no tenant. *)
Theorem tenants_are_shared_out tenant_ids worker_count buckets (H : distribute_tenants tenant_ids worker_count = Ok buckets) :
  concat buckets ≡ₚ tenant_ids ∧ Z.of_nat (length buckets) <= worker_count ∧
  (∀ a b, a ∈ buckets → b ∈ buckets → (length a <= length b + 1)%nat) ∧
  (tenant_ids ≠ [] → [] ∉ buckets).
Proof.
  unfold distribute_tenants, rguard in H. destruct (Z.leb_spec 1 worker_count); [|done]. simpl in H. injection H as <-.
  set (n := length tenant_ids). set (k := Nat.min _ _).
  assert (0 < k <= Nat.max 1 n)%nat as Hk by lia. assert (Z.of_nat k <= worker_count) as Hw by lia. clearbody k.
  replace (imap _ tenant_ids) with (zip_with (λ i t, ((i mod k)%nat, t)) (seq 0 n) tenant_ids)
    by (symmetry; exact (imap_zip (λ i t, ((i mod k)%nat, t)) tenant_ids 0)).
  set (l := zip_with _ _ _).
  assert (∀ a, a ∈ spread k l → ∃ j, (j < k)%nat ∧ length a = ((n + (k - 1 - j)) / k)%nat) as Hsize.
  { intros a [j Hj]%list_elem_of_lookup. assert (j < k)%nat by (apply lookup_lt_Some in Hj; by rewrite length_spread in Hj).
    rewrite spread_lookup in Hj by done. injection Hj as <-. exists j. split; [done|].
    rewrite length_fmap, <-count_mod by done. apply (filter_zip_length (λ i, Nat.eqb i j) (λ i, i mod k)%nat). }
  split_and!.
  - rewrite spread_perm.
    + apply reflexive_eq. subst l n. clear. generalize 0%nat as s. induction tenant_ids as [|t ts IH]; intros s; [done|].
      simpl. by rewrite IH.
    + apply Forall_forall. intros ix Hix. apply elem_of_lookup_zip_with in Hix as (i & a & b & -> & _). simpl.
      apply Nat.mod_upper_bound. lia.
  - rewrite length_spread. lia.
  - intros a b (i & Hi & ->)%Hsize (j & Hj & ->)%Hsize.
    transitivity ((n + (k - 1 - j) + 1 * k) / k)%nat; [apply Nat.Div0.div_le_mono; lia|]. rewrite Nat.div_add by lia. done.
  - intros Hne (j & Hj & Hl)%Hsize. simpl in Hl. assert (0 < n)%nat by (destruct tenant_ids; [done|simpl; subst n; simpl; lia]).
    symmetry in Hl. apply Nat.div_small_iff in Hl; lia.
Qed.

(** ** Reports and gates *)

(** A usage report needs permission, and holds exactly the goals of its organization and
    repository: those of others neither appear nor count. *)
Theorem reports_stay_in_scope goals others o r can_read report
    (H : build_usage_report goals o r can_read = Ok report)
    (Ho : Forall (λ g, in_scope o r g = false) others) :
  can_read = true ∧ (∀ g, g ∈ us_goals report ↔ g ∈ goals ∧ gl_organization g = o ∧ gl_repository g = r) ∧
  build_usage_report (goals ++ others) o r can_read = Ok report.
Proof.
  unfold build_usage_report, rguard in *. destruct can_read; [|done]. simpl in *. injection H as <-. split_and!; [done| |].
  - intros g. simpl. rewrite !list_elem_of_In, List.filter_In. unfold in_scope.
    rewrite andb_true_iff, !String.eqb_eq. done.
  - rewrite List.filter_app. replace (List.filter _ others) with (@nil GoalReport); [by rewrite app_nil_r|].
    symmetry. induction Ho as [|g l Hg _ IH]; [done|]. simpl. by rewrite Hg.
Qed.

(** A release is approved exactly when every check passed and no critical finding is open. *)
Lemma release_needs_everything e :
  (evaluate_release e).1 = "approved" ↔
  re_tests e = true ∧ re_security e = true ∧ re_benchmark e = true ∧ re_rollback e = true ∧ re_critical e = 0.
Proof.
  destruct e as [[] [] [] [] n]; unfold evaluate_release, all_pass; simpl; try (split; [done|naive_solver]).
  destruct (Z.eqb_spec n 0); naive_solver.
Qed.


(** Usage within the limit is allowed, and what remains is what may still be used. *)
Lemma quotas_add_up usage limit a rest : enforce_quota usage limit = Ok (a, rest) →
  (a = true ↔ 0 < rest) ∧ (a = true → usage + rest = limit).
Proof.
  unfold enforce_quota, rguard. case_match; simpl; [|done]. intros [= <- <-]. lia.
Qed.

(** ** Examples *)

Module EvaluationDemo.
Definition records : list outcome_record :=
  [mk_outcome (9 # 10) true; mk_outcome (9 # 10) false; mk_outcome 1 true; mk_outcome (3 # 2) true; mk_outcome (-1 # 2) false].


(** Rounding may take a bin's mean out of its interval: three confidences of 0.7 are counted in the
    bin that starts at 0.7, and their mean is less. *)
Example mean_below_its_bin : ∃ b r, calibrate 10 1 (replicate 3 (mk_outcome (7 # 10) true)) = Ok r ∧ cr_bins r = [b] ∧
  bn_lower b = fl (7 # 10) ∧ bn_confidence b = fl (6999999999999998 # 10000000000000000) ∧
  (bn_confidence b < bn_lower b)%Q.
Proof. do 2 eexists. split_and!; by vm_compute. Qed.

Lemma tenants_are_shared_out_witness : ∃ b, distribute_tenants ["a"; "b"; "c"; "d"; "e"] 2 = Ok b ∧
  b = [["a"; "c"; "e"]; ["b"; "d"]] ∧ concat b ≡ₚ ["a"; "b"; "c"; "d"; "e"].
Proof. eexists. split; [by vm_compute|]. split; [done|]. exact (proj1 (tenants_are_shared_out ["a"; "b"; "c"; "d"; "e"] 2 [["a"; "c"; "e"]; ["b"; "d"]] eq_refl)).
Defined.

Definition goal (o : string) : GoalReport := mk_goal_report "g" o "web" "m" 10 5 (1 # 4) 100 "accepted" 0 None.
Lemma reports_stay_in_scope_witness : ∃ r, build_usage_report [goal "acme"] "acme" "web" true = Ok r ∧
  us_count r = 1 ∧ build_usage_report ([goal "acme"] ++ [goal "other"]) "acme" "web" true = Ok r.
Proof.
  eexists. split; [by vm_compute|]. split; [done|].
  exact (proj2 (proj2 (reports_stay_in_scope [goal "acme"] [goal "other"] "acme" "web" true _ eq_refl
    ltac:(repeat constructor)))).
Defined.
End EvaluationDemo.
