(* ===== verification/Access.v ===== *)
(** agents/andromeda/middleware/auth.py, and the endpoints of services/andromeda_service.py
    that read stores, change the configuration and report on health.

    A request is its method, its path and its [Authorization] header. Resolving a path, the
    directories that exist and the text diff are arguments; a configuration file is what the
    YAML reader makes of it. The answers to failed requests are [HTTPException]s. *)

From S2P Require Import Prelude.
From S2P Require Import PyStr.
From S2P Require Import PyTime.
From S2P Require Import Json.
From S2P Require Import PyDict.
From S2P Require Import Contracts.
From S2P Require Import JobRepository.
From S2P Require Import Artifacts.
From S2P Require Import Nebula.
From S2P Require Import ReviewQueue.
From S2P Require Import Forge.
From S2P Require Import Workspace.
From Stdlib Require Import Ascii.
Open Scope Z_scope.

(** ** ApiKeyMiddleware *)

Record http_request := mk_request {
  rq_method : string;
  rq_path : string;
  rq_authorization : string }.

(** [_EXEMPT_ROUTES]. *)
Definition EXEMPT_ROUTES : list (string * string) :=
  [("GET", "/health"); ("GET", "/live"); ("GET", "/ready"); ("GET", "/status"); ("GET", "/agents");
   ("GET", "/tasks/recent"); ("GET", "/tasks/stats"); ("GET", "/review/queue"); ("GET", "/orion/status");
   ("POST", "/github/webhook"); ("GET", "/.well-known/agent-card.json"); ("POST", "/a2a")].

Definition upper (s : string) : string := of_list (map upper_char (to_list s)).

Definition exempt (r : http_request) : bool := bool_decide ((upper (rq_method r), rq_path r) ∈ EXEMPT_ROUTES).

(** [dispatch]: the key is that of the environment when the application was built. *)
Definition dispatch {S A} (key : option string) (call_next : http_request → M S A) (r : http_request) : M S A :=
  match key with
  | Some k =>
      if exempt r || negb (truthy_str k) then call_next r
      else if String.eqb (rq_authorization r) ("Bearer " +:+ k) then call_next r
      else mraise (HTTPException 401)
  | None => call_next r
  end.

(** [raise HTTPException(code)] in place of an exception. *)
Definition answer_as {A} (codes : exn → option Z) (r : result A) : result A :=
  match r with
  | Raise e => match codes e with Some c => Raise (HTTPException c) | None => Raise e end
  | Ok a => Ok a
  end.

Definition or_404 {A} (o : option A) : result A := of_option (HTTPException 404) o.
Definition value_422 (e : exn) : option Z := match e with ValueError => Some 422 | _ => None end.
Definition permission_403 (e : exn) : option Z := match e with PermissionError => Some 403 | _ => None end.

(** ** Jobs, memory and reviews *)

(** [get_job]: the job with its result and its attempts. *)
Definition read_job (j : uuid) (d : db) : result (Job * option json) :=
  job ← JobRepository.get_job j d;
  job ← or_404 job;
  Ok (job, get_result j d).

Definition list_some_jobs (limit : Z) (d : db) : result (list Job) := answer_as value_422 (JobRepository.list_jobs limit d).

Definition get_review_queue_item (task_id : string) (q : queue) : result review := or_404 (get_by_task_id task_id q).

Definition remember_memory (fresh : uuid) (ns text : string) (tgs : list string) (source : option uuid) (now : time) :
    M (list MemoryEntry) MemoryEntry := λ rows,
  let '(r, rows) := remember fresh ns text tgs source now rows in (answer_as value_422 r, rows).

Definition recall_memory (namespace_ : string) (q : option string) (limit : Z) (rows : list MemoryEntry) :
    result (list MemoryEntry) :=
  recall (List.filter truthy_str (split "," namespace_)) q (Z.max 1 (Z.min limit 50)) rows.

Definition forget_memory (m : uuid) : M (list MemoryEntry) uuid := λ rows,
  let '(found, rows') := forget m rows in (if found then Ok m else Raise (HTTPException 404), rows').

(** ** The catalog *)

Definition catalog_errors (e : exn) : option Z :=
  match e with
  | CatalogNotFound => Some 404
  | CatalogConflict => Some 409
  | CatalogError => Some 422
  | _ => None
  end.

(** ** Versions of artifacts *)

Section Reading.
Context {O : Type} `{ObjectStorage O} (configured : bool) (unified_diff : string → string → string).

Definition get_artifact_history (p workspace_root : string) (project org : option string) (s : store O) :
    result (list (Z * version_row)) :=
  let key := identity_key workspace_root p in
  match history key s with
  | [] => Raise (HTTPException 404)
  | (v, r) :: rest =>
      answer_as permission_403 (get_version configured key v project org s);;
      Ok ((v, r) :: rest)
  end.

(** [ArtifactStore.diff]: it reads both versions for nobody in particular. *)
Definition store_diff (key : string) (from_version to_version : Z) (s : store O) : result string :=
  a ← get_version configured key from_version None None s;
  b ← get_version configured key to_version None None s;
  match a, b with
  | Some a, Some b => Ok (unified_diff (v_content a) (v_content b))
  | _, _ => Raise KeyError
  end.

Definition diff_errors (e : exn) : option Z :=
  match e with PermissionError => Some 403 | KeyError => Some 404 | _ => None end.

Definition get_artifact_diff (p workspace_root : string) (from_ to : option Z) (project org : option string) (s : store O) :
    result (string * Z * Z) :=
  let key := identity_key workspace_root p in
  latest ← or_404 (latest_version_number key s);
  let from_version := or_else from_ (Z.max (latest - 1) 1) in
  let to_version := or_else to latest in
  text ← answer_as diff_errors (
    get_version configured key to_version project org s;;
    store_diff key from_version to_version s);
  Ok (text, from_version, to_version).
End Reading.

(** ** Configuration *)

Section Config.
Context (resolve : Workspace.path → Workspace.path) (is_dir : Workspace.path → bool) (mounted_host : string).

(** [_workspace_path_for_container]. *)
Definition workspace_path_for_container (host_path : string) : result string :=
  let candidate := resolve (path_of host_path) in
  candidate ← (if truthy_str mounted_host then
    let mounted_root := resolve (path_of mounted_host) in
    rguard (is_relative_to candidate mounted_root) (HTTPException 422);;
    let relative := Workspace.mk_path "" (drop (length (Workspace.parts mounted_root)) (Workspace.parts candidate)) in
    let candidate := resolve (path_div (path_of "/workspace") relative) in
    rguard (is_relative_to candidate (resolve (path_of "/workspace"))) (HTTPException 422);;
    Ok candidate
  else Ok candidate) : result Workspace.path;
  rguard (is_dir candidate) (HTTPException 422);;
  Ok (path_str candidate).

(** config/providers.yaml and config/workspace.yaml. *)
Record config_files := mk_config {
  cf_providers : option json;
  cf_workspace : option json }.

Record config_update := mk_update {
  cu_model : string;
  cu_base_url : string;
  cu_workspace : string }.

(** [llm[key] = v] where it is given. *)
Definition set_given (key v : string) (llm : jdict) : jdict := if truthy_str v then assoc_set key (JStr v) llm else llm.

(** What the provider's file becomes. *)
Definition new_providers (u : config_update) (data : json) : result jdict :=
  data ← (if truthy data then of_option AttributeError (as_dict data) else Ok []) : result jdict;
  let data := if obj_has "llm" data then data else assoc_set "llm" (JObj []) data in
  llm ← (match obj_field "llm" data with
    | JObj llm => Ok (JObj (set_given "base_url" (cu_base_url u) (set_given "model" (cu_model u) llm)))
    | v => if truthy_str (cu_model u) || truthy_str (cu_base_url u) then Raise TypeError else Ok v
    end) : result json;
  Ok (assoc_set "llm" llm data).

(** [update_config]. *)
Definition update_config (u : config_update) : M config_files (option string) :=
  container_path ← mlift (if truthy_str (cu_workspace u)
    then p ← workspace_path_for_container (cu_workspace u); Ok (Some p) else Ok None);
  c ← mget;
  data ← mlift (or_404 (cf_providers c));
  data ← mlift (new_providers u data);
  (match container_path with
   | Some p => mput (mk_config (cf_providers c) (Some (JObj [("enabled", JBool true); ("workspace_root", JStr p)])))
   | None => mret tt
   end);;
  mmodify (λ c, mk_config (Some (JObj data)) (cf_workspace c));;
  mret (if truthy_str (cu_workspace u) then Some (cu_workspace u) else None).
End Config.

(** ** Health *)

(** [_read_orion_health]: the status, from what the file holds. *)
Definition read_orion_health (parse_iso : string → result time) (now : time) (file : result json) : result string :=
  match file with
  | Raise OSError => Ok "stale"
  | Raise ValueError => Ok "stale"
  | Raise e => Raise e
  | Ok data =>
      data ← of_option AttributeError (as_dict data);
      let last_cycle := obj_default "last_cycle_at" (JStr "") data in
      if truthy last_cycle then
        match last_cycle with
        | JStr t =>
            match parse_iso t with
            | Ok t => Ok (if 300000000 <? now - t then "stale" else "ok")
            | Raise ValueError => Ok "stale"
            | Raise e => Raise e
            end
        | _ => Raise TypeError
        end
      else Ok "stale"
  end.

Definition check_status (ok : bool) : string := if ok then "ok" else "error".

(** [health]: what answers of the broker in milliseconds, the registry, the task log and Orion's file come to. *)
Definition health_checks (latency_ms : result Z) (agents : result nat) (task_stats : result nat) (orion : string) :
    list (string * string) :=
  [("aether", check_status (match latency_ms with Ok ms => ms <? 100 | Raise _ => false end));
   ("pulsar", check_status (match agents with Ok n => (0 <? n)%nat | Raise _ => false end));
   ("task_log", check_status (match task_stats with Ok _ => true | Raise _ => false end));
   ("orion", orion)].

Definition overall (checks : list (string * string)) : string :=
  match checks with
  | (_, aether) :: _ =>
      if negb (String.eqb aether "ok") then "unhealthy"
      else if negb (forallb (λ c, String.eqb c.2 "ok") checks) then "degraded" else "healthy"
  | [] => "healthy"
  end.

(** [readiness]. *)
Definition readiness (checks : list (string * string)) : result (list (string * string)) :=
  rguard (String.eqb (overall checks) "healthy") (HTTPException 503);;
  Ok checks.

(** ** Theorems *)

(** Without the key nobody gets further than the exempt routes: any other request is answered
    with 401 and changes nothing; so whatever the service changes, the key was given, or the
    request reads, or it is the webhook or the A2A endpoint, which check their callers
    themselves. With the key, or on an exempt route, the service answers itself. *)
Theorem changes_need_the_key {S A} (call_next : http_request → M S A) key r s (Hk : truthy_str key = true) :
  let '(answer, s') := dispatch (Some key) call_next r s in
  (s' ≠ s → rq_authorization r = "Bearer " +:+ key ∨ upper (rq_method r) = "GET" ∨
            upper (rq_method r) = "POST" ∧ (rq_path r = "/github/webhook" ∨ rq_path r = "/a2a")) ∧
  (rq_authorization r ≠ "Bearer " +:+ key → exempt r = false → answer = Raise (HTTPException 401) ∧ s' = s) ∧
  (rq_authorization r = "Bearer " +:+ key ∨ exempt r = true → (answer, s') = call_next r s).
Proof.
  unfold dispatch. rewrite Hk. simpl. destruct (exempt r) eqn:E; simpl.
  - destruct (call_next r s) as [answer s']. split_and!; [|done|done]. intros _. right.
    unfold exempt in E. apply bool_decide_eq_true in E. unfold EXEMPT_ROUTES in E.
    repeat (apply elem_of_cons in E as [[= -> ->]|E]; [auto|]). by apply elem_of_nil in E.
  - destruct (String.eqb_spec (rq_authorization r) ("Bearer " +:+ key)) as [->|Hne].
    + destruct (call_next r s). split_and!; [by left|done|done].
    + simpl. split_and!; [done|done|]. by intros [|].
Qed.

Section Diff.
Context {O : Type} `{ObjectStorage O} (unified_diff : string → string → string).
Implicit Types (s : store O) (r : version_row).

(** A payload of the backend that belongs to a project or an organization. *)
Definition owned (r : version_row) : Prop :=
  (∃ md, v_object r = Some md ∧ truthy_str (om_id md) = true) ∧
  (truthy_str (or_else (v_project r) "") = true ∨ truthy_str (or_else (v_org r) "") = true).

Lemma owned_is_refused key v s r : versions s !! (key, v) = Some r → owned r →
  get_version true key v None None s = Raise PermissionError.
Proof.
  unfold get_version. intros -> [(md & -> & ->) Ho]. simpl. unfold authorize, rguard, or_else.
  destruct (v_project r) as [p|]; simpl in *.
  - destruct (truthy_str p) eqn:E; simpl; [done|]. destruct Ho as [|Ho]; [congruence|].
    destruct (v_org r) as [o|]; simpl in *; [|done]. by rewrite Ho.
  - destruct Ho as [|Ho]; [done|]. destruct (v_org r) as [o|]; simpl in *; [|done]. by rewrite Ho.
Qed.

(** The difference of two versions never shows what belongs to a project or an organization,
    not even to a caller who names them: the store reads both versions without a scope, so
    the endpoint refuses every version that has one. *)
Theorem diffs_are_only_of_unowned_versions p ws from_ to project org s text a b
    (Hd : get_artifact_diff true unified_diff p ws from_ to project org s = Ok (text, a, b)) :
  ∃ ra rb, versions s !! (identity_key ws p, a) = Some ra ∧ versions s !! (identity_key ws p, b) = Some rb ∧
    ¬ owned ra ∧ ¬ owned rb.
Proof.
  unfold get_artifact_diff in Hd. set (key := identity_key ws p) in *.
  destruct (latest_version_number key s) as [n|]; [simpl in Hd|done].
  set (from_v := or_else from_ _) in *. set (to_v := or_else to n) in *.
  unfold answer_as, store_diff in Hd.
  destruct (get_version true key to_v project org s) as [o|e]; simpl in Hd; [|by destruct e].
  assert (∀ v x, get_version true key v None None s = Ok (Some x) → ∃ r, versions s !! (key, v) = Some r ∧ ¬ owned r) as Hv.
  { intros v x Hx. destruct (versions s !! (key, v)) as [r|] eqn:Er.
    - exists r. split; [done|]. intros Ho. by rewrite (owned_is_refused _ _ _ _ Er Ho) in Hx.
    - unfold get_version in Hx. by rewrite Er in Hx. }
  destruct (get_version true key from_v None None s) as [[ra|]|e] eqn:Ea; simpl in Hd; [| |by destruct e];
    (destruct (get_version true key to_v None None s) as [[rb|]|e] eqn:Eb; simpl in Hd; [| |by destruct e]); try done.
  injection Hd as <- <- <-. destruct (Hv _ _ Ea) as (x & Hx & Hox), (Hv _ _ Eb) as (y & Hy & Hoy).
  by exists x, y.
Qed.
End Diff.

Section ConfigTheorems.
Context (resolve : Workspace.path → Workspace.path) (is_dir : Workspace.path → bool) (mounted_host : string).

(** With a mounted workspace only directories of the mount can be configured. *)
Lemma container_paths_stay_mounted host p : truthy_str mounted_host = true →
  workspace_path_for_container resolve is_dir mounted_host host = Ok p →
  ∃ c, p = path_str c ∧ is_dir c = true ∧ is_relative_to c (resolve (path_of "/workspace")) = true.
Proof.
  intros Hm. unfold workspace_path_for_container. rewrite Hm. unfold rguard.
  destruct (is_relative_to (resolve (path_of host)) _); simpl; [|done].
  destruct (is_relative_to _ (resolve (path_of "/workspace"))) eqn:Er; simpl; [|done].
  destruct (is_dir _) eqn:Ed; simpl; [|done]. intros [= <-]. eauto.
Qed.

Lemma new_providers_keep u d data' k : new_providers u (JObj d) = Ok data' → k ≠ "llm" →
  assoc_get k data' = assoc_get k d.
Proof.
  intros H Hk. apply String.eqb_neq in Hk. unfold new_providers in H.
  assert (∃ d0, (if truthy (JObj d) then of_option AttributeError (as_dict (JObj d)) else Ok []) = Ok d0 ∧
    assoc_get k d0 = assoc_get k d) as (d0 & E & <-).
  { destruct d as [|kv d]; [by exists []|]. by exists (kv :: d). }
  rewrite E in H. simpl in H. apply rbind_ok in H as (llm & _ & H). simplify_eq/=. rewrite assoc_get_set, Hk.
  destruct (obj_has "llm" d0); [done|]. by rewrite assoc_get_set, Hk.
Qed.

(** A request that is refused changes neither file; one that is answered keeps every other
    entry of the provider's file, and the workspace it writes is a directory inside the mount. *)
Theorem updates_are_checked_first u c r c' (Hm : truthy_str mounted_host = true)
    (H : update_config resolve is_dir mounted_host u c = (r, c')) :
  (∀ e, r = Raise e → c' = c) ∧
  (is_ok r → ∃ data data', cf_providers c = Some data ∧ cf_providers c' = Some (JObj data') ∧
    (∀ d k, data = JObj d → k ≠ "llm" → assoc_get k data' = assoc_get k d) ∧
    (cf_workspace c' = cf_workspace c ∧ cu_workspace u = "" ∨
     ∃ p, cf_workspace c' = Some (JObj [("enabled", JBool true); ("workspace_root", JStr (path_str p))]) ∧
       is_dir p = true ∧ is_relative_to p (resolve (path_of "/workspace")) = true)).
Proof.
  unfold update_config in H. munfold. simpl in H.
  destruct (if truthy_str (cu_workspace u) then _ else _) as [path|] eqn:Hpath; simpl in H;
    [|injection H as <- <-; split; [done|by intros []]].
  destruct (cf_providers c) as [data|] eqn:Hdata; simpl in H; [|injection H as <- <-; split; [done|by intros []]].
  destruct (new_providers u data) as [data'|] eqn:Hnew; simpl in H; [|injection H as <- <-; split; [done|by intros []]].
  assert (∀ d k, data = JObj d → k ≠ "llm" → assoc_get k data' = assoc_get k d) as Hkeep.
  { intros d k ->. by apply (new_providers_keep u). }
  destruct path as [p|]; simpl in H; injection H as <- <-; (split; [done|]); intros _; exists data, data'; split_and!; try done.
  - right. destruct (truthy_str (cu_workspace u)); [|done].
    apply rbind_ok in Hpath as (q & Hq & [= ->]). apply (container_paths_stay_mounted _ _ Hm) in Hq as (x & -> & ? & ?). by exists x.
  - left. split; [done|]. destruct (truthy_str (cu_workspace u)) eqn:E.
    + by apply rbind_ok in Hpath as (q & Hq & ?).
    + unfold truthy_str in E. by destruct (String.eqb_spec (cu_workspace u) "").
Qed.
End ConfigTheorems.

(** The service takes traffic exactly when its broker answers fast, an agent is registered, the
    task log can be read and Orion wrote its health file in the last five minutes. *)
Lemma readiness_needs_every_check latency agents stats orion :
  (∃ c, readiness (health_checks latency agents stats orion) = Ok c) ↔
  (∃ ms, latency = Ok ms ∧ ms < 100) ∧ (∃ n, agents = Ok n ∧ (0 < n)%nat) ∧ is_ok stats ∧ orion = "ok".
Proof.
  unfold readiness, rguard, overall, health_checks, check_status, is_ok.
  destruct latency as [ms|]; [destruct (Z.ltb_spec ms 100)|]; simpl; [|split; intros; naive_solver lia|naive_solver].
  destruct agents as [n|]; [destruct (Nat.ltb_spec 0 n)|]; simpl; [|split; intros; naive_solver lia|naive_solver].
  destruct stats; simpl; [|naive_solver].
  destruct (String.eqb_spec orion "ok") as [->|]; simpl; naive_solver.
Qed.

(** Recalling over HTTP shows only memories of the namespaces asked for, fifty at most. *)
Lemma recall_over_http ns q limit rows l : recall_memory ns q limit rows = Ok l →
  (length l <= 50)%nat ∧ (List.filter truthy_str (split "," ns) = [] → l = []).
Proof.
  unfold recall_memory, recall. destruct (List.filter truthy_str _); [intros [= <-]; split; [simpl; lia|done]|].
  case_match; [lia|]. intros (entries & _ & Hr)%rbind_ok. split; [|done].
  destruct (match q with Some _ => _ | None => _ end); injection Hr as <-; rewrite length_take; lia.
Qed.

(** ** Examples *)

Module AccessDemo.
Definition count (r : http_request) : M nat nat := λ n, (Ok n, S n).

Lemma changes_need_the_key_witness :
  dispatch (Some "k3y") count (mk_request "POST" "/tasks" "Bearer nope") 7%nat = (Raise (HTTPException 401), 7%nat).
Proof.
  pose proof (changes_need_the_key count "k3y" (mk_request "POST" "/tasks" "Bearer nope") 7%nat eq_refl) as H.
  destruct (dispatch _ _ _ _) as [a s]. destruct H as (_ & H & _). destruct (H ltac:(done) eq_refl) as [-> ->]. done.
Defined.

(** Without a key in the environment every request passes. *)
Example no_key_no_check : dispatch None count (mk_request "POST" "/config" "") 7%nat = (Ok 7%nat, 8%nat).
Proof. done. Qed.

#[local] Instance demo_objects : ObjectStorage filesystem := local_storage demo_sha (λ _, None) (mk_local ["srv"] 1000).
Definition recorded_by (project : option string) (content : string) (now : time) (s : store filesystem) : store filesystem :=
  (record demo_sha true "ws" "t" "sk" None project None now [demo_artifact "a.py" content] s).2.
Definition shared : store filesystem := recorded_by None "x = 2" 2 (recorded_by None "x = 1" 1 empty_store).
Definition owned_by_acme : store filesystem := recorded_by (Some "acme") "x = 2" 2 (recorded_by (Some "acme") "x = 1" 1 empty_store).
Definition join_texts (a b : string) : string := a +:+ "|" +:+ b.

Lemma diffs_are_only_of_unowned_versions_witness :
  get_artifact_diff true join_texts "a.py" "ws" None None None None shared = Ok ("x = 1|x = 2", 1, 2) ∧
  ∃ r, versions shared !! ("ws::a.py", 1) = Some r ∧ ¬ owned r.
Proof.
  split; [by vm_compute|].
  destruct (diffs_are_only_of_unowned_versions join_texts "a.py" "ws" None None None None shared "x = 1|x = 2" 1 2
    ltac:(by vm_compute)) as (ra & rb & Ha & _ & Hn & _).
  change (identity_key "ws" "a.py") with "ws::a.py" in Ha. exists ra. split; [exact Ha|exact Hn].
Defined.

(** The project that owns the versions reads their history, and is refused their difference. *)
Example owners_have_no_diff :
  is_ok (get_artifact_history true "a.py" "ws" (Some "acme") None owned_by_acme) ∧
  get_artifact_diff true join_texts "a.py" "ws" None None (Some "acme") None owned_by_acme = Raise (HTTPException 403).
Proof. split; [eexists|]; by vm_compute. Qed.

Definition galaxy : config_files :=
  mk_config (Some (JObj [("llm", JObj [("model", JStr "m1")]); ("embeddings", JStr "e1")])) None.
Definition set_model : config_update := mk_update "m2" "" "/home/dev/app".
Definition lexical (p : Workspace.path) : Workspace.path := p.

Lemma updates_are_checked_first_witness :
  ∃ r c', update_config lexical (λ _, true) "/home/dev" set_model galaxy = (r, c') ∧ is_ok r ∧
    cf_workspace c' = Some (JObj [("enabled", JBool true); ("workspace_root", JStr "/workspace/app")]).
Proof.
  eexists _, _. split; [by vm_compute|].
  assert (is_ok (Ok (Some "/home/dev/app") : result (option string))) as Hok by by eexists. split; [exact Hok|].
  pose proof (proj2 (updates_are_checked_first lexical (λ _, true) "/home/dev" set_model galaxy _ _ eq_refl eq_refl) Hok)
    as (_ & _ & _ & _ & _ & [[_ E]|(p & E & _)]); [done|done].
Defined.

(** A health file that is JSON but no object, or whose time is no text, is a server error. *)
Example odd_health_files_fail (parse : string → result time) :
  read_orion_health parse 0 (Ok (JArr [])) = Raise AttributeError ∧
  read_orion_health parse 0 (Ok (JObj [("last_cycle_at", JInt 5)])) = Raise TypeError.
Proof. done. Qed.
End AccessDemo.
