(* ===== verification/Training.v ===== *)
(** The endpoint of services/andromeda_service.py that turns the events of the log into
    training files, [run_orion_training].

    It opens a dataset store of its own: its buffers begin empty and are gone when the request
    ends, only the directories stay. *)

From S2P Require Import Prelude.
From S2P Require Import PyStr.
From S2P Require Import PyTime.
From S2P Require Import Json.
From S2P Require Import Contracts.
From S2P Require Import Feedback.
From S2P Require Import Dataset.
Open Scope Z_scope.

(** A store with empty buffers over the directories. *)
Definition on_disk (x : dataset) : dataset := mk_dataset [] (files x) (latest x).
Definition reopened (s : dataset_store) : dataset_store := mk_store (on_disk (ds_vega s)) (on_disk (ds_rigel s)).

(** WHERE quarantined = 0 AND outcome = 'success' ORDER BY created_at. *)
Definition training_rows (log : event_log) : list event_row :=
  py_sorted by_created
    (List.filter (λ r, negb (ev_quarantined r) && String.eqb (ev_outcome r) "success") (events log)).

Definition known_domain (d : string) : bool := String.eqb d "vega" || String.eqb d "rigel".
Definition given (o : option string) : bool := truthy_str (or_else o "").

Definition example_of (r : event_row) : jdict :=
  [("task_id", JStr (ev_task r)); ("skill_id", JStr (ev_skill r)); ("confidence", JFloat (ev_confidence r));
   ("human_verified", JBool (ev_verified r)); ("prompt", JStr (or_else (ev_payload r) ""));
   ("completion", JStr (or_else (ev_result r) "")); ("created_at", JStr (ev_created r))].

(** The first loop: how many examples were written, and how many rows skipped. *)
Fixpoint append_rows (rows : list event_row) : M dataset_store (Z * Z) :=
  match rows with
  | [] => mret (0, 0)
  | r :: rows =>
      if negb (known_domain (ev_domain r)) || negb (given (ev_payload r)) || negb (given (ev_result r)) then
        n ← append_rows rows; mret (n.1, n.2 + 1)
      else
        append_example (ev_domain r) (example_of r);;
        n ← append_rows rows; mret (n.1 + 1, n.2)
  end.

(** The second loop: the files flushed, each domain looked at once. *)
Fixpoint flush_domains (today : string) (seen : list string) (rows : list event_row) : M dataset_store (list string) :=
  match rows with
  | [] => mret []
  | r :: rows =>
      if known_domain (ev_domain r) && negb (bool_decide (ev_domain r ∈ seen)) then
        full ← mread (should_flush (ev_domain r));
        if (full : bool) then
          path ← flush (ev_domain r) today;
          paths ← flush_domains today (ev_domain r :: seen) rows;
          mret (path :: paths)
        else flush_domains today (ev_domain r :: seen) rows
      else flush_domains today seen rows
  end.

Record training_answer := mk_training {
  ta_written : Z;
  ta_skipped : Z;
  ta_flushed : list string }.

(** [run_orion_training]; there is no log when the database does not exist. *)
Definition run_orion_training (today : string) (log : option event_log) : M dataset_store training_answer :=
  log ← mlift (of_option (HTTPException 404) log);
  mmodify reopened;;
  n ← append_rows (training_rows log);
  paths ← flush_domains today [] (training_rows log);
  mmodify reopened;;
  mret (mk_training n.1 n.2 paths).

(** ** What a run leaves behind *)

Definition usable (d : domain) (r : event_row) : bool :=
  String.eqb (ev_domain r) (domain_name d) && given (ev_payload r) && given (ev_result r).

(** The examples of a domain, oldest first. *)
Definition examples (d : domain) (rows : list event_row) : list jdict := map example_of (List.filter (usable d) rows).

Definition enough (l : list jdict) : bool :=
  (100 <=? Z.of_nat (length (List.filter is_verified l))) || (500 <=? Z.of_nat (length l)).

Definition extended (l : list jdict) (x : dataset) : dataset := mk_dataset (buffer x ++ l) (files x) (latest x).

(** A domain after its turn in the second loop. *)
Definition settled (today : string) (x : dataset) : dataset :=
  if enough (buffer x) then
    let f := mk_version (next_version x) today (buffer x) in mk_dataset [] (files x ++ [f]) (Some (file_name f))
  else x.

Lemma known_domain_name s : known_domain s = true → ∃ d, s = domain_name d.
Proof.
  unfold known_domain. intros [H|H]%orb_true_iff; apply String.eqb_eq in H as ->; [by exists vega|by exists rigel].
Qed.

Lemma domain_name_known d : known_domain (domain_name d) = true.
Proof. by destruct d. Qed.

#[local] Instance domain_name_inj : Inj (=) (=) domain_name.
Proof. by intros [] []. Qed.

Lemma append_example_runs d r s :
  append_example (domain_name d) (example_of r) s = (Ok tt, set_ds d (extended [example_of r] (ds d s)) s).
Proof. by destruct d. Qed.

Lemma examples_cons d r rows :
  examples d (r :: rows) = (if usable d r then [example_of r] else []) ++ examples d rows.
Proof. unfold examples. simpl. by destruct (usable d r). Qed.

Lemma usable_name d d' r : ev_domain r = domain_name d → given (ev_payload r) = true → given (ev_result r) = true →
  usable d' r = bool_decide (d = d').
Proof. unfold usable. intros -> -> ->. rewrite !andb_true_r. by destruct d, d'. Qed.

Lemma unusable d r : known_domain (ev_domain r) = false ∨ given (ev_payload r) = false ∨ given (ev_result r) = false →
  usable d r = false.
Proof.
  unfold usable. intros [H|[-> | ->]]; rewrite ?andb_false_r; try done.
  destruct (String.eqb_spec (ev_domain r) (domain_name d)) as [E|]; [|done]. rewrite E, domain_name_known in H. done.
Qed.

Lemma extended_app l l' x : extended l' (extended l x) = extended (l ++ l') x.
Proof. unfold extended. simpl. by rewrite app_assoc. Qed.

Lemma extended_nil x : extended [] x = x.
Proof. destruct x. unfold extended. simpl. by rewrite app_nil_r. Qed.

(** The first loop extends the buffers by the examples, and counts every row once. *)
Lemma append_rows_spec rows : ∀ s, ∃ n s', append_rows rows s = (Ok n, s') ∧
  (∀ d, ds d s' = extended (examples d rows) (ds d s)) ∧
  n.1 = Z.of_nat (length (examples vega rows) + length (examples rigel rows)) ∧ n.1 + n.2 = Z.of_nat (length rows).
Proof.
  induction rows as [|r rows IH]; intros s.
  { exists (0, 0), s. split_and!; try done. intros d. by rewrite extended_nil. }
  cbn [append_rows]. setoid_rewrite examples_cons.
  destruct (known_domain (ev_domain r)) eqn:Hk, (given (ev_payload r)) eqn:Hp, (given (ev_result r)) eqn:Hr; simpl;
    try (rewrite !(unusable _ r) by auto; destruct (IH s) as (n & s' & E & Hd & H1 & H2);
         exists (n.1, n.2 + 1), s'; munfold; rewrite E; split_and!; try done; [intros d; by rewrite (unusable d r) by auto|simpl; lia]).
  apply known_domain_name in Hk as [d0 Hd0].
  destruct (IH (set_ds d0 (extended [example_of r] (ds d0 s)) s)) as (n & s' & E & Hd & H1 & H2).
  exists (n.1 + 1, n.2), s'. pose proof (append_example_runs d0 r s) as Ha. rewrite <-Hd0 in Ha. munfold. rewrite Ha, E.
  split_and!; [done| | |simpl; lia].
  - intros d. rewrite Hd, ds_set, (usable_name d0) by done. case_bool_decide; [subst; by rewrite extended_app|done].
  - rewrite !(usable_name d0) by done. destruct d0; simpl; lia.
Qed.

Lemma flush_runs d today s : enough (buffer (ds d s)) = true →
  ∃ path, flush (domain_name d) today s = (Ok path, set_ds d (settled today (ds d s)) s).
Proof.
  intros He. exists (file_name (mk_version (next_version (ds d s)) today (buffer (ds d s)))).
  unfold settled. rewrite He. by destruct d.
Qed.

Lemma should_flush_runs d s : should_flush (domain_name d) s = Ok (enough (buffer (ds d s))).
Proof. by destruct d. Qed.

(** The second loop settles each domain it meets, once. *)
Lemma flush_domains_spec today rows : ∀ seen s, ∃ paths s', flush_domains today seen rows s = (Ok paths, s') ∧
  ∀ d, ds d s' = if bool_decide (domain_name d ∈ map ev_domain rows ∧ domain_name d ∉ seen)
                 then settled today (ds d s) else ds d s.
Proof.
  induction rows as [|r rows IH]; intros seen s.
  { exists [], s. split; [done|]. intros d. rewrite bool_decide_eq_false_2; [done|]. intros [H _]. by apply elem_of_nil in H. }
  cbn [flush_domains map]. destruct (known_domain (ev_domain r) && _) eqn:Hk.
  - apply andb_true_iff in Hk as [[d0 Hd0]%known_domain_name Hs]. apply negb_true_iff, bool_decide_eq_false in Hs.
    rewrite Hd0 in *. munfold. rewrite should_flush_runs.
    assert (∀ s1, ds d0 s1 = settled today (ds d0 s) → (∀ d, d ≠ d0 → ds d s1 = ds d s) → ∃ paths s',
      flush_domains today (domain_name d0 :: seen) rows s1 = (Ok paths, s') ∧ ∀ d, ds d s' =
        if bool_decide (domain_name d ∈ domain_name d0 :: map ev_domain rows ∧ domain_name d ∉ seen)
        then settled today (ds d s) else ds d s) as Hgo.
    { intros s1 H0 H1. destruct (IH (domain_name d0 :: seen) s1) as (paths & s' & E & Hd). exists paths, s'.
      split; [done|]. intros d. rewrite Hd. destruct (decide (d = d0)) as [->|Hne].
      - rewrite bool_decide_eq_false_2, bool_decide_eq_true_2 by set_solver. done.
      - rewrite H1 by done. assert (domain_name d ≠ domain_name d0) by by intros ?%(inj domain_name).
        erewrite bool_decide_ext; [done|]. set_solver. }
    destruct (enough (buffer (ds d0 s))) eqn:He; simpl.
    + destruct (flush_runs d0 today s He) as [path ->].
      destruct (Hgo (set_ds d0 (settled today (ds d0 s)) s)) as (paths & s' & E & Hd).
      { rewrite ds_set. by rewrite bool_decide_eq_true_2. }
      { intros d Hne. rewrite ds_set. by rewrite bool_decide_eq_false_2 by congruence. }
      exists (path :: paths), s'. by rewrite E.
    + apply Hgo; [|done]. unfold settled. by rewrite He.
  - destruct (IH seen s) as (paths & s' & E & Hd). exists paths, s'. split; [done|]. intros d. rewrite Hd.
    erewrite bool_decide_ext; [done|]. apply andb_false_iff in Hk as [Hk|Hk].
    + assert (domain_name d ≠ ev_domain r) by (intros E'; rewrite <-E', domain_name_known in Hk; done). set_solver.
    + apply negb_false_iff, bool_decide_eq_true in Hk. rewrite elem_of_cons. split; [tauto|].
      intros [[E'|H] Hn]; [by rewrite E' in Hn|done].
Qed.

Lemma examples_nil d rows : domain_name d ∉ map ev_domain rows → examples d rows = [].
Proof.
  unfold examples. intros H. induction rows as [|r rows IH]; [done|]. apply not_elem_of_cons in H as [Hr H]. simpl.
  unfold usable at 1. destruct (String.eqb_spec (ev_domain r) (domain_name d)); [congruence|]. by apply IH.
Qed.

(** A training run of an existing log is answered; a domain with enough examples gets one new
    file with all its examples, oldest first, whatever the running Orion holds in its own
    buffers, and a domain with fewer gets none: the examples that were counted as written are
    in the answer only. Each row of the log is counted once, as written or as skipped. *)
Theorem training_runs_are_exact today log s : ∃ answer s',
  run_orion_training today (Some log) s = (Ok answer, s') ∧
  (∀ d, let l := examples d (training_rows log) in
    ds d s' = if enough l then let f := mk_version (next_version (ds d s)) today l in
                               mk_dataset [] (files (ds d s) ++ [f]) (Some (file_name f))
              else on_disk (ds d s)) ∧
  ta_written answer = Z.of_nat (length (examples vega (training_rows log)) + length (examples rigel (training_rows log))) ∧
  ta_written answer + ta_skipped answer = Z.of_nat (length (training_rows log)).
Proof.
  set (rows := training_rows log).
  destruct (append_rows_spec rows (reopened s)) as (n & s1 & E1 & Hd1 & Hw & Hn).
  destruct (flush_domains_spec today rows [] s1) as (paths & s2 & E2 & Hd2).
  exists (mk_training n.1 n.2 paths), (reopened s2). split_and!; [|clear Hn|done|done].
  { unfold run_orion_training. munfold. cbn -[reopened append_rows flush_domains]. fold rows.
    rewrite E1. cbn -[reopened append_rows flush_domains]. by rewrite E2. }
  intros d l. assert (ds d (reopened s2) = on_disk (ds d s2)) as -> by by destruct d.
  assert (ds d (reopened s) = on_disk (ds d s)) as Hs by by destruct d.
  rewrite Hd2, Hd1, Hs. unfold settled. simpl. fold l.
  case_bool_decide as Hin; [by destruct (enough l)|].
  assert (l = []) as ->; [|done]. apply examples_nil. intros Hd. apply Hin. split; [done|]. by intros ?%elem_of_nil.
Qed.

(** ** Two runs *)

Module TrainingDemo.
Definition event (id : string) : event_row :=
  mk_event_row id id "rigel.skill.refactor" "rigel" "rigel" "success" (9 # 10) true (Some "prompt") (Some "completion") None None
    "2026-01-02T00:00:00" false None.
Definition log_of (n : nat) : event_log := mk_log (map (λ i, event (py_int (Z.of_nat i))) (seq 0 n)) [] [] [].

(** Fewer examples than a file needs are reported as written, and lost. *)
Example written_examples_are_lost :
  let '(r, s) := run_orion_training "2026-01-02" (Some (log_of 3)) empty_store in
  r = Ok (mk_training 3 0 []) ∧ s = empty_store.
Proof. by vm_compute. Qed.

(** Nothing marks what was used: a second run writes the same examples again. *)
Example runs_repeat_their_examples :
  let s := (run_orion_training "2026-01-03" (Some (log_of 100)) (run_orion_training "2026-01-02" (Some (log_of 100)) empty_store).2).2 in
  map vf_version (files (ds_rigel s)) = [1; 2] ∧
  map (λ f, length (vf_examples f)) (files (ds_rigel s)) = [100; 100]%nat ∧
  length (remove_dups (map vf_examples (files (ds_rigel s)))) = 1%nat.
Proof. by vm_compute. Qed.
End TrainingDemo.
