(* ===== verification/OrionService.v ===== *)
(** orion/__init__.py, the service around the parts of Orion: the extraction cycle, the
    health file, the loop that repeats a cycle, and its tasks beside each other.

    [run_heuristic_cycle] only logs what [run_cycle] of [FineTuning] answers, and stands for
    it. A cycle reads the clock as often as its parts do; [times] holds the readings. A
    weights file that cannot be written, and the broker, are outside: their failures are
    [weights_outage] and, for the health file, logged.

    [task_step] cuts the tasks where they await: intake, the curation of stored events, the
    curation of signals and the training endpoint interleave as their parts do, and
    [ingest_by_tasks] and [cycle_by_tasks] show that the uninterrupted operations are
    sequences of these parts. What may become a training example is stated over them. *)

From S2P Require Import Prelude.
From S2P Require Import PyStr.
From S2P Require Import PyTime.
From S2P Require Import Json.
From S2P Require Import PyDict.
From S2P Require Import Contracts.
From S2P Require Import Feedback.
From S2P Require Import Registry.
From S2P Require Import Dataset.
From S2P Require Import Training.
From S2P Require Import Curation.
From S2P Require Import Signals.
From S2P Require Import Heuristics.
From S2P Require Import FineTuning.
Close Scope Q_scope.
Open Scope Z_scope.

(** The service: its stores, the weights file, the candidates and the health file. *)
Record orion_service := mk_service {
  os_orion : orion;
  os_weights : jdict;
  os_candidates : list FinetuneCandidate;
  os_health : option json }.

Definition on_orion {A} (m : M orion A) : M orion_service A := λ s,
  let '(r, o) := m (os_orion s) in (r, mk_service o (os_weights s) (os_candidates s) (os_health s)).
Definition on_candidates {A} (m : M (list FinetuneCandidate) A) : M orion_service A := λ s,
  let '(r, c) := m (os_candidates s) in (r, mk_service (os_orion s) (os_weights s) c (os_health s)).

(** The readings of the clock in one cycle. *)
Record cycle_times := mk_times {
  ct_now : time;
  ct_later : time;
  ct_sql : string;
  ct_today : string }.

Section Cycle.
Context (json_loads : string → result json) (float_repr : Q → string) (float_text : string → result Q) (int_text : string → result Z).
Context (window_hours min_examples : Z) (min_quality : Q).

(** [self._heuristic_generator.run()]: the file is written when a skill was updated. *)
Definition run_heuristics (now : time) (weights_outage : option exn) : M orion_service run_state := λ s,
  match run_generator float_text int_text now (o_log (os_orion s)) (os_weights s) with
  | Raise e => (Raise e, s)
  | Ok (data, r) =>
      match rn_updated r, weights_outage with
      | _ :: _, Some e => (Raise e, s)
      | _, _ => (Ok r, mk_service (os_orion s) data (os_candidates s) (os_health s))
      end
  end.

(** [_write_health_file]. *)
Definition health_record (now : time) (d : event_log) : json :=
  let counts := count_unexported_by_domain d in
  JObj [("status", JStr "healthy"); ("last_cycle_at", JStr (iso now)); ("events_processed_total", JInt (count_events d));
        ("buffer_vega", JInt (or_else (assoc_get "vega" counts) 0)); ("buffer_rigel", JInt (or_else (assoc_get "rigel" counts) 0))].

Definition write_health_file (now : time) (failed : bool) : M orion_service unit := λ s,
  (Ok tt, if failed then s
          else mk_service (os_orion s) (os_weights s) (os_candidates s) (Some (health_record now (o_log (os_orion s))))).

(** What may fail outside in a cycle, and the identifiers it draws. *)
Record cycle_world := mk_cycle_world {
  cw_times : cycle_times;
  cw_ids : nat → string;
  cw_weights_outage : option exn;
  cw_health_failed : bool }.

(** [run_extraction_cycle] once the stored events are curated. *)
Definition after_curation (w : cycle_world) : M orion_service unit :=
  let t := cw_times w in
  s ← mget;
  signals ← mlift (extract_all_domains window_hours (ct_now t) (ct_later t) (o_log (os_orion s)));
  miter (λ g, on_orion (on_data (curate float_repr (iso (ct_now t)) (ct_today t) g));; mret tt) signals;;
  run_heuristics (ct_now t) (cw_weights_outage w);;
  s ← mget;
  on_candidates (check min_examples min_quality (cw_ids w) (iso (ct_now t)) (o_log (os_orion s)));;
  write_health_file (ct_now t) (cw_health_failed w).

(** [run_extraction_cycle]. *)
Definition run_extraction_cycle (w : cycle_world) : M orion_service unit :=
  on_orion (curate_from_events json_loads (ct_sql (cw_times w)) (ct_today (cw_times w)));;
  after_curation w.

(** [_run_on_interval]: an error is logged, and the next turn comes. *)
Fixpoint run_on_interval (turns : list cycle_world) : M orion_service unit := λ s,
  match turns with
  | [] => (Ok tt, s)
  | w :: turns => run_on_interval turns (run_extraction_cycle w s).2
  end.
End Cycle.

(** ** What any number of cycles leaves alone *)

(** Events are only marked, what a dataset holds is only added to, its files stay, and no
    candidate is removed or changed. *)
Record grows_orion (s s' : orion) : Prop := {
  same_events : events (o_log s') = events (o_log s);
  same_feedback : feedback_events (o_log s') = feedback_events (o_log s);
  marks_grow : curated_events (o_log s) `prefix_of` curated_events (o_log s');
  held_grows : ∀ d, held (ds d (o_data s)) `prefix_of` held (ds d (o_data s'));
  files_grow : ∀ d, files (ds d (o_data s)) `prefix_of` files (ds d (o_data s')) }.

Record grows (s s' : orion_service) : Prop := {
  stores_grow : grows_orion (os_orion s) (os_orion s');
  candidates_grow : os_candidates s `prefix_of` os_candidates s' }.

#[local] Instance grows_orion_pre : PreOrder grows_orion.
Proof. split; [by intros s; split|]. intros a b c [] []. split; intros; try congruence; etrans; eauto. Qed.

#[local] Instance grows_pre : PreOrder grows.
Proof. split; [by intros s; split|]. intros a b c [] []. split; etrans; eauto. Qed.

(** The datasets alone. *)
Record grows_data (s s' : dataset_store) : Prop := {
  data_held : ∀ d, held (ds d s) `prefix_of` held (ds d s');
  data_files : ∀ d, files (ds d s) `prefix_of` files (ds d s') }.

#[local] Instance grows_data_pre : PreOrder grows_data.
Proof. split; [by intros s; split|]. intros a b c [] []. split; intros; etrans; eauto. Qed.

Lemma append_within name e : within grows_data (append_example name e).
Proof.
  intros s. destruct (append_example name e s) as [[[]|err] s'] eqn:E.
  - apply append_example_ok in E as (d & _ & ->). simpl. split; intros d'; rewrite ds_set; case_bool_decide; subst; try done.
    unfold held. simpl. rewrite app_assoc. by eexists.
  - unfold append_example in E. munfold. crunch_match; done.
Qed.

Lemma flush_within name today : within grows_data (flush name today).
Proof.
  intros s. destruct (flush name today s) as [[path|err] s'] eqn:E; simpl.
  - split; intros d; [by rewrite (flush_held _ _ _ _ _ d E)|]. apply flush_ok in E as (d' & _ & _ & ->).
    rewrite ds_set. case_bool_decide; subst; [by eexists|done].
  - unfold flush in E. munfold. crunch_match; done.
Qed.

Ltac data_within := repeat (go_within;
  match goal with
  | |- within _ (append_example _ _) => apply append_within
  | |- within _ (flush _ _) => apply flush_within
  end).

Lemma curate_within repr now today g : within grows_data (curate repr now today g).
Proof.
  assert (∀ e c w t, within grows_data (add_event repr now e c w t)) as Ha by (intros; unfold add_event; data_within).
  assert (∀ A (f : tally → A → M dataset_store tally) l, (∀ t a, within grows_data (f t a)) →
    ∀ t, within grows_data (mfold f t l)) as Hf.
  { intros A f l Hf. induction l as [|a l IH]; intros t; cbn [mfold]; [go_within|].
    apply within_bind; [apply _|apply Hf|intros t'; apply IH]. }
  unfold curate. apply within_bind; [apply _| |intros t1].
  { apply Hf. intros t p. unfold curate_pair. go_within. apply Ha. }
  apply within_bind; [apply _| |intros t2].
  { apply Hf. intros t e. unfold curate_success. go_within. apply Ha. }
  unfold flush_if_full. data_within.
Qed.

Lemma on_data_within {A} (m : M dataset_store A) : within grows_data m → within grows_orion (on_data m).
Proof. intros Hm s. unfold on_data. specialize (Hm (o_data s)). destruct (m (o_data s)). destruct Hm. by split. Qed.

Lemma insert_curated_prefix now dom ids : ∀ l, l `prefix_of` foldl (insert_curated now dom) l ids.
Proof.
  induction ids as [|i ids IH]; intros l; [done|]. simpl. etrans; [|apply IH].
  unfold insert_curated. case_match; [done|by eexists].
Qed.

Lemma mark_within now ids dom : within grows_orion (on_log (mmodify (mark_curated now ids dom))).
Proof. intros s. split; try done. apply insert_curated_prefix. Qed.

Lemma curate_events_within loads now today : within grows_orion (curate_from_events loads now today).
Proof.
  unfold curate_from_events. go_within. unfold curate_domain. apply within_bind; [apply _| |intros ids].
  - generalize a.2 as rows. induction rows as [|r rows IH]; cbn [curate_rows]; go_within; [|done].
    intros s'. unfold try_append. pose proof (on_data_within _ (append_within a.1 a0) s') as H.
    destruct (on_data _ s') as [[|[]] s1]; exact H.
  - go_within; [apply mark_within|]. apply on_data_within, flush_within.
Qed.

(** ** Candidates *)

Lemma check_within e q id now d : within prefix (check e q id now d).
Proof.
  unfold check. generalize 0%nat as i. induction (query_agent_stats d) as [|x l IH]; intros i; cbn [check_agents]; go_within; [|apply IH].
  destruct x as [[a n] q']. intros s. unfold check_agent, add_candidate. munfold. crunch_match; try done; by eexists.
Qed.

(** ** The cycle *)

Section Cycles.
Context (json_loads : string → result json) (float_repr : Q → string) (float_text : string → result Q) (int_text : string → result Z).
Context (window_hours min_examples : Z) (min_quality : Q).
Local Abbreviation cycle := (run_extraction_cycle json_loads float_repr float_text int_text window_hours min_examples min_quality).
Local Abbreviation interval := (run_on_interval json_loads float_repr float_text int_text window_hours min_examples min_quality).

Lemma on_orion_within {A} (m : M orion A) : within grows_orion m → within grows (on_orion m).
Proof. intros Hm s. unfold on_orion. specialize (Hm (os_orion s)). destruct (m (os_orion s)). by split. Qed.

Lemma rest_within w : within grows (after_curation float_repr float_text int_text window_hours min_examples min_quality w).
Proof.
  unfold after_curation. go_within.
  - apply on_orion_within, on_data_within, curate_within.
  - intros s'. unfold run_heuristics. repeat case_match; simpl; by split.
  - intros s'. unfold on_candidates. pose proof (check_within min_examples min_quality (cw_ids w) (iso (ct_now (cw_times w)))
      (o_log (os_orion s0)) (os_candidates s')) as H. destruct (check _ _ _ _ _ _). by split.
  - intros s'. unfold write_health_file. simpl. case_match; by split.
Qed.

Lemma cycle_within w : within grows (cycle w).
Proof.
  unfold run_extraction_cycle. go_within; [apply on_orion_within, curate_events_within|apply rest_within].
Qed.

(** Marks are never taken back. *)
Lemma settled_grows s s' : grows_orion s s' → settled s → settled s'.
Proof.
  intros [He _ [l Hl] _ _] Hs r Hr Hg Hd. rewrite He in Hr. specialize (Hs r Hr Hg Hd). unfold all_sources in *.
  rewrite Hl, map_app. set_solver.
Qed.

(** However often the cycle is repeated, and whichever of its parts fail in which turns, the
    events and the feedback of the log stay as they are, marks and examples are only added,
    the files of the datasets stay, and so does every candidate for training. *)
Theorem cycles_only_add turns s : grows s (interval turns s).2.
Proof.
  revert s. induction turns as [|w turns IH]; intros s; [done|]. cbn [run_on_interval].
  etrans; [apply (cycle_within w)|apply IH].
Qed.

(** After a turn no strong event of a known domain is left to curate, also when a later part of
    the turn failed; and the health file, where it was written, tells what the log holds. *)
Theorem a_cycle_leaves_nothing_strong w s r s' (Hok : orion_ok json_loads (os_orion s)) (H : cycle w s = (r, s')) :
  settled (os_orion s') ∧
  (r = Ok tt → cw_health_failed w = false →
    os_health s' = Some (health_record (ct_now (cw_times w)) (o_log (os_orion s')))).
Proof.
  destruct (curate_from_events_ok json_loads (ct_sql (cw_times w)) (ct_today (cw_times w)) _ Hok) as (o & Ho & _ & Hs & _).
  unfold run_extraction_cycle in H.
  assert (after_curation float_repr float_text int_text window_hours min_examples min_quality w
    (mk_service o (os_weights s) (os_candidates s) (os_health s)) = (r, s')) as Hrest.
  { rewrite <-H. unfold mbind, M_bind, on_orion. by rewrite Ho. }
  split.
  - pose proof (rest_within w (mk_service o (os_weights s) (os_candidates s) (os_health s))) as [Hg _].
    rewrite Hrest in Hg. by eapply settled_grows.
  - intros -> Hf. unfold after_curation in Hrest. repeat (apply mbind_ok in Hrest as (? & ? & _ & Hrest)).
    unfold write_health_file in Hrest. rewrite Hf in Hrest. by injection Hrest as <-.
Qed.
End Cycles.

(** ** What may become an example

    Orion is one process of many tasks: ingestion, the extraction cycle and the heuristic
    cycle run side by side, and each gives way wherever it awaits the database. So what is
    atomic is not [curate_from_events] but its parts: reading the rows, appending the
    examples of one domain, marking them, flushing. A task acts on the rows it has read,
    however old they are by then. Beside them the training endpoint writes to the same
    directories with buffers of its own; a request of it is one step, since of two writers of
    one file only the later one's examples stay. Nothing else in the program writes the
    datasets or the log: [mark_exported] has no caller, and retention leaves Orion's tables
    alone. *)

Record tasks := mk_tasks {
  tk_orion : orion;
  tk_read : list event_row;
  tk_signals : list SignalRecord }.

Definition nothing_running : tasks := mk_tasks no_orion [] [].

(** The process that runs the endpoint has its own buffers, and the same directories. *)
Definition trained (today : string) (s : orion) : orion :=
  let disk := (run_orion_training today (Some (o_log s)) (o_data s)).2 in
  let keep (mine d : dataset) := mk_dataset (buffer mine) (files d) (latest d) in
  mk_orion (o_log s) (mk_store (keep (ds_vega (o_data s)) (ds_vega disk)) (keep (ds_rigel (o_data s)) (ds_rigel disk))) (o_counts s).

Section Sources.
Context (json_loads : string → result json) (py_str : json → string) (to_float : json → result Q) (float_repr : Q → string).
Local Abbreviation migrate := (migrate_files json_loads py_str to_float float_repr).

(** The parts of the tasks between two awaits, and a restart of the process. *)
Inductive task_step (t : tasks) : tasks → Prop :=
  | tk_event reg sql_now e : known_event reg e = Ok tt →
      task_step t (mk_tasks (on_log (append_event sql_now e (negb (eligible e))) (tk_orion t)).2 (tk_read t) (tk_signals t))
  | tk_count c :
      task_step t (mk_tasks (mk_orion (o_log (tk_orion t)) (o_data (tk_orion t)) c) (tk_read t) (tk_signals t))
  | tk_migrate now fs : task_step t (mk_tasks (on_log (migrate now fs) (tk_orion t)).2 (tk_read t) (tk_signals t))
  | tk_feedback fresh e : task_step t (mk_tasks (on_log (append fresh e) (tk_orion t)).2 (tk_read t) (tk_signals t))
  | tk_quarantine event fresh reason at_ :
      task_step t (mk_tasks (on_log (quarantine event fresh reason at_) (tk_orion t)).2 (tk_read t) (tk_signals t))
  | tk_rows : task_step t (mk_tasks (tk_orion t) (tk_read t ++ get_uncurated_events (o_log (tk_orion t))) (tk_signals t))
  | tk_append name rows : Forall (λ r, r ∈ tk_read t ∧ ev_domain r = name) rows →
      task_step t (mk_tasks (curate_rows json_loads name rows (tk_orion t)).2 (tk_read t) (tk_signals t))
  | tk_mark now ids name :
      task_step t (mk_tasks (on_log (mmodify (mark_curated now ids name)) (tk_orion t)).2 (tk_read t) (tk_signals t))
  | tk_flush name today : task_step t (mk_tasks (on_data (flush name today) (tk_orion t)).2 (tk_read t) (tk_signals t))
  | tk_extract dom window_hours now now' g : extract dom window_hours now now' (o_log (tk_orion t)) = Ok g →
      task_step t (mk_tasks (tk_orion t) (tk_read t) (tk_signals t ++ [g]))
  | tk_signal now today g : g ∈ tk_signals t →
      task_step t (mk_tasks (on_data (curate float_repr now today g) (tk_orion t)).2 (tk_read t) (tk_signals t))
  | tk_train today : task_step t (mk_tasks (trained today (tk_orion t)) (tk_read t) (tk_signals t))
  | tk_restart : task_step t (mk_tasks (OrionDemo.restarted (tk_orion t)) [] []).

(** *** Whole operations are sequences of these parts *)

Definition by_tasks (rows : list event_row) (gs : list SignalRecord) (s s' : orion) : Prop :=
  rtc task_step (mk_tasks s rows gs) (mk_tasks s' rows gs).

#[local] Instance by_tasks_pre rows gs : PreOrder (by_tasks rows gs).
Proof. split; [intros s; apply rtc_refl|]. intros a b c H1 H2. unfold by_tasks in *. by etrans. Qed.

Lemma curate_domain_by_tasks rows gs now today g : Forall (λ r, r ∈ rows ∧ ev_domain r = g.1) g.2 →
  within (by_tasks rows gs) (curate_domain json_loads now today g).
Proof.
  intros Hg. unfold curate_domain. go_within; try (intros s'; apply rtc_once).
  - apply (tk_append (mk_tasks s' rows gs) g.1 g.2 Hg).
  - apply (tk_mark (mk_tasks s' rows gs)).
  - apply (tk_flush (mk_tasks s' rows gs)).
Qed.

Lemma curate_from_events_by_tasks now today s rows gs : ∃ rows',
  rtc task_step (mk_tasks s rows gs) (mk_tasks (curate_from_events json_loads now today s).2 rows' gs).
Proof.
  exists (rows ++ get_uncurated_events (o_log s)). eapply rtc_l; [apply tk_rows|]. cbn [tk_orion tk_read tk_signals].
  set (all := rows ++ _). unfold curate_from_events. rewrite (mbind_step mget _ _ _ _ eq_refl).
  assert (Forall (λ g, Forall (λ r, r ∈ all ∧ ev_domain r = g.1) g.2) (by_domain (get_uncurated_events (o_log s)))) as Hg.
  { unfold by_domain. apply Forall_map, Forall_forall. intros n _. simpl. apply Forall_forall.
    intros r [Hr Hd%String.eqb_eq]%filter_subset. split; [|done]. apply elem_of_app. by right. }
  revert Hg. generalize (by_domain (get_uncurated_events (o_log s))) as l. intros l Hg.
  enough (within (by_tasks all gs) (miter (curate_domain json_loads now today) l)) as H by apply H.
  induction Hg as [|g l Hg _ IH]; cbn [miter]; [go_within|]. apply within_bind; [apply _|by apply curate_domain_by_tasks|done].
Qed.

Lemma ingest_by_tasks reg sql_now now today e s rows gs : ∃ rows',
  rtc task_step (mk_tasks s rows gs) (mk_tasks (ingest json_loads reg sql_now now today e s).2 rows' gs).
Proof.
  unfold ingest. destruct (known_event reg e) as [[]|err] eqn:Ek; [|by exists rows].
  rewrite (mbind_step (mlift (Ok tt)) _ _ _ _ eq_refl).
  pose proof (tk_event (mk_tasks s rows gs) reg sql_now e Ek) as Hfirst. cbn [tk_orion tk_read tk_signals] in Hfirst.
  destruct (eligible e).
  - rewrite (mbind_step (on_log (append_event sql_now e false)) _ s (uuid_str (rf_task e))
      (on_log (append_event sql_now e false) s).2) by done.
    rewrite (mbind_step mget _ _ _ _ eq_refl). set (s1 := (on_log _ _).2) in *. cbv zeta.
    rewrite (mbind_step (mput _) _ s1 tt _ eq_refl).
    match goal with |- context [mk_orion ?l ?d ?c] => pose proof (tk_count (mk_tasks s1 rows gs) c) as Hcount; set (s2 := mk_orion l d c) in * end.
    destruct (curate_from_events_by_tasks now today s2 rows gs) as [rows' H]. exists rows'.
    eapply rtc_l; [exact Hfirst|]. eapply rtc_l; [exact Hcount|]. cbn [tk_orion tk_read tk_signals].
    match goal with |- rtc _ _ (mk_tasks (?m s2).2 _ _) =>
      enough ((m s2).2 = (curate_from_events json_loads now today s2).2) as -> by exact H end.
    unfold mbind, M_bind. by destruct (curate_from_events json_loads now today s2) as [[]].
  - exists rows. eapply rtc_l; [exact Hfirst|]. apply rtc_refl.
Qed.

(** *** Where an example comes from *)

(** A row the log may hold: an event as intake stored it, quarantined when it was refused, or
    one line of a flat file. *)
Definition taken_in (q : bool) (r : event_row) : Prop :=
  ∃ now e, eligible e = negb q ∧ r = row_of_refinery now e q.
Definition migrated (r : event_row) : Prop :=
  ∃ stem now raw, migrate_line json_loads py_str to_float float_repr stem now raw = Ok (Some r).
Definition recorded (r : event_row) : Prop := (∃ q, taken_in q r) ∨ migrated r.

Definition posted (l : event_log) : list FeedbackEvent := map fr_event (feedback_events l).
Definition log_ok (l : event_log) : Prop :=
  Forall recorded (events l) ∧ Forall (λ e, fb_verified e = false) (posted l).

(** What a log has is kept, and what is added is as it should be. *)
Record log_grows (l l' : event_log) : Prop := {
  rows_kept : events l ⊆ events l';
  posted_kept : posted l ⊆ posted l';
  still_ok : log_ok l → log_ok l' }.

#[local] Instance log_grows_pre : PreOrder log_grows.
Proof. split; [by intros l; split|]. intros a b c [] []. split; [by etrans|by etrans|auto]. Qed.

(** The sources of an example of domain [d], over the rows and the feedback of a log. *)
Inductive good_source (l : event_log) (d : domain) (ex : jdict) : Prop :=
  | from_row r : r ∈ events l → recorded r → strong r = true → ev_domain r = domain_name d →
      example_for json_loads r = Ok ex → good_source l d ex
  | from_feedback now e : e ∈ posted l → fb_verified e = false → is_high_quality e = true → is_success (fb_outcome e) = true →
      domain_for_event e = Some (domain_name d) →
      example_for_event float_repr now e (domain_name d) (result_payload e) (fb_confidence e) = Some ex → good_source l d ex
  | from_migration r : r ∈ events l → migrated r → ev_quarantined r = false → ev_outcome r = "success" →
      ev_domain r = domain_name d → ex = example_of r → good_source l d ex.

Lemma good_source_grows l l' d ex : log_grows l l' → good_source l d ex → good_source l' d ex.
Proof. intros [Hr Hp _] []; [eapply from_row|eapply from_feedback|eapply from_migration]; eauto. Qed.

(** *** The log *)

Lemma insert_event_grows r l : recorded r → log_grows l (set_events (insert_event r (events l)) l).
Proof.
  intros Hr. destruct (insert_event_cases r (events l)) as [[-> _]|[-> _]]; [by destruct l; split|].
  split; simpl; [set_solver|done|]. intros [He Hf]. split; [|done]. apply Forall_app. by split; [|apply Forall_singleton].
Qed.

Lemma append_event_grows now e : within log_grows (append_event now e (negb (eligible e))).
Proof.
  intros l. apply insert_event_grows. left. exists (negb (eligible e)), now, e. by rewrite negb_involutive.
Qed.

Lemma migrate_lines_recorded stem now lines : ∀ rows,
  migrate_lines json_loads py_str to_float float_repr stem now lines = Ok rows → Forall recorded rows.
Proof.
  induction lines as [|l lines IH]; intros rows H; simpl in H; rok; [constructor|].
  destruct x as [r|]; [|by apply IH]. constructor; [|by apply IH]. right. by eexists _, _, _.
Qed.

Lemma inserts_grow rows : Forall recorded rows → ∀ l,
  log_grows l (set_events (foldl (λ es r, insert_event r es) (events l) rows) l).
Proof.
  induction 1 as [|r rows Hr _ IH]; intros l; [by destruct l; split|]. cbn [foldl].
  etrans; [apply (insert_event_grows r l Hr)|apply (IH (set_events _ l))].
Qed.

Lemma migrate_grows now fs : within log_grows (migrate now fs).
Proof.
  induction fs as [|f fs IH]; cbn [migrate_files]; [go_within|].
  destruct (is_uuid_text (fl_stem f)); [done|]. destruct (fl_lines f) as [lines|]; [|done]. intros l.
  destruct (migrate_lines json_loads py_str to_float float_repr (fl_stem f) now lines) as [rows|err] eqn:E; [|done].
  rewrite (mbind_step (mlift (Ok rows)) _ _ _ _ eq_refl), (mbind_step (mmodify _) _ l tt _ eq_refl).
  etrans; [apply (inserts_grow rows (migrate_lines_recorded _ _ _ _ E) l)|].
  match goal with |- log_grows ?l0 (?m ?l0).2 => enough (within log_grows m) as Hw by apply Hw end.
  apply within_bind; [apply _|exact IH|intros n; go_within].
Qed.

Lemma append_grows fresh e : within log_grows (append fresh e).
Proof.
  intros l. unfold append. mcrunch; try done. clear E.
  assert (∀ r, posted (set_feedback (feedback_events l ++ [r]) l) = posted l ++ [fr_event r]) as E
    by (intros; unfold posted; simpl; by rewrite map_app).
  split; [done|rewrite E; set_solver|]. unfold log_ok. rewrite E. intros [He Hf]. split; [done|].
  apply Forall_app. by split; [|apply Forall_singleton].
Qed.

Lemma quarantine_grows event fresh reason at_ : within log_grows (quarantine event fresh reason at_).
Proof.
  intros l. assert (posted (quarantine event fresh reason at_ l).2 = posted l) as E.
  { unfold posted. simpl. rewrite map_map. apply map_ext. intros r. by destruct (N.eqb _ _). }
  split; [done|by rewrite E|]. unfold log_ok. by rewrite E.
Qed.

(** *** The datasets *)

(** What a domain holds afterwards it held before, or it has a source. *)
Definition adds (P : domain → jdict → Prop) (s s' : dataset_store) : Prop :=
  ∀ d ex, ex ∈ held (ds d s') → ex ∈ held (ds d s) ∨ P d ex.

#[local] Instance adds_pre P : PreOrder (adds P).
Proof. split; [by left|]. intros a b c H1 H2 d ex [H|]%H2; [by apply H1|by right]. Qed.

Lemma append_adds P name ex : (∀ d, name = domain_name d → P d ex) → within (adds P) (append_example name ex).
Proof.
  intros HP s. destruct (append_example name ex s) as [[[]|err] s'] eqn:E.
  - apply append_example_ok in E as (d & Hd & ->). intros d' ex'. simpl. rewrite ds_set. case_bool_decide; [subst d'|by left].
    unfold held. simpl. rewrite app_assoc, elem_of_app, list_elem_of_singleton. intros [?| ->]; [by left|right; by apply HP].
  - unfold append_example in E. munfold. crunch_match; done.
Qed.

Lemma flush_adds P name today : within (adds P) (flush name today).
Proof.
  intros s. destruct (flush name today s) as [[path|err] s'] eqn:E; simpl.
  - intros d ex. rewrite (flush_held _ _ _ _ _ d E). by left.
  - unfold flush in E. munfold. crunch_match; done.
Qed.

Lemma on_disk_held x ex : ex ∈ held (on_disk x) → ex ∈ held x.
Proof. unfold held. simpl. rewrite app_nil_r. set_solver. Qed.

Lemma reopened_adds P : within (adds P) (mmodify reopened).
Proof. intros s d ex H. left. destruct d; by apply on_disk_held. Qed.

Lemma flush_domains_adds P today rows : ∀ seen, within (adds P) (flush_domains today seen rows).
Proof.
  induction rows as [|r rows IH]; intros seen; cbn [flush_domains]; [go_within|].
  destruct (_ && _); [|apply IH]. apply within_bind; [apply _|by intros s; unfold mread; destruct (should_flush _ s)|].
  intros []; [|apply IH]. go_within; [apply flush_adds|apply IH].
Qed.

Lemma append_rows_adds P rows :
  (∀ r d, r ∈ rows → ev_domain r = domain_name d → given (ev_payload r) = true → P d (example_of r)) →
  within (adds P) (append_rows rows).
Proof.
  induction rows as [|r rows IH]; intros HP; cbn [append_rows]; [go_within|].
  assert (within (adds P) (append_rows rows)) as Hr by (apply IH; intros; apply HP; [by right|done..]).
  destruct (given (ev_payload r)) eqn:Hg; rewrite ?orb_true_r, ?orb_false_r; cbn [negb orb]; [|by go_within].
  destruct (_ || _); [by go_within|]. apply within_bind; [apply _|apply append_adds|intros; by go_within].
  intros d Hd. apply HP; [by left|done..].
Qed.

Lemma training_adds P today l :
  (∀ r d, r ∈ training_rows l → ev_domain r = domain_name d → given (ev_payload r) = true → P d (example_of r)) →
  within (adds P) (run_orion_training today (Some l)).
Proof.
  intros HP s. unfold run_orion_training. rewrite (mbind_step (mlift _) _ s l s eq_refl).
  match goal with |- adds P s (?m s).2 => enough (within (adds P) m) as Hw by apply Hw end.
  go_within; [apply reopened_adds|by apply append_rows_adds|apply flush_domains_adds|apply reopened_adds].
Qed.

Lemma curate_adds P now today g :
  (∀ p, p ∈ sg_pairs g → fb_verified p.1 = false) →
  (∀ e d ex, e ∈ sg_high_quality g → fb_verified e = false → is_success (fb_outcome e) = true →
    domain_for_event e = Some (domain_name d) →
    example_for_event float_repr now e (domain_name d) (result_payload e) (fb_confidence e) = Some ex → P d ex) →
  within (adds P) (curate float_repr now today g).
Proof.
  intros Hp He. assert (∀ A (f : tally → A → M dataset_store tally) l, (∀ t a, a ∈ l → within (adds P) (f t a)) →
    ∀ t, within (adds P) (mfold f t l)) as Hf.
  { intros A f l Hf. induction l as [|a l IH]; intros t; cbn [mfold]; [go_within|].
    apply within_bind; [apply _|apply Hf; by left|intros t'; apply IH; intros; apply Hf; by right]. }
  unfold curate. apply within_bind; [apply _| |intros t1].
  { apply Hf. intros t p Hin. unfold curate_pair. rewrite (Hp p Hin). go_within. }
  apply within_bind; [apply _| |intros t2].
  { apply Hf. intros t e Hin. unfold curate_success. destruct (fb_verified e) eqn:Hv; [go_within|].
    destruct (is_success (fb_outcome e)) eqn:Hs; cbn [negb orb]; [|go_within].
    destruct (Qltb _ _); [go_within|]. unfold add_event.
    destruct (domain_for_event e) as [dom|] eqn:Ed; [|go_within].
    destruct (example_for_event _ _ _ _ _ _) as [ex|] eqn:Ee; [|go_within].
    apply within_bind; [apply _|apply append_adds|intros; go_within]. intros d ->. by apply (He e). }
  unfold flush_if_full. go_within. apply flush_adds.
Qed.

(** *** The invariant *)

Definition readable (l : event_log) (r : event_row) : Prop := r ∈ events l ∧ recorded r ∧ strong r = true.
Definition signal_ok (l : event_log) (g : SignalRecord) : Prop :=
  (∀ p, p ∈ sg_pairs g → fb_verified p.1 = false) ∧
  ∀ e, e ∈ sg_high_quality g → e ∈ posted l ∧ is_high_quality e = true.

Record tasks_ok (t : tasks) : Prop := {
  log_holds : log_ok (o_log (tk_orion t));
  read_holds : Forall (readable (o_log (tk_orion t))) (tk_read t);
  signals_hold : Forall (signal_ok (o_log (tk_orion t))) (tk_signals t);
  held_holds : ∀ d ex, ex ∈ held (ds d (o_data (tk_orion t))) → good_source (o_log (tk_orion t)) d ex }.

(** A part that only writes the log. *)
Lemma log_part_ok {A} (m : M event_log A) t : within log_grows m → tasks_ok t →
  tasks_ok (mk_tasks (on_log m (tk_orion t)).2 (tk_read t) (tk_signals t)).
Proof.
  intros Hm [Hl Hr Hs Hh]. unfold on_log. specialize (Hm (o_log (tk_orion t))). destruct (m _) as [x l].
  split; simpl in *; [by apply Hm| | |intros d ex Hex; by eapply good_source_grows, Hh].
  - eapply Forall_impl; [exact Hr|]. intros r (? & ? & ?). split_and!; [by apply Hm|done..].
  - eapply Forall_impl; [exact Hs|]. intros g [Hp He]. split; [done|]. intros e [? ?]%He. split; [by apply Hm|done].
Qed.

(** A part that only writes the datasets. *)
Lemma data_part_ok t data c : tasks_ok t → adds (good_source (o_log (tk_orion t))) (o_data (tk_orion t)) data →
  tasks_ok (mk_tasks (mk_orion (o_log (tk_orion t)) data c) (tk_read t) (tk_signals t)).
Proof. intros [Hl Hr Hs Hh] Ha. split; simpl; [done..|]. intros d ex [?|?]%Ha; [by apply Hh|done]. Qed.

Definition adds_orion (l : event_log) (P : domain → jdict → Prop) (s s' : orion) : Prop :=
  o_log s' = o_log s ∧ o_counts s' = o_counts s ∧ (o_log s = l → adds P (o_data s) (o_data s')).

#[local] Instance adds_orion_pre l P : PreOrder (adds_orion l P).
Proof.
  split; [by intros s; split_and!|]. intros a b c (H1 & H2 & H3) (H4 & H5 & H6). split_and!; [congruence..|].
  intros Hl. etrans; [by apply H3|]. apply H6. congruence.
Qed.

Lemma curate_rows_adds l name rows :
  Forall (λ r, readable l r ∧ ev_domain r = name) rows →
  within (adds_orion l (good_source l)) (curate_rows json_loads name rows).
Proof.
  induction 1 as [|r rows [(Hr & Hrec & Hs) Hd] _ IH]; cbn [curate_rows]; [go_within|]. intros s.
  destruct (example_for json_loads r) as [ex|err] eqn:E; [|done]. rewrite (mbind_step (mlift (Ok ex)) _ s ex s eq_refl).
  match goal with |- adds_orion _ _ s (?m s).2 => enough (within (adds_orion l (good_source l)) m) as Hw by apply Hw end.
  go_within; [|done]. intros s'. unfold try_append, on_data.
  assert (within (adds (good_source l)) (append_example name ex)) as Ha
    by (apply append_adds; intros d ->; by eapply from_row).
  specialize (Ha (o_data s')). destruct (append_example name ex (o_data s')) as [[u|[]] s1]; by split_and!.
Qed.

Lemma sg_ok l dom h now now' g : extract dom h now now' l = Ok g → log_ok l → signal_ok l g.
Proof.
  intros H [_ Hf]. destruct (signals_are_faithful _ _ _ _ _ _ H) as (es & w & _ & Hg & _ & _ & Hes & _ & _ & _ & _ & _ & Hp).
  assert (∀ e, e ∈ es → e ∈ posted l) as Hin.
  { intros e (_ & _ & r & Hr & <- & _)%Hes. by apply list_elem_of_fmap_2. }
  split.
  - intros [e c] (He & _)%Hp. by apply (proj1 (Forall_forall _ _) Hf), Hin.
  - rewrite Hg. intros e [He Hq]%filter_subset. split; [by apply Hin|done].
Qed.

Lemma trained_ok t today : tasks_ok t → tasks_ok (mk_tasks (trained today (tk_orion t)) (tk_read t) (tk_signals t)).
Proof.
  intros Hok. apply data_part_ok; [done|]. destruct Hok as [[Hl _] _ _ _].
  set (l := o_log (tk_orion t)) in *. set (s := o_data (tk_orion t)).
  assert (adds (good_source l) s (run_orion_training today (Some l) s).2) as Ha.
  { apply training_adds. intros r d [Hr Hq]%elem_of_py_sorted%filter_subset Hd Hg.
    apply andb_true_iff in Hq as [Hq%negb_true_iff Ho%String.eqb_eq].
    destruct (proj1 (Forall_forall _ _) Hl r Hr) as [(q & now & e & _ & ->)|Hm]; [done|].
    by eapply from_migration. }
  intros d ex Hex.
  assert (ex ∈ held (ds d s) ∨ ex ∈ held (ds d (run_orion_training today (Some l) s).2)) as [?|?%Ha]; [|by left|done].
  unfold held in *. destruct d; simpl in *; set_solver.
Qed.

Lemma task_step_ok t t' : task_step t t' → tasks_ok t → tasks_ok t'.
Proof.
  intros H Hok. destruct H as [reg sql_now e _|c|now fs|fresh e|event fresh reason at_| |name rows Hrows|now ids name|name today
    |dom h now now' g Hg|now today g Hg|today|].
  - by apply log_part_ok; [apply append_event_grows|].
  - by apply data_part_ok.
  - by apply log_part_ok; [apply migrate_grows|].
  - by apply log_part_ok; [apply append_grows|].
  - by apply log_part_ok; [apply quarantine_grows|].
  - pose proof Hok as [[Hl _] Hr Hs Hh]. split; simpl; [by apply Hok| |done..]. apply Forall_app. split; [done|].
    apply Forall_forall. intros r (Hin & Hst & _)%uncurated_iff.
    split_and!; [done|by apply (proj1 (Forall_forall _ _) Hl)|done].
  - assert (Forall (λ r, readable (o_log (tk_orion t)) r ∧ ev_domain r = name) rows) as Hw.
    { eapply Forall_impl; [exact Hrows|]. intros r [Hr Hd]. split; [|done].
      by apply (proj1 (Forall_forall _ _) (read_holds _ Hok)). }
    destruct (curate_rows_adds _ name rows Hw (tk_orion t)) as (H1 & _ & H3).
    destruct (curate_rows json_loads name rows (tk_orion t)).2 as [l data c]. simpl in *. subst l. by apply data_part_ok; [|apply H3].
  - apply log_part_ok; [|done]. by intros l; split.
  - unfold on_data. pose proof (flush_adds (good_source (o_log (tk_orion t))) name today (o_data (tk_orion t))) as Ha.
    destruct (flush _ _ _). by apply data_part_ok.
  - destruct Hok as [Hl Hr Hs Hh]. split; simpl; [done..| |done]. apply Forall_app. split; [done|]. apply Forall_singleton. by eapply sg_ok.
  - destruct (proj1 (Forall_forall _ _) (signals_hold _ Hok) g Hg) as [Hp He]. unfold on_data.
    assert (within (adds (good_source (o_log (tk_orion t)))) (curate float_repr now today g)) as Ha.
    { apply curate_adds; [done|]. intros e d ex [Hin Hq]%He Hv Hsu Hd Hex. by eapply from_feedback. }
    specialize (Ha (o_data (tk_orion t))). destruct (curate _ _ _ _ _). by apply data_part_ok.
  - by apply trained_ok.
  - destruct Hok as [Hl Hr Hs Hh]. split; simpl; [done|constructor|constructor|]. intros d ex Hex. apply Hh.
    unfold held in *. destruct d; simpl in *; set_solver.
Qed.

Lemma reached_ok t : rtc task_step nothing_running t → tasks_ok t.
Proof.
  intros H. cut (tasks_ok nothing_running → tasks_ok t).
  { intros Hc. apply Hc. split; simpl; try constructor; [constructor..|]. intros [] ex Hex; by apply elem_of_nil in Hex. }
  induction H as [|a b c Hs _ IH]; [done|]. intros Hok. by eapply IH, task_step_ok.
Qed.

Lemma strong_iff r : strong r = true ↔
  ev_quarantined r = false ∧ (ev_verified r = true ∨ ev_outcome r = "success" ∧ (9 # 10 <= ev_confidence r)%Q).
Proof.
  unfold strong. rewrite andb_true_iff, negb_true_iff, orb_true_iff, andb_true_iff, String.eqb_eq, Qle_bool_iff. tauto.
Qed.

Lemma recorded_unquarantined r : recorded r → ev_quarantined r = false →
  (∃ now e, eligible e = true ∧ r = row_of_refinery now e false) ∨ migrated r.
Proof.
  intros [([] & now & e & He & ->)|Hm] Hq; [done| |by right]. left. by exists now, e.
Qed.

(** C32: only what was found good trains, on every path and however the tasks interleave.
    Whatever parts of intake, curation, migration, extraction of signals and training requests
    ran, in whatever order, on rows read at whatever time, and across restarts, an example that
    a domain holds, in its files or its buffer, was made of one of three things in the log.
    Either of a stored row of that domain, verified by a human or a success of confidence at
    least 0.9, that is an event which intake found eligible or a line of a migrated file; or,
    by the training endpoint, of a migrated row that is a success; or of a feedback event that
    completed without a correction, at a confidence above 0.9. An event that intake refused is
    never learnt from, by whichever task. *)
Theorem only_good_events_train t d ex :
  rtc task_step nothing_running t → ex ∈ held (ds d (o_data (tk_orion t))) →
  let l := o_log (tk_orion t) in
  (∃ r, r ∈ events l ∧ ev_domain r = domain_name d ∧ example_for json_loads r = Ok ex
     ∧ (ev_verified r = true ∨ ev_outcome r = "success" ∧ (9 # 10 <= ev_confidence r)%Q)
     ∧ ((∃ now e, eligible e = true ∧ r = row_of_refinery now e false)
        ∨ ∃ stem now raw, migrate_line json_loads py_str to_float float_repr stem now raw = Ok (Some r)))
  ∨ (∃ r, r ∈ events l ∧ ev_domain r = domain_name d ∧ ex = example_of r
     ∧ ev_outcome r = "success" ∧ ev_quarantined r = false
     ∧ ∃ stem now raw, migrate_line json_loads py_str to_float float_repr stem now raw = Ok (Some r))
  ∨ (∃ now r, r ∈ feedback_events l ∧ let e := fr_event r in
     fb_outcome e = completed_ ∧ (9 # 10 < fb_confidence e)%Q ∧ fb_correction e = None
     ∧ domain_for_event e = Some (domain_name d)
     ∧ example_for_event float_repr now e (domain_name d) (result_payload e) (fb_confidence e) = Some ex).
Proof.
  intros Ht Hex l. apply reached_ok in Ht. destruct (held_holds _ Ht d ex Hex) as [r Hr Hrec Hs Hd He|now e He Hv Hq Hsu Hd Hee|r Hr Hm Hq Ho Hd He].
  - left. apply strong_iff in Hs as [Hq Hs]. exists r. split_and!; [done..|]. by apply recorded_unquarantined.
  - right. right. apply list_elem_of_fmap in He as (r & -> & Hr). exists now, r. cbv zeta.
    apply andb_true_iff in Hq as [Hc%Qltb_lt Hn]. split_and!; [done| |done| |done..].
    + by destruct (fb_outcome (fr_event r)).
    + by destruct (fb_correction (fr_event r)).
  - right. left. by exists r.
Qed.
End Sources.

(** *** A turn is a sequence of these parts *)

Section Turns.
Context (json_loads : string → result json) (py_str : json → string) (to_float : json → result Q) (float_repr : Q → string).
Context (float_text : string → result Q) (int_text : string → result Z).
Context (window_hours min_examples : Z) (min_quality : Q).
Local Abbreviation cycle := (run_extraction_cycle json_loads float_repr float_text int_text window_hours min_examples min_quality).
Local Abbreviation steps := (rtc (task_step json_loads py_str to_float float_repr)).

Lemma signals_by_tasks now now' s rows doms : ∀ signals gs,
  rmap (λ dom, extract dom window_hours now now' (o_log s)) doms = Ok signals →
  steps (mk_tasks s rows gs) (mk_tasks s rows (gs ++ signals)).
Proof.
  induction doms as [|dom doms IH]; intros signals gs H; simpl in H; rok; [by rewrite app_nil_r|].
  eapply rtc_l; [by eapply (tk_extract _ _ _ _ (mk_tasks s rows gs))|]. cbn [tk_orion tk_read tk_signals].
  replace (gs ++ x :: x0) with ((gs ++ [x]) ++ x0) by (by rewrite <-app_assoc). by apply IH.
Qed.

Definition turns_by rows gs (s s' : orion_service) : Prop :=
  steps (mk_tasks (os_orion s) rows gs) (mk_tasks (os_orion s') rows gs).
#[local] Instance turns_by_pre rows gs : PreOrder (turns_by rows gs).
Proof. split; [intros s; apply rtc_refl|]. intros a b c H1 H2. unfold turns_by in *. by etrans. Qed.

Lemma rest_by_tasks w s rows gs : ∃ gs', steps (mk_tasks (os_orion s) rows gs)
  (mk_tasks (os_orion (after_curation float_repr float_text int_text window_hours min_examples min_quality w s).2) rows gs').
Proof.
  unfold after_curation. cbv zeta. rewrite (mbind_step mget _ s s s eq_refl).
  destruct (extract_all_domains window_hours (ct_now (cw_times w)) (ct_later (cw_times w)) (o_log (os_orion s))) as [signals|err] eqn:E;
    [|by exists gs].
  rewrite (mbind_step (mlift (Ok signals)) _ s signals s eq_refl). exists (gs ++ signals).
  etrans; [by eapply signals_by_tasks|].
  match goal with |- steps _ (mk_tasks (os_orion (?m s).2) _ ?all) => enough (within (turns_by rows all) m) as Hw by apply Hw end.
  assert (∀ g, g ∈ signals → g ∈ gs ++ signals) as Hin by set_solver. revert Hin. generalize (gs ++ signals) as all. intros all Hin.
  apply within_bind; [apply _| |intros _].
  - clear E. induction signals as [|g signals IH]; cbn [miter]; [go_within|].
    apply within_bind; [apply _| |intros _; apply IH; intros; apply Hin; by right].
    go_within. intros s'. unfold on_orion, turns_by.
    assert (g ∈ all) as Hg by (apply Hin; by left).
    pose proof (tk_signal json_loads py_str to_float float_repr (mk_tasks (os_orion s') rows all) (iso (ct_now (cw_times w)))
      (ct_today (cw_times w)) g Hg) as Hstep. cbn [tk_orion tk_read tk_signals] in Hstep.
    destruct (on_data _ (os_orion s')) as [x o]. by apply rtc_once.
  - go_within; intros s'.
    + unfold run_heuristics. repeat case_match; apply rtc_refl.
    + unfold on_candidates. destruct (check _ _ _ _ _ _). apply rtc_refl.
    + unfold write_health_file. destruct (cw_health_failed w); apply rtc_refl.
Qed.

Lemma cycle_by_tasks w s rows gs : ∃ rows' gs',
  steps (mk_tasks (os_orion s) rows gs) (mk_tasks (os_orion (cycle w s).2) rows' gs').
Proof.
  destruct (curate_from_events_by_tasks json_loads py_str to_float float_repr (ct_sql (cw_times w)) (ct_today (cw_times w))
    (os_orion s) rows gs) as [rows' H1].
  unfold run_extraction_cycle, on_orion, mbind, M_bind.
  destruct (curate_from_events _ _ _ (os_orion s)) as [[[]|err] o]; [|by exists rows', gs].
  destruct (rest_by_tasks w (mk_service o (os_weights s) (os_candidates s) (os_health s)) rows' gs) as [gs' H2].
  exists rows', gs'. etrans; [exact H1|exact H2].
Qed.
End Turns.

(** ** Two tasks at once *)

Module RaceDemo.
Import OrionDemo.
Local Abbreviation step := (task_step loads str_of_json float_of repr).

(** The example is the one of the event that intake accepted. *)
Lemma only_good_events_train_witness :
  let s := take_in weak_one (take_in strong_one no_orion) in
  ∃ rows ex, held (ds rigel (o_data s)) = [ex] ∧
  let t := mk_tasks s rows [] in
  rtc step nothing_running t ∧
  ((∃ r, r ∈ events (o_log s) ∧ ev_domain r = "rigel" ∧ example_for loads r = Ok ex)
   ∨ (∃ r, r ∈ events (o_log s) ∧ ex = example_of r)
   ∨ ∃ r, r ∈ feedback_events (o_log s)).
Proof.
  intros s.
  destruct (ingest_by_tasks loads str_of_json float_of repr None sql_now iso_now today strong_one no_orion [] []) as [r1 H1].
  destruct (ingest_by_tasks loads str_of_json float_of repr None sql_now iso_now today weak_one
    (take_in strong_one no_orion) r1 []) as [r2 H2].
  assert (rtc step nothing_running (mk_tasks s r2 [])) as Ht by (etrans; [exact H1|exact H2]).
  destruct (held (ds rigel (o_data s))) as [|ex l] eqn:E; [by vm_compute in E|].
  assert (ex ∈ held (ds rigel (o_data (tk_orion (mk_tasks s r2 []))))) as Hin
    by (cbn [tk_orion]; rewrite E; apply elem_of_cons; by left).
  exists r2, ex. split; [vm_compute in E; by injection E as <- <-|]. split; [exact Ht|].
  destruct (only_good_events_train loads str_of_json float_of repr (mk_tasks s r2 []) rigel ex Ht Hin)
    as [(r & H & Hd & He & _)|[(r & H & _ & He & _)|(now & r & H & _)]].
  - left. by exists r.
  - right. left. by exists r.
  - right. right. by exists r.
Defined.

(** Ingestion and the extraction cycle both read the event before either has marked it: it is
    learnt twice, and marked once. *)
Definition ev1 : event_row := row_of_refinery sql_now strong_one false.
Example two_tasks_learn_an_event_twice : ∃ t, rtc step nothing_running t ∧
  map (obj_field "task_id") (held (ds rigel (o_data (tk_orion t)))) = [JStr (uuid_str 1); JStr (uuid_str 1)] ∧
  map cu_source (curated_events (o_log (tk_orion t))) = [uuid_str 1].
Proof.
  eexists. split.
  { eapply rtc_l; [exact (tk_event _ _ _ _ _ None sql_now strong_one eq_refl)|].
    eapply rtc_l; [apply tk_rows|]. eapply rtc_l; [apply tk_rows|].
    eapply rtc_l; [apply (tk_append _ _ _ _ _ "rigel" [ev1]), Forall_singleton; vm_compute; by split; [left|]|].
    eapply rtc_l; [apply (tk_append _ _ _ _ _ "rigel" [ev1]), Forall_singleton; vm_compute; by split; [left|]|].
    eapply rtc_l; [apply (tk_mark _ _ _ _ _ sql_now [uuid_str 1] "rigel")|].
    apply rtc_once, (tk_mark _ _ _ _ _ sql_now [uuid_str 1] "rigel"). }
  split; vm_compute; reflexivity.
Qed.
End RaceDemo.

(** ** A cycle *)

Module CycleDemo.
Definition noon : time := 1767268800000000.
Definition w0 : cycle_world :=
  mk_cycle_world (mk_times noon noon "2026-01-01 12:00:00" "2026-01-01") (λ _, "c1") None false.
Definition texts (s : string) : result Q := Raise ValueError.
Definition ints (s : string) : result Z := Raise ValueError.
Definition start (weights : jdict) : orion_service := mk_service OrionDemo.three weights [] None.
Definition cycle : cycle_world → M orion_service unit :=
  run_extraction_cycle OrionDemo.loads OrionDemo.repr texts ints 24 1 (1 # 2).

Lemma a_cycle_leaves_nothing_strong_witness :
  let s := (cycle w0 (start [])).2 in
  settled (os_orion s) ∧ os_health s = Some (health_record noon (o_log (os_orion s))).
Proof.
  destruct (cycle w0 (start [])) as [r s] eqn:E. simpl.
  pose proof (a_cycle_leaves_nothing_strong OrionDemo.loads OrionDemo.repr texts ints 24 1 (1 # 2) w0 (start []) r s
    (orion_reachable_ok _ _ _ _ (λ d, ex_intro _ [] eq_refl) OrionDemo.three OrionDemo.three_reached) E) as [H1 H2].
  split; [exact H1|]. apply H2; [|done].
  assert (r = (cycle w0 (start [])).1) as -> by by rewrite E. by vm_compute.
Defined.

(** An entry of the weights file that is no mapping ends the turn: the events are curated, but
    no candidate is looked for, and the health file is not written by the cycle. *)
Example a_broken_weights_file_ends_the_turn :
  let '(r, s) := cycle w0 (start [("weights", JInt 1)]) in
  r = Raise TypeError ∧ os_candidates s = [] ∧ os_health s = None ∧
  length (os_candidates (cycle w0 (start [])).2) = 1%nat.
Proof. by vm_compute. Qed.
End CycleDemo.
