(* ===== verification/GitWorkspace.v ===== *)
(** workspace/git_workspace.py and workspace/git_changes.py: an isolated Git worktree for each
    goal, and the commit of its artifacts; core/setup/readiness.py.

    A path is the list of its components under the root of the file system, which has no
    symbolic links and holds what the program itself writes. Git is an argument over a state
    of its own: it is given a directory and its arguments, and answers with its output or
    fails, which [subprocess.run(check=True)] raises as [CalledProcessError]. *)

From S2P Require Import Prelude.
From S2P Require Import PyStr.
From S2P Require Import Json.
From S2P Require Import Artifacts.
From S2P Require Import ArtifactScan.
From S2P Require Import Forge.
From Stdlib Require Import Ascii.
Open Scope Z_scope.

Record GitWorkspace := mk_workspace {
  gw_goal : string;
  gw_path : list string;
  gw_branch : string;
  gw_base : string }.

(** [re.fullmatch(r"[0-9a-f]{40}", s)]. *)
Definition is_lower_hex (c : ascii) : bool := existsb (Ascii.eqb c) (to_list "0123456789abcdef").
Definition full_sha (s : string) : bool := (String.length s =? 40)%nat && forallb is_lower_hex (to_list s).

(** [re.sub(r"[^A-Za-z0-9._-]", "-", goal_id).strip("-")]. *)
Definition safe_char (c : ascii) : bool := is_letter c || is_digit c || existsb (Ascii.eqb c) (to_list "._-").
Fixpoint drop_dashes (l : list ascii) : list ascii :=
  match l with
  | c :: l' => if Ascii.eqb c "-" then drop_dashes l' else l
  | [] => []
  end.
Definition safe_goal (goal_id : string) : string :=
  of_list (rev (drop_dashes (rev (drop_dashes (map (λ c, if safe_char c then c else "-"%char) (to_list goal_id)))))).

(** [(base / name).resolve()]: an absolute name replaces the base. *)
Definition below (base : list string) (name : string) : list string :=
  resolve (if startswith name "/" then [] else base) (split "/" name).

Record git_box (G : Type) := mk_box { gb_fs : filesystem; gb_git : G }.
Arguments mk_box {G}. Arguments gb_fs {G}. Arguments gb_git {G}.

Section Git.
Context {G : Type} (git : list string → list string → M G string) (workspace_json : GitWorkspace → string)
  (path_text : list string → string).

Definition run_git (dir args : _) : M (git_box G) string := λ s,
  let '(r, g) := git dir args (gb_git s) in (r, mk_box (gb_fs s) g).

Definition path_exists (fs : filesystem) (p : list string) : bool :=
  bool_decide (p = []) || bool_decide (p ∈ dirs fs) || bool_decide (is_Some (files fs !! p)).

(** [except CalledProcessError]. *)
Definition or_workspace_error {A} (m : M (git_box G) A) : M (git_box G) A := λ s,
  match m s with
  | (Raise CalledProcessError, s) => (Raise WorkspaceError, s)
  | r => r
  end.

Definition put_file (p : list string) (text : string) : M (git_box G) unit :=
  mmodify (λ s, mk_box (mk_fs (<[p := text]> (files (gb_fs s))) (dirs (gb_fs s))) (gb_git s)).

(** [GitWorkspaceManager.create]; [is_repository] says where there is a [.git]. *)
Definition create (is_repository : list string → bool) (root : list string) (repository : list string)
    (goal_id base_commit_sha : string) : M (git_box G) GitWorkspace :=
  mguard (is_repository repository) WorkspaceError;;
  mguard (full_sha base_commit_sha) WorkspaceError;;
  let name := safe_goal goal_id in
  mguard (truthy_str name) WorkspaceError;;
  let branch := "galaxz/goal-" +:+ name in
  let p := below root name in
  s ← mget;
  mguard (is_prefix root p && negb (path_exists (gb_fs s) p)) WorkspaceError;;
  or_workspace_error (run_git repository ["worktree"; "add"; "-b"; branch; path_text p; base_commit_sha]);;
  mmodify (λ s, mk_box (mk_fs (files (gb_fs s)) ({[p]} ∪ dirs (gb_fs s))) (gb_git s));;
  let w := mk_workspace goal_id p branch base_commit_sha in
  put_file (p ++ [".galaxz-workspace.json"]) (workspace_json w);;
  mret w.

(** [cleanup]: what git removes is gone from the file system too. *)
Definition cleanup (root : list string) (repository : list string) (w : GitWorkspace) : M (git_box G) unit :=
  mguard (is_prefix root (gw_path w)) WorkspaceError;;
  or_workspace_error (run_git repository ["worktree"; "remove"; "--force"; path_text (gw_path w)]);;
  mmodify (λ s, mk_box
    (mk_fs (filter (λ kv, is_prefix (gw_path w) kv.1 = false) (files (gb_fs s)))
           (filter (λ p, is_prefix (gw_path w) p = false) (dirs (gb_fs s)))) (gb_git s)).

(** *** git_changes.py *)

Definition canonical_diff (workspace : list string) : M (git_box G) string :=
  run_git workspace ["diff"; "HEAD"; "--binary"; "--no-ext-diff"].

(** One artifact of the loop: written, and added. *)
Definition apply_artifact (workspace : list string) (a : string * string) : M (git_box G) unit :=
  let target := below workspace a.1 in
  mguard (is_prefix workspace target) WorkspaceError;;
  s ← mget;
  fs ← mlift (mkdirs [] (removelast target) (gb_fs s));
  mmodify (λ s, mk_box fs (gb_git s));;
  mguard (negb (bool_decide (target ∈ dirs fs))) OSError;;
  put_file target a.2;;
  run_git workspace ["add"; "--"; a.1];;
  mret tt.

Definition commit_artifacts (workspace : list string) (artifacts : list (string * string))
    (expected_base_sha goal_id author_name author_email : string) : M (git_box G) (string * string) :=
  current ← run_git workspace ["rev-parse"; "HEAD"];
  mguard (String.eqb (strip current) expected_base_sha) WorkspaceError;;
  miter (apply_artifact workspace) artifacts;;
  diff ← canonical_diff workspace;
  mguard (truthy_str diff) WorkspaceError;;
  run_git workspace ["-c"; "user.name=" +:+ author_name; "-c"; "user.email=" +:+ author_email;
                     "commit"; "-m"; "galaxz: apply goal " +:+ goal_id +:+ " artifacts"];;
  sha ← run_git workspace ["rev-parse"; "HEAD"];
  mret (strip sha, diff).
End Git.

(** ** First run *)

Definition REQUIRED_SETTINGS : list (string * string) :=
  [("database", "GALAXZ_DATABASE_URL"); ("queue", "REDIS_URL"); ("object_storage", "GALAXZ_ARTIFACT_STORAGE");
   ("model", "ANTHROPIC_MODEL"); ("identity", "GALAXZ_API_KEY"); ("github", "GALAXZ_GITHUB_APP_ID");
   ("sample_repository", "GALAXZ_SAMPLE_REPOSITORY")].

(** [setup_readiness]: the status, and that of every check. *)
Definition setup_readiness (env : string → option string) : string * list (string * string) :=
  let checks := map (λ nv, (nv.1, if truthy_str (or_else (env nv.2) "") then "ok" else "blocked")) REQUIRED_SETTINGS in
  (if forallb (λ c, String.eqb c.2 "ok") checks then "ready" else "blocked", checks).

(** ** Workspaces stay where they belong *)

Lemma is_prefix_app a b : is_prefix a (a ++ b) = true.
Proof. induction a as [|x a IH]; [done|]. simpl. by rewrite String.eqb_refl. Qed.

Lemma safe_goal_chars s c : c ∈ to_list (safe_goal s) → safe_char c = true.
Proof.
  assert (∀ l x, x ∈ drop_dashes l → x ∈ l) as Hd.
  { induction l as [|y l IH]; intros x Hx; simpl in Hx; [done|]. case_match; [right; by apply IH|done]. }
  unfold safe_goal. rewrite to_of_list. intros Hc. apply list_elem_of_In, in_rev, list_elem_of_In, Hd, list_elem_of_In, in_rev, list_elem_of_In, Hd in Hc.
  apply list_elem_of_fmap in Hc as (x & -> & _). by destruct (safe_char x) eqn:E.
Qed.

Lemma safe_goal_no_slash s : no_slash (safe_goal s).
Proof. intros Hc. by apply safe_goal_chars in Hc. Qed.

(** Where the worktree of a goal goes: directly under the root, or nowhere. *)
Lemma below_safe root s : is_prefix root (below root (safe_goal s)) = true →
  below root (safe_goal s) = root ∨ below root (safe_goal s) = root ++ [safe_goal s].
Proof.
  pose proof (safe_goal_no_slash s) as Hns. unfold below. rewrite split_plain by done.
  assert (startswith (safe_goal s) "/" = false) as ->.
  { destruct (safe_goal s) as [|c t] eqn:E; [done|]. unfold startswith. simpl.
    case_match; [|done]. subst. exfalso. apply Hns. by left. }
  simpl. destruct (_ || _); [by left|]. destruct (String.eqb_spec (safe_goal s) "..") as [E|]; [|by right].
  intros Hp. destruct root as [|x r _] using rev_ind; [by left|]. exfalso. rewrite removelast_last in Hp. clear -Hp.
  induction r as [|y r IH]; [done|]. simpl in Hp. by apply andb_true_iff in Hp as [_ Hp].
Qed.

Section Theorems.
Context {G : Type} (git : list string → list string → M G string) (workspace_json : GitWorkspace → string)
  (path_text : list string → string).
Implicit Types (s : git_box G).

Definition changes_below (p : list string) (s s' : git_box G) : Prop :=
  ∀ q, files (gb_fs s') !! q ≠ files (gb_fs s) !! q → is_prefix p q = true.

(** A worktree is made only for a full commit of a repository, in a new directory directly
    under the root, on a branch that carries the name of the directory, and by one call of
    git; no file outside of it changes, whatever becomes of the call, and without it git was
    not called at all. *)
Theorem worktrees_are_isolated is_repo root repository goal base s r s' (Hroot : path_exists (gb_fs s) root = true)
    (H : create git workspace_json path_text is_repo root repository goal base s = (r, s')) :
  changes_below (below root (safe_goal goal)) s s' ∧
  (∀ w, r = Ok w →
    gw_path w = root ++ [safe_goal goal] ∧ gw_branch w = "galaxz/goal-" +:+ safe_goal goal ∧ gw_base w = base ∧
    full_sha base = true ∧ is_repo repository = true ∧ path_exists (gb_fs s) (gw_path w) = false ∧
    gb_git s' = (git repository ["worktree"; "add"; "-b"; gw_branch w; path_text (gw_path w); base] (gb_git s)).2) ∧
  (path_exists (gb_fs s) (below root (safe_goal goal)) = true ∨ full_sha base = false → r = Raise WorkspaceError ∧ s' = s).
Proof.
  set (p := below root (safe_goal goal)) in *.
  assert (r = Raise WorkspaceError ∧ s' = s →
    changes_below p s s' ∧ (∀ w, r = Ok w → gw_path w = root ++ [safe_goal goal] ∧ gw_branch w = "galaxz/goal-" +:+ safe_goal goal ∧
      gw_base w = base ∧ full_sha base = true ∧ is_repo repository = true ∧ path_exists (gb_fs s) (gw_path w) = false ∧
      gb_git s' = (git repository ["worktree"; "add"; "-b"; gw_branch w; path_text (gw_path w); base] (gb_git s)).2) ∧
    (path_exists (gb_fs s) p = true ∨ full_sha base = false → r = Raise WorkspaceError ∧ s' = s)) as Hno.
  { intros [-> ->]. split_and!; [by intros q|done|done]. }
  unfold create in H. fold p in H. munfold. simpl in H.
  destruct (is_repo repository) eqn:Hrepo; [|injection H as <- <-; by apply Hno].
  destruct (full_sha base) eqn:Hsha; [|injection H as <- <-; by apply Hno].
  destruct (truthy_str (safe_goal goal)) eqn:Hname; [|injection H as <- <-; by apply Hno].
  destruct (is_prefix root p) eqn:Hin; [|injection H as <- <-; by apply Hno].
  destruct (path_exists (gb_fs s) p) eqn:Hex; [injection H as <- <-; by apply Hno|]. clear Hno. simpl in H.
  assert (p = root ++ [safe_goal goal]) as Hp.
  { destruct (below_safe root goal Hin) as [E|E]; [|done]. fold p in E. congruence. }
  unfold or_workspace_error, run_git in H. destruct (git repository _ (gb_git s)) as [[out|e] g] eqn:Hgit; simpl in H.
  - injection H as <- <-. split_and!; [| |by intros [|]].
    + intros q Hq. simpl in Hq. destruct (decide (q = p ++ [".galaxz-workspace.json"])) as [->|Hne]; [apply is_prefix_app|].
      by rewrite lookup_insert_ne in Hq.
    + intros w [= <-]. simpl. by rewrite Hgit.
  - split_and!; [|intros w ->; by destruct e|by intros [|]]. intros q Hq.
    assert (gb_fs s' = gb_fs s) as E by (destruct e; by injection H as _ <-). by rewrite E in Hq.
Qed.

Lemma apply_artifact_below ws a s : changes_below ws s (apply_artifact git ws a s).2.
Proof.
  unfold apply_artifact, changes_below. munfold. intros q. destruct (is_prefix ws (below ws a.1)) eqn:Hin; simpl; [|done].
  destruct (mkdirs _ _ _) as [fs|] eqn:Hm; simpl; [|done]. apply mkdirs_files in Hm.
  destruct (bool_decide (below ws a.1 ∈ dirs fs)); simpl; [by rewrite Hm|].
  unfold run_git. simpl. destruct (git ws _ _) as [[] g]; simpl; (destruct (decide (q = below ws a.1)) as [->|Hne];
    [done|rewrite lookup_insert_ne by done; by rewrite Hm]).
Qed.

Lemma changes_trans ws s1 s2 s3 : changes_below ws s1 s2 → changes_below ws s2 s3 → changes_below ws s1 s3.
Proof.
  intros H1 H2 q Hq. destruct (decide (files (gb_fs s2) !! q = files (gb_fs s1) !! q)) as [E|Hne]; [|by apply H1].
  apply H2. by rewrite E.
Qed.

Lemma git_below ws dir args s : changes_below ws s (run_git git dir args s).2.
Proof. intros q. unfold run_git. by destruct (git dir args (gb_git s)). Qed.

(** Committing artifacts writes below the workspace only. When the workspace is not at the
    commit the goal began from, nothing is written and git is asked for nothing else. *)
Theorem commits_stay_in_their_workspace ws artifacts base goal author email s r s'
    (H : commit_artifacts git ws artifacts base goal author email s = (r, s')) :
  changes_below ws s s' ∧
  ∀ out g, git ws ["rev-parse"; "HEAD"] (gb_git s) = (Ok out, g) → strip out ≠ base →
    r = Raise WorkspaceError ∧ s' = mk_box (gb_fs s) g.
Proof.
  split.
  - assert (within (changes_below ws) (commit_artifacts git ws artifacts base goal author email)) as Hw.
    { assert (PreOrder (changes_below ws)) by (split; [by intros x q|intros x y z; apply changes_trans]).
      unfold commit_artifacts, canonical_diff. go_within; try (intros s0; apply git_below). intros s0. apply apply_artifact_below. }
    specialize (Hw s). by rewrite H in Hw.
  - intros out g Hout Hne. unfold commit_artifacts, run_git in H. munfold. rewrite Hout in H. simpl in H.
    apply String.eqb_neq in Hne. rewrite Hne in H. by injection H as <- <-.
Qed.
End Theorems.

(** ** A repository *)

Module GitDemo.
(** A git that keeps the calls it was given; its answer to a question for the head is "abc" and a blank. *)
Definition git (dir args : list string) : M (list (list string)) string := λ log,
  (Ok (if bool_decide (args = ["rev-parse"; "HEAD"]) then "abc" +:+ " " else "diff"), log ++ [args]).
Definition text (p : list string) : string := "/" +:+ join "/" p.
Definition sha : string := "0123456789abcdef0123456789abcdef01234567".
Definition s0 : git_box (list (list string)) := mk_box (mk_fs ∅ {[ ["srv"]; ["srv"; "goals"] ]}) [].
Definition make (goal : string) := create git (λ _, "{}") text (λ _, true) ["srv"; "goals"] ["srv"; "app"] goal sha.
Definition commit (l : list (string * string)) (base : string) :=
  commit_artifacts git ["srv"; "goals"; "g1"] l base "g1" "Galaxz" "galaxz@example.com".

Lemma worktrees_are_isolated_witness : ∃ w s, make "a/b" s0 = (Ok w, s) ∧ gw_path w = ["srv"; "goals"; "a-b"] ∧
  changes_below ["srv"; "goals"; "a-b"] s0 s.
Proof.
  destruct (make "a/b" s0) as [r s] eqn:E.
  pose proof (worktrees_are_isolated git (λ _, "{}") text (λ _, true) ["srv"; "goals"] ["srv"; "app"] "a/b" sha s0 r s
    ltac:(by vm_compute) E) as (H1 & _ & _).
  assert (r = (make "a/b" s0).1) as -> by by rewrite E. eexists _, s. split; [by vm_compute|]. split; [by vm_compute|exact H1].
Defined.

Lemma commits_stay_in_their_workspace_witness : (commit [("a.py", "x")] "other" s0).1 = Raise WorkspaceError ∧
  changes_below ["srv"; "goals"; "g1"] s0 (commit [("a.py", "x")] "other" s0).2.
Proof.
  destruct (commit [("a.py", "x")] "other" s0) as [r s] eqn:E.
  pose proof (commits_stay_in_their_workspace git ["srv"; "goals"; "g1"] [("a.py", "x")] "other" "g1" "Galaxz"
    "galaxz@example.com" s0 r s E) as [H1 H2].
  destruct (H2 ("abc" +:+ " ") [["rev-parse"; "HEAD"]] ltac:(by vm_compute) ltac:(by vm_compute)) as [-> _].
  split; [done|exact H1].
Defined.

(** Goals whose identifiers differ in what is replaced share a directory: the second is refused. *)
Example similar_goals_collide : (make "a b" (make "a/b" s0).2).1 = Raise WorkspaceError.
Proof. by vm_compute. Qed.

(** An artifact that would escape is refused, but those before it are already written and added. *)
Example a_refused_commit_leaves_files :
  let '(r, s) := commit [("a.py", "x"); ("../b.py", "y")] "abc" s0 in
  r = Raise WorkspaceError ∧ files (gb_fs s) !! ["srv"; "goals"; "g1"; "a.py"] = Some "x" ∧ ["add"; "--"; "a.py"] ∈ gb_git s.
Proof. vm_compute. split_and!; [done|done|]. apply elem_of_cons. right. by left. Qed.
End GitDemo.
